(* ===== verification/_CoqProject ===== *)
-Q . S2P
Prelude.v
NgxNumber.v
NgxBase64.v
NgxEscape.v
NgxCompare.v
NgxTime.v
NgxParse.v
NgxInet.v
NgxUrl.v
NgxRbtree.v
NgxRbtreeProof.v
NgxRbtreeDelete.v
NgxRbtreeOps.v
EventTimer.v
NgxRadix.v
HttpUri.v
HttpRawUri.v
HttpRequestLine.v
HttpHeader.v
HttpStatus.v
HttpChunked.v
HttpRange.v
SqlText.v
SetMisc.v
SetBase32.v
Redis2Reply.v
Redis2.v
BackEnd.v
Login.v
RoundRobin.v
RdsStream.v
RdsJsonOut.v
Json.v
RdsJsonFilter.v
RdsJsonProof.v
RdsJsonSafe.v
RdsJsonTable.v
RdsJsonConf.v
RdsJsonReply.v
Drizzle.v
DrizzleProof.v
MySqlJson.v
DrizzleUpstream.v
DrizzleLocation.v
DrizzlePool.v
DrizzlePoolProof.v
DrizzleStatus.v
