(* ===== verification/Prelude.v ===== *)
(** * A verification of the nginx HTTP back end

    The repository is a back end for a WeChat application: nginx 1.13.10
    (src/nginx-master) with a module of its own (src/nginx_http_back_end) and modules
    that reach Redis and MySQL (src/redis2-nginx-module-master,
    src/set-misc-nginx-module-master and others).  A login request passes through all
    of what is modelled here.  nginx reads the request line, the headers and the URI,
    and decodes a chunked body.  The login handler of the back end takes a code from
    the body and issues a subrequest to WeChat; with the answer it issues a subrequest
    to the location /redis_set, whose arguments are found by the [$arg_] variables,
    unescaped by set-misc and sent by redis2 to a server that the round robin picked;
    when Redis has stored the session the client gets its answer.  The locations that
    query MySQL use the drizzle module (src/drizzle-nginx-module-master), which writes
    the result as a stream in a binary format, and the rds-json filter
    (src/rds-json-nginx-module-master), which turns that stream into JSON.

    ** Files

    - Prelude: byte strings, character literals, slices of memory, the loop [mrun]
      shared by the parsers, the state monad [St] of the code on memory, tactics, hints and
      general lemmas.
    - NgxNumber: core/ngx_string.c, decimal and hexadecimal numbers read and printed.
    - NgxBase64: core/ngx_string.c, both alphabets, against the class
      [Base64Alphabet].
    - NgxEscape: core/ngx_string.c, escaping for URIs, HTML and JSON, unescaping; the
      class [TwoPass] states that the counting pass and the writing pass agree.
    - NgxCompare: core/ngx_string.c and ngx_string.h, comparison, search, [ngx_sort].
    - NgxTime: core/ngx_times.c and core/ngx_parse_time.c, the dates of HTTP.
    - NgxParse: core/ngx_parse.c, sizes and times of the configuration.
    - NgxInet: core/ngx_inet.c, addresses of IPv4 and IPv6 read and printed.
    - NgxUrl: core/ngx_inet.c, networks, addresses with a port and [ngx_parse_url].
    - NgxRbtree: core/ngx_rbtree.c and ngx_rbtree.h, red-black trees with parent pointers
      in memory, and the relation between memory and trees.
    - NgxRbtreeProof, NgxRbtreeDelete, NgxRbtreeOps: insertion, deletion and the other
      operations on trees; what they promise, by ordered lists; the class [KeyOrder] states
      what a comparison promises to the tree.
    - EventTimer: event/ngx_event_timer.c and ngx_event_timer.h, on that tree.
    - NgxRadix: core/ngx_radix_tree.c and ngx_radix_tree.h, tables of networks, and what
      they promise, by functions from prefixes to values.
    - HttpUri: http/ngx_http_parse.c, [ngx_http_parse_complex_uri].
    - HttpRawUri: http/ngx_http_parse.c, [ngx_http_parse_uri],
      [ngx_http_parse_unsafe_uri], [ngx_http_split_args], [ngx_http_arg].
    - HttpRequestLine: [ngx_http_parse_request_line]; the class [StrCmp] stands for the
      two variants of the comparison macros, one of which reads words of memory.
    - HttpHeader: [ngx_http_parse_header_line] and the hashes of core/ngx_hash.c.
    - HttpStatus: [ngx_http_parse_status_line].
    - HttpChunked: [ngx_http_parse_chunked], the request-body filter around it
      (http/ngx_http_request_body.c) and the response filter
      (http/modules/ngx_http_chunked_filter_module.c).
    - HttpRange: http/modules/ngx_http_range_filter_module.c, byte ranges, with the
      dates of NgxTime in If-Range.
    - SqlText: the reader of string literals of the data base, drizzled/sql_lex.cc and
      ctype-utf8.cc of src/drizzle7-2011.07.21, which quoting is proved against.
    - SetMisc, SetBase32: the values of the set_ directives of set-misc.
    - Redis2Reply: redis2, ngx_http_redis2_reply.c, the Ragel machine and its loop.
    - Redis2: redis2, ngx_http_redis2_util.c, _handler.c and _module.c: queries,
      upstream callbacks, directives, merging of configurations.
    - BackEnd: ngx_http_back_end_module.c, http_module_customer_callback.c, sys_util.c.
    - Login: Login.cpp, with the location /redis_set of conf/nginx.conf composed from
      HttpRawUri, SetMisc and Redis2.
    - RoundRobin: http/ngx_http_upstream_round_robin.c.
    - RdsStream: rds-json, resty_dbd_stream.h and ngx_http_rds_utils.h, the format of
      the stream and its readers; the relation [consumes] says how a stream may be cut
      into buffers.
    - RdsJsonOut: rds-json, ngx_http_rds_json_output.c and _util.c, the text that is
      written and the output buffers (Module RdsJson).
    - Json: a reader and a printer of JSON, the reference for the text.
    - RdsJsonFilter: rds-json, ngx_http_rds_json_processor.c, _filter_module.c and
      _handler.c.
    - RdsJsonProof, RdsJsonSafe, RdsJsonTable, RdsJsonReply: what the filter does on a
      stream cut between its atoms, on any input at all, on a result with columns, and
      on the other answers.
    - RdsJsonConf: the directives of rds-json with the slot functions of
      core/ngx_conf_file.c, and the invariant of a configuration.
    - Drizzle: drizzle, ngx_http_drizzle_processor.c, _output.c and the end of a request
      in _util.c; the answers of libdrizzle are a list of events.
    - DrizzleProof: the specification of these events (phases of a result, the relation
      [serves]) and the proof that the module writes the stream of the result.
    - MySqlJson: the composition of the drizzle module and the filter.
    - DrizzleUpstream: drizzle, the directives of an upstream block
      (ngx_http_drizzle_upstream.c, _keepalive.c).
    - DrizzleLocation: drizzle, the directives of a location, their merge, what the
      handler decides and the query of a request (_module.c, _handler.c, _upstream.c).
    - DrizzlePool, DrizzlePoolProof: drizzle, the pool of connections and the requests
      that share it (_keepalive.c, _upstream.c, _util.c, _handler.c) as a system that
      takes events, and its invariant.
    - DrizzleStatus: drizzle, the status page and [$drizzle_thread_id].

    ** How code becomes definitions

    A byte is a [Z] between 0 and 255, a string the list of its bytes.  Where pointers
    matter, memory is one byte string, a pointer an offset into it and NULL is [None];
    a read or a write outside is an error value, and the safety theorems exclude it.
    Integers are [Z]; where the width matters the wrapping or the check of the code is
    written out.  A state machine is a type of states with one definition per state,
    and its loop consumes the bytes of the buffer; what the code saves to be able to
    resume after [NGX_AGAIN] is the state the theorems on resumption speak about.
    Return codes are the numbers of the code.  Allocations that can fail take their
    outcome from an argument.  Code that is not in the repository, or that another
    component owns (the JSON functions generated by slothjson, the script engine, the
    event loop), is an argument of the definitions that call it, or an event.

    ** What is proved

    - The parsers of requests: well-formed input is accepted with the right fields;
      whatever is accepted has bounds inside the buffer; parsing in pieces gives what
      parsing at once gives; URIs that are accepted are normalised.
    - The chunked coding: the filter refines a decoder that reads one byte at a time;
      decoding inverts encoding; sizes cannot overflow.
    - Byte ranges: what a Range header selects is what RFC 7233 says, never lies outside
      of the response, and is sent exactly, with the announced length.
    - Dates and times: dates are read back as they were printed; times of the
      configuration are the sums they denote, or errors when those do not fit.
    - Addresses: what is printed is read back, but for 255.255.255.255; no text makes the
      readers write outside of an address; a network matches the addresses that share its
      prefix; the parts, the port and the addresses of a URL are those of its text.
    - Red-black trees: insertion and deletion keep the colours, the order and all pointers,
      change nothing outside of the tree and are the operations on an ordered list; the
      tree is balanced.  Timers: the tree holds exactly the timers that are set, all timers
      that are due expire once and in order, also when the clock wraps around.
    - Radix trees: creation, insertion and deletion are those of a table of networks, also
      when memory runs out, and the search finds the longest network that contains an
      address.
    - The string library and set-misc: round trips between escaping and unescaping,
      encoding and decoding, reading and printing; quoting for SQL (in character sets as
      UTF-8) and JSON cannot be escaped from; the buffers allocated from the counting
      passes are exact.
    - redis2: the queries sent are the Redis encoding of the configured commands; the
      reply loop returns on every input; the replies to a pipeline are passed on whole
      and the response ends with the last of them; configurations keep their
      invariants; errors of construction are internal errors.
    - The back end: the module starts only with a complete configuration; a login ends
      whatever happens to its subrequests, answers with the error of what failed, tells
      success only after Redis has stored the session, and succeeds when WeChat and
      Redis answer as they should.
    - rds-json: with a buffer size above 0 the filter returns on every input, never overfills a buffer and sends at
      most one header; the text it makes of a result is JSON whose value is the table of
      the result, however the stream is cut; results without columns and [rds_json_ret]
      give the object they should; every configuration has the form these theorems ask
      for.  With a root a response can be left without its end.
    - drizzle: the answers of the data base, however they arrive, become the stream that
      the filter reads; errors end the request, but for error 1146 while the character
      set is chosen.  Together: what the client gets is
      the result of the query as JSON.  The connections of the pool are used safely after
      any events and every request is answered once, as long as connections can be
      registered (where they cannot, the code frees one twice); a connection whose answer was read is
      reused; a request runs the query that the configuration says; the configured values
      fit into the buffers of libdrizzle; the status page fits into its buffer.
    - The round robin: the state of a group stays well formed under failures and
      releases, and every server gets its share.

    ** Bounds and fuel

    Loops that are not structural carry fuel: the loop over the chunks of a buffer,
    the search of [ngx_http_arg], the binary searches of the reply parser, the loops
    over the ranges of a header and the units of a time, the words of a printed IPv6
    address (8) and the digits of a printed number.  The definitions that call them pass the length of the input (or 20, the
    digits of a 64-bit number) plus what the theorems need, and the theorems show that
    the fuel is never used up: results are stated as [Some], never under the condition
    that there is one.  Buffers have any length.  The stages of the rds-json processor
    call each other with fuel [chain_fuel], twice the bytes and buffers of the input plus
    two; the loop that copies postponed data has one round per byte and one more, which
    is enough exactly when the buffer size is not zero (with size zero the loop of the
    code does not end, which is a theorem).  The processor of the drizzle module recurses
    on the list of the answers that are left.  The loops of the red-black tree and of the
    timers have one round per node of the memory and one more, the search in a radix tree
    two more; its preallocation has one round per key of a length.

    ** What is not modelled

    The event loop (but for its timers), processes, sockets, memory pools and the reader
    of configuration files are system calls and raw memory; what they deliver is an argument.  The
    script engine is represented by the values it gives.  Of set-misc, digests, dates
    and hashed upstreams are left out; of the round robin, groups made at run time
    from resolved names, TLS sessions and locks.  The proxy, upstream and request
    code of nginx that calls the parsers and callbacks is not modelled.  Of the drizzle
    module, the resolver and the types of the unused quoting table are left out, and
    libdrizzle, which speaks the protocol of MySQL, is represented by its answers.  OpenSSL,
    Drizzle (but for its reader of literals) and slothjson are third-party code.  Code for Windows and for systems without
    [getaddrinfo] is left out. *)

From Stdlib Require Export Strings.Byte ZArith Lia Bool.
From stdpp Require Export base numbers strings option list.

Open Scope Z_scope.

(** ** Characters and byte strings

    A [u_char] is a [Z] in [0, 256); character literals are written
    ["/"%ch] and denote the [Z] literal itself, so that [lia] sees it. *)

Definition zchar_parse (l : list Byte.byte) : option Z :=
  match l with
  | [b] => Some (Z.of_N (Byte.to_N b))
  | _ => None
  end.

Definition zchar_print (z : Z) : option (list Byte.byte) := None.

Declare Scope zchar_scope.
Delimit Scope zchar_scope with ch.
String Notation Z zchar_parse zchar_print : zchar_scope.

Abbreviation bytes := (list Z).

(** [bs "GET"] is the byte string of a C string literal, without the NUL. *)
Definition bs (s : string) : bytes :=
  map (fun b => Z.of_N (Byte.to_N b)) (String.list_byte_of_string s).

Definition is_byte (b : Z) : Prop := 0 <= b < 256.

(** A concrete string of bytes, checked by evaluation. *)
Lemma bytes_check (l : bytes) :
  forallb (fun b => (0 <=? b) && (b <? 256)) l = true → Forall is_byte l.
Proof.
  rewrite forallb_forall, Forall_forall. unfold is_byte. intros H x Hx.
  apply list_elem_of_In in Hx. specialize (H x Hx). lia.
Qed.

Lemma lookup_total_byte (l : bytes) (i : nat) : Forall is_byte l → is_byte (l !!! i).
Proof.
  intros H. rewrite list_lookup_total_alt. destruct (l !! i) as [c|] eqn:E.
  - by eapply Forall_lookup_1.
  - done.
Qed.

(** Equality of byte strings as a boolean. *)
Fixpoint bytes_eqb (a b : bytes) : bool :=
  match a, b with
  | [], [] => true
  | x :: a', y :: b' => (x =? y) && bytes_eqb a' b'
  | _, _ => false
  end.

Lemma bytes_eqb_spec (a b : bytes) : reflect (a = b) (bytes_eqb a b).
Proof.
  apply iff_reflect. revert b. induction a as [|x a IH]; intros [|y b]; simpl; try done.
  rewrite andb_true_iff, Z.eqb_eq, <- IH. split; [by intros [= -> ->]|by intros [-> ->]].
Qed.

Ltac solve_bytes := apply bytes_check; vm_compute; reflexivity.

Abbreviation CR := 13 (only parsing).
Abbreviation LF := 10 (only parsing).
Abbreviation NUL := 0 (only parsing).
Definition crlf : bytes := [CR; LF].

(** ** Return codes (src/nginx-master/src/core/ngx_core.h) *)

Definition NGX_OK : Z := 0.
Definition NGX_ERROR : Z := -1.
Definition NGX_AGAIN : Z := -2.
Definition NGX_DONE : Z := -4.
Definition NGX_DECLINED : Z := -5.

(** ** Machine integers

    The build targets LP64: [ngx_int_t], [size_t], [ssize_t], [off_t] and
    [time_t] are 64 bits wide. *)

Definition NGX_MAX_INT_T_VALUE : Z := 9223372036854775807.
Definition NGX_MAX_UINT32_VALUE : Z := 4294967295.

Definition wrap_u (w : Z) (z : Z) : Z := z mod 2 ^ w.

Definition wrap_s (w : Z) (z : Z) : Z :=
  let m := z mod 2 ^ w in
  if m <? 2 ^ (w - 1) then m else m - 2 ^ w.

(** The conversion [(u_char) z]. *)
Definition u_char (z : Z) : Z := z mod 256.

Lemma u_char_byte (z : Z) : is_byte (u_char z).
Proof. unfold is_byte, u_char. apply Z.mod_pos_bound. lia. Qed.

Lemma u_char_id (z : Z) : is_byte z → u_char z = z.
Proof. unfold is_byte, u_char. intros H. apply Z.mod_small. lia. Qed.

Lemma wrap_s_id (w z : Z) :
  0 < w → - 2 ^ (w - 1) <= z < 2 ^ (w - 1) → wrap_s w z = z.
Proof.
  intros Hw Hz. unfold wrap_s.
  assert (H2 : 2 ^ w = 2 * 2 ^ (w - 1)).
  { replace w with (1 + (w - 1)) at 1 by lia. rewrite Z.pow_add_r by lia. lia. }
  assert (0 < 2 ^ (w - 1)) by (apply Z.pow_pos_nonneg; lia).
  destruct (decide (0 <= z)) as [Hz0|Hz0].
  - rewrite Z.mod_small by lia. destruct (Z.ltb_spec z (2 ^ (w - 1))); lia.
  - rewrite <- (Z.mod_add z 1 (2 ^ w)) by lia. rewrite Z.mod_small by lia.
    destruct (Z.ltb_spec (z + 1 * 2 ^ w) (2 ^ (w - 1))); lia.
Qed.

(** Joining two bit fields. *)
Lemma lor_shiftl_add (a b n : Z) :
  0 <= n → 0 <= b < 2 ^ n → Z.lor (Z.shiftl a n) b = a * 2 ^ n + b.
Proof.
  intros Hn Hb. rewrite <- Z.shiftl_mul_pow2 by done.
  assert (Z.land (Z.shiftl a n) b = 0) as Hd.
  { apply Z.bits_inj'. intros i Hi. rewrite Z.land_spec, Z.bits_0, Z.shiftl_spec by done.
    destruct (decide (i < n)).
    - rewrite Z.testbit_neg_r by lia. done.
    - rewrite (proj1 (Z.bounded_iff_bits_nonneg n b ltac:(lia) ltac:(lia))); [|lia..].
      apply andb_false_r. }
  by rewrite Z.add_nocarry_lxor, Z.lxor_lor.
Qed.

(** ** Tactics *)

(** Split every [if] of the goal and hand the boolean tests to [lia]. *)
Ltac split_ifs :=
  repeat match goal with
  | |- context [if ?b then _ else _] => destruct b eqn:?
  end.

(** The same for a hypothesis. *)
Ltac split_ifs_in H :=
  repeat match type of H with
  | context [if ?b then _ else _] => destruct b eqn:?
  end.

(** A [Forall] over an explicit list, element by element. *)
Ltac solve_forall tac :=
  unfold bs; simpl; repeat (apply Forall_cons_2; [tac|]); apply Forall_nil_2.

(** Turn a decided boolean comparison between literals into its value. *)
Ltac norm_tests :=
  repeat match goal with
  | |- context [if (?a =? ?b) then _ else _] =>
      first [ replace (a =? b) with true by lia
            | replace (a =? b) with false by lia ]
  | |- context [if (?a <=? ?b) then _ else _] =>
      first [ replace (a <=? b) with true by lia
            | replace (a <=? b) with false by lia ]
  | |- context [if (?a <? ?b) then _ else _] =>
      first [ replace (a <? b) with true by lia
            | replace (a <? b) with false by lia ]
  end.

(** ** Automation

    The database [ngx] proves that a string built from literals, digits, copies and
    shorter strings has only characters of a kind, whatever [Forall] the goal
    states; the rewrite database [ngx_len] computes lengths. *)

Lemma Forall_replicate_2 {A : Type} (P : A → Prop) (n : nat) (x : A) :
  P x → Forall P (replicate n x).
Proof. intros. by apply Forall_replicate. Qed.

Lemma Forall_concat_map {A : Type} (P : Z → Prop) (f : A → bytes) (l : list A) :
  Forall (fun x => Forall P (f x)) l → Forall P (concat (map f l)).
Proof. intros. apply Forall_concat. by apply Forall_map. Qed.

Create HintDb ngx discriminated.
#[export] Hint Resolve Forall_nil_2 Forall_cons_2 Forall_app_2 Forall_replicate_2 Forall_concat_map
  u_char_byte : ngx.
#[export] Hint Extern 1 (Forall is_byte (bs _)) => solve_bytes : ngx.
#[export] Hint Extern 1 (Forall is_byte crlf) => solve_bytes : ngx.
#[export] Hint Extern 2 (Forall _ (bs _)) => solve_forall ltac:(first [done|lia]) : ngx.
#[export] Hint Extern 1 (is_byte _) => (unfold is_byte in *; lia) : ngx.
#[export] Hint Extern 1 (_ ≠ _) => lia : ngx.

Create Rewrite HintDb ngx_len.
#[export] Hint Rewrite @length_app @length_replicate @length_take @length_drop @length_map : ngx_len.

(** ** Exhaustive checks over a finite range of integers

    [range_check n P] evaluates [P] on [0 .. n-1]; a successful check, run by
    [vm_compute], gives [P] on the whole range. *)

Definition range_check (n : Z) (P : Z → bool) : bool :=
  forallb P (seqZ 0 n).

Lemma range_check_spec (n : Z) (P : Z → bool) (z : Z) :
  range_check n P = true → 0 <= z < n → P z = true.
Proof.
  unfold range_check. rewrite forallb_forall. intros H Hz.
  apply H. apply list_elem_of_In, elem_of_seqZ. lia.
Qed.

(** The same for a decidable proposition. *)
Lemma range_check_prop (n : Z) (P : Z → Prop) {Hdec : ∀ z, Decision (P z)} (z : Z) :
  range_check n (fun z => bool_decide (P z)) = true → 0 <= z < n → P z.
Proof.
  intros Hc Hz. apply (range_check_spec _ _ z) in Hc; [|done].
  by apply bool_decide_eq_true_1 in Hc.
Qed.

(** Case distinctions over an option are decidable. *)
#[export] Instance option_match_dec {A : Type} (mx : option A) (P : A → Prop) (Q : Prop)
  {HP : ∀ x, Decision (P x)} {HQ : Decision Q} :
  Decision (match mx with Some x => P x | None => Q end).
Proof. destruct mx; apply _. Defined.

Lemma range_check2_spec (n m : Z) (P : Z → Z → bool) (y z : Z) :
  range_check n (fun a => range_check m (P a)) = true →
  0 <= y < n → 0 <= z < m → P y z = true.
Proof.
  intros H Hy Hz. apply (range_check_spec m (P y)); [|done].
  by apply (range_check_spec n (fun a => range_check m (P a))).
Qed.

(** ** Character bitmaps

    [tbl[ch >> 5] & (1U << (ch & 0x1f))] on a table of eight [uint32_t]. *)

Definition bitmap_test (tbl : list Z) (ch : Z) : bool :=
  negb (Z.land (tbl !!! Z.to_nat (Z.shiftr ch 5)) (Z.shiftl 1 (Z.land ch 31)) =? 0).

(** ** Sub-strings of a buffer: [len] bytes from offset [start] *)

Definition sub (mem : bytes) (start len : nat) : bytes := take len (drop start mem).

Lemma sub_length (mem : bytes) (start len : nat) :
  (start + len <= length mem)%nat → length (sub mem start len) = len.
Proof. intros H. unfold sub. rewrite length_take, length_drop. lia. Qed.

Lemma sub_app_l (a b : bytes) (start len : nat) :
  (start + len <= length a)%nat → sub (a ++ b) start len = sub a start len.
Proof.
  intros H. unfold sub. rewrite drop_app_le by lia.
  apply take_app_le. rewrite length_drop. lia.
Qed.

Lemma sub_middle (a b c : bytes) : sub (a ++ b ++ c) (length a) (length b) = b.
Proof. unfold sub. rewrite drop_app_length. apply take_app_length. Qed.

Lemma sub_middle' (a b c : bytes) (n m : nat) :
  n = length a → m = length b → sub (a ++ b ++ c) n m = b.
Proof. intros -> ->. apply sub_middle. Qed.

(** ** Occurrences of a word in a string *)

Definition no_infix (w l : bytes) : Prop := ∀ a b, l ≠ a ++ w ++ b.

Lemma no_infix_nil (w : bytes) : w ≠ [] → no_infix w [].
Proof. intros Hw [|x a] b; [|done]. by destruct w. Qed.

Lemma no_infix_cons (w l : bytes) (x : Z) :
  no_infix w l → ¬ w `prefix_of` (x :: l) → no_infix w (x :: l).
Proof.
  intros Hl Hp [|y a] b H; simpl in H.
  - apply Hp. by exists b.
  - inv H. by apply (Hl a b).
Qed.

Lemma no_infix_tail (w l : bytes) : no_infix w l → no_infix w (tail l).
Proof. intros H a b E. destruct l as [|x l]; simpl in *; subst; [by apply (H a b)|by apply (H (x :: a) b)]. Qed.

Lemma no_infix_suffix (w l k : bytes) : no_infix w l → k `suffix_of` l → no_infix w k.
Proof. intros H [p ->] a b ->. apply (H (p ++ a) b). by rewrite app_assoc. Qed.

Lemma no_infix_reverse (w l : bytes) : no_infix w l → no_infix (reverse w) (reverse l).
Proof.
  intros H a b E. apply (H (reverse b) (reverse a)).
  rewrite <- (reverse_involutive l), E, !reverse_app, reverse_involutive. by rewrite app_assoc.
Qed.

(** ** Resumable byte machines

    Every parser of the program is a [for (p = b->pos; p < b->last; p++)] loop
    around a [switch (state)]: [mstep] is the body of the loop, which either
    goes on with a new state or leaves the loop with a result.  [mrun] is the
    loop; on exhausted input it returns the state that the code saves for the
    next call. *)

Section Machine.
Context {S R : Type}.
Variable mstep : S → nat → Z → S + R.

Fixpoint mrun (s : S) (p : nat) (l : bytes) : S + (R * nat) :=
  match l with
  | [] => inl s
  | ch :: l' =>
      match mstep s p ch with
      | inl s' => mrun s' (p + 1) l'
      | inr r => inr (r, p)
      end
  end.

(** Splitting the input at any point and resuming from the saved state is the
    same as one run over the whole input. *)
Lemma mrun_app (s : S) (p : nat) (a b : bytes) :
  mrun s p (a ++ b) =
  match mrun s p a with
  | inl s' => mrun s' (p + length a) b
  | inr r => inr r
  end.
Proof.
  revert s p. induction a as [|ch a IH]; intros s p; simpl.
  - by rewrite Nat.add_0_r.
  - destruct (mstep s p ch) as [s'|r]; [|done].
    rewrite IH. by rewrite <- Nat.add_assoc.
Qed.

(** An invariant of the body is an invariant of the loop. *)
Lemma mrun_invariant (I : S → nat → Prop) (s : S) (p : nat) (l : bytes) :
  (∀ s p ch s', ch ∈ l → I s p → mstep s p ch = inl s' → I s' (p + 1)%nat) →
  I s p →
  ∀ s', mrun s p l = inl s' → I s' (p + length l)%nat.
Proof.
  revert s p. induction l as [|ch l IH]; intros s p Hstep HI s' Hrun; simpl in *.
  - inv Hrun. by rewrite Nat.add_0_r.
  - destruct (mstep s p ch) as [s1|r] eqn:E; [|done].
    replace (p + Datatypes.S (length l))%nat with (p + 1 + length l)%nat by lia.
    apply (IH s1 (p + 1)%nat); [|by eapply Hstep; eauto using list_elem_of_here|done].
    intros. eapply Hstep; eauto using list_elem_of_further.
Qed.

Lemma mrun_result_invariant (I : S → nat → Prop) (s : S) (p : nat) (l : bytes) :
  (∀ s p ch s', ch ∈ l → I s p → mstep s p ch = inl s' → I s' (p + 1)%nat) →
  I s p →
  ∀ r q, mrun s p l = inr (r, q) →
  ∃ s' ch, ch ∈ l ∧ I s' q ∧ mstep s' q ch = inr r ∧ (p <= q < p + length l)%nat.
Proof.
  revert s p. induction l as [|ch l IH]; intros s p Hstep HI r q Hrun; simpl in *; [done|].
  destruct (mstep s p ch) as [s1|r1] eqn:E.
  - destruct (IH s1 (p + 1)%nat) with (r := r) (q := q) as (s' & c & Hc & ? & ? & ?); try done.
    + intros. eapply Hstep; eauto using list_elem_of_further.
    + eapply Hstep; eauto using list_elem_of_here.
    + exists s', c. split_and!; try done; try lia. by apply list_elem_of_further.
  - inv Hrun. exists s, ch. split_and!; try done; try lia. apply list_elem_of_here.
Qed.

(** The same for a run over the rest of a buffer that the machine also looks
    back into: each step reads the byte at its position. *)
Lemma mrun_mem_invariant (mem : bytes) (I : S → nat → Prop) (s : S) (p : nat) :
  (∀ s p ch s', mem !! p = Some ch → I s p → mstep s p ch = inl s' → I s' (p + 1)%nat) →
  I s p → (p <= length mem)%nat →
  match mrun s p (drop p mem) with
  | inl s' => I s' (length mem)
  | inr (r, q) =>
      ∃ s' ch, mem !! q = Some ch ∧ I s' q ∧ mstep s' q ch = inr r ∧ (p <= q < length mem)%nat
  end.
Proof.
  intros Hstep. remember (length mem - p)%nat as n eqn:En. revert s p En.
  induction n as [|n IH]; intros s p En HI Hp.
  { rewrite drop_ge by lia. simpl. by replace (length mem) with p by lia. }
  destruct (lookup_lt_is_Some_2 mem p) as [ch Hch]; [lia|].
  rewrite (drop_S _ _ _ Hch). simpl. destruct (mstep s p ch) as [s1|r] eqn:E.
  - rewrite Nat.add_1_r. specialize (IH s1 (Datatypes.S p)).
    destruct (mrun s1 (Datatypes.S p) _) as [s'|[r q]].
    + apply IH; [lia| |lia]. rewrite <- Nat.add_1_r. by eapply Hstep.
    + destruct IH as (s' & c & H1 & H2 & H3 & H4); [lia| |lia|].
      { rewrite <- Nat.add_1_r. by eapply Hstep. }
      exists s', c. split_and!; (done || lia).
  - exists s, ch. split_and!; (done || lia).
Qed.

End Machine.

(** Two loop bodies that agree on every position of the input run alike. *)
Lemma mrun_agree {S R : Type} (f g : S → nat → Z → S + R) (n : nat) (s : S) (p : nat) (l : bytes) :
  (∀ s q ch, (q < n)%nat → f s q ch = g s q ch) → (p + length l <= n)%nat →
  mrun f s p l = mrun g s p l.
Proof.
  intros Hf. revert s p. induction l as [|ch l IH]; intros s p Hn; simpl in *; [done|].
  rewrite Hf by lia. destruct (g s p ch); [|done]. apply IH. lia.
Qed.

Lemma mrun_mem_agree {S R : Type} (f g : S → nat → Z → S + R) (mem : bytes) (s : S) (p : nat) :
  (∀ s q ch, mem !! q = Some ch → f s q ch = g s q ch) →
  mrun f s p (drop p mem) = mrun g s p (drop p mem).
Proof.
  intros Hf. remember (drop p mem) as l eqn:El. revert s p El.
  induction l as [|ch l IH]; intros s p El; [done|]. simpl.
  assert (Hch : mem !! p = Some ch).
  { rewrite <- (Nat.add_0_r p), <- lookup_drop, <- El. done. }
  rewrite (Hf _ _ _ Hch). destruct (g s p ch); [|done]. apply IH.
  rewrite (drop_S _ _ _ Hch) in El. injection El as ->. by rewrite Nat.add_1_r.
Qed.

(** ** Programs on a state

    [None] is a use of memory that the code may not make. *)

Definition St (S A : Type) : Type := S → option (A * S).

#[export] Instance St_ret {S} : MRet (St S) := fun A x s => Some (x, s).
#[export] Instance St_bind {S} : MBind (St S) := fun A B f m s => match m s with Some (x, s') => f x s' | None => None end.

Definition stuck {S A} : St S A := fun _ => None.

Lemma bind_some {S A B} (m : St S A) (k : A → St S B) s x s' : m s = Some (x, s') → (m ≫= k) s = k x s'.
Proof. intros H. unfold mbind, St_bind. by rewrite H. Qed.
