(* ===== verification/NgxNumber.v ===== *)
(** * Numbers of the string library

    The number parsers and printers of src/nginx-master/src/core/ngx_string.c:
    [ngx_atoi], [ngx_atofp], [ngx_atosz], [ngx_atoof], [ngx_atotm],
    [ngx_hextoi], [ngx_hex_dump] and the digit loop of [ngx_sprintf_num].
    A line is the byte string [(line, n)]; the result is the 64-bit value or
    [NGX_ERROR].  The theorems give each parser's result on every input, so
    that "no overflow" is part of the specification and not an assumption. *)

From S2P Require Import Prelude.

Open Scope Z_scope.

(** ** Decimal parsers *)

(** The loop shared, line for line, by [ngx_atoi], [ngx_atosz], [ngx_atoof]
    and [ngx_atotm]. *)
Fixpoint atoi_loop (cutoff cutlim value : Z) (line : bytes) : Z :=
  match line with
  | [] => value
  | c :: line' =>
      if (c <? "0"%ch) || (c >? "9"%ch) then NGX_ERROR
      else if (value >=? cutoff) && ((value >? cutoff) || (c - "0"%ch >? cutlim))
      then NGX_ERROR
      else atoi_loop cutoff cutlim (value * 10 + (c - "0"%ch)) line'
  end.

Definition ngx_atoi (line : bytes) : Z :=
  match line with
  | [] => NGX_ERROR
  | _ => atoi_loop (NGX_MAX_INT_T_VALUE / 10) (NGX_MAX_INT_T_VALUE mod 10) 0 line
  end.

Definition NGX_MAX_SIZE_T_VALUE : Z := 9223372036854775807.
Definition NGX_MAX_OFF_T_VALUE : Z := 9223372036854775807.
Definition NGX_MAX_TIME_T_VALUE : Z := 9223372036854775807.

Definition ngx_atosz (line : bytes) : Z :=
  match line with
  | [] => NGX_ERROR
  | _ => atoi_loop (NGX_MAX_SIZE_T_VALUE / 10) (NGX_MAX_SIZE_T_VALUE mod 10) 0 line
  end.

Definition ngx_atoof (line : bytes) : Z :=
  match line with
  | [] => NGX_ERROR
  | _ => atoi_loop (NGX_MAX_OFF_T_VALUE / 10) (NGX_MAX_OFF_T_VALUE mod 10) 0 line
  end.

Definition ngx_atotm (line : bytes) : Z :=
  match line with
  | [] => NGX_ERROR
  | _ => atoi_loop (NGX_MAX_TIME_T_VALUE / 10) (NGX_MAX_TIME_T_VALUE mod 10) 0 line
  end.

(** [ngx_atofp]: the digits loop, then the scaling loop [while (point--)]. *)
Fixpoint atofp_scale (cutoff value : Z) (point : nat) : Z :=
  match point with
  | O => value
  | S point' =>
      if value >? cutoff then NGX_ERROR
      else atofp_scale cutoff (value * 10) point'
  end.

Fixpoint atofp_loop (cutoff cutlim value : Z) (dot : bool) (point : nat)
    (line : bytes) : Z :=
  match line with
  | [] => atofp_scale cutoff value point
  | c :: line' =>
      if Nat.eqb point 0 then NGX_ERROR
      else if c =? "."%ch then
        if dot then NGX_ERROR
        else atofp_loop cutoff cutlim value true point line'
      else if (c <? "0"%ch) || (c >? "9"%ch) then NGX_ERROR
      else if (value >=? cutoff) && ((value >? cutoff) || (c - "0"%ch >? cutlim))
      then NGX_ERROR
      else atofp_loop cutoff cutlim (value * 10 + (c - "0"%ch)) dot
             (if dot then pred point else point) line'
  end.

Definition ngx_atofp (line : bytes) (point : nat) : Z :=
  match line with
  | [] => NGX_ERROR
  | _ => atofp_loop (NGX_MAX_INT_T_VALUE / 10) (NGX_MAX_INT_T_VALUE mod 10) 0 false
           point line
  end.

(** ** Hexadecimal *)

Fixpoint hextoi_loop (cutoff value : Z) (line : bytes) : Z :=
  match line with
  | [] => value
  | ch :: line' =>
      if value >? cutoff then NGX_ERROR
      else if (ch >=? "0"%ch) && (ch <=? "9"%ch)
      then hextoi_loop cutoff (value * 16 + (ch - "0"%ch)) line'
      else
        let c := u_char (Z.lor ch 32) in
        if (c >=? "a"%ch) && (c <=? "f"%ch)
        then hextoi_loop cutoff (value * 16 + (c - "a"%ch + 10)) line'
        else NGX_ERROR
  end.

Definition ngx_hextoi (line : bytes) : Z :=
  match line with
  | [] => NGX_ERROR
  | _ => hextoi_loop (NGX_MAX_INT_T_VALUE / 16) 0 line
  end.

Definition hex_lower : bytes := bs "0123456789abcdef".
Definition hex_upper : bytes := bs "0123456789ABCDEF".

Definition hex_digit (tbl : bytes) (i : Z) : Z := tbl !!! Z.to_nat i.

Fixpoint ngx_hex_dump (src : bytes) : bytes :=
  match src with
  | [] => []
  | c :: src' =>
      hex_digit hex_lower (Z.shiftr c 4) :: hex_digit hex_lower (Z.land c 15)
      :: ngx_hex_dump src'
  end.

(** ** The digit loops of [ngx_sprintf_num]: least significant digit first,
    stored backwards from the end of [temp[]].  [NGX_INT64_LEN] is 20 decimal
    digits and a sign; a 64-bit value has at most 20 digits. *)

Fixpoint sprintf_digits (fuel : nat) (base : Z) (digit : Z → Z) (ui64 : Z)
    (acc : bytes) : bytes :=
  match fuel with
  | O => acc
  | S fuel' =>
      let acc' := digit (ui64 mod base) :: acc in
      let ui64' := ui64 / base in
      if ui64' =? 0 then acc' else sprintf_digits fuel' base digit ui64' acc'
  end.

Definition NGX_INT64_LEN : nat := 20.

(** [hexadecimal]: 0 decimal, 1 lower-case, 2 upper-case. *)
Definition sprintf_num_digits (hexadecimal : Z) (ui64 : Z) : bytes :=
  if hexadecimal =? 0 then
    sprintf_digits NGX_INT64_LEN 10 (fun d => d + "0"%ch) ui64 []
  else if hexadecimal =? 1 then
    sprintf_digits NGX_INT64_LEN 16 (hex_digit hex_lower) ui64 []
  else sprintf_digits NGX_INT64_LEN 16 (hex_digit hex_upper) ui64 [].

(** [ngx_sprintf_num] writes into the [room = last - buf] bytes left. *)
Definition ngx_sprintf_num (room : Z) (ui64 zero hexadecimal width : Z) : bytes :=
  let digits := sprintf_num_digits hexadecimal ui64 in
  let len := Z.of_nat (length digits) in
  let pad := Z.min (Z.max 0 (width - len)) (Z.max 0 room) in
  let room' := room - pad in
  let n := if len >? room' then room' else len in
  replicate (Z.to_nat pad) zero ++ take (Z.to_nat n) digits.

(** * Theorems *)

Definition is_digit (c : Z) : Prop := "0"%ch <= c <= "9"%ch.

#[export] Instance is_digit_dec (c : Z) : Decision (is_digit c).
Proof. unfold is_digit. apply _. Defined.

Lemma digits_are_bytes (ds : bytes) : Forall is_digit ds → Forall is_byte ds.
Proof. intros H. eapply Forall_impl; [exact H|]. unfold is_digit, is_byte. lia. Qed.

#[export] Hint Resolve digits_are_bytes : ngx.

Definition dec_value (acc : Z) (l : bytes) : Z :=
  foldl (fun v c => v * 10 + (c - "0"%ch)) acc l.

Lemma dec_value_cons (acc c : Z) (l : bytes) :
  dec_value acc (c :: l) = dec_value (acc * 10 + (c - 48)) l.
Proof. done. Qed.

Lemma dec_value_app (acc : Z) (a b : bytes) :
  dec_value acc (a ++ b) = dec_value (dec_value acc a) b.
Proof. apply foldl_app. Qed.

Lemma dec_value_ge (acc : Z) (l : bytes) :
  0 <= acc → Forall is_digit l → acc <= dec_value acc l.
Proof.
  intros Ha Hl. revert acc Ha.
  induction Hl as [|c l Hc Hl IH]; intros acc Ha; [done|].
  rewrite dec_value_cons. unfold is_digit in Hc.
  transitivity (acc * 10 + (c - 48)); [lia|]. apply IH. lia.
Qed.

(** The digit guard and the cut-off guard of the loop. *)
Lemma digit_guard (c : Z) : ((c <? 48) || (c >? 57)) = false ↔ is_digit c.
Proof. unfold is_digit. lia. Qed.

Lemma cutoff_guard (max value d : Z) :
  0 <= value → 0 <= d <= 9 → 0 < max →
  ((value >=? max / 10) && ((value >? max / 10) || (d >? max mod 10))) = false
  ↔ value * 10 + d <= max.
Proof.
  intros Hv Hd Hm. pose proof (Z.div_mod max 10 ltac:(lia)).
  pose proof (Z.mod_pos_bound max 10 ltac:(lia)).
  rewrite andb_false_iff, orb_false_iff. lia.
Qed.

Definition atoi_ok (max acc : Z) (line : bytes) : Prop :=
  Forall is_digit line ∧ dec_value acc line <= max.

#[export] Instance atoi_ok_dec (max acc : Z) (line : bytes) :
  Decision (atoi_ok max acc line).
Proof. unfold atoi_ok. apply _. Defined.

Lemma atoi_loop_spec (max value : Z) (line : bytes) :
  0 < max → 0 <= value <= max →
  atoi_loop (max / 10) (max mod 10) value line =
  if decide (atoi_ok max value line) then dec_value value line else NGX_ERROR.
Proof.
  intros Hmax. revert value. induction line as [|c line IH]; intros value Hv; simpl.
  - rewrite decide_True; [done|]. split; [by apply Forall_nil_2|simpl; lia].
  - destruct ((c <? 48) || (c >? 57)) eqn:Ed.
    { rewrite decide_False; [done|]. intros [Hd _]. inv Hd.
      apply digit_guard in H1. congruence. }
    apply digit_guard in Ed. pose proof Ed as Ed'. unfold is_digit in Ed'.
    destruct (_ && _) eqn:Eo.
    + rewrite decide_False; [done|]. intros [Hd Hle]. inv Hd.
      rewrite dec_value_cons in Hle.
      assert (0 <= value * 10 + (c - 48)) by lia.
      pose proof (dec_value_ge (value * 10 + (c - 48)) line ltac:(lia) ltac:(done)).
      assert (Hc : value * 10 + (c - 48) <= max) by lia.
      apply cutoff_guard in Hc; [congruence|lia..].
    + apply cutoff_guard in Eo; [|lia..]. rewrite IH by lia.
      rewrite <- dec_value_cons.
      apply decide_ext. unfold atoi_ok. rewrite Forall_cons. tauto.
Qed.

Definition decimal_line (max : Z) (line : bytes) : Prop :=
  line ≠ [] ∧ atoi_ok max 0 line.

#[export] Instance decimal_line_dec (max : Z) (line : bytes) :
  Decision (decimal_line max line).
Proof. unfold decimal_line. apply _. Defined.

(** The result of every decimal parser, as one equation. *)
Lemma decimal_parser_spec (max : Z) (line : bytes) :
  0 < max →
  match line with
  | [] => NGX_ERROR
  | _ => atoi_loop (max / 10) (max mod 10) 0 line
  end =
  if decide (decimal_line max line) then dec_value 0 line else NGX_ERROR.
Proof.
  intros Hmax. destruct line as [|c line].
  - by rewrite decide_False by (intros [? _]; done).
  - rewrite atoi_loop_spec by lia. apply decide_ext. unfold decimal_line. split; [done|tauto].
Qed.

Lemma atoi_decimal (line : bytes) :
  ngx_atoi line =
  if decide (decimal_line NGX_MAX_INT_T_VALUE line) then dec_value 0 line
  else NGX_ERROR.
Proof. by apply decimal_parser_spec. Qed.

(** [ngx_atoi] and its variants for [size_t], [off_t] and [time_t] return the
    decimal value of a non-empty string of digits that fits the type, and
    [NGX_ERROR] for every other string: no overflow, no partial parse. *)
Theorem ngx_atoi_spec (line : bytes) :
  ngx_atoi line
  = (if decide (decimal_line NGX_MAX_INT_T_VALUE line) then dec_value 0 line else NGX_ERROR)
  ∧ ngx_atosz line = ngx_atoi line ∧ ngx_atoof line = ngx_atoi line
  ∧ ngx_atotm line = ngx_atoi line.
Proof. split; [apply atoi_decimal|by destruct line]. Qed.

Lemma ngx_atoi_range (line : bytes) :
  ngx_atoi line = NGX_ERROR ∨ 0 <= ngx_atoi line <= NGX_MAX_INT_T_VALUE.
Proof.
  rewrite atoi_decimal. case_decide as H; [right|by left].
  destruct H as [_ [Hd Hle]]. split; [|done]. by apply dec_value_ge.
Qed.

(** ** Printing decimal numbers *)

(** The digit loop writes the digits of [n] in the given base. *)
Lemma sprintf_digits_value (base : Z) (digit : Z → Z) (fuel : nat) (n : Z) (acc : bytes) :
  2 <= base → 0 <= n < base ^ Z.of_nat fuel → (0 < fuel)%nat →
  ∃ vs, sprintf_digits fuel base digit n acc = map digit vs ++ acc
        ∧ vs ≠ [] ∧ Forall (fun v => 0 <= v < base) vs
        ∧ foldl (fun a v => a * base + v) 0 vs = n ∧ (length vs <= fuel)%nat.
Proof.
  intros Hb. revert n acc. induction fuel as [|fuel IH]; intros n acc Hn Hf; [lia|].
  cbn [sprintf_digits]. pose proof (Z.mod_pos_bound n base ltac:(lia)) as Hmod.
  pose proof (Z.div_mod n base ltac:(lia)) as Hdiv.
  destruct (Z.eqb_spec (n / base) 0) as [Hz|Hz].
  - exists [n mod base]. split_and!; [done..|by constructor|simpl; lia|simpl; lia].
  - assert (Hn' : 0 <= n / base < base ^ Z.of_nat fuel).
    { split; [apply Z.div_pos; lia|]. apply Z.div_lt_upper_bound; [lia|].
      rewrite Nat2Z.inj_succ, Z.pow_succ_r in Hn by lia. lia. }
    assert ((0 < fuel)%nat).
    { destruct fuel; [|lia]. simpl in Hn'. lia. }
    destruct (IH (n / base) (digit (n mod base) :: acc) Hn') as (vs & -> & ? & ? & Hv & ?); [done|].
    exists (vs ++ [n mod base]). rewrite map_app, <- app_assoc. split_and!; try done.
    + by destruct vs.
    + apply Forall_app. split; [done|by constructor].
    + rewrite foldl_app, Hv. simpl. lia.
    + rewrite length_app. simpl. lia.
Qed.

(** More fuel than digits changes nothing. *)
Lemma sprintf_digits_fuel (base : Z) (digit : Z → Z) (k fuel : nat) (n : Z) (acc : bytes) :
  2 <= base → 0 <= n < base ^ Z.of_nat k → (0 < k <= fuel)%nat →
  sprintf_digits fuel base digit n acc = sprintf_digits k base digit n acc.
Proof.
  intros Hb. revert k n acc. induction fuel as [|fuel IH]; intros k n acc Hn Hk; [lia|].
  destruct k as [|k]; [lia|]. cbn [sprintf_digits].
  destruct (Z.eqb_spec (n / base) 0); [done|].
  assert (Hn' : 0 <= n / base < base ^ Z.of_nat k).
  { split; [apply Z.div_pos; lia|]. apply Z.div_lt_upper_bound; [lia|].
    rewrite Nat2Z.inj_succ, Z.pow_succ_r in Hn by lia. lia. }
  apply IH; [done|]. destruct k; [simpl in Hn'|]; lia.
Qed.

Lemma sprintf_digits_dec (fuel : nat) (n : Z) (acc : bytes) :
  0 <= n < 10 ^ Z.of_nat fuel →
  (0 < fuel)%nat →
  ∃ ds, sprintf_digits fuel 10 (fun d => d + 48) n acc = ds ++ acc
        ∧ ds ≠ [] ∧ Forall is_digit ds ∧ dec_value 0 ds = n
        ∧ (length ds <= fuel)%nat.
Proof.
  intros Hn Hf. destruct (sprintf_digits_value 10 (fun d => d + 48) fuel n acc)
    as (vs & E & Hne & Hvs & Hv & Hl); [lia|done..|].
  exists (map (fun d => d + 48) vs). rewrite length_map. split_and!; try done.
  - by destruct vs.
  - apply Forall_map. eapply Forall_impl; [exact Hvs|]. unfold is_digit. simpl. lia.
  - rewrite <- Hv. unfold dec_value. clear. generalize 0 as a. induction vs as [|v vs IH]; intros a; [done|].
    simpl. rewrite <- IH. f_equal. lia.
Qed.

(** A 64-bit value has at most [NGX_INT64_LEN] digits: the loop never leaves
    [temp[]]. *)
Lemma sprintf_num_digits_dec (n : Z) :
  0 <= n < 2 ^ 64 →
  let ds := sprintf_num_digits 0 n in
  ds ≠ [] ∧ Forall is_digit ds ∧ dec_value 0 ds = n
  ∧ (length ds <= NGX_INT64_LEN)%nat.
Proof.
  intros Hn. unfold sprintf_num_digits. cbn [Z.eqb].
  destruct (sprintf_digits_dec NGX_INT64_LEN n []) as (ds & Heq & H).
  { split; [lia|]. change (10 ^ Z.of_nat NGX_INT64_LEN) with 100000000000000000000. lia. }
  { unfold NGX_INT64_LEN. lia. }
  cbv zeta. rewrite Heq, app_nil_r. exact H.
Qed.

(** [ngx_sprintf_num] never writes more than the room there is. *)
Lemma ngx_sprintf_num_bounded (room ui64 zero hexadecimal width : Z) :
  0 <= room →
  Z.of_nat (length (ngx_sprintf_num room ui64 zero hexadecimal width)) <= room.
Proof.
  intros Hr. unfold ngx_sprintf_num. rewrite length_app, length_replicate, length_take.
  destruct (_ >? _) eqn:?; lia.
Qed.

Lemma ngx_sprintf_num_fits (room ui64 zero hexadecimal width : Z) :
  Z.max width (Z.of_nat (length (sprintf_num_digits hexadecimal ui64))) <= room →
  ngx_sprintf_num room ui64 zero hexadecimal width =
  replicate (Z.to_nat (width - Z.of_nat (length (sprintf_num_digits hexadecimal ui64)))) zero
  ++ sprintf_num_digits hexadecimal ui64.
Proof.
  intros Hr. unfold ngx_sprintf_num.
  set (ds := sprintf_num_digits hexadecimal ui64) in *.
  f_equal; [f_equal; lia|]. apply take_ge.
  destruct (_ >? _) eqn:?; lia.
Qed.

Lemma dec_value_zeros (k : nat) (ds : bytes) :
  dec_value 0 (replicate k "0"%ch ++ ds) = dec_value 0 ds.
Proof. by induction k. Qed.

(** A number printed by [ngx_sprintf_num] in decimal, padded with zeros to any
    width, is read back by [ngx_atoi], for every non-negative [ngx_int_t]; and
    whatever the room, no more than it is written. *)
Theorem ngx_atoi_sprintf_num (n width room room' : Z) :
  0 <= n <= NGX_MAX_INT_T_VALUE → Z.max width (Z.of_nat NGX_INT64_LEN) <= room → 0 <= room' →
  ngx_atoi (ngx_sprintf_num room n "0"%ch 0 width) = n
  ∧ Z.of_nat (length (ngx_sprintf_num room' n "0"%ch 0 width)) <= room'.
Proof.
  intros Hn Hr Hr'. split; [|by apply ngx_sprintf_num_bounded].
  unfold NGX_MAX_INT_T_VALUE in Hn.
  destruct (sprintf_num_digits_dec n ltac:(lia)) as (Hne & Hd & Hv & Hl).
  rewrite ngx_sprintf_num_fits by lia. set (ds := sprintf_num_digits 0 n) in *.
  set (k := Z.to_nat (width - Z.of_nat (length ds))).
  rewrite atoi_decimal, decide_True; [by rewrite dec_value_zeros|].
  split; [intros [_ ?]%app_nil; done|]. split.
  - apply Forall_app. split; [|done]. apply Forall_replicate. unfold is_digit. lia.
  - rewrite dec_value_zeros, Hv. unfold NGX_MAX_INT_T_VALUE. lia.
Qed.

Lemma ngx_atoi_sprintf_num_witness :
  ngx_atoi (ngx_sprintf_num 64 9223372036854775807 "0"%ch 0 30) = 9223372036854775807.
Proof.
  apply (ngx_atoi_sprintf_num 9223372036854775807 30 64 0);
    [vm_compute; split; discriminate|vm_compute; discriminate|lia].
Defined.

(** ** Hexadecimal numbers *)

(** The value of a hexadecimal digit, upper or lower case. *)
Definition hex_val (ch : Z) : option Z :=
  if (ch >=? "0"%ch) && (ch <=? "9"%ch) then Some (ch - "0"%ch)
  else
    let c := u_char (Z.lor ch 32) in
    if (c >=? "a"%ch) && (c <=? "f"%ch) then Some (c - "a"%ch + 10) else None.

Lemma hex_val_bound (ch v : Z) : hex_val ch = Some v → 0 <= v < 16.
Proof. unfold hex_val. cbv zeta. split_ifs; intros [= <-]; lia. Qed.

Fixpoint hex_value (acc : Z) (l : bytes) : option Z :=
  match l with
  | [] => Some acc
  | ch :: l' =>
      match hex_val ch with
      | Some v => hex_value (acc * 16 + v) l'
      | None => None
      end
  end.

Lemma hex_value_ge (acc v : Z) (l : bytes) :
  0 <= acc → hex_value acc l = Some v → acc <= v.
Proof.
  revert acc. induction l as [|ch l IH]; intros acc Ha; simpl; [intros [= <-]; lia|].
  destruct (hex_val ch) as [d|] eqn:E; [|done]. apply hex_val_bound in E.
  intros H. apply IH in H; lia.
Qed.

Lemma hextoi_loop_eq (cutoff value ch : Z) (line : bytes) :
  hextoi_loop cutoff value (ch :: line) =
  if value >? cutoff then NGX_ERROR
  else match hex_val ch with
       | Some v => hextoi_loop cutoff (value * 16 + v) line
       | None => NGX_ERROR
       end.
Proof. simpl. unfold hex_val. cbv zeta. by split_ifs. Qed.

(** A result of the hexadecimal scan that fits the integer type. *)
Definition fits (max : Z) (v : option Z) : Z :=
  match v with
  | Some v => if v <=? max then v else NGX_ERROR
  | None => NGX_ERROR
  end.

Lemma hextoi_loop_spec (value : Z) (line : bytes) :
  0 <= value <= NGX_MAX_INT_T_VALUE →
  hextoi_loop (NGX_MAX_INT_T_VALUE / 16) value line =
  fits NGX_MAX_INT_T_VALUE (hex_value value line).
Proof.
  revert value. induction line as [|ch line IH]; intros value Hv.
  - simpl. by destruct (Z.leb_spec value NGX_MAX_INT_T_VALUE); [|lia].
  - rewrite hextoi_loop_eq. cbn [hex_value].
    change (NGX_MAX_INT_T_VALUE / 16) with 576460752303423487 in *.
    unfold NGX_MAX_INT_T_VALUE in *.
    destruct (hex_val ch) as [d|] eqn:E; [|by destruct (_ >? _)].
    apply hex_val_bound in E.
    destruct (value >? 576460752303423487) eqn:Ec; [|apply IH; lia].
    destruct (hex_value _ line) as [v|] eqn:Ev; [|done]. simpl.
    apply hex_value_ge in Ev; [|lia].
    by destruct (Z.leb_spec v 9223372036854775807); [lia|].
Qed.

(** [ngx_hextoi] returns the value of a non-empty string of hexadecimal
    digits that fits [ngx_int_t], and [NGX_ERROR] on every other input. *)
Theorem ngx_hextoi_spec (line : bytes) :
  ngx_hextoi line =
  if decide (line = []) then NGX_ERROR
  else fits NGX_MAX_INT_T_VALUE (hex_value 0 line).
Proof.
  destruct line as [|ch line]; [done|]. rewrite decide_False by done.
  apply (hextoi_loop_spec 0). unfold NGX_MAX_INT_T_VALUE. lia.
Qed.

Lemma hex_val_digit (v : Z) :
  0 <= v < 16 → hex_val (hex_digit hex_lower v) = Some v.
Proof.
  intros Hv.
  by apply (range_check_prop 16 (fun v => hex_val (hex_digit hex_lower v) = Some v)).
Qed.

Lemma nibbles (c : Z) :
  is_byte c → 0 <= Z.shiftr c 4 < 16 ∧ 0 <= Z.land c 15 < 16
              ∧ c = Z.shiftr c 4 * 16 + Z.land c 15.
Proof.
  intros Hc. unfold is_byte in Hc. rewrite Z.shiftr_div_pow2 by lia.
  change 15 with (Z.ones 4). rewrite Z.land_ones by lia.
  change (2 ^ 4) with 16. pose proof (Z.div_mod c 16 ltac:(lia)).
  pose proof (Z.mod_pos_bound c 16 ltac:(lia)). lia.
Qed.

Lemma hex_value_dump (acc : Z) (src : bytes) :
  Forall is_byte src →
  hex_value acc (ngx_hex_dump src) = Some (foldl (fun v b => v * 256 + b) acc src).
Proof.
  intros Hs. revert acc. induction Hs as [|c src Hc Hs IH]; intros acc; [done|].
  destruct (nibbles c Hc) as (H1 & H2 & H3). cbn [ngx_hex_dump hex_value].
  rewrite (hex_val_digit _ H1), (hex_val_digit _ H2), IH. cbn [foldl].
  do 2 f_equal. lia.
Qed.

(** Reading a hex dump back gives the big-endian value of the bytes. *)
Theorem ngx_hextoi_hex_dump (src : bytes) :
  src ≠ [] → Forall is_byte src →
  foldl (fun v b => v * 256 + b) 0 src <= NGX_MAX_INT_T_VALUE →
  ngx_hextoi (ngx_hex_dump src) = foldl (fun v b => v * 256 + b) 0 src.
Proof.
  intros Hne Hb Hmax. rewrite ngx_hextoi_spec.
  rewrite decide_False by (destruct src; done).
  rewrite hex_value_dump by done. cbn [fits].
  destruct (Z.leb_spec (foldl (fun v b => v * 256 + b) 0 src) NGX_MAX_INT_T_VALUE); [done|lia].
Qed.

Lemma ngx_hextoi_hex_dump_witness :
  ngx_hextoi (ngx_hex_dump [222; 173; 190; 239]) = 3735928559.
Proof.
  apply (ngx_hextoi_hex_dump [222; 173; 190; 239]);
    [done| |by vm_compute].
  solve_bytes.
Defined.

(** ** Fixed-point numbers *)

Lemma atofp_scale_spec (value : Z) (point : nat) :
  0 <= value <= NGX_MAX_INT_T_VALUE →
  atofp_scale (NGX_MAX_INT_T_VALUE / 10) value point =
  fits NGX_MAX_INT_T_VALUE (Some (value * 10 ^ Z.of_nat point)).
Proof.
  revert value. induction point as [|point IH]; intros value Hv; cbn [atofp_scale fits].
  - rewrite Z.mul_1_r. destruct (Z.leb_spec value NGX_MAX_INT_T_VALUE); lia.
  - change (NGX_MAX_INT_T_VALUE / 10) with 922337203685477580 in *.
    unfold NGX_MAX_INT_T_VALUE in *.
    assert (0 < 10 ^ Z.of_nat point) by (apply Z.pow_pos_nonneg; lia).
    rewrite Nat2Z.inj_succ, Z.pow_succ_r by lia.
    destruct (value >? 922337203685477580) eqn:Ec.
    + destruct (Z.leb_spec (value * (10 * 10 ^ Z.of_nat point)) 9223372036854775807); [nia|done].
    + rewrite IH by lia. cbn [fits]. by rewrite Z.mul_assoc.
Qed.

(** The digits before and after the point. *)
Lemma atofp_loop_digits (value : Z) (dot : bool) (point : nat) (ds line : bytes) :
  Forall is_digit ds → 0 <= value <= NGX_MAX_INT_T_VALUE → (0 < point)%nat →
  (if dot then length ds < point ∨ line = [] ∧ length ds = point else True)%nat →
  atofp_loop (NGX_MAX_INT_T_VALUE / 10) (NGX_MAX_INT_T_VALUE mod 10) value dot point
    (ds ++ line) =
  if dec_value value ds <=? NGX_MAX_INT_T_VALUE
  then atofp_loop (NGX_MAX_INT_T_VALUE / 10) (NGX_MAX_INT_T_VALUE mod 10)
         (dec_value value ds) dot (if dot then point - length ds else point)%nat line
  else NGX_ERROR.
Proof.
  intros Hds. revert value point. induction Hds as [|c ds Hc Hds IH];
    intros value point Hv Hp Hlen.
  - cbn [app dec_value foldl length]. rewrite Nat.sub_0_r.
    destruct (Z.leb_spec value NGX_MAX_INT_T_VALUE); [|lia]. by destruct dot.
  - cbn [app atofp_loop]. destruct (Nat.eqb_spec point 0) as [|_]; [lia|].
    pose proof Hc as Hc'. unfold is_digit in Hc'.
    destruct (Z.eqb_spec c 46) as [|_]; [lia|].
    apply digit_guard in Hc. rewrite Hc. rewrite dec_value_cons.
    set (v' := value * 10 + (c - 48)).
    destruct (_ && _) eqn:Eo.
    + destruct (Z.leb_spec (dec_value v' ds) NGX_MAX_INT_T_VALUE) as [Hle|]; [|done].
      assert (v' <= dec_value v' ds) by (apply dec_value_ge; [lia|done]).
      assert (Hf : v' <= NGX_MAX_INT_T_VALUE) by lia.
      apply cutoff_guard in Hf; [congruence|lia..|unfold NGX_MAX_INT_T_VALUE; lia].
    + apply cutoff_guard in Eo; [|lia..|unfold NGX_MAX_INT_T_VALUE; lia].
      cbn [length] in *. destruct dot.
      * destruct ds as [|d ds].
        { cbn [app dec_value foldl length].
          destruct (Z.leb_spec v' NGX_MAX_INT_T_VALUE); [|lia].
          by replace (pred point) with (point - 1)%nat by lia. }
        rewrite IH; [|lia| |].
        -- replace (pred point - length (d :: ds))%nat with (point - S (length (d :: ds)))%nat
             by lia. done.
        -- simpl in Hlen. lia.
        -- simpl in *. intuition lia.
      * rewrite IH; [done|lia|lia|done].
Qed.

(** [ngx_atofp] on ["<ip>.<fp>"] returns the number scaled by [10^point]
    whenever the fraction has at most [point] digits, and [NGX_ERROR] exactly
    when the scaled number does not fit [ngx_int_t]. *)
Theorem ngx_atofp_spec (ip fp : bytes) (point : nat) :
  Forall is_digit ip → Forall is_digit fp → (0 < point)%nat →
  (length fp <= point)%nat →
  ngx_atofp (ip ++ "."%ch :: fp) point =
  fits NGX_MAX_INT_T_VALUE
    (Some (dec_value 0 (ip ++ fp) * 10 ^ Z.of_nat (point - length fp))).
Proof.
  intros Hip Hfp Hp Hlen.
  assert (Hhd : ngx_atofp (ip ++ 46 :: fp) point =
    atofp_loop (NGX_MAX_INT_T_VALUE / 10) (NGX_MAX_INT_T_VALUE mod 10) 0 false point
      (ip ++ 46 :: fp)) by (by destruct ip).
  rewrite Hhd, (atofp_loop_digits 0 false point ip) by (done || unfold NGX_MAX_INT_T_VALUE; lia).
  assert (Hge : 0 <= dec_value 0 ip) by (by apply dec_value_ge).
  rewrite dec_value_app. set (vi := dec_value 0 ip) in *.
  assert (Hvf : vi <= dec_value vi fp) by (by apply dec_value_ge).
  assert (Hpow : 0 < 10 ^ Z.of_nat (point - length fp)) by (apply Z.pow_pos_nonneg; lia).
  assert (Hmul : dec_value vi fp <= dec_value vi fp * 10 ^ Z.of_nat (point - length fp)).
  { clear -Hge Hvf Hpow. nia. }
  destruct (Z.leb_spec vi NGX_MAX_INT_T_VALUE).
  - cbn [atofp_loop]. destruct (Nat.eqb_spec point 0) as [|_]; [lia|]. cbn [Z.eqb Pos.eqb].
    rewrite <- (app_nil_r fp) at 1.
    rewrite (atofp_loop_digits vi true point fp []);
      [|done|lia|done|destruct (decide (length fp < point)%nat); [by left|right; split; [done|lia]]].
    cbn [atofp_loop]. destruct (Z.leb_spec (dec_value vi fp) NGX_MAX_INT_T_VALUE).
    + apply atofp_scale_spec. lia.
    + cbn [fits]. destruct (Z.leb_spec (dec_value vi fp * 10 ^ Z.of_nat (point - length fp))
                              NGX_MAX_INT_T_VALUE); [lia|done].
  - cbn [fits]. destruct (Z.leb_spec (dec_value vi fp * 10 ^ Z.of_nat (point - length fp))
                            NGX_MAX_INT_T_VALUE); [lia|done].
Qed.

(** The example of the source's comment: [ngx_atofp("10.5", 4, 2)] is 1050. *)
Lemma ngx_atofp_spec_witness : ngx_atofp (bs "10.5") 2 = 1050.
Proof.
  apply (ngx_atofp_spec (bs "10") (bs "5") 2);
    [by repeat constructor..|lia|simpl; lia].
Defined.
