(* ===== verification/NgxBase64.v ===== *)
(** * Base64 of the string library

    [ngx_encode_base64], [ngx_encode_base64url], [ngx_decode_base64] and
    [ngx_decode_base64url] of src/nginx-master/src/core/ngx_string.c, with the
    two internal loops they share.  The main theorem is the round trip for both
    alphabets, proved once against the interface [Base64Alphabet] that states
    what the loops need of a pair of tables. *)

From S2P Require Import Prelude.

Open Scope Z_scope.

(** ** Encoding *)

Definition basis_ref (basis : bytes) (i : Z) : Z := basis !!! Z.to_nat i.

Fixpoint ngx_encode_base64_internal (s : bytes) (basis : bytes) (padding : bool)
    : bytes :=
  match s with
  | s0 :: s1 :: s2 :: s' =>
      basis_ref basis (Z.land (Z.shiftr s0 2) 63)
      :: basis_ref basis (Z.lor (Z.shiftl (Z.land s0 3) 4) (Z.shiftr s1 4))
      :: basis_ref basis (Z.lor (Z.shiftl (Z.land s1 15) 2) (Z.shiftr s2 6))
      :: basis_ref basis (Z.land s2 63)
      :: ngx_encode_base64_internal s' basis padding
  | [s0; s1] =>
      [basis_ref basis (Z.land (Z.shiftr s0 2) 63);
       basis_ref basis (Z.lor (Z.shiftl (Z.land s0 3) 4) (Z.shiftr s1 4));
       basis_ref basis (Z.shiftl (Z.land s1 15) 2)]
      ++ (if padding then ["="%ch] else [])
  | [s0] =>
      [basis_ref basis (Z.land (Z.shiftr s0 2) 63);
       basis_ref basis (Z.shiftl (Z.land s0 3) 4)]
      ++ (if padding then ["="%ch] else [])
      ++ (if padding then ["="%ch] else [])
  | [] => []
  end.

Definition basis64_enc : bytes :=
  bs "ABCDEFGHIJKLMNOPQRSTUVWXYZabcdefghijklmnopqrstuvwxyz0123456789+/".

Definition basis64url_enc : bytes :=
  bs "ABCDEFGHIJKLMNOPQRSTUVWXYZabcdefghijklmnopqrstuvwxyz0123456789-_".

Definition ngx_encode_base64 (src : bytes) : bytes :=
  ngx_encode_base64_internal src basis64_enc true.

Definition ngx_encode_base64url (src : bytes) : bytes :=
  ngx_encode_base64_internal src basis64url_enc false.

(** ** Decoding *)

(** The first loop: the length up to ["="], or an invalid character. *)
Fixpoint decode_base64_len (basis : list Z) (src : bytes) : option nat :=
  match src with
  | [] => Some 0%nat
  | c :: src' =>
      if c =? "="%ch then Some 0%nat
      else if basis_ref basis c =? 77 then None
      else match decode_base64_len basis src' with
           | Some n => Some (S n)
           | None => None
           end
  end.

Fixpoint decode_base64_loop (basis : list Z) (s : bytes) : bytes :=
  match s with
  | s0 :: s1 :: s2 :: s3 :: s' =>
      u_char (Z.lor (Z.shiftl (basis_ref basis s0) 2) (Z.shiftr (basis_ref basis s1) 4))
      :: u_char (Z.lor (Z.shiftl (basis_ref basis s1) 4) (Z.shiftr (basis_ref basis s2) 2))
      :: u_char (Z.lor (Z.shiftl (basis_ref basis s2) 6) (basis_ref basis s3))
      :: decode_base64_loop basis s'
  | [s0; s1; s2] =>
      [u_char (Z.lor (Z.shiftl (basis_ref basis s0) 2) (Z.shiftr (basis_ref basis s1) 4));
       u_char (Z.lor (Z.shiftl (basis_ref basis s1) 4) (Z.shiftr (basis_ref basis s2) 2))]
  | [s0; s1] =>
      [u_char (Z.lor (Z.shiftl (basis_ref basis s0) 2) (Z.shiftr (basis_ref basis s1) 4))]
  | _ => []
  end.

(** [None] is [NGX_ERROR]. *)
Definition ngx_decode_base64_internal (src : bytes) (basis : list Z) : option bytes :=
  match decode_base64_len basis src with
  | None => None
  | Some len =>
      if Nat.eqb (len mod 4) 1 then None
      else Some (decode_base64_loop basis (take len src))
  end.

Definition basis64_dec : list Z :=
  [77; 77; 77; 77; 77; 77; 77; 77; 77; 77; 77; 77; 77; 77; 77; 77;
   77; 77; 77; 77; 77; 77; 77; 77; 77; 77; 77; 77; 77; 77; 77; 77;
   77; 77; 77; 77; 77; 77; 77; 77; 77; 77; 77; 62; 77; 77; 77; 63;
   52; 53; 54; 55; 56; 57; 58; 59; 60; 61; 77; 77; 77; 77; 77; 77;
   77;  0;  1;  2;  3;  4;  5;  6;  7;  8;  9; 10; 11; 12; 13; 14;
   15; 16; 17; 18; 19; 20; 21; 22; 23; 24; 25; 77; 77; 77; 77; 77;
   77; 26; 27; 28; 29; 30; 31; 32; 33; 34; 35; 36; 37; 38; 39; 40;
   41; 42; 43; 44; 45; 46; 47; 48; 49; 50; 51; 77; 77; 77; 77; 77]
  ++ replicate 128 77.

Definition basis64url_dec : list Z :=
  [77; 77; 77; 77; 77; 77; 77; 77; 77; 77; 77; 77; 77; 77; 77; 77;
   77; 77; 77; 77; 77; 77; 77; 77; 77; 77; 77; 77; 77; 77; 77; 77;
   77; 77; 77; 77; 77; 77; 77; 77; 77; 77; 77; 77; 77; 62; 77; 77;
   52; 53; 54; 55; 56; 57; 58; 59; 60; 61; 77; 77; 77; 77; 77; 77;
   77;  0;  1;  2;  3;  4;  5;  6;  7;  8;  9; 10; 11; 12; 13; 14;
   15; 16; 17; 18; 19; 20; 21; 22; 23; 24; 25; 77; 77; 77; 77; 63;
   77; 26; 27; 28; 29; 30; 31; 32; 33; 34; 35; 36; 37; 38; 39; 40;
   41; 42; 43; 44; 45; 46; 47; 48; 49; 50; 51; 77; 77; 77; 77; 77]
  ++ replicate 128 77.

Definition ngx_decode_base64 (src : bytes) : option bytes :=
  ngx_decode_base64_internal src basis64_dec.

Definition ngx_decode_base64url (src : bytes) : option bytes :=
  ngx_decode_base64_internal src basis64url_dec.

(** * Theorems *)

(** What the loops rely on: the decoding table inverts the encoding table on
    the 64 digits, and no digit is the padding character. *)
Class Base64Alphabet (enc dec : list Z) : Prop := {
  alphabet_inv (v : Z) : 0 <= v < 64 → basis_ref dec (basis_ref enc v) = v;
  alphabet_not_pad (v : Z) : 0 <= v < 64 → basis_ref enc v ≠ "="%ch
}.

#[export] Instance base64_standard : Base64Alphabet basis64_enc basis64_dec.
Proof.
  split; intros v Hv.
  - by apply (range_check_prop 64 (fun v => basis_ref basis64_dec (basis_ref basis64_enc v) = v)).
  - by apply (range_check_prop 64 (fun v => basis_ref basis64_enc v ≠ 61)).
Qed.

#[export] Instance base64_url : Base64Alphabet basis64url_enc basis64url_dec.
Proof.
  split; intros v Hv.
  - by apply (range_check_prop 64
                (fun v => basis_ref basis64url_dec (basis_ref basis64url_enc v) = v)).
  - by apply (range_check_prop 64 (fun v => basis_ref basis64url_enc v ≠ 61)).
Qed.

(** ** The bit arithmetic, checked on every pair of bytes *)

Definition sextet_ok (a b : Z) : bool :=
  let s0 := Z.land (Z.shiftr a 2) 63 in
  let s1 := Z.lor (Z.shiftl (Z.land a 3) 4) (Z.shiftr b 4) in
  let s1' := Z.shiftl (Z.land a 3) 4 in
  let t1 := Z.lor (Z.shiftl (Z.land a 15) 2) (Z.shiftr b 6) in
  let t1' := Z.shiftl (Z.land a 15) 2 in
  let u0 := Z.land a 63 in
  (s0 <? 64) && (0 <=? s0) && (s1 <? 64) && (0 <=? s1) && (s1' <? 64) && (0 <=? s1')
  && (t1 <? 64) && (0 <=? t1) && (t1' <? 64) && (0 <=? t1') && (u0 <? 64) && (0 <=? u0)
  && (u_char (Z.lor (Z.shiftl s0 2) (Z.shiftr s1 4)) =? a)
  && (u_char (Z.lor (Z.shiftl s0 2) (Z.shiftr s1' 4)) =? a).

Lemma sextet_ok_all (a b : Z) : is_byte a → is_byte b → sextet_ok a b = true.
Proof. apply (range_check2_spec 256 256 sextet_ok). by vm_compute. Qed.

(** The low nibble of the first byte is lost in the second byte's digits, so
    that the second and third equations depend on two bytes only. *)
Definition octet2_ok (n b : Z) : bool :=
  range_check 4 (fun k =>
    let t1 := Z.lor (Z.shiftl (Z.land b 15) 2) k in
    let s1 := Z.lor (Z.shiftl n 4) (Z.shiftr b 4) in
    u_char (Z.lor (Z.shiftl s1 4) (Z.shiftr t1 2)) =? b).

Lemma octet2_ok_all (n b : Z) : 0 <= n < 4 → is_byte b → octet2_ok n b = true.
Proof. apply (range_check2_spec 4 256 octet2_ok). by vm_compute. Qed.

Definition octet3_ok (n c : Z) : bool :=
  u_char (Z.lor (Z.shiftl (Z.lor (Z.shiftl n 2) (Z.shiftr c 6)) 6) (Z.land c 63)) =? c.

Lemma octet3_ok_all (n c : Z) : 0 <= n < 16 → is_byte c → octet3_ok n c = true.
Proof. apply (range_check2_spec 16 256 octet3_ok). by vm_compute. Qed.

Lemma land_small (a : Z) (k : Z) : 0 <= k → 0 <= Z.land a (Z.ones k) < 2 ^ k.
Proof. intros Hk. rewrite Z.land_ones by done. apply Z.mod_pos_bound, Z.pow_pos_nonneg; lia. Qed.

Lemma shiftr6_small (c : Z) : is_byte c → 0 <= Z.shiftr c 6 < 4.
Proof.
  unfold is_byte. intros Hc. rewrite Z.shiftr_div_pow2 by lia. change (2 ^ 6) with 64.
  split; [apply Z.div_pos; lia|apply Z.div_lt_upper_bound; lia].
Qed.

(** The three equations of a full group, and those of the short groups. *)
Lemma octet1 (a b : Z) : is_byte a → is_byte b →
  u_char (Z.lor (Z.shiftl (Z.land (Z.shiftr a 2) 63) 2)
            (Z.shiftr (Z.lor (Z.shiftl (Z.land a 3) 4) (Z.shiftr b 4)) 4)) = a.
Proof. intros Ha Hb. pose proof (sextet_ok_all a b Ha Hb) as H. unfold sextet_ok in H. lia. Qed.

Lemma octet1_last (a : Z) : is_byte a →
  u_char (Z.lor (Z.shiftl (Z.land (Z.shiftr a 2) 63) 2)
            (Z.shiftr (Z.shiftl (Z.land a 3) 4) 4)) = a.
Proof. intros Ha. pose proof (sextet_ok_all a a Ha Ha) as H. unfold sextet_ok in H. lia. Qed.

Lemma octet2 (a b k : Z) : is_byte b → 0 <= k < 4 →
  u_char (Z.lor (Z.shiftl (Z.lor (Z.shiftl (Z.land a 3) 4) (Z.shiftr b 4)) 4)
            (Z.shiftr (Z.lor (Z.shiftl (Z.land b 15) 2) k) 2)) = b.
Proof.
  intros Hb Hk. pose proof (octet2_ok_all (Z.land a 3) b (land_small a 2 ltac:(lia)) Hb) as H.
  apply (range_check_spec _ _ k) in H; [|done]. cbv beta zeta in H. by apply Z.eqb_eq in H.
Qed.

Lemma octet2_last (a b : Z) : is_byte b →
  u_char (Z.lor (Z.shiftl (Z.lor (Z.shiftl (Z.land a 3) 4) (Z.shiftr b 4)) 4)
            (Z.shiftr (Z.shiftl (Z.land b 15) 2) 2)) = b.
Proof.
  intros Hb. pose proof (octet2 a b 0 Hb ltac:(lia)) as H. by rewrite Z.lor_0_r in H.
Qed.

Lemma octet3 (b c : Z) : is_byte c →
  u_char (Z.lor (Z.shiftl (Z.lor (Z.shiftl (Z.land b 15) 2) (Z.shiftr c 6)) 6)
            (Z.land c 63)) = c.
Proof.
  intros Hc. pose proof (octet3_ok_all (Z.land b 15) c (land_small b 4 ltac:(lia)) Hc) as H.
  by apply Z.eqb_eq in H.
Qed.

Section Alphabet.
Context {enc dec : list Z} `{!Base64Alphabet enc dec}.

Lemma sextet_decode (v : Z) : 0 <= v < 64 → basis_ref dec (basis_ref enc v) = v.
Proof. apply alphabet_inv. Qed.

(** The six digits that a pair of bytes contributes are in range. *)
Lemma sextet_ranges (a b : Z) : is_byte a → is_byte b →
  (0 <= Z.land (Z.shiftr a 2) 63 < 64)
  ∧ (0 <= Z.lor (Z.shiftl (Z.land a 3) 4) (Z.shiftr b 4) < 64)
  ∧ (0 <= Z.shiftl (Z.land a 3) 4 < 64)
  ∧ (0 <= Z.lor (Z.shiftl (Z.land a 15) 2) (Z.shiftr b 6) < 64)
  ∧ (0 <= Z.shiftl (Z.land a 15) 2 < 64)
  ∧ (0 <= Z.land a 63 < 64).
Proof. intros Ha Hb. pose proof (sextet_ok_all a b Ha Hb) as H. unfold sextet_ok in H. lia. Qed.

(** A digit is neither the padding nor a character the first loop refuses. *)
Lemma decode_len_digit (v : Z) (src : bytes) :
  0 <= v < 64 →
  decode_base64_len dec (basis_ref enc v :: src) =
  match decode_base64_len dec src with Some n => Some (S n) | None => None end.
Proof.
  intros Hv. cbn [decode_base64_len].
  destruct (Z.eqb_spec (basis_ref enc v) 61) as [E|_]; [by apply alphabet_not_pad in E|].
  rewrite (alphabet_inv v Hv). by destruct (Z.eqb_spec v 77); [lia|].
Qed.

Lemma encode_decode_group (s : bytes) (padding : bool) :
  Forall is_byte s →
  ∃ len, decode_base64_len dec (ngx_encode_base64_internal s enc padding) = Some len
         ∧ (len mod 4 ≠ 1)%nat
         ∧ decode_base64_loop dec (take len (ngx_encode_base64_internal s enc padding)) = s.
Proof.
  induction s as [s IH] using (induction_ltof1 _ (@length Z)). unfold ltof in IH.
  destruct s as [|a [|b [|c s]]]; intros Hs.
  - by exists 0%nat.
  - inv Hs. destruct (sextet_ranges a a ltac:(done) ltac:(done)) as (R1 & _ & R2 & _).
    exists 2%nat. cbn [ngx_encode_base64_internal app].
    rewrite !decode_len_digit by done.
    split_and!; [by destruct padding|done|].
    cbn [take decode_base64_loop]. rewrite !sextet_decode by done. by rewrite octet1_last.
  - inv Hs. inv H2. destruct (sextet_ranges a b ltac:(done) ltac:(done)) as (R1 & R2 & _).
    destruct (sextet_ranges b b ltac:(done) ltac:(done)) as (_ & _ & _ & _ & R3 & _).
    exists 3%nat. cbn [ngx_encode_base64_internal app].
    rewrite !decode_len_digit by done.
    split_and!; [by destruct padding|done|].
    cbn [take decode_base64_loop]. rewrite !sextet_decode by done.
    by rewrite octet1, octet2_last.
  - apply Forall_cons in Hs as [Ha [Hb [Hc Hs]%Forall_cons]%Forall_cons].
    destruct (sextet_ranges a b Ha Hb) as (R1 & R2 & _).
    destruct (sextet_ranges b c Hb Hc) as (_ & _ & _ & R3 & _).
    destruct (sextet_ranges c c Hc Hc) as (_ & _ & _ & _ & _ & R4).
    destruct (IH s) as (len & H1 & H2 & H3); [simpl; lia|done|].
    exists (4 + len)%nat. cbn [ngx_encode_base64_internal].
    rewrite !decode_len_digit, H1 by done. split_and!; [done| |].
    + rewrite Nat.Div0.add_mod. by rewrite Nat.Div0.mod_same, Nat.add_0_l, Nat.Div0.mod_mod.
    + cbn [Nat.add take decode_base64_loop]. rewrite !sextet_decode by done.
      by rewrite octet1, octet2, octet3, H3 by auto using shiftr6_small.
Qed.

Lemma base64_roundtrip (s : bytes) (padding : bool) :
  Forall is_byte s →
  ngx_decode_base64_internal (ngx_encode_base64_internal s enc padding) dec = Some s.
Proof.
  intros Hs. destruct (encode_decode_group s padding Hs) as (len & H1 & H2 & H3).
  unfold ngx_decode_base64_internal. rewrite H1.
  destruct (Nat.eqb_spec (len mod 4) 1); [done|]. by rewrite H3.
Qed.

End Alphabet.

(** Decoding an encoded string gives the string back, in both alphabets: the
    padded standard one and the unpadded URL one. *)
Theorem ngx_base64_roundtrip (s : bytes) :
  Forall is_byte s →
  ngx_decode_base64 (ngx_encode_base64 s) = Some s
  ∧ ngx_decode_base64url (ngx_encode_base64url s) = Some s.
Proof. intros Hs. split; by apply base64_roundtrip. Qed.

Lemma ngx_base64_roundtrip_witness :
  ngx_decode_base64 (ngx_encode_base64 [0; 255; 16; 131]) = Some [0; 255; 16; 131]
  ∧ ngx_decode_base64url (ngx_encode_base64url [0; 255; 16; 131]) = Some [0; 255; 16; 131].
Proof.
  apply (ngx_base64_roundtrip [0; 255; 16; 131]).
  solve_bytes.
Defined.

(** The macro [ngx_base64_encoded_length]: [((len + 2) / 3) * 4]. *)
Definition ngx_base64_encoded_length (len : Z) : Z := (len + 2) / 3 * 4.

Lemma base64_length_padded (s basis : bytes) :
  Z.of_nat (length (ngx_encode_base64_internal s basis true)) =
  ngx_base64_encoded_length (Z.of_nat (length s)).
Proof.
  induction s as [s IH] using (induction_ltof1 _ (@length Z)). unfold ltof in IH.
  destruct s as [|a [|b [|c s]]]; [done..|].
  cbn [ngx_encode_base64_internal length].
  assert (H : Z.of_nat (length (ngx_encode_base64_internal s basis true)) =
              ngx_base64_encoded_length (Z.of_nat (length s))) by (apply IH; simpl; lia).
  unfold ngx_base64_encoded_length in *.
  rewrite !Nat2Z.inj_succ, H.
  replace (Z.succ (Z.succ (Z.succ (Z.of_nat (length s)))) + 2)
    with (Z.of_nat (length s) + 2 + 1 * 3) by lia.
  rewrite Z.div_add by lia. lia.
Qed.

(** The encoders write at most [ngx_base64_encoded_length] bytes: the size the
    callers allocate. *)
Theorem ngx_encode_base64_fits (s : bytes) :
  Z.of_nat (length (ngx_encode_base64 s)) = ngx_base64_encoded_length (Z.of_nat (length s)).
Proof. apply base64_length_padded. Qed.
