(* ===== verification/NgxEscape.v ===== *)
(** * Escaping and unescaping

    [ngx_escape_uri], [ngx_unescape_uri], [ngx_escape_html] and
    [ngx_escape_json] of src/nginx-master/src/core/ngx_string.c.  Each escaper
    of the program is called twice: with a NULL destination it counts the bytes
    that escaping adds, then it writes into the buffer allocated from that
    count.  [TwoPass] is the contract between the passes, which the callers'
    buffer sizes rely on; it is discharged for every escaper here and in the
    files of the modules that have escapers of their own. *)

From S2P Require Import Prelude NgxNumber.

Open Scope Z_scope.

(** ** The two-pass contract *)

Class TwoPass (extra : bytes → Z) (write : bytes → bytes) : Prop :=
  two_pass (s : bytes) :
    Z.of_nat (length (write s)) = Z.of_nat (length s) + extra s.

(** ** ngx_escape_uri *)

Definition escape_uri_tbl : list Z :=
  [0xffffffff; 0x80000029; 0x00000000; 0x80000000;
   0xffffffff; 0xffffffff; 0xffffffff; 0xffffffff].

Definition escape_args_tbl : list Z :=
  [0xffffffff; 0x88000869; 0x00000000; 0x80000000;
   0xffffffff; 0xffffffff; 0xffffffff; 0xffffffff].

Definition escape_uri_component_tbl : list Z :=
  [0xffffffff; 0xfc009fff; 0x78000001; 0xb8000001;
   0xffffffff; 0xffffffff; 0xffffffff; 0xffffffff].

Definition escape_html_tbl : list Z :=
  [0xffffffff; 0x000000ad; 0x00000000; 0x80000000;
   0xffffffff; 0xffffffff; 0xffffffff; 0xffffffff].

Definition escape_refresh_tbl : list Z :=
  [0xffffffff; 0x00000085; 0x00000000; 0x80000000;
   0xffffffff; 0xffffffff; 0xffffffff; 0xffffffff].

Definition escape_memcached_tbl : list Z :=
  [0xffffffff; 0x00000021; 0x00000000; 0x00000000;
   0x00000000; 0x00000000; 0x00000000; 0x00000000].

(** [NGX_ESCAPE_URI] .. [NGX_ESCAPE_MAIL_AUTH]. *)
Inductive escape_type :=
  | NGX_ESCAPE_URI | NGX_ESCAPE_ARGS | NGX_ESCAPE_URI_COMPONENT | NGX_ESCAPE_HTML
  | NGX_ESCAPE_REFRESH | NGX_ESCAPE_MEMCACHED | NGX_ESCAPE_MAIL_AUTH.

Definition escape_map (type : escape_type) : list Z :=
  match type with
  | NGX_ESCAPE_URI => escape_uri_tbl
  | NGX_ESCAPE_ARGS => escape_args_tbl
  | NGX_ESCAPE_URI_COMPONENT => escape_uri_component_tbl
  | NGX_ESCAPE_HTML => escape_html_tbl
  | NGX_ESCAPE_REFRESH => escape_refresh_tbl
  | NGX_ESCAPE_MEMCACHED => escape_memcached_tbl
  | NGX_ESCAPE_MAIL_AUTH => escape_memcached_tbl
  end.

(** The counting loop, [dst == NULL]. *)
Fixpoint escape_uri_count (escape : list Z) (src : bytes) : Z :=
  match src with
  | [] => 0
  | c :: src' =>
      (if bitmap_test escape c then 1 else 0) + escape_uri_count escape src'
  end.

(** The writing loop. *)
Fixpoint escape_uri_write (escape : list Z) (src : bytes) : bytes :=
  match src with
  | [] => []
  | c :: src' =>
      (if bitmap_test escape c
       then ["%"%ch; hex_digit hex_upper (Z.shiftr c 4); hex_digit hex_upper (Z.land c 15)]
       else [c])
      ++ escape_uri_write escape src'
  end.

Definition ngx_escape_uri_count (src : bytes) (type : escape_type) : Z :=
  escape_uri_count (escape_map type) src.

Definition ngx_escape_uri (src : bytes) (type : escape_type) : bytes :=
  escape_uri_write (escape_map type) src.

(** ** ngx_unescape_uri

    The state [sw_quoted_second] carries [decoded] and the raw first digit
    [*(s - 2)].  The result is the output and the unread input: [goto done]
    leaves the loop early. *)

Definition NGX_UNESCAPE_URI : Z := 1.
Definition NGX_UNESCAPE_REDIRECT : Z := 2.

Inductive unescape_state :=
  | sw_usual
  | sw_quoted
  | sw_quoted_second (decoded first : Z).

Definition flag (type bit : Z) : bool := negb (Z.land type bit =? 0).

(** [plus] is the one difference of set_misc's patched copy of the function,
    which also decodes ["+"]. *)
Definition unescape_usual (plus : bool) (ch : Z) : option bytes :=
  if ch =? "%"%ch then None
  else if plus && (ch =? "+"%ch) then Some [" "%ch]
  else Some [ch].

Fixpoint unescape_loop (plus : bool) (type : Z) (state : unescape_state) (s : bytes)
    : bytes * bytes :=
  match s with
  | [] => ([], [])
  | ch :: s' =>
      let emit l state' :=
        let '(d, rest) := unescape_loop plus type state' s' in (l ++ d, rest) in
      match state with
      | sw_usual =>
          if (ch =? "?"%ch) && flag type (Z.lor NGX_UNESCAPE_URI NGX_UNESCAPE_REDIRECT)
          then ([ch], s')
          else match unescape_usual plus ch with
               | None => emit [] sw_quoted
               | Some l => emit l sw_usual
               end
      | sw_quoted =>
          if (ch >=? "0"%ch) && (ch <=? "9"%ch)
          then emit [] (sw_quoted_second (u_char (ch - "0"%ch)) ch)
          else
            let c := u_char (Z.lor ch 32) in
            if (c >=? "a"%ch) && (c <=? "f"%ch)
            then emit [] (sw_quoted_second (u_char (c - "a"%ch + 10)) ch)
            else emit [ch] sw_usual
      | sw_quoted_second decoded first =>
          if (ch >=? "0"%ch) && (ch <=? "9"%ch) then
            let ch2 := u_char (Z.shiftl decoded 4 + (ch - "0"%ch)) in
            if flag type NGX_UNESCAPE_REDIRECT then
              if (ch2 >? "%"%ch) && (ch2 <? 0x7f) then emit [ch2] sw_usual
              else emit ["%"%ch; first; ch] sw_usual
            else emit [ch2] sw_usual
          else
            let c := u_char (Z.lor ch 32) in
            if (c >=? "a"%ch) && (c <=? "f"%ch) then
              let ch2 := u_char (Z.shiftl decoded 4 + (c - "a"%ch) + 10) in
              if flag type NGX_UNESCAPE_URI then
                if ch2 =? "?"%ch then ([ch2], s') else emit [ch2] sw_usual
              else if flag type NGX_UNESCAPE_REDIRECT then
                if ch2 =? "?"%ch then ([ch2], s')
                else if (ch2 >? "%"%ch) && (ch2 <? 0x7f) then emit [ch2] sw_usual
                else emit ["%"%ch; first; ch] sw_usual
              else emit [ch2] sw_usual
            else emit [] sw_usual
      end
  end.

Definition ngx_unescape_uri (src : bytes) (type : Z) : bytes * bytes :=
  unescape_loop false type sw_usual src.

(** ** ngx_escape_html *)

Fixpoint ngx_escape_html_count (src : bytes) : Z :=
  match src with
  | [] => 0
  | c :: src' =>
      (if c =? "<"%ch then 3
       else if c =? ">"%ch then 3
       else if c =? "&"%ch then 4
       else if c =? 34 then 5
       else 0) + ngx_escape_html_count src'
  end.

Fixpoint ngx_escape_html (src : bytes) : bytes :=
  match src with
  | [] => []
  | ch :: src' =>
      (if ch =? "<"%ch then bs "&lt;"
       else if ch =? ">"%ch then bs "&gt;"
       else if ch =? "&"%ch then bs "&amp;"
       else if ch =? 34 then bs "&quot;"
       else [ch]) ++ ngx_escape_html src'
  end.

(** ** ngx_escape_json *)

Definition json_short_escape (ch : Z) : option Z :=
  if ch =? 10 then Some "n"%ch
  else if ch =? 13 then Some "r"%ch
  else if ch =? 9 then Some "t"%ch
  else if ch =? 8 then Some "b"%ch
  else if ch =? 12 then Some "f"%ch
  else None.

Fixpoint ngx_escape_json_count (src : bytes) : Z :=
  match src with
  | [] => 0
  | ch :: src' =>
      (if (ch =? 92) || (ch =? 34) then 1
       else if ch <=? 0x1f then
         match json_short_escape ch with Some _ => 1 | None => 5 end
       else 0) + ngx_escape_json_count src'
  end.

Fixpoint ngx_escape_json (src : bytes) : bytes :=
  match src with
  | [] => []
  | ch :: src' =>
      (if ch >? 0x1f then
         (if (ch =? 92) || (ch =? 34) then [92] else []) ++ [ch]
       else
         92 :: match json_short_escape ch with
               | Some e => [e]
               | None =>
                   ["u"%ch; "0"%ch; "0"%ch; "0"%ch + Z.shiftr ch 4;
                    let ch4 := Z.land ch 15 in
                    if ch4 <? 10 then "0"%ch + ch4 else "A"%ch + ch4 - 10]
               end)
      ++ ngx_escape_json src'
  end.

(** * Theorems *)

(** ** The passes agree *)

Lemma escape_uri_length (escape : list Z) (s : bytes) :
  Z.of_nat (length (escape_uri_write escape s)) =
  Z.of_nat (length s) + 2 * escape_uri_count escape s.
Proof.
  induction s as [|c s IH]; [done|]. cbn [escape_uri_write escape_uri_count].
  rewrite length_app. destruct (bitmap_test escape c); simpl length; lia.
Qed.

#[export] Instance ngx_escape_uri_two_pass (type : escape_type) :
  TwoPass (fun s => 2 * ngx_escape_uri_count s type) (fun s => ngx_escape_uri s type).
Proof. intros s. apply escape_uri_length. Qed.

#[export] Instance ngx_escape_html_two_pass :
  TwoPass ngx_escape_html_count ngx_escape_html.
Proof.
  intros s. induction s as [|c s IH]; [done|].
  cbn [ngx_escape_html ngx_escape_html_count]. rewrite length_app. simpl (length (c :: s)).
  split_ifs; simpl length; lia.
Qed.

#[export] Instance ngx_escape_json_two_pass :
  TwoPass ngx_escape_json_count ngx_escape_json.
Proof.
  intros s. induction s as [|c s IH]; [done|].
  cbn [ngx_escape_json ngx_escape_json_count]. rewrite length_app. simpl (length (c :: s)).
  destruct (c >? 31) eqn:E1.
  - destruct (_ || _) eqn:E2; [simpl length; lia|].
    destruct (c <=? 31) eqn:E3; simpl length; lia.
  - destruct (_ || _) eqn:E2; [lia|]. destruct (c <=? 31) eqn:E3; [|lia].
    destruct (json_short_escape c); simpl length; lia.
Qed.

(** Every escaper of the string library writes exactly the number of bytes that
    its counting pass announced to the allocator. *)
Theorem ngx_escape_two_pass (s : bytes) (type : escape_type) :
  Z.of_nat (length (ngx_escape_uri s type)) =
    Z.of_nat (length s) + 2 * ngx_escape_uri_count s type
  ∧ Z.of_nat (length (ngx_escape_html s)) =
    Z.of_nat (length s) + ngx_escape_html_count s
  ∧ Z.of_nat (length (ngx_escape_json s)) =
    Z.of_nat (length s) + ngx_escape_json_count s.
Proof.
  split_and!; [apply (two_pass (TwoPass := ngx_escape_uri_two_pass type))|apply two_pass..].
Qed.

(** ** Unescaping *)

Lemma unescape_emit {A : Type} (p : bytes * A) : (let '(d, rest) := p in ([] ++ d, rest)) = p.
Proof. by destruct p. Qed.

(** The two digit states, by the value of the digit. *)
Lemma unescape_quoted (plus : bool) (h a : Z) (s : bytes) :
  hex_val h = Some a →
  unescape_loop plus 0 sw_quoted (h :: s) =
  unescape_loop plus 0 (sw_quoted_second a h) s.
Proof.
  intros H. pose proof (hex_val_bound _ _ H) as Hb.
  unfold hex_val in H. cbv zeta in H. cbn [unescape_loop].
  destruct ((h >=? 48) && (h <=? 57)) eqn:E1.
  - inv H. rewrite u_char_id by (unfold is_byte; lia). apply unescape_emit.
  - destruct ((u_char (Z.lor h 32) >=? 97) && (u_char (Z.lor h 32) <=? 102)) eqn:E2; [|done].
    inv H. rewrite (u_char_id (_ - _ + _)) by (unfold is_byte; lia). apply unescape_emit.
Qed.

Lemma unescape_quoted_second (plus : bool) (h h' a b : Z) (s : bytes) :
  0 <= a < 16 → hex_val h = Some b →
  unescape_loop plus 0 (sw_quoted_second a h') (h :: s) =
  let '(d, rest) := unescape_loop plus 0 sw_usual s in (a * 16 + b :: d, rest).
Proof.
  intros Ha H. pose proof (hex_val_bound _ _ H) as Hb.
  unfold hex_val in H. cbv zeta in H. cbn [unescape_loop].
  change (flag 0 NGX_UNESCAPE_URI) with false.
  change (flag 0 NGX_UNESCAPE_REDIRECT) with false.
  rewrite Z.shiftl_mul_pow2 by lia. change (2 ^ 4) with 16.
  destruct ((h >=? 48) && (h <=? 57)) eqn:E1.
  - inv H. by rewrite u_char_id by (unfold is_byte; lia).
  - destruct ((u_char (Z.lor h 32) >=? 97) && (u_char (Z.lor h 32) <=? 102)) eqn:E2; [|done].
    inv H. rewrite (u_char_id (_ + _ + _)) by (unfold is_byte; lia).
    destruct (unescape_loop plus 0 sw_usual s). simpl. do 2 f_equal. lia.
Qed.

Lemma hex_val_upper (v : Z) :
  0 <= v < 16 → hex_val (hex_digit hex_upper v) = Some v.
Proof.
  intros Hv.
  by apply (range_check_prop 16 (fun v => hex_val (hex_digit hex_upper v) = Some v)).
Qed.

(** A percent-encoded byte decodes to the byte. *)
Lemma unescape_pct (plus : bool) (c : Z) (s : bytes) :
  is_byte c →
  unescape_loop plus 0 sw_usual
    ("%"%ch :: hex_digit hex_upper (Z.shiftr c 4) :: hex_digit hex_upper (Z.land c 15) :: s) =
  let '(d, rest) := unescape_loop plus 0 sw_usual s in (c :: d, rest).
Proof.
  intros Hc. destruct (nibbles c Hc) as (H1 & H2 & H3).
  transitivity (unescape_loop plus 0 sw_quoted
    (hex_digit hex_upper (Z.shiftr c 4) :: hex_digit hex_upper (Z.land c 15) :: s)).
  { cbn [unescape_loop Z.eqb Pos.eqb andb]. unfold unescape_usual. cbn [Z.eqb Pos.eqb].
    apply unescape_emit. }
  rewrite (unescape_quoted _ _ (Z.shiftr c 4)) by (by apply hex_val_upper).
  rewrite (unescape_quoted_second _ _ _ _ (Z.land c 15)) by (done || by apply hex_val_upper).
  by rewrite <- H3.
Qed.

(** A byte that is not special is copied. *)
Lemma unescape_plain (plus : bool) (c : Z) (s : bytes) :
  c ≠ "%"%ch → (plus = true → c ≠ "+"%ch) →
  unescape_loop plus 0 sw_usual (c :: s) =
  let '(d, rest) := unescape_loop plus 0 sw_usual s in (c :: d, rest).
Proof.
  intros H1 H2. cbn [unescape_loop]. change (flag 0 _) with false. rewrite andb_false_r.
  unfold unescape_usual. destruct (Z.eqb_spec c 37); [done|].
  destruct plus; [|done]. destruct (Z.eqb_spec c 43); [|done].
  by specialize (H2 eq_refl).
Qed.

(** Unescaping inverts any escaping that escapes ["%"] (and ["+"], for the
    decoder that decodes it). *)
Lemma unescape_escape (plus : bool) (escape : list Z) (s : bytes) :
  bitmap_test escape "%"%ch = true →
  (plus = true → bitmap_test escape "+"%ch = true) →
  Forall is_byte s →
  unescape_loop plus 0 sw_usual (escape_uri_write escape s) = (s, []).
Proof.
  intros Hpct Hplus Hs. induction Hs as [|c s Hc Hs IH]; [done|].
  cbn [escape_uri_write]. destruct (bitmap_test escape c) eqn:E; cbn [app].
  - by rewrite unescape_pct, IH.
  - rewrite unescape_plain, IH; [done|congruence|].
    intros Hp ->. specialize (Hplus Hp). congruence.
Qed.

(** [ngx_unescape_uri] with type 0 inverts [ngx_escape_uri], and consumes its
    whole input, for every type of escaping but [NGX_ESCAPE_REFRESH]. *)
Theorem ngx_unescape_escape_uri (s : bytes) (type : escape_type) :
  type ≠ NGX_ESCAPE_REFRESH →
  Forall is_byte s →
  ngx_unescape_uri (ngx_escape_uri s type) 0 = (s, []).
Proof. intros Ht Hs. apply unescape_escape; [by destruct type|done|done]. Qed.

(** The table of [NGX_ESCAPE_REFRESH] does not contain ["%"], which the comment
    above it lists: ["%41"] is left as it is and unescapes to ["A"]. *)
Theorem ngx_escape_refresh_percent :
  ngx_escape_uri (bs "%41") NGX_ESCAPE_REFRESH = bs "%41"
  ∧ ngx_unescape_uri (ngx_escape_uri (bs "%41") NGX_ESCAPE_REFRESH) 0 = (bs "A", []).
Proof. by vm_compute. Qed.

Lemma ngx_unescape_escape_uri_witness :
  ngx_unescape_uri (ngx_escape_uri (bs "a b%c?d&e+f") NGX_ESCAPE_ARGS) 0 =
  (bs "a b%c?d&e+f", []).
Proof.
  apply (ngx_unescape_escape_uri (bs "a b%c?d&e+f") NGX_ESCAPE_ARGS); [done|].
  solve_bytes.
Defined.

(** Unescaping never grows the string: the callers allocate the input length. *)
Lemma unescape_shrinks (plus : bool) (type : Z) (state : unescape_state) (s : bytes) :
  (length (unescape_loop plus type state s).1 <=
   length s + match state with sw_usual => 0 | sw_quoted => 1 | _ => 2 end)%nat.
Proof.
  revert state. induction s as [|c s IH]; intros state; [destruct state; simpl; lia|].
  pose proof (IH sw_usual) as Hu. pose proof (IH sw_quoted) as Hq.
  assert (Hs : ∀ d f, (length (unescape_loop plus type (sw_quoted_second d f) s).1
                       <= length s + 2)%nat) by (intros; apply (IH (sw_quoted_second d f))).
  cbn [unescape_loop]. cbv zeta.
  destruct (unescape_loop plus type sw_usual s) as [du ru].
  destruct (unescape_loop plus type sw_quoted s) as [dq rq].
  destruct state as [| |decoded first]; [unfold unescape_usual| |];
    repeat first
      [ lia
      | match goal with |- context [if ?b then _ else _] => destruct b end
      | match goal with |- context [unescape_loop plus type (sw_quoted_second ?d ?f) s] =>
          specialize (Hs d f); destruct (unescape_loop plus type (sw_quoted_second d f) s) end
      | progress (simpl in *; rewrite ?length_app; simpl) ].
Qed.

Theorem ngx_unescape_uri_bounded (src : bytes) (type : Z) :
  (length (ngx_unescape_uri src type).1 <= length src)%nat.
Proof.
  pose proof (unescape_shrinks false type sw_usual src) as H.
  rewrite Nat.add_0_r in H. exact H.
Qed.

(** ** HTML *)

(** A reference decoder for the four entities the escaper produces. *)
Fixpoint strip_prefix (p l : bytes) : option bytes :=
  match p, l with
  | [], _ => Some l
  | x :: p', y :: l' => if x =? y then strip_prefix p' l' else None
  | _ :: _, [] => None
  end.

Definition html_entity (l : bytes) : option (Z * bytes) :=
  match strip_prefix (bs "&lt;") l, strip_prefix (bs "&gt;") l,
        strip_prefix (bs "&amp;") l, strip_prefix (bs "&quot;") l with
  | Some r, _, _, _ => Some ("<"%ch, r)
  | _, Some r, _, _ => Some (">"%ch, r)
  | _, _, Some r, _ => Some ("&"%ch, r)
  | _, _, _, Some r => Some (34, r)
  | _, _, _, _ => None
  end.

Fixpoint html_decode (fuel : nat) (l : bytes) : bytes :=
  match fuel, l with
  | S fuel', c :: l' =>
      match html_entity l with
      | Some (c', r) => c' :: html_decode fuel' r
      | None => c :: html_decode fuel' l'
      end
  | _, _ => []
  end.

Lemma html_entity_plain (c : Z) (l : bytes) : c ≠ "&"%ch → html_entity (c :: l) = None.
Proof.
  intros Hc. unfold html_entity.
  change (bs "&lt;") with (38 :: bs "lt;"). change (bs "&gt;") with (38 :: bs "gt;").
  change (bs "&amp;") with (38 :: bs "amp;"). change (bs "&quot;") with (38 :: bs "quot;").
  cbn [strip_prefix]. by destruct (Z.eqb_spec 38 c); [congruence|].
Qed.

Lemma html_decode_escape (fuel : nat) (s : bytes) :
  (length s <= fuel)%nat → html_decode fuel (ngx_escape_html s) = s.
Proof.
  revert fuel. induction s as [|c s IH]; intros fuel Hf; [by destruct fuel|].
  destruct fuel as [|fuel]; [simpl in Hf; lia|]. simpl in Hf. cbn [ngx_escape_html].
  destruct (Z.eqb_spec c 60) as [->|]; [simpl; by rewrite IH by lia|].
  destruct (Z.eqb_spec c 62) as [->|]; [simpl; by rewrite IH by lia|].
  destruct (Z.eqb_spec c 38) as [->|]; [simpl; by rewrite IH by lia|].
  destruct (Z.eqb_spec c 34) as [->|]; [simpl; by rewrite IH by lia|].
  cbn [app html_decode]. by rewrite html_entity_plain, IH by (done || lia).
Qed.

(** The output of [ngx_escape_html] has none of the characters that open or
    close a tag or an attribute, and decoding its entities gives the input back. *)
Theorem ngx_escape_html_safe (s : bytes) :
  Forall (fun c => c ≠ "<"%ch ∧ c ≠ ">"%ch ∧ c ≠ 34) (ngx_escape_html s)
  ∧ html_decode (length s) (ngx_escape_html s) = s.
Proof.
  split; [|by apply html_decode_escape].
  induction s as [|c s IH]; [by apply Forall_nil_2|]. cbn [ngx_escape_html].
  apply Forall_app. split; [|done]. split_ifs; solve_forall ltac:(split_and!; lia).
Qed.

(** ** JSON *)

(** A reference decoder for the body of a JSON string (RFC 8259, section 7):
    it refuses a raw quote and raw control characters.  [\uXXXX] is decoded
    below U+0100 only, which is all that byte-wise escapers produce. *)
Definition json_unescape_char (e : Z) : option Z :=
  if e =? "n"%ch then Some 10
  else if e =? "r"%ch then Some 13
  else if e =? "t"%ch then Some 9
  else if e =? "b"%ch then Some 8
  else if e =? "f"%ch then Some 12
  else if (e =? 92) || (e =? 34) || (e =? "/"%ch) then Some e
  else None.

Definition json_u00 (h1 h2 h3 h4 : Z) : option Z :=
  match hex_val h1, hex_val h2, hex_val h3, hex_val h4 with
  | Some 0, Some 0, Some a, Some b => Some (a * 16 + b)
  | _, _, _, _ => None
  end.

Fixpoint json_body (l : bytes) : option bytes :=
  match l with
  | [] => Some []
  | c :: l1 =>
      if c =? 92 then
        match l1 with
        | [] => None
        | e :: l2 =>
            if e =? "u"%ch then
              match l2 with
              | h1 :: h2 :: h3 :: h4 :: l3 =>
                  match json_u00 h1 h2 h3 h4 with
                  | Some u => cons u <$> json_body l3
                  | None => None
                  end
              | _ => None
              end
            else match json_unescape_char e with
                 | Some u => cons u <$> json_body l2
                 | None => None
                 end
        end
      else if (c =? 34) || (c <? 32) then None
      else cons c <$> json_body l1
  end.

(** What every byte-wise JSON escaper must produce for one byte. *)
Definition json_escapes (c : Z) (e : bytes) : Prop :=
  ∀ l, json_body (e ++ l) = cons c <$> json_body l.

Lemma json_escapes_plain (c : Z) :
  c ≠ 92 → c ≠ 34 → 32 <= c → json_escapes c [c].
Proof.
  intros H1 H2 H3 l. cbn [app json_body].
  destruct (Z.eqb_spec c 92); [done|]. destruct (Z.eqb_spec c 34); [done|].
  by destruct (Z.ltb_spec c 32); [lia|].
Qed.

Lemma json_escapes_short (c e : Z) :
  e ≠ "u"%ch → json_unescape_char e = Some c → json_escapes c [92; e].
Proof.
  intros He H l. cbn [app json_body Z.eqb Pos.eqb].
  destruct (Z.eqb_spec e 117); [done|]. by rewrite H.
Qed.

Lemma json_escapes_u (c h3 h4 : Z) :
  json_u00 48 48 h3 h4 = Some c → json_escapes c [92; "u"%ch; 48; 48; h3; h4].
Proof. intros H l. cbn [app json_body Z.eqb Pos.eqb]. by rewrite H. Qed.

(** The escapes of control characters, whatever the case of the digits. *)
Lemma json_control (c : Z) :
  0 <= c < 32 →
  json_u00 48 48 (48 + Z.shiftr c 4)
    (if Z.land c 15 <? 10 then 48 + Z.land c 15 else 65 + Z.land c 15 - 10) = Some c
  ∧ json_u00 48 48 (hex_digit hex_lower (Z.shiftr c 4)) (hex_digit hex_lower (Z.land c 15))
    = Some c.
Proof.
  intros Hc. by apply (range_check_prop 32 (fun c =>
    json_u00 48 48 (48 + Z.shiftr c 4)
      (if Z.land c 15 <? 10 then 48 + Z.land c 15 else 65 + Z.land c 15 - 10) = Some c
    ∧ json_u00 48 48 (hex_digit hex_lower (Z.shiftr c 4)) (hex_digit hex_lower (Z.land c 15))
      = Some c)).
Qed.

(** [ngx_escape_json] produces a legal JSON string body that decodes to its
    input. *)
Theorem ngx_escape_json_roundtrip (s : bytes) :
  Forall is_byte s → json_body (ngx_escape_json s) = Some s.
Proof.
  intros Hs. induction Hs as [|c s Hc Hs IH]; [done|]. cbn [ngx_escape_json].
  unfold is_byte in Hc.
  match goal with |- json_body (?e ++ _) = _ => assert (He : json_escapes c e) end.
  { destruct (c >? 31) eqn:E1.
    - destruct (Z.eqb_spec c 92) as [->|]; [by apply json_escapes_short|].
      destruct (Z.eqb_spec c 34) as [->|]; [by apply json_escapes_short|].
      apply json_escapes_plain; lia.
    - unfold json_short_escape.
      destruct (Z.eqb_spec c 10) as [->|]; [by apply json_escapes_short|].
      destruct (Z.eqb_spec c 13) as [->|]; [by apply json_escapes_short|].
      destruct (Z.eqb_spec c 9) as [->|]; [by apply json_escapes_short|].
      destruct (Z.eqb_spec c 8) as [->|]; [by apply json_escapes_short|].
      destruct (Z.eqb_spec c 12) as [->|]; [by apply json_escapes_short|].
      apply json_escapes_u, json_control. lia. }
  by rewrite He, IH.
Qed.

Lemma ngx_escape_json_roundtrip_witness :
  json_body (ngx_escape_json [34; 7; 92; 10; 65; 200]) = Some [34; 7; 92; 10; 65; 200].
Proof. apply (ngx_escape_json_roundtrip [34; 7; 92; 10; 65; 200]). solve_bytes. Defined.
