(* ===== verification/NgxCompare.v ===== *)
(** * Comparing, searching, copying and sorting

    The string routines of src/nginx-master/src/core/ngx_string.c and
    ngx_string.h that walk over memory: a pointer is the list of the bytes from
    it to the end of its memory block, and a function that would read past the
    block returns [None].  Results are the C results: the difference of the
    first bytes that differ, or the offset found. *)

From S2P Require Import Prelude.
From stdpp Require Import sorting.

Open Scope Z_scope.

(** ** Case *)

Definition ngx_tolower (c : Z) : Z :=
  u_char (if (c >=? "A"%ch) && (c <=? "Z"%ch) then Z.lor c 32 else c).

(** [(c >= 'A' && c <= 'Z') ? (c | 0x20) : c] on an [ngx_uint_t]. *)
Definition lower (c : Z) : Z :=
  if (c >=? "A"%ch) && (c <=? "Z"%ch) then Z.lor c 32 else c.

(** [(c >= 'a' && c <= 'z') ? c - ('a' - 'A') : c]. *)
Definition upper (c : Z) : Z :=
  if (c >=? "a"%ch) && (c <=? "z"%ch) then c - ("a"%ch - "A"%ch) else c.

Fixpoint ngx_strlow (src : bytes) (n : nat) : option bytes :=
  match n, src with
  | O, _ => Some []
  | S n', c :: src' => cons (ngx_tolower c) <$> ngx_strlow src' n'
  | S _, [] => None
  end.

Fixpoint ngx_strnlen (p : bytes) (n : nat) : option nat :=
  match n, p with
  | O, _ => Some 0%nat
  | S n', c :: p' => if c =? 0 then Some 0%nat else S <$> ngx_strnlen p' n'
  | S _, [] => None
  end.

(** The bytes [ngx_cpystrn] writes, the terminating NUL included. *)
Fixpoint cpystrn_loop (src : bytes) (n : nat) : option bytes :=
  match n, src with
  | O, _ => Some [0]
  | S n', c :: src' => if c =? 0 then Some [0] else cons c <$> cpystrn_loop src' n'
  | S _, [] => None
  end.

Definition ngx_cpystrn (src : bytes) (n : nat) : option bytes :=
  match n with
  | O => Some []
  | S n' => cpystrn_loop src n'
  end.

(** ** Comparisons *)

Fixpoint ngx_strcasecmp (s1 s2 : bytes) : option Z :=
  match s1, s2 with
  | x :: s1', y :: s2' =>
      let c1 := lower x in
      let c2 := lower y in
      if c1 =? c2 then
        if negb (c1 =? 0) then ngx_strcasecmp s1' s2' else Some 0
      else Some (c1 - c2)
  | _, _ => None
  end.

Fixpoint ngx_strncasecmp (s1 s2 : bytes) (n : nat) {struct n} : option Z :=
  match n with
  | O => Some 0
  | S n' =>
      match s1, s2 with
      | x :: s1', y :: s2' =>
          let c1 := lower x in
          let c2 := lower y in
          if c1 =? c2 then
            if negb (c1 =? 0) then ngx_strncasecmp s1' s2' n' else Some 0
          else Some (c1 - c2)
      | _, _ => None
      end
  end.

(** [strncmp] and [memcmp] of the C library, on bytes. *)
Fixpoint strncmp (s1 s2 : bytes) (n : nat) {struct n} : option Z :=
  match n with
  | O => Some 0
  | S n' =>
      match s1, s2 with
      | x :: s1', y :: s2' =>
          if x =? y then if x =? 0 then Some 0 else strncmp s1' s2' n'
          else Some (x - y)
      | _, _ => None
      end
  end.

Fixpoint memcmp (s1 s2 : bytes) (n : nat) {struct n} : option Z :=
  match n with
  | O => Some 0
  | S n' =>
      match s1, s2 with
      | x :: s1', y :: s2' => if x =? y then memcmp s1' s2' n' else Some (x - y)
      | _, _ => None
      end
  end.

(** Backwards, from the last of [n] bytes. *)
Fixpoint ngx_rstrncmp (s1 s2 : bytes) (n : nat) {struct n} : option Z :=
  match n with
  | O => Some 0
  | S n' =>
      match s1 !! n', s2 !! n' with
      | Some x, Some y => if negb (x =? y) then Some (x - y) else ngx_rstrncmp s1 s2 n'
      | _, _ => None
      end
  end.

Fixpoint ngx_rstrncasecmp (s1 s2 : bytes) (n : nat) {struct n} : option Z :=
  match n with
  | O => Some 0
  | S n' =>
      match s1 !! n', s2 !! n' with
      | Some x, Some y =>
          let c1 := upper x in
          let c2 := upper y in
          if negb (c1 =? c2) then Some (c1 - c2) else ngx_rstrncasecmp s1 s2 n'
      | _, _ => None
      end
  end.

Definition ngx_memn2cmp (s1 s2 : bytes) (n1 n2 : nat) : option Z :=
  let '(n, z) := if (n1 <=? n2)%nat then (n1, -1) else (n2, 1) in
  match memcmp s1 s2 n with
  | None => None
  | Some m => if negb (m =? 0) || (n1 =? n2)%nat then Some m else Some z
  end.

Fixpoint ngx_dns_strcmp (s1 s2 : bytes) : option Z :=
  match s1, s2 with
  | x :: s1', y :: s2' =>
      let c1 := lower x in
      let c2 := lower y in
      if c1 =? c2 then
        if negb (c1 =? 0) then ngx_dns_strcmp s1' s2' else Some 0
      else
        let c1 := if c1 =? "."%ch then " "%ch else c1 in
        let c2 := if c2 =? "."%ch then " "%ch else c2 in
        Some (c1 - c2)
  | _, _ => None
  end.

Fixpoint ngx_filename_cmp (s1 s2 : bytes) (n : nat) {struct n} : option Z :=
  match n with
  | O => Some 0
  | S n' =>
      match s1, s2 with
      | c1 :: s1', c2 :: s2' =>
          if c1 =? c2 then
            if negb (c1 =? 0) then ngx_filename_cmp s1' s2' n' else Some 0
          else if (c1 =? 0) || (c2 =? 0) then Some (c1 - c2)
          else
            let c1 := if c1 =? "/"%ch then 0 else c1 in
            let c2 := if c2 =? "/"%ch then 0 else c2 in
            Some (c1 - c2)
      | _, _ => None
      end
  end.

(** ** Searches; the result is the offset of the match from [s1] *)

Fixpoint ngx_strlchr (p : bytes) (n : nat) (c : Z) : option (option nat) :=
  match n, p with
  | O, _ => Some None
  | S n', x :: p' => if x =? c then Some (Some 0%nat) else option_map (option_map S) (ngx_strlchr p' n' c)
  | S _, [] => None
  end.

(** [len] bytes of [s1]; [s2] is [c2] followed by [n = strlen(s2)] bytes. *)
Fixpoint strnstr_loop (s1 : bytes) (len : nat) (c2 : Z) (s2 : bytes) (n : nat)
    : option (option nat) :=
  match len with
  | O => Some None
  | S len' =>
      match s1 with
      | [] => None
      | c1 :: s1' =>
          if c1 =? 0 then Some None
          else if negb (c1 =? c2) then option_map (option_map S) (strnstr_loop s1' len' c2 s2 n)
          else if (len' <? n)%nat then Some None
          else match strncmp s1' s2 n with
               | None => None
               | Some r =>
                   if negb (r =? 0)
                   then option_map (option_map S) (strnstr_loop s1' len' c2 s2 n)
                   else Some (Some 0%nat)
               end
      end
  end.

(** [ngx_strstrn]: [s1] is NUL-terminated, [n] is the length of [s2] less one. *)
Fixpoint strstrn_loop (s1 : bytes) (c2 : Z) (s2 : bytes) (n : nat) : option (option nat) :=
  match s1 with
  | [] => None
  | c1 :: s1' =>
      if c1 =? 0 then Some None
      else if negb (c1 =? c2) then option_map (option_map S) (strstrn_loop s1' c2 s2 n)
      else match strncmp s1' s2 n with
           | None => None
           | Some r =>
               if negb (r =? 0) then option_map (option_map S) (strstrn_loop s1' c2 s2 n)
               else Some (Some 0%nat)
           end
  end.

Fixpoint strcasestrn_loop (s1 : bytes) (c2 : Z) (s2 : bytes) (n : nat) : option (option nat) :=
  match s1 with
  | [] => None
  | c1 :: s1' =>
      if c1 =? 0 then Some None
      else if negb (lower c1 =? c2) then option_map (option_map S) (strcasestrn_loop s1' c2 s2 n)
      else match ngx_strncasecmp s1' s2 n with
           | None => None
           | Some r =>
               if negb (r =? 0) then option_map (option_map S) (strcasestrn_loop s1' c2 s2 n)
               else Some (Some 0%nat)
           end
  end.

Definition ngx_strnstr (s1 s2 : bytes) (len : nat) : option (option nat) :=
  match s2 with
  | [] => None
  | c2 :: s2' => strnstr_loop s1 len c2 s2' (length s2')
  end.

Definition ngx_strstrn (s1 s2 : bytes) (n : nat) : option (option nat) :=
  match s2 with [] => None | c2 :: s2' => strstrn_loop s1 c2 s2' n end.

Definition ngx_strcasestrn (s1 s2 : bytes) (n : nat) : option (option nat) :=
  match s2 with [] => None | c2 :: s2' => strcasestrn_loop s1 (lower c2) s2' n end.

(** [k] is [last - n - s1]: [ngx_strlcasestrn] subtracts [n] from [last]. *)
Fixpoint strlcasestrn_loop (s1 : bytes) (k : nat) (c2 : Z) (s2 : bytes) (n : nat)
    : option (option nat) :=
  match k with
  | O => Some None
  | S k' =>
      match s1 with
      | [] => None
      | c1 :: s1' =>
          if negb (lower c1 =? c2)
          then option_map (option_map S) (strlcasestrn_loop s1' k' c2 s2 n)
          else match ngx_strncasecmp s1' s2 n with
               | None => None
               | Some r =>
                   if negb (r =? 0)
                   then option_map (option_map S) (strlcasestrn_loop s1' k' c2 s2 n)
                   else Some (Some 0%nat)
               end
      end
  end.

Definition ngx_strlcasestrn (s1 : bytes) (last : nat) (s2 : bytes) (n : nat)
    : option (option nat) :=
  match s2 with
  | [] => None
  | c2 :: s2' => strlcasestrn_loop s1 (last - n) (lower c2) s2' n
  end.

(** ** ngx_sort: insertion sort

    [sorted] is [base .. p1) reversed; the inner loop moves the elements that
    compare greater than [p] one place up and stops at the first that does
    not.  The failure of [ngx_alloc] leaves the array as it is. *)

Section Sort.
Context {A : Type}.
Variable cmp : A → A → Z.

Fixpoint sort_insert (p : A) (sorted : list A) : list A :=
  match sorted with
  | [] => [p]
  | q :: sorted' => if cmp q p >? 0 then q :: sort_insert p sorted' else p :: q :: sorted'
  end.

Fixpoint sort_loop (sorted : list A) (rest : list A) : list A :=
  match rest with
  | [] => reverse sorted
  | p :: rest' => sort_loop (sort_insert p sorted) rest'
  end.

Definition ngx_sort (alloc : bool) (base : list A) : list A :=
  if alloc then
    match base with
    | [] => []
    | x :: rest => sort_loop [x] rest
    end
  else base.

End Sort.

(** * Theorems *)

(** ** Case-insensitive equality *)

Definition ci_eq (a b : bytes) : Prop := map lower a = map lower b.

#[export] Instance ci_eq_dec (a b : bytes) : Decision (ci_eq a b).
Proof. unfold ci_eq. apply _. Defined.

(** Without a NUL in the pattern, [ngx_strncasecmp] of two strings of [n]
    bytes is 0 exactly when they are equal up to case. *)
Lemma strncasecmp_zero (a b x y : bytes) (n : nat) :
  length a = n → length b = n → Forall (fun c => lower c ≠ 0) b →
  ngx_strncasecmp (a ++ x) (b ++ y) n = Some 0 ↔ ci_eq a b.
Proof.
  revert a b. induction n as [|n IH]; intros a b Ha Hb Hz.
  - apply nil_length_inv in Ha, Hb. subst. unfold ci_eq. done.
  - destruct a as [|c a], b as [|d b]; try done. simpl. injection Ha as Ha.
    injection Hb as Hb. inv Hz.
    unfold ci_eq in *. simpl. destruct (Z.eqb_spec (lower c) (lower d)) as [E|E].
    + rewrite E. destruct (Z.eqb_spec (lower d) 0); [done|]. simpl.
      rewrite IH by done. split; [intros ->; done|intros [= ?]; done].
    + split; [intros [= ?]; lia|intros [= ??]; done].
Qed.

Lemma strncasecmp_total (s1 s2 : bytes) (n : nat) :
  (n <= length s1)%nat → (n <= length s2)%nat → is_Some (ngx_strncasecmp s1 s2 n).
Proof.
  revert s1 s2. induction n as [|n IH]; intros s1 s2 H1 H2; [by eexists|].
  destruct s1, s2; simpl in *; try lia. split_ifs; try by eexists.
  apply IH; lia.
Qed.

(** ** Sorting *)

Section SortTheorems.
Context {A : Type} (cmp : A → A → Z).

Lemma sort_insert_perm (p : A) (l : list A) : sort_insert cmp p l ≡ₚ p :: l.
Proof.
  induction l as [|q l IH]; [done|]. simpl. destruct (_ >? 0); [|done].
  rewrite IH. by constructor.
Qed.

Lemma sort_loop_perm (sorted rest : list A) :
  sort_loop cmp sorted rest ≡ₚ sorted ++ rest.
Proof.
  revert sorted. induction rest as [|p rest IH]; intros sorted; simpl.
  - by rewrite app_nil_r, reverse_Permutation.
  - rewrite IH, sort_insert_perm. simpl. by rewrite Permutation_middle.
Qed.

Context (cmp_total : ∀ x y, cmp x y >= 0 → cmp y x <= 0)
        (cmp_trans : ∀ x y z, cmp x y <= 0 → cmp y z <= 0 → cmp x z <= 0).

(** [p] may follow [q] in the sorted array. *)
Definition after (p q : A) : Prop := cmp q p <= 0.

Lemma sort_insert_sorted (p : A) (l : list A) :
  StronglySorted after l → StronglySorted after (sort_insert cmp p l).
Proof.
  induction 1 as [|q l Hl IH Hq]; simpl; [by repeat constructor|].
  destruct (cmp q p >? 0) eqn:E.
  - constructor; [done|]. rewrite sort_insert_perm. constructor; [|done].
    unfold after. apply cmp_total. lia.
  - constructor; [by constructor|]. constructor; [unfold after; lia|].
    eapply Forall_impl; [exact Hq|]. intros r Hr. unfold after in *.
    eapply cmp_trans; [exact Hr|lia].
Qed.

Lemma sorted_reverse (l : list A) :
  StronglySorted after l → StronglySorted (fun x y => cmp x y <= 0) (reverse l).
Proof.
  induction 1 as [|q l Hl IH Hq]; [constructor|].
  rewrite reverse_cons. apply StronglySorted_app. split_and!.
  - intros x y Hx ->%list_elem_of_singleton. rewrite Forall_forall in Hq.
    apply Hq. by rewrite <- elem_of_reverse.
  - done.
  - by repeat constructor.
Qed.

Lemma sort_loop_sorted (sorted rest : list A) :
  StronglySorted after sorted →
  StronglySorted (fun x y => cmp x y <= 0) (sort_loop cmp sorted rest).
Proof.
  revert sorted. induction rest as [|p rest IH]; intros sorted Hs; simpl.
  - by apply sorted_reverse.
  - by apply IH, sort_insert_sorted.
Qed.

(** The elements that compare equal to [x], in their order. *)
Definition equals_of (x : A) (l : list A) : list A := filter (fun y => cmp x y = 0) l.

Lemma sort_insert_stable (x p : A) (l : list A) :
  equals_of x (sort_insert cmp p l) = equals_of x (p :: l).
Proof.
  unfold equals_of. induction l as [|q l IH]; [done|]. cbn [sort_insert].
  destruct (cmp q p >? 0) eqn:E; [|done].
  rewrite filter_cons, IH, !filter_cons.
  destruct (decide (cmp x q = 0)) as [Hq|Hq], (decide (cmp x p = 0)) as [Hp|Hp]; try done.
  assert (cmp q p <= 0); [|lia]. apply cmp_trans with x; [|lia]. apply cmp_total. lia.
Qed.

Lemma sort_loop_stable (x : A) (sorted rest : list A) :
  equals_of x (sort_loop cmp sorted rest) = equals_of x (reverse sorted ++ rest).
Proof.
  revert sorted. induction rest as [|p rest IH]; intros sorted; simpl.
  - by rewrite app_nil_r.
  - rewrite IH. unfold equals_of. rewrite !filter_app, !filter_reverse.
    fold (equals_of x (sort_insert cmp p sorted)). rewrite sort_insert_stable.
    unfold equals_of. rewrite !filter_cons.
    destruct (decide _); [|done]. by rewrite reverse_cons, <- app_assoc.
Qed.

(** [ngx_sort] sorts in place: the array is a permutation of what it was, in
    the order of [cmp], and elements that compare equal keep their order (the
    configuration code sorts locations and wildcard names with it and relies on all
    three). When the temporary element cannot be allocated the array is left as it
    was. *)
Theorem ngx_sort_correct (base : list A) :
  ngx_sort cmp true base ≡ₚ base
  ∧ StronglySorted (fun x y => cmp x y <= 0) (ngx_sort cmp true base)
  ∧ (∀ x, equals_of x (ngx_sort cmp true base) = equals_of x base)
  ∧ ngx_sort cmp false base = base.
Proof.
  destruct base as [|x rest]; simpl; [by repeat constructor|].
  split; [by rewrite sort_loop_perm|]. split; [by apply sort_loop_sorted; repeat constructor|].
  split; [|done]. intros y. by rewrite sort_loop_stable.
Qed.

End SortTheorems.

Lemma ngx_sort_correct_witness :
  ngx_sort (fun x y => fst x - fst y) true [(2, 0); (1, 1); (2, 2); (1, 3)]
    ≡ₚ [(2, 0); (1, 1); (2, 2); (1, 3)]
  ∧ ngx_sort (fun x y : Z * Z => fst x - fst y) true [(2, 0); (1, 1); (2, 2); (1, 3)]
    = [(1, 1); (1, 3); (2, 0); (2, 2)].
Proof.
  split; [|reflexivity].
  apply (ngx_sort_correct (fun x y => fst x - fst y)); intros; lia.
Defined.
