(* ===== verification/NgxTime.v ===== *)
(** * Dates

    The two directions of the dates of HTTP: [ngx_gmtime], [ngx_http_time] and
    [ngx_http_cookie_time] of src/nginx-master/src/core/ngx_times.c, and
    [ngx_parse_http_time] of src/nginx-master/src/core/ngx_parse_time.c.  They are
    written with two different formulas for the calendar; that one inverts the other
    is the theorem of this file.

    A pointer into the date is the list of the bytes from it to the end of the value.
    A computation reads past the end ([over_read]), returns [NGX_ERROR] ([bad]) or goes
    on with a value. *)

From S2P Require Import Prelude NgxNumber.

Open Scope Z_scope.

Module HttpTime.

Inductive got (A : Type) : Type := over_read | bad | val (x : A).
Arguments over_read {A}.
Arguments bad {A}.
Arguments val {A} x.

#[export] Instance got_bind : MBind got := fun A B f m =>
  match m with over_read => over_read | bad => bad | val x => f x end.

(** ** Reading *)

(** [*(p + k)] *)
Definition at_ (p : bytes) (k : nat) : got Z :=
  match p !! k with Some c => val c | None => over_read end.

Definition guard_ (b : bool) : got unit := if b then val tt else bad.

Definition digit (c : Z) : bool := negb ((c <? "0"%ch) || (c >? "9"%ch)).

(** [n] digits: the tests stop at the first byte that is none. *)
Fixpoint digits (n : nat) (acc : Z) (p : bytes) : got Z :=
  match n with
  | O => val acc
  | S n =>
      match p with
      | [] => over_read
      | c :: p => if digit c then digits n (acc * 10 + (c - "0"%ch)) p else bad
      end
  end.

(** The loop to the first comma or space; whether it is a space. *)
Fixpoint find_sep (p : bytes) : bool * bytes :=
  match p with
  | [] => (false, [])
  | c :: p' => if c =? ","%ch then (false, p) else if c =? " "%ch then (true, p) else find_sep p'
  end.

Fixpoint skip_spaces (p : bytes) : bytes :=
  match p with
  | [] => []
  | c :: p' => if negb (c =? " "%ch) then p else skip_spaces p'
  end.

Inductive format := rfc822 | rfc850 | isoc.

Definition month_of (p : bytes) : got Z :=
  c ← at_ p 0;
  if c =? "J"%ch then
    a ← at_ p 1;
    if a =? "a"%ch then val 0 else b ← at_ p 2; val (if b =? "n"%ch then 5 else 6)
  else if c =? "F"%ch then val 1
  else if c =? "M"%ch then b ← at_ p 2; val (if b =? "r"%ch then 2 else 4)
  else if c =? "A"%ch then a ← at_ p 1; val (if a =? "p"%ch then 3 else 7)
  else if c =? "S"%ch then val 8
  else if c =? "O"%ch then val 9
  else if c =? "N"%ch then val 10
  else if c =? "D"%ch then val 11
  else bad.

Definition mday : list Z := [31; 28; 31; 30; 31; 30; 31; 31; 30; 31; 30; 31].

(** The day of a date that is not in asctime format, and its format. *)
Definition read_day (p : bytes) : got (Z * format * bytes) :=
  day ← digits 2 0 p;
  let p := drop 2 p in
  c ← at_ p 0;
  if c =? " "%ch then if (length p <? 18)%nat then bad else val (day, rfc822, drop 1 p)
  else if c =? "-"%ch then val (day, rfc850, drop 1 p)
  else bad.

(** The day in asctime format: one digit or two. *)
Definition read_asctime_day (p : bytes) : got (Z * bytes) :=
  c ← at_ p 0;
  let p := if c =? " "%ch then drop 1 p else p in
  day ← digits 1 0 p;
  let p := drop 1 p in
  c ← at_ p 0;
  if negb (c =? " "%ch) then day ← digits 1 day p; val (day, drop 1 p) else val (day, p).

(** [*p++ != c] *)
Definition expect (c : Z) (p : bytes) : got bytes :=
  d ← at_ p 0; if negb (d =? c) then bad else val (drop 1 p).

Definition time_of_day (p : bytes) : got (Z * Z * Z * bytes) :=
  hour ← digits 2 0 p; p ← expect ":"%ch (drop 2 p);
  min ← digits 2 0 p; p ← expect ":"%ch (drop 2 p);
  sec ← digits 2 0 p; val (hour, min, sec, p).

(** Gauss' formula; [month] is 0 for January.  [year] is unsigned, and so is the sum. *)
Definition gauss_days (year month day : Z) : Z :=
  let '(month, year) := if month - 1 <=? 0 then (month - 1 + 12, wrap_u 64 (year - 1)) else (month - 1, year) in
  365 * year + year / 4 - year / 100 + year / 400 + 367 * month / 12 - 30 + day - 1 - 719527 + 31 + 28.

Definition check_date (year month day hour min sec : Z) : bool :=
  if (hour >? 23) || (min >? 59) || (sec >? 59) then false
  else if (day =? 29) && (month =? 1)
  then negb (negb (Z.land year 3 =? 0) || (year mod 100 =? 0) && negb (year mod 400 =? 0))
  else negb (day >? mday !!! Z.to_nat month).

(** The year and the day, in the order in which the format has them. *)
Definition read_year_day (f : format) (day : Z) (p : bytes) : got (Z * Z * bytes) :=
  match f with
  | rfc822 => year ← digits 4 0 p; val (year, day, drop 4 p)
  | rfc850 =>
      year ← digits 2 0 p; val (year + (if year <? 70 then 2000 else 1900), day, drop 2 p)
  | isoc =>
      '(day, p) ← read_asctime_day p;
      if (length p <? 14)%nat then bad else val (0, day, p)
  end.

Definition parse_http_time (value : bytes) : got Z :=
  let '(sp, p) := find_sep value in
  let p := skip_spaces (drop 1 p) in
  if (length p <? 18)%nat then bad
  else
    '(day, f, p) ← (if sp then val (0, isoc, p) else read_day p);
    month ← month_of p;
    let p := drop 3 p in
    p ← match f with
        | rfc822 => expect " "%ch p
        | rfc850 => expect "-"%ch p
        | isoc => val (drop 1 p)
        end;
    '(year, day, p) ← read_year_day f day p;
    p ← expect " "%ch p;
    '(hour, min, sec, p) ← time_of_day p;
    year ← match f with isoc => p ← expect " "%ch (drop 2 p); digits 4 0 p | _ => val year end;
    if check_date year month day hour min sec
    then val (wrap_s 64 (gauss_days year month day * 86400 + hour * 3600 + min * 60 + sec))
    else bad.

(** [None]: a byte past the end of the value is read. *)
Definition ngx_parse_http_time (value : bytes) : option Z :=
  match parse_http_time value with over_read => None | bad => Some NGX_ERROR | val t => Some t end.

(** ** Printing *)

Record tm := mk_tm {
  tm_sec : Z; tm_min : Z; tm_hour : Z; tm_mday : Z; tm_mon : Z; tm_year : Z; tm_wday : Z
}.

(** No value leaves the range of its type: [days] is at most 2932896 and the
    difference [yday] is signed. *)
Definition ngx_gmtime (t : Z) : tm :=
  let t := if t <? 0 then 0 else t in
  let '(days, sec) := if t / 86400 >? 2932896 then (2932896, 86399) else (t / 86400, t mod 86400) in
  let wday := (4 + days) mod 7 in
  let hour := sec / 3600 in
  let sec := sec mod 3600 in
  let min := sec / 60 in
  let sec := sec mod 60 in
  let days := days - (31 + 28) + 719527 in
  let year := (days + 2) * 400 / (365 * 400 + 100 - 4 + 1) in
  let yday := days - (365 * year + year / 4 - year / 100 + year / 400) in
  let leap := if (year mod 4 =? 0) && (negb (year mod 100 =? 0) || (year mod 400 =? 0)) then 1 else 0 in
  let '(yday, year) := if yday <? 0 then (365 + leap + yday, year - 1) else (yday, year) in
  let mon := (yday + 31) * 10 / 306 in
  let mday := yday - (367 * mon / 12 - 30) + 1 in
  let '(year, mon) := if yday >=? 306 then (year + 1, mon - 10) else (year, mon + 2) in
  mk_tm sec min hour mday mon year wday.

Definition week : list bytes :=
  [bs "Sun"; bs "Mon"; bs "Tue"; bs "Wed"; bs "Thu"; bs "Fri"; bs "Sat"].

Definition months : list bytes :=
  [bs "Jan"; bs "Feb"; bs "Mar"; bs "Apr"; bs "May"; bs "Jun";
   bs "Jul"; bs "Aug"; bs "Sep"; bs "Oct"; bs "Nov"; bs "Dec"].

(** The directives [%02d], [%4d] and [%d] for a number that is not negative;
    [ngx_sprintf] sets no limit. *)
Definition d02 (n : Z) : bytes := ngx_sprintf_num NGX_MAX_INT_T_VALUE n "0"%ch 0 2.
Definition d4 (n : Z) : bytes := ngx_sprintf_num NGX_MAX_INT_T_VALUE n " "%ch 0 4.
Definition d (n : Z) : bytes := ngx_sprintf_num NGX_MAX_INT_T_VALUE n " "%ch 0 0.

Definition ngx_http_time (t : Z) : bytes :=
  let tm := ngx_gmtime t in
  week !!! Z.to_nat (tm_wday tm) ++ bs ", " ++ d02 (tm_mday tm) ++ bs " "
  ++ months !!! Z.to_nat (tm_mon tm - 1) ++ bs " " ++ d4 (tm_year tm) ++ bs " "
  ++ d02 (tm_hour tm) ++ bs ":" ++ d02 (tm_min tm) ++ bs ":" ++ d02 (tm_sec tm) ++ bs " GMT".

Definition ngx_http_cookie_time (t : Z) : bytes :=
  let tm := ngx_gmtime t in
  week !!! Z.to_nat (tm_wday tm) ++ bs ", " ++ d02 (tm_mday tm) ++ bs "-"
  ++ months !!! Z.to_nat (tm_mon tm - 1) ++ bs "-"
  ++ (if tm_year tm >? 2037 then d (tm_year tm) else d02 (tm_year tm mod 100)) ++ bs " "
  ++ d02 (tm_hour tm) ++ bs ":" ++ d02 (tm_min tm) ++ bs ":" ++ d02 (tm_sec tm) ++ bs " GMT".

Example http_time_rfc1123 : ngx_http_time 784111777 = bs "Sun, 06 Nov 1994 08:49:37 GMT".
Proof. vm_compute. reflexivity. Qed.

Example http_time_rfc850 : ngx_parse_http_time (bs "Sunday, 06-Nov-94 08:49:37 GMT") = Some 784111777.
Proof. vm_compute. reflexivity. Qed.

Example http_time_asctime : ngx_parse_http_time (bs "Sun Nov  6 08:49:37 1994") = Some 784111777.
Proof. vm_compute. reflexivity. Qed.

(** * Theorems *)

(** ** No byte outside the value is read *)

Definition safe {A : Type} (Q : A → Prop) (m : got A) : Prop :=
  match m with over_read => False | bad => True | val x => Q x end.

Lemma safe_bind {A B : Type} (Q : A → Prop) (R : B → Prop) (m : got A) (f : A → got B) :
  safe Q m → (∀ x, Q x → safe R (f x)) → safe R (m ≫= f).
Proof. destruct m; cbn; auto. Qed.

Lemma safe_at (p : bytes) (k : nat) : (k < length p)%nat → safe (fun _ => True) (at_ p k).
Proof. intros H. unfold at_. by destruct (lookup_lt_is_Some_2 p k H) as [c ->]. Qed.

Lemma safe_digits (n : nat) (acc : Z) (p : bytes) :
  (n <= length p)%nat → safe (fun _ => True) (digits n acc p).
Proof.
  revert acc p. induction n as [|n IH]; intros acc [|c p] H; cbn in *; try done; [lia|].
  destruct (digit c); [|done]. apply IH. lia.
Qed.

Lemma safe_expect (c : Z) (p : bytes) :
  (0 < length p)%nat → safe (fun q => length q = (length p - 1)%nat) (expect c p).
Proof.
  intros H. eapply safe_bind; [by apply safe_at|]. intros d _. destruct (negb _); [done|].
  cbn. apply length_drop.
Qed.

Lemma safe_month_of (p : bytes) : (3 <= length p)%nat → safe (fun _ => True) (month_of p).
Proof.
  intros H. eapply safe_bind; [apply safe_at; lia|]. intros c _.
  repeat match goal with
  | |- safe _ (if ?b then _ else _) => destruct b
  | |- safe _ (at_ p _ ≫= _) => eapply safe_bind; [apply safe_at; lia|]; intros ? _
  | |- safe _ (val _) => exact I
  | |- safe _ bad => exact I
  end.
Qed.

Lemma safe_read_day (p : bytes) :
  (18 <= length p)%nat →
  safe (fun '(_, f, q) => match f with
          | rfc822 => (17 <= length q)%nat | rfc850 => (15 <= length q)%nat | isoc => False end)
    (read_day p).
Proof.
  intros H. eapply safe_bind; [apply safe_digits; lia|]. intros day _.
  eapply safe_bind; [apply safe_at; rewrite length_drop; lia|]. intros c _.
  destruct (c =? _).
  - destruct (Nat.ltb_spec (length (drop 2 p)) 18); [done|]. cbn. rewrite !length_drop in *. lia.
  - destruct (c =? _); [|done]. cbn. rewrite !length_drop. lia.
Qed.

Lemma safe_read_asctime_day (p : bytes) :
  (4 <= length p)%nat → safe (fun _ => True) (read_asctime_day p).
Proof.
  intros H. eapply safe_bind; [apply safe_at; lia|]. intros c _.
  set (q := if c =? _ then drop 1 p else p).
  assert ((3 <= length q)%nat) by (unfold q; destruct (c =? _); rewrite ?length_drop; lia).
  eapply safe_bind; [apply safe_digits; lia|]. intros day _.
  eapply safe_bind; [apply safe_at; rewrite length_drop; lia|]. intros c' _.
  destruct (negb _); [|done]. eapply safe_bind; [apply safe_digits; rewrite length_drop; lia|]. done.
Qed.

Lemma safe_time_of_day (p : bytes) :
  (8 <= length p)%nat → safe (fun '(_, q) => length q = (length p - 6)%nat) (time_of_day p).
Proof.
  intros H. do 2 (eapply safe_bind; [apply safe_digits; lia|]; intros ? _;
    eapply safe_bind; [apply safe_expect; rewrite ?length_drop; lia|]; let Hq := fresh "Hq" in intros ? Hq; rewrite length_drop in Hq).
  eapply safe_bind; [apply safe_digits; lia|]. intros sec _. cbn. lia.
Qed.

Lemma safe_read_year_day (f : format) (day : Z) (p : bytes) :
  match f with rfc822 => (13 <= length p)%nat | rfc850 => (11 <= length p)%nat | isoc => (4 <= length p)%nat end →
  safe (fun '(_, q) => (match f with isoc => 14 | _ => 9 end <= length q)%nat) (read_year_day f day p).
Proof.
  intros H. destruct f; cbn [read_year_day].
  - eapply safe_bind; [apply safe_digits; lia|]. intros ? _. cbn. rewrite length_drop. lia.
  - eapply safe_bind; [apply safe_digits; lia|]. intros ? _. cbn. rewrite length_drop. lia.
  - eapply safe_bind; [by apply safe_read_asctime_day|]. intros [day' q] _.
    destruct (Nat.ltb_spec (length q) 14); [done|]. cbn. lia.
Qed.

Lemma parse_http_time_safe (value : bytes) : safe (fun _ => True) (parse_http_time value).
Proof.
  unfold parse_http_time. destruct (find_sep value) as [sp p0]. set (p := skip_spaces _).
  destruct (Nat.ltb_spec (length p) 18); [done|].
  eapply (safe_bind (fun '(_, f, q) => match f with
    | rfc822 => (17 <= length q)%nat | rfc850 => (15 <= length q)%nat | isoc => (18 <= length q)%nat end)).
  { destruct sp; [done|]. pose proof (safe_read_day p ltac:(lia)) as Hd.
    destruct (read_day p) as [| |[[day f] q]]; try done. by destruct f. }
  intros [[day f] q] Hq. assert ((15 <= length q)%nat) by (destruct f; lia).
  eapply safe_bind; [apply safe_month_of; lia|]. intros month _.
  eapply (safe_bind (fun r => length r = (length q - 4)%nat)).
  { destruct f; [..|cbn; rewrite !length_drop; lia].
    all: match goal with |- safe _ (expect ?c ?r) => pose proof (safe_expect c r) as He end.
    all: rewrite length_drop in He; specialize (He ltac:(lia)); destruct (expect _ _); cbn in *; try done; lia. }
  intros r Hr. eapply safe_bind; [apply safe_read_year_day; destruct f; lia|].
  intros [[year day'] u] Hu. assert ((9 <= length u)%nat) by (destruct f; lia).
  eapply safe_bind; [apply safe_expect; lia|]. intros v Hv. cbv beta in Hv.
  eapply safe_bind; [apply safe_time_of_day; lia|]. intros [[[hour min] sec] w] Hw.
  eapply (safe_bind (fun _ => True)).
  { destruct f; try done. eapply safe_bind; [apply safe_expect; rewrite length_drop; lia|].
    intros x Hx. apply safe_digits. rewrite length_drop in Hx. lia. }
  intros year' _. by destruct (check_date _ _ _ _ _ _).
Qed.

(** The parser reads only bytes of the value, whatever they are. *)
Theorem parse_http_time_reads (value : bytes) : is_Some (ngx_parse_http_time value).
Proof.
  unfold ngx_parse_http_time. pose proof (parse_http_time_safe value) as H.
  destruct (parse_http_time value); [done|by eexists..].
Qed.

(** ** The calendar *)

Definition leap (y : Z) : bool := (y mod 4 =? 0) && (negb (y mod 100 =? 0) || (y mod 400 =? 0)).

(** The days before March 1 of a year. *)
Definition days_before (y : Z) : Z := 365 * y + y / 4 - y / 100 + y / 400.

Lemma leap_period (q r : Z) : leap (400 * q + r) = leap r.
Proof.
  unfold leap. replace (400 * q + r) with (r + (100 * q) * 4) at 1 by lia.
  replace (400 * q + r) with (r + (4 * q) * 100) at 1 by lia.
  replace (400 * q + r) with (r + q * 400) at 1 by lia. by rewrite !Z.mod_add by lia.
Qed.

Lemma days_before_period (q r : Z) : days_before (400 * q + r) = 146097 * q + days_before r.
Proof. unfold days_before. Z.to_euclidean_division_equations. lia. Qed.

Lemma days_before_pred (y : Z) : days_before (y - 1) = days_before y - 365 - (if leap y then 1 else 0).
Proof.
  unfold days_before, leap. destruct (Z.eqb_spec (y mod 4) 0), (Z.eqb_spec (y mod 100) 0), (Z.eqb_spec (y mod 400) 0);
    cbn [negb andb orb]; Z.to_euclidean_division_equations; lia.
Qed.

(** The year that [ngx_gmtime] computes first is right, or one too high in the last two
    days of February. *)
Lemma year_bounds (days : Z) :
  let year := (days + 2) * 400 / 146097 in
  -2 <= days - days_before year <= 364 + (if leap (year + 1) then 1 else 0).
Proof.
  intros year. assert (Hy : 146097 * year <= (days + 2) * 400 < 146097 * (year + 1))
    by (unfold year; Z.to_euclidean_division_equations; lia).
  clearbody year. pose proof (Z.div_mod year 400 ltac:(lia)) as Hq.
  pose proof (Z.mod_pos_bound year 400 ltac:(lia)) as Hr.
  set (q := year / 400) in *. set (r := year mod 400) in *. clearbody q r. subst year.
  replace (400 * q + r + 1) with (400 * q + (r + 1)) by lia.
  rewrite days_before_period, leap_period.
  assert (Hc : range_check 400 (fun r =>
    (-2 <=? (146097 * r + 399) / 400 - 2 - days_before r)
    && ((146097 * (r + 1) - 1) / 400 - 2 - days_before r <=? 364 + (if leap (r + 1) then 1 else 0))) = true)
    by (vm_compute; reflexivity).
  apply (range_check_spec _ _ r) in Hc; [|lia]. apply andb_true_iff in Hc as [H1 H2].
  apply Z.leb_le in H1, H2.
  assert (H3 : (146097 * r + 399) / 400 <= days - 146097 * q + 2)
    by (apply Z.lt_succ_r, Z.div_lt_upper_bound; lia).
  assert (H4 : days - 146097 * q + 2 <= (146097 * (r + 1) - 1) / 400)
    by (apply Z.div_le_lower_bound; lia).
  lia.
Qed.

(** A day of the year that begins in March, its month and its day. *)
Definition mon_of (yday : Z) : Z := (yday + 31) * 10 / 306.
Definition day_of (yday : Z) : Z := yday - (367 * mon_of yday / 12 - 30) + 1.

Lemma month_day (yday : Z) :
  0 <= yday <= 365 →
  1 <= day_of yday
  ∧ (306 <= yday → 11 <= mon_of yday <= 12
     ∧ (day_of yday <= mday !!! Z.to_nat (mon_of yday - 11) ∧ yday < 365
        ∨ yday = 365 ∧ mon_of yday = 12 ∧ day_of yday = 29))
  ∧ (yday < 306 → 1 <= mon_of yday <= 10 ∧ day_of yday <= mday !!! Z.to_nat (mon_of yday + 1)).
Proof.
  intros Hy. apply (range_check_prop 366 (fun yday => 1 <= day_of yday
    ∧ (306 <= yday → 11 <= mon_of yday <= 12
       ∧ (day_of yday <= mday !!! Z.to_nat (mon_of yday - 11) ∧ yday < 365
          ∨ yday = 365 ∧ mon_of yday = 12 ∧ day_of yday = 29))
    ∧ (yday < 306 → 1 <= mon_of yday <= 10 ∧ day_of yday <= mday !!! Z.to_nat (mon_of yday + 1))));
    [vm_compute; reflexivity|lia].
Qed.

Lemma mday_bound (i : nat) : mday !!! i <= 31.
Proof. do 12 (destruct i as [|i]; [vm_compute; discriminate|]). done. Qed.

(** The year and the day of the year after the correction. *)
Definition year_yday (days : Z) : Z * Z :=
  let year := (days + 2) * 400 / 146097 in
  let yday := days - days_before year in
  if yday <? 0 then (365 + (if leap year then 1 else 0) + yday, year - 1) else (yday, year).

Lemma year_yday_spec (days yday year : Z) :
  year_yday days = (yday, year) →
  days = days_before year + yday ∧ 0 <= yday <= 364 + (if leap (year + 1) then 1 else 0).
Proof.
  unfold year_yday. cbv zeta. pose proof (year_bounds days) as Hb. cbv zeta in Hb.
  set (y := (days + 2) * 400 / 146097) in *. clearbody y.
  destruct (Z.ltb_spec (days - days_before y) 0); intros E; injection E as <- <-.
  - rewrite days_before_pred. replace (y - 1 + 1) with y by lia. destruct (leap y); lia.
  - lia.
Qed.

Lemma leap_check (year hour min sec : Z) :
  leap year = true → hour <= 23 → min <= 59 → sec <= 59 → check_date year 1 29 hour min sec = true.
Proof.
  intros Hl Hh Hm Hs. unfold check_date. destruct (Z.gtb_spec hour 23); [lia|].
  destruct (Z.gtb_spec min 59); [lia|]. destruct (Z.gtb_spec sec 59); [lia|]. cbn [orb Z.eqb andb Pos.eqb].
  change 3 with (Z.ones 2). rewrite Z.land_ones by lia. change (2 ^ 2) with 4. unfold leap in Hl.
  destruct (Z.eqb_spec (year mod 4) 0), (Z.eqb_spec (year mod 100) 0), (Z.eqb_spec (year mod 400) 0); done.
Qed.

Lemma plain_check (year month day hour min sec : Z) :
  (day = 29 → month ≠ 1) → day <= mday !!! Z.to_nat month → hour <= 23 → min <= 59 → sec <= 59 →
  check_date year month day hour min sec = true.
Proof.
  intros Hn Hd Hh Hm Hs. unfold check_date. destruct (Z.gtb_spec hour 23); [lia|].
  destruct (Z.gtb_spec min 59); [lia|]. destruct (Z.gtb_spec sec 59); [lia|]. cbn [orb].
  destruct (Z.eqb_spec day 29), (Z.eqb_spec month 1); cbn [andb]; try (exfalso; auto; fail);
    destruct (Z.gtb_spec day (mday !!! Z.to_nat month)); (done || lia).
Qed.

Lemma gauss_late (year mon day : Z) :
  0 <= year < 2 ^ 63 → 11 <= mon <= 12 →
  gauss_days (year + 1) (mon - 10 - 1) day = days_before year + (367 * mon / 12 - 30) + day - 1 - 719468.
Proof.
  intros Hy Hm. unfold gauss_days, days_before. destruct (Z.leb_spec (mon - 10 - 1 - 1) 0); [|lia].
  replace (year + 1 - 1) with year by lia. unfold wrap_u. rewrite Z.mod_small by lia.
  replace (mon - 10 - 1 - 1 + 12) with mon by lia. lia.
Qed.

Lemma gauss_early (year mon day : Z) :
  1 <= mon <= 10 →
  gauss_days year (mon + 2 - 1) day = days_before year + (367 * mon / 12 - 30) + day - 1 - 719468.
Proof.
  intros Hm. unfold gauss_days, days_before. destruct (Z.leb_spec (mon + 2 - 1 - 1) 0); [lia|].
  replace (mon + 2 - 1 - 1) with mon by lia. lia.
Qed.

(** The only February 29 is the last day of the year. *)
Lemma feb29 (yday : Z) : 306 <= yday <= 365 → day_of yday = 29 → mon_of yday = 12 → yday = 365.
Proof. unfold day_of. intros Hy Hd Hm. rewrite Hm in Hd. change (367 * 12 / 12) with 367 in Hd. lia. Qed.

Definition last_time : Z := 253402300799.

(** What [ngx_gmtime] gives is a date of the calendar, and Gauss' formula leads back
    from it to the time. *)
Lemma gmtime_spec (t : Z) :
  let tm := ngx_gmtime t in
  gauss_days (tm_year tm) (tm_mon tm - 1) (tm_mday tm) * 86400 + tm_hour tm * 3600 + tm_min tm * 60 + tm_sec tm
  = Z.min (Z.max 0 t) last_time
  ∧ check_date (tm_year tm) (tm_mon tm - 1) (tm_mday tm) (tm_hour tm) (tm_min tm) (tm_sec tm) = true
  ∧ 1 <= tm_mon tm <= 12 ∧ 1 <= tm_mday tm <= 31 ∧ 1970 <= tm_year tm <= 9999
  ∧ 0 <= tm_hour tm <= 23 ∧ 0 <= tm_min tm <= 59 ∧ 0 <= tm_sec tm <= 59 ∧ 0 <= tm_wday tm <= 6.
Proof.
  unfold ngx_gmtime, last_time. set (t0 := if t <? 0 then 0 else t).
  assert (Ht0 : t0 = Z.max 0 t) by (unfold t0; destruct (Z.ltb_spec t 0); lia). rewrite <- Ht0.
  assert (0 <= t0) by lia. clearbody t0. clear Ht0 t.
  set (ds := if t0 / 86400 >? 2932896 then _ else _).
  assert (∃ days sec, ds = (days, sec) ∧ 0 <= days <= 2932896 ∧ 0 <= sec < 86400
    ∧ days * 86400 + sec = Z.min t0 253402300799) as (days & sec & -> & Hdays & Hsec & HT).
  { unfold ds. destruct (Z.gtb_spec (t0 / 86400) 2932896); eexists _, _; (split; [done|]);
      Z.to_euclidean_division_equations; lia. }
  rewrite <- HT. clear dependent t0. cbv zeta.
  change (365 * 400 + 100 - 4 + 1) with 146097.
  set (days' := days - (31 + 28) + 719527).
  fold (days_before ((days' + 2) * 400 / 146097)). fold (leap ((days' + 2) * 400 / 146097)).
  change (if days' - days_before ((days' + 2) * 400 / 146097) <? 0 then _ else _) with (year_yday days').
  destruct (year_yday days') as [yday year] eqn:Ey. apply year_yday_spec in Ey as [Ed Hy].
  assert (Hyr : 1969 <= year <= 9999)
    by (unfold days', days_before in Ed; clear -Hdays Ed Hy; destruct (leap (year + 1)); Z.to_euclidean_division_equations; lia).
  fold (mon_of yday). fold (day_of yday).
  destruct (month_day yday) as (Hday & Hlate & Hearly); [destruct (leap (year + 1)); lia|].
  assert (Hhms : 0 <= sec / 3600 <= 23 ∧ 0 <= sec mod 3600 / 60 <= 59 ∧ 0 <= (sec mod 3600) mod 60 <= 59
    ∧ sec / 3600 * 3600 + sec mod 3600 / 60 * 60 + (sec mod 3600) mod 60 = sec)
    by (clear -Hsec; Z.to_euclidean_division_equations; lia).
  destruct Hhms as (Hh & Hm & Hs & Esec).
  assert (Hw : 0 <= (4 + days) mod 7 <= 6) by (clear; Z.to_euclidean_division_equations; lia).
  pose proof (mday_bound (Z.to_nat (mon_of yday - 11))). pose proof (mday_bound (Z.to_nat (mon_of yday + 1))).
  destruct (Z.geb_spec yday 306) as [H306|H306]; cbn [tm_year tm_mon tm_mday tm_hour tm_min tm_sec tm_wday].
  - destruct (Hlate H306) as [Hmon Hcase]. split_and!; try lia.
    + rewrite gauss_late by lia. unfold days' in Ed. unfold day_of. lia.
    + destruct Hcase as [[Hd Hl]|(-> & Em & Ed29)].
      * apply plain_check; try lia. 2: by replace (mon_of yday - 10 - 1) with (mon_of yday - 11) by lia.
        intros Ed29 Em. apply (feb29 yday) in Ed29; lia.
      * rewrite Em, Ed29. change (12 - 10 - 1) with 1. apply leap_check; try lia.
        destruct (leap (year + 1)); [done|lia].
    + clear -Ed Hdays H306. unfold days', days_before in Ed. Z.to_euclidean_division_equations. lia.
  - destruct (Hearly H306) as [Hmon Hcase]. split_and!; try lia.
    + rewrite gauss_early by lia. unfold days' in Ed. unfold day_of. lia.
    + apply plain_check; try lia. by replace (mon_of yday + 2 - 1) with (mon_of yday + 1) by lia.
    + clear -Ed Hdays H306. unfold days', days_before in Ed. Z.to_euclidean_division_equations. lia.
Qed.

(** ** Printed dates *)

Lemma d02_digits (n : Z) : 0 <= n < 100 → d02 n = [48 + n / 10; 48 + n mod 10].
Proof.
  apply (range_check_prop 100 (fun n => d02 n = [48 + n / 10; 48 + n mod 10])). vm_compute. reflexivity.
Qed.

Lemma sprintf_digits_step (fuel : nat) (n : Z) (acc : bytes) :
  10 <= n → sprintf_digits (S fuel) 10 (fun d => d + 48) n acc
            = sprintf_digits fuel 10 (fun d => d + 48) (n / 10) (n mod 10 + 48 :: acc).
Proof.
  intros Hn. cbn [sprintf_digits]. destruct (Z.eqb_spec (n / 10) 0); [|done].
  exfalso. Z.to_euclidean_division_equations. lia.
Qed.

Lemma sprintf_digits_last (fuel : nat) (n : Z) (acc : bytes) :
  0 <= n < 10 → sprintf_digits (S fuel) 10 (fun d => d + 48) n acc = n + 48 :: acc.
Proof.
  intros Hn. cbn [sprintf_digits]. by rewrite Z.div_small, Z.mod_small by done.
Qed.

Lemma d4_digits (n : Z) :
  1000 <= n <= 9999 →
  d4 n = [48 + n / 1000; 48 + n / 100 mod 10; 48 + n / 10 mod 10; 48 + n mod 10].
Proof.
  intros Hn. unfold d4, ngx_sprintf_num.
  assert (E : sprintf_num_digits 0 n = [n / 1000 + 48; n / 100 mod 10 + 48; n / 10 mod 10 + 48; n mod 10 + 48]).
  { change (sprintf_num_digits 0 n) with (sprintf_digits 20 10 (fun d => d + 48) n []).
    do 3 (rewrite sprintf_digits_step by (Z.to_euclidean_division_equations; lia)).
    rewrite !Z.div_div by lia. change (10 * 10) with 100. change (100 * 10) with 1000.
    change (10 * 100) with 1000. rewrite sprintf_digits_last by (Z.to_euclidean_division_equations; lia).
    done. }
  rewrite E. cbn [length]. change (replicate _ _) with (@nil Z). cbn [app].
  change (take _ _) with [n / 1000 + 48; n / 100 mod 10 + 48; n / 10 mod 10 + 48; n mod 10 + 48].
  by rewrite !(Z.add_comm 48).
Qed.

Lemma digit_plus (v : Z) : 0 <= v <= 9 → digit (48 + v) = true.
Proof. unfold digit. lia. Qed.

Lemma digits_d02 (n : Z) (r : bytes) : 0 <= n < 100 → digits 2 0 (d02 n ++ r) = val n ∧ drop 2 (d02 n ++ r) = r.
Proof.
  intros Hn. rewrite d02_digits by done. split; [|done]. cbn [app digits].
  rewrite !digit_plus by (Z.to_euclidean_division_equations; lia). f_equal.
  Z.to_euclidean_division_equations; lia.
Qed.

Lemma digits_d4 (n : Z) (r : bytes) :
  1000 <= n <= 9999 → digits 4 0 (d4 n ++ r) = val n ∧ drop 4 (d4 n ++ r) = r.
Proof.
  intros Hn. rewrite d4_digits by done. split; [|done]. cbn [app digits].
  rewrite !digit_plus by (Z.to_euclidean_division_equations; lia). f_equal.
  Z.to_euclidean_division_equations; lia.
Qed.

Lemma length_d02 (n : Z) : 0 <= n < 100 → length (d02 n) = 2%nat.
Proof. intros. by rewrite d02_digits. Qed.

Lemma length_d4 (n : Z) : 1000 <= n <= 9999 → length (d4 n) = 4%nat.
Proof. intros. by rewrite d4_digits. Qed.

Lemma week_sep (w : Z) (r : bytes) :
  0 <= w <= 6 → find_sep (week !!! Z.to_nat w ++ bs ", " ++ r) = (false, bs ", " ++ r).
Proof.
  intros Hw. assert (Hi : (Z.to_nat w < 7)%nat) by lia. revert Hi. generalize (Z.to_nat w) as i.
  intros i Hi. do 7 (destruct i as [|i]; [done|]). lia.
Qed.

Lemma month_printed (m : Z) (r : bytes) :
  0 <= m <= 11 →
  month_of (months !!! Z.to_nat m ++ r) = val m ∧ drop 3 (months !!! Z.to_nat m ++ r) = r
  ∧ length (months !!! Z.to_nat m) = 3%nat.
Proof.
  intros Hm. replace m with (Z.of_nat (Z.to_nat m)) at 2 by lia.
  assert (Hi : (Z.to_nat m < 12)%nat) by lia. revert Hi. generalize (Z.to_nat m) as i.
  intros i Hi. do 12 (destruct i as [|i]; [done|]). lia.
Qed.

Lemma expect_cons (c : Z) (r : bytes) : expect c (c :: r) = val r.
Proof. unfold expect. cbn. by rewrite Z.eqb_refl. Qed.

Lemma skip_digit (n : Z) (r : bytes) : 0 <= n < 100 → skip_spaces (d02 n ++ r) = d02 n ++ r.
Proof.
  intros Hn. rewrite d02_digits by done. cbn [app skip_spaces].
  destruct (Z.eqb_spec (48 + n / 10) 32); [|done]. exfalso. Z.to_euclidean_division_equations. lia.
Qed.

Definition clock (hour min sec : Z) (r : bytes) : bytes :=
  d02 hour ++ bs ":" ++ d02 min ++ bs ":" ++ d02 sec ++ r.

Lemma time_of_day_printed (hour min sec : Z) (r : bytes) :
  0 <= hour < 100 → 0 <= min < 100 → 0 <= sec < 100 →
  time_of_day (clock hour min sec r) = val (hour, min, sec, d02 sec ++ r).
Proof.
  intros Hh Hm Hs. unfold time_of_day, clock. destruct (digits_d02 hour (bs ":" ++ d02 min ++ bs ":" ++ d02 sec ++ r) Hh) as [-> ->].
  cbn [mbind got_bind]. change (bs ":" ++ d02 min ++ bs ":" ++ d02 sec ++ r) with (58 :: d02 min ++ bs ":" ++ d02 sec ++ r).
  rewrite expect_cons. cbn [mbind got_bind]. destruct (digits_d02 min (bs ":" ++ d02 sec ++ r) Hm) as [-> ->].
  cbn [mbind got_bind]. change (bs ":" ++ d02 sec ++ r) with (58 :: d02 sec ++ r).
  rewrite expect_cons. cbn [mbind got_bind]. by destruct (digits_d02 sec r Hs) as [-> _].
Qed.

(** The rest of a date after its day and the byte after it. *)
Lemma date_tail (f : format) (sep : Z) (day : Z) (month year hour min sec : Z) (ytext r : bytes) :
  match f with
  | rfc822 => sep = 32 ∧ 1000 <= year <= 9999 ∧ ytext = d4 year
  | rfc850 => sep = 45 ∧ 1970 <= year <= 2069 ∧ ytext = d02 (year mod 100)
  | isoc => False
  end →
  0 <= month <= 11 → 0 <= hour < 100 → 0 <= min < 100 → 0 <= sec < 100 →
  let p := months !!! Z.to_nat month ++ sep :: ytext ++ bs " " ++ clock hour min sec r in
  (m ← month_of p;
   q ← match f with
       | rfc822 => expect 32 (drop 3 p) | rfc850 => expect 45 (drop 3 p) | isoc => val (drop 1 (drop 3 p))
       end;
   '(y, dd, q) ← read_year_day f day q;
   q ← expect 32 q;
   '(h, mi, se, q) ← time_of_day q;
   y ← match f with isoc => q ← expect 32 (drop 2 q); digits 4 0 q | _ => val y end;
   if check_date y m dd h mi se
   then val (wrap_s 64 (gauss_days y m dd * 86400 + h * 3600 + mi * 60 + se)) else bad)
  = if check_date year month day hour min sec
    then val (wrap_s 64 (gauss_days year month day * 86400 + hour * 3600 + min * 60 + sec)) else bad.
Proof.
  intros Hf Hm Hh Hmi Hs p.
  destruct (month_printed month (sep :: ytext ++ bs " " ++ clock hour min sec r) Hm) as (E1 & E2 & _).
  fold p in E1, E2. rewrite E1, E2. clear E1 E2 p. cbn [mbind got_bind].
  pose proof (time_of_day_printed hour min sec r Hh Hmi Hs) as Et.
  destruct f; [destruct Hf as (-> & Hy & ->)..|done]; rewrite expect_cons; cbn [mbind got_bind read_year_day].
  - destruct (digits_d4 year (bs " " ++ clock hour min sec r) Hy) as [-> ->]. cbn [mbind got_bind].
    change (bs " " ++ clock hour min sec r) with (32 :: clock hour min sec r). rewrite expect_cons.
    cbn [mbind got_bind]. rewrite Et. done.
  - assert (Hy2 : 0 <= year mod 100 < 100) by (apply Z.mod_pos_bound; lia).
    destruct (digits_d02 (year mod 100) (bs " " ++ clock hour min sec r) Hy2) as [-> ->]. cbn [mbind got_bind].
    change (bs " " ++ clock hour min sec r) with (32 :: clock hour min sec r). rewrite expect_cons.
    cbn [mbind got_bind]. rewrite Et. cbn [mbind got_bind].
    assert (Ey : year mod 100 + (if year mod 100 <? 70 then 2000 else 1900) = year).
    { destruct (Z.ltb_spec (year mod 100) 70); Z.to_euclidean_division_equations; lia. }
    by rewrite Ey.
Qed.

Lemma read_day_printed (f : format) (sep day : Z) (r : bytes) :
  match f with rfc822 => sep = 32 ∧ (17 <= length r)%nat | rfc850 => sep = 45 | isoc => False end →
  0 <= day < 100 → read_day (d02 day ++ sep :: r) = val (day, f, r).
Proof.
  intros Hf Hd. unfold read_day. destruct (digits_d02 day (sep :: r) Hd) as [-> ->].
  cbn [mbind got_bind]. change (at_ (sep :: r) 0) with (val sep). cbn [mbind got_bind].
  destruct f; [destruct Hf as [-> Hl]|subst sep|done]; cbn [Z.eqb Pos.eqb]; [|done].
  change (length (32 :: r)) with (S (length r)). destruct (Nat.ltb_spec (S (length r)) 18); [lia|done].
Qed.

(** A date in one of the formats with a comma is read back. *)
Lemma parse_printed (f : format) (sep wday day month year hour min sec : Z) (ytext : bytes) :
  match f with
  | rfc822 => sep = 32 ∧ 1000 <= year <= 9999 ∧ ytext = d4 year
  | rfc850 => sep = 45 ∧ 1970 <= year <= 2069 ∧ ytext = d02 (year mod 100)
  | isoc => False
  end →
  0 <= wday <= 6 → 0 <= day < 100 → 0 <= month <= 11 → 0 <= hour < 100 → 0 <= min < 100 → 0 <= sec < 100 →
  parse_http_time (week !!! Z.to_nat wday ++ bs ", " ++ d02 day ++ sep :: months !!! Z.to_nat month
                   ++ sep :: ytext ++ bs " " ++ clock hour min sec (bs " GMT"))
  = if check_date year month day hour min sec
    then val (wrap_s 64 (gauss_days year month day * 86400 + hour * 3600 + min * 60 + sec)) else bad.
Proof.
  intros Hf Hw Hd Hm Hh Hmi Hs.
  pose proof (date_tail f sep day month year hour min sec ytext (bs " GMT") Hf Hm Hh Hmi Hs) as Htail.
  cbv zeta in Htail.
  set (p := months !!! Z.to_nat month ++ sep :: ytext ++ bs " " ++ clock hour min sec (bs " GMT")) in *.
  assert (Hlen : (match f with rfc822 => 20 | _ => 18 end <= length p)%nat).
  { unfold p, clock. rewrite !length_app. cbn [length]. rewrite !length_app, !length_d02 by done.
    destruct (month_printed month [] Hm) as (_ & _ & ->).
    destruct f; [destruct Hf as (_ & Hy & ->); rewrite length_d4 by done; cbn; lia| |done].
    destruct Hf as (_ & _ & ->). rewrite length_d02 by (apply Z.mod_pos_bound; lia). cbn. lia. }
  unfold parse_http_time. rewrite week_sep by done.
  change (drop 1 (bs ", " ++ d02 day ++ sep :: p)) with (bs " " ++ d02 day ++ sep :: p).
  change (skip_spaces (bs " " ++ d02 day ++ sep :: p)) with (skip_spaces (d02 day ++ sep :: p)).
  rewrite skip_digit by done.
  destruct (Nat.ltb_spec (length (d02 day ++ sep :: p)) 18) as [Hl|_].
  { rewrite length_app, length_d02 in Hl by done. cbn [length] in Hl. destruct f; lia. }
  rewrite (read_day_printed f sep day p) by (first [done|destruct f; [split; [by destruct Hf|lia]|by destruct Hf|done]]).
  exact Htail.
Qed.

Lemma wrap_time (t : Z) : 0 <= t <= last_time → wrap_s 64 t = t.
Proof. intros H. apply wrap_s_id; [lia|]. unfold last_time in H. lia. Qed.

Lemma year_2037 (t year month day hour min sec : Z) :
  gauss_days year month day * 86400 + hour * 3600 + min * 60 + sec = Z.min (Z.max 0 t) last_time →
  t < 2145916800 → 1970 <= year <= 9999 → 0 <= month <= 11 → 1 <= day → 0 <= hour → 0 <= min → 0 <= sec →
  year <= 2037.
Proof.
  intros Eg Ht Hy Hm Hd Hh Hmi Hs. assert (Hg : gauss_days year month day < 24837) by (unfold last_time in Eg; lia).
  clear Eg. unfold gauss_days in Hg. unfold wrap_u in Hg. rewrite Z.mod_small in Hg by lia.
  destruct (Z.leb_spec (month - 1) 0); Z.to_euclidean_division_equations; lia.
Qed.

(** C36. Dates are read back as they were printed: [ngx_parse_http_time] inverts
    [ngx_http_time] for every time from 1970 to the end of the year 9999, the range
    to which [ngx_gmtime] cuts the time, and the dates of cookies, with two digits
    for the year, until the end of 2037. *)
Theorem http_time_roundtrip (t : Z) :
  ngx_parse_http_time (ngx_http_time t) = Some (Z.min (Z.max 0 t) last_time)
  ∧ (t < 2145916800 → ngx_parse_http_time (ngx_http_cookie_time t) = Some (Z.max 0 t)).
Proof.
  destruct (gmtime_spec t) as (Eg & Hc & Hmon & Hday & Hy & Hh & Hm & Hs & Hw). cbv zeta in *.
  assert (Ht : 0 <= Z.min (Z.max 0 t) last_time <= last_time) by (unfold last_time; lia).
  set (x := ngx_gmtime t) in *. split.
  - assert (E : parse_http_time (ngx_http_time t) = val (Z.min (Z.max 0 t) last_time)).
    { etransitivity; [exact (parse_printed rfc822 32 (tm_wday x) (tm_mday x) (tm_mon x - 1) (tm_year x) (tm_hour x)
        (tm_min x) (tm_sec x) (d4 (tm_year x)) ltac:(split_and!; done || lia) ltac:(lia) ltac:(lia) ltac:(lia)
        ltac:(lia) ltac:(lia) ltac:(lia))|].
      by rewrite Hc, Eg, wrap_time. }
    unfold ngx_parse_http_time. by rewrite E.
  - intros Hlim. assert (Hy2 : tm_year x <= 2037) by (eapply year_2037; [exact Eg|lia..]).
    assert (E : parse_http_time (ngx_http_cookie_time t) = val (Z.min (Z.max 0 t) last_time)).
    { unfold ngx_http_cookie_time. cbv zeta. fold x. destruct (Z.gtb_spec (tm_year x) 2037); [lia|].
      etransitivity; [exact (parse_printed rfc850 45 (tm_wday x) (tm_mday x) (tm_mon x - 1) (tm_year x) (tm_hour x)
        (tm_min x) (tm_sec x) (d02 (tm_year x mod 100)) ltac:(split_and!; done || lia) ltac:(lia) ltac:(lia) ltac:(lia)
        ltac:(lia) ltac:(lia) ltac:(lia))|].
      by rewrite Hc, Eg, wrap_time. }
    unfold ngx_parse_http_time. rewrite E. f_equal. unfold last_time. lia.
Qed.

(** The limits of the year 2037 and of the year 9999. *)
Lemma http_time_roundtrip_witness :
  ngx_parse_http_time (ngx_http_time 300000000000) = Some 253402300799
  ∧ ngx_parse_http_time (ngx_http_cookie_time 2145916799) = Some 2145916799.
Proof.
  split; [exact (proj1 (http_time_roundtrip 300000000000))|].
  apply (proj2 (http_time_roundtrip 2145916799)). lia.
Defined.

(** A day 00 is not refused: it is taken for the last day of the month before. *)
Lemma parse_http_time_day_zero :
  ngx_parse_http_time (bs "Sun, 00 Nov 1994 08:49:37 GMT")
  = ngx_parse_http_time (bs "Mon, 31 Oct 1994 08:49:37 GMT")
  ∧ ngx_parse_http_time (bs "Sun, 00 Nov 1994 08:49:37 GMT") = Some 783593377.
Proof. by vm_compute. Qed.

End HttpTime.
