(* ===== verification/NgxParse.v ===== *)
(** * Sizes and times of the configuration

    src/nginx-master/src/core/ngx_parse.c: [ngx_parse_size], [ngx_parse_offset] and
    [ngx_parse_time], which read the values of directives such as
    [client_max_body_size 10m] and [keepalive_timeout 1h 30m].  Overflow is checked
    at every step by the code; the theorems give the result for every value. *)

From S2P Require Import Prelude NgxNumber.

Open Scope Z_scope.

(** ** Sizes *)

Definition ngx_parse_size (line : bytes) : Z :=
  match last line with
  | None => NGX_ERROR
  | Some unit =>
      let len := length line in
      let '(len, max, scale) :=
        if (unit =? "K"%ch) || (unit =? "k"%ch)
        then ((len - 1)%nat, NGX_MAX_SIZE_T_VALUE / 1024, 1024)
        else if (unit =? "M"%ch) || (unit =? "m"%ch)
        then ((len - 1)%nat, NGX_MAX_SIZE_T_VALUE / (1024 * 1024), 1024 * 1024)
        else (len, NGX_MAX_SIZE_T_VALUE, 1) in
      let size := ngx_atosz (take len line) in
      if (size =? NGX_ERROR) || (size >? max) then NGX_ERROR else size * scale
  end.

Definition ngx_parse_offset (line : bytes) : Z :=
  match last line with
  | None => NGX_ERROR
  | Some unit =>
      let len := length line in
      let '(len, max, scale) :=
        if (unit =? "K"%ch) || (unit =? "k"%ch)
        then ((len - 1)%nat, NGX_MAX_OFF_T_VALUE / 1024, 1024)
        else if (unit =? "M"%ch) || (unit =? "m"%ch)
        then ((len - 1)%nat, NGX_MAX_OFF_T_VALUE / (1024 * 1024), 1024 * 1024)
        else if (unit =? "G"%ch) || (unit =? "g"%ch)
        then ((len - 1)%nat, NGX_MAX_OFF_T_VALUE / (1024 * 1024 * 1024), 1024 * 1024 * 1024)
        else (len, NGX_MAX_OFF_T_VALUE, 1) in
      let offset := ngx_atoof (take len line) in
      if (offset =? NGX_ERROR) || (offset >? max) then NGX_ERROR else offset * scale
  end.

(** ** Times *)

Module ParseTime.

Definition st_start : Z := 0.
Definition st_year : Z := 1.
Definition st_month : Z := 2.
Definition st_week : Z := 3.
Definition st_day : Z := 4.
Definition st_hour : Z := 5.
Definition st_min : Z := 6.
Definition st_sec : Z := 7.
Definition st_msec : Z := 8.
Definition st_last : Z := 9.

(** The switch on the byte after a number: the new [step], [max], [scale] and the rest
    of the line; [None] is [return NGX_ERROR]. *)
Definition unit_switch (is_sec : bool) (step c : Z) (p : bytes) : option (Z * Z * Z * bytes) :=
  let max := NGX_MAX_INT_T_VALUE in
  if c =? "y"%ch then
    if step >? st_start then None
    else Some (st_year, max / (60 * 60 * 24 * 365), 60 * 60 * 24 * 365, p)
  else if c =? "M"%ch then
    if step >=? st_month then None
    else Some (st_month, max / (60 * 60 * 24 * 30), 60 * 60 * 24 * 30, p)
  else if c =? "w"%ch then
    if step >=? st_week then None
    else Some (st_week, max / (60 * 60 * 24 * 7), 60 * 60 * 24 * 7, p)
  else if c =? "d"%ch then
    if step >=? st_day then None
    else Some (st_day, max / (60 * 60 * 24), 60 * 60 * 24, p)
  else if c =? "h"%ch then
    if step >=? st_hour then None
    else Some (st_hour, max / (60 * 60), 60 * 60, p)
  else if c =? "m"%ch then
    match p with
    | 115 :: p' =>
        if is_sec || (step >=? st_msec) then None else Some (st_msec, max, 1, p')
    | _ => if step >=? st_min then None else Some (st_min, max / 60, 60, p)
    end
  else if c =? "s"%ch then
    if step >=? st_sec then None else Some (st_sec, max, 1, p)
  else if c =? " "%ch then
    if step >=? st_sec then None else Some (st_last, max, 1, p)
  else None.

Fixpoint skip_spaces (p : bytes) : bytes :=
  match p with
  | c :: p' => if c =? " "%ch then skip_spaces p' else p
  | [] => []
  end.

(** After the loop. *)
Definition finish (is_sec valid : bool) (value total : Z) : Z :=
  if negb valid then NGX_ERROR
  else if negb is_sec && (value >? NGX_MAX_INT_T_VALUE / 1000) then NGX_ERROR
  else
    let value := if is_sec then value else value * 1000 in
    if total >? NGX_MAX_INT_T_VALUE - value then NGX_ERROR else total + value.

(** The loop; every round consumes a byte, [None] is lack of fuel. *)
Fixpoint time_loop (fuel : nat) (is_sec valid : bool) (step value total : Z) (p : bytes) : option Z :=
  match fuel, p with
  | _, [] => Some (finish is_sec valid value total)
  | O, _ => None
  | S fuel, c :: p =>
      if (c >=? "0"%ch) && (c <=? "9"%ch) then
        if (value >=? NGX_MAX_INT_T_VALUE / 10)
           && ((value >? NGX_MAX_INT_T_VALUE / 10) || (c - "0"%ch >? NGX_MAX_INT_T_VALUE mod 10))
        then Some NGX_ERROR
        else time_loop fuel is_sec true step (value * 10 + (c - "0"%ch)) total p
      else
        match unit_switch is_sec step c p with
        | None => Some NGX_ERROR
        | Some (step, max, scale, p) =>
            let '(scale, max) :=
              if negb (step =? st_msec) && negb is_sec then (scale * 1000, max / 1000) else (scale, max) in
            if value >? max then Some NGX_ERROR
            else
              let value := value * scale in
              if total >? NGX_MAX_INT_T_VALUE - value then Some NGX_ERROR
              else time_loop fuel is_sec valid step 0 (total + value) (skip_spaces p)
        end
  end.

Definition ngx_parse_time (line : bytes) (is_sec : bool) : option Z :=
  time_loop (length line) is_sec false (if is_sec then st_start else st_month) 0 0 line.

Example parse_time_example : ngx_parse_time (bs "1h 30m") true = Some 5400.
Proof. vm_compute. reflexivity. Qed.

Example parse_time_msec : ngx_parse_time (bs "1m 500ms") false = Some 60500.
Proof. vm_compute. reflexivity. Qed.

(** * Theorems *)

(** ** The loop ends *)

Lemma skip_spaces_length (p : bytes) : (length (skip_spaces p) <= length p)%nat.
Proof. induction p as [|c p IH]; [done|]. cbn [skip_spaces length]. destruct (c =? _); cbn [length]; lia. Qed.

Lemma unit_switch_length (is_sec : bool) (step c step' max scale : Z) (p q : bytes) :
  unit_switch is_sec step c p = Some (step', max, scale, q) →
  (length q <= length p)%nat ∧ 0 < scale ∧ max = NGX_MAX_INT_T_VALUE / scale.
Proof.
  unfold unit_switch. intros H.
  repeat match type of H with
  | (if ?b then _ else _) = _ => destruct b
  | Some _ = _ => injection H as <- <- <- <-; split_and!; [cbn [length]; lia|lia|reflexivity]
  | None = _ => discriminate H
  | match p with _ => _ end = _ => destruct p as [|x p']
  | match ?x with _ => _ end = _ => destruct x
  end.
Qed.

Definition in_range (v : Z) : Prop := 0 <= v <= NGX_MAX_INT_T_VALUE.

Lemma finish_range (is_sec valid : bool) (value total : Z) :
  in_range value → in_range total →
  finish is_sec valid value total = NGX_ERROR ∨ in_range (finish is_sec valid value total).
Proof.
  unfold in_range, finish. intros Hv Ht. destruct valid; [|by left]. cbn [negb].
  destruct is_sec; cbn [negb andb].
  - destruct (Z.gtb_spec total (NGX_MAX_INT_T_VALUE - value)); [by left|right; lia].
  - destruct (Z.gtb_spec value (NGX_MAX_INT_T_VALUE / 1000)); [by left|].
    destruct (Z.gtb_spec total (NGX_MAX_INT_T_VALUE - value * 1000)); [by left|right; lia].
Qed.

(** A unit multiplies without overflow exactly when the product fits. *)
Lemma scaled_fits (value max scale : Z) :
  0 < scale → (value >? max / scale) = negb (value * scale <=? max).
Proof.
  intros Hs. destruct (Z.gtb_spec value (max / scale)) as [H|H], (Z.leb_spec (value * scale) max) as [H2|H2]; try done.
  - exfalso. assert (value <= max / scale) by (apply Z.div_le_lower_bound; lia). lia.
  - exfalso. pose proof (Z.mul_div_le max scale Hs). nia.
Qed.

Definition round_scale (is_sec : bool) (step scale : Z) : Z :=
  if negb (step =? st_msec) && negb is_sec then scale * 1000 else scale.

(** One round of the loop for a unit. *)
Lemma time_loop_unit (fuel : nat) (is_sec valid : bool) (step value total c step' max scale : Z) (p q : bytes) :
  ((c >=? "0"%ch) && (c <=? "9"%ch)) = false →
  unit_switch is_sec step c p = Some (step', max, scale, q) →
  time_loop (S fuel) is_sec valid step value total (c :: p)
  = if value * round_scale is_sec step' scale <=? NGX_MAX_INT_T_VALUE - total
    then if value * round_scale is_sec step' scale <=? NGX_MAX_INT_T_VALUE
         then time_loop fuel is_sec valid step' 0 (total + value * round_scale is_sec step' scale) (skip_spaces q)
         else Some NGX_ERROR
    else Some NGX_ERROR.
Proof.
  intros Hc E. destruct (unit_switch_length _ _ _ _ _ _ _ _ E) as (_ & Hs & ->).
  cbn [time_loop]. rewrite Hc, E. unfold round_scale.
  assert (Hmax : (if negb (step' =? st_msec) && negb is_sec
      then (scale * 1000, NGX_MAX_INT_T_VALUE / scale / 1000) else (scale, NGX_MAX_INT_T_VALUE / scale))
    = (round_scale is_sec step' scale, NGX_MAX_INT_T_VALUE / round_scale is_sec step' scale)).
  { unfold round_scale. destruct (negb _ && _); [|done]. by rewrite Z.div_div by lia. }
  rewrite Hmax. fold (round_scale is_sec step' scale).
  assert (0 < round_scale is_sec step' scale) by (unfold round_scale; destruct (negb _ && _); lia).
  rewrite scaled_fits by done. generalize (value * round_scale is_sec step' scale) as x. intros x.
  destruct (Z.leb_spec x NGX_MAX_INT_T_VALUE), (Z.gtb_spec total (NGX_MAX_INT_T_VALUE - x)),
    (Z.leb_spec x (NGX_MAX_INT_T_VALUE - total)); cbn [negb]; (done || lia).
Qed.

(** With a fuel of at least the length of the line there is a result, an error or a
    number in range. *)
Lemma time_loop_returns (fuel : nat) (is_sec valid : bool) (step value total : Z) (p : bytes) :
  (length p <= fuel)%nat → in_range value → in_range total →
  ∃ v, time_loop fuel is_sec valid step value total p = Some v ∧ (v = NGX_ERROR ∨ in_range v).
Proof.
  revert valid step value total p. induction fuel as [|fuel IH]; intros valid step value total [|c p] Hf Hv Ht;
    cbn [length] in Hf; [eexists; split; [done|by apply finish_range]|lia|
    eexists; split; [done|by apply finish_range]|].
  destruct ((c >=? "0"%ch) && (c <=? "9"%ch)) eqn:Hc.
  - cbn [time_loop]. rewrite Hc. apply andb_true_iff in Hc as [H1 H2]. apply Z.geb_le in H1. apply Z.leb_le in H2.
    pose proof (cutoff_guard NGX_MAX_INT_T_VALUE value (c - 48) ltac:(apply Hv) ltac:(lia) ltac:(done)) as Hg.
    destruct (_ && _); [eexists; by split; [|left]|]. apply IH; [lia| |done].
    unfold in_range in *. destruct Hg as [Hg _]. specialize (Hg eq_refl). lia.
  - destruct (unit_switch is_sec step c p) as [[[[step' max] scale] q]|] eqn:E.
    + rewrite (time_loop_unit _ _ _ _ _ _ _ _ _ _ _ _ Hc E).
      destruct (unit_switch_length _ _ _ _ _ _ _ _ E) as (Hl & Hs & _).
      set (r := round_scale is_sec step' scale).
      assert (0 < r) by (unfold r, round_scale; destruct (negb _ && _); lia).
      assert (0 <= value * r) by (unfold in_range in Hv; nia).
      destruct (Z.leb_spec (value * r) (NGX_MAX_INT_T_VALUE - total)); [|eexists; by split; [|left]].
      destruct (Z.leb_spec (value * r) NGX_MAX_INT_T_VALUE); [|eexists; by split; [|left]].
      apply IH; [pose proof (skip_spaces_length q); lia|done|unfold in_range in *; lia].
    + exists NGX_ERROR. split; [|by left]. cbn [time_loop]. by rewrite Hc, E.
Qed.

(** ** What a time means *)

Inductive time_unit := years | months | weeks | days | hours | minutes | seconds | millis.

Definition suffix (u : time_unit) : bytes :=
  match u with
  | years => ["y"%ch] | months => ["M"%ch] | weeks => ["w"%ch] | days => ["d"%ch] | hours => ["h"%ch]
  | minutes => ["m"%ch] | seconds => ["s"%ch] | millis => ["m"%ch; "s"%ch]
  end.

Definition rank (u : time_unit) : Z :=
  match u with
  | years => 1 | months => 2 | weeks => 3 | days => 4 | hours => 5 | minutes => 6 | seconds => 7 | millis => 8
  end.

(** The length of a unit, in seconds or in milliseconds. *)
Definition unit_value (is_sec : bool) (u : time_unit) : Z :=
  match u with
  | years => 31536000 | months => 2592000 | weeks => 604800 | days => 86400 | hours => 3600
  | minutes => 60 | seconds => 1 | millis => 1
  end * match u with millis => 1 | _ => if is_sec then 1 else 1000 end.

(** A number, its unit and the spaces after it. *)
Definition item : Type := bytes * time_unit * nat.

Definition item_text (i : item) : bytes := let '(ds, u, k) := i in ds ++ suffix u ++ replicate k " "%ch.

Definition item_value (is_sec : bool) (i : item) : Z := let '(ds, u, _) := i in dec_value 0 ds * unit_value is_sec u.

(** The units come in descending order; years and months are units of times in
    seconds, milliseconds of the others. *)
Fixpoint ordered (is_sec : bool) (step : Z) (items : list item) : Prop :=
  match items with
  | [] => True
  | (ds, u, _) :: items =>
      ds ≠ [] ∧ Forall is_digit ds ∧ step < rank u ∧ (u = millis → is_sec = false)
      ∧ ordered is_sec (rank u) items
  end.

Lemma unit_switch_spec (is_sec : bool) (u : time_unit) (step : Z) (r : bytes) :
  step < rank u → (u = millis → is_sec = false) → head r ≠ Some "s"%ch →
  ∃ c q max scale,
    suffix u ++ r = c :: q ∧ ((c >=? "0"%ch) && (c <=? "9"%ch)) = false
    ∧ unit_switch is_sec step c q = Some (rank u, max, scale, r)
    ∧ round_scale is_sec (rank u) scale = unit_value is_sec u.
Proof.
  intros Hs Hm Hr. unfold round_scale.
  assert (Hge : ∀ k, k = rank u → (step >=? k) = false) by (intros k ->; destruct (Z.geb_spec step (rank u)); [lia|done]).
  destruct u; (eexists _, _, _, _; split; [reflexivity|split; [reflexivity|]]).
  1: { unfold unit_switch. cbn [Z.eqb Pos.eqb rank] in *. destruct (Z.gtb_spec step st_start); [unfold st_start in *; lia|].
       split; [done|]. by destruct is_sec. }
  all: unfold unit_switch; cbn [Z.eqb Pos.eqb].
  1-4: rewrite Hge by done; split; [done|by destruct is_sec].
  - destruct r as [|x r']; [rewrite Hge by done; split; [done|by destruct is_sec]|].
    assert (Hx : x ≠ 115) by (intros ->; by apply Hr).
    split; [|by destruct is_sec]. rewrite Hge by done. by repeat (case_match; try done).
  - rewrite Hge by done. split; [done|by destruct is_sec].
  - rewrite (Hm eq_refl), Hge by done. done.
Qed.

Lemma time_loop_digits (fuel : nat) (is_sec valid : bool) (step value total : Z) (ds r : bytes) :
  Forall is_digit ds → in_range value →
  time_loop (length ds + fuel) is_sec valid step value total (ds ++ r)
  = if dec_value value ds <=? NGX_MAX_INT_T_VALUE
    then time_loop fuel is_sec (match ds with [] => valid | _ => true end) step (dec_value value ds) total r
    else Some NGX_ERROR.
Proof.
  intros Hd. revert valid value. induction Hd as [|c ds Hc Hd IH]; intros valid value Hv.
  { cbn. destruct (Z.leb_spec value NGX_MAX_INT_T_VALUE); [done|]. unfold in_range in Hv. lia. }
  cbn [length app Nat.add time_loop]. unfold is_digit in Hc.
  replace ((c >=? 48) && (c <=? 57)) with true by lia.
  pose proof (cutoff_guard NGX_MAX_INT_T_VALUE value (c - 48) ltac:(apply Hv) ltac:(lia) ltac:(done)) as Hg.
  rewrite dec_value_cons. unfold in_range in *.
  destruct ((value >=? _) && _).
  - assert (NGX_MAX_INT_T_VALUE < value * 10 + (c - 48)).
    { destruct (Z.lt_ge_cases NGX_MAX_INT_T_VALUE (value * 10 + (c - 48))); [done|]. by apply Hg in H. }
    pose proof (dec_value_ge (value * 10 + (c - 48)) ds ltac:(lia) Hd).
    by destruct (Z.leb_spec (dec_value (value * 10 + (c - 48)) ds) NGX_MAX_INT_T_VALUE); [lia|].
  - rewrite IH by (destruct Hg as [Hg _]; specialize (Hg eq_refl); lia). by destruct ds.
Qed.

(** The text after an item: digits, or the end. *)
Definition text (items : list item) (last : bytes) : bytes := concat (map item_text items) ++ last.

Definition amount (is_sec : bool) (items : list item) (last : bytes) : Z :=
  foldr (fun i acc => item_value is_sec i + acc) (dec_value 0 last * (if is_sec then 1 else 1000)) items.

Lemma text_head (is_sec : bool) (step : Z) (items : list item) (last : bytes) :
  ordered is_sec step items → Forall is_digit last →
  text items last = [] ∨ ∃ c r, text items last = c :: r ∧ is_digit c.
Proof.
  intros Ho Hl. destruct items as [|[[ds u] k] items].
  - destruct last as [|c last]; [by left|right]. inversion Hl; subst. by eexists _, _.
  - destruct Ho as (Hne & Hd & _). right. destruct ds as [|c ds]; [done|]. inversion Hd; subst. by eexists _, _.
Qed.

Lemma skip_spaces_text (k : nat) (r : bytes) :
  (r = [] ∨ ∃ c q, r = c :: q ∧ is_digit c) → skip_spaces (replicate k 32 ++ r) = r.
Proof.
  intros Hr. induction k as [|k IH]; [|done]. cbn [replicate app].
  destruct Hr as [->|(c & q & -> & Hc)]; [done|]. cbn [skip_spaces]. unfold is_digit in Hc.
  destruct (Z.eqb_spec c 32); [lia|done].
Qed.

Lemma unit_value_pos (is_sec : bool) (u : time_unit) : 0 < unit_value is_sec u.
Proof. by destruct is_sec, u. Qed.

Lemma amount_nonneg (is_sec : bool) (step : Z) (items : list item) (last : bytes) :
  ordered is_sec step items → Forall is_digit last → 0 <= amount is_sec items last.
Proof.
  intros Ho Hl. revert step Ho. induction items as [|[[ds u] k] items IH]; intros step Ho.
  - cbn. pose proof (dec_value_ge 0 last ltac:(lia) Hl). destruct is_sec; lia.
  - destruct Ho as (_ & Hd & _ & _ & Ho). specialize (IH _ Ho). unfold amount in *. cbn [foldr item_value].
    pose proof (dec_value_ge 0 ds ltac:(lia) Hd). pose proof (unit_value_pos is_sec u). nia.
Qed.

Lemma time_loop_end (fuel : nat) (is_sec valid : bool) (step value total : Z) :
  time_loop fuel is_sec valid step value total [] = Some (finish is_sec valid value total).
Proof. by destruct fuel. Qed.

Lemma finish_spec (is_sec valid : bool) (value total : Z) :
  valid = true → in_range value → in_range total →
  let x := value * (if is_sec then 1 else 1000) in
  finish is_sec valid value total = if total + x <=? NGX_MAX_INT_T_VALUE then total + x else NGX_ERROR.
Proof.
  unfold finish, in_range. intros -> Hv Ht. cbn [negb].
  assert (H1000 : (value >? NGX_MAX_INT_T_VALUE / 1000) = negb (value * 1000 <=? NGX_MAX_INT_T_VALUE))
    by (by apply scaled_fits).
  rewrite H1000. destruct is_sec; cbn [negb andb]; rewrite ?Z.mul_1_r;
    repeat match goal with
    | |- context [?a <=? ?b] => destruct (Z.leb_spec a b)
    | |- context [?a >? ?b] => destruct (Z.gtb_spec a b)
    end; cbn [negb andb]; (done || lia).
Qed.

Lemma time_loop_text (fuel : nat) (is_sec valid : bool) (step total : Z) (items : list item) (last : bytes) :
  ordered is_sec step items → Forall is_digit last → in_range total → (length (text items last) <= fuel)%nat →
  valid = true ∨ items ≠ [] ∨ last ≠ [] →
  time_loop fuel is_sec valid step 0 total (text items last)
  = Some (if total + amount is_sec items last <=? NGX_MAX_INT_T_VALUE then total + amount is_sec items last else NGX_ERROR).
Proof.
  intros Ho Hl. revert fuel valid step total Ho.
  induction items as [|[[ds u] k] items IH]; intros fuel valid step total Ho Ht Hf Hv.
  - unfold text in *. cbn [map concat app] in *. unfold amount. cbn [foldr].
    replace last with (last ++ []) at 1 by apply app_nil_r.
    replace fuel with (length last + (fuel - length last))%nat by lia.
    rewrite time_loop_digits by done.
    pose proof (dec_value_ge 0 last ltac:(lia) Hl) as Hn. unfold in_range in Ht.
    destruct (Z.leb_spec (dec_value 0 last) NGX_MAX_INT_T_VALUE) as [Hfit|Hbig].
    + rewrite time_loop_end, finish_spec; [done| |unfold in_range; lia|done].
      destruct last; [|done]. by destruct Hv as [?|[?|?]].
    + destruct (Z.leb_spec (total + dec_value 0 last * (if is_sec then 1 else 1000)) NGX_MAX_INT_T_VALUE); [|done].
      destruct is_sec; lia.
  - destruct Ho as (Hne & Hd & Hs & Hm & Ho). unfold text in Hf |- *. cbn [map concat item_text] in *.
    rewrite <- !(assoc_L (++)) in *. fold (text items last) in *. autorewrite with ngx_len in Hf.
    pose proof (dec_value_ge 0 ds ltac:(lia) Hd) as Hn. pose proof (unit_value_pos is_sec u) as Hu.
    pose proof (amount_nonneg is_sec _ items last Ho Hl) as Hrest.
    set (n := dec_value 0 ds * unit_value is_sec u).
    change (amount is_sec (_ :: items) last) with (n + amount is_sec items last).
    assert (dec_value 0 ds <= n) by (unfold n; nia).
    replace fuel with (length ds + (fuel - length ds))%nat by lia.
    rewrite time_loop_digits by done. unfold in_range in Ht.
    destruct (Z.leb_spec (dec_value 0 ds) NGX_MAX_INT_T_VALUE) as [Hfit|Hbig].
    2: { destruct (Z.leb_spec (total + (n + amount is_sec items last)) NGX_MAX_INT_T_VALUE); [lia|done]. }
    destruct (unit_switch_spec is_sec u step (replicate k 32 ++ text items last)) as (c & q & max & scale & E & Hc & Esw & Ers);
      [done|done| |].
    { destruct k; [|done]. cbn [replicate app].
      destruct (text_head is_sec _ items last Ho Hl) as [->|(c & r & -> & Hc)]; [done|].
      unfold is_digit in Hc. cbn. intros [= ->]. lia. }
    assert (Hlq : (length (suffix u) + (k + length (text items last)) = S (length q))%nat).
    { apply (f_equal length) in E. rewrite !length_app, length_replicate in E. exact E. }
    rewrite E. replace (fuel - length ds)%nat with (S (fuel - length ds - 1)) by lia.
    rewrite (time_loop_unit _ _ _ _ _ _ _ _ _ _ _ _ Hc Esw), Ers. fold n.
    rewrite skip_spaces_text by (by apply (text_head is_sec (rank u))).
    destruct (Z.leb_spec n (NGX_MAX_INT_T_VALUE - total)), (Z.leb_spec n NGX_MAX_INT_T_VALUE); try lia.
    + rewrite IH; [|done|unfold in_range; lia| |by left; destruct ds].
      * by rewrite Z.add_assoc.
      * assert (length (suffix u) ≠ 0%nat) by (by destruct u). lia.
    + destruct (Z.leb_spec (total + (n + amount is_sec items last)) NGX_MAX_INT_T_VALUE); [lia|done].
    + destruct (Z.leb_spec (total + (n + amount is_sec items last)) NGX_MAX_INT_T_VALUE); [lia|done].
Qed.

(** Times of the configuration. The parser returns on every line, and what it
    returns is an error or fits an ngx_int_t. A sequence of numbers with descending
    units, spaces after the units and perhaps a last number without a unit (seconds)
    is worth the sum of its parts, in seconds or in milliseconds; when the sum does
    not fit, wherever the overflow happens, the result is NGX_ERROR. *)
Theorem parse_time_correct (is_sec : bool) :
  (∀ line, ∃ v, ngx_parse_time line is_sec = Some v ∧ (v = NGX_ERROR ∨ 0 <= v <= NGX_MAX_INT_T_VALUE))
  ∧ ∀ items last,
      ordered is_sec (if is_sec then st_start else st_month) items → Forall is_digit last →
      items ≠ [] ∨ last ≠ [] →
      ngx_parse_time (text items last) is_sec
      = Some (if amount is_sec items last <=? NGX_MAX_INT_T_VALUE then amount is_sec items last else NGX_ERROR).
Proof.
  split.
  - intros line. by apply time_loop_returns.
  - intros items last Ho Hl Hne. unfold ngx_parse_time. by rewrite time_loop_text; try done; right.
Qed.

Lemma parse_time_correct_witness :
  ngx_parse_time (bs "1h  30m15") true = Some 5415
  ∧ ngx_parse_time (bs "9223372036854775s 808ms") false = Some NGX_ERROR.
Proof.
  split.
  - apply (proj2 (parse_time_correct true) [(bs "1", hours, 2%nat); (bs "30", minutes, 0%nat)] (bs "15"));
      [repeat split; solve_forall ltac:(unfold is_digit; lia) || done..|by left].
  - apply (proj2 (parse_time_correct false)
      [(bs "9223372036854775", seconds, 1%nat); (bs "808", millis, 0%nat)] []); [|constructor|by left].
    repeat split; try done; solve_forall ltac:(unfold is_digit; lia).
Defined.

End ParseTime.

(** ** Sizes *)

Definition size_units : list (bytes * Z) :=
  [([], 1); (["K"%ch], 1024); (["k"%ch], 1024); (["M"%ch], 1048576); (["m"%ch], 1048576)].

Definition offset_units : list (bytes * Z) := size_units ++ [(["G"%ch], 1073741824); (["g"%ch], 1073741824)].

Definition fitted (v : Z) : Z := if v <=? NGX_MAX_INT_T_VALUE then v else NGX_ERROR.

Lemma atoi_scaled (ds : bytes) (scale : Z) :
  Forall is_digit ds → ds ≠ [] → 0 < scale →
  (if (ngx_atoi ds =? NGX_ERROR) || (ngx_atoi ds >? NGX_MAX_INT_T_VALUE / scale) then NGX_ERROR
   else ngx_atoi ds * scale) = fitted (dec_value 0 ds * scale).
Proof.
  intros Hd Hne Hs. rewrite atoi_decimal. pose proof (dec_value_ge 0 ds ltac:(lia) Hd) as Hn. unfold fitted.
  destruct (decide _) as [[_ [_ Hfit]]|Hbig].
  - destruct (Z.eqb_spec (dec_value 0 ds) NGX_ERROR) as [E|_]; [unfold NGX_ERROR in E; lia|]. cbn [orb].
    rewrite ParseTime.scaled_fits by done. by destruct (_ <=? _).
  - destruct (Z.leb_spec (dec_value 0 ds * scale) NGX_MAX_INT_T_VALUE); [|done].
    exfalso. apply Hbig. split; [done|split; [done|]]. transitivity (dec_value 0 ds * scale); [nia|done].
Qed.

Lemma digits_last (ds : bytes) : Forall is_digit ds → ds ≠ [] → ∃ c, last ds = Some c ∧ is_digit c.
Proof.
  intros Hd Hne. destruct (last ds) as [c|] eqn:E; [|by apply last_None in E].
  exists c. split; [done|]. apply last_Some in E as [l ->]. apply Forall_app in Hd as [_ Hd]. by inversion Hd.
Qed.

(** A size is its number times its unit, or an error when that does not fit. *)
Theorem parse_size_spec (ds u : bytes) (scale : Z) :
  Forall is_digit ds → ds ≠ [] →
  ((u, scale) ∈ size_units → ngx_parse_size (ds ++ u) = fitted (dec_value 0 ds * scale))
  ∧ ((u, scale) ∈ offset_units → ngx_parse_offset (ds ++ u) = fitted (dec_value 0 ds * scale)).
Proof.
  intros Hd Hne. destruct (digits_last ds Hd Hne) as (c & Ec & Hc). unfold is_digit in Hc.
  assert (Hz : ∀ l, ngx_atosz l = ngx_atoi l) by (by intros []).
  assert (Ho : ∀ l, ngx_atoof l = ngx_atoi l) by (by intros []).
  assert (Hlen : ∀ x, take (length (ds ++ [x]) - 1) (ds ++ [x]) = ds).
  { intros x. rewrite length_app. cbn [length]. rewrite Nat.add_sub. apply take_app_length. }
  split; intros Hu; repeat (apply elem_of_cons in Hu as [[= -> ->]|Hu]); try (by apply elem_of_nil in Hu);
    unfold ngx_parse_size, ngx_parse_offset.
  all: rewrite ?app_nil_r, ?last_snoc, ?Ec, ?Hz, ?Ho; cbn [Z.eqb Pos.eqb orb].
  1, 6: replace (c =? "K"%ch) with false by lia; replace (c =? "k"%ch) with false by lia;
    replace (c =? "M"%ch) with false by lia; replace (c =? "m"%ch) with false by lia;
    replace (c =? "G"%ch) with false by lia; replace (c =? "g"%ch) with false by lia; cbn [orb];
    rewrite take_ge by done; by apply (atoi_scaled ds 1).
  all: rewrite Hlen; by apply (atoi_scaled ds).
Qed.

