(* ===== verification/NgxInet.v ===== *)
(** Network addresses and their texts: core/ngx_inet.c, [ngx_inet_addr],
    [ngx_inet6_addr], [ngx_inet_ntop], [ngx_inet6_ntop] and [ngx_sock_ntop].

    An [in_addr_t] is the number that a little-endian machine loads from the four bytes
    of the address; [htonl] swaps bytes.  An IPv6 address is its 16 bytes.  A port is kept
    in host order, that is [ntohs] of the field. *)

From S2P Require Import Prelude NgxNumber NgxCompare.

Open Scope Z_scope.

Module NgxInet.

(** * Definitions *)

Definition INADDR_NONE : Z := 0xffffffff.
Definition INADDR_ANY : Z := 0.
Definition NGX_INET_ADDRSTRLEN : nat := length (bs "255.255.255.255").
Definition NGX_INET6_ADDRSTRLEN : nat := length (bs "ffff:ffff:ffff:ffff:ffff:ffff:255.255.255.255").

(** The byte [i] of a number in memory. *)
Definition byte_at (i : Z) (x : Z) : Z := u_char (Z.shiftr x (8 * i)).

Definition htonl (x : Z) : Z :=
  byte_at 3 x + Z.shiftl (byte_at 2 x) 8 + Z.shiftl (byte_at 1 x) 16 + Z.shiftl (byte_at 0 x) 24.

Definition ntohl (x : Z) : Z := htonl x.

(** The four bytes of an address in memory. *)
Definition in_addr_bytes (a : Z) : bytes := [byte_at 0 a; byte_at 1 a; byte_at 2 a; byte_at 3 a].

(** ** ngx_inet_addr *)

Fixpoint inet_addr_loop (text : bytes) (addr octet n : Z) : Z :=
  match text with
  | [] => if n =? 3 then htonl (wrap_u 32 (Z.shiftl addr 8 + octet)) else INADDR_NONE
  | c :: text =>
      if (c >=? "0"%ch) && (c <=? "9"%ch) then
        let octet := octet * 10 + (c - "0"%ch) in
        if octet >? 255 then INADDR_NONE else inet_addr_loop text addr octet n
      else if c =? "."%ch then inet_addr_loop text (wrap_u 32 (Z.shiftl addr 8 + octet)) 0 (n + 1)
      else INADDR_NONE
  end.

Definition ngx_inet_addr (text : bytes) : Z := inet_addr_loop text 0 0 0.

(** ** ngx_inet6_addr *)

(** The variables of the loop.  [out] is what was written so far, so that [addr] is its
    end; [zero] is an offset into it; [digit] is the text from [digit] on, of [len4 - 1]
    bytes. *)
Record v6_state := mk_v6 {
  out : bytes;
  zero : option nat;
  digit : option bytes;
  nibbles : Z;
  word : Z;
  groups : Z
}.

(** [*addr++ = ...] twice, into an array of 16 bytes. *)
Definition put_word (hi lo : Z) (o : bytes) : option bytes :=
  if (16 <? length o + 2)%nat then None else Some (o ++ [u_char hi; u_char lo]).

(** What follows the loop: the last word is written, and the groups after [zero] are
    moved to the end. *)
Definition v6_finish (s : v6_state) : option (option bytes) :=
  if (nibbles s =? 0) && match zero s with None => true | Some _ => false end then Some None
  else
    o ← put_word (Z.shiftr (word s) 8) (Z.land (word s) 0xff) (out s);
    let n := groups s - 1 in
    if negb (n =? 0) then
      match zero s with
      | Some z =>
          let n := Z.to_nat (n * 2) in
          if (16 <? length o + n)%nat then None
          else Some (Some (take z o ++ replicate n 0 ++ drop z o))
      | None => Some None
      end
    else match zero s with None => Some (Some o) | Some _ => Some None end.

(** [None] is a write outside of the 16 bytes, [Some None] is [NGX_ERROR]. *)
Fixpoint v6_loop (p : bytes) (s : v6_state) : option (option bytes) :=
  match p with
  | [] => v6_finish s
  | c :: p =>
      if c =? ":"%ch then
        if negb (nibbles s =? 0) then
          o ← put_word (Z.shiftr (word s) 8) (Z.land (word s) 0xff) (out s);
          let n := groups s - 1 in
          if negb (n =? 0) then v6_loop p (mk_v6 o (zero s) (Some p) 0 0 n) else Some None
        else
          match zero s with
          | None => v6_loop p (mk_v6 (out s) (Some (length (out s))) (Some p) (nibbles s) (word s) (groups s))
          | Some _ => Some None
          end
      else if (c =? "."%ch) && negb (nibbles s =? 0) then
        match digit s with
        | None => Some None
        | Some text =>
            if groups s <? 2 then Some None
            else
              let w := ngx_inet_addr text in
              if w =? INADDR_NONE then Some None
              else
                let w := ntohl w in
                o ← put_word (Z.land (Z.shiftr w 24) 0xff) (Z.land (Z.shiftr w 16) 0xff) (out s);
                v6_finish (mk_v6 o (zero s) (digit s) (nibbles s) w (groups s - 1))
        end
      else
        let nib := nibbles s + 1 in
        if nib >? 4 then Some None
        else if (c >=? "0"%ch) && (c <=? "9"%ch) then
          v6_loop p (mk_v6 (out s) (zero s) (digit s) nib (word s * 16 + (c - "0"%ch)) (groups s))
        else
          let c := u_char (Z.lor c 0x20) in
          if (c >=? "a"%ch) && (c <=? "f"%ch) then
            v6_loop p (mk_v6 (out s) (zero s) (digit s) nib (word s * 16 + (c - "a"%ch) + 10) (groups s))
          else Some None
  end.

Definition ngx_inet6_addr (p : bytes) : option (option bytes) :=
  let s := mk_v6 [] None None 0 0 8 in
  match p with
  | [] => Some None
  | c :: p' => v6_loop (if c =? ":"%ch then p' else p) s
  end.

(** ** ngx_inet_ntop and ngx_inet6_ntop *)

(** [%ud], [%d] of a number that is not negative, and [%xd]. *)
Definition sprintf_d (n : Z) : bytes := ngx_sprintf_num NGX_MAX_INT_T_VALUE n " "%ch 0 0.
Definition sprintf_x (n : Z) : bytes := ngx_sprintf_num NGX_MAX_INT_T_VALUE n " "%ch 1 0.

(** The format [%ud.%ud.%ud.%ud]. *)
Definition sprintf_quad (p : bytes) : bytes :=
  sprintf_d (p !!! 0%nat) ++ bs "." ++ sprintf_d (p !!! 1%nat) ++ bs "."
  ++ sprintf_d (p !!! 2%nat) ++ bs "." ++ sprintf_d (p !!! 3%nat).

(** The search for the longest run of zero words: [zero], [last], [max], [n]; [-1] is
    [(ngx_uint_t) -1]. *)
Fixpoint zero_scan (p : bytes) (i zero last max n : Z) : Z * Z :=
  match p with
  | a :: b :: p =>
      if negb (a =? 0) || negb (b =? 0) then
        let '(zero, max) := if max <? n then (last, n) else (zero, max) in
        zero_scan p (i + 2) zero last max 0
      else zero_scan p (i + 2) zero (if n =? 0 then i else last) max (n + 1)
  | _ => if max <? n then (last, n) else (zero, max)
  end.

(** The loop that prints the words; the steps of [i] are even, 8 rounds are enough. *)
Fixpoint print_words (fuel : nat) (p : bytes) (zero max n i : Z) : bytes :=
  match fuel with
  | O => []
  | S fuel =>
      if i <? n then
        if i =? zero then bs ":" ++ print_words fuel p zero max n (i + (max - 1) * 2 + 2)
        else
          sprintf_x (p !!! Z.to_nat i * 256 + p !!! Z.to_nat (i + 1))
          ++ (if i <? 14 then bs ":" else [])
          ++ print_words fuel p zero max n (i + 2)
      else []
  end.

Definition ngx_inet6_ntop (p : bytes) (len : nat) : bytes :=
  if (len <? NGX_INET6_ADDRSTRLEN)%nat then []
  else
    let '(zero, max) := zero_scan p 0 (-1) (-1) 1 0 in
    let v4 := (max =? 5) && (p !!! 10%nat =? 0xff) && (p !!! 11%nat =? 0xff)
              || (max =? 6)
              || (max =? 7) && negb (p !!! 14%nat =? 0) && negb (p !!! 15%nat =? 1) in
    let n := if (zero =? 0) && v4 then 12 else 16 in
    (if zero =? 0 then bs ":" else [])
    ++ print_words 8 p zero max n 0
    ++ (if n =? 12 then sprintf_quad (drop 12 p) else []).

(** ** Socket addresses *)

(** [sun_path] is an array of 108 bytes. *)
Inductive sockaddr :=
  | sockaddr_in (sin_port : Z) (sin_addr : Z)
  | sockaddr_in6 (sin6_port : Z) (sin6_addr : bytes)
  | sockaddr_un (sun_path : bytes).

Inductive family := AF_UNSPEC | AF_UNIX | AF_INET | AF_INET6.

#[export] Instance family_eq_dec : EqDecision family.
Proof. solve_decision. Defined.

Definition sa_family (sa : sockaddr) : family :=
  match sa with sockaddr_in _ _ => AF_INET | sockaddr_in6 _ _ => AF_INET6 | sockaddr_un _ => AF_UNIX end.

Definition ngx_inet_ntop (f : family) (addr : bytes) (len : nat) : bytes :=
  match f with
  | AF_INET => take len (sprintf_quad addr)
  | AF_INET6 => ngx_inet6_ntop addr len
  | _ => []
  end.

(** [ngx_strnlen]. *)
Fixpoint ngx_strnlen (p : bytes) (n : nat) : nat :=
  match n, p with
  | S n, c :: p => if c =? 0 then 0 else S (ngx_strnlen p n)
  | _, _ => 0
  end.

(** [offsetof(struct sockaddr_un, sun_path)]. *)
Definition offsetof_sun_path : nat := 2.

(** The text that [ngx_sock_ntop] writes into a buffer that is not empty, up to the length
    that it returns.  For an IPv6
    address with a port the brackets and the port are written without a bound. *)
Definition ngx_sock_ntop (sa : sockaddr) (socklen len : nat) (port : bool) : bytes :=
  match sa with
  | sockaddr_in p a =>
      take len (sprintf_quad (in_addr_bytes a) ++ (if port then bs ":" ++ sprintf_d p else []))
  | sockaddr_in6 p a =>
      let t := ngx_inet6_ntop a len in
      if port then bs "[" ++ t ++ bs "]:" ++ sprintf_d p else t
  | sockaddr_un path =>
      let text := if (socklen <=? offsetof_sun_path)%nat then bs "unix:"
                  else bs "unix:" ++ take (ngx_strnlen path (socklen - offsetof_sun_path)) path in
      (* the final NUL is written and not counted *)
      let written := take len (text ++ [0]) in
      take (length written - 1) written
  end.

Definition ngx_inet_get_port (sa : sockaddr) : Z :=
  match sa with sockaddr_in6 p _ => p | sockaddr_un _ => 0 | sockaddr_in p _ => p end.

Definition ngx_inet_set_port (sa : sockaddr) (port : Z) : sockaddr :=
  match sa with
  | sockaddr_in6 _ a => sockaddr_in6 port a
  | sockaddr_un path => sockaddr_un path
  | sockaddr_in _ a => sockaddr_in port a
  end.

(** * Examples *)

Example inet_addr_text : ngx_inet_addr (bs "127.0.0.1") = 0x0100007f.
Proof. reflexivity. Qed.

Example inet6_texts :
  map (fun t => match ngx_inet6_addr (bs t) with Some (Some a) => ngx_inet6_ntop a 100 | _ => bs "?" end)
    ["::"; "::1"; "1::"; "fe80::1:0:0:2"; "::ffff:10.0.0.1"; "::1.2.3.4"; "1:2:3:4:5:6:7:8"; "::0.0.1.0"; "2001:DB8::a"]%string
  = map bs ["::"; "::1"; "1::"; "fe80::1:0:0:2"; "::ffff:10.0.0.1"; "::1.2.3.4"; "1:2:3:4:5:6:7:8"; "::0.0.1.0"; "2001:db8::a"]%string.
Proof. vm_compute. reflexivity. Qed.

(** * IPv4 *)

Lemma byte_at_div (i x : Z) : 0 <= i → byte_at i x = (x / 2 ^ (8 * i)) mod 256.
Proof. intros Hi. unfold byte_at, u_char. by rewrite Z.shiftr_div_pow2 by lia. Qed.

(** The number whose bytes in memory are these. *)
Definition of_bytes (a b c d : Z) : Z := a + b * 256 + c * 65536 + d * 16777216.

Lemma byte_at_of_bytes (a b c d : Z) :
  is_byte a → is_byte b → is_byte c → is_byte d →
  byte_at 0 (of_bytes a b c d) = a ∧ byte_at 1 (of_bytes a b c d) = b
  ∧ byte_at 2 (of_bytes a b c d) = c ∧ byte_at 3 (of_bytes a b c d) = d.
Proof.
  unfold is_byte, of_bytes. intros Ha Hb Hc Hd. rewrite !byte_at_div by lia.
  change (2 ^ (8 * 0)) with 1. change (2 ^ (8 * 1)) with 256. change (2 ^ (8 * 2)) with 65536. change (2 ^ (8 * 3)) with 16777216.
  split_and!; Z.to_euclidean_division_equations; lia.
Qed.

Lemma htonl_of_bytes (a b c d : Z) :
  is_byte a → is_byte b → is_byte c → is_byte d → htonl (of_bytes d c b a) = of_bytes a b c d.
Proof.
  intros Ha Hb Hc Hd. unfold htonl. destruct (byte_at_of_bytes d c b a) as (-> & -> & -> & ->); try done.
  rewrite !Z.shiftl_mul_pow2 by lia. unfold of_bytes. lia.
Qed.

Lemma of_bytes_split (x : Z) :
  0 <= x < 2 ^ 32 → ∃ a b c d, is_byte a ∧ is_byte b ∧ is_byte c ∧ is_byte d ∧ x = of_bytes a b c d.
Proof.
  intros Hx. exists (x mod 256), (x / 256 mod 256), (x / 65536 mod 256), (x / 16777216).
  unfold is_byte, of_bytes. split_and!; Z.to_euclidean_division_equations; lia.
Qed.

Lemma inet_digits (ds rest : bytes) (addr octet n : Z) :
  Forall is_digit ds → 0 <= octet → dec_value octet ds <= 255 →
  inet_addr_loop (ds ++ rest) addr octet n = inet_addr_loop rest addr (dec_value octet ds) n.
Proof.
  intros Hd. revert octet. induction Hd as [|c ds Hc Hd IH]; intros octet Ho H; [done|].
  unfold is_digit in Hc. cbn [app inet_addr_loop]. rewrite (proj2 (Z.geb_le c 48)), (proj2 (Z.leb_le c 57)) by lia.
  cbn [andb]. rewrite dec_value_cons in *. pose proof (dec_value_ge (octet * 10 + (c - 48)) ds ltac:(lia) Hd) as Hge.
  destruct (Z.gtb_spec (octet * 10 + (c - 48)) 255); [lia|]. apply IH; lia.
Qed.

(** What a text denotes: its parts between the dots. *)
Definition quad_text (a b c d : bytes) : bytes := a ++ "."%ch :: b ++ "."%ch :: c ++ "."%ch :: d.

Definition octet_text (ds : bytes) : Prop := Forall is_digit ds ∧ dec_value 0 ds <= 255.

Lemma octet_range ds : octet_text ds → is_byte (dec_value 0 ds).
Proof. intros [Hd Hv]. pose proof (dec_value_ge 0 ds ltac:(lia) Hd). unfold is_byte. lia. Qed.

Lemma inet_addr_quad (a b c d : bytes) :
  octet_text a → octet_text b → octet_text c → octet_text d →
  ngx_inet_addr (quad_text a b c d)
  = of_bytes (dec_value 0 a) (dec_value 0 b) (dec_value 0 c) (dec_value 0 d).
Proof.
  intros Ha Hb Hc Hd. unfold ngx_inet_addr, quad_text.
  pose proof (octet_range a Ha) as Ra. pose proof (octet_range b Hb) as Rb. pose proof (octet_range c Hc) as Rc.
  pose proof (octet_range d Hd) as Rd. rewrite <- (htonl_of_bytes _ _ _ _ Ra Rb Rc Rd). unfold is_byte in *.
  rewrite inet_digits by (apply Ha || lia). cbn [inet_addr_loop Z.geb Z.leb Z.compare andb Pos.compare Pos.compare_cont Z.eqb Pos.eqb].
  rewrite inet_digits by (apply Hb || lia). cbn [inet_addr_loop Z.geb Z.leb Z.compare andb Pos.compare Pos.compare_cont Z.eqb Pos.eqb].
  rewrite inet_digits by (apply Hc || lia). cbn [inet_addr_loop Z.geb Z.leb Z.compare andb Pos.compare Pos.compare_cont Z.eqb Pos.eqb].
  rewrite <- (app_nil_r d) at 1. rewrite inet_digits by (apply Hd || lia). cbn [inet_addr_loop]. change (0 + 1 + 1 + 1 =? 3) with true. cbv iota.
  f_equal. unfold wrap_u, of_bytes. rewrite !Z.shiftl_mul_pow2 by lia.
  rewrite (Z.mod_small (0 * 2 ^ 8 + _)) by lia. rewrite (Z.mod_small ((0 * 2 ^ 8 + _) * 2 ^ 8 + _)) by lia.
  rewrite (Z.mod_small (((0 * 2 ^ 8 + _) * 2 ^ 8 + _) * 2 ^ 8 + _)) by lia. rewrite Z.mod_small by lia. lia.
Qed.

(** The whole behaviour of [ngx_inet_addr]. *)
Lemma inet_loop_inv (text : bytes) (addr octet n : Z) :
  0 <= octet <= 255 → inet_addr_loop text addr octet n ≠ INADDR_NONE →
  ∃ ds rest, text = ds ++ rest ∧ Forall is_digit ds ∧ dec_value octet ds <= 255
    ∧ match rest with [] => n = 3 | c :: rest => c = "."%ch
        ∧ inet_addr_loop rest (wrap_u 32 (Z.shiftl addr 8 + dec_value octet ds)) 0 (n + 1) ≠ INADDR_NONE end.
Proof.
  revert octet. induction text as [|c text IH]; intros octet Ho H; cbn [inet_addr_loop] in H.
  - exists [], []. split_and!; [done|done|cbn; lia|]. by destruct (Z.eqb_spec n 3).
  - destruct ((c >=? 48) && (c <=? 57)) eqn:E.
    + destruct (Z.gtb_spec (octet * 10 + (c - 48)) 255); [done|].
      destruct (IH (octet * 10 + (c - 48)) ltac:(lia) H) as (ds & rest & -> & Hd & Hv & Hr).
      exists (c :: ds), rest. split_and!; [done|constructor; [unfold is_digit; lia|done]|by rewrite dec_value_cons|].
      by rewrite dec_value_cons.
    + destruct (Z.eqb_spec c 46) as [->|]; [|done]. exists [], (46 :: text). split_and!; try done. cbn. lia.
Qed.

Lemma inet_loop_many (text : bytes) (addr octet n : Z) : 3 < n → inet_addr_loop text addr octet n = INADDR_NONE.
Proof.
  revert addr octet n. induction text as [|c text IH]; intros addr octet n Hn; cbn [inet_addr_loop].
  - by rewrite (proj2 (Z.eqb_neq n 3)) by lia.
  - repeat case_match; try done; apply IH; lia.
Qed.

Lemma inet_addr_quads (text : bytes) :
  ngx_inet_addr text ≠ INADDR_NONE →
  ∃ a b c d, text = quad_text a b c d ∧ octet_text a ∧ octet_text b ∧ octet_text c ∧ octet_text d.
Proof.
  intros H. unfold ngx_inet_addr in H.
  destruct (inet_loop_inv _ _ 0 _ ltac:(lia) H) as (a & [|x r1] & -> & A1 & A2 & H1); [done|]. destruct H1 as [-> H1].
  destruct (inet_loop_inv _ _ 0 _ ltac:(lia) H1) as (b & [|x r2] & -> & B1 & B2 & H2); [done|]. destruct H2 as [-> H2].
  destruct (inet_loop_inv _ _ 0 _ ltac:(lia) H2) as (c & [|x r3] & -> & C1 & C2 & H3); [done|]. destruct H3 as [-> H3].
  destruct (inet_loop_inv _ _ 0 _ ltac:(lia) H3) as (d & [|x r4] & -> & D1 & D2 & H4).
  - exists a, b, c, d. rewrite app_nil_r. by split_and!.
  - destruct H4 as [_ H4]. by rewrite inet_loop_many in H4.
Qed.

Lemma sprintf_d_dec (n : Z) :
  0 <= n < 2 ^ 63 → sprintf_d n ≠ [] ∧ Forall is_digit (sprintf_d n) ∧ dec_value 0 (sprintf_d n) = n.
Proof.
  intros Hn. destruct (sprintf_num_digits_dec n) as (H1 & H2 & H3 & H4); [lia|]. unfold sprintf_d.
  rewrite ngx_sprintf_num_fits by (unfold NGX_MAX_INT_T_VALUE, NGX_INT64_LEN in *; lia).
  replace (Z.to_nat (0 - _)) with 0%nat by lia. done.
Qed.

Lemma sprintf_d_octet (n : Z) : is_byte n → octet_text (sprintf_d n) ∧ dec_value 0 (sprintf_d n) = n.
Proof. unfold is_byte. intros Hn. destruct (sprintf_d_dec n) as (_ & H & E); [lia|]. split; [split; [done|lia]|done]. Qed.

Lemma sprintf_quad_text (a b c d : Z) (rest : bytes) :
  sprintf_quad (a :: b :: c :: d :: rest) = quad_text (sprintf_d a) (sprintf_d b) (sprintf_d c) (sprintf_d d).
Proof. done. Qed.

Lemma inet_addr_sprintf (a b c d : Z) (rest : bytes) :
  is_byte a → is_byte b → is_byte c → is_byte d →
  ngx_inet_addr (sprintf_quad (a :: b :: c :: d :: rest)) = of_bytes a b c d.
Proof.
  intros Ha Hb Hc Hd. rewrite sprintf_quad_text.
  destruct (sprintf_d_octet a Ha) as [A1 A2], (sprintf_d_octet b Hb) as [B1 B2], (sprintf_d_octet c Hc) as [C1 C2], (sprintf_d_octet d Hd) as [D1 D2].
  rewrite inet_addr_quad by done. by rewrite A2, B2, C2, D2.
Qed.

(** * IPv6: memory *)

(** What the loop keeps: the bytes that were written belong to the groups that are done. *)
Record v6_ok (s : v6_state) : Prop := {
  vo_groups : 1 <= groups s <= 8;
  vo_out : Z.of_nat (length (out s)) = 2 * (8 - groups s);
  vo_bytes : Forall is_byte (out s);
  vo_zero : match zero s with Some z => (z <= length (out s))%nat | None => True end
}.

Lemma put_word_ok hi lo o :
  (length o + 2 <= 16)%nat → put_word hi lo o = Some (o ++ [u_char hi; u_char lo]).
Proof. intros H. unfold put_word. by rewrite (proj2 (Nat.ltb_ge _ _)) by lia. Qed.

Lemma put_word_bytes hi lo o : Forall is_byte o → Forall is_byte (o ++ [u_char hi; u_char lo]).
Proof. intros H. apply Forall_app. split; [done|]. repeat constructor; apply u_char_byte. Qed.

Definition v6_result (r : option (option bytes)) : Prop :=
  ∃ o, r = Some o ∧ ∀ a, o = Some a → length a = 16%nat ∧ Forall is_byte a.

Lemma v6_finish_ok s : v6_ok s → v6_result (v6_finish s).
Proof.
  intros [G O B Z0]. unfold v6_finish. destruct ((nibbles s =? 0) && _); [by exists None|]. rewrite put_word_ok by lia. cbn [mbind option_bind].
  pose proof (put_word_bytes (Z.shiftr (word s) 8) (Z.land (word s) 0xff) _ B) as B'.
  set (o := out s ++ _) in *. assert (L : length o = (length (out s) + 2)%nat) by (unfold o; rewrite length_app; done).
  destruct (Z.eqb_spec (groups s - 1) 0) as [E|E]; cbn [negb].
  - destruct (zero s) as [z|]; [by exists None|]. exists (Some o). split; [done|]. intros a [= <-]. split; [lia|done].
  - destruct (zero s) as [z|]; [|by exists None]. rewrite (proj2 (Nat.ltb_ge _ _)) by lia.
    eexists. split; [done|]. intros a [= <-]. rewrite !length_app, length_replicate, length_take, length_drop. split; [lia|].
    rewrite <- (take_drop z o) in B'. apply Forall_app in B' as [B1 B2]. apply Forall_app. split; [done|].
    apply Forall_app. split; [by apply Forall_replicate|done].
Qed.

Lemma v6_loop_ok p s : v6_ok s → v6_result (v6_loop p s).
Proof.
  revert s. induction p as [|c p IH]; intros s K; cbn [v6_loop]; [by apply v6_finish_ok|]. pose proof K as [G O B Z0].
  assert (Err : v6_result (Some None)) by (by exists None).
  destruct (c =? 58).
  - destruct (negb (nibbles s =? 0)).
    + rewrite put_word_ok by lia. cbn [mbind option_bind]. destruct (Z.eqb_spec (groups s - 1) 0); cbn [negb]; [done|].
      apply IH. split; cbn; [lia|rewrite length_app; cbn; lia|by apply put_word_bytes|].
      destruct (zero s); [rewrite length_app; lia|done].
    + destruct (zero s) eqn:Ez; [done|]. apply IH. by split; cbn.
  - destruct ((c =? 46) && _).
    + destruct (digit s); [|done]. destruct (Z.ltb_spec (groups s) 2); [done|]. cbv zeta. destruct (_ =? INADDR_NONE); [done|].
      rewrite put_word_ok by lia. cbn [mbind option_bind]. apply v6_finish_ok. split; cbn; [lia|rewrite length_app; cbn; lia|by apply put_word_bytes|].
      destruct (zero s); [rewrite length_app; lia|done].
    + repeat case_match; try done; apply IH; by split; cbn.
Qed.

Lemma v6_start_ok : v6_ok (mk_v6 [] None None 0 0 8).
Proof. split; cbn; [lia|lia|constructor|done]. Qed.

(** * IPv6: reading what was printed *)

Definition is_word (w : Z) : Prop := 0 <= w < 65536.

Definition word_bytes (w : Z) : bytes := [w / 256; w mod 256].

Definition be_bytes (ws : list Z) : bytes := concat (map word_bytes ws).

Lemma be_bytes_length ws : length (be_bytes ws) = (2 * length ws)%nat.
Proof. induction ws as [|w ws IH]; [done|]. change (be_bytes (w :: ws)) with (word_bytes w ++ be_bytes ws). rewrite length_app, IH. cbn. lia. Qed.

Lemma be_bytes_app ws vs : be_bytes (ws ++ vs) = be_bytes ws ++ be_bytes vs.
Proof. unfold be_bytes. by rewrite map_app, concat_app. Qed.

Lemma be_bytes_zeros n : be_bytes (replicate n 0) = replicate (2 * n) 0.
Proof.
  induction n as [|n IH]; [done|]. replace (2 * S n)%nat with (S (S (2 * n))) by lia. cbn [replicate].
  change (be_bytes (0 :: replicate n 0)) with (0 :: 0 :: be_bytes (replicate n 0)). by rewrite IH.
Qed.

Lemma words_of_bytes (n : nat) (p : bytes) :
  length p = (2 * n)%nat → Forall is_byte p → ∃ ws, p = be_bytes ws ∧ length ws = n ∧ Forall is_word ws.
Proof.
  revert p. induction n as [|n IH]; intros p L H; [by destruct p; [exists []|]|].
  destruct p as [|a [|b p]]; cbn in L; try lia. apply Forall_cons in H as [Ha [Hb H]%Forall_cons].
  destruct (IH p ltac:(lia) H) as (ws & -> & <- & Hw). exists (a * 256 + b :: ws). unfold is_byte in *. split_and!; [|done|].
  - change (be_bytes (a * 256 + b :: ws)) with ((a * 256 + b) / 256 :: (a * 256 + b) mod 256 :: be_bytes ws).
    rewrite Z.div_add_l, (Z.div_small b), Z.add_0_r, Z.add_comm, Z.mod_add, Z.mod_small by lia. done.
  - constructor; [unfold is_word; lia|done].
Qed.

Definition set_word (k w : Z) (s : v6_state) : v6_state := mk_v6 (out s) (zero s) (digit s) k w (groups s).

(** A hexadecimal digit. *)
Lemma v6_nibble c v p s :
  hex_val c = Some v → nibbles s + 1 <= 4 → v6_loop (c :: p) s = v6_loop p (set_word (nibbles s + 1) (word s * 16 + v) s).
Proof.
  intros Hv Hn. assert (Hc : (c =? 58) = false ∧ (c =? 46) = false).
  { split; apply Z.eqb_neq; intros ->; by vm_compute in Hv. }
  destruct Hc as [E1 E2]. cbn [v6_loop]. rewrite E1, E2. cbn [andb]. destruct (Z.gtb_spec (nibbles s + 1) 4); [lia|].
  unfold hex_val in Hv. cbv zeta in *. destruct ((c >=? 48) && (c <=? 57)); [by injection Hv as <-|].
  change (Z.lor c 32) with (Z.lor c 0x20) in Hv. destruct ((u_char (Z.lor c 0x20) >=? 97) && (u_char (Z.lor c 0x20) <=? 102)); [|done].
  injection Hv as <-. unfold set_word. do 2 f_equal. lia.
Qed.

Lemma v6_nibbles cs vs p s :
  Forall2 (fun c v => hex_val c = Some v) cs vs → nibbles s + Z.of_nat (length cs) <= 4 →
  v6_loop (cs ++ p) s
  = v6_loop p (set_word (nibbles s + Z.of_nat (length cs)) (foldl (fun a v => a * 16 + v) (word s) vs) s).
Proof.
  intros H. revert s. induction H as [|c v cs vs Hc _ IH]; intros s L; cbn [length app foldl] in *.
  - rewrite Z.add_0_r. by destruct s.
  - rewrite (v6_nibble c v) by (done || lia). rewrite IH by (cbn; lia). unfold set_word. cbn. do 2 f_equal. lia.
Qed.

Lemma sprintf_x_digits (w : Z) :
  is_word w → ∃ vs, Forall2 (fun c v => hex_val c = Some v) (sprintf_x w) vs ∧ (1 <= length (sprintf_x w) <= 4)%nat
    ∧ foldl (fun a v => a * 16 + v) 0 vs = w.
Proof.
  unfold is_word. intros Hw. unfold sprintf_x.
  assert (E : sprintf_num_digits 1 w = sprintf_digits 4 16 (hex_digit hex_lower) w []).
  { unfold sprintf_num_digits. cbn [Z.eqb Pos.eqb]. apply sprintf_digits_fuel; [lia|change (16 ^ Z.of_nat 4) with 65536; lia|unfold NGX_INT64_LEN; lia]. }
  destruct (sprintf_digits_value 16 (hex_digit hex_lower) 4 w []) as (vs & E2 & Hne & Hvs & Hv & Hl);
    [lia|change (16 ^ Z.of_nat 4) with 65536; lia|lia|].
  rewrite app_nil_r in E2. rewrite E2 in E.
  rewrite ngx_sprintf_num_fits by (rewrite E, length_map; unfold NGX_MAX_INT_T_VALUE; lia).
  replace (Z.to_nat (0 - _)) with 0%nat by lia. cbn [replicate app]. rewrite E, length_map. exists vs. split_and!; [|destruct vs; cbn in *; [done|lia]|lia|done].
  clear - Hvs. induction Hvs as [|v vs Hv _ IH]; cbn; constructor; [by apply hex_val_digit|done].
Qed.

Lemma v6_hex (w : Z) p s :
  is_word w → nibbles s = 0 → word s = 0 →
  ∃ k, 1 <= k <= 4 ∧ v6_loop (sprintf_x w ++ p) s = v6_loop p (set_word k w s).
Proof.
  intros Hw E1 E2. destruct (sprintf_x_digits w Hw) as (vs & H & L & V). exists (Z.of_nat (length (sprintf_x w))). split; [lia|].
  rewrite (v6_nibbles _ vs) by (done || lia). by rewrite E1, E2, V.
Qed.

(** A group and the colon behind it. *)
Lemma word_put (w : Z) : is_word w → [u_char (Z.shiftr w 8); u_char (Z.land w 0xff)] = word_bytes w.
Proof.
  unfold is_word, word_bytes, u_char. intros H. rewrite Z.shiftr_div_pow2 by lia. change 0xff with (Z.ones 8).
  rewrite Z.land_ones by lia. change (2 ^ 8) with 256. rewrite Z.mod_mod by lia. f_equal. rewrite Z.mod_small; [done|].
  split; [apply Z.div_pos; lia|apply Z.div_lt_upper_bound; lia].
Qed.

Definition fresh (s : v6_state) : Prop := nibbles s = 0 ∧ word s = 0 ∧ v6_ok s.

Lemma v6_group (w : Z) p s :
  is_word w → fresh s → 1 < groups s →
  v6_loop (sprintf_x w ++ ":"%ch :: p) s = v6_loop p (mk_v6 (out s ++ word_bytes w) (zero s) (Some p) 0 0 (groups s - 1)).
Proof.
  intros Hw (E1 & E2 & [G O _ _]) Hg. destruct (v6_hex w (58 :: p) s Hw E1 E2) as (k & Hk & ->). cbn [v6_loop set_word nibbles].
  change (58 =? 58) with true. cbv iota. rewrite (proj2 (Z.eqb_neq k 0)) by lia. cbn [negb word out set_word groups zero].
  rewrite put_word_ok by (cbn; lia). cbn [mbind option_bind groups]. rewrite (proj2 (Z.eqb_neq _ 0)) by lia. cbn [negb zero]. by rewrite word_put.
Qed.

Lemma fresh_next s w d :
  fresh s → is_word w → 1 < groups s → fresh (mk_v6 (out s ++ word_bytes w) (zero s) d 0 0 (groups s - 1)).
Proof.
  intros (_ & _ & [G O B Z0]) Hw Hg. split; [done|]. split; [done|]. unfold is_word in Hw. split; cbn; [lia|rewrite length_app; cbn; lia| |].
  - apply Forall_app. split; [done|]. unfold word_bytes, is_byte. constructor; [|constructor; [|constructor]].
    + split; [apply Z.div_pos; lia|apply Z.div_lt_upper_bound; lia].
    + apply Z.mod_pos_bound. lia.
  - destruct (zero s); [rewrite length_app; lia|done].
Qed.

Definition colon_text (ws : list Z) : bytes := concat (map (fun w => sprintf_x w ++ bs ":") ws).

Lemma v6_groups (ws : list Z) p s :
  Forall is_word ws → fresh s → Z.of_nat (length ws) < groups s →
  v6_loop (colon_text ws ++ p) s
  = v6_loop p (mk_v6 (out s ++ be_bytes ws) (zero s) (match ws with [] => digit s | _ => Some p end) 0 0
                 (groups s - Z.of_nat (length ws))).
Proof.
  intros H. revert s. induction H as [|w ws Hw _ IH]; intros s F L.
  - destruct F as (E1 & E2 & _). cbn. rewrite app_nil_r, Z.sub_0_r, <- E1, <- E2 at 1. rewrite E1 at 1. destruct s; cbn in *. by subst.
  - change (colon_text (w :: ws)) with ((sprintf_x w ++ bs ":") ++ colon_text ws). rewrite <- !app_assoc.
    cbn [length] in L. change (bs ":" ++ colon_text ws ++ p) with (58 :: colon_text ws ++ p).
    rewrite v6_group by (done || lia). rewrite IH; [|by apply fresh_next; [done..|lia]|cbn; lia]. cbn [out zero groups digit length].
    rewrite <- app_assoc. change (word_bytes w ++ be_bytes ws) with (be_bytes (w :: ws)). f_equal. f_equal; [by destruct ws|lia].
Qed.

(** The words with colons between them. *)
Fixpoint join_text (ws : list Z) : bytes :=
  match ws with
  | [] => []
  | [w] => sprintf_x w
  | w :: ws => sprintf_x w ++ bs ":" ++ join_text ws
  end.

Lemma join_snoc ws w : join_text (ws ++ [w]) = colon_text ws ++ sprintf_x w.
Proof.
  induction ws as [|v ws IH]; [done|]. cbn [app]. change (colon_text (v :: ws)) with ((sprintf_x v ++ bs ":") ++ colon_text ws).
  rewrite <- app_assoc, <- app_assoc, <- IH. by destruct (ws ++ [w]) eqn:E; [destruct ws|].
Qed.

(** The last group, when all eight are there and when some were left out. *)
Lemma v6_last (w : Z) s :
  is_word w → fresh s →
  v6_loop (sprintf_x w) s
  = match zero s with
    | None => Some (if groups s =? 1 then Some (out s ++ word_bytes w) else None)
    | Some z => Some (if groups s =? 1 then None else
                  let o := out s ++ word_bytes w in
                  Some (take z o ++ replicate (Z.to_nat ((groups s - 1) * 2)) 0 ++ drop z o))
    end.
Proof.
  intros Hw (E1 & E2 & [G O _ _]). rewrite <- (app_nil_r (sprintf_x w)). destruct (v6_hex w [] s Hw E1 E2) as (k & Hk & ->).
  cbn [v6_loop]. unfold v6_finish. cbn [set_word nibbles zero word out groups]. rewrite (proj2 (Z.eqb_neq k 0)) by lia. cbn [andb].
  rewrite put_word_ok by lia. cbn [mbind option_bind]. rewrite word_put by done.
  destruct (Z.eqb_spec (groups s) 1) as [->|Hg]; [by destruct (zero s)|].
  rewrite (proj2 (Z.eqb_neq (groups s - 1) 0)) by lia. cbn [negb]. destruct (zero s); [|done].
  by rewrite (proj2 (Nat.ltb_ge _ _)) by (rewrite length_app; cbn [length word_bytes]; lia).
Qed.

Lemma be_bytes_are_bytes ws : Forall is_word ws → Forall is_byte (be_bytes ws).
Proof.
  induction 1 as [|v us Hv _ IH]; [done|]. unfold is_word in Hv. change (be_bytes (v :: us)) with (v / 256 :: v mod 256 :: be_bytes us).
  unfold is_byte. constructor; [split; [apply Z.div_pos; lia|apply Z.div_lt_upper_bound; lia]|]. constructor; [apply Z.mod_pos_bound; lia|done].
Qed.

(** The state after some groups, from the beginning of the text. *)
Lemma fresh_groups ws z d :
  Forall is_word ws → (length ws < 8)%nat → match z with Some z => (z <= 2 * length ws)%nat | None => True end →
  fresh (mk_v6 (be_bytes ws) z d 0 0 (8 - Z.of_nat (length ws))).
Proof.
  intros H L Hz. split; [done|]. split; [done|]. split; cbn; rewrite ?be_bytes_length; [lia|lia|by apply be_bytes_are_bytes|done].
Qed.

(** A text that begins with a group is read from its first byte on. *)
Lemma v6_begin w p :
  is_word w → ngx_inet6_addr (sprintf_x w ++ p) = v6_loop (sprintf_x w ++ p) (mk_v6 [] None None 0 0 8).
Proof.
  intros Hw. destruct (sprintf_x_digits w Hw) as (vs & F & Ln & _). destruct (sprintf_x w) as [|c r]; [cbn in Ln; lia|].
  inversion F as [|? ? ? ? Hv]; subst. cbn [app ngx_inet6_addr]. destruct (Z.eqb_spec c 58) as [->|]; [by vm_compute in Hv|done].
Qed.

Lemma fresh_start : fresh (mk_v6 [] None None 0 0 8).
Proof. apply (fresh_groups [] None None); [constructor|cbn; lia|done]. Qed.

Lemma v6_full (ws : list Z) :
  length ws = 8%nat → Forall is_word ws → ngx_inet6_addr (join_text ws) = Some (Some (be_bytes ws)).
Proof.
  intros L H. destruct (exists_last (l := ws)) as (us & w & ->); [by destruct ws|].
  rewrite length_app in L. cbn in L. apply Forall_app in H as [Hu [Hw _]%Forall_cons]. rewrite join_snoc.
  transitivity (v6_loop (colon_text us ++ sprintf_x w) (mk_v6 [] None None 0 0 8)).
  - destruct us as [|v us]; [cbn in L; lia|]. change (colon_text (v :: us)) with ((sprintf_x v ++ bs ":") ++ colon_text us).
    rewrite <- !app_assoc. apply v6_begin. by apply Forall_cons in Hu as [].
  - rewrite v6_groups by (done || apply fresh_start || cbn; lia). cbn [out zero digit groups app].
    rewrite v6_last; [|done|by apply fresh_groups; [|lia|]]. cbn [out zero groups].
    replace (8 - Z.of_nat (length us)) with 1 by lia. cbn. by rewrite be_bytes_app.
Qed.

(** The groups around a gap: the second colon, and what follows. *)
Lemma v6_gap_rest pre m post d :
  Forall is_word pre → Forall is_word post → (length pre + m + length post = 8)%nat → (2 <= m)%nat →
  v6_loop (":"%ch :: join_text post) (mk_v6 (be_bytes pre) None d 0 0 (8 - Z.of_nat (length pre)))
  = Some (Some (be_bytes (pre ++ replicate m 0 ++ post))).
Proof.
  intros Hpre Hpost L Hm. cbn [v6_loop nibbles zero out word groups]. change (58 =? 58) with true. change (0 =? 0) with true. cbn [negb].
  rewrite be_bytes_length, !be_bytes_app, be_bytes_zeros. destruct (decide (post = [])) as [->|Hne].
  - cbn [join_text v6_loop length] in *. unfold v6_finish. cbn [nibbles zero word out groups]. change (0 =? 0) with true. cbn [andb].
    rewrite put_word_ok by (rewrite be_bytes_length; lia). cbn [mbind option_bind]. rewrite (proj2 (Z.eqb_neq _ 0)) by lia. cbn [negb].
    rewrite (proj2 (Nat.ltb_ge _ _)) by (rewrite length_app, be_bytes_length; cbn; lia). do 2 f_equal.
    rewrite take_app_le, drop_app_le by (rewrite be_bytes_length; lia). rewrite take_ge, drop_ge by (rewrite be_bytes_length; lia).
    replace (2 * m)%nat with (Z.to_nat ((8 - Z.of_nat (length pre) - 1) * 2) + 2)%nat by lia. rewrite replicate_add. cbn. by rewrite app_nil_r.
  - destruct (exists_last Hne) as (us & w & ->). rewrite length_app in L. cbn in L. apply Forall_app in Hpost as [Hu [Hw _]%Forall_cons].
    rewrite join_snoc. rewrite v6_groups; [|done|by apply fresh_groups; [|lia|lia]|cbn; lia]. cbn [out zero digit groups].
    assert (E : be_bytes pre ++ be_bytes us = be_bytes (pre ++ us)) by (by rewrite be_bytes_app). rewrite E.
    replace (8 - Z.of_nat (length pre) - Z.of_nat (length us)) with (8 - Z.of_nat (length (pre ++ us))) by (rewrite length_app; lia).
    rewrite v6_last; [|done|apply fresh_groups; rewrite ?length_app; [by apply Forall_app|lia|lia]]. cbn [out zero groups]. rewrite length_app.
    rewrite (proj2 (Z.eqb_neq _ 1)) by lia. do 2 f_equal. rewrite <- E, be_bytes_app, <- app_assoc.
    rewrite take_app_le, drop_app_le by (rewrite be_bytes_length; lia). rewrite take_ge, drop_ge by (rewrite be_bytes_length; lia).
    replace (Z.to_nat _) with (2 * m)%nat by lia. cbn [app]. done.
Qed.

Lemma v6_gap pre m post :
  Forall is_word pre → Forall is_word post → (length pre + m + length post = 8)%nat → (2 <= m)%nat →
  ngx_inet6_addr ((if decide (pre = []) then bs ":" else []) ++ colon_text pre ++ bs ":" ++ join_text post)
  = Some (Some (be_bytes (pre ++ replicate m 0 ++ post))).
Proof.
  intros Hpre Hpost L Hm. rewrite <- (v6_gap_rest pre m post (match pre with [] => None | _ => Some (":"%ch :: join_text post) end)) by done.
  destruct pre as [|w pre]; [done|]. rewrite decide_False by done. rewrite app_nil_l.
  change (colon_text (w :: pre)) with ((sprintf_x w ++ bs ":") ++ colon_text pre). rewrite <- !app_assoc.
  rewrite v6_begin by (by apply Forall_cons in Hpre as []). rewrite !app_assoc.
  change ((sprintf_x w ++ bs ":") ++ colon_text pre) with (colon_text (w :: pre)). rewrite <- app_assoc.
  rewrite v6_groups by (done || apply fresh_start || cbn; cbn in L; lia). done.
Qed.

(** An IPv4 address at the end. *)
Lemma sprintf_d_short (n : Z) : is_byte n → (1 <= length (sprintf_d n) <= 3)%nat.
Proof. intros Hn. apply (range_check_prop 256 (fun n => (1 <= length (sprintf_d n) <= 3)%nat)); [vm_compute; reflexivity|exact Hn]. Qed.

Lemma digits_hex cs : Forall is_digit cs → ∃ vs, Forall2 (fun c v => hex_val c = Some v) cs vs.
Proof.
  induction 1 as [|c cs Hc _ [vs IH]]; [by exists []|]. exists (c - 48 :: vs). constructor; [|done]. unfold is_digit in Hc. unfold hex_val.
  by rewrite (proj2 (Z.geb_le c 48)), (proj2 (Z.leb_le c 57)) by lia.
Qed.

Lemma ntohl_bytes a b c d :
  is_byte a → is_byte b → is_byte c → is_byte d →
  let w := ntohl (of_bytes a b c d) in
  u_char (Z.land (Z.shiftr w 24) 0xff) = a ∧ u_char (Z.land (Z.shiftr w 16) 0xff) = b
  ∧ u_char (Z.shiftr w 8) = c ∧ u_char (Z.land w 0xff) = d.
Proof.
  intros Ha Hb Hc Hd. unfold ntohl. rewrite htonl_of_bytes by done. unfold is_byte, u_char in *. change 0xff with (Z.ones 8).
  rewrite !Z.land_ones, !Z.shiftr_div_pow2 by lia. change (2 ^ 8) with 256. change (2 ^ 16) with 65536. change (2 ^ 24) with 16777216.
  unfold of_bytes. split_and!; Z.to_euclidean_division_equations; lia.
Qed.

Lemma v6_quad a b c d z s :
  is_byte a → is_byte b → is_byte c → is_byte d →
  fresh s → digit s = Some (sprintf_quad [a; b; c; d]) → zero s = Some z → 2 < groups s →
  v6_loop (sprintf_quad [a; b; c; d]) s
  = Some (if of_bytes a b c d =? INADDR_NONE then None else
          let o := out s ++ [a; b; c; d] in Some (take z o ++ replicate (Z.to_nat ((groups s - 2) * 2)) 0 ++ drop z o)).
Proof.
  intros Ha Hb Hc Hd (E1 & E2 & [G O _ _]) Edi Ez Hg.
  pose proof (sprintf_d_short a Ha) as La. destruct (sprintf_d_octet a Ha) as [[Da _] _]. destruct (digits_hex _ Da) as [vs F].
  rewrite sprintf_quad_text. unfold quad_text. rewrite (v6_nibbles _ vs) by (done || lia).
  set (k := nibbles s + _). assert (Hk : k <> 0) by (unfold k; lia). clearbody k. cbn [v6_loop set_word nibbles digit groups].
  change (46 =? 58) with false. change (46 =? 46) with true. cbv iota. rewrite (proj2 (Z.eqb_neq k 0)) by done. cbn [negb andb].
  rewrite Edi. destruct (Z.ltb_spec (groups s) 2); [lia|]. cbv zeta. rewrite inet_addr_sprintf by done.
  destruct (of_bytes a b c d =? INADDR_NONE); [done|]. destruct (ntohl_bytes a b c d Ha Hb Hc Hd) as (W1 & W2 & W3 & W4).
  cbn [out zero set_word]. rewrite put_word_ok by lia. cbn [mbind option_bind]. rewrite W1, W2. unfold v6_finish. cbn [nibbles zero out word groups].
  rewrite (proj2 (Z.eqb_neq k 0)) by done. cbn [andb]. rewrite put_word_ok by (rewrite length_app; cbn; lia). cbn [mbind option_bind].
  rewrite W3, W4, Ez. rewrite (proj2 (Z.eqb_neq (groups s - 1 - 1) 0)) by lia. cbn [negb]. rewrite <- app_assoc. cbn [app].
  rewrite (proj2 (Nat.ltb_ge _ _)) by (rewrite length_app; cbn [length]; lia). do 6 f_equal. lia.
Qed.

Lemma v6_mapped mid m a b c d :
  Forall is_word mid → is_byte a → is_byte b → is_byte c → is_byte d → (m + length mid = 6)%nat → (0 < m)%nat →
  ngx_inet6_addr (bs "::" ++ colon_text mid ++ sprintf_quad [a; b; c; d])
  = Some (if of_bytes a b c d =? INADDR_NONE then None else Some (be_bytes (replicate m 0 ++ mid) ++ [a; b; c; d])).
Proof.
  intros Hm Ha Hb Hc Hd L Hp. cbn [bs map ngx_inet6_addr app]. change (ngx_inet6_addr (58 :: 58 :: ?x)) with (v6_loop (58 :: x) (mk_v6 [] None None 0 0 8)).
  change (bs "::" ++ ?x) with (58 :: 58 :: x). change (ngx_inet6_addr (58 :: 58 :: ?x)) with (v6_loop (58 :: x) (mk_v6 [] None None 0 0 8)).
  set (q := sprintf_quad [a; b; c; d]).
  assert (E : v6_loop (58 :: colon_text mid ++ q) (mk_v6 [] None None 0 0 8)
              = v6_loop q (mk_v6 (be_bytes mid) (Some 0%nat) (Some q) 0 0 (8 - Z.of_nat (length mid)))).
  { cbn [v6_loop nibbles zero out word groups length]. change (58 =? 58) with true. change (0 =? 0) with true. cbn [negb].
    rewrite v6_groups by (first [done|apply (fresh_groups [] (Some 0%nat)); [constructor|cbn; lia|lia]|cbn; lia]). cbn [out zero digit groups app].
    by destruct mid. }
  rewrite E. rewrite (v6_quad a b c d 0) by (first [done|apply fresh_groups; [done|lia|lia]|cbn; lia]). cbn [out groups take drop app].
  destruct (_ =? INADDR_NONE); [done|]. rewrite be_bytes_app, be_bytes_zeros, <- app_assoc. cbv zeta.
  by replace (Z.to_nat _) with (2 * m)%nat by lia.
Qed.

(** * IPv6: printing *)

(** A run of zero words, or none. *)
Definition zero_run (ws : list Z) (z m : Z) : Prop :=
  z = -1 ∧ m = 1
  ∨ ∃ pre r post, ws = pre ++ replicate r 0 ++ post ∧ z = 2 * Z.of_nat (length pre) ∧ m = Z.of_nat r ∧ (2 <= r)%nat.

Lemma word_zero w : is_word w → negb (w / 256 =? 0) || negb (w mod 256 =? 0) = negb (w =? 0).
Proof.
  unfold is_word. intros H. destruct (Z.eqb_spec w 0) as [->|Hn]; [done|].
  destruct (Z.eqb_spec (w / 256) 0), (Z.eqb_spec (w mod 256) 0); try done. exfalso. Z.to_euclidean_division_equations. lia.
Qed.

Lemma zero_scan_run fin c todo z last m :
  Forall is_word todo → zero_run (fin ++ replicate c 0 ++ todo) z m → 1 <= m →
  (c ≠ 0%nat → last = 2 * Z.of_nat (length fin)) →
  let '(z', m') := zero_scan (be_bytes todo) (2 * Z.of_nat (length fin + c)) z last m (Z.of_nat c) in
  zero_run (fin ++ replicate c 0 ++ todo) z' m'.
Proof.
  intros H. revert fin c z last m. induction H as [|w todo Hw _ IH]; intros fin c z last m R Hm Hl.
  - cbn. destruct (Z.ltb_spec m (Z.of_nat c)); [|done]. right. exists fin, c, []. split_and!; [done|apply Hl; lia|done|lia].
  - change (be_bytes (w :: todo)) with (w / 256 :: w mod 256 :: be_bytes todo). cbn [zero_scan]. rewrite word_zero by done.
    destruct (Z.eqb_spec w 0) as [->|Hn]; cbn [negb].
    + specialize (IH fin (S c) z (if Z.of_nat c =? 0 then 2 * Z.of_nat (length fin + c) else last) m).
      replace (fin ++ replicate (S c) 0 ++ todo) with (fin ++ replicate c 0 ++ 0 :: todo) in IH.
      2: { f_equal. rewrite replicate_S_end, <- app_assoc. done. }
      replace (2 * Z.of_nat (length fin + S c)) with (2 * Z.of_nat (length fin + c) + 2) in IH by lia.
      replace (Z.of_nat (S c)) with (Z.of_nat c + 1) in IH by lia. apply IH; [done..|]. intros _.
      destruct (Z.eqb_spec (Z.of_nat c) 0); [lia|apply Hl; lia].
    + set (zm := if m <? Z.of_nat c then (last, Z.of_nat c) else (z, m)).
      assert (V : zero_run (fin ++ replicate c 0 ++ w :: todo) zm.1 zm.2 ∧ 1 <= zm.2).
      { unfold zm. destruct (Z.ltb_spec m (Z.of_nat c)); [|done]. cbn. split; [|lia]. right. exists fin, c, (w :: todo). split_and!; [done|apply Hl; lia|done|lia]. }
      destruct zm as [z1 m1]. cbn in V. destruct V as [V V1]. specialize (IH (fin ++ replicate c 0 ++ [w]) 0%nat z1 last m1).
      replace ((fin ++ replicate c 0 ++ [w]) ++ replicate 0 0 ++ todo) with (fin ++ replicate c 0 ++ w :: todo) in IH by (by rewrite <- !app_assoc).
      replace (2 * Z.of_nat (length (fin ++ replicate c 0 ++ [w]) + 0)) with (2 * Z.of_nat (length fin + c) + 2) in IH
        by (rewrite !length_app, length_replicate; cbn; lia). apply IH; done.
Qed.

Lemma be_bytes_lookup ws j :
  Forall is_word ws → (j < length ws)%nat → be_bytes ws !!! (2 * j)%nat * 256 + be_bytes ws !!! (2 * j + 1)%nat = ws !!! j.
Proof.
  intros H. revert j. induction H as [|w ws Hw _ IH]; intros j Hj; [cbn in Hj; lia|].
  change (be_bytes (w :: ws)) with (w / 256 :: w mod 256 :: be_bytes ws). destruct j as [|j]; cbn.
  - pose proof (Z.div_mod w 256). lia.
  - replace (j + S (j + 0))%nat with (S (2 * j)) by lia. replace (S (2 * j) + 1)%nat with (S (2 * j + 1)) by lia. cbn. apply IH. cbn in Hj. lia.
Qed.

Lemma print_word ws j :
  Forall is_word ws → (j < length ws)%nat →
  be_bytes ws !!! Z.to_nat (2 * Z.of_nat j) * 256 + be_bytes ws !!! Z.to_nat (2 * Z.of_nat j + 1) = ws !!! j.
Proof.
  intros H Hj. replace (Z.to_nat (2 * Z.of_nat j)) with (2 * j)%nat by lia. replace (Z.to_nat (2 * Z.of_nat j + 1)) with (2 * j + 1)%nat by lia.
  by apply be_bytes_lookup.
Qed.

(** The words from the one at [j] on, when no run is ahead. *)
Lemma print_tail ws z m fuel j :
  Forall is_word ws → length ws = 8%nat → z < 2 * Z.of_nat j → (8 <= fuel + j)%nat →
  print_words fuel (be_bytes ws) z m 16 (2 * Z.of_nat j) = join_text (drop j ws).
Proof.
  intros H L. revert j. induction fuel as [|fuel IH]; intros j Hz Hf; [by rewrite drop_ge by lia|].
  cbn [print_words]. destruct (Z.ltb_spec (2 * Z.of_nat j) 16); [|by rewrite drop_ge by lia].
  rewrite (proj2 (Z.eqb_neq _ z)) by lia. rewrite print_word by (done || lia). destruct (lookup_lt_is_Some_2 ws j ltac:(lia)) as [w Ew].
  rewrite (drop_S _ _ _ Ew), (list_lookup_total_correct _ _ _ Ew). replace (2 * Z.of_nat j + 2) with (2 * Z.of_nat (S j)) by lia.
  rewrite IH by lia. destruct (Z.ltb_spec (2 * Z.of_nat j) 14).
  - destruct (drop (S j) ws) eqn:E; [|done]. apply (f_equal length) in E. rewrite length_drop in E. cbn in E. lia.
  - rewrite (drop_ge ws (S j)) by lia. cbn. by rewrite app_nil_r.
Qed.

(** The words up to a run, and the run. *)
Lemma print_run ws k m n fuel j :
  Forall is_word ws → (j <= k)%nat → (k < 8)%nat → 2 * Z.of_nat k < n → length ws = 8%nat →
  print_words (k - j + S fuel) (be_bytes ws) (2 * Z.of_nat k) m n (2 * Z.of_nat j)
  = colon_text (drop j (take k ws)) ++ bs ":" ++ print_words fuel (be_bytes ws) (2 * Z.of_nat k) m n (2 * Z.of_nat k + 2 * m).
Proof.
  intros H Hj Hk Hn L. remember (k - j)%nat as d eqn:Ed. revert j Hj Ed. induction d as [|d IH]; intros j Hj Ed; cbn [Nat.add print_words].
  - assert (j = k) as -> by lia. rewrite (proj2 (Z.ltb_lt _ _)) by lia. rewrite Z.eqb_refl, drop_ge by (rewrite length_take; lia).
    cbn [colon_text map concat app]. f_equal. f_equal. lia.
  - rewrite (proj2 (Z.ltb_lt _ _)) by lia. rewrite (proj2 (Z.eqb_neq _ _)) by lia. rewrite print_word by (done || lia).
    rewrite (proj2 (Z.ltb_lt (2 * Z.of_nat j) 14)) by lia. replace (2 * Z.of_nat j + 2) with (2 * Z.of_nat (S j)) by lia. rewrite (IH (S j)) by lia.
    destruct (lookup_lt_is_Some_2 ws j ltac:(lia)) as [w Ew]. rewrite (list_lookup_total_correct _ _ _ Ew).
    assert (Et : take k ws !! j = Some w) by (rewrite lookup_take_lt by lia; done). rewrite (drop_S _ _ _ Et).
    change (colon_text (w :: ?l)) with ((sprintf_x w ++ bs ":") ++ colon_text l). by rewrite <- !app_assoc.
Qed.

(** The two addresses whose texts end in [255.255.255.255], which [ngx_inet_addr] cannot
    tell from an error. *)
Definition unreadable : list bytes := [replicate 12 0 ++ replicate 4 255; replicate 10 0 ++ replicate 6 255].

Lemma of_bytes_none a b c d :
  is_byte a → is_byte b → is_byte c → is_byte d → of_bytes a b c d = INADDR_NONE → a = 255 ∧ b = 255 ∧ c = 255 ∧ d = 255.
Proof. unfold is_byte, of_bytes, INADDR_NONE. lia. Qed.

Lemma ntop_full ws :
  Forall is_word ws → length ws = 8%nat → print_words 8 (be_bytes ws) (-1) 1 16 0 = join_text ws.
Proof. intros H L. exact (print_tail ws (-1) 1 8 0 H L ltac:(lia) ltac:(lia)). Qed.

Lemma ntop_gap pre r post :
  Forall is_word (pre ++ replicate r 0 ++ post) → (length pre + r + length post = 8)%nat → (2 <= r)%nat →
  print_words 8 (be_bytes (pre ++ replicate r 0 ++ post)) (2 * Z.of_nat (length pre)) (Z.of_nat r) 16 0
  = colon_text pre ++ bs ":" ++ join_text post.
Proof.
  intros H L Hr. set (ws := pre ++ _) in *. assert (Lw : length ws = 8%nat) by (unfold ws; rewrite !length_app, length_replicate; lia).
  pose proof (print_run ws (length pre) (Z.of_nat r) 16 (7 - length pre) 0 H ltac:(lia) ltac:(lia) ltac:(lia) Lw) as E.
  replace (length pre - 0 + S (7 - length pre))%nat with 8%nat in E by lia. change (2 * Z.of_nat 0) with 0 in E. rewrite E, drop_0.
  replace (2 * Z.of_nat (length pre) + 2 * Z.of_nat r) with (2 * Z.of_nat (length pre + r)) by lia.
  rewrite print_tail by (done || lia). unfold ws. rewrite take_app_length. rewrite (app_assoc pre), drop_app_length' by (rewrite length_app, length_replicate; done). done.
Qed.

(** With the IPv4 form: the run is at the beginning. *)
Lemma ntop_mapped r post :
  Forall is_word (replicate r 0 ++ post) → (r + length post = 8)%nat → (5 <= r <= 7)%nat →
  print_words 8 (be_bytes (replicate r 0 ++ post)) 0 (Z.of_nat r) 12 0 = bs ":" ++ colon_text (take (6 - r) post).
Proof.
  intros H L Hr. set (ws := _ ++ _) in *. assert (Lw : length ws = 8%nat) by (unfold ws; rewrite length_app, length_replicate; lia).
  pose proof (print_run ws 0 (Z.of_nat r) 12 7 0 H ltac:(lia) ltac:(lia) ltac:(lia) Lw) as E. change (2 * Z.of_nat 0) with 0 in E.
  change (0 - 0 + 8)%nat with 8%nat in E. rewrite E. change (colon_text (drop 0 (take 0 ws))) with (@nil Z).
  rewrite app_nil_l. f_equal. cbn [print_words].
  destruct (Z.ltb_spec (0 + 2 * Z.of_nat r) 12).
  - assert (r = 5%nat) as -> by lia. destruct post as [|w post]; [cbn in L; lia|]. cbn [Nat.sub take]. change (0 + 2 * Z.of_nat 5) with (2 * Z.of_nat 5).
    rewrite print_word by (done || lia). change (ws !!! 5%nat) with w.
    change (colon_text (w :: take 0 post)) with ((sprintf_x w ++ bs ":") ++ []).
    rewrite <- app_assoc. f_equal.
  - by replace (6 - r)%nat with 0%nat by lia.
Qed.

Lemma take_be_bytes k ws : take (2 * k) (be_bytes ws) = be_bytes (take k ws).
Proof.
  revert k. induction ws as [|w ws IH]; intros k; [rewrite take_nil; apply take_nil|]. destruct k as [|k]; [done|].
  replace (2 * S k)%nat with (S (S (2 * k))) by lia. cbn [take]. change (be_bytes (w :: ?l)) with (w / 256 :: w mod 256 :: be_bytes l). cbn [take]. by rewrite IH.
Qed.

Lemma mapped_read r post :
  Forall is_word (replicate r 0 ++ post) → (r + length post = 8)%nat → (5 <= r <= 7)%nat →
  let p := be_bytes (replicate r 0 ++ post) in
  p ∉ unreadable → (r = 5%nat → p !!! 10%nat = 255 ∧ p !!! 11%nat = 255) →
  ngx_inet6_addr (bs "::" ++ colon_text (take (6 - r) post) ++ sprintf_quad (drop 12 p)) = Some (Some p).
Proof.
  intros H L Hr p Hu H5. assert (Hb : Forall is_byte p) by (by apply be_bytes_are_bytes).
  assert (Lp : length p = 16%nat) by (unfold p; rewrite be_bytes_length, length_app, length_replicate; lia).
  assert (E : p = be_bytes (replicate (6 `min` r) 0 ++ take (6 - r) post) ++ drop 12 p).
  { rewrite <- (take_drop 12 p) at 1. f_equal. unfold p. change 12%nat with (2 * 6)%nat. by rewrite take_be_bytes, take_app, take_replicate, length_replicate. }
  destruct (drop 12 p) as [|a [|b [|c [|d [|]]]]] eqn:Ed; try (apply (f_equal length) in Ed; rewrite length_drop, Lp in Ed; cbn in Ed; lia).
  pose proof Hb as Hb'. rewrite E in Hb'. apply Forall_app in Hb' as [_ Hq]. rewrite !Forall_cons in Hq. destruct Hq as (Ha & Hb1 & Hc & Hd & _).
  apply Forall_app in H as [_ Hpost]. rewrite (v6_mapped (take (6 - r) post) (6 `min` r)); try done; [|by apply Forall_take|rewrite length_take; lia|lia].
  destruct (Z.eqb_spec (of_bytes a b c d) INADDR_NONE) as [En|_]; [|by rewrite <- E]. exfalso. apply Hu.
  destruct (of_bytes_none a b c d Ha Hb1 Hc Hd En) as (-> & -> & -> & ->).
  assert (r = 5 ∨ r = 6 ∨ r = 7)%nat as [-> |[-> | ->] ] by lia; cbn [Nat.sub take Nat.min] in E.
  - destruct (H5 eq_refl) as [H10 H11]. destruct post as [|w post]; [cbn in L; lia|]. cbn [take] in E. rewrite E in H10, H11. cbn in H10, H11.
    rewrite E. cbn. rewrite H10, H11. by right; left.
  - rewrite E. by left.
  - exfalso. apply (f_equal (fun l => l !!! 12%nat)) in E. unfold p in E. by vm_compute in E.
Qed.

Lemma inet6_back (p : bytes) (len : nat) :
  length p = 16%nat → Forall is_byte p → (NGX_INET6_ADDRSTRLEN <= len)%nat → p ∉ unreadable →
  ngx_inet6_addr (ngx_inet6_ntop p len) = Some (Some p).
Proof.
  intros Lp Hp Hlen Hu. unfold ngx_inet6_ntop. rewrite (proj2 (Nat.ltb_ge _ _)) by done.
  destruct (words_of_bytes 8 p Lp Hp) as (ws & -> & Lw & Hw).
  pose proof (zero_scan_run [] 0 ws (-1) (-1) 1 Hw ltac:(by left) ltac:(lia) ltac:(done)) as R. cbn [app replicate] in R.
  change (2 * Z.of_nat (length [] + 0)) with 0 in R. change (Z.of_nat 0) with 0 in R.
  destruct (zero_scan _ _ _ _ _ _) as [z m]. destruct R as [[-> ->]|(pre & r & post & -> & -> & -> & Hr)].
  { cbn [Z.eqb andb app]. rewrite ntop_full by done. rewrite app_nil_r. by apply v6_full. }
  rewrite !length_app, length_replicate in Lw. pose proof Hw as Hw'. apply Forall_app in Hw' as [Hpre [_ Hpost]%Forall_app].
  set (v4 := _ || _ || _). destruct ((2 * Z.of_nat (length pre) =? 0) && v4) eqn:Ev.
  2: { rewrite ntop_gap by (done || lia). change (16 =? 12) with false. cbv iota. rewrite app_nil_r.
       rewrite <- (v6_gap pre r post) by (done || lia). f_equal. f_equal. by destruct pre. }
  apply andb_true_iff in Ev as [Ep%Z.eqb_eq Ev]. destruct pre; [|cbn [length] in Ep; lia]. clear Ep Hpre. cbn [app length] in *. change (2 * Z.of_nat 0) with 0.
  cbn [Z.eqb Pos.eqb]. assert (Hr' : (5 <= r <= 7)%nat ∧ (r = 5%nat → be_bytes (replicate r 0 ++ post) !!! 10%nat = 255 ∧ be_bytes (replicate r 0 ++ post) !!! 11%nat = 255)).
  { unfold v4 in Ev. rewrite !orb_true_iff, !andb_true_iff, !Z.eqb_eq in Ev. split; [lia|]. intros ->. destruct Ev as [[[[_ ?] ?]|Hx]|[[Hx _] _] ]; [done|lia|lia]. }
  destruct Hr' as [Hr1 Hr5]. rewrite ntop_mapped by (done || lia).
  cbn [Z.eqb Pos.eqb app]. by apply (mapped_read r post).
Qed.

(** Printing an IPv6 address and reading it back: for every address, [ngx_inet6_addr] reads
    from the text of [ngx_inet6_ntop] (with the longest run of zeros left out, or with an
    IPv4 address at the end) the address itself; the exceptions are the two addresses
    whose text ends in 255.255.255.255, which are refused. *)
Theorem inet6_roundtrip (p : bytes) (len : nat) :
  length p = 16%nat → Forall is_byte p → (NGX_INET6_ADDRSTRLEN <= len)%nat →
  ngx_inet6_addr (ngx_inet6_ntop p len) = Some (if decide (p ∈ unreadable) then None else Some p).
Proof.
  intros Lp Hp Hlen. destruct (decide (p ∈ unreadable)) as [Hu|Hu].
  { unfold ngx_inet6_ntop. rewrite (proj2 (Nat.ltb_ge _ _)) by done.
    apply elem_of_cons in Hu as [->|Hu%list_elem_of_singleton]; [|subst p]; vm_compute; reflexivity. }
  by apply inet6_back.
Qed.

Lemma inet6_roundtrip_witness :
  ngx_inet6_ntop [0x20; 1; 0xd; 0xb8; 0; 0; 0; 0; 0; 0; 0; 0; 0; 0; 0; 0xa] 45 = bs "2001:db8::a"
  ∧ ngx_inet6_addr (ngx_inet6_ntop [0x20; 1; 0xd; 0xb8; 0; 0; 0; 0; 0; 0; 0; 0; 0; 0; 0; 0xa] 45)
    = Some (Some [0x20; 1; 0xd; 0xb8; 0; 0; 0; 0; 0; 0; 0; 0; 0; 0; 0; 0xa]).
Proof.
  split; [vm_compute; reflexivity|].
  rewrite (inet6_roundtrip [0x20; 1; 0xd; 0xb8; 0; 0; 0; 0; 0; 0; 0; 0; 0; 0; 0; 0xa] 45 eq_refl ltac:(solve_bytes) ltac:(vm_compute; lia)).
  reflexivity.
Defined.

(** [ngx_inet_addr] on any text: it gives an address exactly when the text has four parts
    between dots that are decimal numbers up to 255 (parts may be empty and may have
    leading zeros), and the address has these numbers as its bytes; only
    255.255.255.255 cannot be told from an error.  What [ngx_inet_ntop] prints of an
    address is such a text for it. *)
Theorem inet_addr_spec (text : bytes) :
  (ngx_inet_addr text ≠ INADDR_NONE →
   ∃ a b c d, text = quad_text a b c d ∧ octet_text a ∧ octet_text b ∧ octet_text c ∧ octet_text d
     ∧ ngx_inet_addr text = of_bytes (dec_value 0 a) (dec_value 0 b) (dec_value 0 c) (dec_value 0 d))
  ∧ (∀ a b c d, text = quad_text a b c d → octet_text a → octet_text b → octet_text c → octet_text d →
     ngx_inet_addr text = of_bytes (dec_value 0 a) (dec_value 0 b) (dec_value 0 c) (dec_value 0 d))
  ∧ (∀ a len, 0 <= a < 2 ^ 32 → (NGX_INET_ADDRSTRLEN <= len)%nat → text = ngx_inet_ntop AF_INET (in_addr_bytes a) len →
     ngx_inet_addr text = a).
Proof.
  split; [|split].
  - intros H. destruct (inet_addr_quads text H) as (a & b & c & d & -> & Ha & Hb & Hc & Hd).
    exists a, b, c, d. split_and!; try done. by apply inet_addr_quad.
  - intros a b c d -> Ha Hb Hc Hd. by apply inet_addr_quad.
  - intros x len Hx Hl ->. destruct (of_bytes_split x Hx) as (a & b & c & d & Ha & Hb & Hc & Hd & ->).
    unfold in_addr_bytes. destruct (byte_at_of_bytes a b c d) as (-> & -> & -> & ->); try done. cbn [ngx_inet_ntop].
    rewrite take_ge; [by apply inet_addr_sprintf|]. rewrite sprintf_quad_text. unfold quad_text.
    pose proof (sprintf_d_short a Ha). pose proof (sprintf_d_short b Hb). pose proof (sprintf_d_short c Hc). pose proof (sprintf_d_short d Hd).
    vm_compute in Hl. repeat (rewrite length_app; cbn [length]). lia.
Qed.

Lemma inet_addr_spec_witness :
  ngx_inet_addr (bs "10.0.0.1") = of_bytes 10 0 0 1 ∧ ngx_inet_addr (ngx_inet_ntop AF_INET (in_addr_bytes 0x0100000a) 15) = 0x0100000a.
Proof.
  split.
  - apply (proj1 (proj2 (inet_addr_spec (bs "10.0.0.1"))) (bs "10") (bs "0") (bs "0") (bs "1")); [reflexivity|..];
      (split; [vm_compute; repeat (constructor; try discriminate)|vm_compute; discriminate]).
  - apply (proj2 (proj2 (inet_addr_spec (ngx_inet_ntop AF_INET (in_addr_bytes 0x0100000a) 15))) _ 15%nat); [lia|vm_compute; lia|reflexivity].
Defined.

Lemma inet6_defined (text : bytes) : v6_result (ngx_inet6_addr text).
Proof. unfold ngx_inet6_addr. destruct text as [|c text]; [by exists None|]. apply v6_loop_ok, v6_start_ok. Qed.

(** Reading an IPv6 address is safe: on any text at all, [ngx_inet6_addr] never
    writes outside of the 16 bytes that it is given, and when it succeeds it has
    written all of them. *)
Theorem inet6_addr_safe (text : bytes) :
  ∃ r, ngx_inet6_addr text = Some r ∧ ∀ a, r = Some a → length a = 16%nat ∧ Forall is_byte a.
Proof. apply inet6_defined. Qed.

(** ** What is accepted beyond the grammar *)

Example inet_addr_empty_parts : ngx_inet_addr (bs "1..") = INADDR_NONE ∧ ngx_inet_addr (bs "1...") = 1.
Proof. vm_compute. done. Qed.

Example inet6_addr_loose :
  ngx_inet6_addr (bs "1::2:") = Some (Some [0; 1; 0; 0; 0; 0; 0; 0; 0; 0; 0; 0; 0; 2; 0; 0])
  ∧ ngx_inet6_addr (bs ":1::2") = ngx_inet6_addr (bs "1::2")
  ∧ ngx_inet6_addr (bs "1:2:3:4:5:6:7::") = Some None
  ∧ ngx_inet6_addr (bs "::ffff:255.255.255.255") = Some None.
Proof. vm_compute. done. Qed.

End NgxInet.
