(* ===== verification/NgxUrl.v ===== *)
(** Texts that name servers and networks: core/ngx_inet.c, [ngx_ptocidr],
    [ngx_cidr_match], [ngx_parse_addr], [ngx_parse_addr_port], [ngx_parse_url] with its three
    kinds of addresses, [ngx_inet_resolve_host] and [ngx_cmp_sockaddr].

    [getaddrinfo] is an argument; allocations succeed.  The outer [None] of a result is a
    write outside of an array. *)

From S2P Require Import Prelude NgxNumber NgxCompare NgxInet.

Open Scope Z_scope.

Module NgxUrl.

Export NgxInet.

(** * Definitions *)

(** [ngx_strlchr(text, text + len, c)], as an offset. *)
Definition find_char (c : Z) (text : bytes) : option nat :=
  match ngx_strlchr text (length text) c with Some r => r | None => None end.

(** ** Networks *)

Inductive ngx_cidr_t :=
  | cidr_in (addr mask : Z)
  | cidr_in6 (addr mask : bytes)
  | cidr_unix.

Definition cidr_family (c : ngx_cidr_t) : family :=
  match c with cidr_in _ _ => AF_INET | cidr_in6 _ _ => AF_INET6 | cidr_unix => AF_UNIX end.

(** The loop over the 16 bytes: the address under the mask, the mask, and whether a bit of
    the address was cleared. *)
Fixpoint mask_loop (addr : bytes) (shift : Z) : bytes * bytes * bool :=
  match addr with
  | [] => ([], [], false)
  | a :: addr =>
      let s := if shift >? 8 then 8 else shift in
      let m := u_char (Z.shiftl 0xff (8 - s)) in
      let '(addr', mask', cleared) := mask_loop addr (shift - s) in
      (Z.land a m :: addr', m :: mask', negb (a =? Z.land a m) || cleared)
  end.

Definition ptocidr_in6 (addr : bytes) (shift : Z) : Z * option ngx_cidr_t :=
  if shift >? 128 then (NGX_ERROR, None)
  else
    let '(addr, mask, cleared) := mask_loop addr shift in
    (if cleared then NGX_DONE else NGX_OK, Some (cidr_in6 addr mask)).

Definition ptocidr_in (addr shift : Z) : Z * option ngx_cidr_t :=
  if shift >? 32 then (NGX_ERROR, None)
  else
    let mask := if shift =? 0 then 0 else htonl (wrap_u 32 (Z.shiftl 0xffffffff (32 - shift))) in
    if addr =? Z.land addr mask then (NGX_OK, Some (cidr_in addr mask))
    else (NGX_DONE, Some (cidr_in (Z.land addr mask) mask)).

Definition ngx_ptocidr (text : bytes) : option (Z * option ngx_cidr_t) :=
  let mask := find_char "/"%ch text in
  let host := match mask with Some i => take i text | None => text end in
  let a := ngx_inet_addr host in
  if negb (a =? INADDR_NONE) then
    Some (match mask with
          | None => (NGX_OK, Some (cidr_in a 0xffffffff))
          | Some i =>
              let shift := ngx_atoi (drop (S i) text) in
              if shift =? NGX_ERROR then (NGX_ERROR, None) else ptocidr_in a shift
          end)
  else
    r ← ngx_inet6_addr host;
    Some (match r with
          | None => (NGX_ERROR, None)
          | Some a =>
              match mask with
              | None => (NGX_OK, Some (cidr_in6 a (replicate 16 0xff)))
              | Some i =>
                  let shift := ngx_atoi (drop (S i) text) in
                  if shift =? NGX_ERROR then (NGX_ERROR, None) else ptocidr_in6 a shift
              end
          end).

(** [IN6_IS_ADDR_V4MAPPED] and [IN6_IS_ADDR_UNSPECIFIED]. *)
Definition v4_mapped (a : bytes) : bool := bytes_eqb (take 12 a) (replicate 10 0 ++ [0xff; 0xff]).
Definition v6_unspecified (a : bytes) : bool := bytes_eqb a (replicate 16 0).

(** The bytes of an address under a mask, compared with a network. *)
Fixpoint masked_equal (a mask net : bytes) : bool :=
  match a, mask, net with
  | a :: a', m :: mask', n :: net' => (Z.land a m =? n) && masked_equal a' mask' net'
  | _, _, _ => true
  end.

(** What an address is compared as: an IPv4 address may come in the form of IPv6. *)
Definition match_addr (sa : sockaddr) : sockaddr :=
  match sa with
  | sockaddr_in6 p a =>
      if v4_mapped a
      then sockaddr_in p (htonl (wrap_u 32 (Z.shiftl (a !!! 12%nat) 24 + Z.shiftl (a !!! 13%nat) 16
                                            + Z.shiftl (a !!! 14%nat) 8 + a !!! 15%nat)))
      else sa
  | _ => sa
  end.

Definition cidr_matches (sa : sockaddr) (c : ngx_cidr_t) : bool :=
  match sa, c with
  | sockaddr_in6 _ a, cidr_in6 net mask => masked_equal a mask net
  | sockaddr_un _, cidr_unix => true
  | sockaddr_in _ a, cidr_in net mask => Z.land a mask =? net
  | _, _ => false
  end.

Definition ngx_cidr_match (sa : sockaddr) (cidrs : list ngx_cidr_t) : Z :=
  if existsb (cidr_matches (match_addr sa)) cidrs then NGX_OK else NGX_DECLINED.

(** ** Addresses *)

Definition sizeof_sockaddr_in : nat := 16.
Definition sizeof_sockaddr_in6 : nat := 28.
Definition sizeof_sockaddr_un : nat := 110.
Definition sizeof_sun_path : nat := 108.

Definition socklen_of (sa : sockaddr) : nat :=
  match sa with
  | sockaddr_in _ _ => sizeof_sockaddr_in
  | sockaddr_in6 _ _ => sizeof_sockaddr_in6
  | sockaddr_un _ => sizeof_sockaddr_un
  end.

(** [inl NGX_DECLINED] when the text is no address. *)
Definition ngx_parse_addr (text : bytes) : option (Z + sockaddr) :=
  let a := ngx_inet_addr text in
  if negb (a =? INADDR_NONE) then Some (inr (sockaddr_in 0 a))
  else
    r ← ngx_inet6_addr text;
    Some (match r with Some a => inr (sockaddr_in6 0 a) | None => inl NGX_DECLINED end).

(** An address followed by a colon and a port: the two parts. *)
Definition split_port (text : bytes) : option (bytes * bytes) :=
  if match text with c :: _ => c =? "["%ch | [] => false end then
    match find_char "]"%ch text with
    | None => None
    | Some p =>
        if (p =? length text - 1)%nat || negb (text !!! S p =? ":"%ch) then None
        else
          let port := drop (p + 2) text in
          Some (take (length text - 2 - (length port + 1)) (drop 1 text), port)
    end
  else
    match find_char ":"%ch text with
    | None => None
    | Some p => Some (take p text, drop (S p) text)
    end.

Definition ngx_parse_addr_port (text : bytes) : option (Z + sockaddr) :=
  r ← ngx_parse_addr text;
  match r with
  | inr sa => Some (inr sa)
  | inl _ =>
      match split_port text with
      | None => Some (inl NGX_DECLINED)
      | Some (host, port) =>
          let n := ngx_atoi port in
          if (n <? 1) || (n >? 65535) then Some (inl NGX_DECLINED)
          else
            r ← ngx_parse_addr host;
            Some (match r with inr sa => inr (ngx_inet_set_port sa n) | inl e => inl e end)
      end
  end.

(** ** ngx_parse_url *)

Record ngx_addr_t := mk_addr { addr_sockaddr : sockaddr; addr_socklen : nat; addr_name : bytes }.

(** What the caller sets. *)
Record url_in := mk_url_in { url : bytes; default_port : Z; listen : bool; uri_part : bool; no_resolve : bool }.

(** What [ngx_parse_url] sets. *)
Record url_out := mk_url_out {
  host : bytes;
  port_text : bytes;
  uri : bytes;
  port : Z;
  url_family : family;
  no_port : bool;
  wildcard : bool;
  socklen : nat;
  url_sockaddr : sockaddr;
  addrs : list ngx_addr_t
}.

(** [u->err]. *)
Inductive url_error :=
  | no_path_in_the_unix_domain_socket | too_long_path_in_the_unix_domain_socket
  | invalid_host | invalid_port | no_host | host_not_found | invalid_IPv6_address.

(** [ngx_cpystrn(dst, src, n)] into an array of zeros: up to [n - 1] bytes before a NUL. *)
Definition sun_path_of (path : bytes) (n : nat) : bytes :=
  let text := take (ngx_strnlen path (n - 1)) path in
  text ++ replicate (sizeof_sun_path - length text) 0.

Definition ngx_parse_unix_domain_url (u : url_in) : url_error + url_out :=
  let path := drop 5 (url u) in
  let colon := if uri_part u then find_char ":"%ch path else None in
  let '(path', uri) := match colon with
                       | Some i => (take i path, drop (S i) path)
                       | None => (path, [])
                       end in
  if (length path' =? 0)%nat then inl no_path_in_the_unix_domain_socket
  else
    let len := S (length path') in
    if (sizeof_sun_path <? len)%nat then inl too_long_path_in_the_unix_domain_socket
    else
      let sa := sockaddr_un (sun_path_of path' len) in
      inr (mk_url_out path' [] uri 0 AF_UNIX false false sizeof_sockaddr_un sa
             [mk_addr sa sizeof_sockaddr_un (take (len + 4) (url u))]).

(** [ngx_sprintf(p, "%V:%d", &u->host, u->port)]. *)
Definition name_of (host : bytes) (port : Z) : bytes := host ++ bs ":" ++ sprintf_d port.

Section Resolve.
Variable getaddrinfo : bytes → option (list sockaddr).

(** [getaddrinfo] gets a copy of the host that ends at the first NUL.  The addresses of IPv4
    come first; their ports are set. *)
Definition ngx_inet_resolve_host (host : bytes) (port : Z) : url_error + list ngx_addr_t :=
  match getaddrinfo (take (ngx_strnlen host (length host)) host) with
  | None => inl host_not_found
  | Some res =>
      let v4 := filter (fun sa => sa_family sa = AF_INET) res in
      let v6 := filter (fun sa => sa_family sa = AF_INET6) res in
      if (length v4 + length v6 =? 0)%nat then inl host_not_found
      else
        let entry (len : nat) (sa : sockaddr) :=
          let sa := ngx_inet_set_port sa port in
          mk_addr sa (socklen_of sa) (ngx_sock_ntop sa (socklen_of sa) len true) in
        inr (map (entry (NGX_INET_ADDRSTRLEN + length (bs ":65535"))%nat) v4
             ++ map (entry (NGX_INET6_ADDRSTRLEN + length (bs "[]:65535"))%nat) v6)
  end.

(** From [len = last - host] on: the host was found. *)
Definition inet_url_host (u : url_in) (host port_text uri : bytes) (port : Z) (no_port : bool) : url_error + url_out :=
  if (length host =? 0)%nat then inl no_host
  else if listen u && (length host =? 1)%nat && (host !!! 0%nat =? "*"%ch) then
    inr (mk_url_out host port_text uri port AF_INET no_port true sizeof_sockaddr_in (sockaddr_in port INADDR_ANY) [])
  else
    let a := ngx_inet_addr host in
    if negb (a =? INADDR_NONE) then
      let sa := sockaddr_in port a in
      inr (mk_url_out host port_text uri port AF_INET no_port (a =? INADDR_ANY) sizeof_sockaddr_in sa
             [mk_addr sa sizeof_sockaddr_in (name_of host port)])
    else if no_resolve u then
      inr (mk_url_out host port_text uri port AF_INET no_port false sizeof_sockaddr_in (sockaddr_in port a) [])
    else
      match ngx_inet_resolve_host host port with
      | inl e => inl e
      | inr [] => inl host_not_found
      | inr ((a :: _) as l) =>
          let wild := match addr_sockaddr a with
                      | sockaddr_in6 _ x => v6_unspecified x
                      | sockaddr_in _ x => x =? INADDR_ANY
                      | sockaddr_un _ => false
                      end in
          inr (mk_url_out host port_text uri port (sa_family (addr_sockaddr a)) no_port wild (addr_socklen a)
                 (addr_sockaddr a) l)
      end.

Definition ngx_parse_inet_url (u : url_in) : url_error + url_out :=
  let text := url u in
  let colon := find_char ":"%ch text in
  let slash := find_char "/"%ch text in
  let start := match find_char "?"%ch text, slash with
               | Some q, Some s => Some (if (q <? s)%nat then q else s)
               | Some q, None => Some q
               | None, s => s
               end in
  if match start with Some _ => listen u || negb (uri_part u) | None => false end then inl invalid_host
  else
    let last := match start with Some i => i | None => length text end in
    let uri := drop last text in
    let colon := match start, colon with
                 | Some i, Some c => if (i <? c)%nat then None else Some c
                 | _, c => c
                 end in
    match colon with
    | Some c =>
        let port_text := drop (S c) (take last text) in
        let n := ngx_atoi port_text in
        if (n <? 1) || (n >? 65535) then inl invalid_port
        else inet_url_host u (take c text) port_text uri n false
    | None =>
        let n := ngx_atoi (take last text) in
        if match start with None => listen u && negb (n =? NGX_ERROR) | Some _ => false end then
          if (n <? 1) || (n >? 65535) then inl invalid_port
          else inr (mk_url_out [] text [] n AF_INET false true sizeof_sockaddr_in (sockaddr_in n INADDR_ANY) [])
        else inet_url_host u (take last text) [] uri (default_port u) true
    end.

Definition ngx_parse_inet6_url (u : url_in) : option (url_error + url_out) :=
  let text := url u in
  match find_char "]"%ch (drop 1 text) with
  | None => Some (inl invalid_host)
  | Some i =>
      let rest := drop (i + 2) text in
      let slash := find_char "/"%ch rest in
      if match slash with Some _ => listen u || negb (uri_part u) | None => false end then Some (inl invalid_host)
      else
        let '(rest, uri) := match slash with Some j => (take j rest, drop j rest) | None => (rest, []) end in
        let finish (port_text : bytes) (port : Z) (no_port : bool) : option (url_error + url_out) :=
          if (i =? 0)%nat then Some (inl no_host)
          else
            r ← ngx_inet6_addr (take i (drop 1 text));
            Some (match r with
                  | None => inl invalid_IPv6_address
                  | Some a =>
                      let sa := sockaddr_in6 port a in
                      let host := take (i + 2) text in
                      inr (mk_url_out host port_text uri port AF_INET6 no_port (v6_unspecified a) sizeof_sockaddr_in6 sa
                             [mk_addr sa sizeof_sockaddr_in6 (name_of host port)])
                  end) in
        match rest with
        | [] => finish [] (default_port u) true
        | c :: port_text =>
            if negb (c =? ":"%ch) then Some (inl invalid_host)
            else
              let n := ngx_atoi port_text in
              if (n <? 1) || (n >? 65535) then Some (inl invalid_port) else finish port_text n false
        end
  end.

Definition ngx_parse_url (u : url_in) : option (url_error + url_out) :=
  let text := url u in
  if (5 <=? length text)%nat
     && match ngx_strncasecmp text (bs "unix:") 5 with Some r => r =? 0 | None => false end
  then Some (ngx_parse_unix_domain_url u)
  else if match text with c :: _ => c =? "["%ch | [] => false end then ngx_parse_inet6_url u
  else Some (ngx_parse_inet_url u).

End Resolve.

(** ** ngx_cmp_sockaddr *)

Definition ngx_cmp_sockaddr (sa1 : sockaddr) (slen1 : nat) (sa2 : sockaddr) (slen2 : nat) (cmp_port : bool) : Z :=
  match sa1, sa2 with
  | sockaddr_in6 p1 a1, sockaddr_in6 p2 a2 =>
      if cmp_port && negb (p1 =? p2) then NGX_DECLINED else if negb (bytes_eqb a1 a2) then NGX_DECLINED else NGX_OK
  | sockaddr_un path1, sockaddr_un path2 =>
      let len := ((if (slen1 <? slen2)%nat then slen1 else slen2) - offsetof_sun_path)%nat in
      let len := if (sizeof_sun_path <? len)%nat then sizeof_sun_path else len in
      if negb (bytes_eqb (take len path1) (take len path2)) then NGX_DECLINED else NGX_OK
  | sockaddr_in p1 a1, sockaddr_in p2 a2 =>
      if cmp_port && negb (p1 =? p2) then NGX_DECLINED else if negb (a1 =? a2) then NGX_DECLINED else NGX_OK
  | _, _ => NGX_DECLINED
  end.

(** * Examples *)

Example url_texts :
  let go t := match ngx_parse_url (fun _ => None) (mk_url_in (bs t) 80 false true false) with
              | Some (inr u) => map addr_name (addrs u) ++ [uri u]
              | _ => []
              end in
  map go ["127.0.0.1:8080/x"; "[::1]/y?a=b"; "10.0.0.1?q:1"; "unix:/tmp/s:/z"; "nowhere"; "1.2.3.4:0"]%string
  = map (map bs) [["127.0.0.1:8080"; "/x"]; ["[::1]:80"; "/y?a=b"]; ["10.0.0.1:80"; "?q:1"]; ["unix:/tmp/s"; "/z"]; []; []]%string.
Proof. vm_compute. reflexivity. Qed.

(** * Networks *)

(** The first [n] bits of two addresses agree. *)
Fixpoint prefix_eq (n : Z) (x y : bytes) : Prop :=
  match x, y with
  | a :: x, b :: y => if n >? 8 then a = b ∧ prefix_eq (n - 8) x y else a / 2 ^ (8 - n) = b / 2 ^ (8 - n)
  | _, _ => True
  end.

(** The mask of one byte. *)
Lemma byte_mask (s a b : Z) :
  0 <= s <= 8 → is_byte a → is_byte b →
  Z.land b (u_char (Z.shiftl 0xff (8 - s))) = Z.land a (u_char (Z.shiftl 0xff (8 - s))) ↔ b / 2 ^ (8 - s) = a / 2 ^ (8 - s).
Proof.
  unfold is_byte. intros Hs Ha Hb.
  assert (E : ∀ x, 0 <= x < 256 → Z.land x (u_char (Z.shiftl 0xff (8 - s))) = x / 2 ^ (8 - s) * 2 ^ (8 - s)).
  { intros x Hx. rewrite <- Z.shiftr_div_pow2, <- Z.shiftl_mul_pow2 by lia. apply Z.bits_inj'. intros i Hi.
    rewrite Z.land_spec, Z.shiftl_spec by lia. unfold u_char. change 256 with (2 ^ 8). rewrite Z.testbit_mod_pow2 by lia.
    rewrite Z.shiftl_spec by lia. change 0xff with (Z.ones 8). destruct (Z.ltb_spec i (8 - s)) as [H|H].
    - rewrite !(Z.testbit_neg_r _ (i - (8 - s))) by lia. by rewrite !andb_false_r.
    - rewrite Z.shiftr_spec by lia. replace (i - (8 - s) + (8 - s)) with i by lia. rewrite Z.testbit_ones by lia.
      destruct (Z.ltb_spec i 8) as [H8|H8].
      + rewrite (proj2 (Z.leb_le _ _)), (proj2 (Z.ltb_lt _ _)) by lia. by rewrite andb_true_r.
      + rewrite (proj2 (Z.testbit_false x i ltac:(lia))); [done|]. rewrite Z.div_small; [done|]. split; [lia|].
        pose proof (Z.pow_le_mono_r 2 8 i ltac:(lia) ltac:(lia)). lia. }
  rewrite !E by done. pose proof (Z.pow_pos_nonneg 2 (8 - s) ltac:(lia) ltac:(lia)). nia.
Qed.

Lemma mask_loop_length addr shift :
  length (mask_loop addr shift).1.1 = length addr ∧ length (mask_loop addr shift).1.2 = length addr.
Proof.
  revert shift. induction addr as [|a addr IH]; intros shift; [done|]. cbn [mask_loop].
  specialize (IH (shift - (if shift >? 8 then 8 else shift))). destruct (mask_loop addr _) as [[x y] z]. cbn in *. lia.
Qed.

Lemma prefix_eq_0 x y : Forall is_byte x → Forall is_byte y → prefix_eq 0 x y.
Proof.
  intros [|a x' Ha _] [|b y' Hb _]; try done. unfold is_byte in *. cbn. change (2 ^ (8 - 0)) with 256. by rewrite !Z.div_small by lia.
Qed.

(** An address matches the masked address exactly when the first bits agree. *)
Lemma mask_loop_matches addr shift b :
  Forall is_byte addr → Forall is_byte b → length b = length addr → 0 <= shift →
  masked_equal b (mask_loop addr shift).1.2 (mask_loop addr shift).1.1 = true ↔ prefix_eq shift b addr.
Proof.
  intros H. revert shift b. induction H as [|a addr Ha Haddr IH]; intros shift b Hb L Hs; [by destruct b|].
  destruct b as [|x b]; [done|]. apply Forall_cons in Hb as [Hx Hb]. cbn [length] in L. cbn [mask_loop prefix_eq].
  specialize (IH (shift - (if shift >? 8 then 8 else shift)) b Hb ltac:(lia)).
  destruct (mask_loop addr (shift - _)) as [[x' y'] z'] eqn:E. cbn [fst snd masked_equal] in *. rewrite andb_true_iff, Z.eqb_eq.
  destruct (Z.gtb_spec shift 8) as [H8|H8].
  - rewrite byte_mask by (done || lia). change (2 ^ (8 - 8)) with 1. rewrite !Z.div_1_r. rewrite IH by lia. done.
  - rewrite byte_mask by (done || lia). rewrite Z.sub_diag in IH. specialize (IH ltac:(lia)). split; [by intros [? _]|]. intros Hd. split; [done|]. apply IH.
    by apply prefix_eq_0.
Qed.

(** The masks and the masked address. *)
Fixpoint masks (n : nat) (shift : Z) : bytes :=
  match n with
  | O => []
  | S n => let s := if shift >? 8 then 8 else shift in u_char (Z.shiftl 0xff (8 - s)) :: masks n (shift - s)
  end.

Lemma mask_loop_eq addr shift :
  (mask_loop addr shift).1 = (zip_with Z.land addr (masks (length addr) shift), masks (length addr) shift).
Proof.
  revert shift. induction addr as [|a addr IH]; intros shift; [done|]. cbn [mask_loop length masks zip_with].
  specialize (IH (shift - (if shift >? 8 then 8 else shift))). destruct (mask_loop addr _) as [[x y] z]. cbn in *. by injection IH as -> ->.
Qed.

(** ** IPv4 *)

Definition mask4 (shift : Z) : Z := if shift =? 0 then 0 else htonl (wrap_u 32 (Z.shiftl 0xffffffff (32 - shift))).

Lemma mask4_bytes shift : 0 <= shift <= 32 → in_addr_bytes (mask4 shift) = masks 4 shift.
Proof.
  intros H. apply (range_check_prop 33 (fun s => in_addr_bytes (mask4 s) = masks 4 s)); [vm_compute; reflexivity|lia].
Qed.

Lemma byte_at_land i x y : 0 <= i → byte_at i (Z.land x y) = Z.land (byte_at i x) (byte_at i y).
Proof.
  intros Hi. unfold byte_at, u_char. change 256 with (2 ^ 8). rewrite <- !Z.land_ones by lia. rewrite Z.shiftr_land.
  apply Z.bits_inj'. intros j Hj. rewrite !Z.land_spec. by destruct (Z.testbit (Z.ones 8) j); rewrite ?andb_false_r, ?andb_true_r.
Qed.

Lemma in_addr_bytes_inj x y : 0 <= x < 2 ^ 32 → 0 <= y < 2 ^ 32 → in_addr_bytes x = in_addr_bytes y → x = y.
Proof.
  intros Hx Hy. destruct (of_bytes_split x Hx) as (a & b & c & d & Ha & Hb & Hc & Hd & ->).
  destruct (of_bytes_split y Hy) as (a' & b' & c' & d' & Ha' & Hb' & Hc' & Hd' & ->). unfold in_addr_bytes.
  destruct (byte_at_of_bytes a b c d) as (-> & -> & -> & ->); try done.
  destruct (byte_at_of_bytes a' b' c' d') as (-> & -> & -> & ->); try done. by intros [= -> -> -> ->].
Qed.

Lemma land_bound x y : 0 <= x < 2 ^ 32 → 0 <= Z.land x y < 2 ^ 32.
Proof.
  intros H. assert (Z.land x y = Z.land x y mod 2 ^ 32) as ->; [|apply Z.mod_pos_bound; lia].
  rewrite <- Z.land_ones by lia. rewrite <- Z.land_assoc, (Z.land_comm y), Z.land_assoc, (Z.land_ones x 32) by lia. by rewrite (Z.mod_small x) by lia.
Qed.

Lemma mask4_matches a b shift :
  0 <= a < 2 ^ 32 → 0 <= b < 2 ^ 32 → 0 <= shift <= 32 →
  Z.land b (mask4 shift) = Z.land a (mask4 shift) ↔ prefix_eq shift (in_addr_bytes b) (in_addr_bytes a).
Proof.
  intros Ha Hb Hs. assert (B : ∀ x, Forall is_byte (in_addr_bytes x)) by (intros x; repeat constructor; apply u_char_byte).
  rewrite <- (mask_loop_matches (in_addr_bytes a) shift (in_addr_bytes b)) by (done || lia). rewrite !mask_loop_eq. cbn [fst snd].
  change (length (in_addr_bytes a)) with 4%nat. rewrite <- mask4_bytes by done. unfold in_addr_bytes. cbn [zip_with masked_equal].
  rewrite !andb_true_iff, !Z.eqb_eq, <- !byte_at_land by lia. split; [by intros ->|]. intros (E0 & E1 & E2 & E3 & _).
  apply in_addr_bytes_inj; [by apply land_bound..|]. unfold in_addr_bytes. by rewrite E0, E1, E2, E3.
Qed.

Lemma of_bytes_bound a b c d : is_byte a → is_byte b → is_byte c → is_byte d → 0 <= of_bytes a b c d < 2 ^ 32.
Proof. unfold is_byte, of_bytes. lia. Qed.

Lemma inet_addr_bound text : 0 <= ngx_inet_addr text < 2 ^ 32.
Proof.
  destruct (decide (ngx_inet_addr text = INADDR_NONE)) as [->|H]; [unfold INADDR_NONE; lia|].
  destruct (inet_addr_quads text H) as (a & b & c & d & -> & Ha & Hb & Hc & Hd). rewrite inet_addr_quad by done.
  apply of_bytes_bound; by apply octet_range.
Qed.

(** A socket address as the system gives it. *)
Definition sockaddr_ok (sa : sockaddr) : Prop :=
  match sa with
  | sockaddr_in p a => 0 <= p <= 65535 ∧ 0 <= a < 2 ^ 32
  | sockaddr_in6 p a => 0 <= p <= 65535 ∧ length a = 16%nat ∧ Forall is_byte a
  | sockaddr_un path => True
  end.

Lemma match_addr_ok sa : sockaddr_ok sa → sockaddr_ok (match_addr sa).
Proof.
  destruct sa as [p a|p a|path]; cbn [match_addr]; try done. intros (Hp & L & Hb). case_match; [|done]. split; [done|].
  assert (B : ∀ i, (i < 16)%nat → is_byte (a !!! i)).
  { intros i Hi. destruct (lookup_lt_is_Some_2 a i ltac:(lia)) as [x Ex]. rewrite (list_lookup_total_correct _ _ _ Ex). by eapply Forall_lookup_1. }
  pose proof (B 12%nat ltac:(lia)). pose proof (B 13%nat ltac:(lia)). pose proof (B 14%nat ltac:(lia)). pose proof (B 15%nat ltac:(lia)).
  match goal with |- context [htonl ?x] => replace x with (of_bytes (a !!! 15%nat) (a !!! 14%nat) (a !!! 13%nat) (a !!! 12%nat)) end.
  - rewrite htonl_of_bytes by done. by apply of_bytes_bound.
  - unfold of_bytes, wrap_u, is_byte in *. rewrite !Z.shiftl_mul_pow2 by lia. rewrite Z.mod_small by lia. lia.
Qed.

(** What a text of a network says: the part before the slash, and the number behind it. *)
Definition cidr_host (text : bytes) : bytes := match find_char "/"%ch text with Some i => take i text | None => text end.

Definition cidr_bits (text : bytes) (all : Z) : Z :=
  match find_char "/"%ch text with Some i => ngx_atoi (drop (S i) text) | None => all end.

Lemma match_one sa c : ngx_cidr_match sa [c] = NGX_OK ↔ cidr_matches (match_addr sa) c = true.
Proof. unfold ngx_cidr_match. cbn [existsb]. rewrite orb_false_r. by destruct (cidr_matches _ c). Qed.

Lemma atoi_nonneg text : ngx_atoi text ≠ NGX_ERROR → 0 <= ngx_atoi text.
Proof. destruct (ngx_atoi_range text) as [|]; [done|lia]. Qed.

Lemma ptocidr_in_ok a bits rc c :
  0 <= a < 2 ^ 32 → 0 <= bits → ptocidr_in a bits = (rc, Some c) →
  bits <= 32 ∧ (rc = NGX_OK ∨ rc = NGX_DONE) ∧ c = cidr_in (Z.land a (mask4 bits)) (mask4 bits).
Proof.
  intros Ha Hb. unfold ptocidr_in. destruct (Z.gtb_spec bits 32); [done|]. fold (mask4 bits). intros E. split; [lia|].
  destruct (Z.eqb_spec a (Z.land a (mask4 bits))) as [El|]; injection E as <- <-; (split; [tauto|]); [by rewrite <- El|done].
Qed.

Lemma v4_match a bits sa :
  0 <= a < 2 ^ 32 → 0 <= bits <= 32 → sockaddr_ok sa →
  ngx_cidr_match sa [cidr_in (Z.land a (mask4 bits)) (mask4 bits)] = NGX_OK
  ↔ ∃ p b, match_addr sa = sockaddr_in p b ∧ prefix_eq bits (in_addr_bytes b) (in_addr_bytes a).
Proof.
  intros Ha Hb Hsa%match_addr_ok. rewrite match_one. destruct (match_addr sa) as [p b|p b|path]; cbn [cidr_matches];
    [|split; [done|by intros (? & ? & [=] & _)]..].
  rewrite Z.eqb_eq, mask4_matches by (done || apply Hsa || lia). split; [by exists p, b|]. by intros (? & ? & [= <- <-] & ?).
Qed.

Lemma v6_match a bits sa :
  length a = 16%nat → Forall is_byte a → 0 <= bits → sockaddr_ok sa →
  ngx_cidr_match sa [cidr_in6 (mask_loop a bits).1.1 (mask_loop a bits).1.2] = NGX_OK
  ↔ ∃ p b, match_addr sa = sockaddr_in6 p b ∧ prefix_eq bits b a.
Proof.
  intros La Ha Hb Hsa%match_addr_ok. rewrite match_one. destruct (match_addr sa) as [p b|p b|path]; cbn [cidr_matches];
    [split; [done|by intros (? & ? & [=] & _)]| |split; [done|by intros (? & ? & [=] & _)]].
  destruct Hsa as (_ & Lb & Hbb). rewrite mask_loop_matches by (done || lia). split; [by exists p, b|]. by intros (? & ? & [= <- <-] & ?).
Qed.

Lemma mask_all a :
  length a = 16%nat → Forall is_byte a → (mask_loop a 128).1 = (a, replicate 16 0xff).
Proof.
  intros L H. rewrite mask_loop_eq, L. change (masks 16 128) with (replicate 16 0xff). f_equal.
  change 0xff with (Z.ones 8). assert (G : zip_with Z.land a (replicate (length a) (Z.ones 8)) = a); [|by rewrite L in G].
  clear L. induction H as [|x a Hx _ IH]; [done|]. cbn [length replicate zip_with]. rewrite IH, Z.land_ones by lia.
  unfold is_byte in Hx. by rewrite Z.mod_small by lia.
Qed.

Lemma inet6_read text a : ngx_inet6_addr text = Some (Some a) → length a = 16%nat ∧ Forall is_byte a.
Proof.
  unfold ngx_inet6_addr. destruct text as [|c text]; [done|]. intros E. destruct (v6_loop_ok (if c =? ":"%ch then text else c :: text) _ v6_start_ok) as (o & E' & H).
  rewrite E in E'. injection E' as <-. by apply H.
Qed.

(** C26. A network that was read from a text matches the addresses that it should:
    those whose first bits, as many as the number behind the slash says (all without
    a slash), agree with the address before the slash, for IPv4 and for IPv6; an
    IPv4 address in the form of IPv6 is compared as the IPv4 address. A number of
    bits that is too large is refused. *)
Theorem cidr_matches_prefix (text : bytes) (rc : Z) (c : ngx_cidr_t) :
  ngx_ptocidr text = Some (rc, Some c) →
  (rc = NGX_OK ∨ rc = NGX_DONE)
  ∧ match c with
    | cidr_in _ _ =>
        0 <= cidr_bits text 32 <= 32
        ∧ ∀ sa, sockaddr_ok sa → ngx_cidr_match sa [c] = NGX_OK
            ↔ ∃ p b, match_addr sa = sockaddr_in p b
                ∧ prefix_eq (cidr_bits text 32) (in_addr_bytes b) (in_addr_bytes (ngx_inet_addr (cidr_host text)))
    | cidr_in6 _ _ =>
        0 <= cidr_bits text 128 <= 128
        ∧ ∃ a, ngx_inet6_addr (cidr_host text) = Some (Some a)
            ∧ ∀ sa, sockaddr_ok sa → ngx_cidr_match sa [c] = NGX_OK
                ↔ ∃ p b, match_addr sa = sockaddr_in6 p b ∧ prefix_eq (cidr_bits text 128) b a
    | cidr_unix => False
    end.
Proof.
  unfold ngx_ptocidr. fold (cidr_host text). set (a4 := ngx_inet_addr (cidr_host text)). intros H.
  destruct (Z.eqb_spec a4 INADDR_NONE) as [E4|E4]; cbn [negb] in H.
  - destruct (ngx_inet6_addr (cidr_host text)) as [r|] eqn:E6; cbn [mbind option_bind] in H; [|done]. injection H as H. destruct r as [a|]; [|done].
    destruct (inet6_read _ _ E6) as [La Ba]. unfold cidr_bits. destruct (find_char "/"%ch text) as [i|].
    + destruct (Z.eqb_spec (ngx_atoi (drop (S i) text)) NGX_ERROR) as [|En]; [done|]. apply atoi_nonneg in En.
      unfold ptocidr_in6 in H. destruct (Z.gtb_spec (ngx_atoi (drop (S i) text)) 128); [done|].
      pose proof (v6_match a (ngx_atoi (drop (S i) text))) as M. destruct (mask_loop a _) as [[net mask] cleared]. injection H as <- <-.
      split; [destruct cleared; tauto|]. split; [lia|]. exists a. split; [done|]. intros sa Hsa. by apply M.
    + injection H as <- <-. split; [by left|]. split; [lia|]. exists a. split; [done|]. intros sa Hsa.
      pose proof (v6_match a 128 sa La Ba ltac:(lia) Hsa) as M. by rewrite mask_all in M by done.
  - unfold cidr_bits. destruct (find_char "/"%ch text) as [i|].
    + injection H as H. destruct (Z.eqb_spec (ngx_atoi (drop (S i) text)) NGX_ERROR) as [|En]; [done|]. apply atoi_nonneg in En.
      destruct (ptocidr_in_ok _ _ _ _ (inet_addr_bound _) En H) as (B & R & ->). split; [done|]. split; [lia|]. intros sa Hsa. apply v4_match; [apply inet_addr_bound|lia|done].
    + injection H as <- <-. split; [by left|]. split; [lia|]. intros sa Hsa. pose proof (v4_match a4 32 sa (inet_addr_bound _) ltac:(lia) Hsa) as M.
      change (mask4 32) with 0xffffffff in M. assert (Z.land a4 0xffffffff = a4) as El; [|by rewrite El in M].
      change 0xffffffff with (Z.ones 32). rewrite Z.land_ones by lia. apply Z.mod_small, inet_addr_bound.
Qed.

Definition example_net : bytes := bs "10.1.0.0/12".

Lemma cidr_matches_prefix_witness :
  ngx_ptocidr example_net = Some (NGX_DONE, Some (cidr_in (of_bytes 10 0 0 0) (of_bytes 255 240 0 0)))
  ∧ ngx_cidr_match (sockaddr_in 80 (of_bytes 10 15 1 1)) [cidr_in (of_bytes 10 0 0 0) (of_bytes 255 240 0 0)] = NGX_OK.
Proof.
  split; [vm_compute; reflexivity|].
  destruct (cidr_matches_prefix example_net NGX_DONE (cidr_in (of_bytes 10 0 0 0) (of_bytes 255 240 0 0)) ltac:(vm_compute; reflexivity)) as (_ & _ & H).
  apply H; [vm_compute; repeat split; discriminate|]. exists 80, (of_bytes 10 15 1 1). split; [reflexivity|]. vm_compute. split; reflexivity.
Defined.

(** * Names of addresses *)

Lemma strlchr_app c a b : c ∉ a → ngx_strlchr (a ++ c :: b) (length (a ++ c :: b)) c = Some (Some (length a)).
Proof.
  induction a as [|x a IH]; cbn; intros H; [by rewrite Z.eqb_refl|]. apply not_elem_of_cons in H as [Hx H].
  rewrite (proj2 (Z.eqb_neq x c)) by done. by rewrite IH.
Qed.

Lemma strlchr_none c a : c ∉ a → ngx_strlchr a (length a) c = Some None.
Proof.
  induction a as [|x a IH]; cbn; intros H; [done|]. apply not_elem_of_cons in H as [Hx H].
  rewrite (proj2 (Z.eqb_neq x c)) by done. by rewrite IH.
Qed.

Lemma find_char_app c a b : c ∉ a → find_char c (a ++ c :: b) = Some (length a).
Proof. intros H. unfold find_char. by rewrite strlchr_app. Qed.

Lemma find_char_none c a : c ∉ a → find_char c a = None.
Proof. intros H. unfold find_char. by rewrite strlchr_none. Qed.

Lemma find_char_split c l : match find_char c l with
  | Some i => take i l ++ c :: drop (S i) l = l ∧ (c ∉ take i l) ∧ (i < length l)%nat
  | None => c ∉ l end.
Proof.
  destruct (decide (c ∈ l)) as [H|H]; [|by rewrite find_char_none].
  apply list_elem_of_split_l in H as (a & b & -> & Ha). rewrite find_char_app by done. rewrite take_app_length.
  replace (S (length a)) with (length a + 1)%nat by lia. rewrite <- drop_drop, drop_app_length. split_and!; [done|done|].
  rewrite length_app. cbn. lia.
Qed.

(** A text that [ngx_inet_addr] accepts has digits and dots. *)
Lemma inet_addr_chars text : ngx_inet_addr text ≠ INADDR_NONE → Forall (fun c => is_digit c ∨ c = "."%ch) text.
Proof.
  intros H. destruct (inet_addr_quads text H) as (a & b & c & d & -> & [Ha _] & [Hb _] & [Hc _] & [Hd _]). unfold quad_text.
  assert (G : ∀ l, Forall is_digit l → Forall (fun c => is_digit c ∨ c = "."%ch) l) by (intros l Hl; eapply Forall_impl; [exact Hl|by left]).
  repeat (apply Forall_app; split; [by apply G|apply Forall_cons; split; [by right|]]). by apply G.
Qed.

Lemma sprintf_d_atoi n : 0 <= n <= 65535 → ngx_atoi (sprintf_d n) = n.
Proof.
  intros Hn. destruct (sprintf_d_dec n) as (H1 & H2 & H3); [lia|]. rewrite atoi_decimal. rewrite decide_True; [done|].
  split; [done|]. split; [done|]. rewrite H3. unfold NGX_MAX_INT_T_VALUE. lia.
Qed.

(** An IPv4 text is no IPv6 text, whatever follows. *)
Lemma v6_digits_dot ds rest s :
  Forall is_digit ds → digit s = None → 0 <= nibbles s → v6_loop (ds ++ "."%ch :: rest) s = Some None.
Proof.
  intros H. revert s. induction H as [|c ds Hc _ IH]; intros s Hd Hn; cbn [app v6_loop].
  - change (46 =? 58) with false. change (46 =? 46) with true. cbv iota. destruct (Z.eqb_spec (nibbles s) 0) as [->|]; cbn [negb andb].
    + reflexivity.
    + by rewrite Hd.
  - unfold is_digit in Hc. rewrite (proj2 (Z.eqb_neq c 58)), (proj2 (Z.eqb_neq c 46)) by lia. cbn [andb].
    destruct (nibbles s + 1 >? 4); [done|]. rewrite (proj2 (Z.geb_le c 48)), (proj2 (Z.leb_le c 57)) by lia. cbn [andb]. apply IH; [done|cbn; lia].
Qed.

Lemma quad_not_v6 a b c d rest : octet_text a → ngx_inet6_addr (quad_text a b c d ++ rest) = Some None.
Proof.
  intros [Ha _]. unfold quad_text. rewrite <- app_assoc. cbn [app].
  assert (E : ∀ l, v6_loop (a ++ "."%ch :: l) (mk_v6 [] None None 0 0 8) = Some None) by (intros l; by apply v6_digits_dot).
  unfold ngx_inet6_addr. destruct a as [|x a]; [apply E|]. apply Forall_cons in Ha as [Hx _]. unfold is_digit in Hx. cbn [app].
  rewrite (proj2 (Z.eqb_neq x 58)) by lia. apply E.
Qed.

Lemma parse_addr_none text :
  ngx_inet_addr text = INADDR_NONE → ngx_inet6_addr text = Some None → ngx_parse_addr text = Some (inl NGX_DECLINED).
Proof. intros E1 E2. unfold ngx_parse_addr. by rewrite E1, E2. Qed.

Lemma parse_addr_port_v4 a b c d port :
  octet_text a → octet_text b → octet_text c → octet_text d → 1 <= port <= 65535 →
  ngx_inet_addr (quad_text a b c d) ≠ INADDR_NONE →
  ngx_parse_addr_port (name_of (quad_text a b c d) port) = Some (inr (sockaddr_in port (ngx_inet_addr (quad_text a b c d)))).
Proof.
  intros Ha Hb Hc Hd Hp Hn. set (q := quad_text a b c d) in *. pose proof (inet_addr_chars q Hn) as Ch.
  assert (Nc : ":"%ch ∉ q). { intros Hi. rewrite Forall_forall in Ch. destruct (Ch _ Hi) as [Hx|Hx]; [unfold is_digit in Hx; lia|done]. }
  unfold ngx_parse_addr_port, name_of. change (bs ":" ++ sprintf_d port) with (":"%ch :: sprintf_d port). 
  rewrite parse_addr_none; [cbn [mbind option_bind]| |by apply quad_not_v6].
  2: { destruct (decide (ngx_inet_addr (q ++ ":"%ch :: sprintf_d port) = INADDR_NONE)) as [|E]; [done|].
       pose proof (inet_addr_chars _ E) as C2. apply Forall_app in C2 as [_ C2]. apply Forall_cons in C2 as [[Hx|Hx] _]; [unfold is_digit in Hx; lia|done]. }
  assert (Es : split_port (q ++ ":"%ch :: sprintf_d port) = Some (q, sprintf_d port)).
  { unfold split_port. assert (Hb1 : match q ++ ":"%ch :: sprintf_d port with [] => false | x :: _ => x =? "["%ch end = false).
    { destruct q as [|x q']; [done|]. cbn. apply Forall_cons in Ch as [[Hx|Hx] _]; [unfold is_digit in Hx; lia|by subst]. }
    rewrite Hb1, find_char_app by done. rewrite take_app_length. replace (S (length q)) with (length q + 1)%nat by lia. by rewrite <- drop_drop, drop_app_length. }
  rewrite Es, sprintf_d_atoi by lia. replace ((port <? 1) || (port >? 65535)) with false by lia.
  unfold ngx_parse_addr. rewrite (proj2 (Z.eqb_neq _ _) Hn). done.
Qed.

(** A text that [ngx_inet6_addr] accepts has no bracket. *)
Lemma v6_loop_chars p s r :
  v6_loop p s = Some (Some r) → (∀ t, digit s = Some t → ∃ pre, t = pre ++ p) → "]"%ch ∉ p.
Proof.
  revert s. induction p as [|c p IH]; intros s E Hd; [apply not_elem_of_nil|]. apply not_elem_of_cons. cbn [v6_loop] in E.
  assert (Next : ∀ s', v6_loop p s' = Some (Some r) → (∀ t, digit s' = Some t → t = p ∨ digit s = Some t) → "]"%ch ∉ p).
  { intros s' E' H'. apply (IH s' E'). intros t Ht. destruct (H' t Ht) as [->|H2]; [by exists []|]. destruct (Hd t H2) as [pre ->].
    exists (pre ++ [c]). by rewrite <- app_assoc. }
  destruct (Z.eqb_spec c 58) as [->|Hc]; [split; [done|]|].
  - destruct (negb (nibbles s =? 0)).
    + destruct (put_word _ _ _) as [o|]; [|done]. cbn [mbind option_bind] in E. destruct (negb _); [|done]. eapply Next; [exact E|]. intros t [= <-]. by left.
    + destruct (zero s); [done|]. eapply Next; [exact E|]. intros t [= <-]. by left.
  - destruct ((c =? 46) && negb (nibbles s =? 0)) eqn:E46.
    + apply andb_true_iff in E46 as [->%Z.eqb_eq _]. split; [done|]. destruct (digit s) as [t|] eqn:Edi; [|done].
      destruct (groups s <? 2); [done|]. cbv zeta in E. destruct (Z.eqb_spec (ngx_inet_addr t) INADDR_NONE) as [|En]; [done|].
      destruct (Hd t eq_refl) as [pre ->]. pose proof (inet_addr_chars _ En) as C. apply Forall_app in C as [_ C]. apply Forall_cons in C as [_ C].
      intros Hi. rewrite Forall_forall in C. destruct (C _ Hi) as [Hx|Hx]; [unfold is_digit in Hx; lia|done].
    + destruct (nibbles s + 1 >? 4); [done|]. destruct ((c >=? 48) && (c <=? 57)) eqn:Edg.
      * split; [lia|]. eapply Next; [exact E|]. by right.
      * cbv zeta in E. destruct ((u_char (Z.lor c 0x20) >=? 97) && (u_char (Z.lor c 0x20) <=? 102)) eqn:Ehx; [|done].
        split; [intros <-; by vm_compute in Ehx|]. eapply Next; [exact E|]. by right.
Qed.

Lemma inet6_no_bracket text a : ngx_inet6_addr text = Some (Some a) → "]"%ch ∉ text.
Proof.
  unfold ngx_inet6_addr. destruct text as [|c text]; [done|]. destruct (Z.eqb_spec c 58) as [->|].
  - intros E%v6_loop_chars; [|done]. by apply not_elem_of_cons.
  - intros E%v6_loop_chars; [done|done].
Qed.

Lemma inet6_not_v4 text a : ngx_inet6_addr text = Some (Some a) → ngx_inet_addr text = INADDR_NONE.
Proof.
  intros E. destruct (decide (ngx_inet_addr text = INADDR_NONE)) as [|H]; [done|]. exfalso.
  destruct (inet_addr_quads text H) as (x & b & c & d & -> & Hx & _). rewrite <- (app_nil_r (quad_text _ _ _ _)) in E.
  by rewrite quad_not_v6 in E.
Qed.

Definition bracketed (text : bytes) : bytes := bs "[" ++ text ++ bs "]".

Lemma parse_addr_port_v6 text a port :
  ngx_inet6_addr text = Some (Some a) → 1 <= port <= 65535 →
  ngx_parse_addr_port (name_of (bracketed text) port) = Some (inr (sockaddr_in6 port a)).
Proof.
  intros E Hp. pose proof (inet6_no_bracket _ _ E) as Nb. pose proof (inet6_not_v4 _ _ E) as N4.
  set (t := name_of (bracketed text) port). assert (Et : t = "["%ch :: text ++ "]"%ch :: ":"%ch :: sprintf_d port).
  { unfold t, name_of, bracketed. rewrite <- !app_assoc. done. }
  rewrite Et. unfold ngx_parse_addr_port. rewrite parse_addr_none; [cbn [mbind option_bind]|done|done].
  assert (Es : split_port ("["%ch :: text ++ "]"%ch :: ":"%ch :: sprintf_d port) = Some (text, sprintf_d port)).
  { unfold split_port. change ("["%ch =? "["%ch) with true. cbv iota.
    change ("["%ch :: text ++ "]"%ch :: ":"%ch :: sprintf_d port) with (("["%ch :: text) ++ "]"%ch :: ":"%ch :: sprintf_d port).
    rewrite find_char_app by (by apply not_elem_of_cons). cbn [length app].
    rewrite (proj2 (Nat.eqb_neq _ _)) by (rewrite length_app; cbn [length]; lia).
    assert (El : ("["%ch :: text ++ "]"%ch :: ":"%ch :: sprintf_d port) !!! S (S (length text)) = ":"%ch).
    { apply list_lookup_total_correct. change ((("["%ch :: text) ++ "]"%ch :: ":"%ch :: sprintf_d port) !! S (S (length text)) = Some ":"%ch).
      rewrite lookup_app_r by (cbn; lia). by replace (S (S (length text)) - length ("["%ch :: text))%nat with 1%nat by (cbn; lia). }
    rewrite El. cbn [orb negb]. rewrite Z.eqb_refl. cbn [negb].
    assert (Ed : drop (S (length text) + 2) ("["%ch :: text ++ "]"%ch :: ":"%ch :: sprintf_d port) = sprintf_d port).
    { change (S (length text) + 2)%nat with (S (length text + 2)). cbn [drop]. rewrite <- drop_drop, drop_app_length. done. }
    rewrite Ed. do 2 f_equal. change (drop 1 ("["%ch :: ?l)) with l.
    replace (_ - _ - _)%nat with (length text) by (cbn [length]; rewrite length_app; cbn [length]; lia). apply take_app_length. }
  rewrite Es, sprintf_d_atoi by lia. replace ((port <? 1) || (port >? 65535)) with false by lia.
  unfold ngx_parse_addr. rewrite N4, E. done.
Qed.

(** ** What is printed can be read *)

(** An address of a server: not 255.255.255.255 and none of the two that contain it. *)
Definition has_text (sa : sockaddr) : Prop :=
  match sa with
  | sockaddr_in _ a => a ≠ INADDR_NONE
  | sockaddr_in6 _ a => a ∉ unreadable
  | sockaddr_un _ => False
  end.

Definition readable (sa : sockaddr) : Prop := sockaddr_ok sa ∧ has_text sa.

Definition ntop_len (sa : sockaddr) : nat :=
  match sa with
  | sockaddr_in _ _ => NGX_INET_ADDRSTRLEN + length (bs ":65535")
  | _ => NGX_INET6_ADDRSTRLEN + length (bs "[]:65535")
  end.

Lemma sprintf_d_port n : 0 <= n <= 65535 → (length (sprintf_d n) <= 5)%nat.
Proof.
  intros Hn. destruct (sprintf_num_digits_dec n ltac:(lia)) as (_ & _ & _ & Hl). unfold sprintf_d.
  rewrite ngx_sprintf_num_fits by (unfold NGX_MAX_INT_T_VALUE, NGX_INT64_LEN in *; lia).
  replace (Z.to_nat (0 - _)) with 0%nat by lia. cbn [replicate app]. unfold sprintf_num_digits. cbn [Z.eqb].
  assert (H5 : 0 <= n < 10 ^ Z.of_nat 5) by (change (10 ^ Z.of_nat 5) with 100000; lia).
  rewrite (sprintf_digits_fuel 10 _ 5) by (done || unfold NGX_INT64_LEN; lia).
  destruct (sprintf_digits_dec 5 n [] H5) as (ds & -> & _ & _ & _ & H); [lia|]. by rewrite app_nil_r.
Qed.

Lemma sock_name_read (sa : sockaddr) (len : nat) :
  readable sa → 1 <= ngx_inet_get_port sa → (ntop_len sa <= len)%nat →
  ngx_parse_addr_port (ngx_sock_ntop sa (socklen_of sa) len true) = Some (inr sa).
Proof.
  intros [Hok Hr] Hp Hl. destruct sa as [p a|p a|path]; [| |done]; cbn [ngx_inet_get_port ngx_sock_ntop ntop_len] in *.
  - destruct Hok as [Hp2 Ha]. destruct (of_bytes_split a Ha) as (x & y & z & w & Hx & Hy & Hz & Hw & ->).
    unfold in_addr_bytes. destruct (byte_at_of_bytes x y z w) as (-> & -> & -> & ->); try done. rewrite sprintf_quad_text.
    destruct (sprintf_d_octet x Hx) as [X1 X2], (sprintf_d_octet y Hy) as [Y1 Y2], (sprintf_d_octet z Hz) as [Z1 Z2], (sprintf_d_octet w Hw) as [W1 W2].
    pose proof (inet_addr_quad _ _ _ _ X1 Y1 Z1 W1) as Eq. rewrite X2, Y2, Z2, W2 in Eq. rewrite take_ge.
    + fold (name_of (quad_text (sprintf_d x) (sprintf_d y) (sprintf_d z) (sprintf_d w)) p).
      rewrite parse_addr_port_v4 by (done || lia || by rewrite Eq). by rewrite Eq.
    + pose proof (sprintf_d_short x Hx). pose proof (sprintf_d_short y Hy). pose proof (sprintf_d_short z Hz). pose proof (sprintf_d_short w Hw).
      pose proof (sprintf_d_port p ltac:(lia)). vm_compute in Hl. unfold quad_text. repeat (rewrite length_app; cbn [length]). cbn. lia.
  - destruct Hok as (Hp2 & La & Ba). pose proof (inet6_back a len La Ba ltac:(unfold NGX_INET6_ADDRSTRLEN in *; lia) Hr) as E.
    rewrite <- (parse_addr_port_v6 _ _ p E) by lia. f_equal. unfold name_of, bracketed. by rewrite <- !app_assoc.
Qed.

(** C25. The name of a socket address denotes it: for every IPv4 or IPv6 address
    with a port, [ngx_parse_addr_port] reads from what [ngx_sock_ntop] writes the
    same address and port (but for 255.255.255.255 and the IPv6 addresses that are
    written with it). *)
Theorem sock_ntop_roundtrip (sa : sockaddr) (len : nat) :
  readable sa → 1 <= ngx_inet_get_port sa → (ntop_len sa <= len)%nat →
  ngx_parse_addr_port (ngx_sock_ntop sa (socklen_of sa) len true) = Some (inr sa).
Proof. apply sock_name_read. Qed.

Lemma sock_ntop_roundtrip_witness :
  ngx_sock_ntop (sockaddr_in6 443 (replicate 15 0 ++ [1])) 28 54 true = bs "[::1]:443"
  ∧ ngx_parse_addr_port (ngx_sock_ntop (sockaddr_in6 443 (replicate 15 0 ++ [1])) 28 54 true)
    = Some (inr (sockaddr_in6 443 (replicate 15 0 ++ [1]))).
Proof.
  split; [vm_compute; reflexivity|].
  apply (sock_ntop_roundtrip (sockaddr_in6 443 (replicate 15 0 ++ [1])) 54); [|vm_compute; discriminate|vm_compute; lia].
  split; [split; [lia|split; [reflexivity|solve_bytes]]|]. apply not_elem_of_cons. split; [discriminate|]. apply not_elem_of_cons.
  split; [discriminate|apply not_elem_of_nil].
Defined.

(** ** URLs *)

Definition named (p : Z) (ad : ngx_addr_t) : Prop :=
  ngx_inet_get_port (addr_sockaddr ad) = p ∧ addr_socklen ad = socklen_of (addr_sockaddr ad)
  ∧ (has_text (addr_sockaddr ad) → ngx_parse_addr_port (addr_name ad) = Some (inr (addr_sockaddr ad))).

Lemma set_port_ok sa p : sockaddr_ok sa → 0 <= p <= 65535 → sockaddr_ok (ngx_inet_set_port sa p).
Proof. intros H1 Hp. destruct sa as [p' a|p' a|path]; [| |done]; destruct H1 as [_ H1]; by split. Qed.

Lemma entry_named sa p len :
  sockaddr_ok sa → sa_family sa = AF_INET ∨ sa_family sa = AF_INET6 → 1 <= p <= 65535 → (ntop_len sa <= len)%nat →
  let sa' := ngx_inet_set_port sa p in named p (mk_addr sa' (socklen_of sa') (ngx_sock_ntop sa' (socklen_of sa') len true)).
Proof.
  intros Hr Hf Hp Hl sa'. pose proof (set_port_ok sa p Hr ltac:(lia)) as Hr'. fold sa' in Hr'.
  assert (Ep : ngx_inet_get_port sa' = p) by (destruct sa as [| |path]; [done..|by destruct Hf]).
  split; [done|]. split; [done|]. intros Ht. apply (sock_name_read sa' len); [done|cbn; rewrite Ep; lia|]. by destruct sa.
Qed.

Section Urls.
Context (getaddrinfo : bytes → option (list sockaddr)).
Context (resolver : ∀ h l, getaddrinfo h = Some l → Forall sockaddr_ok l).

Lemma resolve_named h p l :
  1 <= p <= 65535 → ngx_inet_resolve_host getaddrinfo h p = inr l → l ≠ [] ∧ Forall (named p) l.
Proof.
  intros Hp. unfold ngx_inet_resolve_host. destruct (getaddrinfo (take _ h)) as [res|] eqn:E; [|done]. pose proof (resolver _ res E) as R.
  cbv zeta. destruct (Nat.eqb_spec (length (filter (fun sa => sa_family sa = AF_INET) res)
    + length (filter (fun sa => sa_family sa = AF_INET6) res)) 0) as [|Hn]; [done|]. intros [= <-]. split.
  - intros El. apply (f_equal length) in El. rewrite length_app, !length_map in El. cbn in El. lia.
  - apply Forall_app. split; apply Forall_map, Forall_forall; intros sa [Hf Hin]%list_elem_of_filter;
      rewrite Forall_forall in R; apply entry_named; auto; destruct sa; done.
Qed.

(** What a URL that was accepted looks like. *)
Record url_ok (u : url_in) (o : url_out) : Prop := {
  uo_port : 1 <= port o <= 65535;
  uo_named : Forall (named (port o)) (addrs o);
  uo_addrs : no_resolve u = false → listen u = false → addrs o ≠ [];
  uo_text : url u = host o ++ (if no_port o then [] else if (length (host o) =? 0)%nat then port_text o else bs ":" ++ port_text o) ++ uri o;
  uo_number : port o = if no_port o then default_port u else ngx_atoi (port_text o)
}.

Lemma inet_url_host_ok u h pt ur p np o :
  1 <= p <= 65535 → inet_url_host getaddrinfo u h pt ur p np = inr o →
  url u = h ++ (if np then [] else bs ":" ++ pt) ++ ur → p = (if np then default_port u else ngx_atoi pt) → url_ok u o.
Proof.
  intros Hp E Et En. unfold inet_url_host in E. destruct (Nat.eqb_spec (length h) 0) as [|Hh]; [done|].
  assert (Hh' : (length h =? 0)%nat = false) by (by apply Nat.eqb_neq).
  destruct (listen u && _ && _) eqn:El.
  { injection E as <-. split; cbn; rewrite ?Hh'; try done. intros _ Hl. by rewrite Hl in El. }
  cbv zeta in E. destruct (Z.eqb_spec (ngx_inet_addr h) INADDR_NONE) as [Ea|Ea]; cbn [negb] in E.
  - destruct (no_resolve u) eqn:Enr; [injection E as <-; split; cbn; rewrite ?Hh'; try done; congruence|].
    destruct (ngx_inet_resolve_host getaddrinfo h p) as [|l] eqn:Er; [done|]. destruct (resolve_named h p l Hp Er) as [Hne Hall].
    destruct l as [|ad l]; [done|]. injection E as <-. split; cbn; rewrite ?Hh'; done.
  - injection E as <-. split; cbn; rewrite ?Hh'; try done. constructor; [|constructor]. split; [done|]. split; [done|]. cbn.
    destruct (inet_addr_quads h Ea) as (a & b & c & d & -> & Ha & Hb & Hc & Hd). by apply parse_addr_port_v4.
Qed.

(** A host, a colon, a port and what follows from [last] on. *)
Lemma host_port_uri c last text :
  find_char ":"%ch text = Some c → (S c < last)%nat →
  text = take c text ++ (bs ":" ++ drop (S c) (take last text)) ++ drop last text.
Proof.
  intros E Hl. pose proof (find_char_split ":"%ch text) as H. rewrite E in H. destruct H as (Et & _ & Lc).
  rewrite <- (take_drop last text) at 1. rewrite app_assoc. f_equal. rewrite <- (take_drop c (take last text)) at 1.
  rewrite take_take, Nat.min_l by lia. f_equal. apply drop_S.
  rewrite lookup_take_lt by lia. rewrite <- Et. rewrite lookup_app_r by (rewrite length_take; lia).
  by replace (c - length (take c text))%nat with O by (rewrite length_take; lia).
Qed.

Lemma parse_inet_url_ok u o :
  1 <= default_port u <= 65535 → ngx_parse_inet_url getaddrinfo u = inr o → url_ok u o.
Proof.
  intros Hd. unfold ngx_parse_inet_url. cbv zeta. set (text := url u).
  set (start := match find_char "?"%ch text, find_char "/"%ch text with
                | Some q, Some s => Some (if (q <? s)%nat then q else s) | Some q, None => Some q | None, s => s end).
  destruct (match start with Some _ => listen u || negb (uri_part u) | None => false end); [done|].
  set (last := match start with Some i => i | None => length text end).
  set (colon := match start with
                | Some i => match find_char ":"%ch text with
                            | Some c => if (i <? c)%nat then None else Some c | None => find_char ":"%ch text end
                | None => find_char ":"%ch text end).
  assert (Hc : ∀ c, colon = Some c → find_char ":"%ch text = Some c).
  { intros c. unfold colon. destruct start as [i|], (find_char ":"%ch text) as [c'|]; try done. by destruct (i <? c')%nat. }
  destruct colon as [c|] eqn:Ec.
  - set (pt := drop (S c) (take last text)). destruct ((ngx_atoi pt <? 1) || (ngx_atoi pt >? 65535)) eqn:En; [done|].
    intros E. assert (Hl : (S c < last)%nat).
    { destruct (decide (S c < last)%nat) as [|Hn]; [done|]. unfold pt in En. rewrite drop_ge in En by (rewrite length_take; lia). by vm_compute in En. }
    eapply inet_url_host_ok; [|exact E|apply host_port_uri; [by apply Hc|done]|done]. lia.
  - assert (Et : text = take last text ++ [] ++ drop last text) by (cbn [app]; by rewrite take_drop).
    destruct (match start with None => listen u && negb (ngx_atoi (take last text) =? NGX_ERROR) | Some _ => false end) eqn:El.
    + destruct start; [done|]. unfold last. rewrite firstn_all.
      destruct ((ngx_atoi text <? 1) || (ngx_atoi text >? 65535)) eqn:En; [done|]. intros [= <-].
      split; cbn; [lia|done| |by rewrite app_nil_r|done]. intros _ Hl. by rewrite Hl in El.
    + intros E. eapply inet_url_host_ok; [exact Hd|exact E|done|done].
Qed.

(** [ngx_parse_inet6_url] after the host was delimited. *)
Lemma inet6_url_finish u x ur pt p (np : bool) :
  1 <= p <= 65535 → url u = bracketed x ++ (if np then [] else bs ":" ++ pt) ++ ur →
  p = (if np then default_port u else ngx_atoi pt) → ∃ r, (a ← ngx_inet6_addr x;
    Some (match a with
          | None => inl invalid_IPv6_address : url_error + url_out
          | Some a => inr (mk_url_out (bracketed x) pt ur p AF_INET6 np (v6_unspecified a) sizeof_sockaddr_in6 (sockaddr_in6 p a)
                             [mk_addr (sockaddr_in6 p a) sizeof_sockaddr_in6 (name_of (bracketed x) p)])
          end)) = Some r ∧ ∀ o, r = inr o → url_ok u o.
Proof.
  intros Hp Et En. destruct (inet6_defined x) as ([a|] & E & _); rewrite E; cbn [mbind option_bind]; eexists; (split; [done|]); [|done].
  intros o [= <-]. split; cbn; try done. constructor; [|constructor]. split; [done|]. split; [done|]. intros _. by apply parse_addr_port_v6.
Qed.

Lemma parse_inet6_url_ok u :
  1 <= default_port u <= 65535 → match url u with c :: _ => c =? "["%ch | [] => false end = true →
  ∃ r, ngx_parse_inet6_url u = Some r ∧ ∀ o, r = inr o → url_ok u o.
Proof.
  intros Hd Hb. unfold ngx_parse_inet6_url. cbv zeta.
  assert (Err : ∀ e, ∃ r, Some (inl e : url_error + url_out) = Some r ∧ ∀ o, r = inr o → url_ok u o) by (intros e; by eexists).
  destruct (url u) as [|c0 t] eqn:Eu; [done|]. apply Z.eqb_eq in Hb as ->. change (drop 1 ("["%ch :: t)) with t.
  pose proof (find_char_split "]"%ch t) as Hs. destruct (find_char "]"%ch t) as [i|]; [|apply Err]. destruct Hs as (Et & _ & Li).
  set (x := take i t) in *. set (r := drop (S i) t) in *. assert (Lx : length x = i) by (apply length_take_le; lia).
  assert (Er : drop (i + 2) ("["%ch :: t) = r) by (unfold r; by replace (i + 2)%nat with (S (S i)) by lia).
  assert (Eh : take (i + 2) ("["%ch :: t) = bracketed x).
  { rewrite <- Et, <- Lx. replace (length x + 2)%nat with (S (length x + 1)) by lia. unfold bracketed. cbn [take]. rewrite take_app_add. done. }
  rewrite Er, Eh. assert (Eb : url u = bracketed x ++ r) by (unfold bracketed; rewrite Eu, <- Et; by rewrite <- !app_assoc).
  destruct (match find_char "/"%ch r with Some _ => _ | None => _ end); [apply Err|].
  set (q := match find_char "/"%ch r with Some j => (take j r, drop j r) | None => (r, []) end).
  assert (Eq : q.1 ++ q.2 = r) by (unfold q; destruct (find_char "/"%ch r); [apply take_drop|apply app_nil_r]).
  destruct q as [rest ur]. cbn [fst snd] in Eq. rewrite <- Eq in Eb. destruct rest as [|c pt].
  - destruct (i =? 0)%nat; [apply Err|]. by apply inet6_url_finish.
  - destruct (Z.eqb_spec c ":"%ch) as [->|]; cbn [negb]; [|apply Err].
    destruct ((ngx_atoi pt <? 1) || (ngx_atoi pt >? 65535)) eqn:En; [apply Err|].
    destruct (i =? 0)%nat; [apply Err|]. apply inet6_url_finish; [lia|by rewrite Eb|done].
Qed.

(** C24. A URL of a server that is accepted means what it says: with a default port
    in 1..65535, and a resolver that returns well-formed addresses, [ngx_parse_url]
    stays inside of its arrays on any text, and unless the address is a socket of
    the file system, the text is the host, the port and the URI that were found, the
    port is the default or the number in the text and in 1..65535, there are
    addresses unless the caller asked for none, and every one of them carries that
    port and a name that [ngx_parse_addr_port] reads back as that address, unless it
    is the broadcast address 255.255.255.255 or ends in it ([unreadable]), whose
    text the reader of addresses takes for an error. *)
Theorem parse_url_names (u : url_in) :
  1 <= default_port u <= 65535 →
  ∃ r, ngx_parse_url getaddrinfo u = Some r ∧ ∀ o, r = inr o → url_family o ≠ AF_UNIX → url_ok u o.
Proof.
  intros Hd. unfold ngx_parse_url. cbv zeta. destruct ((5 <=? length (url u))%nat && _).
  { eexists. split; [done|]. intros o E Hu. exfalso. apply Hu. unfold ngx_parse_unix_domain_url in E. cbv zeta in E.
    destruct (match _ with Some i => _ | None => _ end) as [path ur]. destruct (length path =? 0)%nat; [done|].
    destruct (sizeof_sun_path <? _)%nat; [done|]. by injection E as <-. }
  destruct (match url u with c :: _ => c =? "["%ch | [] => false end) eqn:Eb.
  - destruct (parse_inet6_url_ok u Hd Eb) as (r & E & H). exists r. split; [done|]. intros o Eo _. by apply H.
  - eexists. split; [done|]. intros o E _. by apply parse_inet_url_ok.
Qed.

End Urls.

Lemma parse_url_names_witness :
  let res (_ : bytes) := Some [sockaddr_in6 0 (replicate 15 0 ++ [1]); sockaddr_in 0 0x0100007f] in
  let u := mk_url_in (bs "localhost:6379/x") 80 false true false in
  ngx_parse_url res u
  = Some (inr (mk_url_out (bs "localhost") (bs "6379") (bs "/x") 6379 AF_INET false false 16 (sockaddr_in 6379 0x0100007f)
                 [mk_addr (sockaddr_in 6379 0x0100007f) 16 (bs "127.0.0.1:6379");
                  mk_addr (sockaddr_in6 6379 (replicate 15 0 ++ [1])) 28 (bs "[::1]:6379")]))
  ∧ ∃ r, ngx_parse_url res u = Some r ∧ ∀ o, r = inr o → url_family o ≠ AF_UNIX → url_ok u o.
Proof.
  intros res u. split; [vm_compute; reflexivity|]. apply (parse_url_names res).
  - intros h l [= <-]. constructor; [|constructor; [|constructor] ]; [split; [lia|split; [reflexivity|solve_bytes] ]|vm_compute; repeat split; discriminate].
  - cbn. lia.
Defined.

End NgxUrl.
