(* ===== verification/NgxRbtree.v ===== *)
(** The red-black trees of nginx: core/ngx_rbtree.c and core/ngx_rbtree.h.

    Memory is a map from addresses to nodes; following a pointer to an address without a
    node is [None].  The two mirrored halves of the code are one definition with a side as
    its argument.  Trees with addresses ([tree]) describe the memory: [rep] relates the
    two, parent pointers included. *)

From S2P Require Import Prelude.
From stdpp Require Import gmap.

Open Scope Z_scope.

Module NgxRbtree.

(** * Definitions *)

(** [ngx_rbtree_node_t]; NULL is 0. *)
Record node := mk_node { key : Z; left : Z; right : Z; parent : Z; color : Z; data : Z }.

Definition set_key (v : Z) (n : node) : node := mk_node v (left n) (right n) (parent n) (color n) (data n).
Definition set_left (v : Z) (n : node) : node := mk_node (key n) v (right n) (parent n) (color n) (data n).
Definition set_right (v : Z) (n : node) : node := mk_node (key n) (left n) v (parent n) (color n) (data n).
Definition set_parent (v : Z) (n : node) : node := mk_node (key n) (left n) (right n) v (color n) (data n).
Definition set_color (v : Z) (n : node) : node := mk_node (key n) (left n) (right n) (parent n) v (data n).

Definition ngx_rbt_red : node → node := set_color 1.
Definition ngx_rbt_black : node → node := set_color 0.
Definition ngx_rbt_is_red (n : node) : bool := negb (color n =? 0).
Definition ngx_rbt_is_black (n : node) : bool := negb (ngx_rbt_is_red n).

Inductive side := L | R.

Definition opp (d : side) : side := match d with L => R | R => L end.
Definition child (d : side) (n : node) : Z := match d with L => left n | R => right n end.
Definition set_child (d : side) (v : Z) (n : node) : node := match d with L => set_left v n | R => set_right v n end.

(** The nodes and [tree->root]. *)
Record mem := mk_mem { nodes : gmap Z node; root : Z }.

Abbreviation M := (St mem).

(** [f(node)] for a field [f], and the change of the fields of a node. *)
Definition rd {A} (f : node → A) (a : Z) : M A := fun s => match nodes s !! a with Some n => Some (f n, s) | None => None end.
Definition wr (f : node → node) (a : Z) : M unit :=
  fun s => match nodes s !! a with Some n => Some (tt, mk_mem (<[a := f n]> (nodes s)) (root s)) | None => None end.
Definition get_root : M Z := fun s => Some (root s, s).
Definition set_root (r : Z) : M unit := fun s => Some (tt, mk_mem (nodes s) r).

(** Rounds for the loops that go up or down the tree. *)
Definition rounds : M nat := fun s => Some (S (size (nodes s)), s).

Section Tree.
(** [tree->sentinel]. *)
Context (sentinel : Z).

(** The pointer to [node] from above, side [d] tested first. *)
Definition relink (d : side) (node temp : Z) : M unit :=
  r ← get_root;
  if node =? r then set_root temp
  else
    p ← rd parent node;
    c ← rd (child d) p;
    if node =? c then wr (set_child d temp) p else wr (set_child (opp d) temp) p.

Definition ngx_rbtree_rotate (d : side) (node : Z) : M unit :=
  temp ← rd (child (opp d)) node;
  c ← rd (child d) temp;
  wr (set_child (opp d) c) node;;
  (if c =? sentinel then mret tt else wr (set_parent node) c);;
  p ← rd parent node;
  wr (set_parent p) temp;;
  relink d node temp;;
  wr (set_child d node) temp;;
  wr (set_parent temp) node.

Definition ngx_rbtree_left_rotate : Z → M unit := ngx_rbtree_rotate L.
Definition ngx_rbtree_right_rotate : Z → M unit := ngx_rbtree_rotate R.

(** The search of [ngx_rbtree_insert_value] and [ngx_rbtree_insert_timer_value]: the node
    and the side where the pointer is the sentinel. *)
Fixpoint descend (less : Z → Z → bool) (fuel : nat) (temp node : Z) : M (Z * side) :=
  match fuel with
  | O => stuck
  | S fuel =>
      k ← rd key node;
      k' ← rd key temp;
      let d := if less k k' then L else R in
      p ← rd (child d) temp;
      if p =? sentinel then mret (temp, d) else descend less fuel p node
  end.

Definition insert_at (less : Z → Z → bool) (temp node : Z) : M unit :=
  fuel ← rounds;
  r ← descend less fuel temp node;
  wr (set_child r.2 node) r.1;;
  wr (set_parent r.1) node;;
  wr (set_left sentinel) node;;
  wr (set_right sentinel) node;;
  wr ngx_rbt_red node.

(** Keys are [ngx_uint_t]; timers are compared by the sign of their difference. *)
Definition key_less (k k' : Z) : bool := k <? k'.
Definition timer_less (k k' : Z) : bool := wrap_s 64 (k - k') <? 0.

Definition ngx_rbtree_insert_value : Z → Z → M unit := insert_at key_less.
Definition ngx_rbtree_insert_timer_value : Z → Z → M unit := insert_at timer_less.

Fixpoint insert_fix (fuel : nat) (node : Z) : M unit :=
  match fuel with
  | O => stuck
  | S fuel =>
      r ← get_root;
      if node =? r then mret tt
      else
        p ← rd parent node;
        red ← rd ngx_rbt_is_red p;
        if negb red then mret tt
        else
          g ← rd parent p;
          gl ← rd left g;
          let d := if p =? gl then L else R in
          temp ← rd (child (opp d)) g;
          tred ← rd ngx_rbt_is_red temp;
          if (tred : bool) then
            wr ngx_rbt_black p;;
            wr ngx_rbt_black temp;;
            wr ngx_rbt_red g;;
            insert_fix fuel g
          else
            c ← rd (child (opp d)) p;
            node ← (if node =? c then ngx_rbtree_rotate d p;; mret p else mret node);
            p ← rd parent node;
            wr ngx_rbt_black p;;
            g ← rd parent p;
            wr ngx_rbt_red g;;
            ngx_rbtree_rotate (opp d) g;;
            insert_fix fuel node
  end.

(** [insert] is [tree->insert]. *)
Definition ngx_rbtree_insert (insert : Z → Z → M unit) (node : Z) : M unit :=
  r ← get_root;
  if r =? sentinel then
    wr (set_parent 0) node;;
    wr (set_left sentinel) node;;
    wr (set_right sentinel) node;;
    wr ngx_rbt_black node;;
    set_root node
  else
    insert r node;;
    fuel ← rounds;
    insert_fix fuel node;;
    r ← get_root;
    wr ngx_rbt_black r.

Fixpoint rbtree_min (fuel : nat) (node : Z) : M Z :=
  match fuel with
  | O => stuck
  | S fuel =>
      l ← rd left node;
      if l =? sentinel then mret node else rbtree_min fuel l
  end.

Definition ngx_rbtree_min (node : Z) : M Z := fuel ← rounds; rbtree_min fuel node.

(** The node whose place in the tree is given up and the child that takes it. *)
Definition delete_subst (node : Z) : M (Z * Z) :=
  l ← rd left node;
  r ← rd right node;
  if l =? sentinel then mret (node, r)
  else if r =? sentinel then mret (node, l)
  else
    subst ← ngx_rbtree_min r;
    sl ← rd left subst;
    if negb (sl =? sentinel) then mret (subst, sl) else sr ← rd right subst; mret (subst, sr).

(** [subst] takes the place of [node]. *)
Definition replace_node (node subst : Z) : M unit :=
  l ← rd left node;
  wr (set_left l) subst;;
  r ← rd right node;
  wr (set_right r) subst;;
  p ← rd parent node;
  wr (set_parent p) subst;;
  c ← rd color node;
  wr (set_color c) subst;;
  relink L node subst;;
  l ← rd left subst;
  (if l =? sentinel then mret tt else wr (set_parent subst) l);;
  r ← rd right subst;
  if r =? sentinel then mret tt else wr (set_parent subst) r.

Definition clear_node (node : Z) : M unit :=
  wr (set_left 0) node;;
  wr (set_right 0) node;;
  wr (set_parent 0) node;;
  wr (set_key 0) node.

(** The parts of a round of the loop in [ngx_rbtree_delete], where [temp] is on side [d]:
    a red sibling is rotated away, *)
Definition red_sibling (d : side) (temp p w : Z) : M Z :=
  red ← rd ngx_rbt_is_red w;
  if (red : bool) then
    wr ngx_rbt_black w;;
    wr ngx_rbt_red p;;
    ngx_rbtree_rotate d p;;
    p ← rd parent temp;
    rd (child (opp d)) p
  else mret w.

(** a sibling with a black outer child is rotated, *)
Definition red_far (d : side) (temp w near : Z) (fblack : bool) : M Z :=
  if fblack then
    wr ngx_rbt_black near;;
    wr ngx_rbt_red w;;
    ngx_rbtree_rotate (opp d) w;;
    p ← rd parent temp;
    rd (child (opp d)) p
  else mret w.

(** and the round with a black sibling. *)
Definition black_sibling (loop : Z → M Z) (d : side) (temp w : Z) : M Z :=
  near ← rd (child d) w;
  far ← rd (child (opp d)) w;
  nblack ← rd ngx_rbt_is_black near;
  fblack ← rd ngx_rbt_is_black far;
  if (nblack : bool) && (fblack : bool) then
    wr ngx_rbt_red w;;
    p ← rd parent temp;
    loop p
  else
    w ← red_far d temp w near fblack;
    p ← rd parent temp;
    c ← rd color p;
    wr (set_color c) w;;
    wr ngx_rbt_black p;;
    far ← rd (child (opp d)) w;
    wr ngx_rbt_black far;;
    ngx_rbtree_rotate d p;;
    r ← get_root;
    loop r.

Fixpoint delete_fix (fuel : nat) (temp : Z) : M Z :=
  match fuel with
  | O => stuck
  | S fuel =>
      r ← get_root;
      stop ← (if temp =? r then mret true else rd ngx_rbt_is_red temp);
      if (stop : bool) then mret temp
      else
        p ← rd parent temp;
        pl ← rd left p;
        let d := if temp =? pl then L else R in
        w ← rd (child (opp d)) p;
        w ← red_sibling d temp p w;
        black_sibling (delete_fix fuel) d temp w
  end.

Definition ngx_rbtree_delete (node : Z) : M unit :=
  st ← delete_subst node;
  let '(subst, temp) := st in
  r ← get_root;
  if subst =? r then
    set_root temp;;
    wr ngx_rbt_black temp;;
    clear_node node
  else
    red ← rd ngx_rbt_is_red subst;
    p ← rd parent subst;
    pl ← rd left p;
    (if subst =? pl then wr (set_left temp) p else wr (set_right temp) p);;
    (if subst =? node then
       p ← rd parent subst;
       wr (set_parent p) temp
     else
       p ← rd parent subst;
       (if p =? node then wr (set_parent subst) temp else wr (set_parent p) temp);;
       replace_node node subst);;
    clear_node node;;
    if (red : bool) then mret tt
    else
      fuel ← rounds;
      temp ← delete_fix fuel temp;
      wr ngx_rbt_black temp.

Fixpoint next_up (fuel : nat) (root node : Z) : M Z :=
  match fuel with
  | O => stuck
  | S fuel =>
      p ← rd parent node;
      if node =? root then mret 0
      else
        l ← rd left p;
        if node =? l then mret p else next_up fuel root p
  end.

Definition ngx_rbtree_next (node : Z) : M Z :=
  r ← rd right node;
  if negb (r =? sentinel) then ngx_rbtree_min r
  else
    root ← get_root;
    fuel ← rounds;
    next_up fuel root node.

End Tree.

(** [ngx_rbtree_init] with a sentinel of any content. *)
Definition ngx_rbtree_init (s : Z) : M unit := wr ngx_rbt_black s;; set_root s.

(** * Trees with addresses *)

Inductive colour := Red | Black.

#[export] Instance colour_eq_dec : EqDecision colour.
Proof. solve_decision. Defined.

Definition cnum (c : colour) : Z := match c with Red => 1 | Black => 0 end.

Inductive tree := E | T (c : colour) (l : tree) (a k : Z) (r : tree).

(** A node with its subtree on side [d] first. *)
Definition mk (d : side) (c : colour) (a k : Z) (t1 t2 : tree) : tree :=
  match d with L => T c t1 a k t2 | R => T c t2 a k t1 end.

(** The way from a subtree to the root, innermost first. *)
Record frame := F { fside : side; fcolour : colour; faddr : Z; fkey : Z; fsib : tree }.

Definition fill (t : tree) (f : frame) : tree := mk (fside f) (fcolour f) (faddr f) (fkey f) t (fsib f).

Fixpoint plug (C : list frame) (t : tree) : tree :=
  match C with [] => t | f :: C => plug C (fill t f) end.

Fixpoint addrs (t : tree) : list Z :=
  match t with E => [] | T _ l a _ r => a :: addrs l ++ addrs r end.

Fixpoint caddrs (C : list frame) : list Z :=
  match C with [] => [] | f :: C => faddr f :: addrs (fsib f) ++ caddrs C end.

(** The nodes from left to right, with their keys. *)
Fixpoint inorder (t : tree) : list (Z * Z) :=
  match t with E => [] | T _ l a k r => inorder l ++ (a, k) :: inorder r end.

Lemma mk_opp d c a k t1 t2 : mk (opp d) c a k t1 t2 = mk d c a k t2 t1.
Proof. by destruct d. Qed.

Lemma opp_opp d : opp (opp d) = d.
Proof. by destruct d. Qed.

Lemma plug_app C1 C2 t : plug (C1 ++ C2) t = plug C2 (plug C1 t).
Proof. revert t. induction C1 as [|f C1 IH]; intros t; cbn; [done|apply IH]. Qed.

Lemma addrs_mk d c a k t1 t2 : addrs (mk d c a k t1 t2) ≡ₚ a :: addrs t1 ++ addrs t2.
Proof. destruct d; cbn; [done|]. by rewrite (Permutation_app_comm (addrs t2)). Qed.

Lemma addrs_plug C t : addrs (plug C t) ≡ₚ addrs t ++ caddrs C.
Proof.
  revert t. induction C as [|f C IH]; intros t; cbn; [by rewrite app_nil_r|].
  rewrite IH. unfold fill. rewrite addrs_mk. cbn. rewrite <- app_assoc. apply Permutation_middle.
Qed.

Lemma addrs_inorder t : addrs t ≡ₚ (inorder t).*1.
Proof.
  induction t as [|c l IHl a k r IHr]; [done|]. cbn. rewrite fmap_app. cbn. rewrite <- IHl, <- IHr.
  apply Permutation_middle.
Qed.

(** * The memory of a tree *)

Lemma rd_some {A} (f : node → A) a s n : nodes s !! a = Some n → rd f a s = Some (f n, s).
Proof. intros H. unfold rd. by rewrite H. Qed.

Lemma wr_some f a s n : nodes s !! a = Some n → wr f a s = Some (tt, mk_mem (<[a := f n]> (nodes s)) (root s)).
Proof. intros H. unfold wr. by rewrite H. Qed.

Section Memory.
Context (sentinel : Z).

Definition root_of (t : tree) : Z := match t with E => sentinel | T _ _ a _ _ => a end.

Definition cell (h : gmap Z node) (a : Z) (c : colour) (k p l r : Z) : Prop :=
  ∃ x, h !! a = Some (mk_node k l r p (cnum c) x).

(** The nodes of a tree whose root has the parent [p]. *)
Fixpoint rep (h : gmap Z node) (p : Z) (t : tree) : Prop :=
  match t with
  | E => True
  | T c l a k r => cell h a c k p (root_of l) (root_of r) ∧ rep h a l ∧ rep h a r
  end.

Definition parent_of (q : Z) (C : list frame) : Z := match C with [] => q | f :: _ => faddr f end.

(** The nodes around a subtree at the address [hole]. *)
Fixpoint crep (h : gmap Z node) (q : Z) (C : list frame) (hole : Z) : Prop :=
  match C with
  | [] => True
  | f :: C =>
      match fside f with
      | L => cell h (faddr f) (fcolour f) (fkey f) (parent_of q C) hole (root_of (fsib f))
      | R => cell h (faddr f) (fcolour f) (fkey f) (parent_of q C) (root_of (fsib f)) hole
      end ∧ rep h (faddr f) (fsib f) ∧ crep h q C (faddr f)
  end.

(** The cell of a node, by sides. *)
Lemma cell_side h d a c k p x y :
  match d with L => cell h a c k p x y | R => cell h a c k p y x end
  ↔ ∃ n, h !! a = Some n ∧ child d n = x ∧ child (opp d) n = y ∧ parent n = p ∧ color n = cnum c ∧ key n = k.
Proof.
  split.
  - destruct d; intros [w H]; eexists; (split; [exact H|done]).
  - intros ([k' l r p' c' w] & H & <- & <- & <- & Hc & <-). cbn in Hc. subst c'. by destruct d; exists w.
Qed.

Lemma root_mk d c a k t1 t2 : root_of (mk d c a k t1 t2) = a.
Proof. by destruct d. Qed.

Lemma rep_mk h p d c a k t1 t2 :
  rep h p (mk d c a k t1 t2)
  ↔ match d with
    | L => cell h a c k p (root_of t1) (root_of t2)
    | R => cell h a c k p (root_of t2) (root_of t1)
    end ∧ rep h a t1 ∧ rep h a t2.
Proof. destruct d; cbn; tauto. Qed.

Lemma rep_plug h q C t : rep h q (plug C t) ↔ crep h q C (root_of t) ∧ rep h (parent_of q C) t.
Proof.
  revert t. induction C as [|f C IH]; intros t; cbn; [tauto|]. rewrite IH. unfold fill. rewrite root_mk, rep_mk.
  destruct (fside f); tauto.
Qed.

Lemma rep_frame h h' p t : (∀ z, z ∈ addrs t → h' !! z = h !! z) → rep h p t → rep h' p t.
Proof.
  revert p. induction t as [|c l IHl a k r IHr]; intros p H; [done|]. cbn in *. intros ((x & Hc) & Hl & Hr).
  split; [exists x; rewrite H by set_solver; done|]. split; [apply IHl|apply IHr]; try done; intros z Hz; apply H; set_solver.
Qed.

Lemma rep_insert h p t a n : a ∉ addrs t → rep h p t → rep (<[a := n]> h) p t.
Proof. intros Ha. apply rep_frame. intros z Hz. apply lookup_insert_ne. by intros ->. Qed.

Lemma crep_frame h h' q C hole : (∀ z, z ∈ caddrs C → h' !! z = h !! z) → crep h q C hole → crep h' q C hole.
Proof.
  revert hole. induction C as [|f C IH]; intros hole H; [done|]. cbn in *. intros (H1 & H2 & H3).
  split; [|split; [eapply rep_frame; [|done]; set_solver|apply IH; set_solver] ].
  destruct (fside f), H1 as [x H1]; exists x; rewrite H by left; done.
Qed.

Lemma crep_insert h q C hole a n : a ∉ caddrs C → crep h q C hole → crep (<[a := n]> h) q C hole.
Proof. intros Ha. apply crep_frame. intros z Hz. apply lookup_insert_ne. by intros ->. Qed.

Lemma rep_parent h p p' t n :
  NoDup (addrs t) → rep h p t → h !! root_of t = Some n → t ≠ E → rep (<[root_of t := set_parent p' n]> h) p' t.
Proof.
  intros ND Hr Hn Ht. destruct t as [|c l a k r]; [done|]. cbn in *. destruct Hr as ((x & Hc) & Hl & Hr). rewrite Hc in Hn. injection Hn as <-.
  apply NoDup_cons in ND as [Ha _]. apply not_elem_of_app in Ha as [Ha1 Ha2].
  split; [exists x; apply lookup_insert_eq|]. split; by apply rep_insert.
Qed.

Lemma crep_hole h q f C hole hole' n :
  crep h q (f :: C) hole → h !! faddr f = Some n → faddr f ∉ addrs (fsib f) → faddr f ∉ caddrs C →
  crep (<[faddr f := set_child (fside f) hole' n]> h) q (f :: C) hole'.
Proof.
  cbn. intros (H1 & H2 & H3) Hn Ha Hc. split; [|split; [by apply rep_insert|by apply crep_insert]].
  destruct (fside f), H1 as [x H1]; rewrite H1 in Hn; injection Hn as <-; exists x; apply lookup_insert_eq.
Qed.

(** A tree in memory: [q] is the parent pointer of the root, [ps] that of the sentinel. *)
Record holds (s : mem) (q ps : Z) (t : tree) : Prop := {
  h_root : root s = root_of t;
  h_rep : rep (nodes s) q t;
  h_nodup : NoDup (addrs t);
  h_sentinel : sentinel ∉ addrs t;
  h_black : ∃ n, nodes s !! sentinel = Some n ∧ color n = 0 ∧ parent n = ps
}.

(** Only the nodes of the tree and the sentinel have changed. *)
Definition same_outside (t : tree) (s s' : mem) : Prop :=
  ∀ z, z ≠ sentinel → z ∉ addrs t → nodes s' !! z = nodes s !! z.

Lemma root_plug f C t : root_of (plug (f :: C) t) ∈ caddrs (f :: C) ∧ ∀ t', root_of (plug (f :: C) t') = root_of (plug (f :: C) t).
Proof.
  revert f t. induction C as [|g C IH]; intros f t.
  - cbn. unfold fill. setoid_rewrite root_mk. split; [left|done].
  - destruct (IH g (fill t f)) as [H1 H2]. split; [|intros t'; apply H2]. change (plug (f :: g :: C) t) with (plug (g :: C) (fill t f)).
    cbn [caddrs] in *. set_solver.
Qed.

Lemma relink_ok d C t temp s q n :
  crep (nodes s) q C (root_of t) → root s = root_of (plug C t) → nodes s !! root_of t = Some n → parent n = parent_of q C →
  root_of t ∉ caddrs C → NoDup (caddrs C) → root_of t ≠ sentinel → ∃ s', relink d (root_of t) temp s = Some (tt, s')
  ∧ crep (nodes s') q C temp ∧ root s' = match C with [] => temp | _ => root s end
  ∧ ∀ z, z ∉ caddrs C → nodes s' !! z = nodes s !! z.
Proof.
  intros Hc Hr Hn Hp Ht ND Hs. unfold relink. erewrite bind_some by done. destruct C as [|f C].
  { rewrite Hr. cbn. rewrite Z.eqb_refl. by eexists. }
  rewrite (proj2 (Z.eqb_neq _ _)) by (rewrite Hr; intros E; apply Ht; rewrite E; apply root_plug).
  erewrite bind_some by (by apply rd_some). rewrite Hp. cbn [parent_of]. pose proof Hc as (Hf & _ & _). cbn [caddrs] in *.
  apply NoDup_cons in ND as [Nf _]. apply not_elem_of_app in Nf as [Nf1 Nf2]. apply not_elem_of_cons in Ht as [Ht1 Ht2].
  apply not_elem_of_app in Ht2 as [Ht2 Ht3].
  assert (Hsib : root_of t ≠ root_of (fsib f)) by (destruct (fsib f); cbn in *; set_solver).
  assert (∃ nf, nodes s !! faddr f = Some nf ∧ (root_of t =? child d nf) = match d, fside f with L, L | R, R => true | _, _ => false end) as (nf & Hnf & Et).
  { destruct (fside f), Hf as [x Hf]; (eexists; split; [exact Hf|]); destruct d; cbn; by rewrite ?Z.eqb_refl, ?(proj2 (Z.eqb_neq _ _) Hsib). }
  erewrite bind_some by (by apply rd_some). rewrite Et. exists (mk_mem (<[faddr f := set_child (fside f) temp nf]> (nodes s)) (root s)).
  split; [|split; [by eapply crep_hole|split; [done|]]].
  - by destruct d, (fside f); cbn; erewrite wr_some by done.
  - intros z Hz. apply lookup_insert_ne. intros <-. apply Hz. left.
Qed.

(** What the nodes of a rotation have in common. *)
Lemma rotate_distinct C d cx x kx A cy y ky B D :
  NoDup (addrs (plug C (mk d cx x kx A (mk d cy y ky B D)))) →
  NoDup (caddrs C) ∧ NoDup (addrs B) ∧ x ≠ y ∧ (x ∉ addrs A) ∧ (y ∉ addrs A) ∧ (x ∉ addrs B) ∧ (y ∉ addrs B) ∧ (x ∉ addrs D) ∧ (y ∉ addrs D)
  ∧ (x ∉ caddrs C) ∧ (y ∉ caddrs C) ∧ (∀ z, z ∈ addrs B → (z ∉ addrs A) ∧ (z ∉ addrs D) ∧ (z ∉ caddrs C))
  ∧ (∀ z, z ∈ addrs A → z ∉ caddrs C) ∧ (∀ z, z ∈ addrs D → z ∉ caddrs C).
Proof.
  rewrite addrs_plug, addrs_mk. rewrite (addrs_mk d cy). cbn. rewrite !NoDup_cons, !NoDup_app, !NoDup_cons, !NoDup_app. set_solver.
Qed.

Lemma rotate_addrs C d cx x kx A cy y ky B D :
  addrs (plug C (mk d cx x kx A (mk d cy y ky B D))) ≡ₚ addrs (plug C (mk d cy y ky (mk d cx x kx A B) D)).
Proof.
  rewrite !addrs_plug. apply Permutation_app_tail. rewrite !addrs_mk. cbn. rewrite <- app_assoc.
  rewrite <- (Permutation_middle (addrs A)). apply perm_swap.
Qed.

Lemma rotate_inorder d cx x kx A cy y ky B D :
  inorder (mk d cx x kx A (mk d cy y ky B D)) = inorder (mk d cy y ky (mk d cx x kx A B) D).
Proof. destruct d; cbn; by rewrite <- ?app_assoc. Qed.

(** The pointer to the inner subtree of a rotation. *)
Lemma adopt_ok s a p t :
  rep (nodes s) p t → NoDup (addrs t) → sentinel ∉ addrs t → ∃ s',
  (if root_of t =? sentinel then mret tt else wr (set_parent a) (root_of t)) s = Some (tt, s')
  ∧ rep (nodes s') a t ∧ root s' = root s ∧ ∀ z, z ∉ addrs t → nodes s' !! z = nodes s !! z.
Proof.
  intros Hr ND Hs. destruct t as [|c l b k r]; cbn [root_of].
  { rewrite Z.eqb_refl. by exists s. }
  rewrite (proj2 (Z.eqb_neq _ _)) by set_solver. pose proof Hr as ((x & Hb) & _). cbn [root_of] in Hb.
  erewrite wr_some by done. eexists. split; [done|]. split; [by apply (rep_parent _ p _ (T c l b k r))|]. split; [done|].
  intros z Hz. apply lookup_insert_ne. set_solver.
Qed.

Lemma rotate_ok d C cx x kx A cy y ky B D s q ps :
  holds s q ps (plug C (mk d cx x kx A (mk d cy y ky B D))) →
  ∃ s', ngx_rbtree_rotate sentinel d x s = Some (tt, s')
  ∧ holds s' q ps (plug C (mk d cy y ky (mk d cx x kx A B) D))
  ∧ same_outside (plug C (mk d cx x kx A (mk d cy y ky B D))) s s'.
Proof.
  intros [Hroot Hrep ND Hs Hb].
  pose proof (rotate_distinct _ _ _ _ _ _ _ _ _ _ _ ND) as (NC & NB & Nxy & NxA & NyA & NxB & NyB & NxD & NyD & NxC & NyC & NzB & NzA & NzD).
  pose proof (rotate_addrs C d cx x kx A cy y ky B D) as HP.
  assert (In : ∀ z, z ∈ addrs (plug C (mk d cx x kx A (mk d cy y ky B D))) ↔ z = x ∨ z = y ∨ z ∈ addrs A ∨ z ∈ addrs B ∨ z ∈ addrs D ∨ z ∈ caddrs C).
  { intros z. rewrite addrs_plug, addrs_mk. rewrite (addrs_mk d cy). set_solver. }
  assert (Hs' := Hs). rewrite In in Hs'.
  apply rep_plug in Hrep as [HC Ht]. apply rep_mk in Ht as (Hx & HA & Hy). rewrite !root_mk in *. apply rep_mk in Hy as (Hy & HB & HD).
  set (h := nodes s) in *. set (p := parent_of q C) in *.
  apply cell_side in Hx as (nx & Ex & X1 & X2 & X3 & X4 & X5). apply cell_side in Hy as (ny & Ey & Y1 & Y2 & Y3 & Y4 & Y5).
  unfold ngx_rbtree_rotate. erewrite bind_some by (by apply rd_some). rewrite X2. erewrite bind_some by (by apply rd_some). rewrite Y1.
  erewrite bind_some by (by apply wr_some). fold h.
  set (h1 := <[x := _]> h). 
  destruct (adopt_ok (mk_mem h1 (root s)) x y B) as (s2 & E2 & RB & R2 & O2); [by apply rep_insert|done|tauto|].
  erewrite bind_some by exact E2. clear E2. cbn [root nodes] in *.
  assert (E2x : nodes s2 !! x = Some (set_child (opp d) (root_of B) nx)) by (rewrite O2 by done; apply lookup_insert_eq).
  assert (E2y : nodes s2 !! y = Some ny) by (rewrite O2 by done; unfold h1; by rewrite lookup_insert_ne).
  erewrite bind_some by (by apply rd_some). replace (parent (set_child (opp d) (root_of B) nx)) with p by (by destruct d).
  erewrite bind_some by (by apply wr_some). set (s3 := mk_mem _ _).
  destruct (relink_ok d C (mk d cx x kx A (mk d cy y ky B D)) y s3 q (set_child (opp d) (root_of B) nx)) as (s4 & E4 & HC4 & R4 & O4).
  { rewrite root_mk. apply crep_insert; [done|]. eapply crep_frame; [|exact HC]. intros z Hz. rewrite O2 by (intros H; by apply NzB in H as (_ & _ & H)).
    apply lookup_insert_ne. by intros ->. }
  { cbn. by rewrite R2. }
  { rewrite root_mk. cbn. by rewrite lookup_insert_ne. }
  { by destruct d. }
  { by rewrite root_mk. }
  { done. }
  { rewrite root_mk. set_solver. }
  rewrite root_mk in E4. erewrite bind_some by exact E4. clear E4.
  assert (E4x : nodes s4 !! x = Some (set_child (opp d) (root_of B) nx)) by (rewrite O4 by done; cbn; by rewrite lookup_insert_ne).
  assert (E4y : nodes s4 !! y = Some (set_parent p ny)) by (rewrite O4 by done; apply lookup_insert_eq).
  erewrite bind_some by (by apply wr_some). erewrite wr_some by (cbn; by rewrite lookup_insert_ne). eexists. split; [done|].
  cbn [nodes root]. set (h5 := <[x := _]> (<[y := _]> (nodes s4))).
  assert (P4 : ∀ z, z ≠ x → z ≠ y → h5 !! z = nodes s4 !! z) by (intros z ? ?; unfold h5; by rewrite !lookup_insert_ne).
  assert (P : ∀ z, z ≠ x → z ≠ y → z ∉ addrs B → z ∉ caddrs C → h5 !! z = h !! z).
  { intros z Zx Zy ZB ZC. rewrite P4, O4 by done. unfold s3. cbn [nodes]. rewrite lookup_insert_ne by done. rewrite O2 by done. by apply lookup_insert_ne. }
  split; [split|]; cbn [nodes root].
  - rewrite R4. destruct C as [|f C]; [cbn; by rewrite root_mk|]. cbn. rewrite R2, Hroot. apply root_plug.
  - apply rep_plug. rewrite root_mk. split; [unfold h5; by repeat apply crep_insert|]. apply rep_mk. rewrite root_mk. split.
    { apply cell_side. eexists. split; [unfold h5; rewrite lookup_insert_ne by done; apply lookup_insert_eq|]. by destruct d. }
    split; [|eapply rep_frame; [|exact HD]; intros z Hz; apply P; set_solver]. apply rep_mk. split.
    { apply cell_side. eexists. split; [apply lookup_insert_eq|]. by destruct d. }
    split; [eapply rep_frame; [|exact HA]; intros z Hz; apply P; set_solver|].
    eapply rep_frame; [|exact RB]. intros z Hz. rewrite P4, O4 by set_solver. unfold s3. cbn [nodes]. apply lookup_insert_ne. set_solver.
  - by rewrite <- HP.
  - by rewrite <- HP.
  - rewrite P by set_solver. done.
  - intros z Hz Hn. rewrite In in Hn. cbn [nodes]. apply P; set_solver.
Qed.

Lemma same_refl t s : same_outside t s s.
Proof. done. Qed.

Lemma same_trans t t' s1 s2 s3 : addrs t ≡ₚ addrs t' → same_outside t s1 s2 → same_outside t' s2 s3 → same_outside t s1 s3.
Proof. intros HP H1 H2 z Hz Hn. rewrite H2, H1; [done..|by rewrite <- HP]. Qed.

(** ** Reading and recolouring a node of a tree *)

Lemma focus_node C d c a k t1 t2 s q ps :
  holds s q ps (plug C (mk d c a k t1 t2)) →
  ∃ n, nodes s !! a = Some n ∧ child d n = root_of t1 ∧ child (opp d) n = root_of t2 ∧ parent n = parent_of q C
       ∧ color n = cnum c ∧ key n = k.
Proof. intros [_ Hr _ _ _]. apply rep_plug in Hr as [_ Hr]. apply rep_mk in Hr as [Hc _]. by apply cell_side. Qed.

Definition red_of (t : tree) : bool := match t with T Red _ _ _ _ => true | _ => false end.

Lemma root_node C t s q ps :
  holds s q ps (plug C t) →
  ∃ n, nodes s !! root_of t = Some n ∧ ngx_rbt_is_red n = red_of t ∧ parent n = match t with E => ps | _ => parent_of q C end.
Proof.
  intros H. destruct t as [|c l a k r].
  - destruct (h_black _ _ _ _ H) as (n & En & Ec & Ep). exists n. unfold ngx_rbt_is_red. by rewrite Ec.
  - apply (focus_node C L) in H as (n & En & _ & _ & Ep & Ec & _). exists n. unfold ngx_rbt_is_red. rewrite Ec. by destruct c.
Qed.

(** The side of a subtree is found by comparing pointers. *)
Lemma side_test d' d c g k sib C t s q ps n :
  holds s q ps (plug (F d c g k sib :: C) t) → nodes s !! g = Some n → t ≠ E ∨ sib ≠ E →
  (root_of t =? child d' n) = match d', d with L, L | R, R => true | _, _ => false end.
Proof.
  intros H Hn Hne. pose proof (focus_node C d c g k t sib s q ps H) as (n' & En & E1 & E2 & _). rewrite Hn in En. injection En as <-.
  assert (Hd : root_of t ≠ root_of sib).
  { pose proof (h_nodup _ _ _ _ H) as ND. pose proof (h_sentinel _ _ _ _ H) as Hs. rewrite addrs_plug in ND, Hs. cbn in ND, Hs.
    apply NoDup_app in ND as (_ & ND & _). destruct t as [|c1 l1 a1 k1 r1], sib as [|c2 l2 a2 k2 r2]; cbn in *; set_solver. }
  apply Z.eqb_neq in Hd. destruct d, d'; cbn in *; rewrite ?E1, ?E2, ?Z.eqb_refl; done.
Qed.

Lemma recolor_ok C d c a k t1 t2 c' s q ps :
  holds s q ps (plug C (mk d c a k t1 t2)) →
  ∃ s', wr (set_color (cnum c')) a s = Some (tt, s') ∧ holds s' q ps (plug C (mk d c' a k t1 t2))
  ∧ same_outside (plug C (mk d c a k t1 t2)) s s'.
Proof.
  intros H. destruct (focus_node _ _ _ _ _ _ _ _ _ _ H) as (n & En & E1 & E2 & Ep & Ec & Ek). destruct H as [Hr Hrep ND Hs (ns & Hns & Hb)].
  assert (HP : addrs (plug C (mk d c a k t1 t2)) ≡ₚ addrs (plug C (mk d c' a k t1 t2))) by (rewrite !addrs_plug, !addrs_mk; done).
  assert (Ia : a ∈ addrs (plug C (mk d c a k t1 t2))) by (rewrite addrs_plug, addrs_mk; left).
  erewrite wr_some by done. eexists. split; [done|]. split; [split|]; cbn [nodes root].
  - rewrite Hr. destruct C as [|f C]; [cbn; by rewrite !root_mk|]. apply root_plug.
  - apply rep_plug in Hrep as [HC Ht]. apply rep_mk in Ht as (_ & H1 & H2). rewrite root_mk in HC.
    rewrite addrs_plug, addrs_mk in ND. cbn in ND. apply NoDup_cons in ND as [Na _]. rewrite !elem_of_app in Na.
    apply rep_plug. rewrite root_mk. split; [apply crep_insert; tauto|]. apply rep_mk.
    split; [|split; apply rep_insert; tauto]. apply cell_side. eexists. split; [apply lookup_insert_eq|]. by destruct d.
  - by rewrite <- HP.
  - by rewrite <- HP.
  - exists ns. by rewrite lookup_insert_ne by (intros ->; done).
  - intros z Hz Hn. apply lookup_insert_ne. by intros ->.
Qed.

End Memory.

End NgxRbtree.
