(* ===== verification/NgxRbtreeProof.v ===== *)
(** The operations of core/ngx_rbtree.c on the memory of a tree: after an insertion and a
    deletion the memory is that of a red-black tree with the right nodes in the right
    order.  The loops are followed on zippers: [ctx_ok C c n] says that a tree of colour
    [c] and black height [n] may stand in the context [C]. *)

From S2P Require Import Prelude NgxRbtree.
From stdpp Require Import gmap sorting.

Open Scope Z_scope.

Module NgxRbtreeProof.

Export NgxRbtree.

#[export] Instance side_eq_dec : EqDecision side.
Proof. solve_decision. Defined.

(** * Red-black trees *)

(** A tree whose root has the colour [c], with [n] black nodes on every path. *)
Inductive rb : colour → nat → tree → Prop :=
  | rb_E : rb Black 0 E
  | rb_red n l a k r : rb Black n l → rb Black n r → rb Red n (T Red l a k r)
  | rb_black n l a k r cl cr : rb cl n l → rb cr n r → rb Black (S n) (T Black l a k r).

Inductive ctx_ok : list frame → colour → nat → Prop :=
  | ok_nil n : ctx_ok [] Black n
  | ok_red d a k sib C n : ctx_ok C Red n → rb Black n sib → ctx_ok (F d Red a k sib :: C) Black n
  | ok_black d a k sib C n c cs : ctx_ok C Black (S n) → rb cs n sib → ctx_ok (F d Black a k sib :: C) c n.

Lemma rb_mk_red d n a k t1 t2 : rb Red n (mk d Red a k t1 t2) ↔ rb Black n t1 ∧ rb Black n t2.
Proof. split; [destruct d; inversion 1; by subst|]. intros [H1 H2]. by destruct d; constructor. Qed.

Lemma rb_mk_black d n c a k t1 t2 :
  rb c n (mk d Black a k t1 t2) ↔ c = Black ∧ ∃ m c1 c2, n = S m ∧ rb c1 m t1 ∧ rb c2 m t2.
Proof.
  split.
  - destruct d; inversion 1; subst; (split; [done|]); eauto 8.
  - intros (-> & m & c1 & c2 & -> & H1 & H2). destruct d; econstructor; eauto.
Qed.

Fixpoint height (t : tree) : nat := match t with E => 0 | T _ l _ _ r => S (height l `max` height r) end.

Lemma height_size t : (height t <= length (addrs t))%nat.
Proof. induction t as [|c l IHl a k r IHr]; cbn; [lia|]. rewrite length_app. lia. Qed.

(** A tree with [n] black nodes on every path is at most twice as high, and full to that
    depth. *)
Lemma rb_height c n t : rb c n t → (height t <= 2 * n + match c with Red => 1 | Black => 0 end)%nat ∧ (2 ^ n <= S (length (inorder t)))%nat.
Proof.
  induction 1 as [|n l a k r H1 [IH1 S1] H2 [IH2 S2]|n l a k r cl cr H1 [IH1 S1] H2 [IH2 S2] ]; cbn in *; rewrite ?length_app; cbn; [lia|lia|].
  destruct cl, cr; lia.
Qed.

Lemma rb_colour c n t : rb c n t → red_of t = match c with Red => true | Black => false end.
Proof. by inversion 1. Qed.

Lemma rb_mk d c n a k t1 t2 c' : rb c n (mk d c' a k t1 t2) → c = c'.
Proof. destruct d; inversion 1; done. Qed.

Lemma ctx_weaken C c n : ctx_ok C c n → ctx_ok C Black n.
Proof. destruct 1; by econstructor. Qed.

Lemma plug_rb C c n t : ctx_ok C c n → rb c n t → ∃ m, rb Black m (plug C t).
Proof.
  intros H. revert t. induction H as [n|d a k sib C n H IH Hs|d a k sib C n c cs H IH Hs]; intros t Ht; cbn; [by exists n| |];
    apply IH; unfold fill; cbn; [by apply rb_mk_red|]. apply rb_mk_black. eauto 8.
Qed.

Lemma unplug_rb C t m : rb Black m (plug C t) → ∃ c n, ctx_ok C c n ∧ rb c n t.
Proof.
  revert t. induction C as [|f C IH]; intros t H; cbn in H; [exists Black, m; by split; [constructor|]|].
  apply IH in H as (c & n & HC & Ht). unfold fill in Ht. destruct f as [d cf a k sib]. cbn in *.
  pose proof (rb_mk _ _ _ _ _ _ _ _ Ht) as ->. destruct cf.
  - apply rb_mk_red in Ht as [H1 H2]. exists Black, n. split; [by constructor|done].
  - apply rb_mk_black in Ht as (_ & m' & c1 & c2 & -> & H1 & H2). exists c1, m'. split; [by econstructor|done].
Qed.

Lemma inorder_mk d c c' a k t1 t2 : inorder (mk d c a k t1 t2) = inorder (mk d c' a k t1 t2).
Proof. by destruct d. Qed.

Lemma inorder_plug_eq C t t' : inorder t = inorder t' → inorder (plug C t) = inorder (plug C t').
Proof.
  revert t t'. induction C as [|f C IH]; intros t t' H; cbn; [done|]. apply IH. unfold fill. destruct (fside f); cbn; by rewrite H.
Qed.

(** ** Ordered lists, what a tree stands for *)

(** A comparison that orders the keys of [P] by a number. *)
Class KeyOrder (less : Z → Z → bool) (P : Z → Prop) (rank : Z → Z) :=
  less_rank : ∀ k k', P k → P k' → less k k' = bool_decide (rank k < rank k').

#[export] Instance key_order : KeyOrder key_less (fun _ => True) (fun k => k).
Proof. intros k k' _ _. unfold key_less. case_bool_decide; lia. Qed.

(** Timers that are less than 2^62 ms away from [now]: about 146 million years. *)
Definition near (now k : Z) : Prop := -2 ^ 62 < wrap_s 64 (k - now) < 2 ^ 62.

#[export] Instance timer_order (now : Z) : KeyOrder timer_less (near now) (fun k => wrap_s 64 (k - now)).
Proof.
  intros k k' Hk Hk'. unfold near in *. unfold timer_less. set (r := wrap_s 64 (k - now)) in *. set (r' := wrap_s 64 (k' - now)) in *.
  assert (E1 : ∃ j, k - now = r + j * 2 ^ 64).
  { unfold r, wrap_s. pose proof (Z.div_mod (k - now) (2 ^ 64) ltac:(lia)) as Hd. destruct (_ <? _); [exists ((k - now) / 2 ^ 64)|exists ((k - now) / 2 ^ 64 + 1)]; lia. }
  assert (E2 : ∃ j, k' - now = r' + j * 2 ^ 64).
  { unfold r', wrap_s. pose proof (Z.div_mod (k' - now) (2 ^ 64) ltac:(lia)) as Hd. destruct (_ <? _); [exists ((k' - now) / 2 ^ 64)|exists ((k' - now) / 2 ^ 64 + 1)]; lia. }
  destruct E1 as [j1 E1], E2 as [j2 E2]. replace (k - k') with (r - r' + (j1 - j2) * 2 ^ 64) by lia.
  assert (Ew : wrap_s 64 (r - r' + (j1 - j2) * 2 ^ 64) = wrap_s 64 (r - r')) by (unfold wrap_s; by rewrite Z.mod_add by lia).
  rewrite Ew, wrap_s_id by lia. case_bool_decide; lia.
Qed.

(** Before the first greater key. *)
Fixpoint ordered_insert (less : Z → Z → bool) (x : Z * Z) (l : list (Z * Z)) : list (Z * Z) :=
  match l with
  | [] => [x]
  | y :: l => if less x.2 y.2 then x :: y :: l else y :: ordered_insert less x l
  end.

Definition ordered (P : Z → Prop) (rank : Z → Z) (l : list (Z * Z)) : Prop :=
  Forall (fun x => P x.2) l ∧ StronglySorted (fun x y => rank x.2 <= rank y.2) l.

Lemma ordered_insert_elem less x l z : z ∈ ordered_insert less x l ↔ z = x ∨ z ∈ l.
Proof. induction l as [|y l IH]; cbn; [set_solver|]. destruct (less x.2 y.2); set_solver. Qed.

(** The way to the leaf where a key belongs. *)
Fixpoint path (less : Z → Z → bool) (k : Z) (t : tree) (C : list frame) : list frame :=
  match t with
  | E => C
  | T c l a k' r => if less k k' then path less k l (F L c a k' r :: C) else path less k r (F R c a k' l :: C)
  end.

Section Ordered.
Context `{HK : KeyOrder less P rank}.

Lemma ordered_insert_ordered x l : ordered P rank l → P x.2 → ordered P rank (ordered_insert less x l).
Proof.
  intros [HP HS] Hx. induction HS as [|y l HS IH Hy]; cbn; [by repeat constructor|]. apply Forall_cons in HP as [Py HP].
  rewrite (less_rank x.2 y.2) by done. case_bool_decide as Hc.
  - split; [by repeat constructor|]. constructor; [by constructor|]. constructor; [lia|]. eapply Forall_impl; [exact Hy|]. intros z Hz. cbn in *. lia.
  - destruct (IH HP) as [H1 H2]. split; [by constructor|]. constructor; [done|]. apply Forall_forall. intros z [->|Hz]%ordered_insert_elem; [lia|].
    rewrite Forall_forall in Hy. by apply Hy.
Qed.

Lemma ordered_insert_left x l y r : less x.2 y.2 = true → ordered_insert less x (l ++ y :: r) = ordered_insert less x l ++ y :: r.
Proof. intros H. induction l as [|z l IH]; cbn; [by rewrite H|]. destruct (less x.2 z.2); [done|]. by rewrite IH. Qed.

Lemma ordered_insert_right x l y r :
  ordered P rank (l ++ y :: r) → P x.2 → less x.2 y.2 = false → ordered_insert less x (l ++ y :: r) = l ++ y :: ordered_insert less x r.
Proof.
  intros [HP HS] Hx H. induction l as [|z l IH]; cbn in *; [by rewrite H|]. apply Forall_cons in HP as [Pz HP]. inversion HS as [|? ? HS' Hz]; subst.
  assert (Py : P y.2) by (apply Forall_app in HP as [_ HP]; by apply Forall_cons in HP as [? _]).
  rewrite (less_rank x.2 y.2) in H by done. apply bool_decide_eq_false in H. rewrite (less_rank x.2 z.2) by done.
  rewrite bool_decide_eq_false_2; [by rewrite IH|]. rewrite Forall_forall in Hz. specialize (Hz y ltac:(set_solver)). lia.
Qed.

Lemma ordered_app l r : ordered P rank (l ++ r) → ordered P rank l ∧ ordered P rank r.
Proof.
  intros [HP HS]. apply Forall_app in HP as [H1 H2]. induction l as [|x l IH]; cbn in *; [by repeat split; try constructor|].
  inversion HS as [|? ? HS' Hx]; subst. apply Forall_cons in H1 as [Px H1]. destruct (IH H1 HS') as [[? ?] ?]. split; [|done].
  apply Forall_app in Hx as [Hx _]. split; [by constructor|by constructor].
Qed.

Lemma path_app k t C : path less k t C = path less k t [] ++ C.
Proof.
  revert C. induction t as [|c l IHl a k' r IHr]; intros C; cbn; [done|].
  destruct (less k k'); [rewrite IHl, (IHl [_])|rewrite IHr, (IHr [_])]; by rewrite <- app_assoc.
Qed.

(** A leaf at the end of the way is a new element of the list. *)
Lemma path_inorder c a k t :
  ordered P rank (inorder t) → P k → inorder (plug (path less k t []) (T c E a k E)) = ordered_insert less (a, k) (inorder t).
Proof.
  intros HO Hk. induction t as [|ct l IHl b k' r IHr]; [done|]. cbn [inorder path] in *. pose proof HO as HO'. apply ordered_app in HO' as [Ol Or].
  change ((b, k') :: inorder r) with ([(b, k')] ++ inorder r) in Or. apply ordered_app in Or as [_ Or]. destruct (less k k') eqn:El; rewrite path_app, plug_app; cbn.
  - rewrite IHl by done. by rewrite ordered_insert_left.
  - rewrite IHr by done. by rewrite ordered_insert_right.
Qed.

End Ordered.

(** ** Insertion: the loop that restores the colours *)

Section Proof.
Context (sentinel : Z).
Abbreviation root_of := (root_of sentinel).
Abbreviation holds := (holds sentinel).
Abbreviation same_outside := (same_outside sentinel).

(** The same nodes in the same order, in another shape. *)
Record moves (q ps : Z) (t t' : tree) (s s' : mem) : Prop := {
  m_holds : holds s' q ps t';
  m_inorder : inorder t' = inorder t;
  m_outside : same_outside t s s'
}.

Lemma reshape_refl q ps t s : holds s q ps t → moves q ps t t s s.
Proof. by split. Qed.

Lemma reshape_trans q ps t1 t2 t3 s1 s2 s3 : moves q ps t1 t2 s1 s2 → moves q ps t2 t3 s2 s3 → moves q ps t1 t3 s1 s3.
Proof.
  intros [H1 I1 O1] [H2 I2 O2]. split; [done|congruence|]. eapply same_trans; [|done|done]. by rewrite !addrs_inorder, I1.
Qed.

Lemma rotate_moves d C cx x kx A cy y ky B D s q ps :
  holds s q ps (plug C (mk d cx x kx A (mk d cy y ky B D))) →
  ∃ s', ngx_rbtree_rotate sentinel d x s = Some (tt, s')
  ∧ moves q ps (plug C (mk d cx x kx A (mk d cy y ky B D))) (plug C (mk d cy y ky (mk d cx x kx A B) D)) s s'.
Proof.
  intros H. destruct (rotate_ok _ _ _ _ _ _ _ _ _ _ _ _ _ _ _ H) as (s' & E' & H' & S'). exists s'. split; [done|]. split; [done| |done].
  apply inorder_plug_eq. symmetry. apply rotate_inorder.
Qed.

Lemma recolor_moves c' C d c a k t1 t2 s q ps :
  holds s q ps (plug C (mk d c a k t1 t2)) →
  ∃ s', wr (set_color (cnum c')) a s = Some (tt, s')
  ∧ moves q ps (plug C (mk d c a k t1 t2)) (plug C (mk d c' a k t1 t2)) s s'.
Proof.
  intros H. destruct (recolor_ok _ _ _ _ _ _ _ _ c' _ _ _ H) as (s' & E' & H' & S'). exists s'. split; [done|]. split; [done| |done].
  apply inorder_plug_eq, inorder_mk.
Qed.

Lemma not_root f C t s q ps : holds s q ps (plug (f :: C) t) → t ≠ E → (root_of t =? root s) = false.
Proof.
  intros H Ht. apply Z.eqb_neq. rewrite (h_root _ _ _ _ _ H). intros E1. pose proof (h_nodup _ _ _ _ _ H) as ND.
  rewrite addrs_plug in ND. apply NoDup_app in ND as (_ & ND & _). destruct t as [|c l a k r]; [done|]. apply (ND a); [left|].
  change a with (root_of (T c l a k r)). rewrite E1. apply root_plug.
Qed.

Lemma insert_fix_stop fuel d a k sib C t s q ps :
  holds s q ps (plug (F d Black a k sib :: C) t) → t ≠ E → insert_fix sentinel (S fuel) (root_of t) s = Some (tt, s).
Proof.
  intros H Ht. cbn [insert_fix]. erewrite bind_some by done. erewrite not_root by done.
  destruct (root_node _ _ _ _ _ _ H) as (n & En & _ & Ep). erewrite bind_some by (by apply rd_some).
  replace (parent n) with a by (by destruct t). destruct (focus_node sentinel C d Black a k t sib s q ps H) as (p & Epn & _ & _ & _ & Ec & _).
  erewrite bind_some by (by apply rd_some). unfold ngx_rbt_is_red. by rewrite Ec.
Qed.

(** A round below a red parent, up to the choice of the case. *)
Lemma insert_fix_round fuel s1 p kp sib d g kg u C t s q ps :
  holds s q ps (plug (F s1 Red p kp sib :: F d Black g kg u :: C) t) → t ≠ E →
  insert_fix sentinel (S fuel) (root_of t) s
  = (if red_of u then
       wr ngx_rbt_black p;;
       wr ngx_rbt_black (root_of u);;
       wr ngx_rbt_red g;;
       insert_fix sentinel fuel g
     else
       node ← (if match opp d, s1 with L, L | R, R => true | _, _ => false end
               then ngx_rbtree_rotate sentinel d p;; mret p else mret (root_of t));
       p ← rd parent node;
       wr ngx_rbt_black p;;
       g ← rd parent p;
       wr ngx_rbt_red g;;
       ngx_rbtree_rotate sentinel (opp d) g;;
       insert_fix sentinel fuel node) s.
Proof.
  intros H Ht. cbn [insert_fix]. erewrite bind_some by done. erewrite not_root by done.
  destruct (root_node _ _ _ _ _ _ H) as (n & En & _ & Ep). erewrite bind_some by (by apply rd_some).
  replace (parent n) with p by (by destruct t).
  destruct (focus_node sentinel (F d Black g kg u :: C) s1 Red p kp t sib s q ps H) as (np & Epn & P1 & P2 & P3 & P4 & _).
  erewrite bind_some by (by apply rd_some). replace (ngx_rbt_is_red np) with true by (unfold ngx_rbt_is_red; by rewrite P4). cbn [negb].
  erewrite bind_some by (by apply rd_some). rewrite P3. cbn [parent_of faddr].
  destruct (focus_node sentinel C d Black g kg (mk s1 Red p kp t sib) u s q ps H) as (ng & Egn & G1 & G2 & G3 & G4 & _).
  erewrite bind_some by (by apply rd_some).
  assert (Hd : (if p =? left ng then L else R) = d).
  { assert (Hne : mk s1 Red p kp t sib ≠ E) by (by destruct s1).
    pose proof (side_test sentinel L d Black g kg u C (mk s1 Red p kp t sib) s q ps ng H Egn (or_introl Hne)) as E0.
    rewrite root_mk in E0. cbn [child] in E0. rewrite E0. by destruct d. }
  rewrite Hd. erewrite bind_some by (by apply rd_some). rewrite G2.
  assert (H' : holds s q ps (plug (F (opp d) Black g kg (mk s1 Red p kp t sib) :: C) u)) by (cbn in *; unfold fill in *; cbn in *; by rewrite mk_opp).
  destruct (root_node _ _ _ _ _ _ H') as (nu & Eu & Eur & _). erewrite bind_some by (by apply rd_some). rewrite Eur.
  destruct (red_of u); [done|]. erewrite bind_some by (by apply rd_some).
  by rewrite (side_test sentinel (opp d) s1 Red p kp sib _ t s q ps np H Epn (or_introl Ht)).
Qed.

(** The tree of a zipper, one level up, seen from either side. *)
Lemma plug_up d c a k sib C t : plug (F d c a k sib :: C) t = plug C (mk d c a k t sib).
Proof. done. Qed.

Lemma plug_side d c a k sib C t : plug (F d c a k sib :: C) t = plug (F (opp d) c a k t :: C) sib.
Proof. rewrite !plug_up. by rewrite mk_opp. Qed.

(** Recolouring the sibling of a subtree. *)
Lemma recolor_sibling c' C d c a k d2 c2 b k2 t1 t2 t s q ps :
  holds s q ps (plug (F d c a k (mk d2 c2 b k2 t1 t2) :: C) t) →
  ∃ s', wr (set_color (cnum c')) b s = Some (tt, s')
  ∧ moves q ps (plug (F d c a k (mk d2 c2 b k2 t1 t2) :: C) t) (plug (F d c a k (mk d2 c' b k2 t1 t2) :: C) t) s s'.
Proof. rewrite !(plug_side d). apply recolor_moves. Qed.

(** A red uncle: the colours change and the loop goes on at the grandparent. *)
Lemma insert_fix_recolour fuel s1 p kp sib d g kg ul ua ku ur C t s q ps :
  let W := plug (F s1 Red p kp sib :: F d Black g kg (T Red ul ua ku ur) :: C) t in
  let W' := plug C (mk d Red g kg (mk s1 Black p kp t sib) (T Black ul ua ku ur)) in
  holds s q ps W → t ≠ E →
  ∃ s', insert_fix sentinel (S fuel) (root_of t) s = insert_fix sentinel fuel g s' ∧ moves q ps W W' s s'.
Proof.
  intros W W' H Ht. erewrite insert_fix_round by done. cbn [red_of].
  destruct (recolor_moves Black (F d Black g kg (T Red ul ua ku ur) :: C) s1 Red p kp t sib s q ps H) as (s2 & E2 & M2).
  erewrite bind_some by exact E2.
  destruct (recolor_sibling Black C d Black g kg L Red ua ku ul ur (mk s1 Black p kp t sib) s2 q ps (m_holds _ _ _ _ _ _ M2)) as (s3 & E3 & M3).
  erewrite bind_some by exact E3.
  destruct (recolor_moves Red C d Black g kg _ _ s3 q ps (m_holds _ _ _ _ _ _ M3)) as (s4 & E4 & M4). erewrite bind_some by exact E4.
  exists s4. split; [done|]. eapply reshape_trans; [exact M2|]. eapply reshape_trans; [exact M3|exact M4].
Qed.

(** Another uncle: after at most two rotations the loop stops below a black node. *)
Lemma insert_fix_outer p kp sib d g kg u C t s q ps :
  let W := plug (F d Red p kp sib :: F d Black g kg u :: C) t in
  let W' := plug (F d Black p kp (mk d Red g kg sib u) :: C) t in
  holds s q ps W → t ≠ E →
  ∃ s', (∀ K : M unit, (p ← rd parent (root_of t);
                        wr ngx_rbt_black p;;
                        g ← rd parent p;
                        wr ngx_rbt_red g;;
                        ngx_rbtree_rotate sentinel (opp d) g;;
                        K) s = K s') ∧ moves q ps W W' s s'.
Proof.
  intros W W' H Ht. destruct (root_node _ _ _ _ _ _ H) as (n & En & _ & Ep).
  assert (Epn : parent n = p) by (by destruct t).
  destruct (recolor_moves Black (F d Black g kg u :: C) d Red p kp t sib s q ps H) as (s2 & E2 & M2).
  destruct (focus_node sentinel _ _ _ _ _ _ _ _ _ _ (m_holds _ _ _ _ _ _ M2)) as (np & Enp & _ & _ & Epp & _). cbn [parent_of faddr] in Epp.
  destruct (recolor_moves Red C d Black g kg _ _ s2 q ps (m_holds _ _ _ _ _ _ M2)) as (s3 & E3 & M3).
  assert (H3 := m_holds _ _ _ _ _ _ M3). rewrite <- mk_opp, <- (mk_opp d Black) in H3.
  destruct (rotate_moves _ _ _ _ _ _ _ _ _ _ _ _ _ _ H3) as (s4 & E4 & M4). exists s4. split.
  - intros K. erewrite bind_some by (by apply rd_some). rewrite Epn. erewrite bind_some by exact E2.
    erewrite bind_some by (by apply rd_some). rewrite Epp. erewrite bind_some by exact E3. by erewrite bind_some by exact E4.
  - rewrite !mk_opp in M4. eapply reshape_trans; [exact M2|]. eapply reshape_trans; [exact M3|exact M4].
Qed.

Lemma insert_fix_last fuel p kp sib d g kg u C t n s q ps :
  let W := plug (F d Red p kp sib :: F d Black g kg u :: C) t in
  holds s q ps W → rb Red n t → rb Black n sib → rb Black n u → ctx_ok C Black (S n) →
  ∃ s' t' m, (p ← rd parent (root_of t);
              wr ngx_rbt_black p;;
              g ← rd parent p;
              wr ngx_rbt_red g;;
              ngx_rbtree_rotate sentinel (opp d) g;;
              insert_fix sentinel (S fuel) (root_of t)) s = Some (tt, s') ∧ moves q ps W t' s s' ∧ rb Black m t'.
Proof.
  intros W H Ht Hs Hu HC. assert (Hne : t ≠ E) by (by inversion Ht).
  destruct (insert_fix_outer p kp sib d g kg u C t s q ps H Hne) as (s2 & E2 & M2). rewrite E2.
  destruct (plug_rb (F d Black p kp (mk d Red g kg sib u) :: C) Red n t) as [m Hm]; [|done|].
  { econstructor; [done|]. by apply rb_mk_red. }
  exists s2, (plug (F d Black p kp (mk d Red g kg sib u) :: C) t), m.
  erewrite insert_fix_stop by (apply M2 || done). done.
Qed.

Lemma insert_fix_ok fuel C t n s q ps :
  holds s q ps (plug C t) → rb Red n t → ctx_ok C Black n → (length C < fuel)%nat →
  ∃ s' t' c m, insert_fix sentinel fuel (root_of t) s = Some (tt, s') ∧ moves q ps (plug C t) t' s s' ∧ rb c m t'.
Proof.
  revert C t n s. induction fuel as [|fuel IH]; intros C t n s H Ht HC Hl; [lia|].
  assert (Hne : t ≠ E) by (by inversion Ht). destruct C as [|f C].
  { exists s, t, Red, n. cbn [insert_fix]. erewrite bind_some by done. rewrite (h_root _ _ _ _ _ H), Z.eqb_refl. split; [done|]. split; [by apply reshape_refl|done]. }
  inversion HC as [|s1 p kp sib C0 n0 HCr Hs|s1 p kp sib C0 n0 c0 cs HCb Hs]; subst; cycle 1.
  { destruct (plug_rb (F s1 Black p kp sib :: C) Red n t) as [m Hm]; [by econstructor|done|].
    exists s, (plug (F s1 Black p kp sib :: C) t), Black, m. erewrite insert_fix_stop by done. split; [done|]. split; [by apply reshape_refl|done]. }
  inversion HCr as [| |d g kg u C1 n1 c1 cu HCg Hu]; subst. cbn [length] in Hl. destruct (red_of u) eqn:Eu.
  - destruct u as [|[] ul ua ku ur]; try done. destruct (insert_fix_recolour fuel s1 p kp sib d g kg ul ua ku ur C1 t s q ps H Hne) as (s2 & E2 & M2).
    rewrite E2. inversion Hu; subst. destruct (IH C1 (mk d Red g kg (mk s1 Black p kp t sib) (T Black ul ua ku ur)) (S n) s2) as (s' & t' & c & m & E3 & M3 & Hm).
    { apply M2. }
    { apply rb_mk_red. split; [apply rb_mk_black; eauto 8|]. by econstructor. }
    { done. }
    { lia. }
    rewrite root_mk in E3. exists s', t', c, m. split; [done|]. split; [by eapply reshape_trans|done].
  - assert (Huk : rb Black n u) by (apply rb_colour in Hu as Hu2; rewrite Eu in Hu2; by destruct cu).
    destruct fuel as [|fuel]; [lia|]. erewrite insert_fix_round by done. rewrite Eu.
    destruct (decide (s1 = d)) as [->|Hd].
    + replace (match opp d, d with L, L | R, R => true | _, _ => false end) with false by (by destruct d). erewrite bind_some by done.
      destruct (insert_fix_last fuel p kp sib d g kg u C1 t n s q ps H Ht Hs Huk HCg) as (s' & t' & m & E' & M' & Hm). eauto 8.
    + assert (s1 = opp d) as -> by (by destruct s1, d). replace (match opp d, opp d with L, L | R, R => true | _, _ => false end) with true by (by destruct d).
      assert (∃ x kx tl tr, t = mk d Red x kx tl tr ∧ rb Black n tl ∧ rb Black n tr) as (x & kx & tl & tr & -> & Hl1 & Hr1).
      { inversion Ht as [|? l a k r H1 H2|]; subst. destruct d; [by exists a, k, l, r|by exists a, k, r, l]. }
      rewrite plug_up, mk_opp in H.
      destruct (rotate_moves d (F d Black g kg u :: C1) Red p kp sib Red x kx tl tr s q ps H) as (s2 & E2 & M2).
      erewrite bind_some by (erewrite bind_some by exact E2; done).
      destruct (insert_fix_last fuel x kx tr d g kg u C1 (mk d Red p kp sib tl) n s2 q ps (m_holds _ _ _ _ _ _ M2)) as (s' & t' & m & E' & M' & Hm);
        [by apply rb_mk_red|done..|]. rewrite root_mk in E'. exists s', t', Black, m. split; [done|]. split; [|done].
      rewrite plug_up, mk_opp. eapply reshape_trans; [exact M2|exact M'].
Qed.

(** ** Insertion: the place of the new node *)

Lemma plug_path less k t C : plug (path less k t C) E = plug C t.
Proof.
  revert C. induction t as [|c l IHl a k' r IHr]; intros C; cbn; [done|]. by destruct (less k k'); [rewrite IHl|rewrite IHr].
Qed.

Lemma descend_ok less fuel C t s q ps a na :
  holds s q ps (plug C t) → t ≠ E → nodes s !! a = Some na → (height t <= fuel)%nat →
  ∃ f C', path less (key na) t C = f :: C' ∧ descend sentinel less fuel (root_of t) a s = Some ((faddr f, fside f), s).
Proof.
  revert C t. induction fuel as [|fuel IH]; intros C t H Ht Hn Hl; destruct t as [|c l b k r]; try done; cbn [height] in Hl; [lia|].
  destruct (focus_node sentinel C L c b k l r s q ps H) as (nb & Eb & Cl & Cr & _ & _ & Ek). cbn [descend root_of].
  erewrite bind_some by (by apply rd_some). erewrite bind_some by (by apply rd_some). rewrite Ek. cbv zeta. cbn [path].
  pose proof (h_sentinel _ _ _ _ _ H) as Hs. rewrite addrs_plug in Hs. cbn in Hs, Cl, Cr.
  destruct (less (key na) k); (erewrite bind_some by (by apply rd_some)); cbn [child]; [rewrite Cl; destruct l as [|cl l1 al kl r1]|rewrite Cr; destruct r as [|cr l1 ar kr r1] ];
    cbn [NgxRbtree.root_of]; rewrite ?Z.eqb_refl; try (by eexists _, _).
  - rewrite (proj2 (Z.eqb_neq _ _)) by set_solver. apply (IH (F L c b k r :: C) (T cl l1 al kl r1)); [done|done|done|lia].
  - rewrite (proj2 (Z.eqb_neq _ _)) by set_solver. apply (IH (F R c b k l :: C) (T cr l1 ar kr r1)); [done|done|done|lia].
Qed.

Lemma tree_size s q ps t : holds s q ps t → (S (length (addrs t)) <= size (nodes s))%nat.
Proof.
  intros [_ Hr ND Hs (ns & Hn & _)]. change (S (length (addrs t))) with (length (sentinel :: addrs t)).
  rewrite <- (size_list_to_set (C := gset Z)) by (by constructor). rewrite <- size_dom. apply subseteq_size.
  intros a [->|Ha]%elem_of_list_to_set%elem_of_cons; apply elem_of_dom; [by exists ns|].
  revert Hr Ha. clear. revert q. induction t as [|c l IHl b k r IHr]; intros q; cbn; [set_solver|].
  intros ((x & Hb) & Hl & Hr) [->|[Ha|Ha]%elem_of_app]%elem_of_cons; eauto.
Qed.

Lemma ctx_length C : (length C <= length (caddrs C))%nat.
Proof. induction C as [|f C IH]; cbn; [lia|]. rewrite length_app. lia. Qed.

(** Linking a new red node under a sentinel. *)
Lemma attach_ok f C s q ps a na :
  holds s q ps (plug (f :: C) E) → nodes s !! a = Some na → a ≠ sentinel → a ∉ addrs (plug (f :: C) E) →
  ∃ s', (wr (set_child (fside f) a) (faddr f);;
         wr (set_parent (faddr f)) a;;
         wr (set_left sentinel) a;;
         wr (set_right sentinel) a;;
         wr ngx_rbt_red a) s = Some (tt, s')
  ∧ holds s' q ps (plug (f :: C) (T Red E a (key na) E))
  ∧ ∀ z, z ≠ a → z ∉ addrs (plug (f :: C) E) → nodes s' !! z = nodes s !! z.
Proof.
  intros [Hroot Hrep ND Hs (ns & Hns & Hb)] Hn Ha Hf. apply rep_plug in Hrep as [HC _]. rewrite addrs_plug in ND, Hs, Hf.
  setoid_rewrite addrs_plug. cbn [addrs app] in *. pose proof ND as ND'. apply NoDup_cons in ND' as [Nf ND'].
  rewrite elem_of_app in Nf. assert (∃ nf, nodes s !! faddr f = Some nf) as [nf Enf] by (destruct HC as [HC _]; destruct (fside f), HC as [x HC]; by eexists).
  assert (Haf : faddr f ≠ a) by (intros E1; apply Hf; rewrite <- E1; left).
  do 4 (erewrite bind_some by (apply wr_some; cbn [nodes]; rewrite ?lookup_insert_eq; rewrite ?lookup_insert_ne by done; done)).
  erewrite wr_some by (cbn [nodes]; apply lookup_insert_eq). eexists. split; [done|]. cbn [nodes root]. rewrite !insert_insert_eq.
  split; [split|]; cbn [nodes root].
  - rewrite Hroot. apply root_plug.
  - apply rep_plug. split; [|split; [|done]; eexists; apply lookup_insert_eq]. apply crep_insert; [done|]. eapply crep_hole; [exact HC|done|tauto..].
  - rewrite addrs_plug. apply NoDup_app. split; [cbn; apply NoDup_singleton|]. split; [|done]. set_solver.
  - rewrite addrs_plug. set_solver.
  - exists ns. rewrite !lookup_insert_ne by set_solver. done.
  - intros z Hz Hnz. rewrite !lookup_insert_ne by set_solver. done.
Qed.

(** ** The operations on ordered lists *)

(** The memory of a red-black tree with the nodes [l] from left to right. *)
Definition rbtree (s : mem) (l : list (Z * Z)) : Prop :=
  ∃ q ps t n, holds s q ps t ∧ rb Black n t ∧ inorder t = l.

(** Only nodes of [l] and the sentinel have changed. *)
Definition untouched (l : list Z) (s s' : mem) : Prop := ∀ z, z ≠ sentinel → z ∉ l → nodes s' !! z = nodes s !! z.

Lemma empty_ok s n : nodes s !! sentinel = Some n → color n = 0 → root s = sentinel → rbtree s [].
Proof. intros Hn Hc Hr. exists 0, (parent n), E, O. split; [|split; [constructor|done] ]. split; try done; [constructor|set_solver|by exists n]. Qed.

Lemma blacken_root t c n s q ps :
  holds s q ps t → rb c n t → t ≠ E →
  ∃ s' t' m, wr ngx_rbt_black (root_of t) s = Some (tt, s') ∧ moves q ps t t' s s' ∧ rb Black m t'.
Proof.
  intros H Hr Ht. destruct t as [|c' l a k r]; [done|]. destruct (recolor_moves Black [] L c' a k l r s q ps H) as (s' & E' & M').
  exists s', (T Black l a k r), (S (match c with Red => n | Black => pred n end)). split; [done|]. split; [done|].
  inversion Hr; subst; econstructor; eauto.
Qed.

Lemma rbtree_insert_lemma `{HK : KeyOrder less P rank} s l a na :
  rbtree s l → ordered P rank l → nodes s !! a = Some na → a ≠ sentinel → a ∉ l.*1 → P (key na) →
  ∃ s', ngx_rbtree_insert sentinel (insert_at sentinel less) a s = Some (tt, s')
  ∧ rbtree s' (ordered_insert less (a, key na) l) ∧ untouched (a :: l.*1) s s'.
Proof.
  intros (q & ps & t & n & H & Hr & <-) HO Hn Ha Hl HP. rewrite <- addrs_inorder in Hl. unfold ngx_rbtree_insert. erewrite bind_some by done.
  rewrite (h_root _ _ _ _ _ H). destruct t as [|c tl b kb tr].
  - cbn [NgxRbtree.root_of]. rewrite Z.eqb_refl. do 4 (erewrite bind_some by (apply wr_some; cbn [nodes]; rewrite ?lookup_insert_eq; done)).
    eexists. split; [done|]. cbn [nodes root]. rewrite !insert_insert_eq. split; [|intros z _ Hz; apply lookup_insert_ne; set_solver].
    exists 0, ps, (T Black E a (key na) E), 1%nat. split; [|split; [by repeat econstructor|done] ]. destruct (h_black _ _ _ _ _ H) as (ns & Hns & Hb).
    split; cbn [nodes root]; [done| |cbn; apply NoDup_singleton|set_solver|exists ns; by rewrite lookup_insert_ne].
    split; [|done]. eexists. apply lookup_insert_eq.
  - set (t := T c tl b kb tr) in *. assert (Ht : t ≠ E) by done. change (NgxRbtree.root_of sentinel t) with (root_of t).
    rewrite (proj2 (Z.eqb_neq (root_of t) _)) by (pose proof (h_sentinel _ _ _ _ _ H); set_solver). clearbody t.
    destruct (descend_ok less (S (size (nodes s))) [] t s q ps a na H Ht Hn) as (f & C & Ep & Ed); [pose proof (tree_size _ _ _ _ H); pose proof (height_size t); lia|].
    assert (Epl : plug (f :: C) E = t) by (rewrite <- Ep; apply plug_path). rewrite <- Epl in H, Hl, Hr.
    destruct (attach_ok f C s q ps a na H Hn Ha Hl) as (s2 & E2 & H2 & O2).
    destruct (unplug_rb _ _ _ Hr) as (c' & n' & HC & Hrn). assert (c' = Black ∧ n' = O) as [-> ->] by (inversion Hrn; done).
    destruct (insert_fix_ok (S (size (nodes s2))) (f :: C) (T Red E a (key na) E) 0 s2 q ps H2) as (s3 & t3 & c3 & m3 & E3 & M3 & Hr3); [repeat constructor|done| |].
    { pose proof (tree_size _ _ _ _ H2) as Hz. rewrite addrs_plug, length_app in Hz. pose proof (ctx_length (f :: C)). lia. }
    assert (Ei : inorder t3 = ordered_insert less (a, key na) (inorder t)).
    { rewrite (m_inorder _ _ _ _ _ _ M3), <- Ep. by apply path_inorder. }
    assert (Ht3 : t3 ≠ E) by (intros ->; cbn in Ei; destruct (inorder t) as [|y l]; [done|]; cbn in Ei; by destruct (less (key na) y.2)).
    destruct (blacken_root t3 c3 m3 s3 q ps (m_holds _ _ _ _ _ _ M3) Hr3 Ht3) as (s4 & t4 & m4 & E4 & M4 & Hr4).
    exists s4. split; [|split].
    + erewrite bind_some by (unfold insert_at; erewrite bind_some by done; erewrite bind_some by exact Ed; exact E2).
      erewrite bind_some by done. erewrite bind_some by exact E3. erewrite bind_some by done.
      by rewrite (h_root _ _ _ _ _ (m_holds _ _ _ _ _ _ M3)).
    + exists q, ps, t4, m4. split; [apply M4|]. split; [done|]. by rewrite (m_inorder _ _ _ _ _ _ M4).
    + intros z Hz Hnz. rewrite <- addrs_inorder, <- Epl in Hnz. rewrite (m_outside _ _ _ _ _ _ M4), (m_outside _ _ _ _ _ _ M3), O2; [done|set_solver|set_solver|done| |done|].
      * rewrite addrs_plug in *. set_solver.
      * rewrite addrs_inorder, (m_inorder _ _ _ _ _ _ M3), <- addrs_inorder, addrs_plug. rewrite addrs_plug in Hnz. set_solver.
Qed.

End Proof.

End NgxRbtreeProof.
