(* ===== verification/NgxRbtreeDelete.v ===== *)
(** Deletion from a red-black tree: core/ngx_rbtree.c, [ngx_rbtree_delete].  The loop that
    restores the colours, then the removal of a node, in which the sentinel may stand for
    a subtree and carries the pointer to its parent. *)

From S2P Require Import Prelude NgxRbtree NgxRbtreeProof.
From stdpp Require Import gmap sorting.

Open Scope Z_scope.

Module NgxRbtreeDelete.

Export NgxRbtreeProof.

Section Proof.
Context (sentinel : Z).
Abbreviation root_of := (root_of sentinel).
Abbreviation holds := (holds sentinel).
Abbreviation same_outside := (same_outside sentinel).
Abbreviation moves := (moves sentinel).

(** ** A node, its sibling and the children of the sibling *)

(** [p] with the subtree [t] on side [d] and the sibling [w] of [t], in a context. *)
Definition pair (C : list frame) (d : side) (cp : colour) (p kp : Z) (t : tree) (cw : colour) (w kw : Z) (nr fr : tree) : tree :=
  plug C (mk d cp p kp t (mk d cw w kw nr fr)).

Lemma pair_w C d cp p kp t cw w kw nr fr : pair C d cp p kp t cw w kw nr fr = plug (F (opp d) cp p kp t :: C) (mk d cw w kw nr fr).
Proof. unfold pair. cbn. unfold fill. cbn. by rewrite mk_opp. Qed.

Lemma pair_near C d cp p kp t cw w kw nr fr :
  pair C d cp p kp t cw w kw nr fr = plug (F d cw w kw fr :: F (opp d) cp p kp t :: C) nr.
Proof. apply pair_w. Qed.

Lemma pair_far C d cp p kp t cw w kw nr fr :
  pair C d cp p kp t cw w kw nr fr = plug (F (opp d) cw w kw nr :: F (opp d) cp p kp t :: C) fr.
Proof. rewrite pair_near. by rewrite plug_side. Qed.

(** The parent pointer of [t], which is in the sentinel when [t] is empty. *)
Definition linked (q ps : Z) (C : list frame) (t : tree) : Prop := match t with E => ps = parent_of q C | _ => True end.

Lemma temp_node s q ps f C t :
  holds s q ps (plug (f :: C) t) → linked q ps (f :: C) t →
  ∃ n, nodes s !! root_of t = Some n ∧ parent n = faddr f ∧ ngx_rbt_is_red n = red_of t.
Proof.
  intros H Hl. destruct (root_node _ _ _ _ _ _ H) as (n & En & Er & Ep). exists n. split; [done|]. split; [|done].
  rewrite Ep. by destruct t.
Qed.

Lemma temp_not_root f C t s q ps : holds s q ps (plug (f :: C) t) → (root_of t =? root s) = false.
Proof.
  intros H. destruct t as [|c l a k r]; [|by eapply not_root]. apply Z.eqb_neq. rewrite (h_root _ _ _ _ _ H). intros E1.
  apply (h_sentinel _ _ _ _ _ H). rewrite addrs_plug. cbn [addrs app]. change sentinel with (root_of E) at 1. rewrite E1. apply root_plug.
Qed.

(** The sibling as the loop finds it again. *)
Lemma find_sibling C d cp p kp t sib s q ps :
  holds s q ps (plug (F d cp p kp sib :: C) t) → linked q ps (F d cp p kp sib :: C) t →
  (p ← rd parent (root_of t); rd (child (opp d)) p) s = Some (root_of sib, s).
Proof.
  intros H Hl. destruct (temp_node _ _ _ _ _ _ H Hl) as (n & En & Ep & _). erewrite bind_some by (by apply rd_some). rewrite Ep.
  destruct (focus_node sentinel C d cp p kp t sib s q ps H) as (np & Enp & _ & E2 & _). erewrite rd_some by done. by rewrite E2.
Qed.

Lemma red_sibling_red C d p kp t w kw nr fr s q ps :
  holds s q ps (pair C d Black p kp t Red w kw nr fr) → linked q ps (F d Black p kp E :: C) t →
  ∃ s', red_sibling sentinel d (root_of t) p w s = Some (root_of nr, s')
  ∧ moves q ps (pair C d Black p kp t Red w kw nr fr) (plug (F d Red p kp nr :: F d Black w kw fr :: C) t) s s'.
Proof.
  intros H Hl. unfold red_sibling. assert (H' := H). rewrite pair_w in H'. destruct (root_node _ _ _ _ _ _ H') as (n & En & Er & _).
  rewrite root_mk in En. erewrite bind_some by (by apply rd_some). rewrite Er. replace (red_of (mk d Red w kw nr fr)) with true by (by destruct d).
  destruct (recolor_moves sentinel Black _ _ _ _ _ _ _ _ _ _ H') as (s2 & E2 & M2). erewrite bind_some by exact E2. rewrite <- !pair_w in M2.
  destruct (recolor_moves sentinel Red C d Black p kp t (mk d Black w kw nr fr) s2 q ps (m_holds _ _ _ _ _ _ _ M2)) as (s3 & E3 & M3). erewrite bind_some by exact E3.
  destruct (rotate_moves sentinel d C Red p kp t Black w kw nr fr s3 q ps (m_holds _ _ _ _ _ _ _ M3)) as (s4 & E4 & M4). erewrite bind_some by exact E4.
  exists s4. split; [|eapply reshape_trans; [exact M2|]; eapply reshape_trans; [exact M3|exact M4]].
  by apply (find_sibling (F d Black w kw fr :: C) d Red p kp t nr s4 q ps (m_holds _ _ _ _ _ _ _ M4)).
Qed.

Lemma red_sibling_black f C t w s q ps temp p d :
  holds s q ps (plug (f :: C) t) → fsib f = w → red_of w = false → red_sibling sentinel d temp p (root_of w) s = Some (root_of w, s).
Proof.
  intros H <- Hw. destruct f as [d' c a k w]. cbn [fsib] in *. rewrite plug_side in H. destruct (root_node _ _ _ _ _ _ H) as (n & En & Er & _).
  unfold red_sibling. erewrite bind_some by (by apply rd_some). by rewrite Er, Hw.
Qed.

(** The children of the sibling and their colours. *)
Lemma sibling_children {A} C d cp p kp t cw w kw nr fr s q ps (K : Z → Z → bool → bool → M A) :
  holds s q ps (pair C d cp p kp t cw w kw nr fr) →
  (near ← rd (child d) w;
   far ← rd (child (opp d)) w;
   nblack ← rd ngx_rbt_is_black near;
   fblack ← rd ngx_rbt_is_black far;
   K near far nblack fblack) s = K (root_of nr) (root_of fr) (negb (red_of nr)) (negb (red_of fr)) s.
Proof.
  intros H. assert (Hn := H). rewrite pair_near in Hn. assert (Hf := H). rewrite pair_far in Hf. rewrite pair_w in H.
  destruct (focus_node sentinel _ _ _ _ _ _ _ _ _ _ H) as (nw & Ew & W1 & W2 & _).
  do 2 (erewrite bind_some by (by apply rd_some)). rewrite W1, W2.
  destruct (root_node _ _ _ _ _ _ Hn) as (n1 & E1 & R1 & _), (root_node _ _ _ _ _ _ Hf) as (n2 & E2 & R2 & _).
  do 2 (erewrite bind_some by (by apply rd_some)). unfold ngx_rbt_is_black. by rewrite R1, R2.
Qed.

Lemma black_sibling_up loop C d cp p kp t w kw nr fr s q ps :
  holds s q ps (pair C d cp p kp t Black w kw nr fr) → linked q ps (F d cp p kp E :: C) t → red_of nr = false → red_of fr = false →
  ∃ s', black_sibling sentinel loop d (root_of t) w s = loop p s'
  ∧ moves q ps (pair C d cp p kp t Black w kw nr fr) (pair C d cp p kp t Red w kw nr fr) s s'.
Proof.
  intros H Hl Hn Hf. unfold black_sibling. erewrite sibling_children by done. rewrite Hn, Hf. cbn [negb andb].
  assert (H' := H). rewrite pair_w in H'. destruct (recolor_moves sentinel Red _ _ _ _ _ _ _ _ _ _ H') as (s2 & E2 & M2).
  erewrite bind_some by exact E2. rewrite <- !pair_w in M2. exists s2. split; [|done].
  destruct (temp_node s2 q ps (F d cp p kp (mk d Red w kw nr fr)) C t (m_holds _ _ _ _ _ _ _ M2) Hl) as (n & En & Ep & _).
  erewrite bind_some by (by apply rd_some). by rewrite Ep.
Qed.

(** The last rotation, at a sibling whose outer child is not empty. *)
Lemma last_rotation loop C d cp p kp t cw w kw nr cf fa fk fl fr s q ps :
  let far c := T c fl fa fk fr in
  holds s q ps (pair C d cp p kp t cw w kw nr (far cf)) → linked q ps (F d cp p kp E :: C) t →
  ∃ s', (p ← rd parent (root_of t);
         c ← rd color p;
         wr (set_color c) w;;
         wr ngx_rbt_black p;;
         far ← rd (child (opp d)) w;
         wr ngx_rbt_black far;;
         ngx_rbtree_rotate sentinel d p;;
         r ← get_root;
         loop r : M Z) s = loop (root s') s'
  ∧ moves q ps (pair C d cp p kp t cw w kw nr (far cf)) (plug C (mk d cp w kw (mk d Black p kp t nr) (far Black))) s s'.
Proof.
  intros far H Hl. destruct (temp_node s q ps (F d cp p kp (mk d cw w kw nr (far cf))) C t H Hl) as (n & En & Ep & _).
  erewrite bind_some by (by apply rd_some). rewrite Ep. cbn [faddr].
  destruct (focus_node sentinel C d cp p kp t _ s q ps H) as (np & Enp & _ & _ & _ & Ec & _). erewrite bind_some by (by apply rd_some). rewrite Ec.
  assert (H1 := H). rewrite pair_w in H1. destruct (recolor_moves sentinel cp _ _ _ _ _ _ _ _ _ _ H1) as (s2 & E2 & M2).
  erewrite bind_some by exact E2. rewrite <- !pair_w in M2.
  destruct (recolor_moves sentinel Black C d cp p kp t (mk d cp w kw nr (far cf)) s2 q ps (m_holds _ _ _ _ _ _ _ M2)) as (s3 & E3 & M3). erewrite bind_some by exact E3.
  assert (H3 := m_holds _ _ _ _ _ _ _ M3). fold (pair C d Black p kp t cp w kw nr (far cf)) in H3. assert (H3w := H3). rewrite pair_w in H3w.
  destruct (focus_node sentinel _ _ _ _ _ _ _ _ _ _ H3w) as (nw & Enw & _ & Ef & _). erewrite bind_some by (by apply rd_some). rewrite Ef.
  rewrite pair_far in H3. destruct (recolor_moves sentinel Black _ L cf fa fk fl fr s3 q ps H3) as (s4 & E4 & M4). cbn [NgxRbtree.root_of].
  erewrite bind_some by exact E4. change (mk L ?c fa fk fl fr) with (far c) in M4. rewrite <- !pair_far in M4.
  destruct (rotate_moves sentinel d C Black p kp t cp w kw nr (far Black) s4 q ps (m_holds _ _ _ _ _ _ _ M4)) as (s5 & E5 & M5). erewrite bind_some by exact E5.
  exists s5. split; [done|]. eapply reshape_trans; [exact M2|]. eapply reshape_trans; [exact M3|]. eapply reshape_trans; [exact M4|exact M5].
Qed.

Lemma black_sibling_far loop C d cp p kp t w kw nr fa fk fl fr s q ps :
  let far c := T c fl fa fk fr in
  holds s q ps (pair C d cp p kp t Black w kw nr (far Red)) → linked q ps (F d cp p kp E :: C) t →
  ∃ s', black_sibling sentinel loop d (root_of t) w s = loop (root s') s'
  ∧ moves q ps (pair C d cp p kp t Black w kw nr (far Red)) (plug C (mk d cp w kw (mk d Black p kp t nr) (far Black))) s s'.
Proof.
  intros far H Hl. unfold black_sibling. erewrite sibling_children by done. rewrite andb_false_r. cbn [red_of negb]. unfold red_far.
  erewrite bind_some by done. by apply last_rotation.
Qed.

Lemma black_sibling_near loop C d cp p kp t w kw x kx xa xb fr s q ps :
  let nr c := mk d c x kx xa xb in
  holds s q ps (pair C d cp p kp t Black w kw (nr Red) fr) → linked q ps (F d cp p kp E :: C) t → red_of fr = false →
  ∃ s', black_sibling sentinel loop d (root_of t) w s = loop (root s') s'
  ∧ moves q ps (pair C d cp p kp t Black w kw (nr Red) fr) (plug C (mk d cp x kx (mk d Black p kp t xa) (mk d Black w kw xb fr))) s s'.
Proof.
  intros nr H Hl Hf. unfold black_sibling. erewrite sibling_children by done. rewrite Hf. replace (red_of (nr Red)) with true by (by destruct d).
  cbn [negb andb]. unfold nr in *. rewrite root_mk.
  assert (H1 := H). rewrite pair_near in H1. destruct (recolor_moves sentinel Black _ _ _ _ _ _ _ _ _ _ H1) as (s2 & E2 & M2). rewrite <- !pair_near in M2.
  assert (H2 := m_holds _ _ _ _ _ _ _ M2). rewrite pair_w in H2. destruct (recolor_moves sentinel Red _ _ _ _ _ _ _ _ _ _ H2) as (s3 & E3 & M3). rewrite <- !pair_w in M3.
  assert (H3 := m_holds _ _ _ _ _ _ _ M3). rewrite pair_w in H3. rewrite <- mk_opp, <- (mk_opp d Black x) in H3.
  destruct (rotate_moves sentinel (opp d) _ _ _ _ _ _ _ _ _ _ _ _ _ H3) as (s4 & E4 & M4). rewrite !mk_opp in M4. rewrite <- !pair_w in M4.
  assert (H4 := m_holds _ _ _ _ _ _ _ M4).
  assert (Es : red_far sentinel d (root_of t) w x true s = Some (x, s4)).
  { unfold red_far. erewrite bind_some by exact E2. erewrite bind_some by exact E3. erewrite bind_some by exact E4.
    rewrite (find_sibling C d cp p kp t (mk d Black x kx xa (mk d Red w kw xb fr)) s4 q ps H4 Hl). by rewrite root_mk. }
  erewrite bind_some by exact Es.
  assert (∃ fl fa fk fr', ∀ c, mk d c w kw xb fr = T c fl fa fk fr') as (fl & fa & fk & fr' & Em) by (destruct d; eauto 8).
  rewrite Em in H4, M4. destruct (last_rotation loop C d cp p kp t Black x kx xa Red fa fk fl fr' s4 q ps H4 Hl) as (s5 & E5 & M5).
  exists s5. split; [done|]. rewrite Em. eapply reshape_trans; [exact M2|]. eapply reshape_trans; [exact M3|]. eapply reshape_trans; [exact M4|exact M5].
Qed.

(** ** The loop *)

Lemma delete_fix_round fuel d cp p kp w C t s q ps :
  holds s q ps (plug (F d cp p kp w :: C) t) → linked q ps (F d cp p kp w :: C) t → red_of t = false → w ≠ E →
  delete_fix sentinel (S fuel) (root_of t) s
  = (w' ← red_sibling sentinel d (root_of t) p (root_of w); black_sibling sentinel (delete_fix sentinel fuel) d (root_of t) w') s.
Proof.
  intros H Hl Ht Hw. cbn [delete_fix]. erewrite bind_some by done. erewrite temp_not_root by done.
  destruct (temp_node _ _ _ _ _ _ H Hl) as (n & En & Ep & Er). erewrite bind_some by (by apply rd_some). rewrite Er, Ht.
  erewrite bind_some by (by apply rd_some). rewrite Ep. cbn [faddr].
  destruct (focus_node sentinel C d cp p kp t w s q ps H) as (np & Enp & _ & E2 & _). erewrite bind_some by (by apply rd_some).
  pose proof (side_test sentinel L d cp p kp w C t s q ps np H Enp (or_intror Hw)) as Es. cbn [child] in Es. rewrite Es.
  replace (if match d with L => true | R => false end then L else R) with d by (by destruct d).
  erewrite bind_some by (by apply rd_some). by rewrite E2.
Qed.

Definition blacken (t : tree) : tree := match t with E => E | T _ l a k r => T Black l a k r end.

(** The tree fits after its root is made black. *)
Definition fits (n : nat) (t : tree) : Prop := rb Black n t ∨ red_of t = true ∧ rb Black (S n) (blacken t).

(** The end of the loop: a node that is to be made black. *)
Definition fixed (q ps : Z) (t : tree) (r : option (Z * mem)) (s : mem) : Prop :=
  ∃ s' C' t' m, r = Some (root_of t', s') ∧ moves q ps t (plug C' t') s s' ∧ rb Black m (plug C' (blacken t')).

Lemma rb_blacken n t : rb Black n t → blacken t = t.
Proof. by inversion 1. Qed.

Lemma blacken_mk d c a k t1 t2 : blacken (mk d c a k t1 t2) = mk d Black a k t1 t2.
Proof. by destruct d. Qed.

(** The loop stops at the root. *)
Lemma fixed_root fuel t s q ps n :
  holds s q ps t → rb Black n (blacken t) → fixed q ps t (delete_fix sentinel (S fuel) (root_of t) s) s.
Proof.
  intros H Hr. exists s, [], t, n. cbn [delete_fix]. erewrite bind_some by done. rewrite (h_root _ _ _ _ _ H), Z.eqb_refl.
  split; [done|]. split; [by apply reshape_refl|done].
Qed.

Lemma fixed_moves q ps t t' s s' r : moves q ps t t' s s' → fixed q ps t' r s' → fixed q ps t r s.
Proof. intros M (s2 & C & t2 & m & E2 & M2 & H2). exists s2, C, t2, m. split; [done|]. split; [by eapply reshape_trans|done]. Qed.

(** A node of black height [S n] that takes the place of [p] under the colour of [p]. *)
Definition ctx_for (cp : colour) (C : list frame) (n : nat) : Prop :=
  match cp with Red => ctx_ok C Red (S n) | Black => ctx_ok C Black (S (S n)) end.

Lemma ctx_for_rb cp C n d a k t1 t2 c1 c2 :
  ctx_for cp C n → rb c1 (S n) t1 → rb c2 (S n) t2 → c1 = Black → c2 = Black → ∃ m, rb Black m (plug C (mk d cp a k t1 t2)).
Proof.
  intros HC H1 H2 -> ->. destruct cp; (eapply plug_rb; [exact HC|]); [by apply rb_mk_red|]. apply rb_mk_black. eauto 8.
Qed.

Section Round.
Context (fuel : nat).
Context (IH : ∀ C t n s q ps, holds s q ps (plug C t) → (C ≠ [] → linked q ps C t) → ctx_ok C Black (S n) → fits n t →
  ((if red_of t then 0 else S (length C)) < fuel)%nat → fixed q ps (plug C t) (delete_fix sentinel fuel (root_of t) s) s).

Lemma black_sibling_ok C d cp p kp t w kw nr fr c1 c2 n s q ps :
  holds s q ps (pair C d cp p kp t Black w kw nr fr) → linked q ps (F d cp p kp E :: C) t →
  ctx_for cp C n → rb Black n t → rb c1 n nr → rb c2 n fr → ((match cp with Red => 0 | Black => S (length C) end) < fuel)%nat →
  fixed q ps (pair C d cp p kp t Black w kw nr fr) (black_sibling sentinel (delete_fix sentinel fuel) d (root_of t) w s) s.
Proof.
  intros H Hl HC Ht Hn Hf Hfu. assert (Hm : ∀ a k x, rb c1 n x → rb Black (S n) (mk d Black a k t x)) by (intros; apply rb_mk_black; eauto 8).
  destruct fuel as [|fu] eqn:Efu; [destruct cp; lia|]. rewrite <- Efu in *. destruct c2.
  - inversion Hf as [|? fl fa fk fr' F1 F2|]; subst fr. destruct (black_sibling_far (delete_fix sentinel fuel) C d cp p kp t w kw nr fa fk fl fr' s q ps H Hl) as (s2 & E2 & M2).
    rewrite E2. eapply fixed_moves; [exact M2|]. destruct (ctx_for_rb cp C n d w kw (mk d Black p kp t nr) (T Black fl fa fk fr') Black Black) as [m Hr]; [done|by apply Hm|by econstructor|done..|].
    rewrite (h_root _ _ _ _ _ (m_holds _ _ _ _ _ _ _ M2)), Efu. eapply fixed_root; [apply M2|]. by rewrite (rb_blacken _ _ Hr).
  - apply rb_colour in Hf as Rf. destruct c1.
    + assert (∃ x kx xa xb, nr = mk d Red x kx xa xb ∧ rb Black n xa ∧ rb Black n xb) as (x & kx & xa & xb & -> & X1 & X2).
      { inversion Hn as [|? l a k r H1 H2|]; subst. destruct d; [by exists a, k, l, r|by exists a, k, r, l]. }
      destruct (black_sibling_near (delete_fix sentinel fuel) C d cp p kp t w kw x kx xa xb fr s q ps H Hl Rf) as (s2 & E2 & M2).
      rewrite E2. eapply fixed_moves; [exact M2|].
      destruct (ctx_for_rb cp C n d x kx (mk d Black p kp t xa) (mk d Black w kw xb fr) Black Black) as [m Hr]; [done|apply rb_mk_black; eauto 8|apply rb_mk_black; eauto 8|done..|].
      rewrite (h_root _ _ _ _ _ (m_holds _ _ _ _ _ _ _ M2)), Efu. eapply fixed_root; [apply M2|]. by rewrite (rb_blacken _ _ Hr).
    + apply rb_colour in Hn as Rn. destruct (black_sibling_up (delete_fix sentinel fuel) C d cp p kp t w kw nr fr s q ps H Hl Rn Rf) as (s2 & E2 & M2).
      rewrite E2. eapply fixed_moves; [exact M2|]. set (T' := mk d cp p kp t (mk d Red w kw nr fr)).
      change (pair C d cp p kp t Red w kw nr fr) with (plug C T') in *. replace p with (root_of T') at 1 by apply root_mk.
      assert (Hb : rb Black (S n) (mk d Black p kp t (mk d Red w kw nr fr))) by (apply rb_mk_black; split; [done|]; exists n, Black, Red; split; [done|split; [done|by apply rb_mk_red] ]).
      assert (HT : linked q ps C T') by (unfold T'; by destruct d). assert (Rc : red_of T' = match cp with Red => true | Black => false end) by (unfold T'; by destruct d, cp).
      destruct cp.
      * apply (IH C T' n); [apply M2|done|by apply (ctx_weaken C Red)| |rewrite Rc; lia]. right. split; [done|]. unfold T'. by rewrite blacken_mk.
      * apply (IH C T' (S n)); [apply M2|done|done|by left|rewrite Rc; lia].
Qed.

End Round.

Lemma black_sides d n t : rb Black (S n) t → ∃ a k t1 t2 c1 c2, t = mk d Black a k t1 t2 ∧ rb c1 n t1 ∧ rb c2 n t2.
Proof. inversion 1 as [| |? l a k r cl cr H1 H2]; subst. destruct d; [by exists a, k, l, r, cl, cr|by exists a, k, r, l, cr, cl]. Qed.

Lemma delete_fix_ok fuel C t n s q ps :
  holds s q ps (plug C t) → (C ≠ [] → linked q ps C t) → ctx_ok C Black (S n) → fits n t →
  ((if red_of t then 0 else S (length C)) < fuel)%nat → fixed q ps (plug C t) (delete_fix sentinel fuel (root_of t) s) s.
Proof.
  revert C t n s q ps. induction fuel as [|fuel IH]; intros C t n s q ps H Hl HC Hf Hfu; [lia|].
  destruct C as [|[d cp p kp w] C].
  { destruct Hf as [Hf|[_ Hf] ]; eapply fixed_root; [done| |done|done]. by rewrite (rb_blacken _ _ Hf). }
  specialize (Hl ltac:(done)). destruct (red_of t) eqn:Er.
  { destruct Hf as [Hf|[_ Hf] ]; [apply rb_colour in Hf; congruence|]. destruct (plug_rb _ _ _ _ HC Hf) as [m Hm].
    exists s, (F d cp p kp w :: C), t, m. cbn [delete_fix]. erewrite bind_some by done. erewrite temp_not_root by done.
    destruct (temp_node _ _ _ _ _ _ H Hl) as (x & En & _ & Ex). erewrite bind_some by (by apply rd_some). rewrite Ex, Er.
    split; [done|]. split; [by apply reshape_refl|done]. }
  destruct Hf as [Ht|[Hf _] ]; [|congruence]. cbn [length] in Hfu.
  assert (Hw : ∃ cw, rb cw (S n) w ∧ ctx_for cp C n ∧ (cp = Red → cw = Black)) by (inversion HC as [|? ? ? ? ? ? H1 H2|? ? ? ? ? ? ? cs H1 H2]; subst; [exists Black|exists cs]; by split_and!).
  destruct Hw as (cw & Hw & HCf & Hcw). assert (w ≠ E) by (intros ->; inversion Hw). erewrite delete_fix_round by done.
  destruct cw.
  - destruct cp; [by specialize (Hcw eq_refl)|].
    assert (∃ x kx nr fr, w = mk d Red x kx nr fr ∧ rb Black (S n) nr ∧ rb Black (S n) fr) as (x & kx & nr & fr & -> & Hn & Hfr).
    { inversion Hw as [|? l a k r H1 H2|]; subst. destruct d; [by exists a, k, l, r|by exists a, k, r, l]. }
    rewrite root_mk. destruct (red_sibling_red C d p kp t x kx nr fr s q ps H) as (s2 & E2 & M2); [by destruct t|].
    erewrite bind_some by exact E2. eapply fixed_moves; [exact M2|]. destruct (black_sides d n nr Hn) as (y & ky & n1 & n2 & c1 & c2 & -> & H1 & H2).
    rewrite root_mk. apply (black_sibling_ok fuel IH (F d Black x kx fr :: C) d Red p kp t y ky n1 n2 c1 c2 n); [exact (m_holds _ _ _ _ _ _ _ M2)|by destruct t|by econstructor|done|done|done|lia].
  - erewrite bind_some by (eapply red_sibling_black; [exact H|done|by apply (rb_colour Black (S n))]).
    destruct (black_sides d n w Hw) as (x & kx & nr & fr & c1 & c2 & -> & H1 & H2). rewrite root_mk.
    apply (black_sibling_ok fuel IH C d cp p kp t x kx nr fr c1 c2 n); [exact H|by destruct t|done|done|done|done|destruct cp; lia].
Qed.

(** ** Taking a node out *)

(** A tree in which the parent pointer of a subtree is [pw]. *)
Record loose (s : mem) (q ps : Z) (C : list frame) (t : tree) (pw : Z) : Prop := {
  l_root : root s = root_of (plug C t);
  l_crep : crep sentinel (nodes s) q C (root_of t);
  l_rep : rep sentinel (nodes s) pw t;
  l_nodup : NoDup (addrs (plug C t));
  l_sentinel : sentinel ∉ addrs (plug C t);
  l_black : ∃ n, nodes s !! sentinel = Some n ∧ color n = 0 ∧ parent n = ps
}.

Lemma loose_holds s q ps C t : loose s q ps C t (parent_of q C) → holds s q ps (plug C t).
Proof. intros [H1 H2 H3 H4 H5 H6]. split; [done| |done..]. by apply rep_plug. Qed.

(** A node with at most one child is replaced by it. *)
Lemma splice_ok f C c l a k r X s q ps :
  holds s q ps (plug (f :: C) (T c l a k r)) → (l = E ∧ X = r) ∨ (r = E ∧ X = l) →
  ∃ s1, (∀ K : M unit, (p ← rd parent a;
                        pl ← rd left p;
                        (if a =? pl then wr (set_left (root_of X)) p else wr (set_right (root_of X)) p);;
                        K) s = K s1)
  ∧ root s1 = root s ∧ (∃ na, nodes s1 !! a = Some na ∧ parent na = faddr f)
  ∧ ∀ pw, ∃ s', wr (set_parent pw) (root_of X) s1 = Some (tt, s')
    ∧ loose s' q (match X with E => pw | _ => ps end) (f :: C) X pw
    ∧ (∀ z, z ∉ caddrs (f :: C) → z ∉ addrs X → z ≠ sentinel → nodes s' !! z = nodes s !! z).
Proof.
  intros H HX. assert (IX : ∀ z, z ∈ addrs (T c l a k r) ↔ z = a ∨ z ∈ addrs X) by (intros z; destruct HX as [ [-> ->]|[-> ->] ]; set_solver).
  destruct f as [d cf p kf sib]. destruct (focus_node sentinel C d cf p kf (T c l a k r) sib s q ps H) as (nf & Ef & F1 & F2 & F3 & F4 & F5).
  destruct (focus_node sentinel (F d cf p kf sib :: C) L c a k l r s q ps H) as (na & Ea & A1 & A2 & A3 & _). cbn [parent_of faddr] in A3.
  assert (Hne : T c l a k r ≠ E) by done.
  pose proof (side_test sentinel L d cf p kf sib C (T c l a k r) s q ps nf H Ef (or_introl Hne)) as Es. cbn [child NgxRbtree.root_of] in Es.
  destruct H as [Hr Hrep ND Hs (ns & Ens & Hb)]. rewrite addrs_plug in ND, Hs. apply rep_plug in Hrep as [HC Ht].
  assert (NX : NoDup (a :: addrs X)) by (apply NoDup_app in ND as (ND & _); destruct HX as [ [-> ->]|[-> ->] ]; [done|cbn in ND; by rewrite app_nil_r in ND]).
  assert (RX : rep sentinel (nodes s) a X) by (destruct HX as [ [-> ->]|[-> ->] ]; apply Ht).
  pose proof ND as ND'. apply NoDup_app in ND' as (_ & Nd & Nc). cbn [caddrs fsib faddr] in *. setoid_rewrite IX in Nd. rewrite elem_of_app, IX in Hs.
  apply NoDup_cons in Nc as [Np Nc]. rewrite elem_of_app in Np.
  set (h1 := <[p := set_child d (root_of X) nf]> (nodes s)). exists (mk_mem h1 (root s)). split_and!.
  { intros K. erewrite bind_some by (by apply rd_some). rewrite A3. erewrite bind_some by (by apply rd_some). rewrite Es.
    unfold h1. destruct d; by erewrite bind_some by (by apply wr_some). }
  { done. }
  { exists na. cbn. unfold h1. rewrite lookup_insert_ne by set_solver. done. }
  intros pw. assert (HC1 : crep sentinel h1 q (F d cf p kf sib :: C) (root_of X)) by (eapply (crep_hole sentinel _ _ (F d cf p kf sib)); cbn; [exact HC|done|tauto|tauto]).
  assert (RX1 : rep sentinel h1 a X) by (apply rep_insert; [set_solver|done]).
  assert (∃ nx, h1 !! root_of X = Some nx ∧ (X = E → nx = ns)) as (nx & Ex & Exs).
  { destruct X as [|cx xl x kx xr]; [exists ns; split; [unfold h1; cbn; rewrite lookup_insert_ne; [done|set_solver]|done]|]. destruct RX1 as [ [w Hw] _]. by eexists. }
  erewrite wr_some by done. eexists. split; [done|]. cbn [nodes root]. split; [split; cbn [nodes root]|].
  - rewrite Hr. apply root_plug.
  - apply crep_insert; [|done]. cbn. destruct X; cbn; set_solver.
  - destruct X as [|cx xl x kx xr]; [done|]. eapply rep_parent; [by inversion NX|exact RX1|done|done].
  - rewrite addrs_plug. apply NoDup_app. split; [by inversion NX|]. split; [set_solver|by apply NoDup_cons; split; [rewrite elem_of_app|] ].
  - rewrite addrs_plug. set_solver.
  - destruct X as [|cx xl x kx xr]; [rewrite Exs by done; eexists; split; [apply lookup_insert_eq|by destruct Hb]|].
    exists ns. split; [|done]. unfold h1. cbn. rewrite !lookup_insert_ne by set_solver. done.
  - intros z Zc Zx Zs. unfold h1. rewrite !lookup_insert_ne; [done|set_solver|destruct X; set_solver].
Qed.

(** Another node takes the place, the colour and the subtrees of a node. *)
Lemma replace_ok C c l a k X q' b nb s q ps :
  let W := plug C (T c l a k X) in
  root s = root_of W → crep sentinel (nodes s) q (F R c a k l :: C) (root_of X) → rep sentinel (nodes s) q' X →
  NoDup (b :: addrs W) → sentinel ∉ b :: addrs W → nodes s !! b = Some nb →
  (∃ n, nodes s !! sentinel = Some n ∧ color n = 0 ∧ parent n = ps) →
  ∃ s', replace_node sentinel a b s = Some (tt, s') ∧ holds s' q ps (plug C (T c l b (key nb) X))
  ∧ ∀ z, z ≠ b → z ∉ caddrs C → z ∉ addrs l → z ∉ addrs X → nodes s' !! z = nodes s !! z.
Proof.
  intros W Hr HC HX ND Hs Eb (ns & Ens & Hns). unfold W in *. clear W. rewrite addrs_plug in ND, Hs. cbn in ND, Hs.
  destruct HC as ((xa & Ea) & HL & HC). cbn [fside fcolour faddr fkey fsib] in *. rewrite !NoDup_cons, !NoDup_app in ND.
  destruct ND as (Nb & Na & (NL & NLX & NX) & NXC & NC). unfold replace_node.
  assert (Nab : a ≠ b) by set_solver.
  do 8 (erewrite bind_some by ((apply wr_some || apply rd_some); cbn [nodes]; rewrite ?lookup_insert_eq; rewrite ?lookup_insert_ne by done; done)).
  cbn [nodes root left right parent color]. rewrite !insert_insert_eq.
  set (b' := set_color _ _). set (h1 := <[b := b']> (nodes s)).
  destruct (relink_ok sentinel L C (T c l a k X) b (mk_mem h1 (root s)) q (mk_node k (root_of l) (root_of X) (parent_of q C) (cnum c) xa)) as (s2 & E2 & C2 & R2 & O2);
    cbn [nodes root NgxRbtree.root_of]; [apply crep_insert; [set_solver|done]|done|unfold h1; by rewrite lookup_insert_ne|done|set_solver|done|set_solver|].
  cbn [nodes root NgxRbtree.root_of] in *. erewrite bind_some by exact E2. clear E2.
  assert (E2b : nodes s2 !! b = Some b') by (rewrite O2 by set_solver; apply lookup_insert_eq). erewrite bind_some by (by apply rd_some).
  change (left b') with (root_of l).
  assert (F2 : ∀ z, z ≠ b → z ∉ caddrs C → nodes s2 !! z = nodes s !! z) by (intros z Zb Zc; rewrite O2 by done; by apply lookup_insert_ne).
  destruct (adopt_ok sentinel s2 b a l) as (s3 & E3 & L3 & R3 & O3); [eapply rep_frame; [|exact HL]; intros; apply F2; set_solver|done|set_solver|].
  erewrite bind_some by exact E3. clear E3. erewrite bind_some by (apply rd_some; rewrite O3 by set_solver; done). change (right b') with (root_of X).
  destruct (adopt_ok sentinel s3 b q' X) as (s4 & E4 & X4 & R4 & O4).
  { eapply rep_frame; [|exact HX]. intros z Hz. rewrite O3, F2; set_solver. }
  { done. }
  { set_solver. }
  exists s4. split; [exact E4|]. clear E4. split; [|intros z Zb Zc Zl Zx; rewrite O4, O3, F2; done].
  split.
  - rewrite R4, R3, R2. destruct C as [|f C]; [done|]. rewrite Hr. apply root_plug.
  - apply rep_plug. split; [eapply crep_frame; [|exact C2]; intros z Hz; rewrite O4, O3; set_solver|]. split.
    + exists (data nb). rewrite O4, O3, E2b by set_solver. done.
    + split; [|done]. eapply rep_frame; [|exact L3]. intros z Hz. apply O4. set_solver.
  - rewrite addrs_plug. cbn. rewrite !NoDup_cons, !NoDup_app. set_solver.
  - rewrite addrs_plug. set_solver.
  - exists ns. split; [|done]. rewrite O4, O3, F2; set_solver.
Qed.

(** ** The end of a deletion *)

Lemma holds_outside s q ps t a n : holds s q ps t → a ∉ addrs t → a ≠ sentinel → holds (mk_mem (<[a := n]> (nodes s)) (root s)) q ps t.
Proof.
  intros [H1 H2 H3 H4 (ns & Ens & Hb)] Ha Hs. split; cbn [nodes root]; [done|by apply rep_insert|done|done|].
  exists ns. by rewrite lookup_insert_ne.
Qed.

Lemma clear_ok s a n : nodes s !! a = Some n → ∃ n', clear_node a s = Some (tt, mk_mem (<[a := n']> (nodes s)) (root s)).
Proof.
  intros Hn. unfold clear_node. do 3 (erewrite bind_some by (apply wr_some; cbn [nodes]; rewrite ?lookup_insert_eq; done)).
  erewrite wr_some by apply lookup_insert_eq. cbn [nodes root]. rewrite !insert_insert_eq. by eexists.
Qed.

Lemma fits_any c n t : rb c n t → fits n t.
Proof. intros H. destruct c; [right|by left]. inversion H; subst. split; [done|]. by econstructor. Qed.

Lemma blacken_ok C t s q ps :
  holds s q ps (plug C t) →
  ∃ s', wr ngx_rbt_black (root_of t) s = Some (tt, s') ∧ moves q ps (plug C t) (plug C (blacken t)) s s'.
Proof.
  intros H. destruct t as [|c l a k r]; [|by apply (recolor_moves sentinel Black C L)].
  pose proof H as [H1 H2 H3 H4 (ns & Ens & Hb & Hp)]. erewrite wr_some by done. eexists. split; [done|]. split; [|done|].
  - split; cbn [nodes root]; [done|by apply rep_insert|done|done|]. eexists. split; [apply lookup_insert_eq|]. done.
  - intros z Hz _. by apply lookup_insert_ne.
Qed.

(** After a node of the colour [red] was taken out above [t]. *)
Lemma delete_end (red : bool) C t c n s q ps :
  holds s q ps (plug C t) → (C ≠ [] → linked q ps C t) →
  (if red then ctx_ok C Black n ∧ c = Black else ctx_ok C Black (S n)) → rb c n t →
  ∃ s' t' m, (if red then mret tt else
    (fuel ← rounds; temp ← delete_fix sentinel fuel (root_of t); wr ngx_rbt_black temp)) s = Some (tt, s')
  ∧ moves q ps (plug C t) t' s s' ∧ rb Black m t'.
Proof.
  intros H Hl HC Ht. destruct red.
  - destruct HC as [HC ->]. destruct (plug_rb _ _ _ _ HC Ht) as [m Hm]. exists s, (plug C t), m. split; [done|]. split; [by apply reshape_refl|done].
  - erewrite bind_some by done. destruct (delete_fix_ok (S (size (nodes s))) C t n s q ps H Hl HC (fits_any _ _ _ Ht)) as (s2 & C2 & t2 & m & E2 & M2 & Hm).
    { pose proof (tree_size sentinel s q ps _ H) as Hz. pose proof (ctx_length C). rewrite addrs_plug, length_app in Hz.
      destruct (red_of t); lia. }
    erewrite bind_some by exact E2. destruct (blacken_ok C2 t2 s2 q ps (m_holds _ _ _ _ _ _ _ M2)) as (s3 & E3 & M3).
    exists s3, (plug C2 (blacken t2)), m. split; [done|]. split; [by eapply reshape_trans|done].
Qed.

(** ** The list of a zipper *)

Fixpoint cbefore (C : list frame) : list (Z * Z) :=
  match C with
  | [] => []
  | f :: C => cbefore C ++ match fside f with L => [] | R => inorder (fsib f) ++ [(faddr f, fkey f)] end
  end.

Fixpoint cafter (C : list frame) : list (Z * Z) :=
  match C with
  | [] => []
  | f :: C => match fside f with L => (faddr f, fkey f) :: inorder (fsib f) | R => [] end ++ cafter C
  end.

Lemma inorder_plug C t : inorder (plug C t) = cbefore C ++ inorder t ++ cafter C.
Proof.
  revert t. induction C as [|f C IH]; intros t; cbn; [by rewrite app_nil_r|]. rewrite IH. unfold fill.
  destruct (fside f); cbn; rewrite ?app_nil_r, <- ?app_assoc; done.
Qed.

Lemma left_context C : Forall (fun f => fside f = L) C → cbefore C = [].
Proof. induction 1 as [|f C Hf HC IH]; cbn; [done|]. by rewrite IH, Hf. Qed.

Lemma split_unique (x : Z * Z) l1 l2 m1 m2 : NoDup (l1 ++ x :: l2).*1 → m1 ++ x :: m2 = l1 ++ x :: l2 → l1 = m1 ∧ l2 = m2.
Proof.
  revert m1. induction l1 as [|y l1 IH]; intros [|z m1] ND Ei; cbn in *; simplify_eq; [done|..].
  - apply NoDup_cons in ND as [ND _]. rewrite fmap_app in ND. set_solver.
  - apply NoDup_cons in ND as [ND _]. rewrite fmap_app in ND. set_solver.
  - apply NoDup_cons in ND as [_ ND]. by destruct (IH m1 ND) as [-> ->].
Qed.

Lemma find_node t a k l1 l2 :
  NoDup (addrs t) → inorder t = l1 ++ (a, k) :: l2 →
  ∃ C c l r, t = plug C (T c l a k r) ∧ l1 = cbefore C ++ inorder l ∧ l2 = inorder r ++ cafter C.
Proof.
  intros ND Ei. assert (∃ C c l r, t = plug C (T c l a k r)) as (C & c & l & r & ->).
  { assert (Hin : (a, k) ∈ inorder t) by (rewrite Ei; set_solver). clear ND Ei. enough (∀ C0, ∃ C c l r, plug C0 t = plug C (T c l a k r)) as Hx by (apply (Hx [])).
    induction t as [|c l IHl b k' r IHr]; intros C0; cbn in Hin; [set_solver|].
    apply elem_of_app in Hin as [Hin|[ [= -> ->]|Hin]%elem_of_cons].
    - apply (IHl Hin (F L c b k' r :: C0)).
    - by exists C0, c, l, r.
    - apply (IHr Hin (F R c b k' l :: C0)). }
  exists C, c, l, r. split; [done|]. rewrite addrs_inorder, Ei in ND. rewrite inorder_plug in Ei. cbn in Ei. rewrite <- app_assoc, app_assoc in Ei.
  by apply split_unique in Ei.
Qed.

Lemma rbtree_min_at fuel C t s q ps :
  holds s q ps (plug C t) → t ≠ E → (height t <= fuel)%nat →
  ∃ C2 c b k r, rbtree_min sentinel fuel (root_of t) s = Some (b, s) ∧ t = plug C2 (T c E b k r) ∧ Forall (fun f => fside f = L) C2.
Proof.
  revert C t. induction fuel as [|fuel IH]; intros C t H Ht Hl; (destruct t as [|c l a k r]; [done|]); cbn [height] in Hl; [lia|].
  destruct (focus_node sentinel C L c a k l r s q ps H) as (n & En & Cl & _). cbn [rbtree_min NgxRbtree.root_of]. erewrite bind_some by (by apply rd_some).
  cbn [child] in Cl. rewrite Cl. destruct l as [|c' l' a' k' r'].
  - cbn. rewrite Z.eqb_refl. by exists [], c, a, k, r.
  - pose proof (h_sentinel _ _ _ _ _ H) as Hs. rewrite addrs_plug in Hs. rewrite (proj2 (Z.eqb_neq _ _)) by (cbn in *; set_solver).
    destruct (IH (F L c a k r :: C) (T c' l' a' k' r') H) as (C2 & c2 & b & k2 & r2 & E2 & Et & HF); [done|lia|].
    exists (C2 ++ [F L c a k r]), c2, b, k2, r2. split; [exact E2|]. split; [by rewrite plug_app, <- Et|]. apply Forall_app. by repeat constructor.
Qed.

(** ** Deletion *)

Lemma delete_tail (red : bool) C t c n a na s q ps :
  holds s q ps (plug C t) → (C ≠ [] → linked q ps C t) → nodes s !! a = Some na → a ≠ sentinel → a ∉ addrs (plug C t) →
  (if red then ctx_ok C Black n ∧ c = Black else ctx_ok C Black (S n)) → rb c n t →
  ∃ s', (clear_node a;; if red then mret tt else
    (fuel ← rounds; temp ← delete_fix sentinel fuel (root_of t); wr ngx_rbt_black temp)) s = Some (tt, s')
  ∧ rbtree sentinel s' (inorder (plug C t)) ∧ untouched sentinel (a :: addrs (plug C t)) s s'.
Proof.
  intros H Hl Hn Ha Hin HC Ht. destruct (clear_ok s a na Hn) as [n' E1]. erewrite bind_some by exact E1.
  pose proof (holds_outside s q ps _ a n' H Hin Ha) as H2. destruct (delete_end red C t c n _ q ps H2 Hl HC Ht) as (s' & t' & m & E2 & M2 & Hm).
  exists s'. split; [done|]. split; [exists q, ps, t', m; split; [apply M2|]; split; [done|apply M2]|].
  intros z Zs Zn. rewrite (m_outside _ _ _ _ _ _ _ M2) by set_solver. cbn. apply lookup_insert_ne. set_solver.
Qed.

Lemma delete_subst_one C c l a k r X s q ps :
  holds s q ps (plug C (T c l a k r)) → (l = E ∧ X = r) ∨ (r = E ∧ X = l) → delete_subst sentinel a s = Some ((a, root_of X), s).
Proof.
  intros H HX. destruct (focus_node sentinel C L c a k l r s q ps H) as (n & En & Cl & Cr & _). cbn in Cl, Cr. unfold delete_subst.
  do 2 (erewrite bind_some by (by apply rd_some)). rewrite Cl, Cr. destruct HX as [ [-> ->]|[-> ->] ]; cbn; rewrite Z.eqb_refl; [done|].
  destruct (Z.eqb_spec (NgxRbtree.root_of sentinel l) sentinel) as [El|]; [|done]. destruct l as [|c' l' a' k' r']; [done|]. exfalso. cbn in El. subst a'.
  pose proof (h_sentinel _ _ _ _ _ H) as Hs. rewrite addrs_plug in Hs. set_solver.
Qed.

Lemma delete_subst_two C c l a k r s q ps :
  holds s q ps (plug C (T c l a k r)) → l ≠ E → r ≠ E →
  ∃ C2 cb b kb r2, delete_subst sentinel a s = Some ((b, root_of r2), s) ∧ r = plug C2 (T cb E b kb r2) ∧ Forall (fun f => fside f = L) C2.
Proof.
  intros H Hl Hr. destruct (focus_node sentinel C L c a k l r s q ps H) as (n & En & Cl & Cr & _). cbn in Cl, Cr.
  pose proof (h_sentinel _ _ _ _ _ H) as Hs. rewrite addrs_plug in Hs. unfold delete_subst. do 2 (erewrite bind_some by (by apply rd_some)). rewrite Cl, Cr.
  rewrite !(proj2 (Z.eqb_neq _ sentinel)) by (destruct l, r; cbn in *; set_solver).
  destruct (rbtree_min_at (S (size (nodes s))) (F R c a k l :: C) r s q ps H Hr) as (C2 & cb & b & kb & r2 & E2 & -> & HF).
  { pose proof (tree_size sentinel s q ps _ H) as Hz. rewrite addrs_plug in Hz. cbn in Hz. rewrite !length_app in Hz. pose proof (height_size r). lia. }
  exists C2, cb, b, kb, r2. split; [|done]. erewrite bind_some by (unfold ngx_rbtree_min; erewrite bind_some by done; exact E2).
  assert (H' : holds s q ps (plug (C2 ++ F R c a k l :: C) (mk L cb b kb E r2))) by (by rewrite plug_app).
  destruct (focus_node sentinel _ _ _ _ _ _ _ _ _ _ H') as (nb & Eb & Bl & Br & _). cbn in Bl, Br. erewrite bind_some by (by apply rd_some). rewrite Bl.
  rewrite Z.eqb_refl. cbn [negb]. erewrite bind_some by (by apply rd_some). by rewrite Br.
Qed.

(** What the deletion of [a] leaves. *)
Definition removes (s : mem) (t : tree) (a : Z) (l : list (Z * Z)) : Prop :=
  ∃ s', ngx_rbtree_delete sentinel a s = Some (tt, s') ∧ rbtree sentinel s' l ∧ untouched sentinel (addrs t) s s'.

(** The colours around a child that takes the place of its parent. *)
Lemma removed_child C c n c0 l a k r X :
  ctx_ok C c n → rb c n (T c0 l a k r) → (l = E ∧ X = r) ∨ (r = E ∧ X = l) →
  ∃ c' n', (if red_of (T c0 l a k r) then ctx_ok C Black n' ∧ c' = Black else ctx_ok C Black (S n')) ∧ rb c' n' X.
Proof.
  intros HC Hr HX. inversion Hr as [|? ? ? ? ? H1 H2|? ? ? ? ? cl cr H1 H2]; subst; cbn [red_of].
  - exists Black, n. split; [split; [by eapply ctx_weaken|done]|]. by destruct HX as [ [-> ->]|[-> ->] ].
  - destruct HX as [ [-> ->]|[-> ->] ]; [exists cr|exists cl]; by eexists.
Qed.

Lemma delete_root c l a k r X n s q ps :
  holds s q ps (T c l a k r) → rb Black n (T c l a k r) → (l = E ∧ X = r) ∨ (r = E ∧ X = l) → removes s (T c l a k r) a (inorder X).
Proof.
  intros H Hr HX. unfold removes, ngx_rbtree_delete. erewrite bind_some by (eapply (delete_subst_one [] c l a k r); [exact H|exact HX]). cbv iota beta.
  erewrite bind_some by done. pose proof H as [H1 H2 H3 H4 Hb]. rewrite H1. cbn [NgxRbtree.root_of]. rewrite Z.eqb_refl.
  assert (HX' : holds (mk_mem (nodes s) (root_of X)) a ps X ∧ (a ∉ addrs X) ∧ ∃ c' m, rb c' m X).
  { cbn in H2, H3, H4. destruct H2 as (_ & Hl & Hr'). apply NoDup_cons in H3 as [Na Nd]. apply NoDup_app in Nd as (Nl & _ & Nr).
    inversion Hr; subst. destruct HX as [ [-> ->]|[-> ->] ]; (split; [split; cbn; try done; set_solver|split; [set_solver|eauto] ]). }
  destruct HX' as (HX' & Na & c' & m & Hm). erewrite bind_some by done.
  destruct (blacken_ok [] X _ a ps HX') as (s2 & E2 & M2). erewrite bind_some by exact E2. destruct H2 as ((x & Ea) & _).
  assert (As : a ≠ sentinel) by set_solver. assert (E2a : nodes s2 !! a = nodes s !! a) by (by apply (m_outside _ _ _ _ _ _ _ M2)).
  destruct (clear_ok s2 a _ (eq_trans E2a Ea)) as [n' E3]. eexists. split; [exact E3|]. split.
  - assert (Hk : a ∉ addrs (blacken X)) by (by destruct X).
    assert (∃ m', rb Black m' (blacken X)) as [m' Hm'] by (destruct (fits_any _ _ _ Hm) as [Hf|[_ Hf] ]; [rewrite (rb_blacken _ _ Hf)|]; eauto).
    exists a, ps, (blacken X), m'. split; [apply holds_outside; [apply M2|done|done]|]. split; [done|apply M2].
  - intros z Zs Zn. cbn [nodes]. rewrite lookup_insert_ne by set_solver. rewrite (m_outside _ _ _ _ _ _ _ M2); [done|done|]. destruct HX as [ [-> ->]|[-> ->] ]; set_solver.
Qed.

Lemma delete_one f C c l a k r X n s q ps :
  let W := plug (f :: C) (T c l a k r) in
  holds s q ps W → rb Black n W → (l = E ∧ X = r) ∨ (r = E ∧ X = l) → removes s W a (inorder (plug (f :: C) X)).
Proof.
  intros W H Hr HX. unfold W in *. clear W. unfold removes, ngx_rbtree_delete. erewrite bind_some by (eapply (delete_subst_one (f :: C) c l a k r); [exact H|exact HX]). cbv iota beta.
  erewrite bind_some by done. pose proof (not_root sentinel f C (T c l a k r) s q ps H ltac:(done)) as Nr. cbn [NgxRbtree.root_of] in Nr. rewrite Nr.
  destruct (root_node _ _ _ _ _ _ H) as (na & Ea & Er & _). cbn [NgxRbtree.root_of] in Ea. erewrite bind_some by (by apply rd_some).
  destruct (splice_ok f C c l a k r X s q ps H HX) as (s1 & E1 & R1 & (n1 & En1 & Ep1) & Hs1). rewrite E1. rewrite Z.eqb_refl.
  destruct (Hs1 (faddr f)) as (s2 & E2 & L2 & O2).
  erewrite bind_some by (erewrite bind_some by (by apply rd_some); rewrite Ep1; exact E2). rewrite Er.
  destruct (unplug_rb _ _ _ Hr) as (c0 & n0 & HC & Hrb). destruct (removed_child _ _ _ _ _ _ _ _ X HC Hrb HX) as (c' & n' & HC' & Hrb').
  pose proof (h_nodup _ _ _ _ _ H) as ND. pose proof (h_sentinel _ _ _ _ _ H) as Hs. rewrite addrs_plug in ND, Hs. apply NoDup_app in ND as (ND & Nd & _).
  assert (Na : a ∉ addrs X) by (cbn in ND; apply NoDup_cons in ND as [ND _]; destruct HX as [ [-> ->]|[-> ->] ]; set_solver).
  assert (Nc : a ∉ caddrs (f :: C)) by (apply Nd; left). assert (As : a ≠ sentinel) by (cbn [addrs] in Hs; set_solver).
  edestruct (delete_tail (red_of (T c l a k r)) (f :: C) X c' n' a na s2 q) as (s3 & E3 & R3 & O3); [apply loose_holds; exact L2|..].
  { intros _. by destruct X. }
  { by rewrite O2. }
  { done. }
  { rewrite addrs_plug. set_solver. }
  { done. }
  { done. }
  exists s3. split; [exact E3|]. split; [done|]. assert (IX : ∀ z, z ∈ addrs X → z ∈ addrs (T c l a k r)) by (destruct HX as [ [-> ->]|[-> ->] ]; set_solver).
  intros z Zs Zn. rewrite addrs_plug in Zn. rewrite O3 by (rewrite ?addrs_plug; set_solver). apply O2; set_solver.
Qed.

Lemma crep_app h q C1 C t :
  crep sentinel h q (C1 ++ C) (root_of t) ↔ crep sentinel h (parent_of q C) C1 (root_of t) ∧ crep sentinel h q C (root_of (plug C1 t)).
Proof.
  revert t. induction C1 as [|g C1 IH]; intros t; [cbn [crep app plug]; tauto|]. change ((g :: C1) ++ C) with (g :: (C1 ++ C)).
  cbn [crep plug]. specialize (IH (fill t g)). unfold fill in IH at 1 2. rewrite root_mk in IH. rewrite IH.
  replace (parent_of q (C1 ++ C)) with (parent_of (parent_of q C) C1) by (by destruct C1). tauto.
Qed.

Lemma ctx_rename C1 C d c a k a' k' sib cc n : ctx_ok (C1 ++ F d c a k sib :: C) cc n → ctx_ok (C1 ++ F d c a' k' sib :: C) cc n.
Proof. revert cc n. induction C1 as [|g C1 IH]; intros cc n; cbn; inversion 1; subst; econstructor; eauto. Qed.

(** The successor [b] of [a] is spliced out and takes the place of [a]. *)
Lemma replace_by C C2 c l a k cb b kb r2 s q ps :
  let Cb := C2 ++ F R c a k l :: C in
  holds s q ps (plug Cb (T cb E b kb r2)) →
  ∃ s3 ps3 na, (∀ K : M unit,
    (p ← rd parent b;
     pl ← rd left p;
     (if b =? pl then wr (set_left (root_of r2)) p else wr (set_right (root_of r2)) p);;
     (p ← rd parent b;
      (if p =? a then wr (set_parent b) (root_of r2) else wr (set_parent p) (root_of r2));;
      replace_node sentinel a b);;
     K) s = K s3)
  ∧ holds s3 q ps3 (plug (C2 ++ F R c b kb l :: C) r2) ∧ linked q ps3 (C2 ++ F R c b kb l :: C) r2
  ∧ nodes s3 !! a = Some na ∧ untouched sentinel (addrs (plug Cb (T cb E b kb r2))) s s3.
Proof.
  intros Cb H. assert (HP : addrs (plug Cb (T cb E b kb r2)) ≡ₚ b :: addrs (plug C (T c l a k (plug C2 r2)))).
  { unfold Cb. rewrite plug_app, !addrs_plug. cbn. rewrite !addrs_plug. cbn. solve_Permutation. }
  pose proof (h_nodup _ _ _ _ _ H) as ND. pose proof (h_sentinel _ _ _ _ _ H) as Hs. assert (ND2 := ND). assert (Hs2 := Hs). rewrite HP in ND2, Hs2.
  rewrite addrs_plug in ND. assert (∃ f C', Cb = f :: C') as (f & C' & Ef) by (unfold Cb; destruct C2; cbn; eauto).
  assert (Efa : faddr f = parent_of a C2) by (unfold Cb in Ef; destruct C2; cbn in Ef; by injection Ef as <- _). rewrite Ef in H.
  destruct (focus_node sentinel (f :: C') L cb b kb E r2 s q ps H) as (nb & Eb & _ & _ & _ & _ & Ekb).
  destruct (splice_ok f C' cb E b kb r2 r2 s q ps H) as (s1 & E1 & R1 & (n1 & En1 & Ep1) & Hs1); [by left|].
  set (pw := match C2 with [] => b | _ => faddr f end). destruct (Hs1 pw) as (s2 & E2 & L2 & O2).
  set (ps3 := match r2 with E => pw | _ => ps end) in *. rewrite <- Ef in L2, O2. destruct L2 as [Lr Lc Lrep Lnd Ls Lb].
  apply NoDup_app in ND as (_ & Nd & _). cbn [addrs app] in ND2, Hs2, Nd. 
  assert (Nbc : b ∉ caddrs Cb) by (apply Nd; left). assert (Nbr : b ∉ addrs r2) by (apply NoDup_cons in ND2 as [ND2 _]; rewrite addrs_plug in ND2; cbn in ND2; rewrite addrs_plug in ND2; set_solver).
  assert (E2b : nodes s2 !! b = Some nb) by (rewrite O2; [done|done|done|set_solver]).
  unfold Cb in Lr, Lc. rewrite plug_app in Lr. apply crep_app in Lc as [Lc1 Lc2]. cbn [parent_of faddr] in Lc1.
  assert (∃ q', rep sentinel (nodes s2) q' (plug C2 r2)) as [q' HX].
  { destruct C2 as [|g C2']; [by exists b|]. exists a. apply rep_plug. split; [done|]. unfold pw in Lrep. by rewrite Efa in Lrep. }
  destruct (replace_ok C c l a k (plug C2 r2) q' b nb s2 q ps3 Lr Lc2 HX ND2 Hs2 E2b Lb) as (s3 & E3 & H3 & O3). rewrite Ekb in H3.
  assert (∃ na, nodes s2 !! a = Some na) as [na Ena] by (destruct Lc2 as [ [x Hx] _]; by eexists).
  assert (Na : a ≠ b ∧ (a ∉ caddrs C) ∧ (a ∉ addrs l) ∧ (a ∉ addrs r2) ∧ (a ∉ caddrs C2)).
  { rewrite addrs_plug in ND2. cbn in ND2. rewrite addrs_plug in ND2. apply NoDup_cons in ND2 as [Nb ND2]. apply NoDup_cons in ND2 as [Na _]. set_solver. }
  assert (In : ∀ z, z ∈ caddrs Cb ∨ z ∈ addrs r2 ∨ z ∈ caddrs C ∨ z ∈ addrs l ∨ z ∈ addrs (plug C2 r2) ∨ z = b → z ∈ addrs (plug Cb (T cb E b kb r2))).
  { intros z Hz. destruct Hz as [Hz|Hz]; [rewrite addrs_plug; set_solver|]. rewrite HP, addrs_plug. cbn. rewrite addrs_plug in *. set_solver. }
  exists s3, ps3, na. split; [|split; [by rewrite plug_app|split; [|split] ] ].
  - intros K. rewrite E1. erewrite bind_some; [done|]. erewrite bind_some by (by apply rd_some). rewrite Ep1.
    erewrite bind_some; [exact E3|]. unfold pw in E2. rewrite Efa in *. destruct C2 as [|g C2']; cbn [parent_of] in *; [by rewrite Z.eqb_refl|].
    rewrite (proj2 (Z.eqb_neq _ _)); [done|]. intros Eg. destruct Na as (_ & _ & _ & _ & Na). apply Na. rewrite <- Eg. left.
  - unfold linked, ps3, pw. destruct r2; [|done]. destruct C2 as [|g C2']; [done|]. by rewrite Efa.
  - destruct Na as (N1 & N2 & N3 & N4 & N5). rewrite O3; [done..|]. rewrite addrs_plug. set_solver.
  - intros z Zs Zn. rewrite O3, O2; [done|..]; try done; intros Hz; apply Zn, In; tauto.
Qed.

Lemma delete_two C c l a k r n s q ps :
  let W := plug C (T c l a k r) in
  holds s q ps W → rb Black n W → l ≠ E → r ≠ E → removes s W a (cbefore C ++ inorder l ++ inorder r ++ cafter C).
Proof.
  intros W H Hr Hl Hne. unfold W in *. clear W. destruct (delete_subst_two C c l a k r s q ps H Hl Hne) as (C2 & cb & b & kb & r2 & E0 & -> & HF).
  set (Cb := C2 ++ F R c a k l :: C). assert (EW : plug C (T c l a k (plug C2 (T cb E b kb r2))) = plug Cb (T cb E b kb r2)) by (unfold Cb; by rewrite plug_app).
  rewrite EW in *. destruct (replace_by C C2 c l a k cb b kb r2 s q ps H) as (s3 & ps3 & na & E3 & H3 & L3 & Ea & O3).
  assert (∃ f C', Cb = f :: C') as (f & C' & Ef) by (unfold Cb; destruct C2; cbn; eauto).
  unfold removes, ngx_rbtree_delete. erewrite bind_some by exact E0. cbv iota beta. erewrite bind_some by done.
  assert (H' := H). rewrite Ef in H'. pose proof (not_root sentinel f C' (T cb E b kb r2) s q ps H' ltac:(done)) as Nr. cbn [NgxRbtree.root_of] in Nr. rewrite Nr.
  destruct (root_node _ _ _ _ _ _ H) as (nb & Eb & Er & _). cbn [NgxRbtree.root_of] in Eb. erewrite bind_some by (by apply rd_some). rewrite Er.
  assert (Nab : (b =? a) = false ∧ a ≠ sentinel ∧ (a ∈ addrs (plug Cb (T cb E b kb r2)))).
  { pose proof (h_nodup _ _ _ _ _ H) as ND. pose proof (h_sentinel _ _ _ _ _ H) as Hs. rewrite addrs_plug in ND, Hs. apply NoDup_app in ND as (_ & ND & _).
    assert (Ia : a ∈ caddrs Cb) by (unfold Cb; clear; induction C2; cbn; set_solver). split; [apply Z.eqb_neq; intros ->; apply (ND a); [left|done]|].
    rewrite addrs_plug. set_solver. }
  destruct Nab as (Nab & As & Ia). rewrite Nab, E3.
  destruct (unplug_rb _ _ _ Hr) as (c0 & n0 & HC & Hrb). destruct (removed_child _ _ _ _ _ _ _ _ r2 HC Hrb ltac:(by left)) as (c' & n' & HC' & Hrb').
  assert (HP : addrs (plug Cb (T cb E b kb r2)) ≡ₚ a :: addrs (plug (C2 ++ F R c b kb l :: C) r2)).
  { unfold Cb. rewrite !plug_app, !addrs_plug. cbn. solve_Permutation. }
  destruct (delete_tail (red_of (T cb E b kb r2)) (C2 ++ F R c b kb l :: C) r2 c' n' a na s3 q ps3) as (s4 & E4 & R4 & O4); [done|done|done|done| | |done|].
  { pose proof (h_nodup _ _ _ _ _ H) as ND. rewrite HP in ND. by apply NoDup_cons in ND as [? _]. }
  { destruct (red_of _); [destruct HC' as [HC' ->]; split; [|done] |]; by eapply ctx_rename. }
  exists s4. split; [exact E4|]. split.
  - rewrite !inorder_plug. rewrite plug_app, inorder_plug in R4. cbn in R4. rewrite inorder_plug in R4. rewrite (left_context C2 HF) in *. cbn in *.
    by rewrite <- !app_assoc in *.
  - intros z Zs Zn. rewrite O4, O3; [done|done|done|done|]. by rewrite <- HP.
Qed.

Lemma rbtree_delete_lemma s l1 a k l2 :
  rbtree sentinel s (l1 ++ (a, k) :: l2) →
  ∃ s', ngx_rbtree_delete sentinel a s = Some (tt, s') ∧ rbtree sentinel s' (l1 ++ l2)
  ∧ untouched sentinel (l1 ++ (a, k) :: l2).*1 s s'.
Proof.
  intros (q & ps & t & n & H & Hr & Ei). destruct (find_node t a k l1 l2 (h_nodup _ _ _ _ _ H) Ei) as (C & c & l & r & -> & -> & ->).
  enough (removes s (plug C (T c l a k r)) a ((cbefore C ++ inorder l) ++ inorder r ++ cafter C)) as (s' & E1 & E2 & E3).
  { exists s'. split; [done|]. split; [done|]. intros z Zs Zn. apply E3; [done|]. by rewrite addrs_inorder, Ei. }
  rewrite <- app_assoc.
  assert ((∃ X, ((l = E ∧ X = r) ∨ (r = E ∧ X = l)) ∧ inorder X = inorder l ++ inorder r) ∨ (l ≠ E ∧ r ≠ E)) as [ (X & HX & EX)|[Hl Hr'] ].
  { destruct l as [|c1 l1 a1 k1 r1]; [left; exists r; by split; [left|]|]. destruct r as [|c2 l2 a2 k2 r2]; [|by right].
    left. eexists. split; [by right|]. by rewrite app_nil_r. }
  - rewrite (app_assoc (inorder l)), <- EX, <- inorder_plug. destruct C as [|f C]; [by eapply delete_root|by eapply delete_one].
  - by eapply delete_two.
Qed.

End Proof.

End NgxRbtreeDelete.
