(* ===== verification/NgxRbtreeOps.v ===== *)
(** What core/ngx_rbtree.c promises its callers: a red-black tree in memory stands for the
    list of its nodes in order, and every operation is the operation on that list. *)

From S2P Require Import Prelude NgxRbtree NgxRbtreeProof NgxRbtreeDelete.
From stdpp Require Import gmap sorting.

Open Scope Z_scope.

Module NgxRbtreeOps.

Export NgxRbtreeDelete.

(** * What no operation changes *)

(** The nodes that there are and their [data]. *)
Definition same_data (s s' : mem) : Prop := ∀ z, data <$> nodes s' !! z = data <$> nodes s !! z.

Definition keeps {A} (m : M A) : Prop := ∀ s x s', m s = Some (x, s') → same_data s s'.

Create HintDb keeps.

Lemma keeps_ret {A} (x : A) : keeps (mret x).
Proof. intros s y s' [= _ <-] z. done. Qed.

Lemma keeps_bind {A B} (m : M A) (f : A → M B) : keeps m → (∀ x, keeps (f x)) → keeps (m ≫= f).
Proof.
  intros Hm Hf s y s' E1 z. unfold mbind, St_bind in E1. destruct (m s) as [ [x s1]|] eqn:E2; [|done].
  rewrite (Hf x _ _ _ E1 z). by eapply Hm.
Qed.

Lemma keeps_rd {A} (f : node → A) a : keeps (rd f a).
Proof. intros s x s' E1 z. unfold rd in E1. destruct (nodes s !! a); simplify_eq. done. Qed.

Lemma keeps_wr f a : (∀ n, data (f n) = data n) → keeps (wr f a).
Proof.
  intros Hf s x s' E1 z. unfold wr in E1. destruct (nodes s !! a) as [n|] eqn:Ea; simplify_eq. cbn.
  destruct (decide (z = a)) as [->|Hz]; [|by rewrite lookup_insert_ne]. rewrite lookup_insert_eq, Ea. cbn. by rewrite Hf.
Qed.

Lemma keeps_root : keeps get_root.
Proof. by intros s x s' [= _ <-] z. Qed.

Lemma keeps_set_root r : keeps (set_root r).
Proof. by intros s x s' [= _ <-] z. Qed.

Lemma keeps_rounds : keeps rounds.
Proof. by intros s x s' [= _ <-] z. Qed.

Lemma keeps_stuck {A} : keeps (stuck (S := mem) (A := A)).
Proof. done. Qed.

#[export] Hint Resolve keeps_ret keeps_rd keeps_root keeps_set_root keeps_rounds keeps_stuck : keeps.
#[export] Hint Extern 2 (keeps (wr _ _)) => (apply keeps_wr; by intros []) : keeps.
#[export] Hint Extern 1 (keeps (wr (set_child ?d _) _)) => (apply keeps_wr; intros []; by destruct d) : keeps.

(** Through the branches and the statements of a program. *)
Ltac keeps_tac := repeat (intros; (solve [eauto 2 with keeps] || apply keeps_bind || case_match)).

Lemma keeps_relink d a b : keeps (relink d a b).
Proof. unfold relink. keeps_tac. Qed.

#[export] Hint Resolve keeps_relink : keeps.

Lemma keeps_rotate sen d a : keeps (ngx_rbtree_rotate sen d a).
Proof. unfold ngx_rbtree_rotate. keeps_tac. Qed.

#[export] Hint Resolve keeps_rotate : keeps.

Lemma keeps_descend sen less fuel t a : keeps (descend sen less fuel t a).
Proof. revert t. induction fuel as [|fuel IH]; intros t; cbn; keeps_tac. Qed.

Lemma keeps_insert_fix sen fuel a : keeps (insert_fix sen fuel a).
Proof. revert a. induction fuel as [|fuel IH]; intros a; cbn; keeps_tac. Qed.

Lemma keeps_min sen fuel a : keeps (rbtree_min sen fuel a).
Proof. revert a. induction fuel as [|fuel IH]; intros a; cbn; keeps_tac. Qed.

#[export] Hint Resolve keeps_descend keeps_insert_fix keeps_min : keeps.

Lemma keeps_insert sen less a : keeps (ngx_rbtree_insert sen (insert_at sen less) a).
Proof. unfold ngx_rbtree_insert, insert_at. keeps_tac. Qed.

Lemma keeps_delete_fix sen fuel a : keeps (delete_fix sen fuel a).
Proof. revert a. induction fuel as [|fuel IH]; intros a; cbn; unfold red_sibling, black_sibling, red_far; keeps_tac. Qed.

#[export] Hint Resolve keeps_delete_fix : keeps.

Lemma keeps_delete sen a : keeps (ngx_rbtree_delete sen a).
Proof. unfold ngx_rbtree_delete, delete_subst, ngx_rbtree_min, replace_node, clear_node. keeps_tac. Qed.

(** * The first node and the next one *)

Section Ops.
Context (sentinel : Z).
Abbreviation root_of := (root_of sentinel).
Abbreviation holds := (holds sentinel).
Abbreviation rbtree := (rbtree sentinel).

Definition first (l : list (Z * Z)) : Z := match l with [] => 0 | x :: _ => x.1 end.

Lemma leftmost_ok fuel C t s q ps :
  holds s q ps (plug C t) → t ≠ E → (height t <= fuel)%nat → rbtree_min sentinel fuel (root_of t) s = Some (first (inorder t), s).
Proof.
  intros H Ht Hf. destruct (rbtree_min_at sentinel fuel C t s q ps H Ht Hf) as (C2 & c & b & k & r & E2 & -> & HF). rewrite E2.
  rewrite inorder_plug, (left_context _ HF). done.
Qed.

Lemma min_at C t s q ps :
  holds s q ps (plug C t) → t ≠ E → ngx_rbtree_min sentinel (root_of t) s = Some (first (inorder t), s).
Proof.
  intros H Ht. unfold ngx_rbtree_min. erewrite bind_some by done. eapply leftmost_ok; [exact H|done|].
  pose proof (tree_size sentinel s q ps _ H) as Hz. rewrite addrs_plug, length_app in Hz. pose proof (height_size t). lia.
Qed.

Lemma next_up_ok fuel C t s q ps :
  holds s q ps (plug C t) → t ≠ E → (length C < fuel)%nat → next_up fuel (root s) (root_of t) s = Some (first (cafter C), s).
Proof.
  revert C t. induction fuel as [|fuel IH]; intros C t H Ht Hf; [lia|]. cbn [next_up].
  destruct (root_node _ _ _ _ _ _ H) as (n & En & _ & Ep). erewrite bind_some by (by apply rd_some). destruct C as [|[d c a k sib] C].
  { rewrite (h_root _ _ _ _ _ H), Z.eqb_refl. done. }
  rewrite (not_root _ _ _ _ _ _ _ H Ht). replace (parent n) with a by (by destruct t).
  destruct (focus_node sentinel C d c a k t sib s q ps H) as (na & Ea & _). erewrite bind_some by (by apply rd_some).
  pose proof (side_test sentinel L d c a k sib C t s q ps na H Ea (or_introl Ht)) as Es. cbn [child] in Es. rewrite Es. destruct d; [done|].
  cbn [length] in Hf. pose proof (IH C (T c sib a k t) H ltac:(done) ltac:(lia)) as E1. by cbn [NgxRbtree.root_of] in E1.
Qed.

Lemma next_lemma s l1 a k l2 :
  rbtree s (l1 ++ (a, k) :: l2) → ngx_rbtree_next sentinel a s = Some (first l2, s).
Proof.
  intros (q & ps & t & n & H & Hr & Ei). destruct (find_node t a k l1 l2 (h_nodup _ _ _ _ _ H) Ei) as (C & c & l & r & -> & _ & ->).
  destruct (focus_node sentinel C L c a k l r s q ps H) as (na & Ea & _ & Cr & _). unfold ngx_rbtree_next. erewrite bind_some by (by apply rd_some).
  cbn [opp child] in Cr. rewrite Cr. destruct r as [|c' l' b k' r'].
  - cbn [NgxRbtree.root_of]. rewrite Z.eqb_refl. cbn [negb]. do 2 (erewrite bind_some by done).
    apply (next_up_ok _ C (T c l a k E) s q ps H); [done|]. pose proof (tree_size sentinel s q ps _ H) as Hz. pose proof (ctx_length C).
    rewrite addrs_plug, length_app in Hz. lia.
  - pose proof (h_sentinel _ _ _ _ _ H) as Hs. rewrite addrs_plug in Hs. rewrite (proj2 (Z.eqb_neq _ _)) by (cbn in *; set_solver). cbn [negb].
    rewrite (min_at (F R c a k l :: C) (T c' l' b k' r') s q ps H) by done. destruct (inorder (T c' l' b k' r')) eqn:E1; [|done].
    cbn in E1. by destruct (inorder l').
Qed.

Lemma min_lemma s a k l : rbtree s ((a, k) :: l) → ngx_rbtree_min sentinel (root s) s = Some (a, s).
Proof.
  intros (q & ps & t & n & H & Hr & Ei). rewrite (h_root _ _ _ _ _ H). rewrite (min_at [] t s q ps H); [by rewrite Ei|]. by intros ->.
Qed.

Lemma root_sentinel s l : rbtree s l → (root s =? sentinel) = match l with [] => true | _ => false end.
Proof.
  intros (q & ps & t & n & H & Hr & <-). rewrite (h_root _ _ _ _ _ H). destruct t as [|c l a k r]; cbn; [by rewrite Z.eqb_refl|].
  pose proof (h_sentinel _ _ _ _ _ H) as Hs. rewrite (proj2 (Z.eqb_neq _ _)) by (cbn in Hs; set_solver). by destruct (inorder l).
Qed.

(** The key of a node is in its memory. *)
Lemma node_key s l a k : rbtree s l → (a, k) ∈ l → a ≠ sentinel ∧ ∃ n, nodes s !! a = Some n ∧ key n = k.
Proof.
  intros (q & ps & t & n & H & Hr & <-) Hin. apply list_elem_of_split in Hin as (l1 & l2 & Ei).
  destruct (find_node t a k l1 l2 (h_nodup _ _ _ _ _ H) Ei) as (C & c & l & r & -> & _ & _).
  destruct (focus_node sentinel C L c a k l r s q ps H) as (na & Ea & _ & _ & _ & _ & Ek). split; [|by exists na].
  pose proof (h_sentinel _ _ _ _ _ H) as Hs. rewrite addrs_plug in Hs. cbn in Hs. set_solver.
Qed.

Lemma nodup_keys s l : rbtree s l → NoDup l.*1.
Proof. intros (q & ps & t & n & H & Hr & <-). rewrite <- addrs_inorder. apply H. Qed.

(** The way from the root to a leaf. *)
Lemma height_bound n t : rb Black n t → (height t <= 2 * Nat.log2 (S (length (inorder t))))%nat.
Proof.
  intros H. destruct (rb_height _ _ _ H) as [H1 H2]. pose proof (Nat.log2_le_mono _ _ H2) as H3. rewrite Nat.log2_pow2 in H3 by lia. lia.
Qed.

(** * The properties *)

(** C16. Insertion: in the memory of a red-black tree whose nodes are ordered by the
    comparison of the tree, [ngx_rbtree_insert] of a new node follows no bad pointer
    and ends with the memory of a red-black tree, parent pointers included, with the
    node in front of the first greater key and all others in their order; no node
    outside of the tree is changed, and the [data] of no node. The comparison is
    that of [ngx_rbtree_insert_value] or that of [ngx_rbtree_insert_timer_value] on
    keys that are less than 2^62 ms away from some time. *)
Theorem rbtree_insert_ok `{HK : KeyOrder less P rank} (s : mem) (l : list (Z * Z)) (a : Z) (na : node) :
  rbtree s l → ordered P rank l → nodes s !! a = Some na → a ≠ sentinel → a ∉ l.*1 → P (key na) →
  ∃ s', ngx_rbtree_insert sentinel (insert_at sentinel less) a s = Some (tt, s')
  ∧ rbtree s' (ordered_insert less (a, key na) l) ∧ ordered P rank (ordered_insert less (a, key na) l)
  ∧ untouched sentinel (a :: l.*1) s s' ∧ same_data s s'.
Proof.
  intros H HO Hn Ha Hl HP. destruct (rbtree_insert_lemma sentinel s l a na H HO Hn Ha Hl HP) as (s' & E1 & E2 & E3).
  exists s'. split; [done|]. split; [done|]. split; [by apply ordered_insert_ordered|]. split; [done|]. by eapply keeps_insert.
Qed.

(** C17. Deletion: for every node of a red-black tree in memory, [ngx_rbtree_delete]
    follows no bad pointer and ends with the memory of a red-black tree, parent
    pointers included, that has all the other nodes in their order; no node outside
    of the tree is changed, and the [data] of no node. This holds for every shape of
    the tree, although the deletion uses the sentinel as a node with a parent and
    can leave the parent pointer of the root dangling. *)
Theorem rbtree_delete_ok (s : mem) (l1 l2 : list (Z * Z)) (a k : Z) :
  rbtree s (l1 ++ (a, k) :: l2) →
  ∃ s', ngx_rbtree_delete sentinel a s = Some (tt, s') ∧ rbtree s' (l1 ++ l2)
  ∧ untouched sentinel (l1 ++ (a, k) :: l2).*1 s s' ∧ same_data s s'.
Proof.
  intros H. destruct (rbtree_delete_lemma sentinel s l1 a k l2 H) as (s' & E1 & E2 & E3). exists s'. split; [done|]. split; [done|].
  split; [done|]. by eapply keeps_delete.
Qed.

(** C18. The tree is balanced: in a tree of n nodes the search for the place of a
    node and the search for the first node end within 2 log2(n + 1) rounds, and the
    second finds the first node of the order. *)
Theorem rbtree_logarithmic (s : mem) (l : list (Z * Z)) (less : Z → Z → bool) (a : Z) (na : node) :
  rbtree s l → l ≠ [] → nodes s !! a = Some na →
  let n := (2 * Nat.log2 (S (length l)))%nat in
  (∃ p, descend sentinel less n (root s) a s = Some (p, s)) ∧ rbtree_min sentinel n (root s) s = Some (first l, s).
Proof.
  intros (q & ps & t & m & H & Hr & <-) Hl Hn n. rewrite (h_root _ _ _ _ _ H). assert (Ht : t ≠ E) by (by intros ->). split.
  - destruct (descend_ok sentinel less n [] t s q ps a na H Ht Hn (height_bound _ _ Hr)) as (f & C & _ & E1). eauto.
  - apply (leftmost_ok n [] t s q ps H Ht (height_bound _ _ Hr)).
Qed.

End Ops.

(** ** Examples *)

(** The nodes 1, 2 and 3 in a tree, a node 4 outside, the sentinel at 9. *)
Definition example_mem : mem :=
  mk_mem (list_to_map [(1, mk_node 10 9 9 2 1 0); (2, mk_node 20 1 3 0 0 0); (3, mk_node 30 9 9 2 1 0);
                       (4, mk_node 25 0 0 0 7 0); (9, mk_node 0 0 0 0 0 0)]) 2.

Lemma example_tree : rbtree 9 example_mem [(1, 10); (2, 20); (3, 30)].
Proof.
  exists 0, 0, (T Black (T Red E 1 10 E) 2 20 (T Red E 3 30 E)), 1%nat. split; [|split; [|done] ].
  - split; [done| | | |by eexists].
    + repeat split; by eexists.
    + apply (bool_decide_unpack _). vm_compute. done.
    + apply (bool_decide_unpack _). vm_compute. done.
  - econstructor; constructor; constructor.
Qed.

Lemma example_ordered : ordered (fun _ => True) (fun k => k) [(1, 10); (2, 20); (3, 30)].
Proof. split; [by repeat constructor|]. repeat constructor; cbn; lia. Qed.

Lemma rbtree_insert_ok_witness :
  ∃ s', ngx_rbtree_insert 9 (ngx_rbtree_insert_value 9) 4 example_mem = Some (tt, s')
  ∧ rbtree 9 s' [(1, 10); (2, 20); (4, 25); (3, 30)] ∧ ordered (fun _ => True) (fun k => k) [(1, 10); (2, 20); (4, 25); (3, 30)]
  ∧ untouched 9 [4; 1; 2; 3] example_mem s' ∧ same_data example_mem s'.
Proof.
  apply (rbtree_insert_ok (less := key_less) (P := fun _ => True) (rank := fun k => k) 9 example_mem [(1, 10); (2, 20); (3, 30)] 4 (mk_node 25 0 0 0 7 0)).
  - exact example_tree.
  - exact example_ordered.
  - reflexivity.
  - discriminate.
  - cbn. set_solver.
  - exact I.
Defined.

Lemma rbtree_delete_ok_witness :
  ∃ s', ngx_rbtree_delete 9 2 example_mem = Some (tt, s') ∧ rbtree 9 s' [(1, 10); (3, 30)] ∧ untouched 9 [1; 2; 3] example_mem s'
  ∧ same_data example_mem s'.
Proof. apply (rbtree_delete_ok 9 example_mem [(1, 10)] [(3, 30)] 2 20). exact example_tree. Defined.

Lemma rbtree_logarithmic_witness :
  (∃ p, descend 9 key_less 4 2 4 example_mem = Some (p, example_mem)) ∧ rbtree_min 9 4 2 example_mem = Some (1, example_mem).
Proof. apply (rbtree_logarithmic 9 example_mem _ key_less 4 (mk_node 25 0 0 0 7 0) example_tree); [discriminate|reflexivity]. Defined.

End NgxRbtreeOps.
