(* ===== verification/EventTimer.v ===== *)
(** The timers of the events: event/ngx_event_timer.c and event/ngx_event_timer.h, on the
    red-black tree of NgxRbtree.

    An event is known by the address of its [timer] node.  [ngx_current_msec] and the
    handlers of the events are arguments. *)

From S2P Require Import Prelude NgxRbtree NgxRbtreeProof NgxRbtreeDelete NgxRbtreeOps.
From stdpp Require Import gmap sorting.

Open Scope Z_scope.

Module EventTimer.

Import NgxRbtreeOps.

(** * Definitions *)

(** [(ngx_msec_t) -1]. *)
Definition NGX_TIMER_INFINITE : Z := 0xffffffffffffffff.
Definition NGX_TIMER_LAZY_DELAY : Z := 300.

(** The fields of [ngx_event_t] that timers use. *)
Record event := mk_event { timer_set : bool; timedout : bool; cancelable : bool }.

Record world := mk_world { timers : mem; events : gmap Z event }.

Abbreviation W := (St world).

Definition lift {A} (m : M A) : W A :=
  fun w => match m (timers w) with Some (x, s) => Some (x, mk_world s (events w)) | None => None end.
Definition get_event (a : Z) : W event := fun w => match events w !! a with Some e => Some (e, w) | None => None end.
Definition set_event (f : event → event) (a : Z) : W unit :=
  fun w => match events w !! a with Some e => Some (tt, mk_world (timers w) (<[a := f e]> (events w))) | None => None end.

Definition set_timer_set (b : bool) (e : event) : event := mk_event b (timedout e) (cancelable e).
Definition set_timedout (b : bool) (e : event) : event := mk_event (timer_set e) b (cancelable e).

Section Timers.
(** [ngx_event_timer_sentinel]. *)
Context (sentinel : Z).

Definition ngx_event_timer_init : W unit := lift (ngx_rbtree_init sentinel).

Definition ngx_event_del_timer (ev : Z) : W unit :=
  lift (ngx_rbtree_delete sentinel ev);;
  set_event (set_timer_set false) ev.

(** [ngx_current_msec]. *)
Context (now : Z).

Definition ngx_event_add_timer (ev timer : Z) : W unit :=
  let key := wrap_u 64 (now + timer) in
  e ← get_event ev;
  old ← lift (rd NgxRbtree.key ev);
  let diff := wrap_s 64 (key - old) in
  if timer_set e && (Z.abs diff <? NGX_TIMER_LAZY_DELAY) then mret tt
  else
    (if timer_set e then ngx_event_del_timer ev else mret tt);;
    lift (wr (set_key key) ev);;
    lift (ngx_rbtree_insert sentinel (ngx_rbtree_insert_timer_value sentinel) ev);;
    set_event (set_timer_set true) ev.

Definition ngx_event_find_timer : W Z :=
  root ← lift get_root;
  if root =? sentinel then mret NGX_TIMER_INFINITE
  else
    node ← lift (ngx_rbtree_min sentinel root);
    key ← lift (rd NgxRbtree.key node);
    let timer := wrap_s 64 (key - now) in
    mret (if timer >? 0 then timer else 0).

Section Expire.
(** [ev->handler(ev)]. *)
Context (handler : Z → W unit).

(** The result is the list of the events whose handlers were called. *)
Fixpoint expire_loop (fuel : nat) : W (list Z) :=
  match fuel with
  | O => stuck
  | S fuel =>
      root ← lift get_root;
      if root =? sentinel then mret []
      else
        node ← lift (ngx_rbtree_min sentinel root);
        key ← lift (rd NgxRbtree.key node);
        if wrap_s 64 (key - now) >? 0 then mret []
        else
          lift (ngx_rbtree_delete sentinel node);;
          set_event (set_timer_set false) node;;
          set_event (set_timedout true) node;;
          handler node;;
          l ← expire_loop fuel;
          mret (node :: l)
  end.

Definition ngx_event_expire_timers : W (list Z) :=
  fuel ← lift rounds;
  expire_loop fuel.

End Expire.

Fixpoint left_loop (fuel : nat) (node : Z) : W Z :=
  match fuel with
  | O => stuck
  | S fuel =>
      if node =? 0 then mret NGX_OK
      else
        e ← get_event node;
        if negb (cancelable e) then mret NGX_AGAIN
        else
          node ← lift (ngx_rbtree_next sentinel node);
          left_loop fuel node
  end.

Definition ngx_event_no_timers_left : W Z :=
  root ← lift get_root;
  if root =? sentinel then mret NGX_OK
  else
    node ← lift (ngx_rbtree_min sentinel root);
    fuel ← lift rounds;
    left_loop fuel node.

End Timers.

(** * The invariant *)

Definition rank (now k : Z) : Z := wrap_s 64 (k - now).

Section Proof.
Context (sentinel now : Z).
Abbreviation rbtree := (rbtree sentinel).

(** The tree holds the nodes of the events whose timers are set, in the order of the times,
    which are less than 2^62 ms away from [now]. *)
Record timers_ok (w : world) (l : list (Z * Z)) : Prop := {
  t_tree : rbtree (timers w) l;
  t_order : ordered (near now) (rank now) l;
  t_event : ∀ a e, events w !! a = Some e →
    a ≠ sentinel ∧ a ≠ 0 ∧ is_Some (nodes (timers w) !! a) ∧ (timer_set e = true ↔ a ∈ l.*1);
  t_all : ∀ a, a ∈ l.*1 → is_Some (events w !! a)
}.

Lemma lift_some {A} (m : M A) w x s : m (timers w) = Some (x, s) → lift m w = Some (x, mk_world s (events w)).
Proof. intros H. unfold lift. by rewrite H. Qed.

Lemma lift_same {A} (m : M A) w x : m (timers w) = Some (x, timers w) → lift m w = Some (x, w).
Proof. intros H. rewrite (lift_some _ _ _ _ H). by destruct w. Qed.

Lemma get_event_some a w e : events w !! a = Some e → get_event a w = Some (e, w).
Proof. intros H. unfold get_event. by rewrite H. Qed.

Lemma set_event_some f a w e : events w !! a = Some e → set_event f a w = Some (tt, mk_world (timers w) (<[a := f e]> (events w))).
Proof. intros H. unfold set_event. by rewrite H. Qed.

Lemma same_data_some s s' z : same_data s s' → is_Some (nodes s !! z) → is_Some (nodes s' !! z).
Proof. intros H [n Hn]. specialize (H z). rewrite Hn in H. destruct (nodes s' !! z); [by eexists|done]. Qed.

(** Taking a timer out. *)
Lemma del_core w l1 a k l2 :
  timers_ok w (l1 ++ (a, k) :: l2) → ∃ s', ngx_rbtree_delete sentinel a (timers w) = Some (tt, s')
  ∧ ∀ e', timer_set e' = false → timers_ok (mk_world s' (<[a := e']> (events w))) (l1 ++ l2).
Proof.
  intros [HT HO HE HA]. destruct (rbtree_delete_lemma sentinel _ _ _ _ _ HT) as (s' & E1 & T1 & _). exists s'. split; [done|].
  intros e' He. pose proof (nodup_keys sentinel _ _ HT) as ND. rewrite fmap_app in ND. cbn in ND. apply NoDup_app in ND as (N1 & Nd & N2). apply NoDup_cons in N2 as [Na N2].
  assert (Nal : a ∉ (l1 ++ l2).*1) by (rewrite fmap_app; set_solver).
  assert (Hin : ∀ z, z ≠ a → z ∈ (l1 ++ (a, k) :: l2).*1 ↔ z ∈ (l1 ++ l2).*1) by (intros z Hz; rewrite !fmap_app; cbn; set_solver).
  pose proof (keeps_delete sentinel a _ _ _ E1) as SD. split; cbn [timers events]; [done| | |].
  - destruct HO as [H1 H2]. split; [apply Forall_app in H1 as [? H1]; apply Forall_cons in H1 as [_ H1]; by apply Forall_app|].
    clear - H2. induction l1 as [|y l1 IH]; cbn in *; [by inversion H2|]. inversion H2 as [|? ? H3 H4]; subst. constructor; [by apply IH|].
    apply Forall_app in H4 as [H4 H5]. apply Forall_cons in H5 as [_ H5]. by apply Forall_app.
  - intros b e Hb. destruct (decide (b = a)) as [->|Hne].
    + rewrite lookup_insert_eq in Hb. injection Hb as <-. destruct (HA a) as [e0 Ee]; [rewrite fmap_app; set_solver|]. destruct (HE a e0 Ee) as (? & ? & ? & _).
      split; [done|]. split; [done|]. split; [by eapply same_data_some|]. rewrite He. by split.
    + rewrite lookup_insert_ne in Hb by done. destruct (HE b e Hb) as (? & ? & ? & Hs). split; [done|]. split; [done|]. split; [by eapply same_data_some|].
      by rewrite Hs, Hin.
  - intros b Hb. destruct (decide (b = a)) as [->|Hne]; [by rewrite lookup_insert_eq; eexists|]. rewrite lookup_insert_ne by done. apply HA. by apply Hin.
Qed.

Lemma rbtree_outside s l a n : rbtree s l → a ≠ sentinel → a ∉ l.*1 → rbtree (mk_mem (<[a := n]> (nodes s)) (root s)) l.
Proof.
  intros (q & ps & t & m & H & Hr & <-) Ha Hl. exists q, ps, t, m. split; [|done]. apply holds_outside; [done| |done]. by rewrite addrs_inorder.
Qed.

(** Putting a timer in. *)
Lemma ins_core w l a k e :
  timers_ok w l → events w !! a = Some e → a ∉ l.*1 → near now k →
  ∃ s1 s2, wr (set_key k) a (timers w) = Some (tt, s1)
  ∧ ngx_rbtree_insert sentinel (ngx_rbtree_insert_timer_value sentinel) a s1 = Some (tt, s2)
  ∧ ∀ e', timer_set e' = true → timers_ok (mk_world s2 (<[a := e']> (events w))) (ordered_insert timer_less (a, k) l).
Proof.
  intros [HT HO HE HA] He Hal Hk. destruct (HE a e He) as (As & A0 & [n Hn] & _). erewrite wr_some by done. eexists.
  pose proof (rbtree_outside _ l a (set_key k n) HT As Hal) as HT1.
  destruct (rbtree_insert_lemma sentinel (less := timer_less) (P := near now) (rank := rank now) _ l a (set_key k n) HT1 HO) as (s2 & E2 & T2 & _);
    [apply lookup_insert_eq|done|done|done|]. cbn [key set_key] in *. exists s2. split; [done|]. split; [done|]. intros e' He'.
  pose proof (keeps_insert sentinel timer_less a _ _ _ E2) as SD.
  assert (Hin : ∀ z, z ∈ (ordered_insert timer_less (a, k) l).*1 ↔ z = a ∨ z ∈ l.*1).
  { intros z. rewrite !list_elem_of_fmap. setoid_rewrite ordered_insert_elem. split; [intros ([z1 z2] & -> & [ [= -> ->]|Hz]); [by left|right; by eexists]|].
    intros [->|(y & -> & Hy)]; [by exists (a, k); split; [|left]|by exists y; split; [|right] ]. }
  assert (Dom : ∀ z, is_Some (nodes (timers w) !! z) → is_Some (nodes s2 !! z)).
  { intros z Hz. eapply same_data_some; [exact SD|]. cbn. destruct (decide (z = a)) as [->|]; [rewrite lookup_insert_eq; by eexists|by rewrite lookup_insert_ne]. }
  split; cbn [timers events]; [done|by apply ordered_insert_ordered| |].
  - intros b e1 Hb. destruct (decide (b = a)) as [->|Hne].
    + rewrite lookup_insert_eq in Hb. injection Hb as <-. split; [done|]. split; [done|]. split; [apply Dom; by eexists|]. rewrite Hin. tauto.
    + rewrite lookup_insert_ne in Hb by done. destruct (HE b e1 Hb) as (? & ? & ? & Hs). split; [done|]. split; [done|]. split; [by apply Dom|]. rewrite Hs, Hin. tauto.
  - intros b Hb. apply Hin in Hb. destruct (decide (b = a)) as [->|Hne]; [by rewrite lookup_insert_eq; eexists|]. rewrite lookup_insert_ne by done. apply HA. tauto.
Qed.

Lemma rank_add timer : 0 <= timer < 2 ^ 62 → near now (wrap_u 64 (now + timer)).
Proof.
  intros Ht. unfold near, wrap_u. assert (E1 : wrap_s 64 ((now + timer) mod 2 ^ 64 - now) = timer).
  { unfold wrap_s. rewrite Zminus_mod_idemp_l. replace (now + timer - now) with timer by lia. rewrite Z.mod_small by lia.
    destruct (Z.ltb_spec timer (2 ^ (64 - 1))); lia. }
  rewrite E1. lia.
Qed.

Definition others (a : Z) (l : list (Z * Z)) : list (Z * Z) := filter (fun x => x.1 ≠ a) l.

Lemma others_id a l : a ∉ l.*1 → others a l = l.
Proof.
  induction l as [|x l IH]; intros H; [done|]. cbn in H. apply not_elem_of_cons in H as [H1 H2]. unfold others in *. rewrite filter_cons_True by done. by rewrite IH.
Qed.

Lemma others_insert a k l : a ∉ l.*1 → others a (ordered_insert timer_less (a, k) l) = l.
Proof.
  intros H. pose proof (others_id a l H) as Hl. unfold others in *.
  induction l as [|x l IH]; cbn [ordered_insert]; [rewrite filter_cons_False; [done|intros H1; by apply H1]|].
  cbn in H. apply not_elem_of_cons in H as [H1 H2]. destruct (timer_less (a, k).2 x.2); [by rewrite filter_cons_False by (intros H3; by apply H3)|].
  rewrite filter_cons_True by done. f_equal. apply IH; [done|]. by apply others_id.
Qed.

Lemma others_middle a k l1 l2 : NoDup (l1 ++ (a, k) :: l2).*1 → others a (l1 ++ (a, k) :: l2) = l1 ++ l2 ∧ a ∉ (l1 ++ l2).*1.
Proof.
  rewrite !fmap_app. cbn. intros (N1 & Nd & N2)%NoDup_app. apply NoDup_cons in N2 as [Na N2]. split; [|set_solver].
  unfold others. rewrite filter_app, filter_cons_False by (intros H; by apply H). f_equal; apply others_id; [|done]. intros H. apply (Nd a H). left.
Qed.

(** ** Adding a timer *)

Lemma set_timer_in w l a e : timers_ok w l → events w !! a = Some e → timer_set e = true → ∃ l1 k l2, l = l1 ++ (a, k) :: l2.
Proof.
  intros HW He Hs. destruct (t_event _ _ HW a e He) as (_ & _ & _ & Hin). apply Hin in Hs. apply list_elem_of_fmap in Hs as ([a' k] & Ea & Hin').
  cbn in Ea. subst a'. apply list_elem_of_split in Hin' as (l1 & l2 & ->). eauto.
Qed.

(** The part of [ngx_event_add_timer] after the old timer is gone. *)
Lemma add_new w l a k e :
  timers_ok w l → events w !! a = Some e → a ∉ l.*1 → near now k →
  ∃ w', (lift (wr (set_key k) a);;
         lift (ngx_rbtree_insert sentinel (ngx_rbtree_insert_timer_value sentinel) a);;
         set_event (set_timer_set true) a) w = Some (tt, w')
  ∧ timers_ok w' (ordered_insert timer_less (a, k) l) ∧ ∀ b, b ≠ a → events w' !! b = events w !! b.
Proof.
  intros HW He Hal Hk. destruct (ins_core w l a k e HW He Hal Hk) as (s1 & s2 & E1 & E2 & HW2).
  erewrite bind_some by (by apply lift_some). erewrite bind_some by (by apply lift_some). erewrite set_event_some by exact He.
  eexists. split; [done|]. split; [by apply HW2|]. intros b Hb. cbn. by apply lookup_insert_ne.
Qed.

Lemma nodup_key_eq a k k0 (l1 l2 : list (Z * Z)) : a ∉ (l1 ++ l2).*1 → (a, k) ∈ l1 ++ (a, k0) :: l2 → k = k0.
Proof.
  intros Hn Hk. apply elem_of_app in Hk as [Hk|Hk]; [|apply elem_of_cons in Hk as [Hk|Hk]; [congruence|] ]; exfalso; apply Hn; rewrite fmap_app, elem_of_app;
    [left|right]; by apply (list_elem_of_fmap_2 fst) in Hk.
Qed.

(** The time [k] of the timer of [a] after a timer for [key] was added to the timers [l]: the
    old one when it is near, and then nothing has changed, else [key]. *)
Definition moved (w : world) (l : list (Z * Z)) (a key : Z) (w' : world) (k : Z) : Prop :=
  ((a, k) ∈ l ∧ Z.abs (wrap_s 64 (key - k)) < NGX_TIMER_LAZY_DELAY ∧ w' = w)
  ∨ (k = key ∧ ∀ old, (a, old) ∈ l → NGX_TIMER_LAZY_DELAY <= Z.abs (wrap_s 64 (key - old))).

Lemma add_timer_lemma w l a e timer :
  timers_ok w l → events w !! a = Some e → 0 <= timer < 2 ^ 62 →
  ∃ w' l' k, ngx_event_add_timer sentinel now a timer w = Some (tt, w') ∧ timers_ok w' l'
  ∧ (a, k) ∈ l' ∧ moved w l a (wrap_u 64 (now + timer)) w' k
  ∧ others a l' = others a l ∧ ∀ b, b ≠ a → events w' !! b = events w !! b.
Proof.
  intros HW He Ht. unfold ngx_event_add_timer. cbv zeta. set (k := wrap_u 64 (now + timer)). assert (Hk : near now k) by (by apply rank_add).
  erewrite bind_some by (by apply get_event_some). destruct (t_event _ _ HW a e He) as (As & A0 & [n Hn] & Hset).
  erewrite bind_some by (apply lift_same; by apply rd_some).
  destruct (timer_set e) eqn:Es; cbn [andb].
  - destruct (set_timer_in w l a e HW He Es) as (l1 & k0 & l2 & ->). destruct (node_key sentinel _ _ a k0 (t_tree _ _ HW)) as (_ & n' & Hn' & Ek); [set_solver|].
    rewrite Hn in Hn'. injection Hn' as <-. rewrite Ek. destruct (Z.ltb_spec (Z.abs (wrap_s 64 (k - k0))) NGX_TIMER_LAZY_DELAY) as [Hlt|Hge].
    { exists w, (l1 ++ (a, k0) :: l2), k0. split; [done|]. split; [done|]. split; [set_solver|]. split; [left; split; [set_solver|done]|done]. }
    destruct (others_middle a k0 l1 l2 (nodup_keys _ _ _ (t_tree _ _ HW))) as [Eo Nal]. destruct (del_core w l1 a k0 l2 HW) as (s1 & E1 & HW1).
    unfold ngx_event_del_timer. erewrite bind_some by (erewrite bind_some by (by apply lift_some); by apply set_event_some).
    cbn [timers events]. destruct (add_new _ (l1 ++ l2) a k (set_timer_set false e) (HW1 (set_timer_set false e) eq_refl)) as (w' & E2 & HW2 & Hb); [apply lookup_insert_eq|done|done|].
    exists w', (ordered_insert timer_less (a, k) (l1 ++ l2)), k. split; [exact E2|]. split; [done|]. split; [apply ordered_insert_elem; by left|].
    split; [right; split; [done|]; intros old Ho; by rewrite (nodup_key_eq a old k0 l1 l2 Nal Ho)|]. split; [by rewrite Eo, others_insert|]. intros b Hne. rewrite Hb by done. cbn. by apply lookup_insert_ne.
  - erewrite bind_some by done. assert (Nal : a ∉ l.*1) by (intros H; apply Hset in H; congruence).
    destruct (add_new w l a k e HW He Nal Hk) as (w' & E2 & HW2 & Hb). exists w', (ordered_insert timer_less (a, k) l), k. split; [exact E2|]. split; [done|].
    split; [apply ordered_insert_elem; by left|]. split; [right; split; [done|]; intros old Ho; exfalso; apply Nal; by apply (list_elem_of_fmap_2 fst) in Ho|].
    split; [|done]. by rewrite others_insert, others_id.
Qed.

(** ** The first timer and the expired ones *)

Definition expired (x : Z * Z) : Prop := rank now x.2 <= 0.

#[export] Instance expired_dec x : Decision (expired x).
Proof. unfold expired. apply _. Defined.

Lemma none_expired l : Forall (fun x => 0 < rank now x.2) l → filter expired l = [].
Proof. induction 1 as [|x l Hx _ IH]; [done|]. rewrite filter_cons_False; [done|]. unfold expired. lia. Qed.

Lemma min_timer w a k l :
  timers_ok w ((a, k) :: l) →
  lift (ngx_rbtree_min sentinel (root (timers w))) w = Some (a, w) ∧ lift (rd NgxRbtree.key a) w = Some (k, w).
Proof.
  intros HW. split; apply lift_same; [eapply min_lemma; by apply (t_tree _ _ HW)|].
  destruct (node_key sentinel _ _ a k (t_tree _ _ HW)) as (_ & n & Hn & <-); [left|]. by apply rd_some.
Qed.

Lemma first_least a k l x : ordered (near now) (rank now) ((a, k) :: l) → x ∈ (a, k) :: l → rank now k <= rank now x.2.
Proof. intros [_ H] [->|Hx]%elem_of_cons; [done|]. inversion H as [|? ? _ H2]; subst. rewrite Forall_forall in H2. by apply (H2 x). Qed.

(** How the expired timers may change while a handler runs: [sublist], or not at all. *)
Class Shrinks (Rel : list (Z * Z) → list (Z * Z) → Prop) := {
  sh_refl : Reflexive Rel;
  sh_trans : Transitive Rel;
  sh_cons x l l' : Rel l l' → Rel (x :: l) (x :: l');
  sh_length l l' : Rel l l' → (length l <= length l')%nat
}.

#[export] Instance sublist_shrinks : Shrinks sublist.
Proof. split; [apply _|apply _|by constructor|apply sublist_length]. Qed.

#[export] Instance eq_shrinks : Shrinks eq.
Proof. split; [apply _|apply _|congruence|by intros l ? ->]. Qed.

(** What a handler may do: anything with timers that keeps the invariant and adds no timer
    that has expired already. *)
Definition handler_ok (Rel : list (Z * Z) → list (Z * Z) → Prop) (handler : Z → W unit) : Prop :=
  ∀ w a l, timers_ok w l → is_Some (events w !! a) → a ∉ l.*1 →
  ∃ w' l', handler a w = Some (tt, w') ∧ timers_ok w' l' ∧ Rel (filter expired l') (filter expired l).

Lemma expire_loop_ok `{HR : Shrinks Rel} handler fuel w l :
  handler_ok Rel handler → timers_ok w l → (length (filter expired l) < fuel)%nat →
  ∃ f w' l', expire_loop sentinel now handler fuel w = Some (f.*1, w') ∧ timers_ok w' l' ∧ Forall (fun x => 0 < rank now x.2) l'
  ∧ Rel f (filter expired l).
Proof.
  intros Hh. revert w l. induction fuel as [|fuel IH]; intros w l HW Hf; [lia|]. cbn [expire_loop].
  erewrite bind_some by (by apply lift_same). rewrite (root_sentinel _ _ _ (t_tree _ _ HW)). destruct l as [|[a k] l].
  { exists [], w, []. split; [done|]. split; [done|]. split; [done|]. apply sh_refl. }
  destruct (min_timer w a k l HW) as [E1 E2]. erewrite bind_some by exact E1. erewrite bind_some by exact E2. fold (rank now k).
  destruct (Z.gtb_spec (rank now k) 0) as [Hgt|Hle].
  - assert (HF : Forall (fun x => 0 < rank now x.2) ((a, k) :: l)).
    { apply Forall_forall. intros x Hx. pose proof (first_least a k l x (t_order _ _ HW) Hx). lia. }
    exists [], w, ((a, k) :: l). split; [done|]. split; [done|]. split; [done|]. replace (filter expired ((a, k) :: l)) with (@nil (Z * Z)); [apply sh_refl|].
    symmetry. by apply none_expired.
  - rewrite filter_cons_True in Hf |- * by (unfold expired; cbn; lia). cbn [length] in Hf.
    destruct (del_core w [] a k l HW) as (s1 & E3 & HW3). erewrite bind_some by (by apply lift_some).
    destruct (t_all _ _ HW a) as [e He]; [left|]. erewrite bind_some by (by apply set_event_some). cbn [timers events].
    erewrite bind_some by (apply set_event_some; apply lookup_insert_eq). cbn [timers events]. rewrite insert_insert_eq.
    set (e' := set_timedout true (set_timer_set false e)). specialize (HW3 e' eq_refl). cbn [app] in HW3.
    destruct (Hh _ a l HW3) as (w' & l' & E4 & HW4 & HR4); [cbn; rewrite lookup_insert_eq; by eexists| |].
    { pose proof (nodup_keys _ _ _ (t_tree _ _ HW)) as ND. cbn in ND. by apply NoDup_cons in ND as [? _]. }
    erewrite bind_some by exact E4. pose proof (sh_length _ _ HR4) as Hlen. destruct (IH w' l' HW4) as (f & w2 & l2 & E5 & HW5 & HF & HR5); [lia|].
    erewrite bind_some by exact E5. exists ((a, k) :: f), w2, l2. split; [done|]. split; [done|]. split; [done|]. apply sh_cons. by eapply sh_trans.
Qed.

Lemma expire_fuel w l : timers_ok w l → (length (filter expired l) < S (size (nodes (timers w))))%nat.
Proof.
  intros HW. destruct (t_tree _ _ HW) as (q & ps & t & n & H & _ & Ei). pose proof (tree_size sentinel _ _ _ _ H) as Hz.
  rewrite addrs_inorder, length_fmap, Ei in Hz. pose proof (length_filter expired l). lia.
Qed.

(** ** The timers that are left *)

Lemma left_loop_ok fuel w l1 l2 :
  timers_ok w (l1 ++ l2) → (length l2 < fuel)%nat →
  ∃ r, left_loop sentinel fuel (first l2) w = Some (r, w)
  ∧ (r = NGX_OK ∧ (∀ a e, a ∈ l2.*1 → events w !! a = Some e → cancelable e = true)
     ∨ r = NGX_AGAIN ∧ ∃ a e, a ∈ l2.*1 ∧ events w !! a = Some e ∧ cancelable e = false).
Proof.
  revert l1 l2. induction fuel as [|fuel IH]; intros l1 l2 HW Hf; [lia|]. cbn [left_loop]. destruct l2 as [|[a k] l2].
  { cbn. eexists. split; [done|]. left. split; [done|]. set_solver. }
  cbn [first fst]. destruct (t_all _ _ HW a) as [e He]; [rewrite fmap_app; set_solver|]. destruct (t_event _ _ HW a e He) as (_ & A0 & _ & _).
  rewrite (proj2 (Z.eqb_neq _ _) A0). erewrite bind_some by (by apply get_event_some). destruct (cancelable e) eqn:Ec; cbn [negb].
  - erewrite bind_some by (apply lift_same; by apply (next_lemma sentinel _ l1 a k l2 (t_tree _ _ HW))). cbn [length] in Hf.
    destruct (IH (l1 ++ [(a, k)]) l2) as (r & E1 & Hr); [by rewrite <- app_assoc|lia|]. exists r. split; [done|]. destruct Hr as [ [-> Hr]|[-> (b & eb & Hb & Hr)] ].
    + left. split; [done|]. intros b eb [->|Hb]%elem_of_cons Heb; [cbn in Heb; congruence|by eapply Hr].
    + right. split; [done|]. exists b, eb. split; [by right|done].
  - exists NGX_AGAIN. split; [done|]. right. split; [done|]. exists a, e. split; [left|done].
Qed.

(** ** The start and the passing of time *)

(** Events without timers, before [ngx_event_timer_init]. *)
Lemma timer_init_ok w :
  is_Some (nodes (timers w) !! sentinel) →
  (∀ a e, events w !! a = Some e → a ≠ sentinel ∧ a ≠ 0 ∧ is_Some (nodes (timers w) !! a) ∧ timer_set e = false) →
  ∃ w', ngx_event_timer_init sentinel w = Some (tt, w') ∧ timers_ok w' [] ∧ events w' = events w.
Proof.
  intros [n Hn] HE. unfold ngx_event_timer_init, ngx_rbtree_init. erewrite lift_some by (erewrite bind_some by (by apply wr_some); done).
  eexists. split; [done|]. split; [|done]. cbn [timers events nodes root]. split; cbn [timers events].
  - eapply empty_ok; cbn; [apply lookup_insert_eq|done|done].
  - split; constructor.
  - intros a e He. destruct (HE a e He) as (H1 & H2 & H3 & H4). split; [done|]. split; [done|]. split; [|rewrite H4; set_solver].
    cbn. by rewrite lookup_insert_ne.
  - set_solver.
Qed.

End Proof.

(** The order does not depend on the time, as long as all timers are near it. *)
Lemma clock_ok sentinel now now' w l : timers_ok sentinel now w l → Forall (fun x => near now' x.2) l → timers_ok sentinel now' w l.
Proof.
  intros [HT [HN HS] HE HA] HN'. split; [done| |done|done]. split; [done|]. clear - HN HN' HS. induction HS as [|x l HS IH Hx]; [constructor|].
  apply Forall_cons in HN as [Nx HN]. apply Forall_cons in HN' as [Nx' HN']. constructor; [by apply IH|]. apply Forall_forall. intros y Hy.
  rewrite Forall_forall in Hx, HN, HN'. specialize (Hx y Hy). specialize (HN y Hy). specialize (HN' y Hy).
  pose proof (timer_order now y.2 x.2 HN Nx) as H1. pose proof (timer_order now' y.2 x.2 HN' Nx') as H2. rewrite H1 in H2. unfold rank in *.
  do 2 case_bool_decide; lia || done.
Qed.

(** * The properties *)

Section Claims.
Context (sentinel now : Z).

(** C20. A timer that is added is there: in a world whose tree holds exactly the
    timers that are set, all of them near the present time, [ngx_event_add_timer]
    with a time below 2^62 ms ends in such a world. An old timer of the event that
    is less than [NGX_TIMER_LAZY_DELAY] away from the time that was asked for stays,
    and nothing changes; else the event has a timer for exactly that time. All other
    timers are as they were and no other event has changed. *)
Theorem add_timer_ok (w : world) (l : list (Z * Z)) (a : Z) (e : event) (timer : Z) :
  timers_ok sentinel now w l → events w !! a = Some e → 0 <= timer < 2 ^ 62 →
  ∃ w' l' k, ngx_event_add_timer sentinel now a timer w = Some (tt, w') ∧ timers_ok sentinel now w' l'
  ∧ (a, k) ∈ l' ∧ moved w l a (wrap_u 64 (now + timer)) w' k
  ∧ others a l' = others a l ∧ ∀ b, b ≠ a → events w' !! b = events w !! b.
Proof. apply add_timer_lemma. Qed.

(** C19. Timers expire, once and in order: for handlers that add no timer in the
    past, [ngx_event_expire_timers] returns, and then no timer is left whose time
    has come. The handlers that it called are those of timers that had expired when
    it started, each once and in the order of their times, less those that other
    handlers removed; when the handlers leave expired timers alone ([Rel] is
    equality) they are all of them. Before a handler is called, its own timer is out
    of the tree. *)
Theorem expire_timers_ok `{HR : Shrinks Rel} (handler : Z → W unit) (w : world) (l : list (Z * Z)) :
  handler_ok sentinel now Rel handler → timers_ok sentinel now w l →
  ∃ f w' l', ngx_event_expire_timers sentinel now handler w = Some (f.*1, w') ∧ timers_ok sentinel now w' l'
  ∧ Forall (fun x => 0 < rank now x.2) l' ∧ Rel f (filter (expired now) l).
Proof.
  intros Hh HW. unfold ngx_event_expire_timers. erewrite bind_some by (by apply lift_same).
  apply (expire_loop_ok sentinel now (Rel := Rel)); [done|done|]. by eapply expire_fuel.
Qed.

(** The time to wait for: that of the first timer. *)
Theorem find_timer_ok (w : world) (l : list (Z * Z)) :
  timers_ok sentinel now w l →
  ∃ t, ngx_event_find_timer sentinel now w = Some (t, w)
  ∧ match l with
    | [] => t = NGX_TIMER_INFINITE
    | _ => (∃ x, x ∈ l ∧ t = Z.max 0 (rank now x.2)) ∧ ∀ x, x ∈ l → t <= Z.max 0 (rank now x.2)
    end.
Proof.
  intros HW. unfold ngx_event_find_timer. erewrite bind_some by (by apply lift_same). rewrite (root_sentinel _ _ _ (t_tree _ _ _ _ HW)).
  destruct l as [|[a k] l]; [by eexists|]. destruct (min_timer _ _ w a k l HW) as [E1 E2]. erewrite bind_some by exact E1. erewrite bind_some by exact E2.
  fold (rank now k). eexists. split; [done|]. assert (Em : (if rank now k >? 0 then rank now k else 0) = Z.max 0 (rank now k)) by (destruct (Z.gtb_spec (rank now k) 0); lia).
  rewrite Em. split; [exists (a, k); split; [left|done]|]. intros x Hx. pose proof (first_least now a k l x (t_order _ _ _ _ HW) Hx). lia.
Qed.

(** A worker may exit when only timers are left that can be cancelled. *)
Theorem no_timers_left_ok (w : world) (l : list (Z * Z)) :
  timers_ok sentinel now w l →
  ∃ r, ngx_event_no_timers_left sentinel w = Some (r, w)
  ∧ (r = NGX_OK ∧ (∀ a e, a ∈ l.*1 → events w !! a = Some e → cancelable e = true)
     ∨ r = NGX_AGAIN ∧ ∃ a e, a ∈ l.*1 ∧ events w !! a = Some e ∧ cancelable e = false).
Proof.
  intros HW. unfold ngx_event_no_timers_left. erewrite bind_some by (by apply lift_same). rewrite (root_sentinel _ _ _ (t_tree _ _ _ _ HW)).
  destruct l as [|[a k] l]; [exists NGX_OK; split; [done|]; left; split; [done|]; set_solver|].
  destruct (min_timer _ _ w a k l HW) as [E1 _]. erewrite bind_some by exact E1. erewrite bind_some by (by apply lift_same).
  apply (left_loop_ok sentinel now _ w [] ((a, k) :: l)); [done|].
  destruct (t_tree _ _ _ _ HW) as (q & ps & t & n & H & _ & Ei). pose proof (tree_size sentinel _ _ _ _ H) as Hz.
  rewrite addrs_inorder, length_fmap, Ei in Hz. lia.
Qed.

End Claims.

(** ** Examples *)

(** Three events at 1, 2 and 3, the sentinel at 9; the clock is about to wrap around.  The
    timer of 2 has expired 5 ms ago, that of 3 is due in 1000 ms. *)
Definition example_now : Z := 0xfffffffffffffffb.

Definition example_list : list (Z * Z) := [(2, 0xfffffffffffffff6); (3, 995)].

Definition example_world : world :=
  mk_world (mk_mem (list_to_map [(1, mk_node 0 0 0 0 0 0); (2, mk_node 0xfffffffffffffff6 9 3 0 0 0);
                                 (3, mk_node 995 9 9 2 1 0); (9, mk_node 0 0 0 0 0 0)]) 2)
           (list_to_map [(1, mk_event false false false); (2, mk_event true false false); (3, mk_event true false true)]).

Lemma example_timers : timers_ok 9 example_now example_world example_list.
Proof.
  split.
  - exists 0, 0, (T Black E 2 0xfffffffffffffff6 (T Red E 3 995 E)), 1%nat. split; [|split; [repeat econstructor|done] ].
    split; [done|repeat split; by eexists| | |by eexists]; apply (bool_decide_unpack _); vm_compute; done.
  - split; repeat constructor; vm_compute; congruence.
  - intros a e He. apply elem_of_list_to_map_2 in He. rewrite !elem_of_cons, elem_of_nil in He.
    destruct He as [ [= -> ->]|[ [= -> ->]|[ [= -> ->]|[] ] ] ]; (split; [done|]; split; [done|]; split; [by eexists|]); cbn; set_solver.
  - intros a Ha. cbn in Ha. rewrite !elem_of_cons, elem_of_nil in Ha. destruct Ha as [->|[->|[] ] ]; by eexists.
Qed.

Lemma add_timer_ok_witness :
  ∃ w' l' k, ngx_event_add_timer 9 example_now 1 500 example_world = Some (tt, w') ∧ timers_ok 9 example_now w' l'
  ∧ (1, k) ∈ l' ∧ moved example_world example_list 1 (wrap_u 64 (example_now + 500)) w' k
  ∧ others 1 l' = others 1 example_list ∧ ∀ b, b ≠ 1 → events w' !! b = events example_world !! b.
Proof.
  apply (add_timer_ok 9 example_now example_world example_list 1 (mk_event false false false) 500 example_timers); [reflexivity|lia].
Defined.

Lemma expire_timers_ok_witness :
  ∃ f w' l', ngx_event_expire_timers 9 example_now (fun _ => mret tt) example_world = Some (f.*1, w') ∧ timers_ok 9 example_now w' l'
  ∧ Forall (fun x => 0 < rank example_now x.2) l' ∧ f = [(2, 0xfffffffffffffff6)].
Proof.
  apply (expire_timers_ok 9 example_now (Rel := eq) (fun _ => mret tt) example_world example_list); [|exact example_timers].
  intros w a l HW _ _. exists w, l. split; [reflexivity|]. split; [exact HW|reflexivity].
Defined.

(** The timers of the example as the code sees them. *)
Example example_run :
  (fst <$> ngx_event_find_timer 9 example_now example_world) = Some 0
  ∧ (fst <$> ngx_event_expire_timers 9 example_now (fun ev => ngx_event_add_timer 9 example_now ev 400) example_world) = Some [2]
  ∧ (fst <$> (ngx_event_expire_timers 9 example_now (fun ev => ngx_event_add_timer 9 example_now ev 400);;
              ngx_event_find_timer 9 example_now) example_world) = Some 400
  ∧ (fst <$> ngx_event_no_timers_left 9 example_world) = Some NGX_AGAIN.
Proof. vm_compute. done. Qed.

End EventTimer.
