(* ===== verification/NgxRadix.v ===== *)
(** Radix trees, tables of networks by the bits of their addresses: core/ngx_radix_tree.c
    and core/ngx_radix_tree.h.

    Memory is a map from addresses to nodes; following a pointer to an address without a
    node, or reading behind an address, is [None].  The versions for 32 and 128 bits share
    the definitions on lists of bits, and each computes its bits the way the code does.
    [pages] are the results of the calls of [ngx_pmemalign] that follow. *)

From S2P Require Import Prelude.
From stdpp Require Import gmap.

Open Scope Z_scope.

Module NgxRadix.

(** * Definitions *)

Definition NGX_RADIX_NO_VALUE : Z := 0xffffffffffffffff.
Definition NGX_BUSY : Z := -3.
Definition ngx_pagesize : Z := 4096.
Definition sizeof_node : Z := 32.

(** [ngx_radix_node_t]; NULL is 0. *)
Record node := mk_node { right : Z; left : Z; parent : Z; value : Z }.

Definition set_right (v : Z) (n : node) : node := mk_node v (left n) (parent n) (value n).
Definition set_left (v : Z) (n : node) : node := mk_node (right n) v (parent n) (value n).
Definition set_parent (v : Z) (n : node) : node := mk_node (right n) (left n) v (value n).
Definition set_value (v : Z) (n : node) : node := mk_node (right n) (left n) (parent n) v.

(** The child for a bit of the key. *)
Definition child (b : bool) (n : node) : Z := if b then right n else left n.
Definition set_child (b : bool) (v : Z) (n : node) : node := if b then set_right v n else set_left v n.

(** [ngx_radix_tree_t] and the nodes. *)
Record tree := mk_tree { nodes : gmap Z node; root : Z; free : Z; start : Z; avail : Z; pages : list Z }.

Definition upd_nodes (h : gmap Z node) (s : tree) : tree := mk_tree h (root s) (free s) (start s) (avail s) (pages s).
Definition upd_free (p : Z) (s : tree) : tree := mk_tree (nodes s) (root s) p (start s) (avail s) (pages s).

Abbreviation M := (St tree).

Definition rd {A} (f : node → A) (a : Z) : M A := fun s => match nodes s !! a with Some n => Some (f n, s) | None => None end.
Definition wr (f : node → node) (a : Z) : M unit :=
  fun s => match nodes s !! a with Some n => Some (tt, upd_nodes (<[a := f n]> (nodes s)) s) | None => None end.
Definition get {A} (f : tree → A) : M A := fun s => Some (f s, s).
Definition set (f : tree → tree) : M unit := fun s => Some (tt, f s).

(** NULL when there is no page. *)
Definition ngx_radix_alloc : M Z :=
  fr ← get free;
  if negb (fr =? 0) then
    r ← rd right fr;
    set (upd_free r);;
    mret fr
  else
    size ← get avail;
    ok ← (if size <? sizeof_node then
            ps ← get pages;
            match ps with
            | [] => set (fun s => mk_tree (nodes s) (root s) (free s) 0 (avail s) []);; mret false
            | p :: ps => set (fun s => mk_tree (nodes s) (root s) (free s) p ngx_pagesize ps);; mret true
            end
          else mret true);
    if negb (ok : bool) then mret 0
    else
      p ← get start;
      set (fun s => mk_tree (nodes s) (root s) (free s) (start s + sizeof_node) (avail s - sizeof_node) (pages s));;
      mret p.

(** ** Bits *)

(** The bits of the key while those of the mask are set; [bit] is 0 after 32 rounds. *)
Fixpoint bits32 (rounds : nat) (bit key mask : Z) : list bool :=
  match rounds with
  | O => []
  | S rounds =>
      if Z.land bit mask =? 0 then []
      else negb (Z.land key bit =? 0) :: bits32 rounds (Z.shiftr bit 1) key mask
  end.

Definition prefix32 (key mask : Z) : list bool := bits32 33 0x80000000 key mask.

Fixpoint bits128 (rounds : nat) (i : nat) (bit : Z) (key mask : bytes) : option (list bool) :=
  match rounds with
  | O => Some []
  | S rounds =>
      m ← mask !! i;
      if Z.land bit m =? 0 then Some []
      else
        k ← key !! i;
        let b := negb (Z.land k bit =? 0) in
        let bit := Z.shiftr bit 1 in
        l ← (if bit =? 0 then (if (S i =? 16)%nat then Some [] else bits128 rounds (S i) 0x80 key mask)
             else bits128 rounds i bit key mask);
        Some (b :: l)
  end.

Definition prefix128 (key mask : bytes) : option (list bool) := bits128 129 0 0x80 key mask.

(** The bit of the key in round [n] of a search. *)
Definition bit32 (key : Z) (n : nat) : option bool := Some (negb (Z.land key (Z.shiftr 0x80000000 (Z.of_nat n)) =? 0)).

Definition bit128 (key : bytes) (n : nat) : option bool :=
  k ← key !! (n / 8)%nat;
  Some (negb (Z.land k (Z.shiftr 0x80 (Z.of_nat (n mod 8))) =? 0)).

(** ** Insertion *)

(** The first loop: the last node and the bits that are left, none when all were followed. *)
Fixpoint walk (bs : list bool) (node : Z) : M (Z * list bool) :=
  match bs with
  | [] => mret (node, [])
  | b :: bs' =>
      next ← rd (child b) node;
      if next =? 0 then mret (node, bs) else walk bs' next
  end.

(** The second loop: the last node, or NULL. *)
Fixpoint grow (bs : list bool) (node : Z) : M Z :=
  match bs with
  | [] => mret node
  | b :: bs =>
      next ← ngx_radix_alloc;
      if next =? 0 then mret 0
      else
        wr (set_right 0) next;;
        wr (set_left 0) next;;
        wr (set_parent node) next;;
        wr (set_value NGX_RADIX_NO_VALUE) next;;
        wr (set_child b next) node;;
        grow bs next
  end.

Definition radix_insert (bs : list bool) (v : Z) : M Z :=
  r ← get root;
  w ← walk bs r;
  let '(node, rest) := w in
  match rest with
  | [] =>
      old ← rd value node;
      if negb (old =? NGX_RADIX_NO_VALUE) then mret NGX_BUSY
      else wr (set_value v) node;; mret NGX_OK
  | _ =>
      node ← grow rest node;
      if node =? 0 then mret NGX_ERROR
      else wr (set_value v) node;; mret NGX_OK
  end.

Definition ngx_radix32tree_insert (key mask v : Z) : M Z := radix_insert (prefix32 key mask) v.

Definition ngx_radix128tree_insert (key mask : bytes) (v : Z) : M Z :=
  match prefix128 key mask with Some bs => radix_insert bs v | None => stuck end.

(** ** Deletion *)

Fixpoint delete_walk (bs : list bool) (node : Z) : M Z :=
  match bs with
  | [] => mret node
  | b :: bs => if node =? 0 then mret 0 else next ← rd (child b) node; delete_walk bs next
  end.

(** The nodes without children and value are put on the list of free nodes. *)
Fixpoint delete_up (rounds : nat) (node : Z) : M unit :=
  match rounds with
  | O => stuck
  | S rounds =>
      p ← rd parent node;
      pr ← rd right p;
      (if pr =? node then wr (set_right 0) p else wr (set_left 0) p);;
      fr ← get free;
      wr (set_right fr) node;;
      set (upd_free node);;
      p ← rd parent node;
      r ← rd right p;
      l ← rd left p;
      v ← rd value p;
      pp ← rd parent p;
      if negb (r =? 0) || negb (l =? 0) then mret tt
      else if negb (v =? NGX_RADIX_NO_VALUE) then mret tt
      else if pp =? 0 then mret tt
      else delete_up rounds p
  end.

Definition radix_delete (bs : list bool) : M Z :=
  root ← get root;
  node ← delete_walk bs root;
  if node =? 0 then mret NGX_ERROR
  else
    r ← rd right node;
    l ← rd left node;
    v ← rd value node;
    if negb (r =? 0) || negb (l =? 0) then
      if negb (v =? NGX_RADIX_NO_VALUE) then wr (set_value NGX_RADIX_NO_VALUE) node;; mret NGX_OK
      else mret NGX_ERROR
    else delete_up (S (length bs)) node;; mret NGX_OK.

Definition ngx_radix32tree_delete (key mask : Z) : M Z := radix_delete (prefix32 key mask).

Definition ngx_radix128tree_delete (key mask : bytes) : M Z :=
  match prefix128 key mask with Some bs => radix_delete bs | None => stuck end.

(** ** Search *)

Fixpoint find_loop (bit : nat → option bool) (fuel : nat) (n : nat) (node v : Z) : M Z :=
  match fuel with
  | O => stuck
  | S fuel =>
      if node =? 0 then mret v
      else
        v' ← rd value node;
        let v := if negb (v' =? NGX_RADIX_NO_VALUE) then v' else v in
        match bit n with
        | None => stuck
        | Some b => next ← rd (child b) node; find_loop bit fuel (S n) next v
        end
  end.

(** A tree has no more levels than nodes. *)
Definition radix_find (bit : nat → option bool) : M Z :=
  r ← get root;
  fuel ← get (fun s => S (S (size (nodes s))));
  find_loop bit fuel 0 r NGX_RADIX_NO_VALUE.

Definition ngx_radix32tree_find (key : Z) : M Z := radix_find (bit32 key).

(** [key] is the memory from the key on. *)
Definition ngx_radix128tree_find (key : bytes) : M Z := radix_find (bit128 key).

(** ** Creation *)

(** The inner loop: the keys of one length, until the sum wraps around to 0. *)
Fixpoint prealloc_keys (rounds : nat) (key mask inc : Z) : M bool :=
  match rounds with
  | O => stuck
  | S rounds =>
      rc ← ngx_radix32tree_insert key mask NGX_RADIX_NO_VALUE;
      if negb (rc =? NGX_OK) then mret false
      else
        let key := wrap_u 32 (key + inc) in
        if key =? 0 then mret true else prealloc_keys rounds key mask inc
  end.

Fixpoint prealloc (n : nat) (mask inc : Z) : M bool :=
  match n with
  | O => mret true
  | S n =>
      let mask := Z.lor (Z.shiftr mask 1) 0x80000000 in
      ok ← prealloc_keys (S (Z.to_nat (2 ^ 32 / inc))) 0 mask inc;
      if negb (ok : bool) then mret false else prealloc n mask (Z.shiftr inc 1)
  end.

(** On amd64; the tree starts without memory.  [false] is NULL.  With a number below -1 the
    counter of the code overflows. *)
Definition ngx_radix_tree_create (preallocate : Z) : M bool :=
  root ← ngx_radix_alloc;
  if root =? 0 then mret false
  else
    set (fun s => mk_tree (nodes s) root (free s) (start s) (avail s) (pages s));;
    wr (set_right 0) root;;
    wr (set_left 0) root;;
    wr (set_parent 0) root;;
    wr (set_value NGX_RADIX_NO_VALUE) root;;
    if preallocate =? 0 then mret true
    else
      let preallocate := if preallocate =? -1 then 6 else preallocate in
      if preallocate <? 0 then stuck
      else prealloc (Z.to_nat preallocate) 0 0x80000000.

(** * Tries with addresses *)

Inductive trie := Nil | Nd (a v : Z) (l r : trie).

(** A node with its subtree for the bit [b] first. *)
Definition mk (b : bool) (a v : Z) (t sib : trie) : trie := if b then Nd a v sib t else Nd a v t sib.

Record frame := F { fbit : bool; faddr : Z; fvalue : Z; fsib : trie }.

Definition fill (t : trie) (f : frame) : trie := mk (fbit f) (faddr f) (fvalue f) t (fsib f).

Fixpoint plug (C : list frame) (t : trie) : trie :=
  match C with [] => t | f :: C => plug C (fill t f) end.

Fixpoint cpath (C : list frame) : list bool := match C with [] => [] | f :: C => cpath C ++ [fbit f] end.

Definition root_of (t : trie) : Z := match t with Nil => 0 | Nd a _ _ _ => a end.

Fixpoint addrs (t : trie) : list Z := match t with Nil => [] | Nd a _ l r => a :: addrs l ++ addrs r end.

Fixpoint caddrs (C : list frame) : list Z :=
  match C with [] => [] | f :: C => faddr f :: addrs (fsib f) ++ caddrs C end.

Fixpoint height (t : trie) : nat := match t with Nil => 0 | Nd _ _ l r => S (height l `max` height r) end.

(** The value at the end of a path. *)
Fixpoint look (t : trie) (q : list bool) : Z :=
  match t, q with
  | Nil, _ => NGX_RADIX_NO_VALUE
  | Nd _ v _ _, [] => v
  | Nd _ _ l r, b :: q => look (if b then r else l) q
  end.

Lemma rx_addrs_mk b a v t sib : addrs (mk b a v t sib) ≡ₚ a :: addrs t ++ addrs sib.
Proof. destruct b; cbn; [|done]. by rewrite (Permutation_app_comm (addrs sib)). Qed.

Lemma rx_addrs_plug C t : addrs (plug C t) ≡ₚ addrs t ++ caddrs C.
Proof.
  revert t. induction C as [|f C IH]; intros t; cbn; [by rewrite app_nil_r|].
  rewrite IH. unfold fill. rewrite rx_addrs_mk. cbn. rewrite <- app_assoc. apply Permutation_middle.
Qed.

Lemma rx_root_mk b a v t sib : root_of (mk b a v t sib) = a.
Proof. by destruct b. Qed.

(** A change at the end of a way is a change at one path. *)
Lemma look_plug C t t' p x :
  (∀ q, look t' q = if decide (q = p) then x else look t q) →
  ∀ q, look (plug C t') q = if decide (q = cpath C ++ p) then x else look (plug C t) q.
Proof.
  revert t t' p. induction C as [|[b a v sib] C IH]; intros t t' p H q; cbn [plug cpath]; [apply H|].
  rewrite <- app_assoc. cbn [app]. apply IH. clear q. intros [|b' q]; unfold fill; cbn [fbit faddr fvalue fsib]; [by destruct b|].
  destruct b, b'; cbn; rewrite ?H; repeat case_decide; simplify_eq; done.
Qed.

Lemma look_same C t t' : (∀ q, look t' q = look t q) → ∀ q, look (plug C t') q = look (plug C t) q.
Proof.
  revert t t'. induction C as [|[b a v sib] C IH]; intros t t' H q; cbn; [apply H|]. apply IH.
  intros [|b' q']; unfold fill; cbn; destruct b; try done; destruct b'; cbn; by rewrite ?H.
Qed.

Lemma height_fill t f : height (fill t f) = S (height t `max` height (fsib f)).
Proof. unfold fill. destruct (fbit f); cbn; lia. Qed.

Lemma height_ge C t : (length C + height t <= height (plug C t))%nat.
Proof. revert t. induction C as [|f C IH]; intros t; cbn [plug length]; [lia|]. specialize (IH (fill t f)). rewrite height_fill in IH. lia. Qed.

Lemma height_plug C t t' : (height (plug C t') <= height (plug C t) `max` (length C + height t'))%nat.
Proof.
  revert t t'. induction C as [|f C IH]; intros t t'; cbn [plug length]; [lia|]. etrans; [apply (IH (fill t f))|].
  pose proof (height_ge C (fill t f)) as H. rewrite height_fill in *. lia.
Qed.

(** * Memory *)

Lemma rx_rd_some {A} (f : node → A) a s n : nodes s !! a = Some n → rd f a s = Some (f n, s).
Proof. intros H. unfold rd. by rewrite H. Qed.

Lemma rx_wr_some f a s n : nodes s !! a = Some n → wr f a s = Some (tt, upd_nodes (<[a := f n]> (nodes s)) s).
Proof. intros H. unfold wr. by rewrite H. Qed.

(** The nodes of a trie whose root has the parent [p]. *)
Fixpoint rep (h : gmap Z node) (p : Z) (t : trie) : Prop :=
  match t with
  | Nil => True
  | Nd a v l r => h !! a = Some (mk_node (root_of r) (root_of l) p v) ∧ rep h a l ∧ rep h a r
  end.

Definition parent_of (C : list frame) : Z := match C with [] => 0 | f :: _ => faddr f end.

(** The node of a frame around a subtree at [hole]. *)
Definition fnode (f : frame) (hole p : Z) : node :=
  if fbit f then mk_node hole (root_of (fsib f)) p (fvalue f) else mk_node (root_of (fsib f)) hole p (fvalue f).

Fixpoint crep (h : gmap Z node) (C : list frame) (hole : Z) : Prop :=
  match C with
  | [] => True
  | f :: C => h !! faddr f = Some (fnode f hole (parent_of C)) ∧ rep h (faddr f) (fsib f) ∧ crep h C (faddr f)
  end.

Lemma rx_rep_plug h C t : rep h 0 (plug C t) ↔ crep h C (root_of t) ∧ rep h (parent_of C) t.
Proof.
  revert t. induction C as [|[b a v sib] C IH]; intros t; cbn; [tauto|]. rewrite IH. unfold fill. cbn. rewrite rx_root_mk. destruct b; cbn; tauto.
Qed.

Lemma rx_rep_frame h h' p t : (∀ z, z ∈ addrs t → h' !! z = h !! z) → rep h p t → rep h' p t.
Proof.
  revert p. induction t as [|a v l IHl r IHr]; intros p H; [done|]. cbn in *. intros (Hc & Hl & Hr).
  split; [rewrite H by set_solver; done|]. split; [apply IHl|apply IHr]; try done; intros z Hz; apply H; set_solver.
Qed.

Lemma rx_crep_frame h h' C hole : (∀ z, z ∈ caddrs C → h' !! z = h !! z) → crep h C hole → crep h' C hole.
Proof.
  revert hole. induction C as [|f C IH]; intros hole H; [done|]. cbn in *. intros (H1 & H2 & H3).
  split; [rewrite H by left; done|]. split; [eapply rx_rep_frame; [|done]; set_solver|apply IH; set_solver].
Qed.

(** ** Free memory *)

Fixpoint chain (h : gmap Z node) (p : Z) (l : list Z) : Prop :=
  match l with
  | [] => p = 0
  | a :: l => p = a ∧ ∃ n, h !! a = Some n ∧ chain h (right n) l
  end.

Fixpoint slots (p : Z) (n : nat) : list Z := match n with O => [] | S n => p :: slots (p + sizeof_node) n end.

(** The nodes that can be allocated, in this order. *)
Definition owns (s : tree) (res : list Z) : Prop :=
  ∃ fl k, chain (nodes s) (free s) fl ∧ avail s = sizeof_node * Z.of_nat k
  ∧ res = fl ++ slots (start s) k ++ concat ((fun p => slots p 128) <$> pages s).

(** A tree in memory; [res] is the memory that it may still use. *)
Record holds (s : tree) (t : trie) (res : list Z) : Prop := {
  h_root : root s = root_of t;
  h_ne : t ≠ Nil;
  h_rep : rep (nodes s) 0 t;
  h_owns : owns s res;
  h_cells : ∀ a, a ∈ res → is_Some (nodes s !! a);
  h_nodup : NoDup (0 :: addrs t ++ res)
}.

Lemma chain_frame h h' p l : (∀ z, z ∈ l → h' !! z = h !! z) → chain h p l → chain h' p l.
Proof.
  revert p. induction l as [|a l IH]; intros p H; [done|]. cbn. intros (-> & n & Hn & Hc). split; [done|]. exists n.
  split; [rewrite H by left; done|]. apply IH; [|done]. intros z Hz. apply H. by right.
Qed.

Lemma owns_frame s h' res : (∀ z, z ∈ res → h' !! z = nodes s !! z) → owns s res → owns (upd_nodes h' s) res.
Proof.
  intros H (fl & k & Hc & Ha & ->). exists fl, k. split; [|done]. eapply chain_frame; [|exact Hc]. intros z Hz. apply H. set_solver.
Qed.

(** Allocation takes the first of the free nodes, or fails when there is none. *)
Lemma alloc_ok s res :
  owns s res → 0 ∉ res → ∃ p s', ngx_radix_alloc s = Some (p, s') ∧ nodes s' = nodes s ∧ root s' = root s
  ∧ match res with [] => p = 0 ∧ owns s' [] | a :: res' => p = a ∧ owns s' res' end.
Proof.
  intros (fl & k & Hc & Ha & ->) H0. unfold ngx_radix_alloc. erewrite bind_some by done. destruct fl as [|a fl]; cbn in Hc.
  - rewrite Hc. cbn [Z.eqb negb]. erewrite bind_some by done. cbn [app] in *. destruct k as [|k].
    + assert (Hlt : (avail s <? sizeof_node) = true) by (by rewrite Ha). rewrite Hlt. cbn [slots app] in *. destruct (pages s) as [|p ps] eqn:Ep.
      * erewrite bind_some by (erewrite bind_some by done; rewrite Ep; by erewrite bind_some by done). cbn [negb].
        eexists _, _. split; [done|]. split; [done|]. split; [done|]. split; [done|]. exists [], O. by split.
      * erewrite bind_some by (erewrite bind_some by done; rewrite Ep; by erewrite bind_some by done). cbn [negb]. erewrite bind_some by done. erewrite bind_some by done.
        eexists _, _. split; [done|]. split; [done|]. split; [done|]. cbn -[slots]. change (slots p 128) with (p :: slots (p + sizeof_node) 127). split; [done|].
        exists [], 127%nat. by split.
    + assert (Hlt : (avail s <? sizeof_node) = false) by (apply Z.ltb_ge; rewrite Ha; unfold sizeof_node; lia). rewrite Hlt. erewrite bind_some by done. cbn [negb].
      do 2 (erewrite bind_some by done). eexists _, _. split; [done|]. split; [done|]. split; [done|]. cbn [slots app]. split; [done|].
      exists [], k. split; [done|]. cbn. split; [rewrite Ha; unfold sizeof_node; lia|done].
  - destruct Hc as (-> & n & Hn & Hc). cbn [app] in H0. rewrite (proj2 (Z.eqb_neq _ _)) by set_solver. cbn [negb].
    erewrite bind_some by (by apply rx_rd_some). erewrite bind_some by done. eexists _, _. split; [done|]. split; [done|]. split; [done|]. cbn [app].
    split; [done|]. exists fl, k. by split.
Qed.

(** ** A node of a tree *)

Lemma rx_focus_node C a v l r s res :
  holds s (plug C (Nd a v l r)) res → nodes s !! a = Some (mk_node (root_of r) (root_of l) (parent_of C) v).
Proof. intros H. pose proof (h_rep _ _ _ H) as Hr. apply rx_rep_plug in Hr as [_ [Hr _] ]. done. Qed.

Lemma root_zero C t s res : holds s (plug C t) res → (root_of t =? 0) = match t with Nil => true | _ => false end.
Proof.
  intros H. destruct t as [|a v l r]; [done|]. apply Z.eqb_neq. intros Ea. cbn in Ea. pose proof (h_nodup _ _ _ H) as ND.
  apply NoDup_cons in ND as [ND _]. apply ND. rewrite rx_addrs_plug. subst a. set_solver.
Qed.

Lemma rx_root_plug f C t t' : root_of (plug (f :: C) t) = root_of (plug (f :: C) t').
Proof. revert f t t'. induction C as [|g C IH]; intros f t t'; cbn; [unfold fill; by rewrite !rx_root_mk|apply IH]. Qed.

Lemma plug_ne C t : t ≠ Nil → plug C t ≠ Nil.
Proof. revert t. induction C as [|f C IH]; intros t Ht; cbn; [done|]. apply IH. unfold fill. by destruct (fbit f). Qed.

Lemma set_value_ok C a v l r v' s res :
  holds s (plug C (Nd a v l r)) res → ∃ s', wr (set_value v') a s = Some (tt, s') ∧ holds s' (plug C (Nd a v' l r)) res.
Proof.
  intros H. pose proof (rx_focus_node _ _ _ _ _ _ _ H) as Ha. destruct H as [Hr Hne Hrep Ho Hc ND]. erewrite rx_wr_some by done. eexists. split; [done|].
  assert (HP : addrs (plug C (Nd a v l r)) ≡ₚ addrs (plug C (Nd a v' l r))) by (by rewrite !rx_addrs_plug). rewrite HP in ND.
  pose proof ND as ND'. rewrite rx_addrs_plug in ND'. cbn in ND'. rewrite !NoDup_cons, !NoDup_app in ND'.
  split; cbn [root nodes upd_nodes]; [|by apply plug_ne| | | |done].
  - rewrite Hr. destruct C as [|f C]; [done|]. apply rx_root_plug.
  - apply rx_rep_plug in Hrep as [HC (_ & Hl & Hr')]. apply rx_rep_plug. split; [eapply rx_crep_frame; [|exact HC]; intros; apply lookup_insert_ne; set_solver|].
    split; [by rewrite lookup_insert_eq|]. split; (eapply rx_rep_frame; [|eassumption]); intros; apply lookup_insert_ne; set_solver.
  - apply owns_frame; [|done]. intros z Hz. apply lookup_insert_ne. set_solver.
  - intros z Hz. rewrite lookup_insert_ne by set_solver. by apply Hc.
Qed.

(** ** Insertion *)

Lemma walk_ok bs C t s res :
  holds s (plug C t) res → t ≠ Nil → ∃ C' a v l r rest don, walk bs (root_of t) s = Some ((a, rest), s) ∧ plug C' (Nd a v l r) = plug C t
  ∧ bs = don ++ rest ∧ cpath C' = cpath C ++ don ∧ match rest with [] => True | b :: _ => (if b then r else l) = Nil end.
Proof.
  revert C t. induction bs as [|b bs IH]; intros C t H Ht; (destruct t as [|a v l r]; [done|]).
  - exists C, a, v, l, r, [], []. by rewrite !app_nil_r.
  - pose proof (rx_focus_node _ _ _ _ _ _ _ H) as Ha. cbn [walk root_of]. erewrite bind_some by (by apply rx_rd_some).
    assert (Ec : child b (mk_node (root_of r) (root_of l) (parent_of C) v) = root_of (if b then r else l)) by (by destruct b). rewrite Ec.
    assert (H' : holds s (plug (F b a v (if b then l else r) :: C) (if b then r else l)) res) by (by destruct b).
    rewrite (root_zero _ _ _ _ H'). destruct (if b then r else l) as [|a' v' l' r'] eqn:Et.
    + exists C, a, v, l, r, (b :: bs), []. rewrite app_nil_r. split; [done|]. split; [done|]. split; [done|]. split; [done|exact Et].
    + destruct (IH _ _ H') as (C' & a2 & v2 & l2 & r2 & rest & don & E1 & E2 & E3 & E4 & E5); [done|]. exists C', a2, v2, l2, r2, rest, (b :: don).
      split; [done|]. split; [rewrite E2; by destruct b; cbn; unfold fill; cbn; rewrite <- Et|]. split; [by rewrite E3|]. split; [|done].
      rewrite E4. cbn. by rewrite <- app_assoc.
Qed.

(** A node from the free memory under an empty pointer. *)
Lemma rx_attach_ok b C a v sib p res s s1 :
  holds s (plug C (mk b a v Nil sib)) (p :: res) → nodes s1 = nodes s → root s1 = root s → owns s1 res →
  ∃ s', (∀ K : M Z, (wr (set_right 0) p;;
                     wr (set_left 0) p;;
                     wr (set_parent a) p;;
                     wr (set_value NGX_RADIX_NO_VALUE) p;;
                     wr (set_child b p) a;;
                     K) s1 = K s')
  ∧ holds s' (plug (F b a v sib :: C) (Nd p NGX_RADIX_NO_VALUE Nil Nil)) res.
Proof.
  intros [Hr Hne Hrep _ Hc ND] En Er Ho. destruct (Hc p) as [np Hp]; [left|]. assert (ND0 := ND).
  rewrite rx_addrs_plug, rx_addrs_mk in ND. cbn in ND. rewrite !NoDup_cons, !NoDup_app, NoDup_cons in ND. destruct ND as (N0 & Na & (_ & NsC & _) & Nsr & Np & Nres).
  apply rx_rep_plug in Hrep as [HC Ht]. rewrite rx_root_mk in HC.
  assert (Ha : nodes s !! a = Some (fnode (F b a v sib) 0 (parent_of C)) ∧ rep (nodes s) a sib) by (by destruct b; cbn in *; unfold fnode; cbn; tauto).
  destruct Ha as [Ha Hsib]. assert (Npa : p ≠ a) by set_solver.
  eexists (upd_nodes (<[a := set_child b p (fnode (F b a v sib) 0 (parent_of C))]> (<[p := mk_node 0 0 a NGX_RADIX_NO_VALUE]> (nodes s))) s1). split.
  - intros K. do 4 (erewrite bind_some by (apply rx_wr_some; cbn [nodes upd_nodes]; rewrite ?lookup_insert_eq, ?En; done)).
    erewrite bind_some by (apply rx_wr_some; cbn [nodes upd_nodes]; rewrite !lookup_insert_ne by done; by rewrite En). cbn [nodes upd_nodes]. by rewrite !insert_insert_eq, En.
  - split; cbn [root nodes upd_nodes].
    + rewrite Er, Hr. apply (rx_root_plug (F b a v sib) C Nil).
    + by apply plug_ne.
    + apply rx_rep_plug. cbn [root_of parent_of faddr crep fsib]. split_and!; [|eapply rx_rep_frame; [|exact Hsib] |eapply rx_crep_frame; [|exact HC] |split; [|done] ].
      * rewrite lookup_insert_eq. by destruct b.
      * intros z Hz. rewrite !lookup_insert_ne; set_solver.
      * intros z Hz. rewrite !lookup_insert_ne; set_solver.
      * rewrite lookup_insert_ne by done. apply lookup_insert_eq.
    + apply owns_frame; [|done]. rewrite En. intros z Hz. rewrite !lookup_insert_ne; set_solver.
    + intros z Hz. rewrite !lookup_insert_ne by set_solver. apply Hc. by right.
    + enough (HP : 0 :: addrs (plug (F b a v sib :: C) (Nd p NGX_RADIX_NO_VALUE Nil Nil)) ++ res ≡ₚ 0 :: addrs (plug C (mk b a v Nil sib)) ++ p :: res) by (by rewrite HP).
      rewrite !rx_addrs_plug, rx_addrs_mk. cbn. solve_Permutation.
Qed.

(** The number of nodes of a trie. *)
Definition count (t : trie) : nat := length (addrs t).

Lemma count_plug C t : count (plug C t) = (count t + length (caddrs C))%nat.
Proof. unfold count. by rewrite (Permutation_length (rx_addrs_plug C t)), length_app. Qed.

Lemma count_mk b a v t sib : count (mk b a v t sib) = S (count t + count sib).
Proof. unfold count. rewrite (Permutation_length (rx_addrs_mk b a v t sib)). cbn. by rewrite length_app. Qed.

Lemma grow_ok (bs : list bool) C a v l r s res :
  holds s (plug C (Nd a v l r)) res → match bs with [] => True | b :: _ => (if b then r else l) = Nil end →
  ∃ p s' t' res', grow bs a s = Some (p, s') ∧ holds s' t' res' ∧ (∀ q, look t' q = look (plug C (Nd a v l r)) q)
  ∧ (height t' <= height (plug C (Nd a v l r)) `max` S (length C + length bs))%nat
  ∧ (count t' + length res' = count (plug C (Nd a v l r)) + length res)%nat
  ∧ (p = 0 ∧ (length res < length bs)%nat ∧ res' = []
     ∨ p ≠ 0 ∧ ∃ C' v' l' r', t' = plug C' (Nd p v' l' r') ∧ cpath C' = cpath C ++ bs
       ∧ match bs with [] => v' = v | _ => v' = NGX_RADIX_NO_VALUE end).
Proof.
  revert C a v l r s res. induction bs as [|b bs IH]; intros C a v l r s res H Hb.
  - exists a, s, (plug C (Nd a v l r)), res. split; [done|]. split; [done|]. split; [done|]. split; [lia|]. split; [done|]. right.
    split; [pose proof (root_zero _ _ _ _ H) as Hz; by apply Z.eqb_neq in Hz|]. exists C, v, l, r. by rewrite app_nil_r.
  - cbn [grow]. pose proof (h_nodup _ _ _ H) as ND. apply NoDup_cons in ND as [N0 ND].
    destruct (alloc_ok s res (h_owns _ _ _ H)) as (p & s1 & E1 & En & Er & Hres); [set_solver|]. erewrite bind_some by exact E1. destruct res as [|p' res].
    + destruct Hres as [-> Ho]. cbn [Z.eqb]. exists 0, s1, (plug C (Nd a v l r)), []. split; [done|]. split.
      { destruct H as [H1 H2 H3 H4 H5 H6]. split; [congruence|done|by rewrite En|done|set_solver|done]. }
      split; [done|]. split; [lia|]. split; [done|]. left. split; [done|]. cbn. split; [lia|done].
    + destruct Hres as [-> Ho]. rewrite (proj2 (Z.eqb_neq _ _)) by set_solver. set (sib := if b then l else r).
      assert (Em : Nd a v l r = mk b a v Nil sib) by (unfold sib; destruct b; cbn in *; by rewrite Hb). rewrite Em in H.
      destruct (rx_attach_ok b C a v sib p' res s s1 H En Er Ho) as (s2 & E2 & H2). rewrite E2.
      destruct (IH _ _ _ _ _ _ _ H2) as (p & s' & t' & res' & E3 & H3 & L3 & T3 & N3 & R3); [by destruct bs as [|[] bs]|].
      exists p, s', t', res'. split; [done|]. split; [done|].
      assert (Hl : ∀ q, look (plug (F b a v sib :: C) (Nd p' NGX_RADIX_NO_VALUE Nil Nil)) q = look (plug C (Nd a v l r)) q).
      { intros q. rewrite Em. apply (look_same (F b a v sib :: C) Nil). intros [|[] q']; done. }
      split; [intros q; by rewrite L3|]. split.
      { pose proof (height_plug (F b a v sib :: C) Nil (Nd p' NGX_RADIX_NO_VALUE Nil Nil)) as Hh. rewrite Em. cbn [plug length height Nat.max] in *.
        change (fill Nil (F b a v sib)) with (mk b a v Nil sib) in Hh. lia. }
      split; [rewrite N3, Em, !count_plug, count_mk; cbn; rewrite length_app; fold (count sib); lia|].
      destruct R3 as [ (-> & Hlen & ->)|(Hp & C' & v' & l' & r' & -> & Ec & Ev)]; [left; split; [done|cbn; split; [lia|done] ]|]. right. split; [done|].
      exists C', v', l', r'. split; [done|]. split; [rewrite Ec; cbn; by rewrite <- app_assoc|]. by destruct bs.
Qed.

(** ** Tables: what a tree stands for *)

(** [f] gives the value of every prefix; no path is longer than [N]; the tree has [k] nodes,
    and [m] nodes can still be allocated. *)
Definition table (N : nat) (s : tree) (f : list bool → Z) (k m : nat) : Prop :=
  ∃ t res, holds s t res ∧ (height t <= S N)%nat ∧ (∀ q, f q = look t q) ∧ k = count t ∧ m = length res.

Definition update (f : list bool → Z) (bs : list bool) (v : Z) (q : list bool) : Z := if decide (q = bs) then v else f q.

Lemma look_at C t p : look (plug C t) (cpath C ++ p) = look t p.
Proof.
  revert t p. induction C as [|[b a v sib] C IH]; intros t p; cbn; [done|]. rewrite <- app_assoc, IH. cbn. unfold fill. by destruct b.
Qed.

Lemma cpath_length C : length (cpath C) = length C.
Proof. induction C as [|f C IH]; cbn; [done|]. rewrite length_app, IH. cbn. lia. Qed.

(** Writing the value of a node. *)
Lemma set_value_table N C a v l r v' s res f :
  holds s (plug C (Nd a v l r)) res → (height (plug C (Nd a v l r)) <= S N)%nat → (∀ q, f q = look (plug C (Nd a v l r)) q) →
  ∃ s', wr (set_value v') a s = Some (tt, s') ∧ table N s' (update f (cpath C) v') (count (plug C (Nd a v l r))) (length res).
Proof.
  intros H Hh Hf. destruct (set_value_ok C a v l r v' s res H) as (s' & E1 & H1). exists s'. split; [done|].
  exists (plug C (Nd a v' l r)), res. split; [done|]. split; [|split; [|by rewrite !count_plug] ].
  - pose proof (height_plug C (Nd a v l r) (Nd a v' l r)) as H2. pose proof (height_ge C (Nd a v l r)). cbn [height] in *. lia.
  - intros q. unfold update. rewrite Hf, (look_plug C (Nd a v l r) (Nd a v' l r) [] v'), app_nil_r; [done|]. intros [|b q']; by case_decide.
Qed.

Lemma insert_lemma N s f k m bs v :
  table N s f k m → (length bs <= N)%nat →
  ∃ rc s' k' m', radix_insert bs v s = Some (rc, s')
  ∧ if decide (f bs = NGX_RADIX_NO_VALUE)
    then (rc = NGX_OK ∧ table N s' (update f bs v) k' m' ∧ (k' + m' = k + m)%nat) ∨ (rc = NGX_ERROR ∧ table N s' f (k + m) 0 ∧ (m < length bs)%nat)
    else rc = NGX_BUSY ∧ s' = s.
Proof.
  intros (t & res & H & Hh & Hf & -> & ->) HN. unfold radix_insert. erewrite bind_some by done. rewrite (h_root _ _ _ H).
  destruct (walk_ok bs [] t s res H (h_ne _ _ _ H)) as (C & a & v0 & l & r & rest & don & E1 & Et & -> & Ec & Hr). cbn [plug cpath app] in Et, Ec. subst t don.
  erewrite bind_some by exact E1. cbv iota beta. pose proof (rx_focus_node _ _ _ _ _ _ _ H) as Ha. rewrite (Hf (cpath C ++ rest)), look_at. destruct rest as [|b rest].
  - cbn [look]. erewrite bind_some by (by apply rx_rd_some). cbn [value]. rewrite app_nil_r in *. case_decide as Hv.
    + rewrite Hv, Z.eqb_refl. cbn [negb]. destruct (set_value_table N C a v0 l r v s res f H Hh Hf) as (s' & E2 & H2). erewrite bind_some by exact E2.
      eexists _, s', _, _. split; [done|]. left. split; [done|]. split; [exact H2|by rewrite Hv].
    + rewrite (proj2 (Z.eqb_neq _ _) Hv). cbn [negb]. by exists NGX_BUSY, s, O, O.
  - cbn [look]. rewrite Hr. case_decide as Hv; [|by destruct rest]. clear Hv.
    destruct (grow_ok (b :: rest) C a v0 l r s res H Hr) as (p & s1 & t1 & res1 & E2 & H1 & L1 & T1 & N1 & R1). erewrite bind_some by exact E2.
    assert (Hh1 : (height t1 <= S N)%nat) by (rewrite length_app, cpath_length in HN; lia).
    destruct R1 as [ (-> & Hlt & ->)|(Hp & C' & v' & l' & r' & -> & Ec' & Ev)].
    + cbn [Z.eqb]. exists NGX_ERROR, s1, O, O. split; [done|]. right. split; [done|]. split; [|rewrite length_app; lia].
      exists t1, []. split; [done|]. split; [done|]. split; [intros q; by rewrite L1|]. cbn in N1. split; [lia|done].
    + rewrite (proj2 (Z.eqb_neq _ _) Hp). destruct (set_value_table N C' p v' l' r' v s1 res1 f H1 Hh1) as (s' & E3 & H3); [intros q; by rewrite L1|].
      erewrite bind_some by exact E3. eexists NGX_OK, s', _, _. split; [done|]. left. split; [done|]. rewrite <- Ec'. split; [exact H3|lia].
Qed.

(** ** Search *)

(** The first [n] bits of a key. *)
Definition key_bits (bit : nat → bool) (n : nat) : list bool := map bit (seq 0 n).

Lemma key_bits_split bit n m : (n <= m)%nat → key_bits bit m = key_bits bit n ++ map bit (seq n (m - n)).
Proof. intros H. unfold key_bits. rewrite <- map_app. replace m with (n + (m - n))%nat at 1 by lia. by rewrite seq_app. Qed.

Lemma find_loop_ok bit bit' fuel C t s res v :
  holds s (plug C t) res → (height t < fuel)%nat → (∀ i, (i < length C + height t)%nat → bit i = Some (bit' i)) →
  cpath C = key_bits bit' (length C) →
  ∃ r, find_loop bit fuel (length C) (root_of t) v s = Some (r, s)
  ∧ ((∃ n, (length C <= n)%nat ∧ r = look (plug C t) (key_bits bit' n) ∧ r ≠ NGX_RADIX_NO_VALUE
           ∧ ∀ m, (n < m)%nat → look (plug C t) (key_bits bit' m) = NGX_RADIX_NO_VALUE)
     ∨ r = v ∧ ∀ m, (length C <= m)%nat → look (plug C t) (key_bits bit' m) = NGX_RADIX_NO_VALUE).
Proof.
  revert C t v. induction fuel as [|fuel IH]; intros C t v H Hf Hb Hc; [lia|]. cbn [find_loop]. rewrite (root_zero _ _ _ _ H).
  assert (Hpre : ∀ m, (length C <= m)%nat → look (plug C t) (key_bits bit' m) = look t (map bit' (seq (length C) (m - length C)))).
  { intros m Hm. by rewrite (key_bits_split bit' (length C) m Hm), <- Hc, look_at. }
  destruct t as [|a v0 l r].
  - exists v. split; [done|]. right. split; [done|]. intros m Hm. by rewrite Hpre.
  - pose proof (rx_focus_node _ _ _ _ _ _ _ H) as Ha. cbn [root_of]. erewrite bind_some by (by apply rx_rd_some). cbn [value]. cbv zeta.
    cbn [height] in *. rewrite Hb by lia. erewrite bind_some by (by apply rx_rd_some). set (b := bit' (length C)).
    assert (Ec : child b (mk_node (root_of r) (root_of l) (parent_of C) v0) = root_of (if b then r else l)) by (by destruct b). rewrite Ec.
    assert (Ep : plug (F b a v0 (if b then l else r) :: C) (if b then r else l) = plug C (Nd a v0 l r)) by (by destruct b).
    destruct (IH (F b a v0 (if b then l else r) :: C) (if b then r else l) (if negb (v0 =? NGX_RADIX_NO_VALUE) then v0 else v)) as (x & E1 & Hx).
    { by rewrite Ep. }
    { destruct b; lia. }
    { intros i Hi. apply Hb. cbn [length] in Hi. destruct b; lia. }
    { cbn [cpath fbit length]. rewrite Hc. unfold key_bits. by rewrite seq_S, map_app. }
    exists x. split; [exact E1|]. rewrite Ep in Hx. cbn [length] in Hx. assert (H0 : look (plug C (Nd a v0 l r)) (key_bits bit' (length C)) = v0) by (rewrite Hpre, Nat.sub_diag; done).
    destruct Hx as [ (n & Hn & Hx)|[-> Hx] ]; [left; exists n; split; [lia|done]|]. destruct (Z.eqb_spec v0 NGX_RADIX_NO_VALUE) as [Ev|Ev]; cbn [negb].
    + right. split; [done|]. intros m Hm. destruct (decide (m = length C)) as [->|]; [by rewrite H0|]. apply Hx. lia.
    + left. exists (length C). split; [done|]. split; [done|]. split; [done|]. intros m Hm. apply Hx. lia.
Qed.

Lemma node_count s t res : holds s t res → (height t <= size (nodes s))%nat.
Proof.
  intros [_ _ Hr _ _ ND]. assert (NoDup (addrs t)) as ND' by (apply NoDup_cons in ND as [_ ND]; by apply NoDup_app in ND as [ND _]).
  assert (Hl : (height t <= length (addrs t))%nat) by (clear; induction t as [|a v l IHl r IHr]; cbn; [lia|]; rewrite length_app; lia).
  etrans; [exact Hl|]. rewrite <- (size_list_to_set (C := gset Z)) by done. rewrite <- size_dom. apply subseteq_size.
  intros a Ha%elem_of_list_to_set. apply elem_of_dom. revert Hr Ha. clear. generalize 0 as q. induction t as [|b v l IHl r IHr]; intros q; cbn; [set_solver|].
  intros (Hb & Hl & Hr) [->|[Ha|Ha]%elem_of_app]%elem_of_cons; eauto.
Qed.

(** The value of the longest prefix of a key that has one. *)
Definition longest (f : list bool → Z) (bit : nat → bool) (r : Z) : Prop :=
  (∃ n, r = f (key_bits bit n) ∧ r ≠ NGX_RADIX_NO_VALUE ∧ ∀ m, (n < m)%nat → f (key_bits bit m) = NGX_RADIX_NO_VALUE)
  ∨ r = NGX_RADIX_NO_VALUE ∧ ∀ m, f (key_bits bit m) = NGX_RADIX_NO_VALUE.

Lemma find_lemma N bit bit' s f k m :
  table N s f k m → (∀ i, (i <= N)%nat → bit i = Some (bit' i)) → ∃ r, radix_find bit s = Some (r, s) ∧ longest f bit' r.
Proof.
  intros (t & res & H & Hh & Hf & _ & _) Hb. unfold radix_find. do 2 (erewrite bind_some by done). rewrite (h_root _ _ _ H).
  destruct (find_loop_ok bit bit' (S (S (size (nodes s)))) [] t s res NGX_RADIX_NO_VALUE H) as (r & E1 & Hr); [|intros i Hi; apply Hb; cbn in Hi; lia|done|].
  { pose proof (node_count s t res H). lia. }
  exists r. split; [exact E1|]. unfold longest. setoid_rewrite Hf. destruct Hr as [ (n & _ & Hr)|[-> Hr] ]; [left; by exists n|right; split; [done|]; intros i; apply Hr; cbn; lia].
Qed.

(** ** Deletion *)

Lemma delete_walk_ok bs C t s res :
  holds s (plug C t) res → ∃ x, delete_walk bs (root_of t) s = Some (x, s)
  ∧ (x = 0 ∧ look t bs = NGX_RADIX_NO_VALUE ∨ x ≠ 0 ∧ ∃ C' v l r, plug C' (Nd x v l r) = plug C t ∧ cpath C' = cpath C ++ bs).
Proof.
  revert C t. induction bs as [|b bs IH]; intros C t H; cbn [delete_walk].
  - exists (root_of t). split; [done|]. pose proof (root_zero _ _ _ _ H) as Hz. destruct t as [|a v l r]; [by left|]. right.
    split; [by apply Z.eqb_neq|]. exists C, v, l, r. by rewrite app_nil_r.
  - rewrite (root_zero _ _ _ _ H). destruct t as [|a v l r]; [exists 0; split; [done|by left]|].
    pose proof (rx_focus_node _ _ _ _ _ _ _ H) as Ha. cbn [root_of]. erewrite bind_some by (by apply rx_rd_some).
    assert (Ec : child b (mk_node (root_of r) (root_of l) (parent_of C) v) = root_of (if b then r else l)) by (by destruct b). rewrite Ec.
    assert (Ep : plug (F b a v (if b then l else r) :: C) (if b then r else l) = plug C (Nd a v l r)) by (by destruct b). rewrite <- Ep in H.
    destruct (IH _ _ H) as (x & E1 & Hx). exists x. split; [done|]. destruct Hx as [Hx|(Hx & C' & v' & l' & r' & E2 & E3)]; [by left|]. right.
    split; [done|]. exists C', v', l', r'. split; [by rewrite E2|]. rewrite E3. cbn. by rewrite <- app_assoc.
Qed.

(** A leaf goes from the tree to the list of free nodes. *)
Lemma detach_ok b p v sib C a x s res :
  holds s (plug (F b p v sib :: C) (Nd a x Nil Nil)) res →
  ∃ s', (∀ K : M unit, (p ← rd parent a;
                        pr ← rd right p;
                        (if pr =? a then wr (set_right 0) p else wr (set_left 0) p);;
                        fr ← get free;
                        wr (set_right fr) a;;
                        set (upd_free a);;
                        K) s = K s')
  ∧ rd parent a s' = Some (p, s') ∧ holds s' (plug C (mk b p v Nil sib)) (a :: res).
Proof.
  intros H. pose proof (rx_focus_node _ _ _ _ _ _ _ H) as Ha. cbn [root_of parent_of faddr] in Ha. pose proof H as [Hr Hne Hrep Ho Hc ND].
  apply rx_rep_plug in Hrep as [ (Hp & Hs & HC) _]. cbn [faddr fsib] in *. pose proof ND as ND0. rewrite rx_addrs_plug in ND. cbn in ND.
  apply NoDup_cons in ND as [N0 ND]. change (a :: p :: ?l ++ res) with ((a :: p :: l) ++ res) in ND. apply NoDup_app in ND as (ND & Nr & Nres).
  rewrite !NoDup_cons, NoDup_app in ND. destruct ND as (Na & Np & _ & Nsc & _).
  assert (Npa : p ≠ a) by set_solver. assert (Nas : root_of sib ≠ a) by (destruct sib; cbn in *; set_solver).
  set (h1 := <[p := set_child b 0 (fnode (F b p v sib) a (parent_of C))]> (nodes s)).
  exists (upd_free a (upd_nodes (<[a := mk_node (free s) 0 p x]> h1) s)). split_and!.
  - intros K. erewrite bind_some by (by apply rx_rd_some). cbn [parent]. erewrite bind_some by (by apply rx_rd_some).
    destruct b; unfold fnode in *; cbn [fbit fsib fvalue right] in *; rewrite ?Z.eqb_refl, ?(proj2 (Z.eqb_neq _ _) Nas);
      (erewrite bind_some by (by apply rx_wr_some)); (erewrite bind_some by done);
      (erewrite bind_some by (apply rx_wr_some; cbn [nodes upd_nodes]; by rewrite lookup_insert_ne)); by erewrite bind_some by done.
  - erewrite rx_rd_some by (cbn; apply lookup_insert_eq). done.
  - split; cbn [root nodes upd_nodes upd_free].
    + rewrite Hr. apply (rx_root_plug (F b p v sib) C).
    + apply plug_ne. by destruct b.
    + apply rx_rep_plug. rewrite rx_root_mk. split; [eapply rx_crep_frame; [|exact HC]; intros z Hz; unfold h1; rewrite !lookup_insert_ne; set_solver|].
      assert (Hs2 : rep (<[a := mk_node (free s) 0 p x]> h1) p sib) by (eapply rx_rep_frame; [|exact Hs]; intros z Hz; unfold h1; rewrite !lookup_insert_ne; set_solver).
      assert (Hp2 : <[a := mk_node (free s) 0 p x]> h1 !! p = Some (set_child b 0 (fnode (F b p v sib) a (parent_of C)))) by (rewrite lookup_insert_ne by done; apply lookup_insert_eq).
      by destruct b; cbn; rewrite Hp2.
    + destruct Ho as (fl & k & Hch & Hav & Eres). exists (a :: fl), k. cbn. split; [|by rewrite Eres]. split; [done|]. eexists. split; [apply lookup_insert_eq|]. cbn.
      eapply chain_frame; [|exact Hch]. intros z Hz. unfold h1. rewrite !lookup_insert_ne; set_solver.
    + intros z [->|Hz]%elem_of_cons; [rewrite lookup_insert_eq; by eexists|]. unfold h1. rewrite !lookup_insert_ne by set_solver. by apply Hc.
    + enough (HP : 0 :: addrs (plug C (mk b p v Nil sib)) ++ a :: res ≡ₚ 0 :: addrs (plug (F b p v sib :: C) (Nd a x Nil Nil)) ++ res) by (by rewrite HP).
      rewrite !rx_addrs_plug, rx_addrs_mk. cbn. solve_Permutation.
Qed.

Lemma parent_zero C t s res : holds s (plug C t) res → (parent_of C =? 0) = match C with [] => true | _ => false end.
Proof.
  intros H. destruct C as [|f C]; [done|]. apply Z.eqb_neq. cbn. intros E1. pose proof (h_nodup _ _ _ H) as ND. apply NoDup_cons in ND as [ND _]. apply ND.
  rewrite rx_addrs_plug. cbn. rewrite E1. set_solver.
Qed.

Lemma delete_up_ok rounds f C a x s res :
  holds s (plug (f :: C) (Nd a x Nil Nil)) res → (length (f :: C) <= rounds)%nat →
  ∃ s' t' res', delete_up rounds a s = Some (tt, s') ∧ holds s' t' res' ∧ (∀ q, look t' q = look (plug (f :: C) Nil) q)
  ∧ (height t' <= height (plug (f :: C) (Nd a x Nil Nil)))%nat ∧ (count t' + length res' = count (plug (f :: C) (Nd a x Nil Nil)) + length res)%nat.
Proof.
  revert f C a x s res. induction rounds as [|rounds IH]; intros [b p v sib] C a x s res H Hl; [cbn in Hl; lia|]. cbn [delete_up].
  destruct (detach_ok b p v sib C a x s res H) as (s1 & E1 & Ep & H1). rewrite E1. erewrite bind_some by exact Ep.
  assert (∃ l r, mk b p v Nil sib = Nd p v l r ∧ (negb (root_of r =? 0) || negb (root_of l =? 0)) = match sib with Nil => false | _ => true end) as (l & r & Em & Eb).
  { assert (Hz : (root_of sib =? 0) = match sib with Nil => true | _ => false end) by (apply (root_zero (F (negb b) p v Nil :: C) sib s1 (a :: res)); by destruct b).
    destruct b; eexists _, _; (split; [done|]); rewrite Hz; by destruct sib. }
  assert (H1' := H1). rewrite Em in H1'. pose proof (rx_focus_node _ _ _ _ _ _ _ H1') as Hp. do 4 (erewrite bind_some by (by apply rx_rd_some)). cbn [right left value parent].
  rewrite Eb, (parent_zero _ _ _ _ H1'). cbn [length] in Hl.
  assert (Hh : (height (plug C (mk b p v Nil sib)) <= height (plug (F b p v sib :: C) (Nd a x Nil Nil)))%nat).
  { pose proof (height_plug (F b p v sib :: C) (Nd a x Nil Nil) Nil) as Hh. pose proof (height_ge (F b p v sib :: C) (Nd a x Nil Nil)) as Hg. cbn [plug length height] in *.
    change (fill Nil (F b p v sib)) with (mk b p v Nil sib) in Hh. lia. }
  assert (Hk : (count (plug C (mk b p v Nil sib)) + length (a :: res) = count (plug (F b p v sib :: C) (Nd a x Nil Nil)) + length res)%nat).
  { rewrite !count_plug, count_mk. cbn. rewrite length_app. fold (count sib). lia. }
  destruct sib as [|? ? ? ?]; [|by exists s1, (plug C (mk b p v Nil (Nd a0 v0 sib1 sib2))), (a :: res)].
  destruct (Z.eqb_spec v NGX_RADIX_NO_VALUE) as [->|Hv]; cbn [negb]; [|by exists s1, (plug C (mk b p v Nil Nil)), (a :: res)].
  destruct C as [|g C]; [by exists s1, (plug [] (mk b p NGX_RADIX_NO_VALUE Nil Nil)), (a :: res)|].
  assert (Em' : mk b p NGX_RADIX_NO_VALUE Nil Nil = Nd p NGX_RADIX_NO_VALUE Nil Nil) by (by destruct b). rewrite Em' in H1, Hh, Hk.
  destruct (IH g C p _ s1 (a :: res) H1) as (s' & t' & res' & E2 & H2 & L2 & Hh2 & Hk2); [lia|]. exists s', t', res'. split; [exact E2|]. split; [done|]. split; [|lia].
  intros q. rewrite L2. cbn [plug]. change (fill Nil (F b p NGX_RADIX_NO_VALUE Nil)) with (mk b p NGX_RADIX_NO_VALUE Nil Nil). rewrite Em'.
  apply (look_same (g :: C) (Nd p NGX_RADIX_NO_VALUE Nil Nil) Nil). by intros [|[] q'].
Qed.

(** The deletion of a prefix, unless it is the empty one in a tree of one node. *)
Lemma delete_lemma N s f k m bs :
  table N s f k m → (bs = [] → ∃ q, q ≠ [] ∧ f q ≠ NGX_RADIX_NO_VALUE) →
  ∃ rc s' k' m', radix_delete bs s = Some (rc, s')
  ∧ (rc = NGX_OK ∧ table N s' (update f bs NGX_RADIX_NO_VALUE) k' m' ∧ (k' + m' = k + m)%nat ∨ rc = NGX_ERROR ∧ s' = s ∧ f bs = NGX_RADIX_NO_VALUE).
Proof.
  intros (t & res & H & Hh & Hf & -> & ->) Hroot. unfold radix_delete. erewrite bind_some by done. rewrite (h_root _ _ _ H).
  destruct (delete_walk_ok bs [] t s res H) as (a & E1 & Ha). erewrite bind_some by exact E1. destruct Ha as [ [-> Hn]|(Ha & C & v & l & r & Et & Ec)].
  { cbn [Z.eqb]. exists NGX_ERROR, s, O, O. split; [done|]. right. by rewrite Hf. }
  rewrite (proj2 (Z.eqb_neq _ _) Ha). cbn [plug cpath app] in Et, Ec. subst t bs. pose proof (rx_focus_node _ _ _ _ _ _ _ H) as Hn.
  do 3 (erewrite bind_some by (by apply rx_rd_some)). cbn [right left value].
  assert (Hfv : f (cpath C) = v) by (rewrite Hf, <- (app_nil_r (cpath C)), look_at; done).
  assert (Hz : (negb (root_of r =? 0) || negb (root_of l =? 0)) = match l, r with Nil, Nil => false | _, _ => true end).
  { rewrite (root_zero (F true a v l :: C) r s res H), (root_zero (F false a v r :: C) l s res H). by destruct l, r. }
  rewrite Hz. destruct (match l, r with Nil, Nil => false | _, _ => true end) eqn:Elr.
  - destruct (Z.eqb_spec v NGX_RADIX_NO_VALUE) as [Ev|Ev]; cbn [negb]; [exists NGX_ERROR, s, O, O; split; [done|]; right; by rewrite Hfv|].
    destruct (set_value_table N C a v l r NGX_RADIX_NO_VALUE s res f H Hh Hf) as (s' & E2 & H2). erewrite bind_some by exact E2.
    eexists NGX_OK, s', _, _. split; [done|]. left. split; [done|]. split; [exact H2|done].
  - destruct l, r; try done. destruct C as [|g C].
    { exfalso. destruct (Hroot eq_refl) as (q & Hq & Hq2). rewrite Hf in Hq2. destruct q as [|[] q]; done. }
    destruct (delete_up_ok (S (length (cpath (g :: C)))) g C a v s res H) as (s' & t' & res' & E2 & H2 & L2 & Hh2 & Hk2); [rewrite cpath_length; lia|].
    erewrite bind_some by exact E2. exists NGX_OK, s', (count t'), (length res'). split; [done|]. left. split; [done|]. split; [|done]. exists t', res'. split; [done|]. split; [lia|]. split; [|done].
    intros q. unfold update. rewrite L2, (look_plug (g :: C) (Nd a v Nil Nil) Nil [] NGX_RADIX_NO_VALUE), app_nil_r; [by rewrite Hf|]. intros [|[] q']; by case_decide.
Qed.

(** ** The bits of keys and masks *)

Definition kbit32 (key : Z) (n : nat) : bool := negb (Z.land key (Z.shiftr 0x80000000 (Z.of_nat n)) =? 0).
Definition kbit128 (key : bytes) (n : nat) : bool := negb (Z.land (key !!! (n / 8)%nat) (Z.shiftr 0x80 (Z.of_nat (n mod 8))) =? 0).

(** The number of ones at the start of a mask of [N] bits. *)
Definition ones (N : nat) (mbit : nat → bool) (n : nat) : Prop :=
  (n <= N)%nat ∧ (∀ i, (i < n)%nat → mbit i = true) ∧ ((n < N)%nat → mbit n = false).

(** The bits from [i] to [n]. *)
Lemma map_bits (bit : nat → bool) i n : (i < n)%nat → bit i :: map bit (seq (S i) (n - S i)) = map bit (seq i (n - i)).
Proof. intros H. replace (n - i)%nat with (S (n - S i)) by lia. done. Qed.

Lemma bits32_S k bit key mask :
  bits32 (S k) bit key mask = if Z.land bit mask =? 0 then [] else negb (Z.land key bit =? 0) :: bits32 k (Z.shiftr bit 1) key mask.
Proof. done. Qed.

Lemma prefix32_ok key mask : ∃ n, ones 32 (kbit32 mask) n ∧ prefix32 key mask = key_bits (kbit32 key) n.
Proof.
  enough (∀ k i, (i + k = 32)%nat → ∃ n, (i <= n <= 32)%nat ∧ (∀ j, (i <= j < n)%nat → kbit32 mask j = true) ∧ ((n < 32)%nat → kbit32 mask n = false)
    ∧ bits32 (S k) (Z.shiftr 0x80000000 (Z.of_nat i)) key mask = map (kbit32 key) (seq i (n - i))) as Hx.
  { destruct (Hx 32%nat O eq_refl) as (n & H1 & H2 & H3 & H4). exists n. split; [split; [lia|split; [intros j Hj; apply H2; lia|done] ]|].
    change (prefix32 key mask) with (bits32 33 (Z.shiftr 0x80000000 (Z.of_nat 0)) key mask). rewrite H4, Nat.sub_0_r. done. }
  induction k as [|k IH]; intros i Hi; rewrite bits32_S.
  - exists 32%nat. assert (i = 32)%nat as -> by lia. split; [lia|]. split; [intros j Hj; lia|]. split; [lia|]. done.
  - assert (Em : (Z.land (Z.shiftr 0x80000000 (Z.of_nat i)) mask =? 0) = negb (kbit32 mask i)) by (unfold kbit32; by rewrite Z.land_comm, negb_involutive). rewrite Em.
    destruct (kbit32 mask i) eqn:Ei; cbn [negb].
    + rewrite Z.shiftr_shiftr by lia. replace (Z.of_nat i + 1) with (Z.of_nat (S i)) by lia. destruct (IH (S i)) as (n & H1 & H2 & H3 & H4); [lia|].
      exists n. split; [lia|]. split; [intros j Hj; destruct (decide (j = i)) as [->|]; [done|apply H2; lia]|]. split; [done|].
      rewrite H4. apply (map_bits (kbit32 key)). lia.
    + exists i. split; [lia|]. split; [intros j Hj; lia|]. split; [done|]. by rewrite Nat.sub_diag.
Qed.

Lemma bits128_S k i bit key mask :
  bits128 (S k) i bit key mask
  = (m ← mask !! i;
     if Z.land bit m =? 0 then Some []
     else
       k' ← key !! i;
       let b := negb (Z.land k' bit =? 0) in
       let bit := Z.shiftr bit 1 in
       l ← (if bit =? 0 then (if (S i =? 16)%nat then Some [] else bits128 k (S i) 0x80 key mask) else bits128 k i bit key mask);
       Some (b :: l)).
Proof. done. Qed.

Lemma prefix128_ok key mask :
  length key = 16%nat → length mask = 16%nat →
  ∃ n, ones 128 (kbit128 mask) n ∧ prefix128 key mask = Some (key_bits (kbit128 key) n).
Proof.
  intros Lk Lm.
  enough (∀ k i, (i + k = 128)%nat → (0 < k)%nat → ∃ n, (i <= n <= 128)%nat ∧ (∀ j, (i <= j < n)%nat → kbit128 mask j = true) ∧ ((n < 128)%nat → kbit128 mask n = false)
    ∧ bits128 (S k) (i / 8) (Z.shiftr 0x80 (Z.of_nat (i mod 8))) key mask = Some (map (kbit128 key) (seq i (n - i)))) as Hx.
  { destruct (Hx 128%nat O eq_refl) as (n & H1 & H2 & H3 & H4); [lia|]. exists n. split; [split; [lia|split; [intros j Hj; apply H2; lia|done] ]|].
    change (prefix128 key mask) with (bits128 129 (0 / 8) (Z.shiftr 0x80 (Z.of_nat (0 mod 8))) key mask). rewrite H4, Nat.sub_0_r. done. }
  induction k as [|k IH]; intros i Hi Hk; [lia|]. rewrite bits128_S.
  assert (Hq : (i / 8 < 16)%nat) by (apply Nat.Div0.div_lt_upper_bound; lia).
  rewrite (list_lookup_lookup_total_lt mask), (list_lookup_lookup_total_lt key) by lia. cbn [mbind option_bind]. cbv zeta.
  assert (Em : (Z.land (Z.shiftr 0x80 (Z.of_nat (i mod 8))) (mask !!! (i / 8)%nat) =? 0) = negb (kbit128 mask i)) by (unfold kbit128; by rewrite Z.land_comm, negb_involutive).
  rewrite Em. destruct (kbit128 mask i) eqn:Ei; cbn [negb]; [|exists i; split; [lia|]; split; [intros j Hj; lia|]; split; [done|by rewrite Nat.sub_diag] ].
  assert (Hr : (i mod 8 < 8)%nat) by (apply Nat.mod_upper_bound; lia). pose proof (Nat.div_mod_eq i 8) as Hdm. rewrite Z.shiftr_shiftr by lia.
  assert (Hbit : (Z.shiftr 128 (Z.of_nat (i mod 8) + 1) =? 0) = (i mod 8 =? 7)%nat) by (destruct (i mod 8)%nat as [|[|[|[|[|[|[|[|?] ] ] ] ] ] ] ]; try done; lia).
  rewrite Hbit.
  assert (Hnext : (S i < 128)%nat → ∃ n, (i < n <= 128)%nat ∧ (∀ j, (i <= j < n)%nat → kbit128 mask j = true) ∧ ((n < 128)%nat → kbit128 mask n = false)
    ∧ (l ← bits128 (S k) (S i / 8) (Z.shiftr 0x80 (Z.of_nat (S i mod 8))) key mask; Some (kbit128 key i :: l)) = Some (map (kbit128 key) (seq i (n - i)))).
  { intros H1. destruct (IH (S i)) as (n & N1 & N2 & N3 & N4); [lia|lia|]. exists n. split; [lia|].
    split; [intros j Hj; destruct (decide (j = i)) as [->|]; [done|apply N2; lia]|]. split; [done|]. rewrite N4. cbn [mbind option_bind]. by rewrite map_bits by lia. }
  destruct (Nat.eqb_spec (i mod 8) 7) as [E7|E7].
  - destruct (Nat.eqb_spec (S (i / 8)) 16) as [E16|E16].
    + exists 128%nat. split; [lia|]. assert (i = 127)%nat as -> by lia. split; [intros j Hj; assert (j = 127)%nat as -> by lia; done|]. split; [lia|done].
    + assert (Ed : (S i / 8 = S (i / 8))%nat ∧ (S i mod 8 = 0)%nat) by (split; [symmetry; apply (Nat.div_unique _ _ _ 0); lia|symmetry; apply (Nat.mod_unique _ _ (S (i / 8))); lia]).
      destruct Ed as [Ed Er]. destruct Hnext as (n & N1 & N2 & N3 & N4); [lia|]. rewrite Ed, Er in N4. exists n. split; [lia|]. done.
  - assert (Ed : (S i / 8 = i / 8)%nat ∧ (S i mod 8 = S (i mod 8))%nat) by (split; [symmetry; apply (Nat.div_unique _ _ _ (S (i mod 8))); lia|symmetry; apply (Nat.mod_unique _ _ (i / 8)); lia]).
    destruct Ed as [Ed Er]. destruct Hnext as (n & N1 & N2 & N3 & N4); [lia|]. rewrite Ed, Er in N4. replace (Z.of_nat (i mod 8) + 1) with (Z.of_nat (S (i mod 8))) by lia.
    exists n. split; [lia|]. done.
Qed.

Lemma bit128_ok key i : (i / 8 < length key)%nat → bit128 key i = Some (kbit128 key i).
Proof. intros H. unfold bit128, kbit128. by rewrite list_lookup_lookup_total_lt. Qed.

(** ** Creation *)

(** A table without networks. *)
Definition no_networks : list bool → Z := fun _ => NGX_RADIX_NO_VALUE.

Lemma table_ext N s f g k m : (∀ q, f q = g q) → table N s f k m → table N s g k m.
Proof. intros E (t & res & H & Hh & Hf & -> & ->). exists t, res. split; [done|]. split; [done|]. split; [|done]. intros q. by rewrite <- E. Qed.

(** What creation makes: an empty table, or an empty table and no memory left. *)
Definition created (ok : bool) (s : tree) : Prop := ∃ k m, table 32 s no_networks k m ∧ (ok = false → m = 0%nat).

Lemma insert_nothing s k m key mask :
  table 32 s no_networks k m → ∃ ok s', (rc ← ngx_radix32tree_insert key mask NGX_RADIX_NO_VALUE; mret (rc =? NGX_OK) : M bool) s = Some (ok, s') ∧ created ok s'.
Proof.
  intros H. destruct (prefix32_ok key mask) as (n & Hn & E1). unfold ngx_radix32tree_insert. rewrite E1.
  destruct (insert_lemma 32 s no_networks k m (key_bits (kbit32 key) n) NGX_RADIX_NO_VALUE H) as (rc & s' & k' & m' & E2 & Hr); [unfold key_bits; rewrite length_map, length_seq; apply Hn|].
  erewrite bind_some by exact E2. exists (rc =? NGX_OK), s'. split; [done|]. case_decide as Hd; [|by destruct Hd]. destruct Hr as [ (-> & Ht & _)|(-> & Ht & _)]; [|by eexists _, _].
  exists k', m'. split; [|done]. eapply table_ext; [|exact Ht]. intros q. unfold update. by case_decide.
Qed.

(** The loop over the keys of one length ends: the keys go up to 2^32 in equal steps. *)
Lemma prealloc_keys_ok rounds key mask inc s n m :
  table 32 s no_networks n m → key = 0 ∧ inc = 0 ∧ (0 < rounds)%nat ∨ (∃ k c, key = k * inc ∧ c * inc = 2 ^ 32 ∧ 0 < inc ∧ 0 <= k < c ∧ c - k <= Z.of_nat rounds) →
  ∃ ok s', prealloc_keys rounds key mask inc s = Some (ok, s') ∧ created ok s'.
Proof.
  revert key s n m. induction rounds as [|rounds IH]; intros key s n m H Hk; [exfalso; destruct Hk as [?|(k & c & ?)]; lia|]. cbn [prealloc_keys].
  destruct (insert_nothing s n m key mask H) as (ok & s1 & E1 & H1). unfold mbind, St_bind in E1 |- *.
  destruct (ngx_radix32tree_insert key mask NGX_RADIX_NO_VALUE s) as [ [rc s2]|]; [|done]. injection E1 as <- <-. destruct (rc =? NGX_OK); cbn [negb]; [|by eexists _, _].
  cbv zeta. unfold wrap_u. destruct Hk as [ (-> & -> & _)|(k & c & -> & Ec & Hi & Hk & Hr)]; [by eexists _, _|].
  destruct (decide (k + 1 = c)) as [E|E].
  - replace (k * inc + inc) with (2 ^ 32) by nia. rewrite Z_mod_same_full. by eexists _, _.
  - rewrite Z.mod_small by nia. rewrite (proj2 (Z.eqb_neq _ _)) by nia. destruct H1 as (n1 & m1 & H1 & _). apply (IH _ s2 n1 m1 H1). right. exists (k + 1), c. lia.
Qed.

Lemma prealloc_ok n j mask s :
  created true s → ∃ ok s', prealloc n mask (Z.shiftr 0x80000000 (Z.of_nat j)) s = Some (ok, s') ∧ created ok s'.
Proof.
  revert j mask s. induction n as [|n IH]; intros j mask s (k & m & H & _); [exists true, s; split; [done|by exists k, m]|]. cbn [prealloc]. set (inc := Z.shiftr 0x80000000 (Z.of_nat j)).
  destruct (prealloc_keys_ok (S (Z.to_nat (2 ^ 32 / inc))) 0 (Z.lor (Z.shiftr mask 1) 0x80000000) inc s k m H) as (ok & s1 & E1 & H1).
  - unfold inc. change 0x80000000 with (2 ^ 31). rewrite Z.shiftr_div_pow2 by lia. destruct (decide (j <= 31)%nat) as [Hj|Hj].
    + right. exists 0, (2 ^ (Z.of_nat j + 1)). rewrite <- Z.pow_sub_r by lia. pose proof (Z.pow_pos_nonneg 2 (31 - Z.of_nat j)). pose proof (Z.pow_pos_nonneg 2 (Z.of_nat j + 1)).
      assert (Em : 2 ^ (Z.of_nat j + 1) * 2 ^ (31 - Z.of_nat j) = 2 ^ 32) by (rewrite <- Z.pow_add_r by lia; f_equal; lia).
      split; [lia|]. split; [done|]. split; [lia|]. split; [lia|]. rewrite <- Em, Z.div_mul by lia. lia.
    + left. split; [done|]. split; [|lia]. apply Z.div_small. split; [lia|]. apply Z.pow_lt_mono_r; lia.
  - erewrite bind_some by exact E1. destruct ok; cbn [negb]; [|by eexists _, _]. unfold inc. rewrite Z.shiftr_shiftr by lia. replace (Z.of_nat j + 1) with (Z.of_nat (S j)) by lia. by apply IH.
Qed.

(** The root in the first piece of the memory. *)
Lemma create_root s res p s1 :
  (∀ a, a ∈ p :: res → is_Some (nodes s !! a)) → NoDup (0 :: p :: res) → nodes s1 = nodes s → owns s1 res →
  ∃ s', (∀ K : M bool, (set (fun s => mk_tree (nodes s) p (free s) (start s) (avail s) (pages s));;
                        wr (set_right 0) p;;
                        wr (set_left 0) p;;
                        wr (set_parent 0) p;;
                        wr (set_value NGX_RADIX_NO_VALUE) p;;
                        K) s1 = K s') ∧ created true s'.
Proof.
  intros Hc ND En Ho. destruct (Hc p) as [np Hp]; [left|]. rewrite !NoDup_cons in ND. destruct ND as (N0 & Np & ND).
  eexists (mk_tree (<[p := mk_node 0 0 0 NGX_RADIX_NO_VALUE]> (nodes s)) p (free s1) (start s1) (avail s1) (pages s1)). split.
  - intros K. erewrite bind_some by done. do 4 (erewrite bind_some by (apply rx_wr_some; cbn [nodes upd_nodes]; rewrite ?lookup_insert_eq, ?En; done)).
    cbn [nodes upd_nodes]. by rewrite !insert_insert_eq, En.
  - exists 1%nat, (length res). split; [|done]. exists (Nd p NGX_RADIX_NO_VALUE Nil Nil), res. split; [|split; [cbn; lia|split; [by intros [|[] q]|done] ] ]. split; cbn [root nodes root_of rep addrs app].
    + done.
    + done.
    + by rewrite lookup_insert_eq.
    + destruct Ho as (fl & k & H1 & H2 & ->). exists fl, k. split; [|done]. eapply chain_frame; [|exact H1]. cbn. intros z Hz. rewrite En. apply lookup_insert_ne. set_solver.
    + intros a Ha. rewrite lookup_insert_ne by set_solver. apply Hc. by right.
    + rewrite !NoDup_cons. done.
Qed.

(** A new tree: with any number of levels to preallocate the result is a tree without
    networks, or NULL, when all the memory is used. *)
Theorem radix_create_ok (s : tree) (res : list Z) (preallocate : Z) :
  owns s res → (∀ a, a ∈ res → is_Some (nodes s !! a)) → NoDup (0 :: res) → -1 <= preallocate →
  ∃ ok s', ngx_radix_tree_create preallocate s = Some (ok, s') ∧ (res = [] ∧ ok = false ∨ res ≠ [] ∧ created ok s').
Proof.
  intros Ho Hc ND Hp. pose proof ND as [N0 _]%NoDup_cons. unfold ngx_radix_tree_create.
  destruct (alloc_ok s res Ho N0) as (p & s1 & E1 & En & Er & Hres). erewrite bind_some by exact E1. destruct res as [|p' res].
  - destruct Hres as [-> _]. exists false, s1. split; [done|]. by left.
  - destruct Hres as [-> Ho']. rewrite (proj2 (Z.eqb_neq _ _)) by set_solver. destruct (create_root s res p' s1 Hc ND En Ho') as (s' & E2 & H2). rewrite E2.
    destruct (Z.eqb_spec preallocate 0) as [_|Hn]; [exists true, s'; split; [done|]; by right|]. cbv zeta.
    assert (Hn' : ((if preallocate =? -1 then 6 else preallocate) <? 0) = false) by (destruct (Z.eqb_spec preallocate (-1)); lia). rewrite Hn'.
    destruct (prealloc_ok (Z.to_nat (if preallocate =? -1 then 6 else preallocate)) 0 0 s' H2) as (ok & s2 & E3 & H3). exists ok, s2. split; [exact E3|]. by right.
Qed.

(** * The properties *)

(** The result of an insertion of the prefix [bs]; no node is lost. *)
Definition inserted (N : nat) (f : list bool → Z) (k m : nat) (s : tree) (bs : list bool) (v rc : Z) (s' : tree) : Prop :=
  if decide (f bs = NGX_RADIX_NO_VALUE)
  then (rc = NGX_OK ∧ ∃ k' m', table N s' (update f bs v) k' m' ∧ (k' + m' = k + m)%nat) ∨ (rc = NGX_ERROR ∧ (m < length bs)%nat ∧ table N s' f (k + m) 0)
  else rc = NGX_BUSY ∧ s' = s.

(** The result of a deletion; the nodes that leave the tree can be allocated again. *)
Definition deleted (N : nat) (f : list bool → Z) (k m : nat) (s : tree) (bs : list bool) (rc : Z) (s' : tree) : Prop :=
  (rc = NGX_OK ∧ ∃ k' m', table N s' (update f bs NGX_RADIX_NO_VALUE) k' m' ∧ (k' + m' = k + m)%nat) ∨ (rc = NGX_ERROR ∧ s' = s ∧ f bs = NGX_RADIX_NO_VALUE).

Lemma insert_any N s f k m bs v :
  table N s f k m → (length bs <= N)%nat → ∃ rc s', radix_insert bs v s = Some (rc, s') ∧ inserted N f k m s bs v rc s'.
Proof.
  intros H Hl. destruct (insert_lemma N s f k m bs v H Hl) as (rc & s' & k' & m' & E1 & Hr). exists rc, s'. split; [done|]. unfold inserted. case_decide; [|done].
  destruct Hr as [ (-> & Ht & Hk)|(-> & Ht & Hm)]; [left; eauto|right; eauto].
Qed.

Lemma delete_any N s f k m bs :
  table N s f k m → (∃ q, q ≠ [] ∧ f q ≠ NGX_RADIX_NO_VALUE) → ∃ rc s', radix_delete bs s = Some (rc, s') ∧ deleted N f k m s bs rc s'.
Proof.
  intros H Hq. destruct (delete_lemma N s f k m bs H) as (rc & s' & k' & m' & E1 & [ (-> & Ht & Hk)|Hr]); [done|..]; exists rc, s' || exists NGX_OK, s'; (split; [done|]); unfold deleted; eauto 6.
Qed.

Lemma key_bits_length bit n : length (key_bits bit n) = n.
Proof. unfold key_bits. by rewrite length_map, length_seq. Qed.

(** C22. Insertion into a radix tree is insertion into the table of its networks:
    for a key and a mask that starts with n ones, [ngx_radix32tree_insert] and
    [ngx_radix128tree_insert] follow no bad pointer; a network that has a value is
    refused with [NGX_BUSY], else it gets the value and all others keep theirs,
    unless memory runs out, when [NGX_ERROR] is returned and no value has changed.
    The nodes of the tree and the free ones together stay as many. *)
Theorem radix_insert_ok (s : tree) (f : list bool → Z) (k m : nat) (v : Z) :
  (table 32 s f k m → ∀ key mask, ∃ n rc s', ones 32 (kbit32 mask) n
     ∧ ngx_radix32tree_insert key mask v s = Some (rc, s') ∧ inserted 32 f k m s (key_bits (kbit32 key) n) v rc s')
  ∧ (table 128 s f k m → ∀ key mask, length key = 16%nat → length mask = 16%nat → ∃ n rc s', ones 128 (kbit128 mask) n
     ∧ ngx_radix128tree_insert key mask v s = Some (rc, s') ∧ inserted 128 f k m s (key_bits (kbit128 key) n) v rc s').
Proof.
  split; intros H key mask.
  - destruct (prefix32_ok key mask) as (n & Hn & E1). unfold ngx_radix32tree_insert. rewrite E1. destruct (insert_any 32 s f k m (key_bits (kbit32 key) n) v H) as (rc & s' & Hr); [|by exists n, rc, s'].
    rewrite key_bits_length. apply Hn.
  - intros Lk Lm. destruct (prefix128_ok key mask Lk Lm) as (n & Hn & E1). unfold ngx_radix128tree_insert. rewrite E1.
    destruct (insert_any 128 s f k m (key_bits (kbit128 key) n) v H) as (rc & s' & Hr); [|by exists n, rc, s']. rewrite key_bits_length. apply Hn.
Qed.

(** C23. Deletion from a radix tree is deletion from the table of its networks: in a
    tree with a network of at least one bit, [ngx_radix32tree_delete] and
    [ngx_radix128tree_delete] follow no bad pointer; with [NGX_OK] the network has
    no value any more and all others have theirs, and with [NGX_ERROR] it had none
    and nothing has changed. No node is lost: those that leave the tree can be
    allocated again, so that the nodes of the tree and the free ones together stay
    as many. *)
Theorem radix_delete_ok (s : tree) (f : list bool → Z) (k m : nat) :
  (∃ q, q ≠ [] ∧ f q ≠ NGX_RADIX_NO_VALUE) →
  (table 32 s f k m → ∀ key mask, ∃ n rc s', ones 32 (kbit32 mask) n
     ∧ ngx_radix32tree_delete key mask s = Some (rc, s') ∧ deleted 32 f k m s (key_bits (kbit32 key) n) rc s')
  ∧ (table 128 s f k m → ∀ key mask, length key = 16%nat → length mask = 16%nat → ∃ n rc s', ones 128 (kbit128 mask) n
     ∧ ngx_radix128tree_delete key mask s = Some (rc, s') ∧ deleted 128 f k m s (key_bits (kbit128 key) n) rc s').
Proof.
  intros Hq. split; intros H key mask.
  - destruct (prefix32_ok key mask) as (n & Hn & E1). unfold ngx_radix32tree_delete. rewrite E1.
    destruct (delete_any 32 s f k m (key_bits (kbit32 key) n) H Hq) as (rc & s' & Hr). by exists n, rc, s'.
  - intros Lk Lm. destruct (prefix128_ok key mask Lk Lm) as (n & Hn & E1). unfold ngx_radix128tree_delete. rewrite E1.
    destruct (delete_any 128 s f k m (key_bits (kbit128 key) n) H Hq) as (rc & s' & Hr). by exists n, rc, s'.
Qed.

(** C21. The search finds the longest prefix: [ngx_radix32tree_find] and
    [ngx_radix128tree_find] return the value of the longest network that contains
    the key, or [NGX_RADIX_NO_VALUE] when none does, and change nothing; the second
    needs one readable byte behind the 16 bytes of the key. *)
Theorem radix_find_ok (s : tree) (f : list bool → Z) (k m : nat) :
  (table 32 s f k m → ∀ key, ∃ r, ngx_radix32tree_find key s = Some (r, s) ∧ longest f (kbit32 key) r)
  ∧ (table 128 s f k m → ∀ key, (17 <= length key)%nat → ∃ r, ngx_radix128tree_find key s = Some (r, s) ∧ longest f (kbit128 key) r).
Proof.
  split; intros H key.
  - by apply (find_lemma 32 (bit32 key) (kbit32 key) s f k m H).
  - intros Lk. apply (find_lemma 128 (bit128 key) (kbit128 key) s f k m H). intros i Hi. apply bit128_ok.
    pose proof (Nat.Div0.div_le_mono i 128 8 Hi) as Hd. change (128 / 8)%nat with 16%nat in Hd. lia.
Qed.

(** ** Examples *)

(** A tree with the network 0.0.0.0/1 and two free nodes. *)
Definition example_radix : tree :=
  mk_tree (list_to_map [(32, mk_node 0 64 0 NGX_RADIX_NO_VALUE); (64, mk_node 0 0 32 7); (96, mk_node 5 5 5 5); (128, mk_node 5 5 5 5)]) 32 0 96 64 [].

Definition example_table (q : list bool) : Z := look (Nd 32 NGX_RADIX_NO_VALUE (Nd 64 7 Nil Nil) Nil) q.

Lemma example_radix_ok N : (1 <= N)%nat → table N example_radix example_table 2 2.
Proof.
  intros HN. exists (Nd 32 NGX_RADIX_NO_VALUE (Nd 64 7 Nil Nil) Nil), [96; 128]. split; [|cbn; split; [lia|done] ].
  split; [done|done|done| | |apply (bool_decide_unpack _); vm_compute; done].
  - exists [], 2%nat. by split.
  - intros a [->|[->|Ha%elem_of_nil]%elem_of_cons]%elem_of_cons; [by eexists|by eexists|done].
Qed.

Lemma radix_insert_ok_witness :
  (∃ n rc s', ones 32 (kbit32 0xc0000000) n ∧ ngx_radix32tree_insert 0x40000000 0xc0000000 9 example_radix = Some (rc, s')
     ∧ inserted 32 example_table 2 2 example_radix (key_bits (kbit32 0x40000000) n) 9 rc s')
  ∧ (fst <$> ngx_radix32tree_insert 0x40000000 0xc0000000 9 example_radix) = Some NGX_OK.
Proof.
  split; [|vm_compute; reflexivity]. apply (proj1 (radix_insert_ok example_radix example_table 2 2 9) (example_radix_ok 32 ltac:(lia))).
Defined.

Lemma radix_delete_ok_witness :
  (∃ n rc s', ones 32 (kbit32 0x80000000) n ∧ ngx_radix32tree_delete 0 0x80000000 example_radix = Some (rc, s')
     ∧ deleted 32 example_table 2 2 example_radix (key_bits (kbit32 0) n) rc s')
  ∧ (fst <$> ngx_radix32tree_delete 0 0x80000000 example_radix) = Some NGX_OK.
Proof.
  split; [|vm_compute; reflexivity]. apply (radix_delete_ok example_radix example_table 2 2); [|apply example_radix_ok; lia].
  exists [false]. split; [discriminate|vm_compute; discriminate].
Defined.

Lemma radix_find_ok_witness :
  (∃ r, ngx_radix32tree_find 0x7f000001 example_radix = Some (r, example_radix) ∧ longest example_table (kbit32 0x7f000001) r)
  ∧ (fst <$> ngx_radix32tree_find 0x7f000001 example_radix) = Some 7.
Proof.
  split; [|vm_compute; reflexivity]. apply (proj1 (radix_find_ok example_radix example_table 2 2) (example_radix_ok 32 ltac:(lia))).
Defined.

(** A new tree in three pages. *)
Definition new_tree (preallocate : Z) : option tree :=
  let cells := map (fun i => (Z.of_nat i * 32, mk_node 5 5 5 5)) (seq 128 384) in
  match ngx_radix_tree_create preallocate (mk_tree (list_to_map cells) 0 0 0 0 [4096; 8192; 12288]) with
  | Some (true, s) => Some s
  | _ => None
  end.

Example radix_preallocated :
  (s ← new_tree (-1);
   '(rc, s) ← ngx_radix32tree_insert 0x0a000000 0xff000000 1 s;
   '(rc, s) ← ngx_radix32tree_insert 0x0a010000 0xffff0000 2 s;
   Some (fst <$> ngx_radix32tree_find 0x0a010203 s, fst <$> ngx_radix32tree_find 0x0a020203 s, fst <$> ngx_radix32tree_find 0x0b000000 s))
  = Some (Some 2, Some 1, Some NGX_RADIX_NO_VALUE).
Proof. vm_compute. reflexivity. Qed.

(** With a full-length network the search reads behind a key of 16 bytes. *)
Example radix128_reads_behind :
  let key := replicate 15 0 ++ [1] in
  (s ← new_tree 0;
   '(rc, s) ← ngx_radix128tree_insert key (replicate 16 255) 3 s;
   Some (rc, fst <$> ngx_radix128tree_find key s, fst <$> ngx_radix128tree_find (key ++ [77]) s)) = Some (NGX_OK, None, Some 3).
Proof. vm_compute. reflexivity. Qed.

(** The deletion of the network 0.0.0.0/0 from a tree of one node follows the parent of the
    root, which is NULL. *)
Example radix_delete_root : (s ← new_tree 0; ngx_radix32tree_delete 0 0 s) = None.
Proof. vm_compute. reflexivity. Qed.

End NgxRadix.
