(* ===== verification/HttpUri.v ===== *)
(** * Request URIs

    [ngx_http_parse_complex_uri] of src/nginx-master/src/http/ngx_http_parse.c:
    the normalisation of the path of a request (percent-decoding, merging of
    slashes, resolution of dot segments).  [NGX_WIN32] is not defined.

    The output buffer [r->uri.data .. u) is kept reversed, last byte first, so
    that [*u++ = ch] is [cons], [u--] is [tail] and the backward search of the
    [..] rule is a forward search. *)

From S2P Require Import Prelude NgxNumber NgxEscape.

Open Scope Z_scope.

Definition NGX_HTTP_PARSE_INVALID_REQUEST : Z := 11.

(** The [usual[]] bitmap. *)
Definition usual_tbl : list Z :=
  [0xffffdbfe; 0x7fff37d6; 0xffffffff; 0xffffffff;
   0xffffffff; 0xffffffff; 0xffffffff; 0xffffffff].

Definition usual (ch : Z) : bool := bitmap_test usual_tbl ch.

Module ComplexUri.

(** ** State *)

(** The states that a percent-encoded byte can interrupt, and the two states
    of the percent decoder, which remember [quoted_state] and [decoded]. *)
Inductive pstate := sw_usual | sw_slash | sw_dot | sw_dot_dot.

Inductive state :=
  | sw_plain (s : pstate)
  | sw_quoted (quoted_state : pstate)
  | sw_quoted_second (quoted_state : pstate) (decoded : Z).

Record cu := mk_cu {
  cu_state : state;
  cu_u : bytes;                 (* the output, last byte first *)
  cu_uri_ext : option nat;      (* r->uri_ext, an offset into the output *)
  cu_plus_in_uri : bool;
  cu_quoted_uri : bool
}.

Definition cu_init : cu := mk_cu (sw_plain sw_usual) [] None false false.

Inductive cu_exit := cu_invalid | cu_done (s : cu) | cu_args (s : cu).

Definition goto (s : cu) (st : pstate) : cu :=
  mk_cu (sw_plain st) (cu_u s) (cu_uri_ext s) (cu_plus_in_uri s) (cu_quoted_uri s).

(** [state = st; *u++ = ch]. *)
Definition push (s : cu) (st : pstate) (ch : Z) : cu :=
  mk_cu (sw_plain st) (ch :: cu_u s) (cu_uri_ext s) (cu_plus_in_uri s) (cu_quoted_uri s).

Definition set_ext (s : cu) (e : option nat) : cu :=
  mk_cu (cu_state s) (cu_u s) e (cu_plus_in_uri s) (cu_quoted_uri s).

Definition set_plus (s : cu) : cu :=
  mk_cu (cu_state s) (cu_u s) (cu_uri_ext s) true (cu_quoted_uri s).

Definition set_u (s : cu) (u : bytes) : cu :=
  mk_cu (cu_state s) u (cu_uri_ext s) (cu_plus_in_uri s) (cu_quoted_uri s).

(** [quoted_state = state; state = sw_quoted]. *)
Definition start_quoted (s : cu) (st : pstate) : cu :=
  mk_cu (sw_quoted st) (cu_u s) (cu_uri_ext s) (cu_plus_in_uri s) (cu_quoted_uri s).

(** ** The states *)

(** The last cases of the switches: ["+"] falls through to [default]. *)
Definition default_case (s : cu) (ch : Z) : cu + cu_exit :=
  inl (push (if ch =? "+"%ch then set_plus s else s) sw_usual ch).

Definition step_usual (s : cu) (ch : Z) : cu + cu_exit :=
  if usual ch then inl (push s sw_usual ch)
  else if ch =? "/"%ch then inl (push (set_ext s None) sw_slash ch)
  else if ch =? "%"%ch then inl (start_quoted s sw_usual)
  else if ch =? "?"%ch then inr (cu_args s)
  else if ch =? "#"%ch then inr (cu_done s)
  else if ch =? "."%ch
  then inl (push (set_ext s (Some (length (cu_u s) + 1)%nat)) sw_usual ch)
  else default_case s ch.

Definition step_slash (merge_slashes : bool) (s : cu) (ch : Z) : cu + cu_exit :=
  if usual ch then inl (push s sw_usual ch)
  else if ch =? "/"%ch
  then inl (if merge_slashes then goto s sw_slash else push s sw_slash ch)
  else if ch =? "."%ch then inl (push s sw_dot ch)
  else if ch =? "%"%ch then inl (start_quoted s sw_slash)
  else if ch =? "?"%ch then inr (cu_args s)
  else if ch =? "#"%ch then inr (cu_done s)
  else default_case s ch.

Definition step_dot (s : cu) (ch : Z) : cu + cu_exit :=
  if usual ch then inl (push s sw_usual ch)
  else if ch =? "/"%ch then inl (goto (set_u s (tail (cu_u s))) sw_slash)
  else if ch =? "."%ch then inl (push s sw_dot_dot ch)
  else if ch =? "%"%ch then inl (start_quoted s sw_dot)
  else if ch =? "?"%ch then inr (cu_args s)
  else if ch =? "#"%ch then inr (cu_done s)
  else default_case s ch.

(** The loop that moves [u] back: it fails below [r->uri.data] and stops just
    after a ["/"].  The byte at [u] is the head of the list. *)
Fixpoint back_to_slash (u : bytes) : option bytes :=
  match u with
  | [] => None
  | c :: u' => if c =? "/"%ch then Some u else back_to_slash u'
  end.

(** [u -= 5] makes [*u] the fifth byte from the end. *)
Definition step_dot_dot (s : cu) (ch : Z) : cu + cu_exit :=
  if usual ch then inl (push s sw_usual ch)
  else if ch =? "/"%ch then
    match back_to_slash (drop 4 (cu_u s)) with
    | None => inr cu_invalid
    | Some u => inl (goto (set_u s u) sw_slash)
    end
  else if ch =? "%"%ch then inl (start_quoted s sw_dot_dot)
  else if ch =? "?"%ch then inr (cu_args s)
  else if ch =? "#"%ch then inr (cu_done s)
  else default_case s ch.

Definition step_plain (merge_slashes : bool) (st : pstate) (s : cu) (ch : Z)
    : cu + cu_exit :=
  match st with
  | sw_usual => step_usual s ch
  | sw_slash => step_slash merge_slashes s ch
  | sw_dot => step_dot s ch
  | sw_dot_dot => step_dot_dot s ch
  end.

Definition set_quoted_uri (s : cu) : cu :=
  mk_cu (cu_state s) (cu_u s) (cu_uri_ext s) (cu_plus_in_uri s) true.

Definition step_quoted (q : pstate) (s : cu) (ch : Z) : cu + cu_exit :=
  let s := set_quoted_uri s in
  let second d :=
    inl (mk_cu (sw_quoted_second q d) (cu_u s) (cu_uri_ext s) (cu_plus_in_uri s)
           (cu_quoted_uri s)) in
  if (ch >=? "0"%ch) && (ch <=? "9"%ch) then second (u_char (ch - "0"%ch))
  else
    let c := u_char (Z.lor ch 32) in
    if (c >=? "a"%ch) && (c <=? "f"%ch) then second (u_char (c - "a"%ch + 10))
    else inr cu_invalid.

(** [state = quoted_state; break;] does not read the next byte: the decoded
    byte goes through the state that the percent sign interrupted. *)
Definition step_quoted_second (merge_slashes : bool) (q : pstate) (decoded : Z) (s : cu)
    (ch : Z) : cu + cu_exit :=
  if (ch >=? "0"%ch) && (ch <=? "9"%ch) then
    let ch := u_char (Z.shiftl decoded 4 + (ch - "0"%ch)) in
    if (ch =? "%"%ch) || (ch =? "#"%ch) then inl (push s sw_usual ch)
    else if ch =? 0 then inr cu_invalid
    else step_plain merge_slashes q s ch
  else
    let c := u_char (Z.lor ch 32) in
    if (c >=? "a"%ch) && (c <=? "f"%ch) then
      let ch := u_char (Z.shiftl decoded 4 + (c - "a"%ch) + 10) in
      if ch =? "?"%ch then inl (push s sw_usual ch)
      else step_plain merge_slashes q (if ch =? "+"%ch then set_plus s else s) ch
    else inr cu_invalid.

(** The body of the [while (p <= r->uri_end)] loop. *)
Definition step (merge_slashes : bool) (s : cu) (p : nat) (ch : Z) : cu + cu_exit :=
  match cu_state s with
  | sw_plain st => step_plain merge_slashes st s ch
  | sw_quoted q => step_quoted q s ch
  | sw_quoted_second q d => step_quoted_second merge_slashes q d s ch
  end.

(** ** The function *)

Record uri_result := mk_uri {
  uri : bytes;
  exten : option bytes;
  args : option bytes;          (* set when the arguments end at a ["#"] *)
  args_start : option nat;      (* offset of the arguments in the URI *)
  plus_in_uri : bool;
  quoted_uri : bool
}.

(** The label [done]: [r->exten = (u - r->uri_ext, r->uri_ext)]. *)
Definition finish (s : cu) (args : option bytes) (args_start : option nat) : uri_result :=
  let out := reverse (cu_u s) in
  mk_uri out
    (match cu_uri_ext s with None => None | Some e => Some (drop e out) end)
    args args_start (cu_plus_in_uri s) (cu_quoted_uri s).

(** The label [args]: the arguments run up to a ["#"]. *)
Fixpoint until_hash (l : bytes) : option bytes :=
  match l with
  | [] => None
  | c :: l' =>
      if c =? "#"%ch then Some []
      else match until_hash l' with Some a => Some (c :: a) | None => None end
  end.

(** [uri] is [r->uri_start .. r->uri_end); [None] is
    [NGX_HTTP_PARSE_INVALID_REQUEST]. *)
Definition ngx_http_parse_complex_uri (l : bytes) (merge_slashes : bool)
    : option uri_result :=
  match mrun (step merge_slashes) cu_init 0 l with
  | inl s => Some (finish s None None)
  | inr (cu_done s, _) => Some (finish s None None)
  | inr (cu_invalid, _) => None
  | inr (cu_args s, p) =>
      let rest := drop (p + 1) l in
      match until_hash rest with
      | Some a => Some (finish s (Some a) None)
      | None => Some (finish s None (Some (p + 1)%nat))
      end
  end.

(** * Theorems *)

(** ** Dot segments

    The words ["/./"] and ["/../"] are palindromes, so that they can be looked
    for in the reversed output. *)

Definition dot_seg : bytes := bs "/./".
Definition dot_dot_seg : bytes := bs "/../".

Definition no_dots (u : bytes) : Prop := no_infix dot_seg u ∧ no_infix dot_dot_seg u.

(** What each state knows about the end of the output. *)
Definition tail_ok (st : pstate) (u : bytes) : Prop :=
  match st with
  | sw_usual =>
      head u ≠ Some "/"%ch ∧ ¬ bs "./" `prefix_of` u ∧ ¬ bs "../" `prefix_of` u
  | sw_slash => head u = Some "/"%ch
  | sw_dot => bs "./" `prefix_of` u
  | sw_dot_dot => bs "../" `prefix_of` u
  end.

Definition plain_of (st : state) : pstate :=
  match st with
  | sw_plain s => s
  | sw_quoted q => q
  | sw_quoted_second q _ => q
  end.

(** The invariant of the loop: no complete dot segment, the end of the output
    as the state says, a recorded extension only inside the last segment, and
    an output that starts with ["/"] once anything was written. *)
Definition inv_cu (s : cu) : Prop :=
  no_dots (cu_u s)
  ∧ tail_ok (plain_of (cu_state s)) (cu_u s)
  ∧ match cu_uri_ext s with
    | None => True
    | Some e => plain_of (cu_state s) = sw_usual ∧ (e <= length (cu_u s))%nat
    end.

Lemma no_dots_push (u : bytes) (ch : Z) : ch ≠ "/"%ch → no_dots u → no_dots (ch :: u).
Proof.
  intros Hc [H1 H2]. split; (apply no_infix_cons; [done|]); intros [k Hk]; by inv Hk.
Qed.

Lemma no_dots_push_slash (u : bytes) :
  ¬ bs "./" `prefix_of` u → ¬ bs "../" `prefix_of` u → no_dots u → no_dots ("/"%ch :: u).
Proof.
  intros Hd Hdd [H1 H2].
  split; (apply no_infix_cons; [done|]); intros [k Hk]; inv Hk; [apply Hd|apply Hdd]; by exists k.
Qed.

Lemma no_dots_suffix (u k : bytes) : no_dots u → k `suffix_of` u → no_dots k.
Proof. intros [H1 H2] Hk. split; by eapply no_infix_suffix. Qed.

Lemma back_to_slash_spec (u v : bytes) :
  back_to_slash u = Some v → v `suffix_of` u ∧ head v = Some "/"%ch.
Proof.
  induction u as [|c u IH]; [done|]. cbn [back_to_slash].
  destruct (Z.eqb_spec c 47) as [->|].
  - intros [= <-]. by split.
  - intros H. apply IH in H as [H1 H2]. split; [by apply suffix_cons_r|done].
Qed.

Lemma usual_not_special (ch : Z) :
  usual ch = true → ch ≠ "/"%ch ∧ ch ≠ "."%ch ∧ ch ≠ "%"%ch ∧ ch ≠ "?"%ch ∧ ch ≠ "#"%ch
                    ∧ ch ≠ "+"%ch ∧ ch ≠ 0.
Proof. intros H. split_and!; intros ->; by vm_compute in H. Qed.

(** Writing a byte that is neither ["/"] nor, after a slash or a dot, ["."]
    leads to [sw_usual]. *)
Lemma inv_push_usual (s : cu) (ch : Z) :
  inv_cu s → ch ≠ "/"%ch →
  (ch = "."%ch → plain_of (cu_state s) = sw_usual ∨ plain_of (cu_state s) = sw_dot_dot) →
  inv_cu (push s sw_usual ch).
Proof.
  intros (Hn & Ht & He) Hc Hdot. unfold inv_cu. simpl. split_and!.
  - by apply no_dots_push.
  - congruence.
  - intros [k Hk]. injection Hk as -> Hu. rewrite Hu in Ht.
    destruct Hdot as [E|E]; [done|..]; rewrite E in Ht; simpl in Ht; [by destruct Ht|].
    destruct Ht as [k' Hk']. by inv Hk'.
  - intros [k Hk]. injection Hk as -> Hu. rewrite Hu in Ht.
    destruct Hdot as [E|E]; [done|..]; rewrite E in Ht; simpl in Ht.
    + destruct Ht as (_ & Ht & _). apply Ht. by exists k.
    + destruct Ht as [k' Hk']. by inv Hk'.
  - destruct (cu_uri_ext s) as [e|]; [|done]. split; [done|]. simpl. lia.
Qed.

Lemma inv_default (s : cu) (ch : Z) :
  inv_cu s → ch ≠ "/"%ch →
  (ch = "."%ch → plain_of (cu_state s) = sw_usual ∨ plain_of (cu_state s) = sw_dot_dot) →
  ∀ s', default_case s ch = inl s' → inv_cu s'.
Proof.
  intros Hs Hc Hdot s' [= <-].
  destruct (ch =? 43); by apply inv_push_usual.
Qed.

(** Moving to a state other than [sw_usual] with an output that ends as that
    state says. *)
Lemma inv_goto (u : bytes) (st : pstate) (p q : bool) :
  no_dots u → tail_ok st u → inv_cu (mk_cu (sw_plain st) u None p q).
Proof. intros Hn Ht. split; [done|split; done]. Qed.

Lemma ext_outside_usual (s : cu) :
  inv_cu s → plain_of (cu_state s) ≠ sw_usual → cu_uri_ext s = None.
Proof. intros (_ & _ & H) Hne. destruct (cu_uri_ext s); [by destruct H|done]. Qed.

Lemma inv_start_quoted (s : cu) (q : pstate) :
  inv_cu s → plain_of (cu_state s) = q → inv_cu (start_quoted s q).
Proof. intros (H1 & H2 & H3) <-. split; [done|split; done]. Qed.

(** The exits hand over the state they leave. *)
Definition exit_inv (r : cu_exit) : Prop :=
  match r with
  | cu_invalid => True
  | cu_done s | cu_args s => inv_cu s
  end.

Definition outcome_inv (o : cu + cu_exit) : Prop :=
  match o with inl s => inv_cu s | inr r => exit_inv r end.

Lemma default_outcome (s : cu) (ch : Z) :
  inv_cu s → ch ≠ "/"%ch →
  (ch = "."%ch → plain_of (cu_state s) = sw_usual ∨ plain_of (cu_state s) = sw_dot_dot) →
  outcome_inv (default_case s ch).
Proof. intros. eapply inv_default; done. Qed.

Lemma usual_outcome (s : cu) (ch : Z) :
  inv_cu s → usual ch = true → outcome_inv (inl (push s sw_usual ch)).
Proof.
  intros Hs Hu. destruct (usual_not_special ch Hu) as (? & ? & _). by apply inv_push_usual.
Qed.

Lemma step_usual_inv (s : cu) (ch : Z) :
  inv_cu s → plain_of (cu_state s) = sw_usual → outcome_inv (step_usual s ch).
Proof.
  intros Hs Hst. unfold step_usual. destruct (usual ch) eqn:Hu; [by apply usual_outcome|].
  pose proof Hs as (Hn & Ht & He). rewrite Hst in Ht. destruct Ht as (Hh & Hd & Hdd).
  destruct (Z.eqb_spec ch 47) as [->|].
  { apply inv_goto; [by apply no_dots_push_slash|done]. }
  destruct (Z.eqb_spec ch 37) as [->|]; [by apply inv_start_quoted|].
  destruct (Z.eqb_spec ch 63) as [->|]; [done|].
  destruct (Z.eqb_spec ch 35) as [->|]; [done|].
  destruct (Z.eqb_spec ch 46) as [->|]; [|apply default_outcome; auto].
  assert (Hp : inv_cu (push s sw_usual 46)) by (apply inv_push_usual; auto).
  destruct Hp as (H1 & H2 & _). split; [done|split; [done|]]. simpl. split; [done|lia].
Qed.

Lemma step_slash_inv (m : bool) (s : cu) (ch : Z) :
  inv_cu s → plain_of (cu_state s) = sw_slash → outcome_inv (step_slash m s ch).
Proof.
  intros Hs Hst. unfold step_slash. destruct (usual ch) eqn:Hu; [by apply usual_outcome|].
  pose proof (ext_outside_usual s Hs ltac:(congruence)) as Hx.
  pose proof Hs as (Hn & Ht & He). rewrite Hst in Ht. simpl in Ht.
  destruct (cu_u s) as [|x u] eqn:Eu; [done|]. injection Ht as ->.
  destruct (Z.eqb_spec ch 47) as [->|].
  { destruct m; simpl; unfold goto, push; rewrite Hx, Eu; apply inv_goto; try done.
    apply no_dots_push_slash; [..|done]; intros [k Hk]; by inv Hk. }
  destruct (Z.eqb_spec ch 46) as [->|].
  { simpl. unfold push. rewrite Hx, Eu. apply inv_goto; [by apply no_dots_push|].
    by exists u. }
  destruct (Z.eqb_spec ch 37) as [->|]; [by apply inv_start_quoted|].
  destruct (Z.eqb_spec ch 63) as [->|]; [done|].
  destruct (Z.eqb_spec ch 35) as [->|]; [done|]. by apply default_outcome.
Qed.

Lemma step_dot_inv (s : cu) (ch : Z) :
  inv_cu s → plain_of (cu_state s) = sw_dot → outcome_inv (step_dot s ch).
Proof.
  intros Hs Hst. unfold step_dot. destruct (usual ch) eqn:Hu; [by apply usual_outcome|].
  pose proof (ext_outside_usual s Hs ltac:(congruence)) as Hx.
  pose proof Hs as (Hn & Ht & He). rewrite Hst in Ht. simpl in Ht.
  destruct Ht as [k Hk]. simpl in Hk.
  destruct (Z.eqb_spec ch 47) as [->|].
  { simpl. unfold goto, set_u. simpl. rewrite Hx, Hk. apply inv_goto; [|done].
    eapply no_dots_suffix; [done|]. rewrite Hk. by exists [46]. }
  destruct (Z.eqb_spec ch 46) as [->|].
  { simpl. unfold push. rewrite Hx. apply inv_goto; [by apply no_dots_push|].
    rewrite Hk. by exists k. }
  destruct (Z.eqb_spec ch 37) as [->|]; [by apply inv_start_quoted|].
  destruct (Z.eqb_spec ch 63) as [->|]; [done|].
  destruct (Z.eqb_spec ch 35) as [->|]; [done|]. by apply default_outcome.
Qed.

Lemma step_dot_dot_inv (s : cu) (ch : Z) :
  inv_cu s → plain_of (cu_state s) = sw_dot_dot → outcome_inv (step_dot_dot s ch).
Proof.
  intros Hs Hst. unfold step_dot_dot. destruct (usual ch) eqn:Hu; [by apply usual_outcome|].
  pose proof (ext_outside_usual s Hs ltac:(congruence)) as Hx.
  pose proof Hs as (Hn & _ & _).
  destruct (Z.eqb_spec ch 47) as [->|].
  { destruct (back_to_slash _) as [v|] eqn:Ev; [|done].
    apply back_to_slash_spec in Ev as [Hv Hh].
    simpl. unfold goto, set_u. simpl. rewrite Hx. apply inv_goto; [|done].
    eapply no_dots_suffix; [done|]. etrans; [done|]. apply suffix_drop. }
  destruct (Z.eqb_spec ch 37) as [->|]; [by apply inv_start_quoted|].
  destruct (Z.eqb_spec ch 63) as [->|]; [done|].
  destruct (Z.eqb_spec ch 35) as [->|]; [done|]. apply default_outcome; auto.
Qed.

Lemma step_plain_inv (m : bool) (st : pstate) (s : cu) (ch : Z) :
  inv_cu s → plain_of (cu_state s) = st → outcome_inv (step_plain m st s ch).
Proof.
  destruct st; simpl; eauto using step_usual_inv, step_slash_inv, step_dot_inv,
    step_dot_dot_inv.
Qed.

Lemma step_inv (m : bool) (s : cu) (p : nat) (ch : Z) :
  inv_cu s → outcome_inv (step m s p ch).
Proof.
  intros Hs. unfold step. destruct (cu_state s) as [st|q|q d] eqn:Est.
  - apply step_plain_inv; [done|by rewrite Est].
  - pose proof Hs as (H1 & H2 & H3). rewrite Est in H2, H3.
    unfold step_quoted. cbv zeta. split_ifs; [split; [done|split; done]..|done].
  - assert (Hpush : ∀ c, c ≠ 47 → c ≠ 46 → outcome_inv (inl (push s sw_usual c))).
    { intros c ? ?. apply inv_push_usual; [done..|congruence]. }
    unfold step_quoted_second. cbv zeta.
    destruct (_ && _); [|destruct (_ && _); [|done]].
    + destruct (_ || _) eqn:E; [apply Hpush; lia|]. destruct (_ =? 0); [done|].
      apply step_plain_inv; [done|by rewrite Est].
    + destruct (_ =? 63) eqn:E; [apply Hpush; lia|].
      apply step_plain_inv; match goal with |- context [?x =? 43] => destruct (x =? 43) end;
        [exact Hs..|simpl; by rewrite Est|by rewrite Est].
Qed.

(** ** The output starts at the root and is not longer than the input *)

Lemma last_suffix (v u : bytes) : v `suffix_of` u → v ≠ [] → last u = last v.
Proof.
  intros [p ->] Hv. rewrite last_app. destruct (last v) eqn:E; [done|].
  by apply last_None in E.
Qed.

Lemma last_push (u : bytes) (c x : Z) : last u = Some x → last (c :: u) = Some x.
Proof. intros H. rewrite last_cons. by rewrite H. Qed.

Definition rooted (n : nat) (s : cu) : Prop :=
  last (cu_u s) = Some "/"%ch ∧ (length (cu_u s) <= n)%nat.

Definition outcome_rooted (n : nat) (o : cu + cu_exit) : Prop :=
  match o with
  | inl s => rooted n s
  | inr cu_invalid => True
  | inr (cu_done s) | inr (cu_args s) => rooted n s
  end.

Lemma rooted_push (n : nat) (s : cu) (st : pstate) (c : Z) :
  rooted n s → rooted (n + 1) (push s st c).
Proof. intros [H1 H2]. split; [by apply last_push|simpl; lia]. Qed.

Lemma rooted_suffix (n : nat) (s : cu) (st : pstate) (v : bytes) :
  rooted n s → v `suffix_of` cu_u s → v ≠ [] → rooted (n + 1) (goto (set_u s v) st).
Proof.
  intros [H1 H2] Hv Hne. split; simpl.
  - by rewrite <- (last_suffix v (cu_u s)).
  - apply suffix_length in Hv. lia.
Qed.

Lemma rooted_weaken (n : nat) (s s' : cu) :
  rooted n s → cu_u s' = cu_u s → rooted (n + 1) s'.
Proof. intros [H1 H2] E. unfold rooted. rewrite E. split; [done|lia]. Qed.

Lemma default_rooted (n : nat) (s : cu) (ch : Z) :
  rooted n s → outcome_rooted (n + 1) (default_case s ch).
Proof. intros H. unfold default_case. destruct (ch =? 43); by apply rooted_push. Qed.

Lemma step_plain_rooted (m : bool) (st : pstate) (s : cu) (ch : Z) (n : nat) :
  inv_cu s → plain_of (cu_state s) = st → rooted n s →
  outcome_rooted (n + 1) (step_plain m st s ch).
Proof.
  intros Hs Hst Hr. pose proof Hs as (_ & Ht & _). rewrite Hst in Ht.
  pose proof (rooted_weaken n s) as Hw. pose proof (default_rooted n s ch Hr) as Hdef.
  assert (Hp : ∀ st c, outcome_rooted (n + 1) (inl (push s st c)))
    by (intros; by apply rooted_push).
  destruct st; simpl; unfold step_usual, step_slash, step_dot, step_dot_dot;
    (destruct (usual ch); [by apply Hp|]).
  - split_ifs; try apply Hdef; try apply Hp; try (by apply Hw).
    + by apply (rooted_push n (set_ext s None)).
    + by apply (rooted_push n (set_ext s _)).
  - split_ifs; try apply Hdef; try apply Hp; by apply Hw.
  - destruct Ht as [k Hk]. simpl in Hk.
    split_ifs; try apply Hdef; try apply Hp; try (by apply Hw).
    apply rooted_suffix; [done|..]; rewrite Hk; simpl; [by exists [46]|done].
  - destruct (ch =? 47); [|split_ifs; try apply Hdef; by apply Hw].
    destruct (back_to_slash _) as [v|] eqn:Ev; [|done].
    apply back_to_slash_spec in Ev as [Hv Hh]. apply rooted_suffix; [done|..].
    + etrans; [exact Hv|apply suffix_drop].
    + by intros ->.
Qed.

Lemma step_rooted (m : bool) (s : cu) (p : nat) (ch : Z) (n : nat) :
  inv_cu s → rooted n s → outcome_rooted (n + 1) (step m s p ch).
Proof.
  intros Hs Hr. unfold step. destruct (cu_state s) as [st|q|q d] eqn:Est.
  - by apply step_plain_rooted; rewrite ?Est.
  - unfold step_quoted. cbv zeta. split_ifs; [by apply (rooted_weaken n s)..|done].
  - unfold step_quoted_second. cbv zeta.
    destruct (_ && _); [|destruct (_ && _); [|done]].
    + destruct (_ || _); [by apply rooted_push|]. destruct (_ =? 0); [done|].
      by apply step_plain_rooted; rewrite ?Est.
    + destruct (_ =? 63); [by apply rooted_push|].
      match goal with |- context [?x =? 43] => destruct (x =? 43) end;
        by apply step_plain_rooted; simpl; rewrite ?Est.
Qed.

(** ** The main property *)

Definition good (s : cu) (p : nat) : Prop := inv_cu s ∧ rooted p s.

Lemma run_good (m : bool) (l : bytes) :
  match mrun (step m) cu_init 0 ("/"%ch :: l) with
  | inl s => good s (S (length l))
  | inr (cu_invalid, _) => True
  | inr (cu_done s, p) | inr (cu_args s, p) => good s (S (length l))
  end.
Proof.
  cbn [mrun]. change (step m cu_init 0 47) with (inl (A := cu) (B := cu_exit)
    (mk_cu (sw_plain sw_slash) [47] None false false)).
  set (s1 := mk_cu _ _ _ _ _). cbv iota beta.
  assert (H1 : good s1 1).
  { split; [|by split; [|simpl; lia]]. apply inv_goto; [|done].
    split; (apply no_infix_cons; [by apply no_infix_nil|]); intros [k Hk]; by inv Hk. }
  assert (Hstep : ∀ s p ch s', ch ∈ l → good s p → step m s p ch = inl s' → good s' (p + 1)).
  { intros s p ch s' _ [Hi Hr] E. split.
    - pose proof (step_inv m s p ch Hi) as H. by rewrite E in H.
    - pose proof (step_rooted m s p ch p Hi Hr) as H. by rewrite E in H. }
  destruct (mrun (step m) s1 (0 + 1) l) as [s|[r q]] eqn:E.
  - apply (mrun_invariant (step m) good s1 1 l Hstep H1 s E).
  - destruct (mrun_result_invariant (step m) good s1 1 l Hstep H1 r q E)
      as (s & ch & _ & [Hi Hr] & Es & Hq).
    pose proof (step_inv m s q ch Hi) as Hi'. pose proof (step_rooted m s q ch q Hi Hr) as Hr'.
    rewrite Es in Hi', Hr'. unfold good, rooted in *.
    destruct r as [|s'|s']; [done|split; [done|]..]; destruct Hr'; split; (done || lia).
Qed.

(** A normalised URI: rooted, without a complete dot segment. *)
Definition normalised (u : bytes) : Prop :=
  head u = Some "/"%ch ∧ no_infix (bs "/./") u ∧ no_infix (bs "/../") u.

Lemma good_finish (s : cu) (n : nat) (a : option bytes) (st : option nat) :
  good s n → normalised (uri (finish s a st)) ∧ (length (uri (finish s a st)) <= n)%nat.
Proof.
  intros [((H1 & H2) & _) [Hl Hn]]. unfold normalised. simpl. rewrite head_reverse, length_reverse.
  split_and!; try done.
  - by apply no_infix_reverse in H1.
  - by apply no_infix_reverse in H2.
Qed.

(** C37. Whatever mixture of slashes, dot segments and percent-encoding a client
    sends, the path that [ngx_http_parse_complex_uri] accepts starts with ["/"], has
    no ["/./"] and no ["/../"] in it, and fits the buffer of the raw URI. *)
Theorem ngx_http_parse_complex_uri_normalised (l : bytes) (m : bool) (r : uri_result) :
  ngx_http_parse_complex_uri ("/"%ch :: l) m = Some r →
  normalised (uri r) ∧ (length (uri r) <= S (length l))%nat.
Proof.
  unfold ngx_http_parse_complex_uri. pose proof (run_good m l) as H.
  destruct (mrun _ _ _ _) as [s|[[|s|s] p]]; try done.
  - intros [= <-]. by apply good_finish.
  - intros [= <-]. by apply good_finish.
  - destruct (until_hash _); intros [= <-]; by apply good_finish.
Qed.

Lemma ngx_http_parse_complex_uri_normalised_witness :
  normalised (bs "/a/c.html") ∧ (length (bs "/a/c.html") <= 23)%nat.
Proof.
  apply (ngx_http_parse_complex_uri_normalised (bs "x/%2e%2E/a/.//c.html?x") true
    (mk_uri (bs "/a/c.html") (Some (bs "html")) None (Some 22%nat) false true)).
  vm_compute. reflexivity.
Defined.

(** The last segment is not resolved: the loop ends with the URI, before the
    byte that would trigger the [..] rule.  ["/a/.."] is accepted as it is. *)
Theorem complex_uri_trailing_dot_dot (m : bool) :
  option_map uri (ngx_http_parse_complex_uri (bs "/a/..") m) = Some (bs "/a/..")
  ∧ option_map uri (ngx_http_parse_complex_uri (bs "/a/../") m) = Some (bs "/").
Proof. by destruct m. Qed.

(** ** Decoding inverts escaping *)

(** The state after a byte of a segment, raw or percent-encoded. *)
Definition next_state (st : pstate) (c : Z) : pstate :=
  match st with
  | sw_slash => if c =? "."%ch then sw_dot else sw_usual
  | sw_dot => if c =? "."%ch then sw_dot_dot else sw_usual
  | _ => sw_usual
  end.

Definition seg_byte (c : Z) : Prop := is_byte c ∧ c ≠ 0 ∧ c ≠ "/"%ch.

(** [s'] is [s] after the byte [c] of a segment. *)
Definition wrote (st : pstate) (c : Z) (s s' : cu) : Prop :=
  cu_state s' = sw_plain (next_state st c) ∧ cu_u s' = c :: cu_u s.

Lemma step_plain_seg (m : bool) (st : pstate) (s : cu) (c : Z) :
  c ≠ "/"%ch → c ≠ "%"%ch → c ≠ "?"%ch → c ≠ "#"%ch →
  ∃ s', step_plain m st s c = inl s' ∧ wrote st c s s'.
Proof.
  intros H1 H2 H3 H4.
  assert (Hn : c ≠ "."%ch → next_state st c = sw_usual).
  { intros Hc. by destruct st; simpl; try (destruct (Z.eqb_spec c 46)). }
  assert (Hd : c ≠ "."%ch → ∃ s', default_case s c = inl s' ∧ wrote st c s s').
  { intros Hc. unfold default_case, wrote. rewrite (Hn Hc).
    eexists. split; [done|]. by destruct (c =? 43). }
  assert (Hp : ∀ st', next_state st c = st' →
               ∃ s', inl (B := cu_exit) (push s st' c) = inl s' ∧ wrote st c s s').
  { intros st' <-. by exists (push s (next_state st c) c). }
  destruct (usual c) eqn:E.
  { destruct (usual_not_special c E) as (_ & Hdot & _).
    destruct st; simpl; unfold step_usual, step_slash, step_dot, step_dot_dot; rewrite E;
      by apply Hp, Hn. }
  destruct st; simpl; unfold step_usual, step_slash, step_dot, step_dot_dot; rewrite E;
    rewrite (proj2 (Z.eqb_neq c 47)), (proj2 (Z.eqb_neq c 37)), (proj2 (Z.eqb_neq c 63)),
      (proj2 (Z.eqb_neq c 35)) by done;
    destruct (Z.eqb_spec c 46) as [->|]; try (by apply Hd); try (by apply Hp).
  eexists. split; [done|]. by split.
Qed.

Lemma hex_upper_cases (v : Z) :
  0 <= v < 16 →
  (v < 10 ∧ hex_digit hex_upper v = 48 + v) ∨ (10 <= v ∧ hex_digit hex_upper v = 55 + v).
Proof.
  intros Hv. by apply (range_check_prop 16 (fun v =>
    (v < 10 ∧ hex_digit hex_upper v = 48 + v) ∨ (10 <= v ∧ hex_digit hex_upper v = 55 + v))).
Qed.

(** [ch | 0x20] turns the upper-case digits into lower-case ones. *)
Lemma lor_upper (v : Z) : 10 <= v < 16 → u_char (Z.lor (55 + v) 32) = 87 + v.
Proof.
  intros Hv. assert (H : v = 10 ∨ v = 11 ∨ v = 12 ∨ v = 13 ∨ v = 14 ∨ v = 15) by lia.
  by destruct H as [->|[->|[->|[->|[->| ->]]]]].
Qed.

Lemma step_quoted_digit (q : pstate) (s : cu) (v : Z) :
  0 <= v < 16 →
  step_quoted q s (hex_digit hex_upper v) =
  inl (mk_cu (sw_quoted_second q v) (cu_u s) (cu_uri_ext s) (cu_plus_in_uri s) true).
Proof.
  intros Hv. unfold step_quoted. cbv zeta. simpl.
  destruct (hex_upper_cases v Hv) as [[Hlt ->]|[Hge ->]].
  - replace ((48 + v >=? 48) && (48 + v <=? 57)) with true by lia.
    rewrite u_char_id by (unfold is_byte; lia). do 3 f_equal. lia.
  - replace ((55 + v >=? 48) && (55 + v <=? 57)) with false by lia.
    rewrite lor_upper by lia.
    replace ((87 + v >=? 97) && (87 + v <=? 102)) with true by lia.
    rewrite u_char_id by (unfold is_byte; lia). do 3 f_equal. lia.
Qed.

Lemma step_quoted_second_seg (m : bool) (q : pstate) (hi lo : Z) (s : cu) (c : Z) :
  0 <= hi < 16 → 0 <= lo < 16 → c = hi * 16 + lo → seg_byte c →
  ∃ s', step_quoted_second m q hi s (hex_digit hex_upper lo) = inl s' ∧ wrote q c s s'.
Proof.
  intros Hhi Hlo Hc (Hb & Hz & Hs).
  assert (Hpush : (c =? 37) || (c =? 35) || (c =? 63) = true →
                  wrote q c s (push s sw_usual c)).
  { intros H. split; [|done]. simpl. unfold next_state.
    destruct (Z.eqb_spec c 46); [lia|]. by destruct q. }
  unfold step_quoted_second. cbv zeta. rewrite Z.shiftl_mul_pow2 by lia. change (2 ^ 4) with 16.
  destruct (hex_upper_cases lo Hlo) as [[Hlt ->]|[Hge ->]].
  - replace ((48 + lo >=? 48) && (48 + lo <=? 57)) with true by lia.
    replace (hi * 16 + (48 + lo - 48)) with c by lia. rewrite u_char_id by done.
    destruct ((c =? 37) || (c =? 35)) eqn:E; [eexists; split; [done|apply Hpush; lia]|].
    destruct (Z.eqb_spec c 0); [done|]. apply step_plain_seg; [done|lia..].
  - replace ((55 + lo >=? 48) && (55 + lo <=? 57)) with false by lia.
    rewrite lor_upper by lia.
    replace ((87 + lo >=? 97) && (87 + lo <=? 102)) with true by lia.
    replace (hi * 16 + (87 + lo - 97) + 10) with c by lia. rewrite u_char_id by done.
    destruct (Z.eqb_spec c 63); [eexists; split; [done|apply Hpush; lia]|].
    destruct (step_plain_seg m q (if c =? 43 then set_plus s else s) c) as (s' & E & H1 & H2);
      [done|lia..|].
    exists s'. split; [done|]. split; [done|]. rewrite H2. by destruct (c =? 43).
Qed.

(** The escaped form of one byte. *)
Definition esc (c : Z) : bytes := escape_uri_write escape_uri_tbl [c].

Lemma escape_uri_cons (c : Z) (s : bytes) :
  ngx_escape_uri (c :: s) NGX_ESCAPE_URI = esc c ++ ngx_escape_uri s NGX_ESCAPE_URI.
Proof. unfold ngx_escape_uri, esc. cbn [escape_uri_write escape_map]. by rewrite app_nil_r. Qed.

Lemma run_esc (m : bool) (st : pstate) (s : cu) (p : nat) (c : Z) (tl : bytes) :
  seg_byte c → cu_state s = sw_plain st →
  ∃ s' p', mrun (step m) s p (esc c ++ tl) = mrun (step m) s' p' tl ∧ wrote st c s s'.
Proof.
  intros Hc Hst. pose proof Hc as (Hb & Hz & Hs). unfold esc. cbn [escape_uri_write].
  destruct (bitmap_test escape_uri_tbl c) eqn:E; cbn [app].
  - destruct (nibbles c Hb) as (H1 & H2 & H3).
    assert (Hq : step_plain m st s 37 = inl (start_quoted s st)) by (by destruct st).
    cbn [mrun]. unfold step at 1. rewrite Hst, Hq.
    unfold step at 1. cbn [start_quoted cu_state]. rewrite step_quoted_digit by done.
    unfold step at 1. cbn [cu_state].
    destruct (step_quoted_second_seg m st (Z.shiftr c 4) (Z.land c 15)
      (mk_cu (sw_quoted_second st (Z.shiftr c 4)) (cu_u (start_quoted s st))
         (cu_uri_ext (start_quoted s st)) (cu_plus_in_uri (start_quoted s st)) true) c)
      as (s' & -> & Hw); [done..|].
    exists s'. by eexists.
  - cbn [mrun]. unfold step at 1. rewrite Hst.
    destruct (step_plain_seg m st s c) as (s' & -> & Hw); [done|..|by exists s'; eexists].
    all: intros ->; by vm_compute in E.
Qed.

(** A segment of a clean path: not empty, not a dot segment. *)
Definition seg_ok (seg : bytes) : Prop :=
  Forall seg_byte seg ∧ seg ≠ [] ∧ seg ≠ bs "." ∧ seg ≠ bs "..".

Definition path_of (segs : list bytes) : bytes := concat (map (cons "/"%ch) segs).

Fixpoint run_states (st : pstate) (seg : bytes) : pstate :=
  match seg with [] => st | c :: seg' => run_states (next_state st c) seg' end.

Lemma escape_uri_app (a b : bytes) :
  ngx_escape_uri (a ++ b) NGX_ESCAPE_URI =
  ngx_escape_uri a NGX_ESCAPE_URI ++ ngx_escape_uri b NGX_ESCAPE_URI.
Proof.
  induction a as [|c a IH]; [done|]. cbn [app]. by rewrite !escape_uri_cons, IH, app_assoc.
Qed.

Lemma run_segment (m : bool) (seg tl : bytes) (st : pstate) (s : cu) (p : nat) :
  Forall seg_byte seg → cu_state s = sw_plain st →
  ∃ s' p', mrun (step m) s p (ngx_escape_uri seg NGX_ESCAPE_URI ++ tl) = mrun (step m) s' p' tl
           ∧ cu_state s' = sw_plain (run_states st seg)
           ∧ cu_u s' = reverse seg ++ cu_u s.
Proof.
  intros Hseg. revert st s p. induction Hseg as [|c seg Hc Hseg IH]; intros st s p Hst.
  - by exists s, p.
  - rewrite escape_uri_cons, <- app_assoc.
    destruct (run_esc m st s p c (ngx_escape_uri seg NGX_ESCAPE_URI ++ tl) Hc Hst)
      as (s1 & p1 & -> & H1 & H2).
    destruct (IH _ s1 p1 H1) as (s2 & p2 & -> & H3 & H4).
    exists s2, p2. split_and!; [done..|]. by rewrite H4, H2, reverse_cons, <- app_assoc.
Qed.

Lemma run_states_usual (seg : bytes) : run_states sw_usual seg = sw_usual.
Proof. by induction seg. Qed.

Lemma run_states_seg (seg : bytes) : seg_ok seg → run_states sw_slash seg = sw_usual.
Proof.
  intros (_ & H1 & H2 & H3). destruct seg as [|a [|b [|c seg]]]; [done|..];
    repeat (simpl; rewrite ?run_states_usual;
            match goal with |- context [?x =? 46] => destruct (Z.eqb_spec x 46) as [->|] end);
    simpl; rewrite ?run_states_usual; done.
Qed.

(** Escaping a clean path with [NGX_ESCAPE_URI] and parsing it back is the
    identity: every byte survives, whatever its encoding. *)
Theorem complex_uri_escape_roundtrip (segs : list bytes) (m : bool) :
  Forall seg_ok segs →
  option_map uri
    (ngx_http_parse_complex_uri (ngx_escape_uri (path_of segs) NGX_ESCAPE_URI) m)
  = Some (path_of segs).
Proof.
  intros Hsegs. unfold ngx_http_parse_complex_uri.
  assert (H : ∀ s p, cu_state s = sw_plain sw_usual → ∃ s',
    mrun (step m) s p (ngx_escape_uri (path_of segs) NGX_ESCAPE_URI) = inl s'
    ∧ cu_u s' = reverse (path_of segs) ++ cu_u s).
  { induction Hsegs as [|seg segs Hseg Hsegs IH]; intros s p Hs; [by exists s|].
    unfold path_of in *. cbn [map concat app]. rewrite escape_uri_cons, escape_uri_app.
    change (esc 47) with [47]. cbn [app mrun]. unfold step at 1. rewrite Hs.
    change (step_plain m sw_usual s 47) with (inl (B := cu_exit) (push (set_ext s None) sw_slash 47)).
    destruct (run_segment m seg (ngx_escape_uri (concat (map (cons 47) segs)) NGX_ESCAPE_URI)
      sw_slash (push (set_ext s None) sw_slash 47) (p + 1)) as (s1 & p1 & -> & H1 & H2);
      [by destruct Hseg|done|].
    rewrite run_states_seg in H1 by done.
    destruct (IH s1 p1 H1) as (s2 & -> & H3). exists s2. split; [done|].
    rewrite H3, H2, reverse_cons, reverse_app. simpl. by rewrite <- !app_assoc. }
  destruct (H cu_init 0%nat eq_refl) as (s' & -> & Hu). simpl.
  by rewrite Hu, app_nil_r, reverse_involutive.
Qed.

Lemma complex_uri_escape_roundtrip_witness :
  option_map uri
    (ngx_http_parse_complex_uri
       (ngx_escape_uri (path_of [bs "a b"; bs "..c%?"; [200; 35]]) NGX_ESCAPE_URI) true)
  = Some (path_of [bs "a b"; bs "..c%?"; [200; 35]]).
Proof.
  apply (complex_uri_escape_roundtrip [bs "a b"; bs "..c%?"; [200; 35]] true).
  solve_forall ltac:(split; [solve_forall ltac:(split_and!; unfold is_byte; lia)|done]).
Defined.

End ComplexUri.
