(* ===== verification/HttpRawUri.v ===== *)
(** * Raw URIs and their arguments

    The functions of src/nginx-master/src/http/ngx_http_parse.c that look at a
    URI without rewriting it: [ngx_http_parse_uri] (the scan that decides
    whether the URI needs [ngx_http_parse_complex_uri]),
    [ngx_http_parse_unsafe_uri] (URIs that come from an upstream header or from
    the configuration), [ngx_http_split_args] and [ngx_http_arg] (the
    [$arg_name] variables).  [NGX_WIN32] is not defined. *)

From S2P Require Import Prelude NgxNumber NgxEscape NgxCompare HttpUri.

Open Scope Z_scope.

(** ** The flags of [ngx_http_request_t] that describe the raw URI *)

Record uri_flags := mk_flags {
  f_uri_ext : option nat;       (* r->uri_ext, an offset *)
  f_args_start : option nat;    (* r->args_start, an offset *)
  f_complex_uri : bool;
  f_quoted_uri : bool;
  f_plus_in_uri : bool;
  f_space_in_uri : bool
}.

Definition no_flags : uri_flags := mk_flags None None false false false false.

Definition with_ext (f : uri_flags) (e : option nat) : uri_flags :=
  mk_flags e (f_args_start f) (f_complex_uri f) (f_quoted_uri f) (f_plus_in_uri f)
    (f_space_in_uri f).
Definition with_args (f : uri_flags) (a : nat) : uri_flags :=
  mk_flags (f_uri_ext f) (Some a) (f_complex_uri f) (f_quoted_uri f) (f_plus_in_uri f)
    (f_space_in_uri f).
Definition with_complex (f : uri_flags) : uri_flags :=
  mk_flags (f_uri_ext f) (f_args_start f) true (f_quoted_uri f) (f_plus_in_uri f)
    (f_space_in_uri f).
Definition with_quoted (f : uri_flags) : uri_flags :=
  mk_flags (f_uri_ext f) (f_args_start f) (f_complex_uri f) true (f_plus_in_uri f)
    (f_space_in_uri f).
Definition with_plus (f : uri_flags) : uri_flags :=
  mk_flags (f_uri_ext f) (f_args_start f) (f_complex_uri f) (f_quoted_uri f) true
    (f_space_in_uri f).
Definition with_space (f : uri_flags) : uri_flags :=
  mk_flags (f_uri_ext f) (f_args_start f) (f_complex_uri f) (f_quoted_uri f)
    (f_plus_in_uri f) true.

(** ** ngx_http_parse_uri *)

Module RawUri.

Inductive state := sw_start | sw_after_slash_in_uri | sw_check_uri | sw_uri.

Definition step_after_slash (f : uri_flags) (p : nat) (ch : Z) : state * uri_flags :=
  if usual ch then (sw_check_uri, f)
  else if ch =? " "%ch then (sw_check_uri, with_space f)
  else if ch =? "."%ch then (sw_uri, with_complex f)
  else if ch =? "%"%ch then (sw_uri, with_quoted f)
  else if ch =? "/"%ch then (sw_uri, with_complex f)
  else if ch =? "?"%ch then (sw_uri, with_args f (p + 1))
  else if ch =? "#"%ch then (sw_uri, with_complex f)
  else if ch =? "+"%ch then (sw_after_slash_in_uri, with_plus f)
  else (sw_check_uri, f).

Definition step_check_uri (f : uri_flags) (p : nat) (ch : Z) : state * uri_flags :=
  if usual ch then (sw_check_uri, f)
  else if ch =? "/"%ch then (sw_after_slash_in_uri, with_ext f None)
  else if ch =? "."%ch then (sw_check_uri, with_ext f (Some (p + 1)%nat))
  else if ch =? " "%ch then (sw_check_uri, with_space f)
  else if ch =? "%"%ch then (sw_uri, with_quoted f)
  else if ch =? "?"%ch then (sw_uri, with_args f (p + 1))
  else if ch =? "#"%ch then (sw_uri, with_complex f)
  else if ch =? "+"%ch then (sw_check_uri, with_plus f)
  else (sw_check_uri, f).

Definition step_uri (f : uri_flags) (ch : Z) : state * uri_flags :=
  if usual ch then (sw_uri, f)
  else if ch =? " "%ch then (sw_uri, with_space f)
  else if ch =? "#"%ch then (sw_uri, with_complex f)
  else (sw_uri, f).

Definition step (s : state * uri_flags) (p : nat) (ch : Z) : (state * uri_flags) + Z :=
  let '(st, f) := s in
  match st with
  | sw_start =>
      if negb (ch =? "/"%ch) then inr NGX_ERROR else inl (sw_after_slash_in_uri, f)
  | sw_after_slash_in_uri => inl (step_after_slash f p ch)
  | sw_check_uri => inl (step_check_uri f p ch)
  | sw_uri => inl (step_uri f ch)
  end.

(** [f] are the flags the request has before the call. *)
Definition ngx_http_parse_uri (uri : bytes) (f : uri_flags) : uri_flags + Z :=
  match mrun step (sw_start, f) 0 uri with
  | inl (_, f) => inl f
  | inr (rc, _) => inr rc
  end.

End RawUri.

(** ** ngx_http_parse_unsafe_uri *)

Definition ngx_path_separator (c : Z) : bool := c =? "/"%ch.

(** [p[0] == '.' && p[1] == '.' && (len == 2 || ngx_path_separator(p[2]))], where
    [len] is the number of bytes from [p] on. *)
Definition dot_dot_at (p : bytes) : bool :=
  match p with
  | c0 :: c1 :: rest =>
      (c0 =? "."%ch) && (c1 =? "."%ch)
      && match rest with [] => true | c2 :: _ => ngx_path_separator c2 end
  | _ => false
  end.

(** The first loop: [None] is [goto unsafe]; otherwise the flag [quoted], the
    bytes before a ["?"] and the arguments after it. *)
Fixpoint unsafe_scan (quoted : bool) (p : bytes) : option (bool * bytes * option bytes) :=
  match p with
  | [] => Some (quoted, [], None)
  | ch :: p' =>
      let next q := (fun '(q, u, a) => (q, ch :: u, a)) <$> unsafe_scan q p' in
      if ch =? "%"%ch then next true
      else if usual ch then next quoted
      else if ch =? "?"%ch then Some (quoted, [], Some p')
      else if ch =? 0 then None
      else if ngx_path_separator ch && dot_dot_at p' then None
      else next quoted
  end.

(** The second loop, over the unescaped URI: [true] is [goto unsafe]. *)
Fixpoint unsafe_rescan (p : bytes) : bool :=
  match p with
  | [] => false
  | ch :: p' =>
      if ch =? 0 then true
      else if ngx_path_separator ch && dot_dot_at p' then true
      else unsafe_rescan p'
  end.

Inductive unsafe_result :=
  | uri_unsafe                                    (* NGX_ERROR, logged on demand *)
  | uri_nomem                                     (* NGX_ERROR from ngx_pnalloc *)
  | uri_safe (uri : bytes) (args : option bytes). (* NGX_OK; [args] if they were set *)

Definition ngx_http_parse_unsafe_uri (alloc : bool) (uri : bytes) : unsafe_result :=
  match uri with
  | [] => uri_unsafe
  | c :: _ =>
      if c =? "?"%ch then uri_unsafe
      else if dot_dot_at uri then uri_unsafe
      else
        match unsafe_scan false uri with
        | None => uri_unsafe
        | Some (false, u, args) => uri_safe u args
        | Some (true, u, args) =>
            if alloc then
              let u := fst (ngx_unescape_uri u 0) in
              if dot_dot_at u || unsafe_rescan u then uri_unsafe else uri_safe u args
            else uri_nomem
        end
  end.

(** ** ngx_http_split_args *)

Definition ngx_http_split_args (uri : bytes) : option (bytes * bytes) :=
  match ngx_strlchr uri (length uri) "?"%ch with
  | None => None
  | Some (Some p) => Some (take p uri, drop (p + 1) uri)
  | Some None => Some (uri, [])
  end.

(** ** ngx_http_arg

    [None] is a read outside the two strings, [Some None] is [NGX_DECLINED].
    Every turn of the loop moves [p] on, so [length args] turns are enough. *)

Fixpoint http_arg_loop (fuel : nat) (args name : bytes) (p : nat) : option (option bytes) :=
  match fuel with
  | O => None
  | S fuel =>
      let last := length args in
      let len := length name in
      if (p <? last)%nat then
        match ngx_strlcasestrn (drop p args) (last - 1 - p) name (len - 1) with
        | None => None
        | Some None => Some None
        | Some (Some k) =>
            let p := (p + k)%nat in
            match args !! (p + len)%nat with
            | None => None
            | Some c =>
                if ((p =? 0)%nat || bool_decide (args !! (p - 1)%nat = Some "&"%ch))
                   && (c =? "="%ch)
                then
                  let data := (p + len + 1)%nat in
                  match ngx_strlchr (drop p args) (last - p) "&"%ch with
                  | None => None
                  | Some None => Some (Some (sub args data (last - data)))
                  | Some (Some k) => Some (Some (sub args data (p + k - data)))
                  end
                else http_arg_loop fuel args name (p + 1)
            end
        end
      else Some None
  end.

Definition ngx_http_arg (args name : bytes) : option (option bytes) :=
  match args with
  | [] => Some None
  | _ => http_arg_loop (S (length args)) args name 0
  end.

(** * Theorems *)

(** ** The fast path of URI parsing

    [ngx_http_process_request_uri] copies the raw path when neither
    [complex_uri] nor [quoted_uri] is set. *)

Module FastPath.
Import RawUri.

Definition sticky (s : state * uri_flags) : bool :=
  f_complex_uri (snd s) || f_quoted_uri (snd s).

Lemma step_sticky (s s' : state * uri_flags) (p : nat) (ch : Z) :
  step s p ch = inl s' → sticky s = true → sticky s' = true.
Proof.
  destruct s as [[] f]; unfold step, step_after_slash, step_check_uri, step_uri, sticky; simpl;
    intros E H; split_ifs_in E; inv E; simpl; by rewrite ?orb_true_r.
Qed.

Lemma run_sticky (s s' : state * uri_flags) (p : nat) (l : bytes) :
  mrun step s p l = inl s' → sticky s = true → sticky s' = true.
Proof.
  revert s p. induction l as [|ch l IH]; intros s p E H; simpl in E; [by inv E|].
  destruct (step s p ch) as [s1|] eqn:E1; [|done]. eapply IH; [done|]. by eapply step_sticky.
Qed.

(** Inside the arguments nothing but ["#"] matters. *)
Lemma run_args (f : uri_flags) (s' : state * uri_flags) (p : nat) (l : bytes) :
  mrun step (sw_uri, f) p l = inl s' → sticky s' = false →
  ComplexUri.until_hash l = None
  ∧ f_args_start (snd s') = f_args_start f
  ∧ f_uri_ext (snd s') = f_uri_ext f ∧ f_plus_in_uri (snd s') = f_plus_in_uri f.
Proof.
  revert f p. induction l as [|ch l IH]; intros f p E Hs; cbn [mrun] in E; [by inv E|].
  cbn [step] in E. unfold step_uri in E. cbn [ComplexUri.until_hash].
  assert (Hu : usual ch = true → ch ≠ 35) by (by intros H ->).
  destruct (Z.eqb_spec ch 35) as [->|].
  { exfalso. apply run_sticky in E; [congruence|done]. }
  destruct (IH (if usual ch then f else if ch =? 32 then with_space f else f) (p + 1)%nat)
    as (-> & H1 & H2 & H3); [|done|].
  { rewrite <- E. by destruct (usual ch), (ch =? 32). }
  split; [done|]. rewrite H1, H2, H3. by destruct (usual ch), (ch =? 32).
Qed.

(** The raw scan and the rewriting parser, side by side. *)
Definition sim (st : state) (f : uri_flags) (s : ComplexUri.cu) (p : nat) : Prop :=
  match st with
  | sw_after_slash_in_uri =>
      ComplexUri.cu_state s = ComplexUri.sw_plain ComplexUri.sw_slash
      ∨ ComplexUri.cu_state s = ComplexUri.sw_plain ComplexUri.sw_usual
  | sw_check_uri => ComplexUri.cu_state s = ComplexUri.sw_plain ComplexUri.sw_usual
  | _ => False
  end
  ∧ f_uri_ext f = ComplexUri.cu_uri_ext s
  ∧ f_plus_in_uri f = ComplexUri.cu_plus_in_uri s
  ∧ length (ComplexUri.cu_u s) = p
  ∧ f_args_start f = None
  ∧ ComplexUri.cu_quoted_uri s = false.

(** What the rewriting parser gives on the rest [l] of a plain URI. *)
Definition copied (m : bool) (s : ComplexUri.cu) (p : nat) (l : bytes) (f : uri_flags) : Prop :=
  match mrun (ComplexUri.step m) s p l with
  | inl s' =>
      f_args_start f = None
      ∧ ComplexUri.cu_u s' = reverse l ++ ComplexUri.cu_u s
      ∧ f_uri_ext f = ComplexUri.cu_uri_ext s'
      ∧ f_plus_in_uri f = ComplexUri.cu_plus_in_uri s'
      ∧ ComplexUri.cu_quoted_uri s' = false
  | inr (ComplexUri.cu_args s', q) =>
      (p <= q)%nat ∧ f_args_start f = Some (q + 1)%nat
      ∧ ComplexUri.cu_u s' = reverse (take (q - p) l) ++ ComplexUri.cu_u s
      ∧ ComplexUri.until_hash (drop (q + 1 - p) l) = None
      ∧ f_uri_ext f = ComplexUri.cu_uri_ext s'
      ∧ f_plus_in_uri f = ComplexUri.cu_plus_in_uri s'
      ∧ ComplexUri.cu_quoted_uri s' = false
  | inr _ => False
  end.

Lemma copied_push (m : bool) (s s' : ComplexUri.cu) (p : nat) (ch : Z) (l : bytes) (f : uri_flags) :
  ComplexUri.step m s p ch = inl s' → ComplexUri.cu_u s' = ch :: ComplexUri.cu_u s →
  copied m s' (p + 1) l f → copied m s p (ch :: l) f.
Proof.
  intros E Eu. unfold copied. cbn [mrun]. rewrite E.
  destruct (mrun _ s' (p + 1) l) as [t|[[|t|t] q]]; try done.
  - rewrite Eu, reverse_cons, <- app_assoc. done.
  - intros (H1 & H2 & H3 & H4 & H5). split; [lia|]. split; [done|].
    replace (q - p)%nat with (S (q - (p + 1))) by lia.
    replace (q + 1 - p)%nat with (S (q + 1 - (p + 1))) by lia.
    cbn [take drop]. rewrite reverse_cons, <- app_assoc, H3, Eu. done.
Qed.

Lemma copied_query (m : bool) (s : ComplexUri.cu) (p : nat) (l : bytes) (f : uri_flags) 
    (s' : state * uri_flags) :
  ComplexUri.step m s p "?"%ch = inr (ComplexUri.cu_args s) →
  f_uri_ext f = ComplexUri.cu_uri_ext s → f_plus_in_uri f = ComplexUri.cu_plus_in_uri s →
  ComplexUri.cu_quoted_uri s = false →
  mrun step (sw_uri, with_args f (p + 1)) (p + 1) l = inl s' → sticky s' = false →
  copied m s p ("?"%ch :: l) (snd s').
Proof.
  intros E He Hp Hqu Hrun Hs. apply run_args in Hrun as (H1 & H2 & H3 & H4); [|done].
  unfold copied. cbn [mrun]. rewrite E. split; [lia|]. split; [by rewrite H2|].
  replace (p - p)%nat with 0%nat by lia. replace (p + 1 - p)%nat with 1%nat by lia.
  rewrite H3, H4. done.
Qed.

(** A byte that neither parser treats specially is copied. *)
Lemma cu_plain (m : bool) (s : ComplexUri.cu) (p : nat) (ch : Z) :
  ComplexUri.cu_state s = ComplexUri.sw_plain ComplexUri.sw_slash
  ∨ ComplexUri.cu_state s = ComplexUri.sw_plain ComplexUri.sw_usual →
  ch ≠ "/"%ch → ch ≠ "."%ch → ch ≠ "%"%ch → ch ≠ "?"%ch → ch ≠ "#"%ch →
  ComplexUri.step m s p ch =
  inl (ComplexUri.push (if ch =? "+"%ch then ComplexUri.set_plus s else s)
         ComplexUri.sw_usual ch).
Proof.
  intros Hst H1 H2 H3 H4 H5. unfold ComplexUri.step.
  destruct (usual ch) eqn:Hu.
  - apply ComplexUri.usual_not_special in Hu as Hn. destruct Hn as (_ & _ & _ & _ & _ & Hn & _).
    rewrite (proj2 (Z.eqb_neq ch 43)) by done.
    destruct Hst as [-> | ->]; simpl; unfold ComplexUri.step_slash, ComplexUri.step_usual;
      by rewrite Hu.
  - destruct Hst as [-> | ->]; simpl; unfold ComplexUri.step_slash, ComplexUri.step_usual;
      rewrite Hu, (proj2 (Z.eqb_neq ch 47)), (proj2 (Z.eqb_neq ch 46)),
        (proj2 (Z.eqb_neq ch 37)), (proj2 (Z.eqb_neq ch 63)), (proj2 (Z.eqb_neq ch 35)) by done;
      done.
Qed.

(** One byte of the path: either the raw scan has set a sticky flag, or the
    arguments begin, or both parsers go on in related states. *)
Definition sim_next (m : bool) (f : uri_flags) (s : ComplexUri.cu) (p : nat) (ch : Z)
    (n : state * uri_flags) : Prop :=
  sticky n = true
  ∨ (ch = "?"%ch ∧ n = (sw_uri, with_args f (p + 1))
     ∧ ComplexUri.step m s p ch = inr (ComplexUri.cu_args s))
  ∨ ∃ s', ComplexUri.step m s p ch = inl s'
          ∧ ComplexUri.cu_u s' = ch :: ComplexUri.cu_u s ∧ sim (fst n) (snd n) s' (p + 1).

Lemma sim_next_plain (m : bool) (f f' : uri_flags) (s : ComplexUri.cu) (p : nat) (ch : Z)
    (st st' : state) :
  sim st f s p →
  ch ≠ "/"%ch → ch ≠ "."%ch → ch ≠ "%"%ch → ch ≠ "?"%ch → ch ≠ "#"%ch →
  st' = sw_after_slash_in_uri ∨ st' = sw_check_uri →
  f_uri_ext f' = f_uri_ext f → f_args_start f' = None →
  f_plus_in_uri f' = f_plus_in_uri f || (ch =? "+"%ch) →
  sim_next m f s p ch (st', f').
Proof.
  intros (Hst & Hx & Hp & Hl & Ha & Hqu) ? ? ? ? ? Hs He Has Hpl. right; right.
  eexists. split; [apply cu_plain; try done; by destruct st; auto|].
  split; [by destruct (ch =? 43)|]. unfold sim; simpl.
  split; [destruct Hs as [-> | ->]; simpl; auto|].
  rewrite He, Hpl, Hx, Hp.
  destruct (ch =? 43); simpl; rewrite ?orb_true_r, ?orb_false_r; split_and!; try done; lia.
Qed.

Lemma sim_step (m : bool) (st : state) (f : uri_flags) (s : ComplexUri.cu) (p : nat) (ch : Z) :
  sim st f s p →
  match step (st, f) p ch with inl n => sim_next m f s p ch n | inr _ => False end.
Proof.
  intros Hsim. pose proof (sim_next_plain m f) as Hplain.
  pose proof Hsim as (Hst & Hx & Hp & Hl & Ha & Hqu).
  assert (Hq : ch = "?"%ch → sim_next m f s p ch (sw_uri, with_args f (p + 1))).
  { intros ->. right; left. split; [done|]. split; [done|].
    unfold ComplexUri.step. by destruct st; try done; [destruct Hst as [-> | ->]|rewrite Hst]. }
  destruct (usual ch) eqn:Hu.
  { pose proof (ComplexUri.usual_not_special ch Hu) as (N1 & N2 & N3 & N4 & N5 & N6 & _).
    assert (H : sim_next m f s p ch (sw_check_uri, f)).
    { apply (Hplain f s p ch st); auto.
      rewrite (proj2 (Z.eqb_neq ch 43)) by done. by rewrite orb_false_r. }
    destruct st; [by destruct Hst|..|by destruct Hst]; simpl;
      unfold step_after_slash, step_check_uri; by rewrite Hu. }
  destruct st; [by destruct Hst| | |by destruct Hst]; cbn [step];
    unfold step_after_slash, step_check_uri; rewrite Hu.
  - split_ifs; try (by left; unfold sticky; simpl; rewrite ?orb_true_r);
      first [ apply Hq; lia
            | eapply Hplain; [exact Hsim|lia..|auto|done|done|]; simpl;
              lia || (destruct (Z.eqb_spec ch 43); [lia|]; by rewrite orb_false_r) ].
  - destruct (Z.eqb_spec ch 47) as [->|].
    { right; right. eexists. split; [unfold ComplexUri.step; by rewrite Hst|].
      split; [done|]. split; [by left|]. split_and!; simpl; try done; lia. }
    destruct (Z.eqb_spec ch 46) as [->|].
    { right; right. eexists. split; [unfold ComplexUri.step; by rewrite Hst|].
      split; [done|]. split; [done|]. simpl. rewrite Hl. split_and!; simpl; try done; lia. }
    split_ifs; try (by left; unfold sticky; simpl; rewrite ?orb_true_r);
      first [ apply Hq; lia
            | eapply Hplain; [exact Hsim|lia..|auto|done|done|]; simpl;
              lia || (destruct (Z.eqb_spec ch 43); [lia|]; by rewrite orb_false_r) ].
Qed.

Lemma sim_run (m : bool) (l : bytes) (st : state) (f : uri_flags) (s : ComplexUri.cu) (p : nat)
    (s' : state * uri_flags) :
  sim st f s p → mrun step (st, f) p l = inl s' → sticky s' = false → copied m s p l (snd s').
Proof.
  revert st f s p. induction l as [|ch l IH]; intros st f s p Hsim E Hs.
  { injection E as <-. destruct Hsim as (_ & ? & ? & ? & ? & ?). by split. }
  pose proof (sim_step m st f s p ch Hsim) as Hn. cbn [mrun] in E.
  destruct (step (st, f) p ch) as [[st' f']|]; [|done].
  destruct Hn as [Hn|[(-> & [= -> ->] & Hn)|(s1 & E1 & Eu & Hn)]].
  - exfalso. apply run_sticky in E; [congruence|done].
  - destruct Hsim as (_ & ? & ? & _ & _ & ?). by eapply copied_query.
  - eapply copied_push; [done..|]. by eapply IH.
Qed.

(** C38. When [ngx_http_parse_uri] reports neither a complex nor a quoted URI, the
    raw path that the server then uses as it is, its extension, its arguments and
    its [plus_in_uri] flag are those that [ngx_http_parse_complex_uri] would have
    computed: skipping the rewriting parser is sound. *)
Theorem parse_uri_fast_path (uri : bytes) (f : uri_flags) (m : bool) :
  RawUri.ngx_http_parse_uri uri no_flags = inl f → uri ≠ [] →
  f_complex_uri f = false → f_quoted_uri f = false →
  let path := match f_args_start f with None => uri | Some a => take (a - 1) uri end in
  ComplexUri.ngx_http_parse_complex_uri uri m =
  Some (ComplexUri.mk_uri path (option_map (fun e => drop e path) (f_uri_ext f)) None
          (f_args_start f) (f_plus_in_uri f) false).
Proof.
  unfold ngx_http_parse_uri. intros Hrun Hne Hc Hq.
  destruct (mrun step _ 0 uri) as [[st' f']|[]] eqn:E; [|done]. injection Hrun as ->.
  destruct uri as [|c l]; [done|]. cbn [mrun step] in E.
  destruct (Z.eqb_spec c 47) as [->|]; [|done]. cbn [negb] in E.
  assert (Hsim : sim sw_after_slash_in_uri no_flags
            (ComplexUri.mk_cu (ComplexUri.sw_plain ComplexUri.sw_slash) [47] None false false) 1)
    by (split; [by left|done]).
  apply (sim_run m _ _ _ _ _ _ Hsim) in E; [|unfold sticky; simpl; by rewrite Hc, Hq].
  unfold copied in E. unfold ComplexUri.ngx_http_parse_complex_uri.
  change (mrun (ComplexUri.step m) ComplexUri.cu_init 0 (47 :: l)) with
    (mrun (ComplexUri.step m)
       (ComplexUri.mk_cu (ComplexUri.sw_plain ComplexUri.sw_slash) [47] None false false) 1 l).
  destruct (mrun (ComplexUri.step m) _ 1 l) as [s|[[|s|s] q]]; [|done..|]; cbn [snd] in E.
  - destruct E as (E1 & E2 & E3 & E4 & E5). unfold ComplexUri.finish.
    cbv zeta. rewrite E1, E2, E3, E4, E5. cbn [ComplexUri.cu_u].
    rewrite reverse_app, reverse_involutive. by destruct (ComplexUri.cu_uri_ext s).
  - destruct E as (E0 & E1 & E2 & E6 & E3 & E4 & E5). unfold ComplexUri.finish.
    replace (drop (q + 1) (47 :: l)) with (drop (q + 1 - 1) l)
      by (replace (q + 1 - 1)%nat with q by lia; by replace (q + 1)%nat with (S q) by lia).
    rewrite E6. cbv zeta. rewrite E1, E2, E3, E4, E5. cbn [ComplexUri.cu_u].
    rewrite reverse_app, reverse_involutive.
    replace (q + 1 - 1)%nat with (S (q - 1)) by lia. by destruct (ComplexUri.cu_uri_ext s).
Qed.

Lemma parse_uri_fast_path_witness :
  ComplexUri.ngx_http_parse_complex_uri (bs "/a b/+c.txt?x=/../") true =
  Some (ComplexUri.mk_uri (bs "/a b/+c.txt") (Some (bs "txt")) None (Some 12%nat) true false).
Proof.
  apply (parse_uri_fast_path (bs "/a b/+c.txt?x=/../")
    (mk_flags (Some 8%nat) (Some 12%nat) false false true true) true); by vm_compute.
Defined.

End FastPath.

(** ** URIs that come from upstreams *)

Module UnsafeUri.

(** [b] can follow a segment of a path. *)
Definition seg_end (b : bytes) : Prop := b = [] ∨ head b = Some "/"%ch.

Lemma dot_dot_at_false (b rest : bytes) :
  seg_end b → dot_dot_at (bs ".." ++ b ++ rest) = false → b = [] ∧ rest ≠ [].
Proof.
  intros Hb H. destruct b as [|c b].
  - split; [done|]. by intros ->.
  - destruct Hb as [|[= ->]]; [done|]. by vm_compute in H.
Qed.

Lemma rescan_false (p : bytes) :
  unsafe_rescan p = false →
  Forall (.≠ 0) p ∧ ∀ a b, p = a ++ bs "/.." ++ b → ¬ seg_end b.
Proof.
  induction p as [|c p IH]; intros H.
  - split; [constructor|]. by intros [].
  - cbn [unsafe_rescan] in H. destruct (Z.eqb_spec c 0); [done|].
    destruct (ngx_path_separator c && dot_dot_at p) eqn:E; [done|].
    destruct (IH H) as [H1 H2]. split; [by constructor|].
    intros [|x a] b Ep Hb; injection Ep as -> Ep; [|by apply (H2 a b)].
    subst p. cbn in E. destruct b; [done|]. destruct Hb as [|[= ->]]; [done|]. by vm_compute in E.
Qed.

(** The unparsed rest of a URI: the arguments with their ["?"]. *)
Definition query_of (args : option bytes) : bytes :=
  match args with None => [] | Some a => "?"%ch :: a end.

Lemma scan_spec (p u : bytes) (q q' : bool) (args : option bytes) :
  unsafe_scan q p = Some (q', u, args) →
  p = u ++ query_of args
  ∧ (q' = false → q = false ∧ "%"%ch ∉ u)
  ∧ Forall (.≠ 0) u
  ∧ ∀ a b, u = a ++ bs "/.." ++ b → seg_end b → b = [] ∧ is_Some args.
Proof.
  revert u q. induction p as [|c p IH]; intros u q H; cbn [unsafe_scan] in H.
  { injection H as <- <- <-. split_and!; [done|by split; [|apply not_elem_of_nil]|constructor|by intros []]. }
  assert (Hcons : ∀ q1, c ≠ 0 → (ngx_path_separator c && dot_dot_at p = false) →
    (fun '(q, u, a) => (q, c :: u, a)) <$> unsafe_scan q1 p = Some (q', u, args) →
    (q1 = false → q = false ∧ c ≠ 37) →
    c :: p = u ++ query_of args
    ∧ (q' = false → q = false ∧ "%"%ch ∉ u)
    ∧ Forall (.≠ 0) u
    ∧ ∀ a b, u = a ++ bs "/.." ++ b → seg_end b → b = [] ∧ is_Some args).
  { intros q1 H0 Hd H1 Hq1. apply fmap_Some in H1 as ([[q2 u2] a2] & H1 & [= -> -> ->]).
    destruct (IH _ _ H1) as (-> & I1 & I3 & I4).
    split_and!; [done| |by constructor|].
    - intros Hq. destruct (I1 Hq) as [? ?]. destruct (Hq1 ltac:(done)). split; [done|].
      by rewrite not_elem_of_cons.
    - intros [|x a] b Ep Hb; injection Ep as -> Ep; [|by apply (I4 a b)].
      subst u2. apply (dot_dot_at_false b (query_of a2)) in Hb as [-> Hr].
      + split; [done|]. by destruct a2.
      + exact Hd. }
  destruct (Z.eqb_spec c 37) as [->|]; [by apply (Hcons true)|].
  destruct (usual c) eqn:Hu.
  { destruct (ComplexUri.usual_not_special c Hu) as (? & _ & _ & _ & _ & _ & ?).
    apply (Hcons q); try done. unfold ngx_path_separator.
    by rewrite (proj2 (Z.eqb_neq c 47)). }
  destruct (Z.eqb_spec c 63) as [->|].
  { injection H as <- <- <-. split_and!; [done|by split; [|apply not_elem_of_nil]|constructor|by intros []]. }
  destruct (Z.eqb_spec c 0); [done|]. destruct (ngx_path_separator c && _) eqn:E; [done|].
  by apply (Hcons q).
Qed.

(** C39. A URI that [ngx_http_parse_unsafe_uri] accepts has no NUL byte in its
    decoded path; and no ".." segment, except that a final one slips through when it
    is followed by arguments and nothing in the path is percent-encoded. *)
Theorem unsafe_uri_safe (alloc : bool) (uri u : bytes) (args : option bytes) :
  ngx_http_parse_unsafe_uri alloc uri = uri_safe u args →
  Forall (.≠ 0) u
  ∧ ∀ a b, u = a ++ bs ".." ++ b → a = [] ∨ last a = Some "/"%ch → seg_end b →
    b = [] ∧ is_Some args ∧ ("%"%ch ∉ u) ∧ uri = u ++ query_of args.
Proof.
  unfold ngx_http_parse_unsafe_uri. destruct uri as [|c l]; [done|].
  destruct (c =? 63); [done|]. destruct (dot_dot_at (c :: l)) eqn:Ed; [done|].
  destruct (unsafe_scan false (c :: l)) as [[[[] v] ar]|] eqn:Es; [|..|done].
  - destruct alloc; [|done]. destruct (dot_dot_at _ || _) eqn:E; [done|]. intros [= <- _].
    apply orb_false_iff in E as [E1 E2]. apply rescan_false in E2 as [E2 E3].
    split; [done|]. intros a b Hu [-> |Ha] Hb.
    + rewrite Hu, app_nil_l in E1. rewrite <- (app_nil_r b) in E1.
      apply dot_dot_at_false in E1 as [_ ?]; done.
    + exfalso. apply last_Some in Ha as [a' ->]. rewrite <- app_assoc in Hu. by apply (E3 a' b).
  - intros [= -> ->]. apply scan_spec in Es as (Eq & H1 & H2 & H3).
    split; [done|]. destruct (H1 eq_refl) as [_ Hp]. intros a b Hu Ha Hb.
    cut (b = [] ∧ is_Some args); [by intros []|]. destruct Ha as [-> |Ha].
    + rewrite Eq, Hu, <- app_assoc in Ed. apply dot_dot_at_false in Ed as [? Ed]; [|done].
      split; [done|]. by destruct args.
    + apply last_Some in Ha as [a' ->]. rewrite <- app_assoc in Hu. by apply (H3 a' b).
Qed.

Lemma unsafe_uri_safe_witness : Forall (.≠ 0) (bs "/a/..b").
Proof. by apply (unsafe_uri_safe true (bs "/%61/.%2eb?c=1") (bs "/a/..b") (Some (bs "c=1"))). Defined.

(** The exception is real: a redirect to ["/a/..?x"] is accepted, although the
    same path without arguments is refused. *)
Theorem unsafe_uri_dot_dot_args :
  ngx_http_parse_unsafe_uri true (bs "/a/..?x") = uri_safe (bs "/a/..") (Some (bs "x"))
  ∧ ngx_http_parse_unsafe_uri true (bs "/a/..") = uri_unsafe
  ∧ ngx_http_parse_unsafe_uri true (bs "/a/%2e.?x") = uri_unsafe.
Proof. by vm_compute. Qed.

End UnsafeUri.

(** ** [$arg_name]: the first argument of that name *)

Module Arg.

(** The arguments, split at ["&"]. *)
Fixpoint segments (l : bytes) : list bytes :=
  match l with
  | [] => [[]]
  | c :: l' =>
      if c =? "&"%ch then [] :: segments l'
      else match segments l' with
           | seg :: segs => (c :: seg) :: segs
           | [] => [[c]]
           end
  end.

(** [name=] at the start of a string, up to the case of the name. *)
Definition named (name seg : bytes) : Prop :=
  ci_eq (take (length name) seg) name ∧ seg !! length name = Some "="%ch.

#[export] Instance named_dec (name seg : bytes) : Decision (named name seg).
Proof. unfold named, ci_eq. apply _. Defined.

Definition seg_value (name seg : bytes) : option bytes :=
  if decide (named name seg) then Some (drop (length name + 1) seg) else None.

Definition arg_spec (args name : bytes) : option bytes :=
  head (omap (seg_value name) (segments args)).

(** The same, position by position; [b] says whether a segment starts here. *)
Fixpoint scan (name : bytes) (b : bool) (l : bytes) : option bytes :=
  match l with
  | [] => None
  | c :: l' =>
      if b && bool_decide (named name l)
      then head (segments (drop (length name + 1) l))
      else scan name (c =? "&"%ch) l'
  end.

Lemma segments_cons (l : bytes) : ∃ seg segs, segments l = seg :: segs.
Proof.
  destruct l as [|c l]; simpl; [by eexists _, _|]. destruct (c =? 38); [by eexists _, _|].
  destruct (segments l); by eexists _, _.
Qed.

Lemma segments_app (a l : bytes) :
  Forall (.≠ "&"%ch) a →
  segments (a ++ l) = match segments l with seg :: segs => (a ++ seg) :: segs | [] => [a] end.
Proof.
  induction 1 as [|c a Hc _ IH]; simpl.
  - by destruct (segments_cons l) as (seg & segs & ->).
  - rewrite (proj2 (Z.eqb_neq c 38)) by done. rewrite IH. by destruct (segments l).
Qed.

Lemma named_split (name l : bytes) :
  named name l ↔
  ∃ n v, l = n ++ "="%ch :: v ∧ length n = length name ∧ ci_eq n name.
Proof.
  unfold named. split.
  - intros [Hc Hl]. exists (take (length name) l), (drop (length name + 1) l).
    assert (length name < length l)%nat by (by eapply lookup_lt_Some).
    split_and!; [|rewrite length_take; lia|done].
    rewrite Nat.add_1_r. symmetry. by apply take_drop_middle.
  - intros (n & v & -> & Hn & Hc). rewrite <- Hn. split; [by rewrite take_app_length|].
    rewrite lookup_app_r by lia. by rewrite Nat.sub_diag.
Qed.

Lemma lower_amp (c : Z) : lower c = "&"%ch ↔ c = "&"%ch.
Proof.
  unfold lower. split; [|by intros ->].
  destruct ((c >=? 65) && (c <=? 90)) eqn:E; [|done]. intros H. exfalso.
  assert (Hc : 0 <= c < 128) by lia.
  by apply (range_check_prop 128 (fun c =>
    (c >=? 65) && (c <=? 90) = true → Z.lor c 32 ≠ 38) c).
Qed.

Lemma ci_eq_no_amp (n name : bytes) :
  ci_eq n name → Forall (.≠ "&"%ch) name → Forall (.≠ "&"%ch) n.
Proof.
  unfold ci_eq. revert name. induction n as [|c n IH]; intros [|d name] H Hn; try done.
  injection H as H1 H2. inversion Hn as [|? ? H3 H4]; subst. constructor; [|by eapply IH].
  intros ->. symmetry in H1. apply lower_amp in H1 as ->. by apply H3.
Qed.

Lemma segments_prefix (l : bytes) :
  ∃ seg segs rest, segments l = seg :: segs ∧ l = seg ++ rest.
Proof.
  induction l as [|c l (seg & segs & rest & E & El)]; simpl; [by exists [], [], []|].
  destruct (c =? 38); [by eexists [], _, (c :: l)|].
  rewrite E. exists (c :: seg), segs, rest. by rewrite El.
Qed.

Lemma drop_name (n v : bytes) : drop (length n + 1) (n ++ "="%ch :: v) = v.
Proof.
  rewrite drop_app_ge by lia. by replace (length n + 1 - length n)%nat with 1%nat by lia.
Qed.

(** A segment starts with [name=] exactly when the rest of the arguments does. *)
Lemma named_segment (name l : bytes) :
  Forall (.≠ "&"%ch) name →
  match segments l with
  | seg :: _ => (named name seg ↔ named name l)
                ∧ (named name l → head (segments (drop (length name + 1) l))
                                  = Some (drop (length name + 1) seg))
  | [] => False
  end.
Proof.
  intros Hn. destruct (segments_prefix l) as (seg & segs & rest & E & ->). rewrite E.
  assert (Hl : named name (seg ++ rest) →
    named name seg ∧ head (segments (drop (length name + 1) (seg ++ rest)))
                     = Some (drop (length name + 1) seg)).
  { intros (n & v & El & Hlen & Hci)%named_split. rewrite El in E |- *.
    rewrite cons_middle, app_assoc, segments_app in E.
    2: { apply Forall_app. split; [by eapply ci_eq_no_amp|by repeat constructor]. }
    destruct (segments_cons v) as (sv & svs & Ev). rewrite Ev in E. injection E as <- _.
    rewrite <- app_assoc. cbn [app]. rewrite <- Hlen. split.
    - apply named_split. by exists n, sv.
    - by rewrite !drop_name, Ev. }
  split; [split|].
  - intros (n & v & -> & Hlen & Hci)%named_split. apply named_split.
    exists n, (v ++ rest). by rewrite <- app_assoc.
  - by intros [? ?]%Hl.
  - by intros [? ?]%Hl.
Qed.

Lemma scan_segments (name l : bytes) (b : bool) :
  Forall (.≠ "&"%ch) name →
  scan name b l =
  head (omap (seg_value name) (if b then segments l else tail (segments l))).
Proof.
  intros Hn. revert b. induction l as [|c l IH]; intros b.
  { destruct b; [|done]. simpl. unfold seg_value. rewrite decide_False; [done|].
    by intros [_ ?]. }
  pose proof (named_segment name (c :: l) Hn) as Hs.
  destruct (segments_cons (c :: l)) as (seg & segs & E). rewrite E in Hs |- *.
  destruct Hs as [Hs1 Hs2]. cbn [scan].
  assert (Hrest : scan name (c =? 38) l = head (omap (seg_value name) segs)).
  { rewrite IH. simpl in E. destruct (c =? 38); [by injection E as _ <-|].
    destruct (segments_cons l) as (? & ? & El). rewrite El in E |- *. by injection E as _ <-. }
  destruct b; cbn [andb tail]; [|done].
  simpl. unfold seg_value at 1. destruct (decide (named name seg)) as [H|H].
  - rewrite bool_decide_true by (by apply Hs1). cbn [head]. apply Hs2. by apply Hs1.
  - rewrite bool_decide_false by (by rewrite <- Hs1). done.
Qed.

(** Positions where the name does not start are skipped. *)
Lemma scan_skip (name l : bytes) (b : bool) (k : nat) :
  (∀ i, (i < k)%nat → ¬ named name (drop i l)) → (k <= length l)%nat →
  scan name b l =
  scan name (if decide (k = 0%nat) then b else bool_decide (l !! (k - 1)%nat = Some "&"%ch)) (drop k l).
Proof.
  revert l b. induction k as [|k IH]; intros l b Hno Hk; [done|].
  destruct l as [|c l]; simpl in Hk; [lia|]. cbn [scan drop].
  rewrite (bool_decide_false (named name (c :: l))) by apply (Hno 0%nat ltac:(lia)).
  rewrite andb_false_r, (IH l); [|intros i Hi; apply (Hno (S i)); lia|lia].
  f_equal. rewrite (decide_False (P := S k = 0%nat)) by lia.
  replace (S k - 1)%nat with k by lia. destruct k as [|k]; simpl.
  - destruct (Z.eqb_spec c 38) as [->|]; [by rewrite bool_decide_true|].
    rewrite bool_decide_false; [done|]. congruence.
  - by rewrite Nat.sub_0_r.
Qed.

(** [ngx_strlcasestrn] finds the first of the [k] positions where the pattern
    occurs. *)
Lemma strlcasestrn_first (l : bytes) (k : nat) (c : Z) (s2 : bytes) :
  Forall (fun d => lower d ≠ 0) s2 → ((0 < k)%nat → (k + length s2 <= length l)%nat) →
  let occurs i := ci_eq (take (S (length s2)) (drop i l)) (c :: s2) in
  ∃ r, strlcasestrn_loop l k (lower c) s2 (length s2) = Some r
  ∧ match r with
    | None => ∀ i, (i < k)%nat → ¬ occurs i
    | Some j => (j < k)%nat ∧ occurs j ∧ ∀ i, (i < j)%nat → ¬ occurs i
    end.
Proof.
  intros Hz. revert l. induction k as [|k IH]; intros l Hk occurs.
  { exists None. split; [by destruct l|]. lia. }
  specialize (Hk ltac:(lia)). destruct l as [|d l]; simpl in Hk; [lia|].
  assert (Htail : ∃ r, option_map (option_map S) (strlcasestrn_loop l k (lower c) s2 (length s2)) = Some r
    ∧ (¬ occurs 0%nat → match r with
       | None => ∀ i, (i < S k)%nat → ¬ occurs i
       | Some j => (j < S k)%nat ∧ occurs j ∧ ∀ i, (i < j)%nat → ¬ occurs i
       end)).
  { destruct (IH l ltac:(lia)) as (r & -> & Hr). eexists. split; [done|]. intros H0.
    destruct r as [j|]; simpl.
    - destruct Hr as (H1 & H2 & H3). split_and!; [lia|done|]. intros [|i] Hi; [done|].
      apply H3. lia.
    - intros [|i] Hi; [done|]. apply Hr. lia. }
  destruct Htail as (rt & Et & Htail).
  assert (H0 : occurs 0%nat ↔ lower d = lower c ∧ ci_eq (take (length s2) l) s2).
  { unfold occurs, ci_eq. simpl. split; [by intros [= ? ?]|]. by intros [-> ->]. }
  assert (Hcmp : ngx_strncasecmp l s2 (length s2) = Some 0 ↔ ci_eq (take (length s2) l) s2).
  { rewrite <- (take_drop (length s2) l) at 1. rewrite <- (app_nil_r s2) at 3.
    apply strncasecmp_zero; [rewrite length_take; lia|done|done]. }
  destruct (strncasecmp_total l s2 (length s2)) as [v Ev]; [lia|lia|].
  cbn [strlcasestrn_loop]. rewrite Ev in Hcmp |- *.
  destruct (Z.eqb_spec (lower d) (lower c)) as [Ed|Ed]; cbn [negb].
  - destruct (Z.eqb_spec v 0) as [->|Hv]; cbn [negb].
    + exists (Some 0%nat). split; [done|]. split; [lia|]. split; [|lia].
      apply H0. split; [done|]. by apply Hcmp.
    + exists rt. split; [done|]. apply Htail. rewrite H0, <- Hcmp. intros [_ [= ?]]. done.
  - exists rt. split; [done|]. apply Htail. rewrite H0. by intros [? _].
Qed.

Lemma strlchr_segment (l : bytes) :
  ∃ r, ngx_strlchr l (length l) "&"%ch = Some r
  ∧ match r with
    | None => head (segments l) = Some l
    | Some k => head (segments l) = Some (take k l)
    end.
Proof.
  induction l as [|c l (r & E & Hr)]; simpl; [by eexists|].
  destruct (c =? 38); [by eexists (Some 0%nat)|]. rewrite E. eexists. split; [done|].
  destruct (segments_cons l) as (seg & segs & Es). rewrite Es in Hr |- *.
  destruct r; simpl in *; by injection Hr as ->.
Qed.

Lemma drop_take_sub (m k : nat) (l : bytes) : take (k - m) (drop m l) = drop m (take k l).
Proof.
  destruct (decide (m <= k)%nat).
  - replace k with (m + (k - m))%nat at 2 by lia. apply take_drop_commute.
  - replace (k - m)%nat with 0%nat by lia. rewrite (drop_ge (take k l)); [done|]. rewrite length_take. lia.
Qed.

(** The value read at a position [p] where the argument starts. *)
Lemma arg_value (args name : bytes) (p : nat) :
  Forall (.≠ "&"%ch) name → named name (drop p args) → (p < length args)%nat →
  let data := (p + length name + 1)%nat in
  match ngx_strlchr (drop p args) (length args - p) "&"%ch with
  | None => None
  | Some None => Some (Some (sub args data (length args - data)))
  | Some (Some k) => Some (Some (sub args data (p + k - data)))
  end = Some (head (segments (drop (length name + 1) (drop p args)))).
Proof.
  intros Hn Hnamed Hp data. pose proof (named_segment name (drop p args) Hn) as Hs.
  rewrite <- length_drop. destruct (strlchr_segment (drop p args)) as (r & -> & Hr).
  destruct (segments (drop p args)) as [|seg segs]; [done|]. destruct Hs as [_ Hs].
  rewrite (Hs Hnamed). unfold sub, data.
  replace (p + length name + 1)%nat with (p + (length name + 1))%nat by lia.
  rewrite <- drop_drop.
  destruct r as [k|]; injection Hr as ->; do 2 f_equal.
  - replace (p + k - (p + (length name + 1)))%nat with (k - (length name + 1))%nat by lia.
    apply drop_take_sub.
  - apply take_ge. rewrite !length_drop. lia.
Qed.

Lemma http_arg_loop_scan (fuel : nat) (args name : bytes) (p : nat) :
  name ≠ [] → Forall (fun d => lower d ≠ 0) name → Forall (.≠ "&"%ch) name →
  (length args - p < fuel)%nat → (p <= length args)%nat →
  http_arg_loop fuel args name p =
  Some (scan name ((p =? 0)%nat || bool_decide (args !! (p - 1)%nat = Some "&"%ch)) (drop p args)).
Proof.
  intros Hne Hz Hn. revert p. induction fuel as [|fuel IH]; intros p Hf Hp; [lia|].
  cbn [http_arg_loop]. destruct (Nat.ltb_spec p (length args)) as [Hlt|Hge].
  2: { by rewrite drop_ge by lia. }
  destruct name as [|c s2] eqn:En; [done|]. rewrite <- En in *.
  assert (Hlen : length name = S (length s2)) by (by rewrite En).
  unfold ngx_strlcasestrn. rewrite En at 1. replace (length name - 1)%nat with (length s2) by lia.
  destruct (strlcasestrn_first (drop p args) (length args - 1 - p - length s2) c s2)
    as (r & -> & Hr). { rewrite En in Hz. by inv Hz. } { rewrite length_drop. lia. }
  rewrite <- Hlen, <- En in Hr. set (b := (p =? 0)%nat || _).
  destruct r as [j|].
  - destruct Hr as (Hj & Hocc & Hno). rewrite drop_drop in Hocc.
    rewrite (scan_skip name (drop p args) b j); [|by intros i Hi [? _]; eapply Hno|rewrite length_drop; lia].
    rewrite drop_drop, lookup_drop. set (b' := if decide _ then _ else _).
    assert (Hb' : b' = (p + j =? 0)%nat || bool_decide (args !! (p + j - 1)%nat = Some 38)).
    { unfold b', b. destruct (decide (j = 0%nat)) as [->|]; [by rewrite Nat.add_0_r|].
      replace (p + (j - 1))%nat with (p + j - 1)%nat by lia.
      by destruct (Nat.eqb_spec (p + j) 0); [lia|]. }
    rewrite <- Hb'.
    destruct (lookup_lt_is_Some_2 args (p + j + length name)) as [x Hx]; [lia|]. rewrite Hx.
    assert (Hnamed : named name (drop (p + j) args) ↔ x = 61).
    { unfold named. rewrite lookup_drop, Hx. split; [by intros [_ [= ->]]|by intros ->]. }
    destruct (lookup_lt_is_Some_2 args (p + j)) as [y Hy]; [lia|].
    rewrite (drop_S _ _ _ Hy) in Hnamed |- *. cbn [scan].
    destruct (b' && (x =? 61)) eqn:Hhit.
    + apply andb_true_iff in Hhit as [-> Hhit]. rewrite bool_decide_true by (apply Hnamed; lia).
      rewrite <- (drop_S _ _ _ Hy). cbn [andb]. apply arg_value; [done| |lia].
      rewrite (drop_S _ _ _ Hy). apply Hnamed. lia.
    + assert (b' && bool_decide (named name (y :: drop (S (p + j)) args)) = false) as ->.
      { apply andb_false_iff in Hhit as [->|Hhit]; [done|]. apply andb_false_iff. right.
        apply bool_decide_false. rewrite Hnamed. lia. }
      rewrite IH by lia. replace (p + j + 1)%nat with (S (p + j)) by lia.
      replace (S (p + j) - 1)%nat with (p + j)%nat by lia. rewrite Hy. cbn [Nat.eqb orb].
      do 2 f_equal. destruct (Z.eqb_spec y 38) as [->|]; [by rewrite bool_decide_true|].
      rewrite bool_decide_false by congruence. done.
  - rewrite (scan_skip name (drop p args) b (length (drop p args))); [|..|done].
    + by rewrite drop_all.
    + intros i Hi [Hci Heq]. apply lookup_lt_Some in Heq. rewrite drop_drop in Heq.
      rewrite !length_drop in *. by apply (Hr i); [lia|].
Qed.

Lemma http_arg_segments (args name : bytes) :
  name ≠ [] → Forall (fun d => lower d ≠ 0) name → Forall (.≠ "&"%ch) name →
  ngx_http_arg args name = Some (arg_spec args name).
Proof.
  intros H1 H2 H3. unfold ngx_http_arg, arg_spec.
  rewrite <- (scan_segments name args true H3). destruct args as [|c args]; [done|].
  apply http_arg_loop_scan; try done; simpl; lia.
Qed.

(** [ngx_http_arg] returns the value of the first ["&"]-separated argument
    whose name is [name] up to case, and [NGX_DECLINED] when there is none; it never
    reads outside the arguments. *)
Theorem ngx_http_arg_first (args name : bytes) :
  name ≠ [] → Forall (fun d => lower d ≠ 0) name → Forall (.≠ "&"%ch) name →
  ngx_http_arg args name = Some (arg_spec args name).
Proof. apply http_arg_segments. Qed.

Lemma ngx_http_arg_first_witness :
  ngx_http_arg (bs "xkey=1&KEY=session&pwd=2") (bs "key") = Some (Some (bs "session")).
Proof.
  change (Some (Some (bs "session"))) with
    (Some (arg_spec (bs "xkey=1&KEY=session&pwd=2") (bs "key"))).
  apply (ngx_http_arg_first (bs "xkey=1&KEY=session&pwd=2") (bs "key"));
    [done|solve_forall done..].
Defined.

End Arg.
