(* ===== verification/HttpRequestLine.v ===== *)
(** * The request line

    [ngx_http_parse_request_line] of src/nginx-master/src/http/ngx_http_parse.c:
    the resumable state machine that reads the first line of a request from the
    header buffer.  The buffer is a byte string [mem], pointers into it are
    offsets (NULL is [None]), each [case] of the switch is a definition of its
    own, and the loop is [mrun].  A byte that a state hands back with [p--] is
    passed on to the state that will read it. *)

From S2P Require Import Prelude NgxNumber NgxEscape NgxCompare HttpUri HttpRawUri.

Open Scope Z_scope.

Definition NGX_HTTP_PARSE_INVALID_METHOD : Z := 10.
Definition NGX_HTTP_PARSE_INVALID_VERSION : Z := 12.
Definition NGX_HTTP_PARSE_INVALID_09_METHOD : Z := 13.

Definition NGX_HTTP_UNKNOWN : Z := 0x0001.
Definition NGX_HTTP_GET : Z := 0x0002.
Definition NGX_HTTP_HEAD : Z := 0x0004.
Definition NGX_HTTP_POST : Z := 0x0008.
Definition NGX_HTTP_PUT : Z := 0x0010.
Definition NGX_HTTP_DELETE : Z := 0x0020.
Definition NGX_HTTP_MKCOL : Z := 0x0040.
Definition NGX_HTTP_COPY : Z := 0x0080.
Definition NGX_HTTP_MOVE : Z := 0x0100.
Definition NGX_HTTP_OPTIONS : Z := 0x0200.
Definition NGX_HTTP_PROPFIND : Z := 0x0400.
Definition NGX_HTTP_PROPPATCH : Z := 0x0800.
Definition NGX_HTTP_LOCK : Z := 0x1000.
Definition NGX_HTTP_UNLOCK : Z := 0x2000.
Definition NGX_HTTP_PATCH : Z := 0x4000.
Definition NGX_HTTP_TRACE : Z := 0x8000.

(** ** Method comparison

    The macros exist twice: byte by byte, and with 32-bit loads where the
    machine is little-endian and allows unaligned access.  [StrCmp] is the
    set of macros; the parser takes either. *)

Definition at_ (mem : bytes) (m i : nat) (c : Z) : bool := mem !!! (m + i)%nat =? c.

(** The little-endian [uint32_t] at [m]. *)
Definition u32 (mem : bytes) (m : nat) : Z :=
  mem !!! m + mem !!! (m + 1)%nat * 2 ^ 8 + mem !!! (m + 2)%nat * 2 ^ 16
  + mem !!! (m + 3)%nat * 2 ^ 24.

Definition u32_of (c0 c1 c2 c3 : Z) : Z :=
  Z.lor (Z.lor (Z.lor (Z.shiftl c3 24) (Z.shiftl c2 16)) (Z.shiftl c1 8)) c0.

Class StrCmp := {
  ngx_str3_cmp : bytes → nat → Z → Z → Z → Z → bool;
  ngx_str3Ocmp : bytes → nat → Z → Z → Z → Z → bool;
  ngx_str4cmp : bytes → nat → Z → Z → Z → Z → bool;
  ngx_str5cmp : bytes → nat → Z → Z → Z → Z → Z → bool;
  ngx_str6cmp : bytes → nat → Z → Z → Z → Z → Z → Z → bool;
  ngx_str7_cmp : bytes → nat → Z → Z → Z → Z → Z → Z → Z → Z → bool;
  ngx_str8cmp : bytes → nat → Z → Z → Z → Z → Z → Z → Z → Z → bool;
  ngx_str9cmp : bytes → nat → Z → Z → Z → Z → Z → Z → Z → Z → Z → bool
}.

Definition bytewise : StrCmp := {|
  ngx_str3_cmp mem m c0 c1 c2 c3 := at_ mem m 0 c0 && at_ mem m 1 c1 && at_ mem m 2 c2;
  ngx_str3Ocmp mem m c0 c1 c2 c3 := at_ mem m 0 c0 && at_ mem m 2 c2 && at_ mem m 3 c3;
  ngx_str4cmp mem m c0 c1 c2 c3 :=
    at_ mem m 0 c0 && at_ mem m 1 c1 && at_ mem m 2 c2 && at_ mem m 3 c3;
  ngx_str5cmp mem m c0 c1 c2 c3 c4 :=
    at_ mem m 0 c0 && at_ mem m 1 c1 && at_ mem m 2 c2 && at_ mem m 3 c3 && at_ mem m 4 c4;
  ngx_str6cmp mem m c0 c1 c2 c3 c4 c5 :=
    at_ mem m 0 c0 && at_ mem m 1 c1 && at_ mem m 2 c2 && at_ mem m 3 c3 && at_ mem m 4 c4
    && at_ mem m 5 c5;
  ngx_str7_cmp mem m c0 c1 c2 c3 c4 c5 c6 c7 :=
    at_ mem m 0 c0 && at_ mem m 1 c1 && at_ mem m 2 c2 && at_ mem m 3 c3 && at_ mem m 4 c4
    && at_ mem m 5 c5 && at_ mem m 6 c6;
  ngx_str8cmp mem m c0 c1 c2 c3 c4 c5 c6 c7 :=
    at_ mem m 0 c0 && at_ mem m 1 c1 && at_ mem m 2 c2 && at_ mem m 3 c3 && at_ mem m 4 c4
    && at_ mem m 5 c5 && at_ mem m 6 c6 && at_ mem m 7 c7;
  ngx_str9cmp mem m c0 c1 c2 c3 c4 c5 c6 c7 c8 :=
    at_ mem m 0 c0 && at_ mem m 1 c1 && at_ mem m 2 c2 && at_ mem m 3 c3 && at_ mem m 4 c4
    && at_ mem m 5 c5 && at_ mem m 6 c6 && at_ mem m 7 c7 && at_ mem m 8 c8
|}.

Definition wordwise : StrCmp := {|
  ngx_str3_cmp mem m c0 c1 c2 c3 := u32 mem m =? u32_of c0 c1 c2 c3;
  ngx_str3Ocmp mem m c0 c1 c2 c3 := u32 mem m =? u32_of c0 c1 c2 c3;
  ngx_str4cmp mem m c0 c1 c2 c3 := u32 mem m =? u32_of c0 c1 c2 c3;
  ngx_str5cmp mem m c0 c1 c2 c3 c4 := (u32 mem m =? u32_of c0 c1 c2 c3) && at_ mem m 4 c4;
  ngx_str6cmp mem m c0 c1 c2 c3 c4 c5 :=
    (u32 mem m =? u32_of c0 c1 c2 c3)
    && (Z.land (u32 mem (m + 4)) 0xffff =? Z.lor (Z.shiftl c5 8) c4);
  ngx_str7_cmp mem m c0 c1 c2 c3 c4 c5 c6 c7 :=
    (u32 mem m =? u32_of c0 c1 c2 c3) && (u32 mem (m + 4) =? u32_of c4 c5 c6 c7);
  ngx_str8cmp mem m c0 c1 c2 c3 c4 c5 c6 c7 :=
    (u32 mem m =? u32_of c0 c1 c2 c3) && (u32 mem (m + 4) =? u32_of c4 c5 c6 c7);
  ngx_str9cmp mem m c0 c1 c2 c3 c4 c5 c6 c7 c8 :=
    (u32 mem m =? u32_of c0 c1 c2 c3) && (u32 mem (m + 4) =? u32_of c4 c5 c6 c7)
    && at_ mem m 8 c8
|}.

(** The [switch (p - m)] of [sw_method]; [old] is [r->method] before it. *)
Definition method_of_len {C : StrCmp} (len : nat) (mem : bytes) (m : nat) (old : Z) : Z :=
  let is3 c0 c1 c2 := ngx_str3_cmp mem m c0 c1 c2 " "%ch in
  let isO c0 c1 c2 c3 := ngx_str3Ocmp mem m c0 c1 c2 c3 in
  match len with
  | 3%nat =>
      if is3 "G"%ch "E"%ch "T"%ch then NGX_HTTP_GET
      else if is3 "P"%ch "U"%ch "T"%ch then NGX_HTTP_PUT
      else old
  | 4%nat =>
      if at_ mem m 1 "O"%ch then
        if isO "P"%ch "O"%ch "S"%ch "T"%ch then NGX_HTTP_POST
        else if isO "C"%ch "O"%ch "P"%ch "Y"%ch then NGX_HTTP_COPY
        else if isO "M"%ch "O"%ch "V"%ch "E"%ch then NGX_HTTP_MOVE
        else if isO "L"%ch "O"%ch "C"%ch "K"%ch then NGX_HTTP_LOCK
        else old
      else if ngx_str4cmp mem m "H"%ch "E"%ch "A"%ch "D"%ch then NGX_HTTP_HEAD
      else old
  | 5%nat =>
      if ngx_str5cmp mem m "M"%ch "K"%ch "C"%ch "O"%ch "L"%ch then NGX_HTTP_MKCOL
      else if ngx_str5cmp mem m "P"%ch "A"%ch "T"%ch "C"%ch "H"%ch
      then NGX_HTTP_PATCH
      else if ngx_str5cmp mem m "T"%ch "R"%ch "A"%ch "C"%ch "E"%ch
      then NGX_HTTP_TRACE
      else old
  | 6%nat =>
      if ngx_str6cmp mem m "D"%ch "E"%ch "L"%ch "E"%ch "T"%ch "E"%ch
      then NGX_HTTP_DELETE
      else if ngx_str6cmp mem m "U"%ch "N"%ch "L"%ch "O"%ch "C"%ch "K"%ch
      then NGX_HTTP_UNLOCK
      else old
  | 7%nat =>
      if ngx_str7_cmp mem m "O"%ch "P"%ch "T"%ch "I"%ch "O"%ch "N"%ch "S"%ch " "%ch
      then NGX_HTTP_OPTIONS else old
  | 8%nat =>
      if ngx_str8cmp mem m "P"%ch "R"%ch "O"%ch "P"%ch "F"%ch "I"%ch "N"%ch "D"%ch
      then NGX_HTTP_PROPFIND else old
  | 9%nat =>
      if ngx_str9cmp mem m
           "P"%ch "R"%ch "O"%ch "P"%ch "P"%ch "A"%ch "T"%ch "C"%ch "H"%ch
      then NGX_HTTP_PROPPATCH else old
  | _ => old
  end.

Module RequestLine.

(** ** State *)

Inductive state :=
  | sw_start | sw_method | sw_spaces_before_uri
  | sw_schema | sw_schema_slash | sw_schema_slash_slash
  | sw_host_start | sw_host | sw_host_end | sw_host_ip_literal | sw_port | sw_host_http_09
  | sw_after_slash_in_uri | sw_check_uri | sw_check_uri_http_09 | sw_uri
  | sw_http_09 | sw_http_H | sw_http_HT | sw_http_HTT | sw_http_HTTP
  | sw_first_major_digit | sw_major_digit | sw_first_minor_digit | sw_minor_digit
  | sw_spaces_after_digit | sw_almost_done.

#[export] Instance state_eq_dec : EqDecision state.
Proof. solve_decision. Defined.

Record rl := mk_rl {
  rl_state : state;
  rl_request_start : option nat;
  rl_method_end : option nat;
  rl_method : Z;
  rl_uri_start : option nat;
  rl_uri_end : option nat;
  rl_schema_start : option nat;
  rl_schema_end : option nat;
  rl_host_start : option nat;
  rl_host_end : option nat;
  rl_port_end : option nat;
  rl_http_protocol : option nat;   (* r->http_protocol.data *)
  rl_http_major : Z;
  rl_http_minor : Z;
  rl_request_end : option nat;
  rl_flags : uri_flags
}.

Definition set_state (v : state) (s : rl) : rl :=
  mk_rl v (rl_request_start s) (rl_method_end s) (rl_method s) (rl_uri_start s)
    (rl_uri_end s) (rl_schema_start s) (rl_schema_end s) (rl_host_start s) (rl_host_end s)
    (rl_port_end s) (rl_http_protocol s) (rl_http_major s) (rl_http_minor s)
    (rl_request_end s) (rl_flags s).
Definition set_request_start (v : option nat) (s : rl) : rl :=
  mk_rl (rl_state s) v (rl_method_end s) (rl_method s) (rl_uri_start s) (rl_uri_end s)
    (rl_schema_start s) (rl_schema_end s) (rl_host_start s) (rl_host_end s) (rl_port_end s)
    (rl_http_protocol s) (rl_http_major s) (rl_http_minor s) (rl_request_end s) (rl_flags s).
Definition set_method_end (v : option nat) (s : rl) : rl :=
  mk_rl (rl_state s) (rl_request_start s) v (rl_method s) (rl_uri_start s) (rl_uri_end s)
    (rl_schema_start s) (rl_schema_end s) (rl_host_start s) (rl_host_end s) (rl_port_end s)
    (rl_http_protocol s) (rl_http_major s) (rl_http_minor s) (rl_request_end s) (rl_flags s).
Definition set_method (v : Z) (s : rl) : rl :=
  mk_rl (rl_state s) (rl_request_start s) (rl_method_end s) v (rl_uri_start s)
    (rl_uri_end s) (rl_schema_start s) (rl_schema_end s) (rl_host_start s) (rl_host_end s)
    (rl_port_end s) (rl_http_protocol s) (rl_http_major s) (rl_http_minor s)
    (rl_request_end s) (rl_flags s).
Definition set_uri_start (v : option nat) (s : rl) : rl :=
  mk_rl (rl_state s) (rl_request_start s) (rl_method_end s) (rl_method s) v (rl_uri_end s)
    (rl_schema_start s) (rl_schema_end s) (rl_host_start s) (rl_host_end s) (rl_port_end s)
    (rl_http_protocol s) (rl_http_major s) (rl_http_minor s) (rl_request_end s) (rl_flags s).
Definition set_uri_end (v : option nat) (s : rl) : rl :=
  mk_rl (rl_state s) (rl_request_start s) (rl_method_end s) (rl_method s) (rl_uri_start s) v
    (rl_schema_start s) (rl_schema_end s) (rl_host_start s) (rl_host_end s) (rl_port_end s)
    (rl_http_protocol s) (rl_http_major s) (rl_http_minor s) (rl_request_end s) (rl_flags s).
Definition set_schema_start (v : option nat) (s : rl) : rl :=
  mk_rl (rl_state s) (rl_request_start s) (rl_method_end s) (rl_method s) (rl_uri_start s)
    (rl_uri_end s) v (rl_schema_end s) (rl_host_start s) (rl_host_end s) (rl_port_end s)
    (rl_http_protocol s) (rl_http_major s) (rl_http_minor s) (rl_request_end s) (rl_flags s).
Definition set_schema_end (v : option nat) (s : rl) : rl :=
  mk_rl (rl_state s) (rl_request_start s) (rl_method_end s) (rl_method s) (rl_uri_start s)
    (rl_uri_end s) (rl_schema_start s) v (rl_host_start s) (rl_host_end s) (rl_port_end s)
    (rl_http_protocol s) (rl_http_major s) (rl_http_minor s) (rl_request_end s) (rl_flags s).
Definition set_host_start (v : option nat) (s : rl) : rl :=
  mk_rl (rl_state s) (rl_request_start s) (rl_method_end s) (rl_method s) (rl_uri_start s)
    (rl_uri_end s) (rl_schema_start s) (rl_schema_end s) v (rl_host_end s) (rl_port_end s)
    (rl_http_protocol s) (rl_http_major s) (rl_http_minor s) (rl_request_end s) (rl_flags s).
Definition set_host_end (v : option nat) (s : rl) : rl :=
  mk_rl (rl_state s) (rl_request_start s) (rl_method_end s) (rl_method s) (rl_uri_start s)
    (rl_uri_end s) (rl_schema_start s) (rl_schema_end s) (rl_host_start s) v (rl_port_end s)
    (rl_http_protocol s) (rl_http_major s) (rl_http_minor s) (rl_request_end s) (rl_flags s).
Definition set_port_end (v : option nat) (s : rl) : rl :=
  mk_rl (rl_state s) (rl_request_start s) (rl_method_end s) (rl_method s) (rl_uri_start s)
    (rl_uri_end s) (rl_schema_start s) (rl_schema_end s) (rl_host_start s) (rl_host_end s) v
    (rl_http_protocol s) (rl_http_major s) (rl_http_minor s) (rl_request_end s) (rl_flags s).
Definition set_http_protocol (v : option nat) (s : rl) : rl :=
  mk_rl (rl_state s) (rl_request_start s) (rl_method_end s) (rl_method s) (rl_uri_start s)
    (rl_uri_end s) (rl_schema_start s) (rl_schema_end s) (rl_host_start s) (rl_host_end s)
    (rl_port_end s) v (rl_http_major s) (rl_http_minor s) (rl_request_end s) (rl_flags s).
Definition set_http_major (v : Z) (s : rl) : rl :=
  mk_rl (rl_state s) (rl_request_start s) (rl_method_end s) (rl_method s) (rl_uri_start s)
    (rl_uri_end s) (rl_schema_start s) (rl_schema_end s) (rl_host_start s) (rl_host_end s)
    (rl_port_end s) (rl_http_protocol s) v (rl_http_minor s) (rl_request_end s) (rl_flags s).
Definition set_http_minor (v : Z) (s : rl) : rl :=
  mk_rl (rl_state s) (rl_request_start s) (rl_method_end s) (rl_method s) (rl_uri_start s)
    (rl_uri_end s) (rl_schema_start s) (rl_schema_end s) (rl_host_start s) (rl_host_end s)
    (rl_port_end s) (rl_http_protocol s) (rl_http_major s) v (rl_request_end s) (rl_flags s).
Definition set_request_end (v : option nat) (s : rl) : rl :=
  mk_rl (rl_state s) (rl_request_start s) (rl_method_end s) (rl_method s) (rl_uri_start s)
    (rl_uri_end s) (rl_schema_start s) (rl_schema_end s) (rl_host_start s) (rl_host_end s)
    (rl_port_end s) (rl_http_protocol s) (rl_http_major s) (rl_http_minor s) v (rl_flags s).
Definition set_flags (v : uri_flags) (s : rl) : rl :=
  mk_rl (rl_state s) (rl_request_start s) (rl_method_end s) (rl_method s) (rl_uri_start s)
    (rl_uri_end s) (rl_schema_start s) (rl_schema_end s) (rl_host_start s) (rl_host_end s)
    (rl_port_end s) (rl_http_protocol s) (rl_http_major s) (rl_http_minor s)
    (rl_request_end s) v.

(** The request as [ngx_http_create_request] leaves it. *)
Definition rl_init : rl :=
  mk_rl sw_start None None NGX_HTTP_UNKNOWN None None None None None None None None 0 0 None
    no_flags.

Inductive rl_exit := rl_done (s : rl) | rl_error (rc : Z).

Definition rl_invalid : rl + rl_exit := inr (rl_error NGX_HTTP_PARSE_INVALID_REQUEST).

Definition on_flags (f : uri_flags → uri_flags) (s : rl) : rl := set_flags (f (rl_flags s)) s.

(** [c = (u_char) (ch | 0x20); c >= 'a' && c <= 'z']. *)
Definition is_alpha (ch : Z) : bool :=
  let c := u_char (Z.lor ch 32) in (c >=? "a"%ch) && (c <=? "z"%ch).

Definition is_digit_ch (ch : Z) : bool := (ch >=? "0"%ch) && (ch <=? "9"%ch).

(** [(ch < 'A' || ch > 'Z') && ch != '_' && ch != '-'], negated. *)
Definition is_method_char (ch : Z) : bool :=
  negb (((ch <? "A"%ch) || (ch >? "Z"%ch)) && negb (ch =? "_"%ch) && negb (ch =? "-"%ch)).

(** ** The method *)

Definition step_start (s : rl) (p : nat) (ch : Z) : rl + rl_exit :=
  let s := set_request_start (Some p) s in
  if (ch =? CR) || (ch =? LF) then inl s
  else if negb (is_method_char ch) then inr (rl_error NGX_HTTP_PARSE_INVALID_METHOD)
  else inl (set_state sw_method s).

Definition step_method {C : StrCmp} (mem : bytes) (s : rl) (p : nat) (ch : Z) : rl + rl_exit :=
  if ch =? " "%ch then
    let m := default 0%nat (rl_request_start s) in
    inl (set_state sw_spaces_before_uri
           (set_method (method_of_len (p - m) mem m (rl_method s))
              (set_method_end (Some (p - 1)%nat) s)))
  else if negb (is_method_char ch) then inr (rl_error NGX_HTTP_PARSE_INVALID_METHOD)
  else inl s.

(** ** Scheme, host and port *)

Definition step_spaces_before_uri (s : rl) (p : nat) (ch : Z) : rl + rl_exit :=
  if ch =? "/"%ch then inl (set_state sw_after_slash_in_uri (set_uri_start (Some p) s))
  else if is_alpha ch then inl (set_state sw_schema (set_schema_start (Some p) s))
  else if ch =? " "%ch then inl s
  else rl_invalid.

Definition step_schema (s : rl) (p : nat) (ch : Z) : rl + rl_exit :=
  if is_alpha ch then inl s
  else if ch =? ":"%ch then inl (set_state sw_schema_slash (set_schema_end (Some p) s))
  else rl_invalid.

Definition step_expect (c : Z) (next : state) (s : rl) (ch : Z) : rl + rl_exit :=
  if ch =? c then inl (set_state next s) else rl_invalid.

(** [r->uri_start = r->schema_end + 1; r->uri_end = r->schema_end + 2]. *)
Definition root_of_schema (s : rl) : rl :=
  set_uri_end (option_map (fun e => e + 2)%nat (rl_schema_end s))
    (set_uri_start (option_map (fun e => e + 1)%nat (rl_schema_end s)) s).

Definition step_host_end (s : rl) (p : nat) (ch : Z) : rl + rl_exit :=
  let s := set_host_end (Some p) s in
  if ch =? ":"%ch then inl (set_state sw_port s)
  else if ch =? "/"%ch then inl (set_state sw_after_slash_in_uri (set_uri_start (Some p) s))
  else if ch =? " "%ch then inl (set_state sw_host_http_09 (root_of_schema s))
  else rl_invalid.

Definition step_host (s : rl) (p : nat) (ch : Z) : rl + rl_exit :=
  if is_alpha ch then inl s
  else if is_digit_ch ch || (ch =? "."%ch) || (ch =? "-"%ch) then inl s
  else step_host_end s p ch.

Definition step_host_start (s : rl) (p : nat) (ch : Z) : rl + rl_exit :=
  let s := set_host_start (Some p) s in
  if ch =? "["%ch then inl (set_state sw_host_ip_literal s)
  else step_host (set_state sw_host s) p ch.

Definition step_host_ip_literal (s : rl) (ch : Z) : rl + rl_exit :=
  if is_digit_ch ch then inl s
  else if is_alpha ch then inl s
  else if ch =? ":"%ch then inl s
  else if ch =? "]"%ch then inl (set_state sw_host_end s)
  else if bool_decide (ch ∈ bs "-._~") then inl s
  else if bool_decide (ch ∈ bs "!$&'()*+,;=") then inl s
  else rl_invalid.

Definition step_port (s : rl) (p : nat) (ch : Z) : rl + rl_exit :=
  if is_digit_ch ch then inl s
  else if ch =? "/"%ch
  then inl (set_state sw_after_slash_in_uri (set_uri_start (Some p) (set_port_end (Some p) s)))
  else if ch =? " "%ch
  then inl (set_state sw_host_http_09 (root_of_schema (set_port_end (Some p) s)))
  else rl_invalid.

(** A request without a version: HTTP/0.9. *)
Definition http_09_cr (s : rl) : rl + rl_exit :=
  inl (set_state sw_almost_done (set_http_minor 9 s)).
Definition http_09_lf (s : rl) : rl + rl_exit := inr (rl_done (set_http_minor 9 s)).

Definition step_host_http_09 (s : rl) (p : nat) (ch : Z) : rl + rl_exit :=
  if ch =? " "%ch then inl s
  else if ch =? CR then http_09_cr s
  else if ch =? LF then http_09_lf s
  else if ch =? "H"%ch then inl (set_state sw_http_H (set_http_protocol (Some p) s))
  else rl_invalid.

(** ** The URI *)

Definition step_after_slash_in_uri (s : rl) (p : nat) (ch : Z) : rl + rl_exit :=
  if usual ch then inl (set_state sw_check_uri s)
  else if ch =? " "%ch then inl (set_state sw_check_uri_http_09 (set_uri_end (Some p) s))
  else if ch =? CR then http_09_cr (set_uri_end (Some p) s)
  else if ch =? LF then http_09_lf (set_uri_end (Some p) s)
  else if ch =? "."%ch then inl (set_state sw_uri (on_flags with_complex s))
  else if ch =? "%"%ch then inl (set_state sw_uri (on_flags with_quoted s))
  else if ch =? "/"%ch then inl (set_state sw_uri (on_flags with_complex s))
  else if ch =? "?"%ch then inl (set_state sw_uri (on_flags (fun f => with_args f (p + 1)) s))
  else if ch =? "#"%ch then inl (set_state sw_uri (on_flags with_complex s))
  else if ch =? "+"%ch then inl (on_flags with_plus s)
  else if ch =? NUL then rl_invalid
  else inl (set_state sw_check_uri s).

Definition step_check_uri (s : rl) (p : nat) (ch : Z) : rl + rl_exit :=
  if usual ch then inl s
  else if ch =? "/"%ch
  then inl (set_state sw_after_slash_in_uri (on_flags (fun f => with_ext f None) s))
  else if ch =? "."%ch then inl (on_flags (fun f => with_ext f (Some (p + 1)%nat)) s)
  else if ch =? " "%ch then inl (set_state sw_check_uri_http_09 (set_uri_end (Some p) s))
  else if ch =? CR then http_09_cr (set_uri_end (Some p) s)
  else if ch =? LF then http_09_lf (set_uri_end (Some p) s)
  else if ch =? "%"%ch then inl (set_state sw_uri (on_flags with_quoted s))
  else if ch =? "?"%ch then inl (set_state sw_uri (on_flags (fun f => with_args f (p + 1)) s))
  else if ch =? "#"%ch then inl (set_state sw_uri (on_flags with_complex s))
  else if ch =? "+"%ch then inl (on_flags with_plus s)
  else if ch =? NUL then rl_invalid
  else inl s.

Definition step_uri (s : rl) (p : nat) (ch : Z) : rl + rl_exit :=
  if usual ch then inl s
  else if ch =? " "%ch then inl (set_state sw_http_09 (set_uri_end (Some p) s))
  else if ch =? CR then http_09_cr (set_uri_end (Some p) s)
  else if ch =? LF then http_09_lf (set_uri_end (Some p) s)
  else if ch =? "#"%ch then inl (on_flags with_complex s)
  else if ch =? NUL then rl_invalid
  else inl s.

(** Spaces after the URI; any other byte turns them into spaces of the URI. *)
Definition step_check_uri_http_09 (s : rl) (p : nat) (ch : Z) : rl + rl_exit :=
  if ch =? " "%ch then inl s
  else if ch =? CR then http_09_cr s
  else if ch =? LF then http_09_lf s
  else if ch =? "H"%ch then inl (set_state sw_http_H (set_http_protocol (Some p) s))
  else step_check_uri (set_state sw_check_uri (on_flags with_space s)) p ch.

Definition step_http_09 (s : rl) (p : nat) (ch : Z) : rl + rl_exit :=
  if ch =? " "%ch then inl s
  else if ch =? CR then http_09_cr s
  else if ch =? LF then http_09_lf s
  else if ch =? "H"%ch then inl (set_state sw_http_H (set_http_protocol (Some p) s))
  else step_uri (set_state sw_uri (on_flags with_space s)) p ch.

(** ** The version *)

Definition step_first_major_digit (s : rl) (ch : Z) : rl + rl_exit :=
  if (ch <? "1"%ch) || (ch >? "9"%ch) then rl_invalid
  else
    let s := set_http_major (ch - "0"%ch) s in
    if rl_http_major s >? 1 then inr (rl_error NGX_HTTP_PARSE_INVALID_VERSION)
    else inl (set_state sw_major_digit s).

Definition step_major_digit (s : rl) (ch : Z) : rl + rl_exit :=
  if ch =? "."%ch then inl (set_state sw_first_minor_digit s)
  else if (ch <? "0"%ch) || (ch >? "9"%ch) then rl_invalid
  else
    let s := set_http_major (rl_http_major s * 10 + (ch - "0"%ch)) s in
    if rl_http_major s >? 1 then inr (rl_error NGX_HTTP_PARSE_INVALID_VERSION) else inl s.

Definition step_first_minor_digit (s : rl) (ch : Z) : rl + rl_exit :=
  if (ch <? "0"%ch) || (ch >? "9"%ch) then rl_invalid
  else inl (set_state sw_minor_digit (set_http_minor (ch - "0"%ch) s)).

Definition step_minor_digit (s : rl) (ch : Z) : rl + rl_exit :=
  if ch =? CR then inl (set_state sw_almost_done s)
  else if ch =? LF then inr (rl_done s)
  else if ch =? " "%ch then inl (set_state sw_spaces_after_digit s)
  else if (ch <? "0"%ch) || (ch >? "9"%ch) then rl_invalid
  else if rl_http_minor s >? 99 then rl_invalid
  else inl (set_http_minor (rl_http_minor s * 10 + (ch - "0"%ch)) s).

Definition step_spaces_after_digit (s : rl) (ch : Z) : rl + rl_exit :=
  if ch =? " "%ch then inl s
  else if ch =? CR then inl (set_state sw_almost_done s)
  else if ch =? LF then inr (rl_done s)
  else rl_invalid.

Definition step_almost_done (s : rl) (p : nat) (ch : Z) : rl + rl_exit :=
  let s := set_request_end (Some (p - 1)%nat) s in
  if ch =? LF then inr (rl_done s) else rl_invalid.

(** ** The loop *)

Definition step {C : StrCmp} (mem : bytes) (s : rl) (p : nat) (ch : Z) : rl + rl_exit :=
  match rl_state s with
  | sw_start => step_start s p ch
  | sw_method => step_method mem s p ch
  | sw_spaces_before_uri => step_spaces_before_uri s p ch
  | sw_schema => step_schema s p ch
  | sw_schema_slash => step_expect "/"%ch sw_schema_slash_slash s ch
  | sw_schema_slash_slash => step_expect "/"%ch sw_host_start s ch
  | sw_host_start => step_host_start s p ch
  | sw_host => step_host s p ch
  | sw_host_end => step_host_end s p ch
  | sw_host_ip_literal => step_host_ip_literal s ch
  | sw_port => step_port s p ch
  | sw_host_http_09 => step_host_http_09 s p ch
  | sw_after_slash_in_uri => step_after_slash_in_uri s p ch
  | sw_check_uri => step_check_uri s p ch
  | sw_check_uri_http_09 => step_check_uri_http_09 s p ch
  | sw_uri => step_uri s p ch
  | sw_http_09 => step_http_09 s p ch
  | sw_http_H => step_expect "T"%ch sw_http_HT s ch
  | sw_http_HT => step_expect "T"%ch sw_http_HTT s ch
  | sw_http_HTT => step_expect "P"%ch sw_http_HTTP s ch
  | sw_http_HTTP => step_expect "/"%ch sw_first_major_digit s ch
  | sw_first_major_digit => step_first_major_digit s ch
  | sw_major_digit => step_major_digit s ch
  | sw_first_minor_digit => step_first_minor_digit s ch
  | sw_minor_digit => step_minor_digit s ch
  | sw_spaces_after_digit => step_spaces_after_digit s ch
  | sw_almost_done => step_almost_done s p ch
  end.

Inductive rl_result :=
  | rl_again (s : rl)                       (* NGX_AGAIN *)
  | rl_ok (s : rl) (http_version : Z) (pos : nat)   (* NGX_OK, b->pos *)
  | rl_err (rc : Z).

(** The label [done]. *)
Definition finish (s : rl) (p : nat) : rl_result :=
  let s := match rl_request_end s with None => set_request_end (Some p) s | Some _ => s end in
  let http_version := rl_http_major s * 1000 + rl_http_minor s in
  let s := set_state sw_start s in
  if (http_version =? 9) && negb (rl_method s =? NGX_HTTP_GET)
  then rl_err NGX_HTTP_PARSE_INVALID_09_METHOD
  else rl_ok s http_version (p + 1).

(** [mem] is the buffer up to [b->last], [pos] is [b->pos]. *)
Definition ngx_http_parse_request_line {C : StrCmp} (mem : bytes) (s : rl) (pos : nat)
    : rl_result :=
  match mrun (step mem) s pos (drop pos mem) with
  | inl s => rl_again s
  | inr (rl_done s, p) => finish s p
  | inr (rl_error rc, _) => rl_err rc
  end.


(** * Theorems *)

(** ** Both sets of comparison macros recognise the methods *)

(** A set of macros is sound when it agrees with the byte-by-byte one where the
    parser uses it: the byte after a method of 3 or 7 letters is the space that
    is compared with it, and the second letter of [ngx_str3Ocmp] is known. *)
Class StrCmpOk (C : StrCmp) : Prop := {
  str3_ok mem m c0 c1 c2 c3 : Forall is_byte mem → Forall is_byte [c0; c1; c2; c3] →
    mem !!! (m + 3)%nat = c3 →
    ngx_str3_cmp (StrCmp := C) mem m c0 c1 c2 c3 = ngx_str3_cmp (StrCmp := bytewise) mem m c0 c1 c2 c3;
  strO_ok mem m c0 c1 c2 c3 : Forall is_byte mem → Forall is_byte [c0; c1; c2; c3] →
    mem !!! (m + 1)%nat = c1 →
    ngx_str3Ocmp (StrCmp := C) mem m c0 c1 c2 c3 = ngx_str3Ocmp (StrCmp := bytewise) mem m c0 c1 c2 c3;
  str4_ok mem m c0 c1 c2 c3 : Forall is_byte mem → Forall is_byte [c0; c1; c2; c3] →
    ngx_str4cmp (StrCmp := C) mem m c0 c1 c2 c3 = ngx_str4cmp (StrCmp := bytewise) mem m c0 c1 c2 c3;
  str5_ok mem m c0 c1 c2 c3 c4 : Forall is_byte mem → Forall is_byte [c0; c1; c2; c3; c4] →
    ngx_str5cmp (StrCmp := C) mem m c0 c1 c2 c3 c4
    = ngx_str5cmp (StrCmp := bytewise) mem m c0 c1 c2 c3 c4;
  str6_ok mem m c0 c1 c2 c3 c4 c5 : Forall is_byte mem →
    Forall is_byte [c0; c1; c2; c3; c4; c5] →
    ngx_str6cmp (StrCmp := C) mem m c0 c1 c2 c3 c4 c5
    = ngx_str6cmp (StrCmp := bytewise) mem m c0 c1 c2 c3 c4 c5;
  str7_ok mem m c0 c1 c2 c3 c4 c5 c6 c7 : Forall is_byte mem →
    Forall is_byte [c0; c1; c2; c3; c4; c5; c6; c7] → mem !!! (m + 7)%nat = c7 →
    ngx_str7_cmp (StrCmp := C) mem m c0 c1 c2 c3 c4 c5 c6 c7
    = ngx_str7_cmp (StrCmp := bytewise) mem m c0 c1 c2 c3 c4 c5 c6 c7;
  str8_ok mem m c0 c1 c2 c3 c4 c5 c6 c7 : Forall is_byte mem →
    Forall is_byte [c0; c1; c2; c3; c4; c5; c6; c7] →
    ngx_str8cmp (StrCmp := C) mem m c0 c1 c2 c3 c4 c5 c6 c7
    = ngx_str8cmp (StrCmp := bytewise) mem m c0 c1 c2 c3 c4 c5 c6 c7;
  str9_ok mem m c0 c1 c2 c3 c4 c5 c6 c7 c8 : Forall is_byte mem →
    Forall is_byte [c0; c1; c2; c3; c4; c5; c6; c7; c8] →
    ngx_str9cmp (StrCmp := C) mem m c0 c1 c2 c3 c4 c5 c6 c7 c8
    = ngx_str9cmp (StrCmp := bytewise) mem m c0 c1 c2 c3 c4 c5 c6 c7 c8
}.

#[export] Instance bytewise_ok : StrCmpOk bytewise.
Proof. by split. Qed.

Lemma u32_of_add (c0 c1 c2 c3 : Z) :
  is_byte c0 → is_byte c1 → is_byte c2 → is_byte c3 →
  u32_of c0 c1 c2 c3 = c0 + c1 * 2 ^ 8 + c2 * 2 ^ 16 + c3 * 2 ^ 24.
Proof.
  unfold u32_of, is_byte. intros H0 H1 H2 H3.
  rewrite (Z.shiftl_mul_pow2 c2), (lor_shiftl_add c3) by lia.
  replace (c3 * 2 ^ 24 + c2 * 2 ^ 16) with (Z.shiftl (c3 * 2 ^ 8 + c2) 16)
    by (rewrite Z.shiftl_mul_pow2 by lia; lia).
  rewrite (Z.shiftl_mul_pow2 c1), (lor_shiftl_add (c3 * 2 ^ 8 + c2)) by lia.
  replace ((c3 * 2 ^ 8 + c2) * 2 ^ 16 + c1 * 2 ^ 8)
    with (Z.shiftl (c3 * 2 ^ 16 + c2 * 2 ^ 8 + c1) 8) by (rewrite Z.shiftl_mul_pow2 by lia; lia).
  rewrite lor_shiftl_add by lia. lia.
Qed.

Lemma u32_eqb (mem : bytes) (m : nat) (c0 c1 c2 c3 : Z) :
  Forall is_byte mem → is_byte c0 → is_byte c1 → is_byte c2 → is_byte c3 →
  (u32 mem m =? u32_of c0 c1 c2 c3)
  = at_ mem m 0 c0 && at_ mem m 1 c1 && at_ mem m 2 c2 && at_ mem m 3 c3.
Proof.
  intros Hm H0 H1 H2 H3. rewrite u32_of_add by done. unfold u32, at_. rewrite Nat.add_0_r.
  pose proof (lookup_total_byte mem m Hm). pose proof (lookup_total_byte mem (m + 1) Hm).
  pose proof (lookup_total_byte mem (m + 2) Hm). pose proof (lookup_total_byte mem (m + 3) Hm).
  unfold is_byte in *. lia.
Qed.

Lemma u16_eqb (mem : bytes) (m : nat) (c0 c1 : Z) :
  Forall is_byte mem → is_byte c0 → is_byte c1 →
  (Z.land (u32 mem m) 0xffff =? Z.lor (Z.shiftl c1 8) c0) = at_ mem m 0 c0 && at_ mem m 1 c1.
Proof.
  intros Hm H0 H1. change 0xffff with (Z.ones 16). rewrite Z.land_ones by lia.
  rewrite lor_shiftl_add by (unfold is_byte in *; lia). unfold u32, at_. rewrite Nat.add_0_r.
  pose proof (lookup_total_byte mem m Hm). pose proof (lookup_total_byte mem (m + 1) Hm).
  pose proof (lookup_total_byte mem (m + 2) Hm). pose proof (lookup_total_byte mem (m + 3) Hm).
  unfold is_byte in *.
  replace (mem !!! m + mem !!! (m + 1)%nat * 2 ^ 8 + mem !!! (m + 2)%nat * 2 ^ 16 +
           mem !!! (m + 3)%nat * 2 ^ 24)
    with (mem !!! m + mem !!! (m + 1)%nat * 2 ^ 8
          + (mem !!! (m + 2)%nat + mem !!! (m + 3)%nat * 2 ^ 8) * 2 ^ 16) by lia.
  rewrite Z.mod_add, Z.mod_small by lia. lia.
Qed.

(** A second word at [m + 4]. *)
Lemma at_add (mem : bytes) (m i : nat) (c : Z) : at_ mem (m + 4) i c = at_ mem m (4 + i) c.
Proof. unfold at_. by rewrite <- Nat.add_assoc. Qed.

Ltac forall_bytes :=
  repeat match goal with
  | H : Forall is_byte (_ :: _) |- _ => apply Forall_cons in H as [? ?]
  end.

#[export] Instance wordwise_ok : StrCmpOk wordwise.
Proof.
  split; intros; forall_bytes; simpl; rewrite ?u32_eqb, ?u16_eqb, ?at_add by done;
    simpl; rewrite ?andb_assoc; try done.
  - unfold at_ at 4. rewrite (proj2 (Z.eqb_eq _ _)) by done. by rewrite andb_true_r.
  - unfold at_ at 2. rewrite (proj2 (Z.eqb_eq _ _)) by done. by rewrite andb_true_r.
  - unfold at_ at 8. rewrite (proj2 (Z.eqb_eq _ _)) by done. by rewrite andb_true_r.
Qed.

(** The methods the server knows. *)
Definition method_table : list (bytes * Z) :=
  [(bs "GET", NGX_HTTP_GET); (bs "PUT", NGX_HTTP_PUT); (bs "POST", NGX_HTTP_POST);
   (bs "COPY", NGX_HTTP_COPY); (bs "MOVE", NGX_HTTP_MOVE); (bs "LOCK", NGX_HTTP_LOCK);
   (bs "HEAD", NGX_HTTP_HEAD); (bs "MKCOL", NGX_HTTP_MKCOL); (bs "PATCH", NGX_HTTP_PATCH);
   (bs "TRACE", NGX_HTTP_TRACE); (bs "DELETE", NGX_HTTP_DELETE);
   (bs "UNLOCK", NGX_HTTP_UNLOCK); (bs "OPTIONS", NGX_HTTP_OPTIONS);
   (bs "PROPFIND", NGX_HTTP_PROPFIND); (bs "PROPPATCH", NGX_HTTP_PROPPATCH)].

Definition method_named (old : Z) (name : bytes) : Z :=
  foldr (fun '(n, m) rest => if bytes_eqb name n then m else rest) old method_table.

Lemma method_of_len_agree {C : StrCmp} `{!StrCmpOk C} (len : nat) (mem : bytes) (m : nat) (old : Z) :
  Forall is_byte mem → mem !!! (m + len)%nat = " "%ch →
  method_of_len (C := C) len mem m old = method_of_len (C := bytewise) len mem m old.
Proof.
  intros Hm Hsp. destruct len as [|[|[|[|[|[|[|[|[|[|len]]]]]]]]]]; try done; unfold method_of_len;
    cbv zeta.
  - by rewrite !(str3_ok (C := C)) by (done || solve_bytes).
  - rewrite (str4_ok (C := C)) by (done || solve_bytes).
    destruct (at_ mem m 1 79) eqn:E; [|done]. apply Z.eqb_eq in E.
    by rewrite !(strO_ok (C := C)) by (done || solve_bytes).
  - by rewrite !(str5_ok (C := C)) by (done || solve_bytes).
  - by rewrite !(str6_ok (C := C)) by (done || solve_bytes).
  - by rewrite !(str7_ok (C := C)) by (done || solve_bytes).
  - by rewrite !(str8_ok (C := C)) by (done || solve_bytes).
  - by rewrite !(str9_ok (C := C)) by (done || solve_bytes).
Qed.

Lemma sub_S (mem : bytes) (m n : nat) :
  (m < length mem)%nat → sub mem m (S n) = (mem !!! m) :: sub mem (S m) n.
Proof.
  intros H. unfold sub. destruct (lookup_lt_is_Some_2 mem m H) as [x Hx].
  rewrite (drop_S _ _ _ Hx). simpl. by rewrite (list_lookup_total_correct _ _ _ Hx).
Qed.

Lemma method_of_len_named (len : nat) (mem : bytes) (m : nat) (old : Z) :
  (m + len < length mem)%nat →
  method_of_len (C := bytewise) len mem m old = method_named old (sub mem m len).
Proof.
  intros Hlen. unfold method_named, method_table.
  destruct len as [|[|[|[|[|[|[|[|[|[|len]]]]]]]]]]; repeat rewrite sub_S by lia;
    unfold method_of_len, bs; simpl; unfold at_;
    rewrite ?Nat.add_succ_r, ?Nat.add_0_r, ?andb_true_r, ?andb_false_r, <- ?andb_assoc; try done.
  destruct (Z.eqb_spec (mem !!! S m) 79) as [E|E]; [rewrite E|];
    cbn [andb Z.eqb Pos.eqb]; rewrite ?andb_false_r; done.
Qed.

(** The whole parser gives the same result with either set of macros. *)
Lemma parse_agree {C : StrCmp} `{!StrCmpOk C} (mem : bytes) (s : rl) (pos : nat) :
  Forall is_byte mem →
  ngx_http_parse_request_line (C := C) mem s pos
  = ngx_http_parse_request_line (C := bytewise) mem s pos.
Proof.
  intros Hm. unfold ngx_http_parse_request_line.
  rewrite (mrun_mem_agree (step (C := C) mem) (step (C := bytewise) mem)); [done|].
  intros t q ch Hch. unfold step. destruct (rl_state t); try done.
  unfold step_method. destruct (Z.eqb_spec ch 32) as [->|]; [|done].
  destruct (decide (default 0 (rl_request_start t) <= q)%nat).
  - rewrite method_of_len_agree; [done..|].
    replace (_ + _)%nat with q by lia. by apply list_lookup_total_correct.
  - by replace (q - default 0 (rl_request_start t))%nat with 0%nat by lia.
Qed.

(** ** Resuming *)

Lemma step_app (a b : bytes) (s : rl) (q : nat) (ch : Z) :
  (q < length a)%nat → step (C := bytewise) (a ++ b) s q ch = step (C := bytewise) a s q ch.
Proof.
  intros Hq. unfold step. destruct (rl_state s); try done.
  unfold step_method. destruct (ch =? 32); [|done]. set (m := default _ _).
  destruct (decide (m <= q)%nat).
  - rewrite !method_of_len_named by (rewrite ?length_app; lia).
    by rewrite sub_app_l by lia.
  - by replace (q - m)%nat with 0%nat by lia.
Qed.

Lemma finish_final (s s' : rl) (p : nat) : finish s p ≠ rl_again s'.
Proof. unfold finish. cbv zeta. by destruct (_ && _). Qed.

Lemma parse_app (a b : bytes) (s : rl) (pos : nat) :
  (pos <= length a)%nat →
  ngx_http_parse_request_line (C := bytewise) (a ++ b) s pos =
  match ngx_http_parse_request_line (C := bytewise) a s pos with
  | rl_again s' => ngx_http_parse_request_line (C := bytewise) (a ++ b) s' (length a)
  | r => r
  end.
Proof.
  intros Hpos. unfold ngx_http_parse_request_line at 1 2.
  rewrite drop_app_le, mrun_app by done.
  rewrite (mrun_agree (step (C := bytewise) (a ++ b)) (step (C := bytewise) a) (length a))
    by (apply step_app || (rewrite length_drop; lia)).
  destruct (mrun _ s pos (drop pos a)) as [t|[[t|rc] p]]; [|..|done].
  - unfold ngx_http_parse_request_line. rewrite length_drop, drop_app_length.
    by replace (pos + (length a - pos))%nat with (length a) by lia.
  - pose proof (finish_final t) as Hf. destruct (finish t p) eqn:E; [by apply Hf in E|done..].
Qed.

(** C31. Parsing a request line as it arrives, in any two pieces, gives what one
    call on the whole buffer gives: the state saved by [NGX_AGAIN] is enough. *)
Theorem request_line_resume {C : StrCmp} `{!StrCmpOk C} (a b : bytes) (s : rl) (pos : nat) :
  Forall is_byte (a ++ b) → (pos <= length a)%nat →
  ngx_http_parse_request_line (C := C) (a ++ b) s pos =
  match ngx_http_parse_request_line (C := C) a s pos with
  | rl_again s' => ngx_http_parse_request_line (C := C) (a ++ b) s' (length a)
  | r => r
  end.
Proof.
  intros Hb Hpos. pose proof Hb as [Ha _]%Forall_app.
  rewrite !(parse_agree (C := C)), parse_app by done.
  destruct (ngx_http_parse_request_line a s pos); [|done..]. by rewrite (parse_agree (C := C)).
Qed.

(** ** What an accepted request line guarantees *)

Definition version_inv (s : rl) : Prop :=
  match rl_state s with
  | sw_major_digit | sw_first_minor_digit => rl_http_major s = 1 ∧ rl_http_minor s = 0
  | sw_minor_digit | sw_spaces_after_digit =>
      rl_http_major s = 1 ∧ 0 <= rl_http_minor s <= 999
  | sw_almost_done =>
      rl_http_major s = 0 ∧ rl_http_minor s = 9
      ∨ rl_http_major s = 1 ∧ 0 <= rl_http_minor s <= 999
  | _ => rl_http_major s = 0 ∧ rl_http_minor s = 0
  end.

Definition version_ok (s : rl) : Prop :=
  rl_http_major s = 0 ∧ rl_http_minor s = 9
  ∨ rl_http_major s = 1 ∧ 0 <= rl_http_minor s <= 999.

Ltac unfold_steps :=
  unfold step, step_start, step_method, step_spaces_before_uri, step_schema, step_expect,
    step_check_uri_http_09, step_http_09, step_host_http_09, step_host_start, step_host,
    step_host_end, step_host_ip_literal, step_port, step_after_slash_in_uri, step_check_uri,
    step_uri, step_first_major_digit, step_major_digit, step_first_minor_digit,
    step_minor_digit, step_spaces_after_digit, step_almost_done, http_09_cr, http_09_lf,
    rl_invalid; cbv zeta.

Lemma step_version (mem : bytes) (s : rl) (p : nat) (ch : Z) :
  version_inv s →
  match step (C := bytewise) mem s p ch with
  | inl s' => version_inv s'
  | inr (rl_done s') => version_ok s'
  | inr (rl_error _) => True
  end.
Proof.
  unfold version_inv at 1. unfold_steps.
  destruct (rl_state s) eqn:Est; intros Hv; split_ifs; try done;
    unfold version_inv, version_ok; simpl in *; rewrite ?Est; try lia.
Qed.

(** No byte of [u .. e) ends a line or a string. *)
Definition clean (mem : bytes) (u e : nat) : Prop :=
  ∀ i c, (u <= i < e)%nat → mem !! i = Some c → c ≠ NUL ∧ c ≠ CR ∧ c ≠ LF.

Definition started (start : option nat) (n : nat) : Prop :=
  ∃ r0, start = Some r0 ∧ (r0 < n)%nat.

(** The pointers that are set in a state, and their order. *)
Definition ptr_inv (mem : bytes) (s : rl) (p : nat) : Prop :=
  rl_request_end s = None ∧
  match rl_state s with
  | sw_start => True
  | sw_method | sw_spaces_before_uri | sw_schema => started (rl_request_start s) p
  | sw_schema_slash => ∃ se, rl_schema_end s = Some se ∧ p = (se + 1)%nat ∧ started (rl_request_start s) se
  | sw_schema_slash_slash =>
      ∃ se, rl_schema_end s = Some se ∧ p = (se + 2)%nat ∧ started (rl_request_start s) se
            ∧ mem !! (se + 1)%nat = Some "/"%ch
  | sw_host_start | sw_host | sw_host_end | sw_host_ip_literal | sw_port =>
      ∃ se, rl_schema_end s = Some se ∧ (se + 3 <= p)%nat ∧ started (rl_request_start s) se
            ∧ mem !! (se + 1)%nat = Some "/"%ch
  | sw_after_slash_in_uri | sw_check_uri | sw_uri =>
      ∃ u, rl_uri_start s = Some u ∧ (u < p)%nat ∧ started (rl_request_start s) u ∧ clean mem u p
  | sw_check_uri_http_09 | sw_http_09 =>
      ∃ u e, rl_uri_start s = Some u ∧ rl_uri_end s = Some e ∧ (u < e < p)%nat
             ∧ started (rl_request_start s) u ∧ clean mem u p
  | _ =>
      ∃ u e, rl_uri_start s = Some u ∧ rl_uri_end s = Some e ∧ (u < e < p)%nat
             ∧ started (rl_request_start s) u ∧ clean mem u e
  end.

Definition done_inv (mem : bytes) (s : rl) (p : nat) : Prop :=
  ∃ u e, rl_uri_start s = Some u ∧ rl_uri_end s = Some e ∧ (u < e)%nat
         ∧ started (rl_request_start s) u ∧ clean mem u e
         ∧ (rl_request_end s = None ∧ (e <= p)%nat
            ∨ rl_request_end s = Some (p - 1)%nat ∧ (e <= p - 1)%nat).

Lemma started_mono (r : option nat) (n m : nat) : started r n → (n <= m)%nat → started r m.
Proof. intros (r0 & ? & ?) ?. exists r0. split; [done|lia]. Qed.

Lemma clean_prefix (mem : bytes) (u e p : nat) : clean mem u p → (e <= p)%nat → clean mem u e.
Proof. intros H He i c Hi. apply H. lia. Qed.

Lemma clean_snoc (mem : bytes) (u p : nat) (ch : Z) :
  clean mem u p → mem !! p = Some ch → ch ≠ NUL → ch ≠ CR → ch ≠ LF → clean mem u (p + 1).
Proof.
  intros H Hp ? ? ? i c Hi Hc. destruct (decide (i = p)) as [->|].
  - rewrite Hp in Hc. by injection Hc as ->.
  - apply (H i c); [lia|done].
Qed.

Lemma clean_one (mem : bytes) (p : nat) (ch : Z) :
  mem !! p = Some ch → ch ≠ NUL → ch ≠ CR → ch ≠ LF → clean mem p (p + 1).
Proof. intros. apply clean_snoc with ch; try done. intros i c Hi. lia. Qed.

Lemma usual_clean (ch : Z) : usual ch = true → ch ≠ NUL ∧ ch ≠ CR ∧ ch ≠ LF.
Proof. intros H. split_and!; intros ->; by vm_compute in H. Qed.

Lemma started_here (p : nat) : started (Some p) (p + 1).
Proof. exists p. split; [done|lia]. Qed.

Lemma clean_root (mem : bytes) (se : nat) :
  mem !! (se + 1)%nat = Some "/"%ch → clean mem (se + 1) (se + 2).
Proof.
  intros H. replace (se + 2)%nat with (se + 1 + 1)%nat by lia. by apply clean_one with 47.
Qed.

Create HintDb rl.
#[local] Hint Resolve started_here started_mono clean_prefix clean_snoc clean_one clean_root : rl.
#[local] Hint Extern 1 (_ < _)%nat => lia : rl.
#[local] Hint Extern 1 (_ <= _)%nat => lia : rl.
#[local] Hint Extern 1 (_ ≠ _) => lia : rl.

(** The goals that [step_ptr] leaves for each branch. *)
Ltac solve_ptr :=
  lazymatch goal with |- (∃ _, _) ∧ _ => split; [|lia] | |- _ => idtac end;
  repeat match goal with |- ∃ _, _ => eexists end; split_and?;
  first [ done | reflexivity | lia
        | left; split; (done || lia) | right; split; (done || lia)
        | solve [eauto 4 with rl] ].

Lemma step_ptr (mem : bytes) (s : rl) (p : nat) (ch : Z) :
  mem !! p = Some ch → ptr_inv mem s p →
  match step (C := bytewise) mem s p ch with
  | inl s' => ptr_inv mem s' (p + 1)
  | inr (rl_done s') => done_inv mem s' p ∧ ch = LF
  | inr (rl_error _) => True
  end.
Proof.
  intros Hch [Hre H]. revert H. unfold_steps.
  destruct (rl_state s) eqn:Est; intros H;
    repeat match goal with
    | H : ∃ _, _ |- _ => destruct H as [? H]
    | H : _ ∧ _ |- _ => destruct H as [? H]
    end; split_ifs; try done;
    repeat match goal with
    | H : usual ch = true |- _ => apply usual_clean in H as (? & ? & ?)
    | H : (ch =? _) = true |- _ => apply Z.eqb_eq in H; subst ch
    end;
    unfold ptr_inv, done_inv, root_of_schema; simpl; rewrite ?Est;
    repeat match goal with H : ?x = Some _ |- context [?x] => rewrite H end; simpl;
    try (split; [done|]); try subst p; solve_ptr.
Qed.

(** Both invariants along the whole run. *)
Lemma run_inv (mem : bytes) (p : nat) (s : rl) :
  mrun (step (C := bytewise) mem) rl_init 0 mem = inr (rl_done s, p) →
  done_inv mem s p ∧ version_ok s ∧ mem !! p = Some LF ∧ (p < length mem)%nat.
Proof.
  intros E. pose proof (mrun_mem_invariant (step (C := bytewise) mem) mem
    (fun s p => ptr_inv mem s p ∧ version_inv s) rl_init 0) as H.
  rewrite drop_0, E in H. destruct H as (t & ch & Hch & [H1 H2] & Et & Hp).
  - intros t q c t' Hc [H1 H2] Et.
    pose proof (step_ptr mem t q c Hc H1). pose proof (step_version mem t q c H2).
    by rewrite Et in *.
  - split; [by split|done].
  - lia.
  - pose proof (step_ptr mem t p ch Hch H1) as G1. pose proof (step_version mem t p ch H2) as G2.
    rewrite Et in G1, G2. destruct G1 as [? ->]. split_and!; (done || lia).
Qed.

(** C30. A request line that is accepted: the pointers delimit a non-empty URI after
    the method and inside the line, the URI has no NUL and no line break in it,
    [b->pos] is just after the line feed, and the version is HTTP/0.9 with GET or
    HTTP/1.x with a minor version of at most three digits. *)
Theorem request_line_ok {C : StrCmp} `{!StrCmpOk C} (mem : bytes) (s : rl) (v : Z) (pos : nat) :
  Forall is_byte mem →
  ngx_http_parse_request_line (C := C) mem rl_init 0 = rl_ok s v pos →
  ∃ r0 u e re,
    rl_request_start s = Some r0 ∧ rl_uri_start s = Some u ∧ rl_uri_end s = Some e
    ∧ rl_request_end s = Some re
    ∧ (r0 < u < e)%nat ∧ (e <= re < pos)%nat ∧ (pos <= length mem)%nat
    ∧ mem !! (pos - 1)%nat = Some LF ∧ clean mem u e
    ∧ (v = 9 ∧ rl_method s = NGX_HTTP_GET ∨ 1000 <= v <= 1999).
Proof.
  intros Hb. rewrite parse_agree by done. unfold ngx_http_parse_request_line. rewrite drop_0.
  destruct (mrun _ rl_init 0 mem) as [t|[[t|rc] p]] eqn:E; try done.
  apply run_inv in E as ((u & e & Hu & He & Hue & (r0 & Hr0 & Hlt) & Hcl & Hre) & Hv & Hlf & Hp).
  unfold finish. cbv zeta. destruct (_ && negb _) eqn:Em; [done|]. intros [= <- <- <-].
  exists r0, u, e. replace (p + 1 - 1)%nat with p by lia.
  assert (G : ∀ t' re, rl_request_start t' = Some r0 → rl_uri_start t' = Some u →
    rl_uri_end t' = Some e → rl_request_end t' = Some re → (e <= re <= p)%nat →
    rl_http_major t' * 1000 + rl_http_minor t' = rl_http_major t * 1000 + rl_http_minor t →
    rl_method t' = rl_method t →
    ((rl_http_major t' * 1000 + rl_http_minor t' =? 9) && negb (rl_method t' =? NGX_HTTP_GET)) = false →
    ∃ re, rl_request_start t' = Some r0 ∧ rl_uri_start t' = Some u ∧ rl_uri_end t' = Some e
    ∧ rl_request_end t' = Some re ∧ (r0 < u < e)%nat ∧ (e <= re < p + 1)%nat
    ∧ (p + 1 <= length mem)%nat ∧ mem !! p = Some LF ∧ clean mem u e
    ∧ (rl_http_major t' * 1000 + rl_http_minor t' = 9 ∧ rl_method t' = NGX_HTTP_GET
       ∨ 1000 <= rl_http_major t' * 1000 + rl_http_minor t' <= 1999)).
  { intros t' re ? ? ? ? ? Ev Eme Em'. exists re. split_and!; (done || lia || idtac).
    unfold version_ok in Hv. rewrite Ev, Eme in *. lia. }
  destruct Hre as [[Hre He2]|[Hre He2]]; rewrite Hre in *; simpl in *.
  - by apply (G (set_state sw_start (set_request_end (Some p) t)) p).
  - apply (G (set_state sw_start t) (p - 1)%nat); (done || simpl; lia).
Qed.

Lemma request_line_ok_witness :
  ∃ r0 u e re : nat, (r0 < u < e)%nat ∧ (e <= re < 42)%nat.
Proof.
  destruct (request_line_ok (C := wordwise)
    (bs "POST /customerManager/login?a=b HTTP/1.1" ++ crlf)
    (mk_rl sw_start (Some 0) (Some 3) 8 (Some 5) (Some 31) None None None None None (Some 32)
       1 1 (Some 40) (mk_flags None (Some 28) false false false false))%nat 1001 42)
    as (r0 & u & e & re & _ & _ & _ & _ & H1 & H2 & _); [solve_bytes|by vm_compute|].
  by exists r0, u, e, re.
Defined.

Lemma request_line_resume_witness :
  ngx_http_parse_request_line (C := wordwise) (bs "GE" ++ bs "T / HTTP/1.0" ++ crlf) rl_init 0 =
  ngx_http_parse_request_line (C := wordwise) (bs "GE" ++ bs "T / HTTP/1.0" ++ crlf)
    (set_state sw_method (set_request_start (Some 0%nat) rl_init)) 2.
Proof.
  rewrite (request_line_resume (C := wordwise) (bs "GE") (bs "T / HTTP/1.0" ++ crlf) rl_init 0);
    [reflexivity|solve_bytes|simpl; lia].
Defined.

(** ** Well-formed request lines *)

Lemma run_method (mem : bytes) (name rest : bytes) (s : rl) (p : nat) :
  Forall (fun c => is_method_char c = true) name → rl_state s = sw_method →
  mrun (step (C := bytewise) mem) s p (name ++ rest)
  = mrun (step (C := bytewise) mem) s (p + length name) rest.
Proof.
  intros Hn Hs. revert p. induction Hn as [|c name Hc Hn IH]; intros p; simpl.
  - by rewrite Nat.add_0_r.
  - unfold step at 1. rewrite Hs. unfold step_method. rewrite Hc.
    destruct (Z.eqb_spec c 32) as [->|]; [done|]. cbn [negb]. rewrite IH. f_equal. lia.
Qed.

(** A byte that can stand in a request target. *)
Definition target_char (c : Z) : Prop := c ≠ " "%ch ∧ c ≠ CR ∧ c ≠ LF ∧ c ≠ NUL.

Definition embed (st : RawUri.state) : state :=
  match st with
  | RawUri.sw_start | RawUri.sw_after_slash_in_uri => sw_after_slash_in_uri
  | RawUri.sw_check_uri => sw_check_uri
  | RawUri.sw_uri => sw_uri
  end.

(** The URI states of the request line are those of [ngx_http_parse_uri]. *)
Lemma step_target (mem : bytes) (s : rl) (st : RawUri.state) (f : uri_flags) (p : nat) (c : Z) :
  target_char c → st ≠ RawUri.sw_start →
  ∃ st' f', RawUri.step (st, f) p c = inl (st', f') ∧ st' ≠ RawUri.sw_start
  ∧ step (C := bytewise) mem (set_state (embed st) (set_flags f s)) p c
    = inl (set_state (embed st') (set_flags f' s)).
Proof.
  intros (H1 & H2 & H3 & H4) Hst. unfold step. cbn [rl_state set_state].
  destruct st; [done|..]; cbn [embed RawUri.step].
  all: unfold step_after_slash_in_uri, step_check_uri, step_uri, RawUri.step_after_slash,
    RawUri.step_check_uri, RawUri.step_uri;
    rewrite !(proj2 (Z.eqb_neq c 32)), !(proj2 (Z.eqb_neq c 13)), !(proj2 (Z.eqb_neq c 10)),
      !(proj2 (Z.eqb_neq c 0)) by done; split_ifs; by do 2 eexists.
Qed.

Lemma run_target (mem : bytes) (s : rl) (l rest : bytes) (st : RawUri.state) (f : uri_flags) (p : nat) :
  Forall target_char l → st ≠ RawUri.sw_start →
  ∃ st' f', mrun RawUri.step (st, f) p l = inl (st', f') ∧ st' ≠ RawUri.sw_start
  ∧ mrun (step (C := bytewise) mem) (set_state (embed st) (set_flags f s)) p (l ++ rest)
    = mrun (step (C := bytewise) mem) (set_state (embed st') (set_flags f' s)) (p + length l) rest.
Proof.
  intros Hl. revert st f p. induction Hl as [|c l Hc Hl IH]; intros st f p Hst; cbn [mrun app length].
  - exists st, f. by rewrite Nat.add_0_r.
  - destruct (step_target mem s st f p c Hc Hst) as (st1 & f1 & -> & H1 & ->).
    destruct (IH st1 f1 (p + 1)%nat H1) as (st2 & f2 & -> & H2 & ->).
    exists st2, f2. split_and!; [done..|]. f_equal. lia.
Qed.

(** The space after the target. *)
Lemma step_target_end (mem : bytes) (s : rl) (st : RawUri.state) (p : nat) (rest : bytes) :
  st ≠ RawUri.sw_start →
  mrun (step (C := bytewise) mem) (set_state (embed st) s) p (bs " HTTP/1." ++ rest) =
  mrun (step (C := bytewise) mem)
    (set_state sw_first_minor_digit
       (set_http_major 1 (set_http_protocol (Some (p + 1)%nat) (set_uri_end (Some p) s))))
    (p + 8) rest.
Proof.
  intros Hst. replace (p + 8)%nat with (p + 1 + 1 + 1 + 1 + 1 + 1 + 1 + 1)%nat by lia.
  by destruct st.
Qed.

Lemma run_minor (mem : bytes) (ds rest : bytes) (s : rl) (p : nat) (k : nat) :
  Forall NgxNumber.is_digit ds → 0 <= rl_http_minor s < 10 ^ Z.of_nat k → (k + length ds <= 3)%nat →
  mrun (step (C := bytewise) mem) (set_state sw_minor_digit s) p (ds ++ rest) =
  mrun (step (C := bytewise) mem)
    (set_state sw_minor_digit (set_http_minor (dec_value (rl_http_minor s) ds) s))
    (p + length ds) rest.
Proof.
  intros Hd. revert s p k. induction Hd as [|c ds Hc Hd IH]; intros s p k Hm Hk.
  - rewrite Nat.add_0_r. simpl. by destruct s.
  - simpl in Hk. cbn [app mrun]. unfold step at 1. cbn [rl_state set_state].
    unfold step_minor_digit. unfold NgxNumber.is_digit in Hc.
    assert (10 ^ Z.of_nat k <= 10 ^ 2) by (apply Z.pow_le_mono_r; lia).
    cbn [rl_http_minor set_state]. norm_tests.
    replace ((c <? 48) || (c >? 57)) with false by lia.
    replace (rl_http_minor s >? 99) with false by lia.
    specialize (IH (set_http_minor (rl_http_minor s * 10 + (c - 48)) s) (p + 1)%nat (S k)).
    rewrite Nat2Z.inj_succ, Z.pow_succ_r in IH by lia. simpl in IH.
    rewrite dec_value_cons. cbn [length].
    replace (p + S (length ds))%nat with (p + 1 + length ds)%nat by lia.
    etransitivity; [|apply IH; lia]. done.
Qed.

(** Offsets in the request line and offsets in the URI. *)
Definition shift_flags (k : nat) (f : uri_flags) : uri_flags :=
  mk_flags (option_map (Nat.add k) (f_uri_ext f)) (option_map (Nat.add k) (f_args_start f))
    (f_complex_uri f) (f_quoted_uri f) (f_plus_in_uri f) (f_space_in_uri f).

Lemma raw_step_shift (k p : nat) (st : RawUri.state) (f : uri_flags) (c : Z) :
  RawUri.step (st, shift_flags k f) (k + p) c =
  match RawUri.step (st, f) p c with
  | inl (st', f') => inl (st', shift_flags k f')
  | inr r => inr r
  end.
Proof.
  destruct st; simpl; [by destruct (c =? 47)|..];
    unfold RawUri.step_after_slash, RawUri.step_check_uri, RawUri.step_uri; split_ifs; try done;
    unfold shift_flags, with_args, with_ext; simpl; by rewrite Nat.add_assoc.
Qed.

Lemma raw_run_shift (k p : nat) (st : RawUri.state) (f : uri_flags) (l : bytes) :
  mrun RawUri.step (st, shift_flags k f) (k + p) l =
  match mrun RawUri.step (st, f) p l with
  | inl (st', f') => inl (st', shift_flags k f')
  | inr (r, q) => inr (r, (k + q)%nat)
  end.
Proof.
  revert st f p. induction l as [|c l IH]; intros st f p; cbn [mrun]; [done|].
  rewrite raw_step_shift. destruct (RawUri.step (st, f) p c) as [[st' f']|]; [|done].
  by rewrite <- Nat.add_assoc, IH.
Qed.

(** METHOD SP target SP HTTP/1.digits CRLF *)
Definition request_line (name target ds : bytes) : bytes :=
  name ++ bs " " ++ target ++ bs " HTTP/1." ++ ds ++ crlf.

(** The request when the first byte of the target has been read. *)
Definition rl_at_uri (name : bytes) : rl :=
  mk_rl sw_start (Some 0%nat) (Some (length name - 1)%nat) (method_named NGX_HTTP_UNKNOWN name)
    (Some (length name + 1)%nat) None None None None None None None 0 0 None no_flags.

(** The part up to the target. *)
Lemma run_start (mem name t tl : bytes) :
  name ≠ [] → Forall (fun c => is_method_char c = true) name →
  mem = name ++ bs " " ++ "/"%ch :: t ++ tl →
  mrun (step (C := bytewise) mem) rl_init 0 mem =
  mrun (step (C := bytewise) mem)
    (set_state (embed RawUri.sw_after_slash_in_uri) (set_flags no_flags (rl_at_uri name)))
    (length name + 2) (t ++ tl).
Proof.
  intros Hne Hm Hmem. rewrite Hmem at 2. destruct name as [|c name]; [done|].
  pose proof Hm as [Hc Hn]%Forall_cons. cbn [app mrun]. unfold step at 1.
  cbn [rl_state rl_init]. unfold step_start. rewrite Hc. cbn [negb].
  destruct ((c =? 13) || (c =? 10)) eqn:Ec.
  { exfalso. assert (c = 13 ∨ c = 10) as [-> | ->] by lia; done. }
  rewrite run_method by done. change (bs " ") with [32]. cbn [app mrun].
  unfold step at 1. cbn [rl_state set_state]. unfold step_method. cbn [Z.eqb Pos.eqb].
  unfold step at 1. cbn [rl_state set_state]. unfold step_spaces_before_uri. cbn [Z.eqb Pos.eqb].
  cbn [set_state set_request_start rl_request_start rl_init default rl_method].
  assert (Hml : method_of_len (C := bytewise) (0 + 1 + length name - 0) mem 0 NGX_HTTP_UNKNOWN
                = method_named NGX_HTTP_UNKNOWN (c :: name)).
  { rewrite method_of_len_named by (rewrite Hmem, !length_app; simpl; lia).
    f_equal. rewrite Hmem. unfold sub. rewrite drop_0, Nat.sub_0_r.
    apply (take_app_length (c :: name)). }
  unfold id. rewrite Hml. cbn [length].
  replace (0 + 1 + length name + 1 + 1)%nat with (S (length name) + 2)%nat by lia.
  replace (0 + 1 + length name + 1)%nat with (S (length name) + 1)%nat by lia.
  replace (0 + 1 + length name - 1)%nat with (S (length name) - 1)%nat by lia.
  reflexivity.
Qed.

Lemma finish_1x (s : rl) (p : nat) (m : Z) :
  is_Some (rl_request_end s) → rl_http_major s = 1 → rl_http_minor s = m → 0 <= m →
  finish s p = rl_ok (set_state sw_start s) (1000 + m) (p + 1).
Proof.
  intros [e He] H1 H2 Hm. unfold finish. rewrite He. cbv zeta. rewrite H1, H2.
  replace (1 * 1000 + m =? 9) with false by lia. cbn [andb]. f_equal.
Qed.

(** C29. A well-formed request line in origin form is accepted: the method is looked
    up by its name, the URI is exactly the target, its flags are those of
    [ngx_http_parse_uri], the version is read in decimal, and [b->pos] is left at
    the first byte of the headers. *)
Theorem request_line_wellformed {C : StrCmp} `{!StrCmpOk C} (name t ds rest : bytes) :
  let target := "/"%ch :: t in
  let u := (length name + 1)%nat in
  name ≠ [] → Forall (fun c => is_method_char c = true) name →
  Forall target_char target → ds ≠ [] → Forall NgxNumber.is_digit ds → (length ds <= 3)%nat →
  Forall is_byte (request_line name target ds ++ rest) →
  ∃ f s,
    RawUri.ngx_http_parse_uri target no_flags = inl f
    ∧ ngx_http_parse_request_line (C := C) (request_line name target ds ++ rest) rl_init 0
      = rl_ok s (1000 + dec_value 0 ds) (length (request_line name target ds))
    ∧ rl_method s = method_named NGX_HTTP_UNKNOWN name
    ∧ rl_uri_start s = Some u ∧ rl_uri_end s = Some (u + length target)%nat
    ∧ rl_flags s = shift_flags u f.
Proof.
  intros target u Hne Hm Ht Hds Hd Hl Hb. rewrite parse_agree by done.
  set (mem := request_line name target ds ++ rest).
  assert (Hmem : mem = name ++ bs " " ++ "/"%ch :: t ++ bs " HTTP/1." ++ ds ++ crlf ++ rest).
  { unfold mem, request_line, target. by rewrite <- !app_assoc. }
  unfold ngx_http_parse_request_line. rewrite drop_0, (run_start mem name t _ Hne Hm Hmem).
  inversion Ht as [|? ? _ Ht']; subst.
  destruct (run_target mem (rl_at_uri name) t (bs " HTTP/1." ++ ds ++ crlf ++ rest)
     RawUri.sw_after_slash_in_uri no_flags (length name + 2) Ht') as (st' & f' & E & Hst & ->); [done|].
  change no_flags with (shift_flags u no_flags) in E.
  replace (length name + 2)%nat with (u + 1)%nat in E by (unfold u; lia).
  rewrite raw_run_shift in E.
  destruct (mrun RawUri.step (RawUri.sw_after_slash_in_uri, no_flags) 1 t) as [[st f]|[]] eqn:Er;
    [|done]. injection E as -> <-.
  rewrite step_target_end by done. destruct ds as [|d ds]; [done|].
  inversion Hd as [|? ? Hd0 Hd']; subst. cbn [app mrun]. unfold step at 1. cbn [rl_state set_state].
  unfold step_first_minor_digit. rewrite (proj2 (digit_guard d)) by done.
  rewrite (run_minor mem ds _ _ _ 1) by (done || (simpl in *; unfold NgxNumber.is_digit in Hd0; lia)).
  eexists f, _. split_and!.
  - unfold RawUri.ngx_http_parse_uri.
    change (mrun RawUri.step (RawUri.sw_start, no_flags) 0 target)
      with (mrun RawUri.step (RawUri.sw_after_slash_in_uri, no_flags) 1 t).
    by rewrite Er.
  - cbn [crlf app mrun]. unfold step at 1. cbn [rl_state set_state].
    unfold step_minor_digit. cbn [Z.eqb Pos.eqb]. unfold step at 1. cbn [rl_state set_state].
    unfold step_almost_done. cbn [Z.eqb Pos.eqb].
    rewrite (finish_1x _ _ (dec_value (d - 48) ds)).
    + f_equal. unfold request_line. rewrite !length_app. simpl. lia.
    + done.
    + done.
    + done.
    + unfold NgxNumber.is_digit in Hd0. transitivity (d - 48); [lia|].
      apply dec_value_ge; [lia|done].
  - done.
  - done.
  - simpl. f_equal. unfold u. lia.
  - done.
Qed.

Lemma request_line_wellformed_witness :
  ∃ f s,
    RawUri.ngx_http_parse_uri (bs "/customerManager/login?x=1") no_flags = inl f
    ∧ ngx_http_parse_request_line (C := wordwise)
        (request_line (bs "POST") (bs "/customerManager/login?x=1") (bs "1") ++ bs "Host: a") rl_init 0
      = rl_ok s 1001 42
    ∧ rl_method s = NGX_HTTP_POST
    ∧ rl_uri_start s = Some 5%nat ∧ rl_uri_end s = Some 31%nat
    ∧ rl_flags s = shift_flags 5 f.
Proof.
  apply (request_line_wellformed (C := wordwise) (bs "POST") (bs "customerManager/login?x=1")
    (bs "1") (bs "Host: a")); try done; try (simpl; lia).
  - solve_forall done.
  - solve_forall ltac:(unfold target_char; lia).
  - solve_forall ltac:(unfold NgxNumber.is_digit; lia).
  - solve_bytes.
Defined.

End RequestLine.
