(* ===== verification/HttpHeader.v ===== *)
(** * Header lines

    [ngx_http_parse_header_line] of src/nginx-master/src/http/ngx_http_parse.c,
    the resumable parser of one header line of a request or of an upstream
    response, and the hash functions of src/nginx-master/src/core/ngx_hash.c
    whose value it computes on the fly.  The conventions are those of the
    request line; the writes to [r->lowcase_header], an array of 32 bytes, are
    checked against its bounds. *)

From S2P Require Import Prelude NgxNumber NgxCompare HttpRequestLine.

Open Scope Z_scope.

Definition NGX_HTTP_PARSE_HEADER_DONE : Z := 1.
Definition NGX_HTTP_PARSE_INVALID_HEADER : Z := 14.
Definition NGX_HTTP_LC_HEADER_LEN : nat := 32.

(** ** ngx_hash.h, ngx_hash.c *)

(** [((ngx_uint_t) key * 31 + c)] *)
Definition ngx_hash (key c : Z) : Z := wrap_u 64 (wrap_u 64 key * 31 + c).

Fixpoint hash_key_loop (key : Z) (data : bytes) : Z :=
  match data with [] => key | c :: data' => hash_key_loop (ngx_hash key c) data' end.

Definition ngx_hash_key (data : bytes) : Z := hash_key_loop 0 data.

Definition ngx_hash_key_lc (data : bytes) : Z := hash_key_loop 0 (map ngx_tolower data).

(** The copy in lower case, and the hash of it. *)
Fixpoint hash_strlow_loop (key : Z) (dst src : bytes) : Z * bytes :=
  match src with
  | [] => (key, dst)
  | c :: src' =>
      let c := ngx_tolower c in
      hash_strlow_loop (ngx_hash key c) (dst ++ [c]) src'
  end.

Definition ngx_hash_strlow (src : bytes) : Z * bytes := hash_strlow_loop 0 [] src.

Module HeaderLine.

(** ** State *)

Inductive state :=
  | sw_start | sw_name | sw_space_before_value | sw_value | sw_space_after_value
  | sw_ignore_line | sw_almost_done | sw_header_almost_done.

(** The table [lowcase[]]. *)
Definition nuls (n : nat) : bytes := replicate n 0.

Definition lowcase_tbl : bytes :=
  nuls 32
  ++ nuls 13 ++ bs "-" ++ nuls 2 ++ bs "0123456789" ++ nuls 6
  ++ nuls 1 ++ bs "abcdefghijklmnopqrstuvwxyz" ++ nuls 5
  ++ nuls 1 ++ bs "abcdefghijklmnopqrstuvwxyz" ++ nuls 5
  ++ nuls 32 ++ nuls 32 ++ nuls 32 ++ nuls 31 ++ nuls 1.

Definition lowcase (ch : Z) : Z := lowcase_tbl !!! Z.to_nat ch.

Record hd := mk_hd {
  hd_state : state;
  hd_hash : Z;   (* the local hash, saved in r->header_hash *)
  hd_i : nat;   (* the local i, saved in r->lowcase_index *)
  hd_lowcase_header : bytes;
  hd_header_name_start : option nat;
  hd_header_name_end : option nat;
  hd_header_start : option nat;
  hd_header_end : option nat;
  hd_invalid_header : bool
}.

Definition set_state (v : state) (s : hd) : hd :=
  mk_hd v (hd_hash s) (hd_i s) (hd_lowcase_header s) (hd_header_name_start s)
    (hd_header_name_end s) (hd_header_start s) (hd_header_end s) (hd_invalid_header s).
Definition set_hash (v : Z) (s : hd) : hd :=
  mk_hd (hd_state s) v (hd_i s) (hd_lowcase_header s) (hd_header_name_start s)
    (hd_header_name_end s) (hd_header_start s) (hd_header_end s) (hd_invalid_header s).
Definition set_i (v : nat) (s : hd) : hd :=
  mk_hd (hd_state s) (hd_hash s) v (hd_lowcase_header s) (hd_header_name_start s)
    (hd_header_name_end s) (hd_header_start s) (hd_header_end s) (hd_invalid_header s).
Definition set_lowcase_header (v : bytes) (s : hd) : hd :=
  mk_hd (hd_state s) (hd_hash s) (hd_i s) v (hd_header_name_start s) (hd_header_name_end s)
    (hd_header_start s) (hd_header_end s) (hd_invalid_header s).
Definition set_header_name_start (v : option nat) (s : hd) : hd :=
  mk_hd (hd_state s) (hd_hash s) (hd_i s) (hd_lowcase_header s) v (hd_header_name_end s)
    (hd_header_start s) (hd_header_end s) (hd_invalid_header s).
Definition set_header_name_end (v : option nat) (s : hd) : hd :=
  mk_hd (hd_state s) (hd_hash s) (hd_i s) (hd_lowcase_header s) (hd_header_name_start s) v
    (hd_header_start s) (hd_header_end s) (hd_invalid_header s).
Definition set_header_start (v : option nat) (s : hd) : hd :=
  mk_hd (hd_state s) (hd_hash s) (hd_i s) (hd_lowcase_header s) (hd_header_name_start s)
    (hd_header_name_end s) v (hd_header_end s) (hd_invalid_header s).
Definition set_header_end (v : option nat) (s : hd) : hd :=
  mk_hd (hd_state s) (hd_hash s) (hd_i s) (hd_lowcase_header s) (hd_header_name_start s)
    (hd_header_name_end s) (hd_header_start s) v (hd_invalid_header s).
Definition set_invalid_header (v : bool) (s : hd) : hd :=
  mk_hd (hd_state s) (hd_hash s) (hd_i s) (hd_lowcase_header s) (hd_header_name_start s)
    (hd_header_name_end s) (hd_header_start s) (hd_header_end s) v.

Definition hd_init : hd :=
  mk_hd sw_start 0 0 (replicate NGX_HTTP_LC_HEADER_LEN 0) None None None None false.

Inductive hd_exit :=
  | hd_done (s : hd)             (* goto done *)
  | hd_header_done (s : hd)      (* goto header_done *)
  | hd_error (rc : Z)
  | hd_fault.                    (* a write outside r->lowcase_header *)

Definition hd_invalid : hd + hd_exit := inr (hd_error NGX_HTTP_PARSE_INVALID_HEADER).

Definition goto (st : state) (s : hd) : hd + hd_exit := inl (set_state st s).

(** [hash = ngx_hash(0, c); r->lowcase_header[0] = c; i = 1;] *)
Definition first_byte (c : Z) (s : hd) : hd + hd_exit :=
  if (0 <? length (hd_lowcase_header s))%nat
  then inl (set_i 1 (set_lowcase_header (<[0%nat := c]> (hd_lowcase_header s))
              (set_hash (ngx_hash 0 c) s)))
  else inr hd_fault.

(** [hash = ngx_hash(hash, c); r->lowcase_header[i++] = c;
    i &= (NGX_HTTP_LC_HEADER_LEN - 1);] *)
Definition next_byte (c : Z) (s : hd) : hd + hd_exit :=
  if (hd_i s <? length (hd_lowcase_header s))%nat
  then inl (set_i (Nat.land (hd_i s + 1) (NGX_HTTP_LC_HEADER_LEN - 1))
              (set_lowcase_header (<[hd_i s := c]> (hd_lowcase_header s))
                 (set_hash (ngx_hash (hd_hash s) c) s)))
  else inr hd_fault.

Section Parser.
Variable allow_underscores : bool.
Variable upstream : bool.          (* r->upstream is set *)
Variable mem : bytes.

Definition step_start (s : hd) (p : nat) (ch : Z) : hd + hd_exit :=
  let s := set_invalid_header false (set_header_name_start (Some p) s) in
  if ch =? CR then goto sw_header_almost_done (set_header_end (Some p) s)
  else if ch =? LF then inr (hd_header_done (set_header_end (Some p) s))
  else
    let s := set_state sw_name s in
    let c := lowcase ch in
    if negb (c =? 0) then first_byte c s
    else if ch =? "_"%ch then
      if allow_underscores then first_byte ch s else inl (set_invalid_header true s)
    else if ch =? NUL then hd_invalid
    else inl (set_invalid_header true s).

Definition step_name (s : hd) (p : nat) (ch : Z) : hd + hd_exit :=
  let c := lowcase ch in
  if negb (c =? 0) then next_byte c s
  else if ch =? "_"%ch then
    if allow_underscores then next_byte ch s else inl (set_invalid_header true s)
  else if ch =? ":"%ch then goto sw_space_before_value (set_header_name_end (Some p) s)
  else if ch =? CR
  then goto sw_almost_done
         (set_header_end (Some p) (set_header_start (Some p) (set_header_name_end (Some p) s)))
  else if ch =? LF
  then inr (hd_done
         (set_header_end (Some p) (set_header_start (Some p) (set_header_name_end (Some p) s))))
  else
    let name := default 0%nat (hd_header_name_start s) in
    if (ch =? "/"%ch) && upstream && (p - name =? 4)%nat
       && bool_decide (strncmp (drop name mem) (bs "HTTP") 4 = Some 0)
    then goto sw_ignore_line s
    else if ch =? NUL then hd_invalid
    else inl (set_invalid_header true s).

Definition step_space_before_value (s : hd) (p : nat) (ch : Z) : hd + hd_exit :=
  if ch =? " "%ch then inl s
  else if ch =? CR
  then goto sw_almost_done (set_header_end (Some p) (set_header_start (Some p) s))
  else if ch =? LF
  then inr (hd_done (set_header_end (Some p) (set_header_start (Some p) s)))
  else if ch =? NUL then hd_invalid
  else goto sw_value (set_header_start (Some p) s).

Definition step_value (s : hd) (p : nat) (ch : Z) : hd + hd_exit :=
  if ch =? " "%ch then goto sw_space_after_value (set_header_end (Some p) s)
  else if ch =? CR then goto sw_almost_done (set_header_end (Some p) s)
  else if ch =? LF then inr (hd_done (set_header_end (Some p) s))
  else if ch =? NUL then hd_invalid
  else inl s.

Definition step_space_after_value (s : hd) (ch : Z) : hd + hd_exit :=
  if ch =? " "%ch then inl s
  else if ch =? CR then goto sw_almost_done s
  else if ch =? LF then inr (hd_done s)
  else if ch =? NUL then hd_invalid
  else goto sw_value s.

Definition step_ignore_line (s : hd) (ch : Z) : hd + hd_exit :=
  if ch =? LF then goto sw_start s else inl s.

Definition step_almost_done (s : hd) (ch : Z) : hd + hd_exit :=
  if ch =? LF then inr (hd_done s) else if ch =? CR then inl s else hd_invalid.

Definition step_header_almost_done (s : hd) (ch : Z) : hd + hd_exit :=
  if ch =? LF then inr (hd_header_done s) else hd_invalid.

Definition step (s : hd) (p : nat) (ch : Z) : hd + hd_exit :=
  match hd_state s with
  | sw_start => step_start s p ch
  | sw_name => step_name s p ch
  | sw_space_before_value => step_space_before_value s p ch
  | sw_value => step_value s p ch
  | sw_space_after_value => step_space_after_value s ch
  | sw_ignore_line => step_ignore_line s ch
  | sw_almost_done => step_almost_done s ch
  | sw_header_almost_done => step_header_almost_done s ch
  end.

End Parser.

Inductive hd_result :=
  | again (s : hd)                         (* NGX_AGAIN *)
  | header (s : hd) (pos : nat)            (* NGX_OK: a header line *)
  | headers_end (s : hd) (pos : nat)       (* NGX_HTTP_PARSE_HEADER_DONE *)
  | err (rc : Z)
  | fault.

(** At [header_done] the hash and the index are not saved: they stay as they were before the
    call. *)
Definition ngx_http_parse_header_line (allow_underscores upstream : bool) (mem : bytes) (s : hd)
    (pos : nat) : hd_result :=
  match mrun (step allow_underscores upstream mem) s pos (drop pos mem) with
  | inl s => again s
  | inr (hd_done s, p) => header (set_state sw_start s) (p + 1)
  | inr (hd_header_done s1, p) => headers_end (set_hash (hd_hash s) (set_i (hd_i s) (set_state sw_start s1))) (p + 1)
  | inr (hd_error rc, _) => err rc
  | inr (hd_fault, _) => fault
  end.


(** * Theorems *)

(** ** Bounds and pointers *)

Definition lc_inv (s : hd) : Prop :=
  length (hd_lowcase_header s) = NGX_HTTP_LC_HEADER_LEN ∧ (hd_i s < NGX_HTTP_LC_HEADER_LEN)%nat.

(** Between two header lines. *)
Definition ready (s : hd) : Prop := hd_state s = sw_start ∧ lc_inv s.

(** The pointers a state has set; [lo] is where the line started. *)
Definition named_at (lo : nat) (s : hd) (ne : nat) : Prop :=
  ∃ ns, hd_header_name_start s = Some ns ∧ hd_header_name_end s = Some ne ∧ (lo <= ns < ne)%nat.

Definition hd_ptrs (lo : nat) (s : hd) (p : nat) : Prop :=
  match hd_state s with
  | sw_start | sw_ignore_line | sw_header_almost_done => (lo <= p)%nat
  | sw_name => ∃ ns, hd_header_name_start s = Some ns ∧ (lo <= ns < p)%nat
  | sw_space_before_value => ∃ ne, named_at lo s ne ∧ (ne < p)%nat
  | sw_value => ∃ ne hs, named_at lo s ne ∧ hd_header_start s = Some hs ∧ (ne <= hs < p)%nat
  | sw_space_after_value | sw_almost_done =>
      ∃ ne hs he, named_at lo s ne ∧ hd_header_start s = Some hs ∧ hd_header_end s = Some he
                  ∧ (ne <= hs <= he)%nat ∧ (he < p)%nat
  end.

(** Name and value of a complete line that ends at [p]. *)
Definition hd_line (lo : nat) (s : hd) (p : nat) : Prop :=
  ∃ ne hs he, named_at lo s ne ∧ hd_header_start s = Some hs ∧ hd_header_end s = Some he
              ∧ (ne <= hs <= he)%nat ∧ (he <= p)%nat.

Definition exit_ok (lo : nat) (r : hd_exit) (p : nat) : Prop :=
  match r with
  | hd_done s => lc_inv s ∧ hd_line lo s p
  | hd_header_done s => lc_inv s
  | hd_error rc => rc = NGX_HTTP_PARSE_INVALID_HEADER
  | hd_fault => False
  end.

Definition outcome_ok (lo : nat) (o : hd + hd_exit) (p : nat) : Prop :=
  match o with
  | inl s => lc_inv s ∧ hd_ptrs lo s (p + 1)
  | inr r => exit_ok lo r p
  end.

Lemma first_byte_ok (lo : nat) (c : Z) (s : hd) (p : nat) :
  lc_inv s → hd_ptrs lo s (p + 1) → outcome_ok lo (first_byte c s) p.
Proof.
  intros [H1 H2] Hp. unfold first_byte. rewrite H1. simpl. split; [|done].
  split; simpl; [by rewrite length_insert|unfold NGX_HTTP_LC_HEADER_LEN; lia].
Qed.

Lemma lc_mask (i : nat) : Nat.land i (NGX_HTTP_LC_HEADER_LEN - 1) = (i mod 32)%nat.
Proof. change (NGX_HTTP_LC_HEADER_LEN - 1)%nat with (Nat.ones 5). apply Nat.land_ones. Qed.

Lemma next_byte_ok (lo : nat) (c : Z) (s : hd) (p : nat) :
  lc_inv s → hd_ptrs lo s (p + 1) → outcome_ok lo (next_byte c s) p.
Proof.
  intros [H1 H2] Hp. unfold next_byte. rewrite H1, (proj2 (Nat.ltb_lt _ _)) by done.
  split; [|done]. split; cbn [hd_lowcase_header hd_i set_i set_lowcase_header].
  - by rewrite length_insert.
  - rewrite lc_mask. apply Nat.mod_upper_bound. lia.
Qed.

#[local] Hint Resolve first_byte_ok next_byte_ok : core.

(** The goals of [step_ok]: unfold, find the pointers, leave the order to [lia]. *)
Ltac solve_line :=
  unfold hd_ptrs, hd_line, named_at in *; simpl in *;
  repeat match goal with
  | H : hd_state _ = _ |- _ => progress rewrite H in *
  | H : ∃ _, _ |- _ => destruct H as [? H]
  | H : _ ∧ _ |- _ => destruct H as [? H]
  end;
  repeat match goal with |- ∃ _, _ => eexists | |- _ ∧ _ => split end;
  (reflexivity || eassumption || lia).

Lemma step_ok (au up : bool) (mem : bytes) (lo : nat) (s : hd) (p : nat) (ch : Z) :
  lc_inv s → hd_ptrs lo s p → outcome_ok lo (step au up mem s p ch) p.
Proof.
  intros Hlc Hp. unfold step. destruct (hd_state s) eqn:Est;
    unfold step_start, step_name, step_space_before_value, step_value, step_space_after_value,
      step_ignore_line, step_almost_done, step_header_almost_done, goto, hd_invalid;
    cbv zeta; split_ifs; try done;
    first [ apply first_byte_ok; [done|solve_line]
          | apply next_byte_ok; [done|solve_line]
          | split; [done|solve_line] ].
Qed.

(** Every call keeps the state well-formed: the writes of the lower-cased name
    stay inside [r->lowcase_header], whatever the length of the name; a header line
    that is reported has a non-empty name, and name, value and end of line follow
    each other inside the buffer; the only error is [NGX_HTTP_PARSE_INVALID_HEADER]. *)
Theorem header_line_safe (au up : bool) (mem : bytes) (lo pos : nat) (s : hd) :
  lc_inv s → hd_ptrs lo s pos → (pos <= length mem)%nat →
  match ngx_http_parse_header_line au up mem s pos with
  | again s' => lc_inv s' ∧ hd_ptrs lo s' (length mem)
  | header s' pos' =>
      ready s' ∧ hd_line lo s' (pos' - 1) ∧ (pos < pos' <= length mem)%nat
  | headers_end s' pos' => ready s' ∧ (pos < pos' <= length mem)%nat
  | err rc => rc = NGX_HTTP_PARSE_INVALID_HEADER
  | fault => False
  end.
Proof.
  intros Hlc Hp Hpos. unfold ngx_http_parse_header_line.
  pose proof (mrun_mem_invariant (step au up mem) mem (fun s p => lc_inv s ∧ hd_ptrs lo s p) s pos)
    as H.
  destruct (mrun _ s pos _) as [s'|[r q]].
  - apply H; [|done..]. intros t p c t' _ [H1 H2] E.
    pose proof (step_ok au up mem lo t p c H1 H2) as G. by rewrite E in G.
  - destruct H as (t & c & _ & [H1 H2] & E & Hq); [|done..|].
    { intros t p c t' _ [H1 H2] E. pose proof (step_ok au up mem lo t p c H1 H2) as G.
      by rewrite E in G. }
    pose proof (step_ok au up mem lo t q c H1 H2) as G. rewrite E in G.
    destruct r as [t'|t'|rc|]; simpl in G; [destruct G as [G1 G2]|..]; try done.
    + split; [done|]. rewrite Nat.add_sub. split; [exact G2|lia].
    + split; [|lia]. split; [done|]. split; [apply G|apply Hlc].
Qed.

Lemma header_line_safe_witness :
  match ngx_http_parse_header_line false false (bs "Host: a" ++ crlf) hd_init 0 with
  | again s' => lc_inv s' ∧ hd_ptrs 0 s' (length (bs "Host: a" ++ crlf))
  | header s' pos' =>
      ready s' ∧ hd_line 0 s' (pos' - 1) ∧ (0 < pos' <= length (bs "Host: a" ++ crlf))%nat
  | headers_end s' pos' => ready s' ∧ (0 < pos' <= length (bs "Host: a" ++ crlf))%nat
  | err rc => rc = NGX_HTTP_PARSE_INVALID_HEADER
  | fault => False
  end.
Proof.
  apply (header_line_safe false false (bs "Host: a" ++ crlf) 0 0 hd_init).
  - split; [reflexivity|]. unfold NGX_HTTP_LC_HEADER_LEN; simpl; lia.
  - exact (le_n 0).
  - simpl. lia.
Defined.

(** ** Resuming *)

(** The machine looks back only into the part it has read. *)
Lemma strncmp_app (a b w : bytes) (n : nat) :
  (n <= length a)%nat → strncmp (a ++ b) w n = strncmp a w n.
Proof.
  revert a w. induction n as [|n IH]; intros a w Hn; [done|].
  destruct a as [|x a], w as [|y w]; simpl in *; try lia; try done.
  by rewrite IH by lia.
Qed.

Lemma header_step_app (au up : bool) (a b : bytes) (s : hd) (q : nat) (ch : Z) :
  (q < length a)%nat → step au up (a ++ b) s q ch = step au up a s q ch.
Proof.
  intros Hq. unfold step. destruct (hd_state s); try done. unfold step_name. cbv zeta.
  set (n := default _ _). destruct (Nat.eqb_spec (q - n) 4).
  - by rewrite drop_app_le, strncmp_app by (rewrite ?length_drop; lia).
  - by rewrite !andb_false_r.
Qed.

(** At the end of the headers nobody looks at the hash and the index of a name; they depend
    on the calls when a status line was skipped before. *)
Definition forget (r : hd_result) : hd_result :=
  match r with headers_end s pos => headers_end (set_hash 0 (set_i 0 s)) pos | r => r end.

(** A header line that arrives in two pieces is parsed as if it had arrived in
    one. *)
Theorem header_line_resume (au up : bool) (a b : bytes) (s : hd) (pos : nat) :
  (pos <= length a)%nat →
  forget (ngx_http_parse_header_line au up (a ++ b) s pos) =
  forget (match ngx_http_parse_header_line au up a s pos with
          | again s' => ngx_http_parse_header_line au up (a ++ b) s' (length a)
          | r => r
          end).
Proof.
  intros Hpos. unfold ngx_http_parse_header_line at 1 2.
  rewrite drop_app_le, mrun_app by done.
  rewrite (mrun_agree (step au up (a ++ b)) (step au up a) (length a))
    by (apply header_step_app || (rewrite length_drop; lia)).
  destruct (mrun _ s pos (drop pos a)) as [t|[[t|t|rc|] p]]; try done.
  unfold ngx_http_parse_header_line. rewrite length_drop, drop_app_length.
  replace (pos + (length a - pos))%nat with (length a) by lia. by destruct (mrun _ t _ b) as [ |[ [] ] ].
Qed.

Lemma header_line_resume_witness :
  forget (ngx_http_parse_header_line false false (bs "Ho" ++ bs "st: a" ++ crlf) hd_init 0) =
  forget (match ngx_http_parse_header_line false false (bs "Ho") hd_init 0 with
          | again s' => ngx_http_parse_header_line false false (bs "Ho" ++ bs "st: a" ++ crlf) s' 2
          | r => r
          end).
Proof. apply (header_line_resume false false (bs "Ho") (bs "st: a" ++ crlf)); simpl; lia. Defined.

(** ** Well-formed header lines *)

(** A byte of a valid header name: in the table, or an allowed underscore. *)
Definition name_char (au : bool) (c : Z) : Prop :=
  is_byte c ∧ (lowcase c ≠ 0 ∨ (c = "_"%ch ∧ au = true)).

Definition value_char (c : Z) : Prop := c ≠ NUL ∧ c ≠ CR ∧ c ≠ LF.

(** The table agrees with [ngx_tolower] where it is not zero. *)
Lemma lowcase_tolower (c : Z) : is_byte c → lowcase c ≠ 0 → lowcase c = ngx_tolower c.
Proof.
  intros Hc. by apply (range_check_prop 256 (fun c => lowcase c ≠ 0 → lowcase c = ngx_tolower c)).
Qed.

(** [w] has been read as the name: hash and lower-cased copy. *)
Definition name_read (w : bytes) (s : hd) : Prop :=
  lc_inv s ∧ hd_hash s = hash_key_loop 0 w ∧ hd_i s = (length w mod 32)%nat
  ∧ ((length w <= 31)%nat → take (length w) (hd_lowcase_header s) = w).

Lemma hash_key_snoc (key : Z) (w : bytes) (c : Z) :
  hash_key_loop key (w ++ [c]) = ngx_hash (hash_key_loop key w) c.
Proof. revert key. induction w as [|x w IH]; intros key; simpl; [done|apply IH]. Qed.

Lemma next_byte_read (w : bytes) (s : hd) (c : Z) :
  name_read w s →
  ∃ s', next_byte c s = inl s' ∧ name_read (w ++ [c]) s'
  ∧ hd_state s' = hd_state s ∧ hd_header_name_start s' = hd_header_name_start s
  ∧ hd_invalid_header s' = hd_invalid_header s.
Proof.
  intros ([Hl Hi] & Hh & Hix & Ht). unfold next_byte. rewrite Hl, (proj2 (Nat.ltb_lt _ _)) by done.
  eexists. split; [done|]. split; [|done]. unfold name_read, lc_inv.
  cbn [hd_lowcase_header hd_i hd_hash set_i set_lowcase_header set_hash].
  rewrite length_insert, lc_mask, hash_key_snoc, length_app, Hh. cbn [length].
  split_and!; [done|apply Nat.mod_upper_bound; lia|done| |].
  - rewrite Hix. by rewrite Nat.Div0.add_mod_idemp_l.
  - intros Hw. rewrite Nat.mod_small in Hix by lia. rewrite Hix.
    rewrite Nat.add_1_r, (take_S_r _ _ c).
    + rewrite take_insert_ge by lia. by rewrite Ht by lia.
    + apply list_lookup_insert_eq. rewrite Hl. unfold NGX_HTTP_LC_HEADER_LEN. lia.
Qed.

Lemma step_name_char (au up : bool) (mem w : bytes) (s : hd) (p : nat) (c : Z) :
  name_char au c → hd_state s = sw_name → name_read w s →
  ∃ s', step au up mem s p c = inl s' ∧ name_read (w ++ [ngx_tolower c]) s'
  ∧ hd_state s' = sw_name ∧ hd_header_name_start s' = hd_header_name_start s
  ∧ hd_invalid_header s' = hd_invalid_header s.
Proof.
  intros [Hb Hc] Hs Hw. unfold step. rewrite Hs. unfold step_name. cbv zeta.
  destruct (Z.eqb_spec (lowcase c) 0) as [E|E]; cbn [negb].
  - destruct Hc as [?|[-> ->]]; [done|]. cbn [Z.eqb Pos.eqb].
    rewrite <- Hs. by apply next_byte_read.
  - rewrite lowcase_tolower by done. rewrite <- Hs. by apply next_byte_read.
Qed.

Lemma run_name (au up : bool) (mem name rest w : bytes) (s : hd) (p : nat) :
  Forall (name_char au) name → hd_state s = sw_name → name_read w s →
  ∃ s', mrun (step au up mem) s p (name ++ rest)
        = mrun (step au up mem) s' (p + length name) rest
  ∧ name_read (w ++ map ngx_tolower name) s'
  ∧ hd_state s' = sw_name ∧ hd_header_name_start s' = hd_header_name_start s
  ∧ hd_invalid_header s' = hd_invalid_header s.
Proof.
  intros Hn. revert w s p. induction Hn as [|c name Hc Hn IH]; intros w s p Hs Hw.
  - exists s. by rewrite Nat.add_0_r, app_nil_r.
  - cbn [app mrun]. destruct (step_name_char au up mem w s p c Hc Hs Hw)
      as (s1 & -> & Hw1 & Hs1 & Hns1 & Hi1).
    destruct (IH _ s1 (p + 1)%nat Hs1 Hw1) as (s2 & -> & Hw2 & Hs2 & Hns2 & Hi2).
    exists s2. cbn [map length]. rewrite <- app_assoc in Hw2.
    replace (p + S (length name))%nat with (p + 1 + length name)%nat by lia.
    rewrite Hns2, Hi2. done.
Qed.

(** The first byte of the name. *)
Lemma step_first_char (au up : bool) (mem : bytes) (s : hd) (p : nat) (c : Z) :
  name_char au c → ready s →
  ∃ s', step au up mem s p c = inl s' ∧ name_read [ngx_tolower c] s'
  ∧ hd_state s' = sw_name ∧ hd_header_name_start s' = Some p ∧ hd_invalid_header s' = false.
Proof.
  intros [Hb Hc] [Hs [Hl Hi]]. unfold step. rewrite Hs. unfold step_start. cbv zeta.
  assert (Hcr : c ≠ 13 ∧ c ≠ 10).
  { split; intros ->; destruct Hc as [Hc|[Hc _]]; try done; by vm_compute in Hc. }
  destruct Hcr. rewrite (proj2 (Z.eqb_neq c 13)), (proj2 (Z.eqb_neq c 10)) by done.
  assert (Hfirst : ∀ d t, hd_lowcase_header t = hd_lowcase_header s →
    ∃ s', first_byte d t = inl s' ∧ name_read [d] s' ∧ hd_state s' = hd_state t
    ∧ hd_header_name_start s' = hd_header_name_start t
    ∧ hd_invalid_header s' = hd_invalid_header t).
  { intros d t Ht. unfold first_byte. rewrite Ht, Hl. eexists. split; [done|].
    split; [|done]. unfold name_read, lc_inv.
    cbn [hd_lowcase_header hd_i hd_hash set_i set_lowcase_header set_hash length].
    rewrite length_insert. split_and!; try done; [unfold NGX_HTTP_LC_HEADER_LEN; lia|].
    intros _. by destruct (hd_lowcase_header s). }
  destruct (Z.eqb_spec (lowcase c) 0) as [E|E]; cbn [negb].
  - destruct Hc as [?|[-> ->]]; [done|]. cbn [Z.eqb Pos.eqb]. by apply Hfirst.
  - rewrite lowcase_tolower by done. by apply Hfirst.
Qed.

(** Spaces before the value. *)
Lemma run_spaces_before (au up : bool) (mem rest : bytes) (k : nat) (s : hd) (p : nat) :
  hd_state s = sw_space_before_value →
  mrun (step au up mem) s p (replicate k " "%ch ++ rest)
  = mrun (step au up mem) s (p + k) rest.
Proof.
  intros Hs. revert p. induction k as [|k IH]; intros p; [by rewrite Nat.add_0_r|].
  cbn [replicate app mrun]. unfold step at 1. rewrite Hs. unfold step_space_before_value.
  cbn [Z.eqb Pos.eqb]. rewrite IH. f_equal. lia.
Qed.

(** The value itself, with the spaces inside it. *)
Lemma run_value (au up : bool) (mem rest w : bytes) (st : state) (s : hd) (p : nat) :
  Forall value_char w → last w ≠ Some " "%ch →
  st = sw_value ∨ (st = sw_space_after_value ∧ w ≠ []) →
  ∃ he, mrun (step au up mem) (set_state st s) p (w ++ rest)
        = mrun (step au up mem) (set_state sw_value (set_header_end he s)) (p + length w) rest.
Proof.
  intros Hw. revert st s p. induction Hw as [|c w (H1 & H2 & H3) Hw IH]; intros st s p Hlast Hst.
  { destruct Hst as [->|[_ ?]]; [|done]. exists (hd_header_end s). rewrite Nat.add_0_r.
    by destruct s. }
  assert (Hlast' : last w ≠ Some 32).
  { destruct w as [|d w]; [done|]. by rewrite last_cons_cons in Hlast. }
  cbn [app mrun length].
  replace (p + S (length w))%nat with (p + 1 + length w)%nat by lia.
  destruct (Z.eqb_spec c 32) as [->|Hsp].
  - assert (Hne : w ≠ []) by (by intros ->).
    assert (∃ he, step au up mem (set_state st s) p 32
                  = inl (set_state sw_space_after_value (set_header_end he s))) as [he ->].
    { destruct Hst as [-> |[-> _]]; [by exists (Some p)|].
      exists (hd_header_end s). by destruct s. }
    destruct (IH sw_space_after_value (set_header_end he s) (p + 1)%nat) as [he' ->]; [done|auto|].
    by exists he'.
  - assert (step au up mem (set_state st s) p c = inl (set_state sw_value s)) as ->.
    { destruct Hst as [-> |[-> _]]; unfold step; simpl; unfold step_value, step_space_after_value;
        by rewrite (proj2 (Z.eqb_neq c 32)), (proj2 (Z.eqb_neq c 13)), (proj2 (Z.eqb_neq c 10)),
          (proj2 (Z.eqb_neq c 0)) by done. }
    by apply IH; [|left].
Qed.

(** Spaces after the value and the end of the line. *)
Lemma run_spaces_after (au up : bool) (mem rest : bytes) (j : nat) (s : hd) (p : nat) :
  mrun (step au up mem) (set_state sw_space_after_value s) p (replicate j " "%ch ++ crlf ++ rest)
  = inr (hd_done (set_state sw_almost_done s), (p + j + 1)%nat).
Proof.
  revert p. induction j as [|j IH]; intros p; [by rewrite Nat.add_0_r|].
  cbn [replicate app mrun].
  change (step au up mem (set_state sw_space_after_value s) p 32) with
    (inl (B := hd_exit) (set_state sw_space_after_value s)).
  cbv iota beta. rewrite IH. do 2 f_equal. lia.
Qed.

Lemma run_trailing (au up : bool) (mem rest : bytes) (j : nat) (s : hd) (p : nat) :
  mrun (step au up mem) (set_state sw_value s) p (replicate j " "%ch ++ crlf ++ rest)
  = inr (hd_done (set_state sw_almost_done (set_header_end (Some p) s)), (p + j + 1)%nat).
Proof.
  destruct j as [|j]; [by rewrite Nat.add_0_r|]. cbn [replicate app mrun].
  change (step au up mem (set_state sw_value s) p 32) with
    (inl (B := hd_exit) (set_state sw_space_after_value (set_header_end (Some p) s))).
  cbv iota beta. rewrite run_spaces_after. do 2 f_equal. lia.
Qed.

(** name ":" spaces value spaces CRLF *)
Definition header_line (name v : bytes) (k j : nat) : bytes :=
  name ++ bs ":" ++ replicate k " "%ch ++ v ++ replicate j " "%ch ++ crlf.

(** A value is trimmed: it neither starts nor ends with a space. *)
Definition trimmed (v : bytes) : Prop := head v ≠ Some " "%ch ∧ last v ≠ Some " "%ch.

(** The part after the name. *)
Lemma run_after_name (au up : bool) (mem v rest : bytes) (k j p : nat) (s : hd) :
  hd_state s = sw_name → Forall value_char v → trimmed v →
  ∃ hs, mrun (step au up mem) s p
      (bs ":" ++ replicate k " "%ch ++ v ++ replicate j " "%ch ++ crlf ++ rest)
    = inr (hd_done (set_state sw_almost_done
             (set_header_end (Some (hs + length v)%nat) (set_header_start (Some hs)
                (set_header_name_end (Some p) s)))),
           (p + 1 + k + length v + j + 1)%nat)
  ∧ (v ≠ [] → hs = (p + 1 + k)%nat).
Proof.
  intros Hs Hv [Hh Hl]. change (bs ":") with [58]. cbn [app mrun].
  assert (step au up mem s p 58
          = inl (set_state sw_space_before_value (set_header_name_end (Some p) s))) as ->.
  { unfold step. by rewrite Hs. }
  destruct v as [|c w].
  - exists (p + 1 + k + j)%nat. split; [|done]. cbn [app].
    rewrite app_assoc, <- replicate_add, run_spaces_before by done.
    cbn [crlf app mrun length]. rewrite !Nat.add_0_r. unfold step at 1.
    cbn [hd_state set_state]. unfold step_space_before_value. cbn [Z.eqb Pos.eqb goto].
    unfold step at 1. cbn [hd_state set_state]. unfold step_almost_done. cbn [Z.eqb Pos.eqb].
    rewrite Nat.add_assoc. done.
  - exists (p + 1 + k)%nat. split; [|done]. rewrite run_spaces_before by done.
    inversion Hv as [|? ? (H1 & H2 & H3) Hw]; subst. cbn [app mrun].
    assert (c ≠ 32) by (by intros ->).
    assert (∀ t q, step au up mem (set_state sw_space_before_value t) q c
                   = inl (set_state sw_value (set_header_start (Some q) t))) as ->.
    { intros t q. unfold step. cbn [hd_state set_state]. unfold step_space_before_value.
      by rewrite (proj2 (Z.eqb_neq c 32)), (proj2 (Z.eqb_neq c 13)), (proj2 (Z.eqb_neq c 10)),
        (proj2 (Z.eqb_neq c 0)) by done. }
    destruct (run_value au up mem (replicate j 32 ++ crlf ++ rest) w sw_value
      (set_header_start (Some (p + 1 + k)%nat) (set_header_name_end (Some p) s)) (p + 1 + k + 1))
      as [he ->]; [done| |by left|].
    { destruct w; [done|]. by rewrite last_cons_cons in Hl. }
    rewrite run_trailing. cbn [length]. replace (p + 1 + k + S (length w))%nat
      with (p + 1 + k + 1 + length w)%nat by lia. done.
Qed.

(** C32. A well-formed header line is reported as such: name and value are the bytes
    on both sides of the colon, without the spaces around the value; the hash is
    [ngx_hash_key_lc] of the name, under which the header tables are built; and a
    name of at most 31 bytes is found in lower case in [r->lowcase_header]. *)
Theorem header_line_wellformed (au up : bool) (pre name v rest : bytes) (k j : nat) (s : hd) :
  let line := header_line name v k j in
  let mem := pre ++ line ++ rest in
  ready s → name ≠ [] → Forall (name_char au) name → Forall value_char v → trimmed v →
  ∃ t hs,
    ngx_http_parse_header_line au up mem s (length pre) = header t (length pre + length line)
    ∧ hd_header_name_start t = Some (length pre)
    ∧ hd_header_name_end t = Some (length pre + length name)%nat
    ∧ hd_header_start t = Some hs ∧ hd_header_end t = Some (hs + length v)%nat
    ∧ sub mem hs (length v) = v
    ∧ hd_invalid_header t = false
    ∧ hd_hash t = ngx_hash_key_lc name
    ∧ hd_i t = (length name mod 32)%nat
    ∧ ((length name <= 31)%nat →
       take (length name) (hd_lowcase_header t) = map ngx_tolower name).
Proof.
  intros line mem Hr Hne Hn Hv Ht. unfold ngx_http_parse_header_line.
  assert (Hmem : mem = pre ++ name ++ bs ":" ++ replicate k " "%ch ++ v ++ replicate j " "%ch
                       ++ crlf ++ rest).
  { unfold mem, line, header_line. by rewrite <- !app_assoc. }
  assert (drop (length pre) mem = name ++ bs ":" ++ replicate k 32 ++ v ++ replicate j 32
                                  ++ crlf ++ rest) as -> by (by rewrite Hmem, drop_app_length).
  destruct name as [|c name]; [done|]. inversion Hn as [|? ? Hc Hn']; subst. cbn [app mrun].
  destruct (step_first_char au up mem s (length pre) c Hc Hr) as (s1 & -> & Hw1 & Hs1 & Hns1 & Hi1).
  destruct (run_name au up mem name (bs ":" ++ replicate k 32 ++ v ++ replicate j 32 ++ crlf ++ rest)
    _ s1 (length pre + 1) Hn' Hs1 Hw1) as (s2 & -> & (_ & Hh & Hx & Hlc) & Hs2 & Hns2 & Hi2).
  destruct (run_after_name au up mem v rest k j (length pre + 1 + length name) s2 Hs2 Hv Ht)
    as (hs & -> & Hhs).
  cbn [app] in Hh, Hx, Hlc. cbn [length] in Hx, Hlc. rewrite length_map in Hx, Hlc.
  exists (set_state sw_start (set_state sw_almost_done
    (set_header_end (Some (hs + length v)%nat) (set_header_start (Some hs)
      (set_header_name_end (Some (length pre + 1 + length name)%nat) s2))))), hs.
  simpl. rewrite Hns2, Hns1, Hi2, Hi1. split_and!; try done.
  - f_equal. rewrite length_app. cbn [length]. rewrite !length_app, !length_replicate. simpl. lia.
  - f_equal. lia.
  - destruct v as [|d v]; [by unfold sub|]. rewrite Hhs by done.
    replace mem with ((pre ++ (c :: name) ++ bs ":" ++ replicate k 32) ++ (d :: v)
                      ++ replicate j 32 ++ crlf ++ rest) by (by rewrite Hmem, <- !app_assoc).
    apply sub_middle'; [|done]. rewrite !length_app, length_replicate. simpl. lia.
Qed.

Lemma header_line_wellformed_witness :
  ∃ t hs,
    ngx_http_parse_header_line false false (bs "Content-Length:  12 " ++ crlf ++ crlf) hd_init 0
    = header t 22
    ∧ hd_header_start t = Some hs ∧ hd_header_end t = Some (hs + 2)%nat
    ∧ hd_hash t = ngx_hash_key_lc (bs "Content-Length").
Proof.
  destruct (header_line_wellformed false false [] (bs "Content-Length") (bs "12") crlf 2 1 hd_init)
    as (t & hs & H1 & _ & _ & H2 & H3 & _ & _ & H4 & _).
  - split; [reflexivity|]. split; [reflexivity|]. unfold NGX_HTTP_LC_HEADER_LEN; simpl; lia.
  - done.
  - solve_forall ltac:(split; [unfold is_byte; lia|left; vm_compute; lia]).
  - solve_forall ltac:(unfold value_char; lia).
  - by split.
  - exists t, hs. split; [exact H1|]. split; [exact H2|]. split; [exact H3|exact H4].
Defined.

End HeaderLine.
