(* ===== verification/HttpStatus.v ===== *)
(** * The status line of an upstream response

    [ngx_http_parse_status_line] of src/nginx-master/src/http/ngx_http_parse.c,
    with the conventions of the request line.  The code and the count of its
    digits start at zero: the caller clears [ngx_http_status_t]. *)

From S2P Require Import Prelude NgxNumber HttpRequestLine.

Open Scope Z_scope.

Module StatusLine.

Inductive state :=
  | sw_start | sw_H | sw_HT | sw_HTT | sw_HTTP
  | sw_first_major_digit | sw_major_digit | sw_first_minor_digit | sw_minor_digit
  | sw_status | sw_space_after_status | sw_status_text | sw_almost_done.

Record sl := mk_sl {
  sl_state : state;
  sl_http_major : Z;
  sl_http_minor : Z;
  sl_code : Z;   (* status->code *)
  sl_count : Z;   (* status->count *)
  sl_start : option nat;   (* status->start *)
  sl_end : option nat   (* status->end *)
}.

Definition set_state (v : state) (s : sl) : sl :=
  mk_sl v (sl_http_major s) (sl_http_minor s) (sl_code s) (sl_count s) (sl_start s)
    (sl_end s).
Definition set_http_major (v : Z) (s : sl) : sl :=
  mk_sl (sl_state s) v (sl_http_minor s) (sl_code s) (sl_count s) (sl_start s) (sl_end s).
Definition set_http_minor (v : Z) (s : sl) : sl :=
  mk_sl (sl_state s) (sl_http_major s) v (sl_code s) (sl_count s) (sl_start s) (sl_end s).
Definition set_code (v : Z) (s : sl) : sl :=
  mk_sl (sl_state s) (sl_http_major s) (sl_http_minor s) v (sl_count s) (sl_start s)
    (sl_end s).
Definition set_count (v : Z) (s : sl) : sl :=
  mk_sl (sl_state s) (sl_http_major s) (sl_http_minor s) (sl_code s) v (sl_start s)
    (sl_end s).
Definition set_start (v : option nat) (s : sl) : sl :=
  mk_sl (sl_state s) (sl_http_major s) (sl_http_minor s) (sl_code s) (sl_count s) v
    (sl_end s).
Definition set_end (v : option nat) (s : sl) : sl :=
  mk_sl (sl_state s) (sl_http_major s) (sl_http_minor s) (sl_code s) (sl_count s)
    (sl_start s) v.

Definition sl_init : sl := mk_sl sw_start 0 0 0 0 None None.

Inductive sl_exit := sl_done (s : sl) | sl_error.

Definition goto (st : state) (s : sl) : sl + sl_exit := inl (set_state st s).

Definition step_expect (c : Z) (next : state) (s : sl) (ch : Z) : sl + sl_exit :=
  if ch =? c then goto next s else inr sl_error.

Definition not_digit (ch : Z) : bool := (ch <? "0"%ch) || (ch >? "9"%ch).

Definition step_first_major_digit (s : sl) (ch : Z) : sl + sl_exit :=
  if (ch <? "1"%ch) || (ch >? "9"%ch) then inr sl_error
  else goto sw_major_digit (set_http_major (ch - "0"%ch) s).

Definition step_major_digit (s : sl) (ch : Z) : sl + sl_exit :=
  if ch =? "."%ch then goto sw_first_minor_digit s
  else if not_digit ch then inr sl_error
  else if sl_http_major s >? 99 then inr sl_error
  else inl (set_http_major (sl_http_major s * 10 + (ch - "0"%ch)) s).

Definition step_first_minor_digit (s : sl) (ch : Z) : sl + sl_exit :=
  if not_digit ch then inr sl_error
  else goto sw_minor_digit (set_http_minor (ch - "0"%ch) s).

Definition step_minor_digit (s : sl) (ch : Z) : sl + sl_exit :=
  if ch =? " "%ch then goto sw_status s
  else if not_digit ch then inr sl_error
  else if sl_http_minor s >? 99 then inr sl_error
  else inl (set_http_minor (sl_http_minor s * 10 + (ch - "0"%ch)) s).

Definition step_status (s : sl) (p : nat) (ch : Z) : sl + sl_exit :=
  if ch =? " "%ch then inl s
  else if not_digit ch then inr sl_error
  else
    let s := set_code (sl_code s * 10 + (ch - "0"%ch)) s in
    let s := set_count (sl_count s + 1) s in
    if sl_count s =? 3
    then inl (set_start (Some (p - 2)%nat) (set_state sw_space_after_status s))
    else inl s.

Definition step_space_after_status (s : sl) (ch : Z) : sl + sl_exit :=
  if ch =? " "%ch then goto sw_status_text s
  else if ch =? "."%ch then goto sw_status_text s
  else if ch =? CR then goto sw_almost_done s
  else if ch =? LF then inr (sl_done s)
  else inr sl_error.

Definition step_status_text (s : sl) (ch : Z) : sl + sl_exit :=
  if ch =? CR then goto sw_almost_done s
  else if ch =? LF then inr (sl_done s)
  else inl s.

Definition step_almost_done (s : sl) (p : nat) (ch : Z) : sl + sl_exit :=
  let s := set_end (Some (p - 1)%nat) s in
  if ch =? LF then inr (sl_done s) else inr sl_error.

Definition step (s : sl) (p : nat) (ch : Z) : sl + sl_exit :=
  match sl_state s with
  | sw_start => step_expect "H"%ch sw_H s ch
  | sw_H => step_expect "T"%ch sw_HT s ch
  | sw_HT => step_expect "T"%ch sw_HTT s ch
  | sw_HTT => step_expect "P"%ch sw_HTTP s ch
  | sw_HTTP => step_expect "/"%ch sw_first_major_digit s ch
  | sw_first_major_digit => step_first_major_digit s ch
  | sw_major_digit => step_major_digit s ch
  | sw_first_minor_digit => step_first_minor_digit s ch
  | sw_minor_digit => step_minor_digit s ch
  | sw_status => step_status s p ch
  | sw_space_after_status => step_space_after_status s ch
  | sw_status_text => step_status_text s ch
  | sw_almost_done => step_almost_done s p ch
  end.

Inductive sl_result :=
  | sl_again (s : sl)                               (* NGX_AGAIN *)
  | sl_ok (s : sl) (http_version : Z) (pos : nat)   (* NGX_OK, b->pos *)
  | sl_err.                                         (* NGX_ERROR *)

(** The label [done]. *)
Definition finish (s : sl) (p : nat) : sl_result :=
  let s := match sl_end s with None => set_end (Some p) s | Some _ => s end in
  sl_ok (set_state sw_start s) (sl_http_major s * 1000 + sl_http_minor s) (p + 1).

Definition ngx_http_parse_status_line (buf : bytes) (s : sl) (pos : nat) : sl_result :=
  match mrun step s pos buf with
  | inl s => sl_again s
  | inr (sl_done s, p) => finish s p
  | inr (sl_error, _) => sl_err
  end.

(** * Theorems *)

(** ** Bounds *)

(** Version numbers have at most three digits, the code has as many digits as
    [status->count] says. *)
Definition sl_inv (s : sl) : Prop :=
  0 <= sl_http_major s <= 999 ∧ 0 <= sl_http_minor s <= 999
  ∧ 0 <= sl_count s <= 3 ∧ 0 <= sl_code s < 10 ^ sl_count s
  ∧ match sl_state s with
    | sw_space_after_status | sw_status_text | sw_almost_done => sl_count s = 3
    | _ => sl_count s < 3
    end.

Lemma status_step_inv (s : sl) (p : nat) (ch : Z) :
  sl_inv s →
  match step s p ch with
  | inl s' => sl_inv s'
  | inr (sl_done s') => sl_inv s' ∧ sl_count s' = 3 ∧ ch = LF
  | inr sl_error => True
  end.
Proof.
  intros (H1 & H2 & H3 & H4 & H5).
  unfold step, step_expect, step_first_major_digit, step_major_digit, step_first_minor_digit,
    step_minor_digit, step_status, step_space_after_status, step_status_text, step_almost_done,
    goto, not_digit; cbv zeta.
  destruct (sl_state s) eqn:Est; split_ifs; try done; unfold sl_inv; simpl in *; rewrite ?Est;
    try (split_and!; (done || lia)).
  all: rewrite Z.pow_add_r by lia; split_and!; (done || lia).
Qed.

(** An accepted status line has a code of exactly three digits and a version of
    at most three digits on each side of the dot, so that [major * 1000 + minor] is
    the version without collisions. *)
Theorem status_line_bounds (buf : bytes) (s : sl) (v : Z) (pos : nat) :
  ngx_http_parse_status_line buf sl_init 0 = sl_ok s v pos →
  sl_count s = 3 ∧ 0 <= sl_code s <= 999
  ∧ v / 1000 = sl_http_major s ∧ v mod 1000 = sl_http_minor s
  ∧ (pos <= length buf)%nat.
Proof.
  unfold ngx_http_parse_status_line.
  pose proof (mrun_mem_invariant step buf (fun s _ => sl_inv s) sl_init 0) as H.
  rewrite drop_0 in H. destruct (mrun step sl_init 0 buf) as [t|[[t|] p]]; try done.
  destruct H as (t' & ch & _ & Ht & E & Hp).
  - intros t1 q c t2 _ H1 E. pose proof (status_step_inv t1 q c H1) as H2. by rewrite E in H2.
  - vm_compute. intuition congruence.
  - lia.
  - pose proof (status_step_inv t' p ch Ht) as G. rewrite E in G.
    destruct G as ((G1 & G2 & _ & G3 & _) & G4 & _). rewrite G4 in G3. unfold finish.
    intros [= <- <- <-].
    assert (∀ u, sl_http_major u = sl_http_major t → sl_http_minor u = sl_http_minor t →
      (sl_http_major u * 1000 + sl_http_minor u) / 1000 = sl_http_major u ∧
      (sl_http_major u * 1000 + sl_http_minor u) mod 1000 = sl_http_minor u) as Hdiv.
    { intros u -> ->. rewrite Z.add_comm, Z.div_add, Z.mod_add by lia.
      rewrite Z.div_small, Z.mod_small by lia. lia. }
    destruct (sl_end t); simpl in *; split_and!; try apply Hdiv; (done || lia).
Qed.

Lemma status_line_bounds_witness :
  sl_count (mk_sl sw_start 1 1 404 3 (Some 9) (Some 22))%nat = 3
  ∧ (24 <= length (bs "HTTP/1.1 404 Not Found" ++ crlf))%nat.
Proof.
  destruct (status_line_bounds (bs "HTTP/1.1 404 Not Found" ++ crlf)
    (mk_sl sw_start 1 1 404 3 (Some 9) (Some 22))%nat 1001 24) as (H1 & _ & _ & _ & H2);
    [by vm_compute|by split].
Defined.

(** ** Well-formed status lines *)

(** HTTP/1.d SP code SP text CRLF *)
Definition status_line (d c1 c2 c3 : Z) (text : bytes) : bytes :=
  bs "HTTP/1." ++ [d; " "%ch; c1; c2; c3; " "%ch] ++ text ++ crlf.

Lemma run_reason (text rest : bytes) (s : sl) (p : nat) :
  Forall (fun c => c ≠ CR ∧ c ≠ LF) text → sl_state s = sw_status_text →
  mrun step s p (text ++ rest) = mrun step s (p + length text) rest.
Proof.
  intros Ht Hs. revert p. induction Ht as [|c text [H1 H2] Ht IH]; intros p.
  - by rewrite Nat.add_0_r.
  - cbn [app mrun length]. unfold step at 1. rewrite Hs. unfold step_status_text.
    rewrite (proj2 (Z.eqb_neq c 13)), (proj2 (Z.eqb_neq c 10)) by done.
    rewrite IH. f_equal. lia.
Qed.

(** The code, the version and the position after the line are read back from
    any status line a server may send, whatever follows it. *)
Theorem status_line_wellformed (d c1 c2 c3 : Z) (text rest : bytes) :
  Forall is_digit [d; c1; c2; c3] → Forall (fun c => c ≠ CR ∧ c ≠ LF) text →
  ∃ s, ngx_http_parse_status_line (status_line d c1 c2 c3 text ++ rest) sl_init 0
       = sl_ok s (1000 + (d - "0"%ch)) (length (status_line d c1 c2 c3 text))
  ∧ sl_code s = dec_value 0 [c1; c2; c3]
  ∧ sl_start s = Some 9%nat ∧ sl_end s = Some (13 + length text)%nat.
Proof.
  intros Hd Ht. unfold status_line. rewrite <- !app_assoc. unfold ngx_http_parse_status_line.
  assert (Hdig : ∀ c, is_digit c → (c =? 32) = false ∧ not_digit c = false)
    by (unfold is_digit, not_digit; lia).
  repeat (apply Forall_cons in Hd as [?%Hdig Hd]). destruct_and!.
  rewrite mrun_app. change (mrun step sl_init 0 (bs "HTTP/1."))
    with (inl (B := sl_exit * nat) (mk_sl sw_first_minor_digit 1 0 0 0 None None)).
  cbv iota beta. change (length (bs "HTTP/1.")) with 7%nat.
  assert (Hrun : mrun step (mk_sl sw_first_minor_digit 1 0 0 0 None None) (0 + 7)
                   ([d; 32; c1; c2; c3; 32] ++ text ++ crlf ++ rest)
               = mrun step (mk_sl sw_status_text 1 (d - 48)
                   (((0 * 10 + (c1 - 48)) * 10 + (c2 - 48)) * 10 + (c3 - 48)) 3 (Some 9%nat) None)
                   13 (text ++ crlf ++ rest)).
  { cbn [app mrun]. unfold step, step_first_minor_digit, step_minor_digit, step_status,
      step_space_after_status, goto; cbn [sl_state].
    repeat (match goal with H : not_digit _ = false |- _ => rewrite H
            | H : (_ =? 32) = false |- _ => rewrite H end; simpl). done. }
  rewrite Hrun, run_reason by done. cbn [crlf app mrun].
  unfold step at 1. cbn [sl_state]. unfold step_status_text, goto. cbn [Z.eqb Pos.eqb].
  unfold step at 1. cbn [sl_state set_state]. unfold step_almost_done. cbn [Z.eqb Pos.eqb].
  unfold finish. cbn [sl_end set_end set_state sl_http_major sl_http_minor].
  eexists. split.
  { f_equal. simpl. rewrite length_app. simpl. lia. }
  split; [done|]. split; [done|]. simpl. f_equal. lia.
Qed.

Lemma status_line_wellformed_witness :
  ∃ s, ngx_http_parse_status_line (bs "HTTP/1.1 200 OK" ++ crlf ++ bs "Server: x") sl_init 0
       = sl_ok s 1001 17 ∧ sl_code s = 200.
Proof.
  destruct (status_line_wellformed "1"%ch "2"%ch "0"%ch "0"%ch (bs "OK") (bs "Server: x"))
    as (s & H1 & H2 & _).
  - solve_forall ltac:(unfold is_digit; lia).
  - solve_forall ltac:(lia).
  - exists s. split; [exact H1|exact H2].
Defined.

(** ** Resuming *)

(** A status line that arrives in two pieces is parsed as if it had arrived in
    one. *)
Lemma status_line_resume (a b : bytes) (s : sl) (pos : nat) :
  ngx_http_parse_status_line (a ++ b) s pos =
  match ngx_http_parse_status_line a s pos with
  | sl_again s' => ngx_http_parse_status_line b s' (pos + length a)
  | r => r
  end.
Proof.
  unfold ngx_http_parse_status_line. rewrite mrun_app.
  by destruct (mrun step s pos a) as [t|[[t|] p]].
Qed.

End StatusLine.
