(* ===== verification/HttpChunked.v ===== *)
(** * Chunked bodies

    The two ends of the chunked transfer coding: [ngx_http_parse_chunked]
    (src/nginx-master/src/http/ngx_http_parse.c) with the loop over the buffers
    of a request body around it,
    [ngx_http_request_body_chunked_filter]
    (src/nginx-master/src/http/ngx_http_request_body.c); and the filter that
    encodes responses, [ngx_http_chunked_body_filter] and
    [ngx_http_chunked_create_trailers]
    (src/nginx-master/src/http/modules/ngx_http_chunked_filter_module.c).

    The decoder copies a chunk in bulk and saves its state at every end of a
    buffer.  It is proved to refine a decoder that reads byte by byte, and to
    recover exactly what the encoder was given, however the network cut the
    stream into buffers. *)

From S2P Require Import Prelude NgxNumber.

Open Scope Z_scope.

Module Chunked.

(** ** ngx_http_parse_chunked *)

Inductive state :=
  | sw_chunk_start | sw_chunk_size | sw_chunk_extension | sw_chunk_extension_almost_done
  | sw_chunk_data | sw_after_data | sw_after_data_almost_done
  | sw_last_chunk_extension | sw_last_chunk_extension_almost_done
  | sw_trailer | sw_trailer_almost_done | sw_trailer_header | sw_trailer_header_almost_done.

#[export] Instance state_eq_dec : EqDecision state.
Proof. solve_decision. Defined.

(** [ngx_http_chunked_t]. *)
Record ngx_http_chunked_t := mk_chunked { c_state : state; c_size : Z; c_length : Z }.

(** How the loop is left: at a byte of chunk data, at the end of the body, at a
    malformed byte. *)
Inductive exit := x_data (size : Z) | x_done (size : Z) | x_invalid.

Definition pstate := (state * Z)%type.

(** [ch] as a hexadecimal digit. *)
Definition hex_ch (ch : Z) : option Z :=
  if (ch >=? "0"%ch) && (ch <=? "9"%ch) then Some (ch - "0"%ch)
  else
    let c := u_char (Z.lor ch 32) in
    if (c >=? "a"%ch) && (c <=? "f"%ch) then Some (c - "a"%ch + 10) else None.

Definition step_chunk_start (ch : Z) : pstate + exit :=
  match hex_ch ch with
  | Some v => inl (sw_chunk_size, v)
  | None => inr x_invalid
  end.

Definition is_extension (ch : Z) : bool := (ch =? ";"%ch) || (ch =? " "%ch) || (ch =? 9).

Definition step_chunk_size (size ch : Z) : pstate + exit :=
  if size >? NGX_MAX_OFF_T_VALUE / 16 then inr x_invalid
  else
    match hex_ch ch with
    | Some v => inl (sw_chunk_size, size * 16 + v)
    | None =>
        if size =? 0 then
          if ch =? CR then inl (sw_last_chunk_extension_almost_done, size)
          else if ch =? LF then inl (sw_trailer, size)
          else if is_extension ch then inl (sw_last_chunk_extension, size)
          else inr x_invalid
        else
          if ch =? CR then inl (sw_chunk_extension_almost_done, size)
          else if ch =? LF then inl (sw_chunk_data, size)
          else if is_extension ch then inl (sw_chunk_extension, size)
          else inr x_invalid
    end.

(** A line is skipped up to its end: [cr] after CR, [lf] after LF. *)
Definition step_line (here cr lf : state) (size ch : Z) : pstate + exit :=
  if ch =? CR then inl (cr, size) else if ch =? LF then inl (lf, size) else inl (here, size).

Definition step_lf (next : state) (size ch : Z) : pstate + exit :=
  if ch =? LF then inl (next, size) else inr x_invalid.

Definition step_trailer (size ch : Z) : pstate + exit :=
  if ch =? CR then inl (sw_trailer_almost_done, size)
  else if ch =? LF then inr (x_done size)
  else inl (sw_trailer_header, size).

Definition step_trailer_almost_done (size ch : Z) : pstate + exit :=
  if ch =? LF then inr (x_done size) else inr x_invalid.

Definition step (s : pstate) (pos : nat) (ch : Z) : pstate + exit :=
  let '(st, size) := s in
  match st with
  | sw_chunk_start => step_chunk_start ch
  | sw_chunk_size => step_chunk_size size ch
  | sw_chunk_extension =>
      step_line sw_chunk_extension sw_chunk_extension_almost_done sw_chunk_data size ch
  | sw_chunk_extension_almost_done => step_lf sw_chunk_data size ch
  | sw_chunk_data => inr (x_data size)
  | sw_after_data => step_line sw_after_data sw_after_data_almost_done sw_chunk_start size ch
  | sw_after_data_almost_done => step_lf sw_chunk_start size ch
  | sw_last_chunk_extension =>
      step_line sw_last_chunk_extension sw_last_chunk_extension_almost_done sw_trailer size ch
  | sw_last_chunk_extension_almost_done => step_lf sw_trailer size ch
  | sw_trailer => step_trailer size ch
  | sw_trailer_almost_done => step_trailer_almost_done size ch
  | sw_trailer_header =>
      step_line sw_trailer_header sw_trailer_header_almost_done sw_trailer size ch
  | sw_trailer_header_almost_done => step_lf sw_trailer size ch
  end.

(** [ctx->length]: the least number of bytes that can complete the body. *)
Definition chunked_length (st : state) (size : Z) : Z :=
  match st with
  | sw_chunk_start => 3
  | sw_chunk_size => 1 + (if negb (size =? 0) then size + 4 else 1)
  | sw_chunk_extension | sw_chunk_extension_almost_done => 1 + size + 4
  | sw_chunk_data => size + 4
  | sw_after_data | sw_after_data_almost_done => 4
  | sw_last_chunk_extension | sw_last_chunk_extension_almost_done => 2
  | sw_trailer | sw_trailer_almost_done => 1
  | sw_trailer_header | sw_trailer_header_almost_done => 2
  end.

Inductive chunked_result :=
  | c_again (ctx : ngx_http_chunked_t)             (* NGX_AGAIN, b->pos = b->last *)
  | c_ok (ctx : ngx_http_chunked_t) (pos : nat)    (* NGX_OK: chunk data at pos *)
  | c_done (ctx : ngx_http_chunked_t) (pos : nat)  (* NGX_DONE *)
  | c_error.                                       (* NGX_ERROR *)

(** [if (state == sw_chunk_data && ctx->size == 0) state = sw_after_data]. *)
Definition enter (st : state) (size : Z) : state :=
  match st with
  | sw_chunk_data => if size =? 0 then sw_after_data else sw_chunk_data
  | _ => st
  end.

(** [buf] is the input from [b->pos] to [b->last]. *)
Definition ngx_http_parse_chunked (ctx : ngx_http_chunked_t) (buf : bytes) : chunked_result :=
  match mrun step (enter (c_state ctx) (c_size ctx), c_size ctx) 0 buf with
  | inl (st, size) =>
      if size >? NGX_MAX_OFF_T_VALUE - 5 then c_error
      else c_again (mk_chunked st size (chunked_length st size))
  | inr (x_data size, p) =>
      if size >? NGX_MAX_OFF_T_VALUE - 5 then c_error
      else c_ok (mk_chunked sw_chunk_data size (chunked_length sw_chunk_data size)) p
  | inr (x_done size, p) => c_done (mk_chunked sw_chunk_start size (c_length ctx)) (p + 1)
  | inr (x_invalid, _) => c_error
  end.

(** ** ngx_http_request_body_chunked_filter *)

Definition NGX_HTTP_BAD_REQUEST : Z := 400.
Definition NGX_HTTP_REQUEST_ENTITY_TOO_LARGE : Z := 413.
Definition NGX_HTTP_INTERNAL_SERVER_ERROR : Z := 500.

(** The parts of [ngx_http_request_body_t] and [headers_in] the filter uses;
    [out] holds the data of the buffers passed on, [last_buf] whether the final
    one was. *)
Record body := mk_body {
  chunked : ngx_http_chunked_t;
  rest : Z;
  content_length_n : Z;
  out : list bytes;
  last_buf : bool
}.

Section Filter.
Variable client_max_body_size : Z.
Variable alloc : bool.             (* whether allocations succeed *)

(** The inner [for ( ;; )] over one buffer; [None] is lack of fuel, [inr] a
    status the filter returns. *)
Fixpoint chunked_buf (fuel : nat) (rb : body) (buf : bytes) : option (body + Z) :=
  match fuel with
  | O => None
  | S fuel =>
      match ngx_http_parse_chunked (chunked rb) buf with
      | c_ok ctx pos =>
          let buf := drop pos buf in
          let n := content_length_n rb in
          if negb (client_max_body_size =? 0) && (client_max_body_size - n <? c_size ctx)
          then Some (inr NGX_HTTP_REQUEST_ENTITY_TOO_LARGE)
          else if negb alloc then Some (inr NGX_HTTP_INTERNAL_SERVER_ERROR)
          else
            let size := Z.of_nat (length buf) in
            if size >? c_size ctx then
              let k := Z.to_nat (c_size ctx) in
              chunked_buf fuel
                (mk_body (mk_chunked (c_state ctx) 0 (c_length ctx)) (rest rb) (n + c_size ctx)
                   (out rb ++ [take k buf]) (last_buf rb))
                (drop k buf)
            else
              chunked_buf fuel
                (mk_body (mk_chunked (c_state ctx) (c_size ctx - size) (c_length ctx)) (rest rb)
                   (n + size) (out rb ++ [buf]) (last_buf rb))
                []
      | c_done ctx pos =>
          if alloc then Some (inl (mk_body ctx 0 (content_length_n rb) (out rb) true))
          else Some (inr NGX_HTTP_INTERNAL_SERVER_ERROR)
      | c_again ctx =>
          Some (inl (mk_body ctx (c_length ctx) (content_length_n rb) (out rb) (last_buf rb)))
      | c_error => Some (inr NGX_HTTP_BAD_REQUEST)
      end
  end.

(** The outer loop over the chain of buffers. *)
Fixpoint chunked_bufs (rb : body) (bufs : list bytes) : option (body + Z) :=
  match bufs with
  | [] => Some (inl rb)
  | buf :: bufs =>
      match chunked_buf (S (length buf)) rb buf with
      | Some (inl rb) => chunked_bufs rb bufs
      | r => r
      end
  end.

Definition ngx_http_request_body_chunked_filter (rb : body) (bufs : list bytes)
    : option (body + Z) :=
  if rest rb =? -1 then
    if alloc
    then chunked_bufs (mk_body (mk_chunked sw_chunk_start 0 0) 3 0 (out rb) (last_buf rb)) bufs
    else Some (inr NGX_HTTP_INTERNAL_SERVER_ERROR)
  else chunked_bufs rb bufs.

End Filter.

(** ** ngx_http_chunked_body_filter *)

(** A buffer of the response: its content, in memory or in a file, and flags. *)
Record ebuf := mk_ebuf {
  e_data : bytes;
  e_flush : bool;
  e_sync : bool;
  e_in_memory : bool;
  e_in_file : bool;
  e_last_buf : bool
}.

(** A trailer header; [hash == 0] marks a deleted one. *)
Record trailer := mk_trailer { t_hash : Z; t_key : bytes; t_value : bytes }.

(** The first pass of [ngx_http_chunked_create_trailers]. *)
Fixpoint trailers_len (ts : list trailer) : nat :=
  match ts with
  | [] => 0
  | t :: ts =>
      if t_hash t =? 0 then trailers_len ts
      else length (t_key t) + 2 + length (t_value t) + 2 + trailers_len ts
  end.

(** The second pass. *)
Fixpoint trailers_write (ts : list trailer) : bytes :=
  match ts with
  | [] => []
  | t :: ts =>
      if t_hash t =? 0 then trailers_write ts
      else t_key t ++ bs ": " ++ t_value t ++ crlf ++ trailers_write ts
  end.

Definition ngx_http_chunked_create_trailers (ts : list trailer) : bytes :=
  if (trailers_len ts =? 0)%nat then crlf ++ bs "0" ++ crlf ++ crlf
  else crlf ++ bs "0" ++ crlf ++ trailers_write ts ++ crlf.

(** [%xO] CRLF: [ngx_sprintf] does not limit the output. *)
Definition chunk_header (size : Z) : bytes :=
  ngx_sprintf_num NGX_MAX_SIZE_T_VALUE size " "%ch 1 0 ++ crlf.

(** What the filter passes on for the chain [cl :: bufs]. *)
Definition ngx_http_chunked_body_filter (ts : list trailer) (cl : ebuf) (bufs : list ebuf) : bytes :=
  let chain := cl :: bufs in
  let size := Z.of_nat (sum_list_with (fun b => length (e_data b)) chain) in
  let kept := filter (fun b => e_flush b || e_sync b || e_in_memory b || e_in_file b = true) chain in
  let last := default cl (last bufs) in
  (if negb (size =? 0) then chunk_header size else [])
  ++ concat (map e_data kept)
  ++ (if e_last_buf last then
        let t := ngx_http_chunked_create_trailers ts in
        if size =? 0 then drop 2 t else t
      else if size >? 0 then crlf
      else []).

(** * Theorems *)

(** ** A decoder that reads byte by byte *)

Inductive verdict := v_done | v_too_large | v_invalid.

(** The state of a body: parser state, bytes left in the chunk, bytes decoded. *)
Record dstate := mk_d { d_state : state; d_size : Z; d_count : Z }.

Section Reference.
Variable max : Z.                  (* client_max_body_size *)

Definition over (s : dstate) : bool := negb (max =? 0) && (max - d_count s <? d_size s).

Definition dec_step (s : dstate) (ch : Z) : dstate * bytes + verdict :=
  if decide (d_state s = sw_chunk_data) then
    if over s then inr v_too_large
    else inl (mk_d (enter sw_chunk_data (d_size s - 1)) (d_size s - 1) (d_count s + 1), [ch])
  else
    match step (d_state s, d_size s) 0 ch with
    | inl (st', size') =>
        if size' >? NGX_MAX_OFF_T_VALUE - 5 then inr v_invalid
        else inl (mk_d st' size' (d_count s), [])
    | inr (x_done _) => inr v_done
    | inr _ => inr v_invalid
    end.

Fixpoint dec_run (s : dstate) (l : bytes) : dstate * bytes + bytes * verdict :=
  match l with
  | [] => inl (s, [])
  | ch :: l =>
      match dec_step s ch with
      | inr v => inr ([], v)
      | inl (s, d) =>
          match dec_run s l with
          | inl (s, d') => inl (s, d ++ d')
          | inr (d', v) => inr (d ++ d', v)
          end
      end
  end.

Lemma dec_run_app (s : dstate) (a b : bytes) :
  dec_run s (a ++ b) =
  match dec_run s a with
  | inl (s, d) =>
      match dec_run s b with
      | inl (s, d') => inl (s, d ++ d')
      | inr (d', v) => inr (d ++ d', v)
      end
  | inr r => inr r
  end.
Proof.
  revert s. induction a as [|c a IH]; intros s; cbn [app dec_run].
  - by destruct (dec_run s b) as [[]|[]].
  - destruct (dec_step s c) as [[s1 d1]|v]; [|done]. rewrite IH.
    destruct (dec_run s1 a) as [[s2 d2]|[d2 v]]; [|done].
    destruct (dec_run s2 b) as [[s3 d3]|[d3 v]]; by rewrite app_assoc.
Qed.

End Reference.

Lemma hex_ch_bound (ch v : Z) : hex_ch ch = Some v → 0 <= v < 16.
Proof. unfold hex_ch. cbv zeta. split_ifs; intros [= <-]; lia. Qed.

(** The states of a chunk that is not the last one. *)
Definition in_chunk (st : state) : bool :=
  match st with
  | sw_chunk_extension | sw_chunk_extension_almost_done | sw_chunk_data => true
  | _ => false
  end.

Definition size_ok (st : state) (size : Z) : Prop :=
  0 <= size <= NGX_MAX_OFF_T_VALUE ∧ (in_chunk st = true → 0 < size).

Lemma max_off_t_16 : NGX_MAX_OFF_T_VALUE / 16 = 576460752303423487.
Proof. reflexivity. Qed.

(** The size cannot overflow: it is checked before it is multiplied.  A size
    that is too large to be accepted can only be met while it is being read. *)
Lemma step_size_ok (st st' : state) (size size' : Z) (p : nat) (ch : Z) :
  size_ok st size → step (st, size) p ch = inl (st', size') →
  size_ok st' size'
  ∧ (size <= NGX_MAX_OFF_T_VALUE - 5 → size' > NGX_MAX_OFF_T_VALUE - 5 → st' = sw_chunk_size).
Proof.
  intros [Hs Hp]. unfold size_ok, NGX_MAX_OFF_T_VALUE in *. destruct st; try done; cbn [step];
    unfold step_chunk_start, step_chunk_size, step_line, step_lf, step_trailer,
      step_trailer_almost_done; rewrite ?max_off_t_16; simpl in Hp;
    try (destruct (hex_ch ch) as [v|] eqn:Ev; [apply hex_ch_bound in Ev|]);
    intros E; split_ifs_in E; inv E; (split; [split; [lia|]|]); simpl; try done; lia.
Qed.

(** The states the decoder saves. *)
Definition dec_ok (s : dstate) : Prop :=
  size_ok (d_state s) (d_size s) ∧ d_size s <= NGX_MAX_OFF_T_VALUE - 5.

Lemma dec_run_cons (max : Z) (st : state) (size n : Z) (ch : Z) (l : bytes) :
  st ≠ sw_chunk_data →
  dec_run max (mk_d st size n) (ch :: l) =
  match step (st, size) 0 ch with
  | inl (st', size') =>
      if size' >? NGX_MAX_OFF_T_VALUE - 5 then inr ([], v_invalid)
      else dec_run max (mk_d st' size' n) l
  | inr (x_done _) => inr ([], v_done)
  | inr _ => inr ([], v_invalid)
  end.
Proof.
  intros Hst. cbn [dec_run]. unfold dec_step. cbn [d_state d_size d_count].
  rewrite decide_False by done.
  destruct (step (st, size) 0 ch) as [[st1 size1]|[]]; try done.
  destruct (_ >? _); [done|]. by destruct (dec_run _ _ l) as [[]|[]].
Qed.

Lemma step_not_data (st : state) (size size' : Z) (p : nat) (ch : Z) :
  step (st, size) p ch = inr (x_data size') → st = sw_chunk_data.
Proof.
  destruct st; cbn [step]; unfold step_chunk_start, step_chunk_size, step_line, step_lf,
    step_trailer, step_trailer_almost_done; try (destruct (hex_ch ch)); split_ifs; done.
Qed.

(** A run of the loop of [ngx_http_parse_chunked], seen by the reference. *)
Lemma mrun_dec (max : Z) (l : bytes) (st : state) (size n : Z) (p : nat) :
  dec_ok (mk_d st size n) →
  match mrun step (st, size) p l with
  | inl (st', size') =>
      if size' >? NGX_MAX_OFF_T_VALUE - 5 then dec_run max (mk_d st size n) l = inr ([], v_invalid)
      else dec_run max (mk_d st size n) l = inl (mk_d st' size' n, [])
           ∧ dec_ok (mk_d st' size' n)
  | inr (x_data size', q) =>
      ∃ d l', l = d ++ l' ∧ l' ≠ [] ∧ q = (p + length d)%nat
      ∧ dec_run max (mk_d st size n) l = dec_run max (mk_d sw_chunk_data size' n) l'
      ∧ dec_ok (mk_d sw_chunk_data size' n)
  | inr (x_done _, _) => dec_run max (mk_d st size n) l = inr ([], v_done)
  | inr (x_invalid, _) => dec_run max (mk_d st size n) l = inr ([], v_invalid)
  end.
Proof.
  revert st size p. induction l as [|ch l IH]; intros st size p [Hok Hle];
    cbn [d_state d_size] in Hok, Hle; cbn [mrun].
  { destruct (size >? NGX_MAX_OFF_T_VALUE - 5) eqn:E; [lia|]. by split. }
  destruct (decide (st = sw_chunk_data)) as [->|Hst].
  { cbn [step]. exists [], (ch :: l). rewrite Nat.add_0_r. by split_and!. }
  rewrite dec_run_cons by done. change (step (st, size) p ch) with (step (st, size) 0 ch).
  destruct (step (st, size) 0 ch) as [[st1 size1]|[]] eqn:E;
    [|by apply step_not_data in E|done..].
  apply step_size_ok in E as [Hok1 Hbig]; [|done].
  destruct (size1 >? NGX_MAX_OFF_T_VALUE - 5) eqn:Ebig.
  - rewrite Hbig by lia. destruct l as [|c l]; cbn [mrun]; [by rewrite Ebig|].
    cbn [step]. unfold step_chunk_size.
    replace (size1 >? NGX_MAX_OFF_T_VALUE / 16) with true; [done|].
    rewrite max_off_t_16. unfold NGX_MAX_OFF_T_VALUE in *. lia.
  - specialize (IH st1 size1 (p + 1)%nat). 
    destruct (mrun step (st1, size1) (p + 1) l) as [[st2 size2]|[[size2|size2|] q]];
      try (apply IH; split; [done|cbn; lia]).
    destruct IH as (d & l' & -> & Hl' & -> & Hrun & Hok2); [split; [done|cbn; lia]|].
    exists (ch :: d), l'. cbn [length]. split_and!; try done. lia.
Qed.

(** Prefix the data of a run. *)
Definition emit (d : bytes) (r : dstate * bytes + bytes * verdict) : dstate * bytes + bytes * verdict :=
  match r with
  | inl (s, d') => inl (s, d ++ d')
  | inr (d', v) => inr (d ++ d', v)
  end.

Lemma emit_emit (a b : bytes) (r : dstate * bytes + bytes * verdict) :
  emit a (emit b r) = emit (a ++ b) r.
Proof. destruct r as [[]|[]]; simpl; by rewrite app_assoc. Qed.

(** Data bytes of one chunk are copied. *)
Lemma dec_data (max size n : Z) (d l : bytes) :
  0 < size → Z.of_nat (length d) <= size → over max (mk_d sw_chunk_data size n) = false →
  dec_run max (mk_d sw_chunk_data size n) (d ++ l) =
  emit d (dec_run max (mk_d (enter sw_chunk_data (size - Z.of_nat (length d)))
                         (size - Z.of_nat (length d)) (n + Z.of_nat (length d))) l).
Proof.
  revert size n. induction d as [|c d IH]; intros size n Hs Hd Ho.
  { simpl. rewrite Z.sub_0_r, Z.add_0_r. rewrite (proj2 (Z.eqb_neq size 0)) by lia.
    by destruct (dec_run _ _ l) as [[]|[]]. }
  cbn [length] in *. rewrite Nat2Z.inj_succ in *. cbn [app dec_run]. unfold dec_step. rewrite decide_True, Ho by done.
  cbn [d_size d_count]. destruct (decide (size = 1)) as [->|].
  - destruct d; [|simpl in Hd; lia]. cbn [app length enter Z.eqb Z.sub Z.opp Z.add Z.of_nat].
    replace (n + Z.succ 0) with (n + 1) by lia. done.
  - assert (enter sw_chunk_data (size - 1) = sw_chunk_data) as ->
      by (simpl; by rewrite (proj2 (Z.eqb_neq (size - 1) 0)) by lia).
    rewrite IH; [|lia..|].
    + change (c :: d) with ([c] ++ d). rewrite <- emit_emit.
      replace (size - 1 - Z.of_nat (length d)) with (size - Z.succ (Z.of_nat (length d))) by lia.
      replace (n + 1 + Z.of_nat (length d)) with (n + Z.succ (Z.of_nat (length d))) by lia.
      by destruct (emit d _) as [[]|[]].
    + rewrite <- Ho. unfold over. cbn [d_size d_count]. f_equal. lia.
Qed.

(** What the decoder has saved, as a state of the reference. *)
Definition body_d (rb : body) : dstate :=
  mk_d (enter (c_state (chunked rb)) (c_size (chunked rb))) (c_size (chunked rb))
    (content_length_n rb).

(** [rb'] continues [rb] with the data [d]. *)
Definition grew (rb rb' : body) (d : bytes) : Prop :=
  concat (out rb') = concat (out rb) ++ d
  ∧ content_length_n rb' = content_length_n rb + Z.of_nat (length d).

(** The outcome of the filter on a buffer, as the reference predicts it. *)
Definition refines (max : Z) (rb : body) (buf : bytes) (r : option (body + Z)) : Prop :=
  match dec_run max (body_d rb) buf with
  | inl (s, d) =>
      ∃ rb', r = Some (inl rb') ∧ grew rb rb' d ∧ body_d rb' = s ∧ dec_ok s
             ∧ last_buf rb' = last_buf rb
             ∧ rest rb' = chunked_length (d_state s) (d_size s)
  | inr (d, v_done) =>
      ∃ rb', r = Some (inl rb') ∧ grew rb rb' d ∧ last_buf rb' = true ∧ rest rb' = 0
  | inr (_, v_too_large) => r = Some (inr NGX_HTTP_REQUEST_ENTITY_TOO_LARGE)
  | inr (_, v_invalid) => r = Some (inr NGX_HTTP_BAD_REQUEST)
  end.

Lemma grew_trans (rb1 rb2 rb3 : body) (d e : bytes) :
  grew rb1 rb2 d → grew rb2 rb3 e → grew rb1 rb3 (d ++ e).
Proof.
  intros [H1 H2] [H3 H4]. split; [by rewrite H3, H1, app_assoc|].
  rewrite H4, H2, length_app. lia.
Qed.

(** Going on after a bulk copy of [d]. *)
Lemma refines_emit (max : Z) (rb rb' : body) (d buf buf' : bytes) (r : option (body + Z)) :
  dec_run max (body_d rb) buf = emit d (dec_run max (body_d rb') buf') →
  grew rb rb' d → last_buf rb' = last_buf rb →
  refines max rb' buf' r → refines max rb buf r.
Proof.
  intros E Hg Hl. unfold refines. rewrite E.
  destruct (dec_run max (body_d rb') buf') as [[s e]|[e []]]; simpl; try done.
  - intros (rb2 & -> & H1 & H2 & H3 & H4 & H5). exists rb2. rewrite <- Hl.
    split_and!; try done. by eapply grew_trans.
  - intros (rb2 & -> & H1 & H2 & H3). exists rb2. split_and!; try done. by eapply grew_trans.
Qed.

(** A state that the code saves is taken up as it is. *)
Lemma enter_ok (st : state) (size n : Z) : dec_ok (mk_d st size n) → enter st size = st.
Proof.
  intros [[_ Hs] _]. destruct st; try done. simpl in *.
  by rewrite (proj2 (Z.eqb_neq size 0)) by (specialize (Hs eq_refl); lia).
Qed.

(** One buffer: the loop that copies chunks in bulk ends within its fuel, with
    the result of the reference. *)
Lemma chunked_buf_refines (max : Z) (fuel : nat) (rb : body) (buf : bytes) :
  dec_ok (body_d rb) → (length buf < fuel)%nat →
  refines max rb buf (chunked_buf max true fuel rb buf).
Proof.
  revert rb buf. induction fuel as [|fuel IH]; intros rb buf Hok Hf; [lia|].
  cbn [chunked_buf]. unfold ngx_http_parse_chunked.
  pose proof (mrun_dec max buf (enter (c_state (chunked rb)) (c_size (chunked rb)))
    (c_size (chunked rb)) (content_length_n rb) 0 Hok) as H. fold (body_d rb) in H.
  destruct (mrun step _ 0 buf) as [[st size]|[[size|size|] q]].
  - destruct (size >? _); [unfold refines; by rewrite H|].
    destruct H as [H Hs]. unfold refines. rewrite H. eexists. split; [done|].
    split; [split; simpl; [by rewrite app_nil_r|lia]|].
    unfold body_d; cbn [chunked c_state c_size content_length_n]. by rewrite (enter_ok _ _ _ Hs).
  - destruct H as (d & l & -> & Hl & -> & Hrun & [[Hs1 Hs2] Hs3]). cbn [d_state d_size] in *.
    specialize (Hs2 eq_refl).
    replace (size >? NGX_MAX_OFF_T_VALUE - 5) with false by lia.
    rewrite Nat.add_0_l, drop_app_length. cbn [c_size c_state c_length].
    change (negb (max =? 0) && (max - content_length_n rb <? size))
      with (over max (mk_d sw_chunk_data size (content_length_n rb))).
    destruct (over max _) eqn:Ho.
    { unfold refines. rewrite Hrun. destruct l as [|c l]; [done|]. cbn [dec_run].
      unfold dec_step. rewrite decide_True, Ho by done. done. }
    cbn [negb]. rewrite length_app in Hf.
    assert (length l ≠ 0%nat) by (by destruct l).
    destruct (Z.of_nat (length l) >? size) eqn:El.
    + set (k := Z.to_nat size).
      pose proof (dec_data max size (content_length_n rb) (take k l) (drop k l)) as Hd.
      rewrite take_drop in Hd. rewrite Hd in Hrun; [|lia|rewrite length_take; lia|done].
      eapply refines_emit; [| | |apply IH].
      * rewrite Hrun. unfold body_d. cbn [chunked c_state c_size content_length_n].
        rewrite length_take. replace (Z.of_nat (k `min` length l)) with size by lia.
        by rewrite Z.sub_diag.
      * split; cbn [out content_length_n]; [|rewrite length_take; lia].
        rewrite concat_app. simpl. by rewrite app_nil_r.
      * done.
      * split; [split|]; cbn; [unfold NGX_MAX_OFF_T_VALUE; lia|done|unfold NGX_MAX_OFF_T_VALUE; lia].
      * rewrite length_drop. lia.
    + pose proof (dec_data max size (content_length_n rb) l []) as Hd.
      rewrite app_nil_r in Hd. rewrite Hd in Hrun; [|lia|lia|done].
      eapply refines_emit; [| | |apply IH].
      * rewrite Hrun. done.
      * split; cbn [out content_length_n]; [|lia]. rewrite concat_app. simpl. by rewrite app_nil_r.
      * done.
      * split; [split|]; cbn; [lia| |lia]. destruct (Z.eqb_spec (size - Z.of_nat (length l)) 0); [done|intros _; lia].
      * simpl. lia.
  - unfold refines. rewrite H. eexists. split; [done|]. split; [|done].
    split; simpl; [by rewrite app_nil_r|lia].
  - unfold refines. by rewrite H.
Qed.

(** ** Any split of the stream *)

(** The request body before its first byte. *)
Definition body_init : body := mk_body (mk_chunked sw_chunk_start 0 0) (-1) 0 [] false.

(** As long as the body is not complete, a list of buffers is decoded as their
    concatenation. *)
Lemma chunked_bufs_refines (max : Z) (rb : body) (bufs : list bytes) :
  dec_ok (body_d rb) → Forall (.≠ []) bufs →
  match dec_run max (body_d rb) (concat bufs) with
  | inl (s, d) =>
      ∃ rb', chunked_bufs max true rb bufs = Some (inl rb') ∧ grew rb rb' d ∧ body_d rb' = s
  | inr (_, v_done) => True
  | inr (_, v_too_large) =>
      chunked_bufs max true rb bufs = Some (inr NGX_HTTP_REQUEST_ENTITY_TOO_LARGE)
  | inr (_, v_invalid) => chunked_bufs max true rb bufs = Some (inr NGX_HTTP_BAD_REQUEST)
  end.
Proof.
  intros Hok Hb. revert rb Hok. induction Hb as [|b bufs Hb Hbs IH]; intros rb Hok; simpl concat.
  { cbn [dec_run chunked_bufs]. eexists. split; [done|]. split; [|done].
    split; [by rewrite app_nil_r|simpl; lia]. }
  rewrite dec_run_app. cbn [chunked_bufs].
  pose proof (chunked_buf_refines max (S (length b)) rb b Hok ltac:(lia)) as H.
  unfold refines in H. destruct (dec_run max (body_d rb) b) as [[s d]|[d []]]; try (by rewrite H).
  - destruct H as (rb' & -> & H1 & <- & H2 & _). specialize (IH rb' H2).
    destruct (dec_run max (body_d rb') (concat bufs)) as [[s2 d2]|[d2 []]]; try done.
    destruct IH as (rb2 & -> & H3 & H4). exists rb2. split_and!; try done. by eapply grew_trans.
  - done.
Qed.

(** The last buffer completes the body. *)
Lemma chunked_bufs_done (max : Z) (rb : body) (bufs : list bytes) (d : bytes) :
  dec_ok (body_d rb) → Forall (.≠ []) bufs →
  dec_run max (body_d rb) (concat bufs) = inr (d, v_done) →
  (∀ a b, concat bufs = a ++ b → b ≠ [] → ∃ s e, dec_run max (body_d rb) a = inl (s, e)) →
  ∃ rb', chunked_bufs max true rb bufs = Some (inl rb') ∧ grew rb rb' d
         ∧ last_buf rb' = true ∧ rest rb' = 0.
Proof.
  intros Hok Hb Hd Hpre. revert rb d Hok Hd Hpre.
  induction Hb as [|b bufs Hb Hbs IH]; intros rb d Hok Hd Hpre; simpl in Hd; [done|].
  cbn [chunked_bufs].
  pose proof (chunked_buf_refines max (S (length b)) rb b Hok ltac:(lia)) as H.
  unfold refines in H. destruct bufs as [|b2 bufs].
  - rewrite app_nil_r in Hd. rewrite Hd in H. destruct H as (rb' & -> & H).
    by exists rb'.
  - destruct (Hpre b (concat (b2 :: bufs))) as (s & e & E); [done| |].
    { inversion Hbs; subst. simpl. by destruct b2. }
    rewrite E in H. destruct H as (rb' & -> & H1 & H2 & H3 & _).
    rewrite dec_run_app, E, <- H2 in Hd.
    destruct (dec_run max (body_d rb') (concat (b2 :: bufs))) as [[]|[d2 v]] eqn:E2; [done|].
    injection Hd as <- ->.
    destruct (IH rb' d2) as (rb2 & E3 & H4 & H5); [by rewrite H2|done| |].
    { intros a' b' Ha Hne. destruct (Hpre (b ++ a') b') as (s' & e' & E').
      - simpl in *. by rewrite Ha, app_assoc.
      - done.
      - rewrite dec_run_app, E, <- H2 in E'.
        destruct (dec_run max (body_d rb') a') as [[]|[]]; [by eexists _, _|done]. }
    exists rb2. split; [done|]. split; [by eapply grew_trans|done].
Qed.

(** ** The encoder and the decoder *)

Lemma hex_ch_digit (v : Z) : 0 <= v < 16 → hex_ch (hex_digit hex_lower v) = Some v.
Proof.
  intros Hv. by apply (range_check_prop 16 (fun v => hex_ch (hex_digit hex_lower v) = Some v)).
Qed.

Definition hex_fold (a : Z) (vs : list Z) : Z := foldl (fun a v => a * 16 + v) a vs.

Lemma hex_fold_ge (a : Z) (vs : list Z) :
  0 <= a → Forall (fun v => 0 <= v < 16) vs → a <= hex_fold a vs.
Proof.
  intros Ha Hv. revert a Ha. induction Hv as [|v vs Hv Hvs IH]; intros a Ha; [done|].
  unfold hex_fold in *. simpl. etransitivity; [|apply IH; lia]. lia.
Qed.

Lemma dec_hex (max n size : Z) (vs : list Z) (l : bytes) :
  0 <= size → Forall (fun v => 0 <= v < 16) vs → hex_fold size vs <= NGX_MAX_OFF_T_VALUE / 16 →
  dec_run max (mk_d sw_chunk_size size n) (map (hex_digit hex_lower) vs ++ l)
  = dec_run max (mk_d sw_chunk_size (hex_fold size vs) n) l.
Proof.
  intros Hs Hv. revert size Hs. induction Hv as [|v vs Hv Hvs IH]; intros size Hs Hle; [done|].
  cbn [map app]. rewrite dec_run_cons by done. cbn [step]. unfold step_chunk_size.
  change (hex_fold size (v :: vs)) with (hex_fold (size * 16 + v) vs) in *.
  pose proof (hex_fold_ge (size * 16 + v) vs ltac:(lia) Hvs).
  rewrite max_off_t_16 in *. replace (size >? 576460752303423487) with false by lia.
  rewrite hex_ch_digit by done.
  replace (size * 16 + v >? NGX_MAX_OFF_T_VALUE - 5) with false
    by (unfold NGX_MAX_OFF_T_VALUE; lia).
  apply IH; lia.
Qed.

(** [%xO] prints the digits that [sw_chunk_size] reads; they fit the 16 bytes
    that the encoder reserves. *)
Lemma chunk_header_digits (size : Z) :
  0 < size <= NGX_MAX_OFF_T_VALUE →
  ∃ v vs, chunk_header size = map (hex_digit hex_lower) (v :: vs) ++ crlf
  ∧ Forall (fun v => 0 <= v < 16) (v :: vs) ∧ hex_fold 0 (v :: vs) = size
  ∧ (length (v :: vs) <= 16)%nat.
Proof.
  intros Hs. unfold NGX_MAX_OFF_T_VALUE in Hs.
  assert (E : sprintf_num_digits 1 size = sprintf_digits 20 16 (hex_digit hex_lower) size []) by done.
  assert (E16 : sprintf_digits 20 16 (hex_digit hex_lower) size []
                = sprintf_digits 16 16 (hex_digit hex_lower) size []).
  { apply (sprintf_digits_fuel 16 (hex_digit hex_lower) 16 20); [lia|..|lia].
    change (16 ^ Z.of_nat 16) with 18446744073709551616. lia. }
  destruct (sprintf_digits_value 16 (hex_digit hex_lower) 16 size [])
    as (vs & Ev & Hne & Hvs & Hval & Hl); [lia| |lia|].
  { change (16 ^ Z.of_nat 16) with 18446744073709551616. lia. }
  destruct vs as [|v vs]; [done|]. exists v, vs. split_and!; try done.
  unfold chunk_header. f_equal. rewrite ngx_sprintf_num_fits; rewrite E, E16, Ev, app_nil_r.
  - rewrite length_map. replace (Z.to_nat (0 - _)) with 0%nat by (simpl; lia). done.
  - rewrite length_map. unfold NGX_MAX_SIZE_T_VALUE. lia.
Qed.

(** A byte that is not data. *)
Lemma dec_quiet (max : Z) (s s' : dstate) (c : Z) (l : bytes) :
  dec_step max s c = inl (s', []) → dec_run max s (c :: l) = dec_run max s' l.
Proof. intros E. cbn [dec_run]. rewrite E. by destruct (dec_run max s' l) as [[]|[]]. Qed.

(** One chunk, up to the end of its data. *)
Lemma dec_chunk (max n : Z) (data l : bytes) :
  0 < Z.of_nat (length data) <= NGX_MAX_OFF_T_VALUE / 16 →
  (max = 0 ∨ n + Z.of_nat (length data) <= max) →
  dec_run max (mk_d sw_chunk_start 0 n) (chunk_header (Z.of_nat (length data)) ++ data ++ l)
  = emit data (dec_run max (mk_d sw_after_data 0 (n + Z.of_nat (length data))) l).
Proof.
  intros Hlen Hmax. set (size := Z.of_nat (length data)) in *.
  destruct (chunk_header_digits size) as (v & vs & -> & Hv & Hval & _).
  { rewrite max_off_t_16 in Hlen. unfold NGX_MAX_OFF_T_VALUE. lia. }
  apply Forall_cons in Hv as [Hv Hvs]. change (hex_fold 0 (v :: vs)) with (hex_fold v vs) in Hval.
  cbn [map app]. rewrite dec_run_cons by done. cbn [step]. unfold step_chunk_start.
  rewrite hex_ch_digit by done.
  replace (v >? NGX_MAX_OFF_T_VALUE - 5) with false by (unfold NGX_MAX_OFF_T_VALUE; lia).
  rewrite <- app_assoc, dec_hex by (done || lia). rewrite Hval.
  assert (Hcrlf : dec_run max (mk_d sw_chunk_size size n) (crlf ++ data ++ l)
                  = dec_run max (mk_d sw_chunk_data size n) (data ++ l)).
  { rewrite max_off_t_16 in Hlen. cbn [crlf app]. rewrite dec_run_cons by done.
    cbn [step]. unfold step_chunk_size. rewrite max_off_t_16.
    replace (size >? 576460752303423487) with false by lia.
    change (hex_ch 13) with (@None Z). rewrite (proj2 (Z.eqb_neq size 0)) by lia. cbn [Z.eqb Pos.eqb].
    replace (size >? NGX_MAX_OFF_T_VALUE - 5) with false by (unfold NGX_MAX_OFF_T_VALUE; lia).
    rewrite dec_run_cons by done. cbn [step step_lf Z.eqb Pos.eqb]. unfold step_lf.
    cbn [Z.eqb Pos.eqb].
    replace (size >? NGX_MAX_OFF_T_VALUE - 5) with false by (unfold NGX_MAX_OFF_T_VALUE; lia).
    done. }
  rewrite Hcrlf, dec_data by (done || lia || (unfold over; simpl; lia)).
  by rewrite Z.sub_diag.
Qed.

Lemma dec_crlf (max n : Z) (l : bytes) :
  dec_run max (mk_d sw_after_data 0 n) (crlf ++ l) = dec_run max (mk_d sw_chunk_start 0 n) l.
Proof. cbn [crlf app]. by do 2 (erewrite dec_quiet by reflexivity). Qed.

(** Trailer lines are skipped. *)
Definition trailer_ok (t : trailer) : Prop :=
  Forall (fun c => c ≠ CR ∧ c ≠ LF) (t_key t) ∧ Forall (fun c => c ≠ CR ∧ c ≠ LF) (t_value t).

Lemma dec_trailer_line (max n : Z) (w l : bytes) :
  Forall (fun c => c ≠ CR ∧ c ≠ LF) w →
  dec_run max (mk_d sw_trailer_header 0 n) (w ++ crlf ++ l) = dec_run max (mk_d sw_trailer 0 n) l.
Proof.
  induction 1 as [|c w [H1 H2] Hw IH].
  { cbn [crlf app]. by do 2 (erewrite dec_quiet by reflexivity). }
  cbn [app]. rewrite dec_run_cons by done. cbn [step]. unfold step_line.
  rewrite (proj2 (Z.eqb_neq c 13)), (proj2 (Z.eqb_neq c 10)) by done. exact IH.
Qed.

Lemma dec_trailer_first (max n : Z) (w l : bytes) :
  Forall (fun c => c ≠ CR ∧ c ≠ LF) w → w ≠ [] →
  dec_run max (mk_d sw_trailer 0 n) (w ++ crlf ++ l) = dec_run max (mk_d sw_trailer 0 n) l.
Proof.
  intros Hw Hne. destruct w as [|c w]; [done|]. apply Forall_cons in Hw as [[H1 H2] Hw].
  cbn [app]. rewrite dec_run_cons by done. cbn [step]. unfold step_trailer.
  rewrite (proj2 (Z.eqb_neq c 13)), (proj2 (Z.eqb_neq c 10)) by done.
  rewrite <- (dec_trailer_line max n w l Hw). done.
Qed.

Lemma dec_trailers (max n : Z) (ts : list trailer) (l : bytes) :
  Forall trailer_ok ts →
  dec_run max (mk_d sw_trailer 0 n) (trailers_write ts ++ l) = dec_run max (mk_d sw_trailer 0 n) l.
Proof.
  induction 1 as [|t ts [Hk Hv] Hts IH]; [done|]. cbn [trailers_write].
  destruct (t_hash t =? 0); [done|].
  replace ((t_key t ++ bs ": " ++ t_value t ++ crlf ++ trailers_write ts) ++ l)
    with ((t_key t ++ bs ": " ++ t_value t) ++ crlf ++ trailers_write ts ++ l)
    by (by rewrite <- !app_assoc).
  rewrite dec_trailer_first; [done|..].
  - apply Forall_app. split; [done|]. apply Forall_app. split; [|done]. solve_forall lia.
  - by destruct (t_key t).
Qed.

(** The two passes over the trailers agree. *)
Lemma trailers_len_write (ts : list trailer) : length (trailers_write ts) = trailers_len ts.
Proof.
  induction ts as [|t ts IH]; [done|]. simpl. destruct (t_hash t =? 0); [done|].
  rewrite length_app. simpl. rewrite !length_app. simpl. lia.
Qed.

(** The last chunk, without its final line feed. *)
Definition last_chunk (ts : list trailer) : bytes := bs "0" ++ crlf ++ trailers_write ts ++ [CR].

Lemma create_trailers_eq (ts : list trailer) :
  ngx_http_chunked_create_trailers ts = crlf ++ last_chunk ts ++ [LF].
Proof.
  unfold ngx_http_chunked_create_trailers, last_chunk. rewrite <- trailers_len_write.
  destruct (trailers_write ts) as [|c w]; [done|]. simpl. by rewrite <- app_assoc.
Qed.

Lemma dec_last_chunk (max n : Z) (ts : list trailer) :
  Forall trailer_ok ts →
  dec_run max (mk_d sw_chunk_start 0 n) (last_chunk ts)
  = inl (mk_d sw_trailer_almost_done 0 n, []).
Proof.
  intros Hts. unfold last_chunk.
  change (bs "0" ++ crlf ++ trailers_write ts ++ [CR])
    with (48 :: 13 :: 10 :: trailers_write ts ++ [CR]).
  do 3 (erewrite dec_quiet by reflexivity). by rewrite dec_trailers.
Qed.

(** *** A whole response *)

(** The data of one call of the filter. *)
Definition call := (ebuf * list ebuf)%type.

Definition call_data (c : call) : bytes := concat (map e_data (fst c :: snd c)).

Definition call_last (c : call) : bool := e_last_buf (default (fst c) (last (snd c))).

Definition encode (ts : list trailer) (c : call) : bytes :=
  ngx_http_chunked_body_filter ts (fst c) (snd c).

(** A buffer with data is in memory or in a file. *)
Definition ebuf_ok (b : ebuf) : Prop :=
  e_data b ≠ [] → e_in_memory b || e_in_file b = true.

Definition call_ok (c : call) : Prop :=
  Forall ebuf_ok (fst c :: snd c)
  ∧ Z.of_nat (length (call_data c)) <= NGX_MAX_OFF_T_VALUE / 16.

Lemma kept_data (chain : list ebuf) :
  Forall ebuf_ok chain →
  concat (map e_data (filter (fun b => e_flush b || e_sync b || e_in_memory b || e_in_file b = true) chain))
  = concat (map e_data chain).
Proof.
  induction 1 as [|b chain Hb Hc IH]; [done|]. rewrite filter_cons.
  destruct (decide (_ = true)) as [Hk|Hk]; simpl; rewrite IH; [done|].
  destruct (e_data b) eqn:E; [done|]. exfalso. apply Hk.
  assert (e_in_memory b || e_in_file b = true) by (apply Hb; by rewrite E).
  by destruct (e_flush b), (e_sync b), (e_in_memory b), (e_in_file b).
Qed.

Lemma length_concat_sum (chain : list ebuf) :
  sum_list_with (fun b => length (e_data b)) chain = length (concat (map e_data chain)).
Proof. induction chain as [|b chain IH]; simpl; [done|]. by rewrite length_app, IH. Qed.

(** What a call writes, in terms of its data. *)
Lemma encode_eq (ts : list trailer) (c : call) :
  call_ok c →
  encode ts c =
  (if decide (call_data c = []) then [] else chunk_header (Z.of_nat (length (call_data c))) ++ call_data c)
  ++ (if call_last c
      then (if decide (call_data c = []) then [] else crlf) ++ last_chunk ts ++ [LF]
      else if decide (call_data c = []) then [] else crlf).
Proof.
  intros [Hok _]. unfold encode, ngx_http_chunked_body_filter.
  rewrite kept_data, length_concat_sum, create_trailers_eq by done. fold (call_data c).
  change (concat (map e_data (c.1 :: c.2))) with (call_data c). fold (call_last c).
  destruct (decide (call_data c = [])) as [->|Hne].
  - by destruct (call_last c).
  - assert (0 < Z.of_nat (length (call_data c))) by (destruct (call_data c); [done|simpl; lia]).
    rewrite (proj2 (Z.eqb_neq _ 0)) by lia. rewrite (proj2 (Z.gtb_lt _ _)) by lia.
    cbn [negb]. by rewrite <- !app_assoc.
Qed.

(** The calls before the last one. *)
Lemma dec_calls (max n : Z) (ts : list trailer) (calls : list call) (l : bytes) :
  Forall call_ok calls → Forall (fun c => call_last c = false) calls →
  (max = 0 ∨ n + Z.of_nat (length (concat (map call_data calls))) <= max) →
  dec_run max (mk_d sw_chunk_start 0 n) (concat (map (encode ts) calls) ++ l)
  = emit (concat (map call_data calls))
      (dec_run max (mk_d sw_chunk_start 0 (n + Z.of_nat (length (concat (map call_data calls))))) l).
Proof.
  intros Hok Hlast. revert n. induction calls as [|c calls IH]; intros n Hmax.
  { simpl. rewrite Z.add_0_r. by destruct (dec_run _ _ l) as [[]|[]]. }
  apply Forall_cons in Hok as [Hc Hok]. apply Forall_cons in Hlast as [Hl Hlast].
  specialize (IH Hok Hlast). cbn [map concat] in *. rewrite encode_eq, Hl by done.
  rewrite length_app, Nat2Z.inj_add in *.
  destruct (decide (call_data c = [])) as [E|Hne].
  - rewrite E in *. cbn [app length]. simpl in Hmax. rewrite IH by lia. simpl.
    by replace (n + (0 + _)) with (n + Z.of_nat (length (concat (map call_data calls)))) by lia.
  - rewrite <- !app_assoc, dec_chunk, dec_crlf, IH, emit_emit.
    + by rewrite Z.add_assoc.
    + lia.
    + destruct Hc as [_ Hc]. split; [|done]. destruct (call_data c); [done|simpl; lia].
    + lia.
Qed.

(** A stream that ends with the byte that completes the body. *)
Lemma bufs_complete (max : Z) (rb : body) (bufs : list bytes) (m d : bytes) (c : Z) (s : dstate) :
  dec_ok (body_d rb) → Forall (.≠ []) bufs → concat bufs = m ++ [c] →
  dec_run max (body_d rb) m = inl (s, d) → dec_step max s c = inr v_done →
  ∃ rb', chunked_bufs max true rb bufs = Some (inl rb') ∧ grew rb rb' d
         ∧ last_buf rb' = true ∧ rest rb' = 0.
Proof.
  intros Hok Hb Hcat Hm Hc. apply chunked_bufs_done; try done.
  - rewrite Hcat, dec_run_app, Hm. cbn [dec_run]. rewrite Hc. by rewrite app_nil_r.
  - intros a b Hab Hne. rewrite Hcat in Hab.
    destruct (exists_last Hne) as (b' & x & ->). rewrite app_assoc in Hab.
    apply app_inj_tail in Hab as [-> _]. rewrite dec_run_app in Hm.
    destruct (dec_run max (body_d rb) a) as [[]|[]]; [by eexists _, _|done].
Qed.

(** C34. What the response filter encodes, in any number of calls with buffers in
    memory or in a file and with any trailers that have no CR or LF in them, the
    request filter decodes, however the bytes were cut into buffers on the way: the
    same data, the right length, and the end of the body recognised at the last
    byte. Allocations succeed, no call encodes more than 2^59 - 1 bytes, and the
    data are not longer than [client_max_body_size], unless this is 0. *)
Theorem chunked_roundtrip (max : Z) (ts : list trailer) (calls : list call) (c : call)
    (net : list bytes) :
  Forall call_ok calls → Forall (fun c => call_last c = false) calls →
  call_ok c → call_last c = true → Forall trailer_ok ts →
  let data := concat (map call_data calls) ++ call_data c in
  (max = 0 ∨ Z.of_nat (length data) <= max) →
  Forall (.≠ []) net → concat net = concat (map (encode ts) calls) ++ encode ts c →
  ∃ rb, ngx_http_request_body_chunked_filter max true body_init net = Some (inl rb)
  ∧ concat (out rb) = data ∧ content_length_n rb = Z.of_nat (length data)
  ∧ last_buf rb = true ∧ rest rb = 0.
Proof.
  intros Hok Hls Hc Hl Hts data Hmax Hnet Hcat. unfold ngx_http_request_body_chunked_filter.
  cbn [body_init rest Z.eqb Pos.eqb out last_buf].
  set (rb0 := mk_body _ 3 0 [] false). unfold data in *. rewrite length_app, Nat2Z.inj_add in Hmax.
  set (n := Z.of_nat (length (concat (map call_data calls)))) in *.
  set (m := concat (map (encode ts) calls)
     ++ (if decide (call_data c = []) then []
         else chunk_header (Z.of_nat (length (call_data c))) ++ call_data c ++ crlf) ++ last_chunk ts).
  destruct (bufs_complete max rb0 net m (concat (map call_data calls) ++ call_data c) 10
    (mk_d sw_trailer_almost_done 0 (n + Z.of_nat (length (call_data c)))))
    as (rb & Erb & [H1 H2] & H3); [| done | | | done |].
  - split; [split|]; cbn; [unfold NGX_MAX_OFF_T_VALUE; lia|done|unfold NGX_MAX_OFF_T_VALUE; lia].
  - rewrite Hcat, encode_eq, Hl by done. unfold m. rewrite <- !app_assoc. f_equal.
    destruct (decide (call_data c = [])); by rewrite <- ?app_assoc.
  - unfold m. change (body_d rb0) with (mk_d sw_chunk_start 0 0).
    rewrite dec_calls by (done || lia). rewrite Z.add_0_l. fold n.
    destruct (decide (call_data c = [])) as [E|Hne].
    + rewrite E. cbn [app length Z.of_nat]. rewrite Z.add_0_r, dec_last_chunk by done. done.
    + rewrite <- !app_assoc, dec_chunk, dec_crlf, dec_last_chunk by
        (done || lia || (destruct Hc as [_ Hc]; split; [destruct (call_data c); [done|simpl; lia]|done])).
      simpl. by rewrite app_nil_r.
  - exists rb. split; [done|]. split; [exact H1|]. split; [|exact H3]. exact H2.
Qed.

Lemma chunked_roundtrip_witness :
  ∃ rb, ngx_http_request_body_chunked_filter 16 true body_init
    [bs "5" ++ crlf ++ bs "he"; bs "llo" ++ crlf ++ bs "0"; crlf ++ [CR]; [LF]]
    = Some (inl rb)
  ∧ concat (out rb) = bs "hello" ∧ content_length_n rb = 5
  ∧ last_buf rb = true ∧ rest rb = 0.
Proof.
  apply (chunked_roundtrip 16 [] [(mk_ebuf (bs "hello") false false true false false, [])]
    (mk_ebuf [] false false false false true, [])); try done.
  - apply Forall_singleton. split; [by apply Forall_singleton|by vm_compute].
  - by apply Forall_singleton.
  - split; [apply Forall_singleton; by intros []|by vm_compute].
  - right. vm_compute. discriminate.
  - solve_forall done.
Defined.

(** ** Refinement *)

(** The body the loop starts with. *)
Definition entered (rb : body) : body :=
  if rest rb =? -1 then mk_body (mk_chunked sw_chunk_start 0 0) 3 0 (out rb) (last_buf rb) else rb.

(** C33. The filter, which works on whole buffers, skips the data of a chunk at once
    and keeps what it knows in [rb->chunked] between calls, gives what the decoder
    that reads byte by byte gives on the concatenation of the buffers: the same data
    appended to the output, the same state to go on with, 413 and 400 in the same
    cases, and the end of the body when the last byte completes it. *)
Theorem chunked_filter_refines (max : Z) (rb : body) (bufs : list bytes) :
  dec_ok (body_d (entered rb)) → Forall (.≠ []) bufs →
  let filter := ngx_http_request_body_chunked_filter max true rb bufs in
  let decode := dec_run max (body_d (entered rb)) in
  match decode (concat bufs) with
  | inl (s, d) => ∃ rb', filter = Some (inl rb') ∧ grew (entered rb) rb' d ∧ body_d rb' = s
  | inr (d, v_done) =>
      (∀ a b, concat bufs = a ++ b → b ≠ [] → ∃ s e, decode a = inl (s, e)) →
      ∃ rb', filter = Some (inl rb') ∧ grew (entered rb) rb' d ∧ last_buf rb' = true ∧ rest rb' = 0
  | inr (_, v_too_large) => filter = Some (inr NGX_HTTP_REQUEST_ENTITY_TOO_LARGE)
  | inr (_, v_invalid) => filter = Some (inr NGX_HTTP_BAD_REQUEST)
  end.
Proof.
  intros Hok Hb filter decode.
  assert (E : filter = chunked_bufs max true (entered rb) bufs).
  { unfold filter, ngx_http_request_body_chunked_filter, entered. by destruct (rest rb =? -1). }
  rewrite E. pose proof (chunked_bufs_refines max (entered rb) bufs Hok Hb) as H. fold decode in H.
  destruct (decode (concat bufs)) as [[s d]|[d []]] eqn:Ed; try exact H.
  intros Hpre. exact (chunked_bufs_done max (entered rb) bufs d Hok Hb Ed Hpre).
Qed.

Lemma chunked_filter_refines_witness :
  ngx_http_request_body_chunked_filter 8 true body_init [bs "5;x" ++ crlf ++ bs "hel"; bs "lo" ++ crlf ++ bs "g"]
    = Some (inr NGX_HTTP_BAD_REQUEST)
  ∧ ∃ rb', ngx_http_request_body_chunked_filter 8 true body_init [bs "5;x" ++ crlf ++ bs "hel"; bs "lo"]
    = Some (inl rb') ∧ grew body_init rb' (bs "hello").
Proof.
  assert (Hok : dec_ok (body_d (entered body_init)))
    by (split; [split|]; cbn; [unfold NGX_MAX_OFF_T_VALUE; lia|done|unfold NGX_MAX_OFF_T_VALUE; lia]).
  split.
  - exact (chunked_filter_refines 8 body_init [bs "5;x" ++ crlf ++ bs "hel"; bs "lo" ++ crlf ++ bs "g"] Hok
      ltac:(solve_forall done)).
  - destruct (chunked_filter_refines 8 body_init [bs "5;x" ++ crlf ++ bs "hel"; bs "lo"] Hok
      ltac:(solve_forall done)) as (rb' & H1 & H2 & _).
    by exists rb'.
Defined.

(** ** Bounds *)

(** The numbers the parser keeps are within [off_t], whatever a client sends:
    the size of a chunk never overflows, and [ctx->length], computed from it without
    a check, does not either. *)
Theorem chunked_bounds (ctx : ngx_http_chunked_t) (buf : bytes) :
  size_ok (enter (c_state ctx) (c_size ctx)) (c_size ctx) → c_size ctx <= NGX_MAX_OFF_T_VALUE - 5 →
  match ngx_http_parse_chunked ctx buf with
  | c_again ctx' =>
      size_ok (c_state ctx') (c_size ctx') ∧ 0 < c_length ctx' <= NGX_MAX_OFF_T_VALUE
  | c_ok ctx' pos =>
      c_state ctx' = sw_chunk_data ∧ 0 < c_size ctx' ∧ 0 < c_length ctx' <= NGX_MAX_OFF_T_VALUE
      ∧ (pos < length buf)%nat
  | c_done ctx' pos => c_state ctx' = sw_chunk_start
  | c_error => True
  end.
Proof.
  intros Hs Hle. unfold ngx_http_parse_chunked.
  pose proof (mrun_dec 0 buf (enter (c_state ctx) (c_size ctx)) (c_size ctx) 0 0 (conj Hs Hle)) as H.
  destruct (mrun step _ 0 buf) as [[st size]|[[size|size|] q]]; try done.
  - destruct (size >? _) eqn:E; [done|]. destruct H as [_ [[H1 H2] H3]]. cbn in *.
    split; [by split|]. unfold NGX_MAX_OFF_T_VALUE in *. destruct st; simpl; split_ifs; lia.
  - destruct H as (d & l & -> & Hl & -> & _ & [[H1 H2] H3]). cbn in *. specialize (H2 eq_refl).
    destruct (size >? _) eqn:E; [done|]. cbn. unfold NGX_MAX_OFF_T_VALUE in *.
    rewrite length_app. assert (length l ≠ 0%nat) by (by destruct l). split_and!; (done || lia).
Qed.

Lemma chunked_bounds_witness :
  ngx_http_parse_chunked (mk_chunked sw_chunk_start 0 0) (bs "7ffffffffffffff" ++ [LF] ++ bs "x")
  = c_ok (mk_chunked sw_chunk_data 576460752303423487 576460752303423491) 16
  ∧ 0 < 576460752303423491 <= NGX_MAX_OFF_T_VALUE.
Proof.
  split; [reflexivity|].
  destruct (chunked_bounds (mk_chunked sw_chunk_start 0 0) (bs "7ffffffffffffff" ++ [LF] ++ bs "x"))
    as (_ & _ & H & _).
  - split; [vm_compute; split; discriminate|done].
  - vm_compute. discriminate.
  - exact H.
Defined.

End Chunked.
