(* ===== verification/HttpRange.v ===== *)
(** * Byte ranges

    src/nginx-master/src/http/modules/ngx_http_range_filter_module.c: the parser of the
    Range header, the headers of a response with one part or several, and the body
    filter that cuts the parts out of the response.

    The value of a header ends with a NUL byte; a pointer into it is the list of the
    bytes from it on, with the NUL, and reading past the NUL is [None].  A buffer is
    its content, in memory or in a file, with the flags the filter looks at.  Which
    allocations succeed is an argument, and the number of the boundary. *)

From S2P Require Import Prelude NgxNumber NgxCompare NgxTime.

Open Scope Z_scope.

Module Range.

Definition NGX_HTTP_OK : Z := 200.
Definition NGX_HTTP_PARTIAL_CONTENT : Z := 206.
Definition NGX_HTTP_RANGE_NOT_SATISFIABLE : Z := 416.
Definition NGX_HTTP_VERSION_10 : Z := 1000.

(** ** The Range header *)

(** [ngx_http_range_t]: the bounds; [content_range] is filled in later. *)
Record range := mk_range { start : Z; end_ : Z }.

Definition is_num (c : Z) : bool := (c >=? "0"%ch) && (c <=? "9"%ch).

Fixpoint skip_spaces (p : bytes) : option bytes :=
  match p with
  | [] => None
  | c :: p' => if c =? " "%ch then skip_spaces p' else Some p
  end.

(** The loop over the digits; [Some None] is the return on overflow. *)
Fixpoint read_num (value : Z) (p : bytes) : option (option (Z * bytes)) :=
  match p with
  | [] => None
  | c :: p' =>
      if is_num c then
        if (value >=? NGX_MAX_OFF_T_VALUE / 10)
           && ((value >? NGX_MAX_OFF_T_VALUE / 10) || (c - "0"%ch >? NGX_MAX_OFF_T_VALUE mod 10))
        then Some None
        else read_num (value * 10 + (c - "0"%ch)) p'
      else Some (Some (value, p))
  end.

(** The second part of a range, after the dash; [start] and [suffix] as read so far.
    [Some None] is the return of [NGX_HTTP_RANGE_NOT_SATISFIABLE]. *)
Definition read_end (content_length start : Z) (suffix : bool) (p : bytes)
    : option (option (Z * Z * bytes)) :=
  c ← head p;
  if negb (is_num c) then Some None
  else
    n ← read_num 0 p;
    match n with
    | None => Some None
    | Some (end_, p) =>
        p ← skip_spaces p;
        c ← head p;
        if negb (c =? ","%ch) && negb (c =? NUL) then Some None
        else
          let '(start, end_) :=
            if suffix
            then ((if end_ <? content_length then content_length - end_ else 0), content_length - 1)
            else (start, end_) in
          let end_ := if end_ >=? content_length then content_length else end_ + 1 in
          Some (Some (start, end_, p))
    end.

(** One range: its bounds and the rest, at a comma or at the NUL. *)
Definition read_range (content_length : Z) (p : bytes) : option (option (Z * Z * bytes)) :=
  p ← skip_spaces p;
  c ← head p;
  if negb (c =? "-"%ch) then
    if negb (is_num c) then Some None
    else
      n ← read_num 0 p;
      match n with
      | None => Some None
      | Some (start, p) =>
          p ← skip_spaces p;
          c ← head p;
          if negb (c =? "-"%ch) then Some None
          else
            p ← skip_spaces (tail p);
            c ← head p;
            if (c =? ","%ch) || (c =? NUL) then Some (Some (start, content_length, p))
            else read_end content_length start false p
      end
  else read_end content_length 0 true (tail p).

(** The loop; [push k] tells whether the array has room for its [k]-th element. *)
Fixpoint range_loop (fuel : nat) (push : nat → bool) (content_length : Z) (ranges : nat) (size : Z)
    (acc : list range) (p : bytes) : option (Z * list range) :=
  match fuel with
  | O => None
  | S fuel =>
      x ← read_range content_length p;
      match x with
      | None => Some (NGX_HTTP_RANGE_NOT_SATISFIABLE, acc)
      | Some (start, end_, p) =>
          let next ranges size acc :=
            c ← head p;
            if negb (c =? ","%ch) then
              if (length acc =? 0)%nat then Some (NGX_HTTP_RANGE_NOT_SATISFIABLE, acc)
              else if size >? content_length then Some (NGX_DECLINED, acc)
              else Some (NGX_OK, acc)
            else range_loop fuel push content_length ranges size acc (tail p) in
          if start <? end_ then
            if negb (push (length acc)) then Some (NGX_ERROR, acc)
            else
              let acc := acc ++ [mk_range start end_] in
              if size >? NGX_MAX_OFF_T_VALUE - (end_ - start)
              then Some (NGX_HTTP_RANGE_NOT_SATISFIABLE, acc)
              else
                match ranges with
                | O => Some (NGX_DECLINED, acc)
                | S ranges => next ranges (size + (end_ - start)) acc
                end
          else if start =? 0 then Some (NGX_DECLINED, acc)
          else next ranges size acc
      end
  end.

(** [main_ranges]: for a subrequest, the ranges that the main request has parsed. *)
Definition ngx_http_range_parse (main_ranges : option (list range)) (init : bool) (push : nat → bool)
    (content_length : Z) (value : bytes) (ranges : nat) : option (Z * list range) :=
  match main_ranges with
  | Some rs => Some (NGX_OK, rs)
  | None =>
      if negb init then Some (NGX_ERROR, [])
      else range_loop (S (length value)) push content_length ranges 0 [] (drop 6 (value ++ [NUL]))
  end.

(** ** Headers *)

(** The fields of [r->headers_out] that the filter reads and writes. *)
Record headers_out := mk_headers {
  status : Z;
  content_length_n : Z;
  content_offset : Z;
  content_type : bytes;
  content_type_len : nat;
  charset : bytes;
  content_range : option bytes;
  accept_ranges : bool
}.

(** [ngx_http_range_filter_ctx_t]; the second components of the parts are their
    [content_range] lines, empty when there is one part only. *)
Record ctx := mk_ctx { offset : Z; boundary_header : bytes; parts : list (range * bytes) }.

(** What the header filter does: it returns, or calls the next filter, and then the
    body filter has a context or has none. *)
Inductive outcome :=
  | returned (rc : Z) (h : headers_out)
  | passed (h : headers_out) (x : option ctx).

Definition set_accept (h : headers_out) : headers_out :=
  mk_headers (status h) (content_length_n h) (content_offset h) (content_type h) (content_type_len h)
    (charset h) (content_range h) true.

(** [%O] *)
Definition sprintf_O (n : Z) : bytes :=
  if n <? 0 then "-"%ch :: ngx_sprintf_num NGX_MAX_INT_T_VALUE (- n) " "%ch 0 0
  else ngx_sprintf_num NGX_MAX_INT_T_VALUE n " "%ch 0 0.

Definition NGX_ATOMIC_T_LEN : Z := 20.

(** [%0muA] *)
Definition sprintf_boundary (n : Z) : bytes :=
  ngx_sprintf_num NGX_MAX_INT_T_VALUE n "0"%ch 0 NGX_ATOMIC_T_LEN.

(** [main]: the request is no subrequest; [alloc]: the header and its value are
    allocated. *)
Definition ngx_http_range_singlepart_header (main alloc : bool) (h : headers_out) (x : ctx) (r : range)
    : outcome :=
  if negb main then passed h (Some x)
  else if negb alloc then returned NGX_ERROR h
  else
    let value := bs "bytes " ++ sprintf_O (start r) ++ bs "-" ++ sprintf_O (end_ r - 1) ++ bs "/"
                 ++ sprintf_O (content_length_n h) in
    passed (mk_headers (status h) (end_ r - start r) (start r) (content_type h) (content_type_len h)
              (charset h) (Some value) (accept_ranges h)) (Some x).

(** [CRLF "--" boundary CRLF "Content-Type: ..." CRLF "Content-Range: bytes "] *)
Definition make_boundary_header (boundary : Z) (h : headers_out) : bytes :=
  crlf ++ bs "--" ++ sprintf_boundary boundary ++ crlf
  ++ (if (content_type_len h =? length (content_type h))%nat && negb (length (charset h) =? 0)%nat
      then bs "Content-Type: " ++ content_type h ++ bs "; charset=" ++ charset h ++ crlf
      else if negb (length (content_type h) =? 0)%nat
      then bs "Content-Type: " ++ content_type h ++ crlf
      else [])
  ++ bs "Content-Range: bytes ".

(** ["SSSS-EEEE/TTTT" CRLF CRLF] *)
Definition part_header (total : Z) (r : range) : bytes :=
  sprintf_O (start r) ++ bs "-" ++ sprintf_O (end_ r - 1) ++ bs "/" ++ sprintf_O total ++ crlf ++ crlf.

(** The loop that adds up [len]. *)
Fixpoint parts_len (boundary_len : nat) (total len : Z) (rs : list range) : Z :=
  match rs with
  | [] => len
  | r :: rs =>
      parts_len boundary_len total
        (len + (Z.of_nat boundary_len + Z.of_nat (length (part_header total r)) + (end_ r - start r))) rs
  end.

Definition ngx_http_range_multipart_header (alloc : bool) (boundary : Z) (h : headers_out) (x : ctx)
    (rs : list range) : outcome :=
  if negb alloc then returned NGX_ERROR h
  else
    let bh := make_boundary_header boundary h in
    let ct := bs "multipart/byteranges; boundary=" ++ sprintf_boundary boundary in
    let len := parts_len (length bh) (content_length_n h) (2 + 2 + NGX_ATOMIC_T_LEN + 2 + 2) rs in
    passed (mk_headers (status h) len (content_offset h) ct (length ct) [] (content_range h) (accept_ranges h))
      (Some (mk_ctx (offset x) bh (map (fun r => (r, part_header (content_length_n h) r)) rs))).

Definition ngx_http_range_not_satisfiable (alloc : bool) (h : headers_out) : outcome :=
  let set_range rg n :=
    mk_headers NGX_HTTP_RANGE_NOT_SATISFIABLE n (content_offset h) (content_type h) (content_type_len h)
      (charset h) rg (accept_ranges h) in
  if negb alloc then returned NGX_ERROR (set_range (content_range h) (content_length_n h))
  else
    returned NGX_HTTP_RANGE_NOT_SATISFIABLE
      (set_range (Some (bs "bytes */" ++ sprintf_O (content_length_n h))) (-1)).

(** What the header filter reads of the request, besides [r->headers_out]. *)
Record request := mk_request {
  http_version : Z;
  is_main : bool;
  subrequest_ranges : bool;
  allow_ranges : bool;
  single_range : bool;
  max_ranges : nat;
  in_range : option bytes;
  in_if_range : option bytes;
  out_etag : option bytes;
  last_modified_time : Z;
  main_ranges : option (list range)
}.

(** Which allocations succeed: the context, the array of ranges and its elements, the
    headers; and the number that [ngx_next_temp_number] returns. *)
Record resources := mk_resources {
  a_ctx : bool;
  a_init : bool;
  a_push : nat → bool;
  a_header : bool;
  a_accept : bool;
  boundary_number : Z
}.

(** The test of If-Range: an entity tag is compared byte by byte, anything else is a
    date.  [None]: a byte outside of a value is read. *)
Definition if_range_matches (q : request) : option bool :=
  match in_if_range q with
  | None => Some true
  | Some v =>
      if (2 <=? length v)%nat && bool_decide (last v = Some 34) then
        match out_etag q with
        | None => Some false
        | Some etag => Some (bytes_eqb v etag)
        end
      else if last_modified_time q =? -1 then Some false
      else t ← HttpTime.ngx_parse_http_time v; Some (t =? last_modified_time q)
  end.

(** [next_filter] *)
Definition next_filter (e : resources) (h : headers_out) : outcome :=
  if negb (a_accept e) then returned NGX_ERROR h else passed (set_accept h) None.

Definition set_partial (h : headers_out) : headers_out :=
  mk_headers NGX_HTTP_PARTIAL_CONTENT (content_length_n h) (content_offset h) (content_type h)
    (content_type_len h) (charset h) (content_range h) (accept_ranges h).

Definition parse_ranges (e : resources) (q : request) (h : headers_out) (value : bytes) : option outcome :=
  if negb (a_ctx e) then Some (returned NGX_ERROR h)
  else
    let ranges := if single_range q then 1%nat else max_ranges q in
    '(rc, rs) ← ngx_http_range_parse (if is_main q then None else main_ranges q) (a_init e) (a_push e)
                  (content_length_n h) value ranges;
    if rc =? NGX_OK then
      let x := mk_ctx (content_offset h) [] (map (fun r => (r, [])) rs) in
      Some match rs with
           | [r] => ngx_http_range_singlepart_header (is_main q) (a_header e) (set_partial h) x r
           | _ => ngx_http_range_multipart_header (a_header e) (boundary_number e) (set_partial h) x rs
           end
    else if rc =? NGX_HTTP_RANGE_NOT_SATISFIABLE then Some (ngx_http_range_not_satisfiable (a_header e) h)
    else if rc =? NGX_ERROR then Some (returned NGX_ERROR h)
    else Some (next_filter e h).

Definition ngx_http_range_header_filter (e : resources) (q : request) (h : headers_out) : option outcome :=
  if (http_version q <? NGX_HTTP_VERSION_10) || negb (status h =? NGX_HTTP_OK)
     || (negb (is_main q) && negb (subrequest_ranges q)) || (content_length_n h =? -1) || negb (allow_ranges q)
  then Some (passed h None)
  else if (max_ranges q =? 0)%nat then Some (passed h None)
  else
    match in_range q with
    | None => Some (next_filter e h)
    | Some value =>
        if (length value <? 7)%nat then Some (next_filter e h)
        else
          d ← ngx_strncasecmp (value ++ [NUL]) (bs "bytes=") 6;
          if negb (d =? 0) then Some (next_filter e h)
          else
            ok ← if_range_matches q;
            if negb ok then Some (next_filter e h) else parse_ranges e q h value
    end.

(** ** The body *)

(** A buffer: its content, [ngx_buf_special], [last_buf], [last_in_chain], [sync]. *)
Record buf := mk_buf { data : bytes; special : bool; last_buf : bool; last_in_chain : bool; sync : bool }.

(** The loop of [ngx_http_range_singlepart_body]: the new [ctx->offset] and the chain
    [out].  A buffer outside of the range is emptied and left out; at the end of the
    range the chain is cut. *)
Fixpoint singlepart_loop (main : bool) (r : range) (offset : Z) (bufs : list buf) : Z * list buf :=
  match bufs with
  | [] => (offset, [])
  | b :: bufs =>
      let start_ := offset in
      let last_ := offset + Z.of_nat (length (data b)) in
      if special b then
        let '(o, out) := singlepart_loop main r last_ bufs in (o, b :: out)
      else if (end_ r <=? start_) || (start r >=? last_) then singlepart_loop main r last_ bufs
      else
        let d := if start r >? start_ then drop (Z.to_nat (start r - start_)) (data b) else data b in
        if end_ r <=? last_ then
          (last_, [mk_buf (take (length d - Z.to_nat (last_ - end_ r)) d) (special b) main true (sync b)])
        else
          let '(o, out) := singlepart_loop main r last_ bufs in
          (o, mk_buf d (special b) (last_buf b) (last_in_chain b) (sync b) :: out)
  end.

(** Whether a buffer holds all of the parts; the new [ctx->offset]. *)
Definition ngx_http_range_test_overlapped (x : ctx) (b : buf) : option Z :=
  if negb (offset x =? 0) then None
  else
    let size := Z.of_nat (length (data b)) in
    if negb (last_buf b)
       && existsb (fun '(r, _) => (offset x >? start r) || (offset x + size <? end_ r)) (parts x)
    then None
    else Some size.

(** The three buffers of every part; [None]: the part is not inside of the buffer. *)
Fixpoint multipart_parts (boundary_header body : bytes) (ps : list (range * bytes)) : option (list buf) :=
  match ps with
  | [] => Some []
  | (r, line) :: ps =>
      rest ← multipart_parts boundary_header body ps;
      if (0 <=? start r) && (start r <=? end_ r) && (end_ r <=? Z.of_nat (length body)) then
        Some (mk_buf boundary_header false false false false
              :: mk_buf line false false false false
              :: mk_buf (sub body (Z.to_nat (start r)) (Z.to_nat (end_ r - start r))) false false false false
              :: rest)
      else None
  end.

Definition ngx_http_range_multipart_body (x : ctx) (b : buf) : option (list buf) :=
  out ← multipart_parts (boundary_header x) (data b) (parts x);
  Some (out ++ [mk_buf (take (2 + 2 + Z.to_nat NGX_ATOMIC_T_LEN) (boundary_header x) ++ bs "--" ++ crlf)
                  false true false false]).

(** The new context, the return code, and the chain passed to the next body filter if
    it is called; [alloc]: the buffers and links are allocated.  [None]: memory outside
    of a buffer would be sent. *)
Definition ngx_http_range_body_filter (alloc main : bool) (x : option ctx) (in_ : list buf)
    : option (option ctx * Z * option (list buf)) :=
  match in_, x with
  | [], _ | _, None => Some (x, NGX_OK, Some in_)
  | b :: _, Some c =>
      match parts c with
      | [(r, _)] =>
          let '(o, out) := singlepart_loop main r (offset c) in_ in
          let c := mk_ctx o (boundary_header c) (parts c) in
          match out with [] => Some (Some c, NGX_OK, None) | _ => Some (Some c, NGX_OK, Some out) end
      | _ =>
          if special b then Some (x, NGX_OK, Some in_)
          else
            match ngx_http_range_test_overlapped c b with
            | None => Some (x, NGX_ERROR, None)
            | Some o =>
                let c := mk_ctx o (boundary_header c) (parts c) in
                if negb alloc then Some (Some c, NGX_ERROR, None)
                else out ← ngx_http_range_multipart_body c b; Some (Some c, NGX_OK, Some out)
            end
      end
  end.

(** * Theorems *)

(** ** The parser stays in the value *)

(** A pointer into the value: its last byte is the NUL. *)
Definition live (p : bytes) : Prop := last p = Some NUL.

Lemma live_cons (c : Z) (p : bytes) : live (c :: p) → c ≠ NUL → live p.
Proof. unfold live. destruct p as [|d p]; [cbn; congruence|done]. Qed.

Lemma live_head (p : bytes) : live p → ∃ c q, p = c :: q ∧ head p = Some c.
Proof. destruct p as [|c q]; [done|by eexists _, _]. Qed.

Lemma skip_spaces_live (p : bytes) :
  live p → ∃ q, skip_spaces p = Some q ∧ live q ∧ (length q <= length p)%nat.
Proof.
  induction p as [|c p IH]; intros Hp; [done|]. cbn [skip_spaces].
  destruct (Z.eqb_spec c 32) as [->|]; [|by exists (c :: p)].
  destruct IH as (q & -> & ? & ?); [by eapply live_cons|]. exists q. cbn [length]. split_and!; (done || lia).
Qed.

Lemma read_num_live (value : Z) (p : bytes) :
  live p → 0 <= value <= NGX_MAX_OFF_T_VALUE →
  read_num value p = Some None
  ∨ ∃ v q, read_num value p = Some (Some (v, q)) ∧ live q ∧ (length q <= length p)%nat
           ∧ 0 <= v <= NGX_MAX_OFF_T_VALUE.
Proof.
  revert value. induction p as [|c p IH]; intros value Hp Hv; [done|]. cbn [read_num].
  destruct (is_num c) eqn:Hc; [|right; by exists value, (c :: p)].
  unfold is_num in Hc. apply andb_true_iff in Hc as [H1 H2]. apply Z.geb_le in H1. apply Z.leb_le in H2.
  pose proof (cutoff_guard NGX_MAX_OFF_T_VALUE value (c - 48) ltac:(lia) ltac:(lia) ltac:(done)) as Hg.
  destruct (_ && _); [by left|]. destruct Hg as [Hg _]. specialize (Hg eq_refl).
  destruct (IH (value * 10 + (c - 48))) as [->|(v & q & -> & ? & ? & ?)];
    [eapply live_cons; [done|lia]|lia|by left|right].
  exists v, q. cbn [length]. split_and!; (done || lia).
Qed.

(** What reading a part of the header gives: a refusal, or bounds and the rest. *)
Definition part_ok (cl : Z) (p : bytes) (x : option (option (Z * Z * bytes))) : Prop :=
  x = Some None
  ∨ ∃ s e q, x = Some (Some (s, e, q)) ∧ live q ∧ (length q <= length p)%nat ∧ 0 <= s ∧ e <= cl.

Lemma part_ok_le (cl : Z) (p q : bytes) x : part_ok cl q x → (length q <= length p)%nat → part_ok cl p x.
Proof.
  intros [->|(s & e & r & -> & ? & ? & ? & ?)] Hle; [by left|right]. exists s, e, r. split_and!; (done || lia).
Qed.

Lemma read_end_live (cl s : Z) (suffix : bool) (p : bytes) :
  live p → 0 <= cl → 0 <= s → part_ok cl p (read_end cl s suffix p).
Proof.
  intros Hp Hcl Hs. destruct (live_head p Hp) as (c & p' & E & Hh). unfold read_end. rewrite Hh.
  cbn [mbind option_bind]. destruct (is_num c); [|by left]. cbn [negb].
  destruct (read_num_live 0 p Hp) as [->|(v & q & -> & Hq & Hlq & Hv)]; [done|by left|]. cbn [mbind option_bind].
  destruct (skip_spaces_live q Hq) as (r & -> & Hr & Hlr). cbn [mbind option_bind].
  destruct (live_head r Hr) as (d & r' & Er & Hh'). rewrite Hh'. cbn [mbind option_bind].
  destruct (negb (d =? 44) && _); [by left|right].
  destruct suffix; [destruct (Z.ltb_spec v cl)|]; (eexists _, _, _; split; [reflexivity|]);
    split_and!; try done; try lia;
    match goal with |- context [?a >=? ?b] => destruct (Z.geb_spec a b) end; lia.
Qed.

Lemma read_range_live (cl : Z) (p : bytes) : live p → 0 <= cl → part_ok cl p (read_range cl p).
Proof.
  intros Hp Hcl. unfold read_range. destruct (skip_spaces_live p Hp) as (q & -> & Hq & Hlq).
  cbn [mbind option_bind]. destruct (live_head q Hq) as (c & q' & E & Hh). rewrite Hh. cbn [mbind option_bind].
  destruct (Z.eqb_spec c 45) as [->|Hc]; cbn [negb].
  { subst q. cbn [tail]. eapply part_ok_le; [apply read_end_live; [by eapply live_cons|done..]|].
    cbn [length] in Hlq. lia. }
  destruct (is_num c); [|by left]. cbn [negb].
  destruct (read_num_live 0 q Hq) as [->|(v & r & -> & Hr & Hlr & Hv)]; [done|by left|]. cbn [mbind option_bind].
  destruct (skip_spaces_live r Hr) as (u & -> & Hu & Hlu). cbn [mbind option_bind].
  destruct (live_head u Hu) as (d & u' & Eu & _). rewrite Eu. cbn [head tail mbind option_bind].
  destruct (Z.eqb_spec d 45) as [->|Hd]; cbn [negb]; [|by left]. rewrite Eu in Hu, Hlu. cbn [length] in Hlu.
  destruct (skip_spaces_live u') as (w & -> & Hw & Hlw); [by eapply live_cons|]. cbn [mbind option_bind].
  destruct (live_head w Hw) as (g & w' & Ew & Hh'). rewrite Hh'. cbn [mbind option_bind].
  destruct ((g =? 44) || (g =? 0)).
  - right. eexists _, _, _. split; [reflexivity|]. split_and!; (done || lia).
  - eapply part_ok_le; [apply read_end_live; [done..|lia]|lia].
Qed.

(** ** Every range that is accepted lies in the response *)

Definition range_ok (cl : Z) (r : range) : Prop := 0 <= start r ∧ start r < end_ r ∧ end_ r <= cl.

Definition size_of (rs : list range) : Z := foldr (fun r acc => end_ r - start r + acc) 0 rs.

Lemma size_of_cons (r : range) (rs : list range) : size_of (r :: rs) = end_ r - start r + size_of rs.
Proof. done. Qed.

Lemma size_of_snoc (rs : list range) (r : range) : size_of (rs ++ [r]) = size_of rs + (end_ r - start r).
Proof. induction rs as [|x rs IH]; [cbn; lia|]. rewrite <- app_comm_cons, !size_of_cons, IH. lia. Qed.

Lemma range_loop_returns (fuel : nat) (push : nat → bool) (cl : Z) (ranges : nat) (acc : list range) (p : bytes) :
  live p → (length p <= fuel)%nat → 0 <= cl <= NGX_MAX_OFF_T_VALUE →
  Forall (range_ok cl) acc → 0 <= size_of acc <= NGX_MAX_OFF_T_VALUE →
  ∃ rc rs, range_loop fuel push cl ranges (size_of acc) acc p = Some (rc, rs)
  ∧ (rc = NGX_HTTP_RANGE_NOT_SATISFIABLE ∨ rc = NGX_DECLINED
     ∨ rc = NGX_ERROR ∧ (∃ k, push k = false)
     ∨ rc = NGX_OK ∧ rs ≠ [] ∧ Forall (range_ok cl) rs ∧ size_of rs <= cl
       ∧ (length rs <= length acc + ranges)%nat).
Proof.
  intros Hp Hf Hcl. revert ranges acc p Hp Hf. induction fuel as [|fuel IH]; intros ranges acc p Hp Hf Hacc Hsize.
  { destruct (live_head p Hp) as (? & ? & -> & _). cbn in Hf. lia. }
  cbn [range_loop]. destruct (read_range_live cl p Hp) as [->|(s & e & q & -> & Hq & Hlq & Hs & He)]; [lia| |].
  { eexists _, _. split; [reflexivity|by left]. }
  cbn [mbind option_bind]. destruct (live_head q Hq) as (c & q' & E & _). rewrite E. cbn [head tail mbind option_bind].
  assert (Hnext : ∀ ranges' acc', Forall (range_ok cl) acc' → 0 <= size_of acc' <= NGX_MAX_OFF_T_VALUE →
    (length acc' + ranges' <= length acc + ranges)%nat →
    ∃ rc rs,
      (if negb (c =? 44) then
         if (length acc' =? 0)%nat then Some (NGX_HTTP_RANGE_NOT_SATISFIABLE, acc')
         else if size_of acc' >? cl then Some (NGX_DECLINED, acc') else Some (NGX_OK, acc')
       else range_loop fuel push cl ranges' (size_of acc') acc' q') = Some (rc, rs)
      ∧ (rc = NGX_HTTP_RANGE_NOT_SATISFIABLE ∨ rc = NGX_DECLINED ∨ rc = NGX_ERROR ∧ (∃ k, push k = false)
         ∨ rc = NGX_OK ∧ rs ≠ [] ∧ Forall (range_ok cl) rs ∧ size_of rs <= cl
           ∧ (length rs <= length acc + ranges)%nat)).
  { intros ranges' acc' Hacc' Hsize' Hle. destruct (Z.eqb_spec c 44) as [->|Hc]; cbn [negb].
    - rewrite E in Hq, Hlq. cbn [length] in Hlq.
      destruct (IH ranges' acc' q') as (rc & rs & -> & H); [by eapply live_cons|lia|done..|].
      exists rc, rs. split; [done|]. destruct H as [?|[?|[?|(? & ? & ? & ? & ?)]]]; auto.
      do 3 right. split_and!; (done || lia).
    - destruct (Nat.eqb_spec (length acc') 0) as [|Hne]; [eexists _, _; split; [reflexivity|by left]|].
      destruct (Z.gtb_spec (size_of acc') cl); eexists _, _; (split; [reflexivity|]); [auto|].
      do 3 right. split_and!; try done; [by destruct acc'|lia]. }
  destruct (Z.ltb_spec s e).
  - destruct (push (length acc)) eqn:Epush; cbn [negb].
    2: { eexists _, _. split; [reflexivity|]. do 2 right. left. split; [done|by exists (length acc)]. }
    destruct (Z.gtb_spec (size_of acc) (NGX_MAX_OFF_T_VALUE - (e - s))).
    { eexists _, _. split; [reflexivity|by left]. }
    destruct ranges as [|ranges]; [eexists _, _; split; [reflexivity|auto]|].
    specialize (Hnext ranges (acc ++ [mk_range s e])). rewrite size_of_snoc in Hnext. cbn [start end_] in Hnext.
    apply Hnext; [|lia|rewrite length_app; cbn; lia].
    apply Forall_app. split; [done|]. apply Forall_singleton. unfold range_ok. cbn. lia.
  - destruct (s =? 0); [eexists _, _; split; [reflexivity|auto]|]. by apply Hnext.
Qed.

Lemma live_value (value : bytes) : (6 <= length value)%nat → live (drop 6 (value ++ [NUL])).
Proof. intros H. rewrite drop_app_le by done. unfold live. by rewrite last_snoc. Qed.

(** ** What the header means *)

(** The forms of a range, with the digits as written. *)
Inductive byte_range := From (a : bytes) | FromTo (a b : bytes) | Suffix (n : bytes).

Definition number (ds : bytes) : Prop := ds ≠ [] ∧ Forall is_digit ds ∧ dec_value 0 ds <= NGX_MAX_OFF_T_VALUE.

Definition wellformed (s : byte_range) : Prop :=
  match s with From a => number a | FromTo a b => number a ∧ number b | Suffix n => number n end.

Definition render (s : byte_range) : bytes :=
  match s with
  | From a => a ++ ["-"%ch]
  | FromTo a b => a ++ "-"%ch :: b
  | Suffix n => "-"%ch :: n
  end.

(** The bytes of a response of length [cl] that a range selects, as in RFC 7233. *)
Definition selects (cl : Z) (s : byte_range) : range :=
  match s with
  | From a => mk_range (dec_value 0 a) cl
  | FromTo a b => mk_range (dec_value 0 a) (Z.min cl (dec_value 0 b + 1))
  | Suffix n => mk_range (Z.max 0 (cl - dec_value 0 n)) cl
  end.

Definition satisfiable (r : range) : Prop := start r < end_ r.

#[export] Instance satisfiable_dec (r : range) : Decision (satisfiable r).
Proof. unfold satisfiable. apply _. Defined.

(** A list of ranges, each with spaces before it. *)
Fixpoint render_all (ss : list (nat * byte_range)) : bytes :=
  match ss with
  | [] => []
  | [(k, s)] => replicate k " "%ch ++ render s
  | (k, s) :: ss => replicate k " "%ch ++ render s ++ ","%ch :: render_all ss
  end.

Lemma read_num_digits (value : Z) (ds : bytes) (c : Z) (r : bytes) :
  Forall is_digit ds → 0 <= value → dec_value value ds <= NGX_MAX_OFF_T_VALUE → is_num c = false →
  read_num value (ds ++ c :: r) = Some (Some (dec_value value ds, c :: r)).
Proof.
  intros Hd. revert value. induction Hd as [|d ds Hd Hds IH]; intros value Hv Hfit Hc.
  { cbn [app read_num]. by rewrite Hc. }
  cbn [app read_num]. rewrite dec_value_cons in *. unfold is_digit in Hd.
  assert (is_num d = true) as -> by (unfold is_num; lia).
  pose proof (dec_value_ge (value * 10 + (d - 48)) ds ltac:(lia) Hds).
  pose proof (cutoff_guard NGX_MAX_OFF_T_VALUE value (d - 48) ltac:(lia) ltac:(lia) ltac:(done)) as [_ Hg].
  rewrite Hg by lia. apply IH; (done || lia).
Qed.

Lemma skip_spaces_here (c : Z) (r : bytes) : c ≠ 32 → skip_spaces (c :: r) = Some (c :: r).
Proof. intros Hc. cbn [skip_spaces]. by destruct (Z.eqb_spec c 32). Qed.

Lemma skip_spaces_digits (k : nat) (c : Z) (r : bytes) :
  c ≠ 32 → skip_spaces (replicate k 32 ++ c :: r) = Some (c :: r).
Proof.
  intros Hc. induction k as [|k IH]; cbn [replicate app skip_spaces]; [|done].
  by destruct (Z.eqb_spec c 32).
Qed.

(** The byte after a range: a comma or the NUL. *)
Definition stop (c : Z) : Prop := c = 44 ∨ c = 0.

Lemma number_cons (ds : bytes) :
  number ds → ∃ d l, ds = d :: l ∧ is_num d = true ∧ d ≠ 32 ∧ d ≠ 45 ∧ d ≠ 44 ∧ d ≠ 0.
Proof.
  intros (Hne & Hd & _). destruct ds as [|d l]; [done|]. inversion Hd as [|? ? Hdd]; subst. exists d, l.
  unfold is_digit in Hdd. split; [done|]. split; [unfold is_num; lia|lia].
Qed.

Lemma stop_spec (c : Z) : stop c → is_num c = false ∧ c ≠ 32 ∧ (negb (c =? 44) && negb (c =? 0)) = false.
Proof. by intros [->| ->]. Qed.

Lemma read_end_number (cl s : Z) (suffix : bool) (b : bytes) (c : Z) (r : bytes) :
  number b → stop c →
  read_end cl s suffix (b ++ c :: r)
  = (let n := dec_value 0 b in
     let '(s, e) := if suffix then ((if n <? cl then cl - n else 0), cl - 1) else (s, n) in
     Some (Some (s, if e >=? cl then cl else e + 1, c :: r))).
Proof.
  intros Hb Hc. destruct (number_cons b Hb) as (d & l & E & Hnum & _). destruct (stop_spec c Hc) as (Hcn & Hc32 & Hst).
  destruct Hb as (_ & Hd & Hfit). unfold read_end. rewrite E at 1. cbn [app head mbind option_bind].
  rewrite Hnum. cbn [negb]. rewrite read_num_digits by (done || lia). cbn [mbind option_bind].
  rewrite skip_spaces_here by done. cbn [head mbind option_bind]. rewrite Hst. by destruct suffix.
Qed.

Lemma read_range_render (cl : Z) (k : nat) (s : byte_range) (c : Z) (r : bytes) :
  0 < cl → wellformed s → stop c →
  read_range cl (replicate k 32 ++ render s ++ c :: r)
  = Some (Some (start (selects cl s), end_ (selects cl s), c :: r)).
Proof.
  intros Hcl Hw Hc. destruct (stop_spec c Hc) as (Hcn & Hc32 & Hst). unfold read_range. destruct s as [a|a b|n]; cbn [render selects start end_].
  - destruct (number_cons a Hw) as (d & l & E & Hnum & H32 & H45 & _). destruct Hw as (_ & Hd & Hfit).
    rewrite <- (assoc_L (++)). cbn [app]. rewrite E at 1. cbn [app]. rewrite skip_spaces_digits by done.
    cbn [head mbind option_bind]. destruct (Z.eqb_spec d 45); [done|]. cbn [negb]. rewrite Hnum. cbn [negb].
    change (d :: l ++ 45 :: c :: r) with ((d :: l) ++ 45 :: c :: r). rewrite <- E.
    rewrite read_num_digits by (done || lia). cbn [mbind option_bind]. rewrite skip_spaces_here by done.
    cbn [head tail mbind option_bind Z.eqb Pos.eqb negb]. rewrite skip_spaces_here by done.
    cbn [head mbind option_bind]. assert (((c =? 44) || (c =? 0)) = true) as -> by (by destruct Hc as [->| ->]). done.
  - destruct Hw as [Ha Hb]. destruct (number_cons a Ha) as (d & l & E & Hnum & H32 & H45 & _). destruct Ha as (_ & Hd & Hfit).
    rewrite <- (assoc_L (++)). cbn [app]. rewrite E at 1. cbn [app]. rewrite skip_spaces_digits by done.
    cbn [head mbind option_bind]. destruct (Z.eqb_spec d 45); [done|]. cbn [negb]. rewrite Hnum. cbn [negb].
    change (d :: l ++ 45 :: b ++ c :: r) with ((d :: l) ++ 45 :: b ++ c :: r). rewrite <- E.
    rewrite read_num_digits by (done || lia). cbn [mbind option_bind]. rewrite skip_spaces_here by done.
    cbn [head tail mbind option_bind Z.eqb Pos.eqb negb].
    destruct (number_cons b Hb) as (d2 & l2 & E2 & Hnum2 & H322 & _ & H44 & H0). rewrite E2 at 1. cbn [app].
    rewrite skip_spaces_here by done. cbn [head mbind option_bind].
    destruct (Z.eqb_spec d2 44), (Z.eqb_spec d2 0); try done. cbn [orb].
    change (d2 :: l2 ++ c :: r) with ((d2 :: l2) ++ c :: r). rewrite <- E2.
    rewrite read_end_number by done. cbv zeta iota. do 3 f_equal.
    destruct (Z.geb_spec (dec_value 0 b) cl); f_equal; lia.
  - cbn [app]. rewrite skip_spaces_digits by done. cbn [head tail mbind option_bind Z.eqb Pos.eqb negb].
    rewrite read_end_number by done. cbv zeta iota. destruct Hw as (_ & Hd & _).
    pose proof (dec_value_ge 0 n ltac:(lia) Hd). destruct (Z.geb_spec (cl - 1) cl); [lia|].
    destruct (Z.ltb_spec (dec_value 0 n) cl); do 4 f_equal; lia.
Qed.

(** The result for the ranges that were selected. *)
Definition verdict (cl : Z) (rs : list range) : Z :=
  if (length rs =? 0)%nat then NGX_HTTP_RANGE_NOT_SATISFIABLE
  else if size_of rs >? cl then NGX_DECLINED else NGX_OK.

Lemma selects_start (cl : Z) (s : byte_range) :
  0 < cl → wellformed s → 0 <= start (selects cl s) ∧ (start (selects cl s) = 0 → satisfiable (selects cl s)).
Proof.
  unfold satisfiable. intros Hcl Hw. destruct s as [a|a b|n]; cbn [selects start end_] in *.
  - destruct Hw as (_ & Hd & _). pose proof (dec_value_ge 0 a ltac:(lia) Hd). lia.
  - destruct Hw as [(_ & Hd & _) (_ & Hd2 & _)]. pose proof (dec_value_ge 0 a ltac:(lia) Hd).
    pose proof (dec_value_ge 0 b ltac:(lia) Hd2). lia.
  - lia.
Qed.

Lemma size_of_nonneg (rs : list range) : Forall satisfiable rs → 0 <= size_of rs.
Proof. induction 1 as [|r rs Hr _ IH]; [done|]. rewrite size_of_cons. unfold satisfiable in Hr. lia. Qed.

Lemma size_of_app (a b : list range) : size_of (a ++ b) = size_of a + size_of b.
Proof. induction a as [|r a IH]; [done|]. rewrite <- app_comm_cons, !size_of_cons, IH. lia. Qed.

Definition selected (cl : Z) (ss : list (nat * byte_range)) : list range :=
  filter satisfiable (map (fun s => selects cl (snd s)) ss).

(** The text of a list: its first range, and a comma before the others or the NUL. *)
Lemma render_all_cons (k : nat) (s : byte_range) (ss : list (nat * byte_range)) :
  ∃ c r, stop c ∧ render_all ((k, s) :: ss) ++ [NUL] = replicate k 32 ++ render s ++ c :: r
  ∧ (c = 44 ∧ ss ≠ [] ∧ r = render_all ss ++ [NUL] ∨ c = 0 ∧ ss = []).
Proof.
  destruct ss as [|x ss].
  - exists 0, []. cbn [render_all]. rewrite <- (assoc_L (++)). split_and!; [by right|done|by right].
  - exists 44, (render_all (x :: ss) ++ [NUL]). change (render_all ((k, s) :: x :: ss))
      with (replicate k 32 ++ render s ++ 44 :: render_all (x :: ss)).
    rewrite <- !(assoc_L (++)). split_and!; [by left|done|by left].
Qed.

Lemma range_loop_render (fuel : nat) (cl : Z) (ranges : nat) (acc : list range) (ss : list (nat * byte_range)) :
  0 < cl → ss ≠ [] → Forall (fun s => wellformed (snd s)) ss →
  (length ss <= fuel)%nat → (length (selected cl ss) <= ranges)%nat →
  Forall satisfiable acc → size_of acc + size_of (selected cl ss) <= NGX_MAX_OFF_T_VALUE →
  range_loop fuel (fun _ => true) cl ranges (size_of acc) acc (render_all ss ++ [NUL])
  = Some (verdict cl (acc ++ selected cl ss), acc ++ selected cl ss).
Proof.
  intros Hcl. revert fuel ranges acc.
  induction ss as [|[k s] ss IH]; intros fuel ranges acc Hne Hw Hf Hlen Hacc Hsize; [done|clear Hne].
  apply Forall_cons in Hw as [Hs Hw]. cbn [snd] in Hs. cbn [length] in Hf. destruct fuel as [|fuel]; [lia|].
  destruct (render_all_cons k s ss) as (c & r & Hc & -> & Hcase).
  cbn [range_loop]. rewrite read_range_render by done. cbn [mbind option_bind head tail negb].
  destruct (selects_start cl s Hcl Hs) as [Hs0 Hss].
  assert (Hnext : ∀ ranges' acc', Forall satisfiable acc' → acc' ++ selected cl ss = acc ++ selected cl ((k, s) :: ss) →
    (length (selected cl ss) <= ranges')%nat →
    (if negb (c =? 44) then
       if (length acc' =? 0)%nat then Some (NGX_HTTP_RANGE_NOT_SATISFIABLE, acc')
       else if size_of acc' >? cl then Some (NGX_DECLINED, acc') else Some (NGX_OK, acc')
     else range_loop fuel (fun _ => true) cl ranges' (size_of acc') acc' r)
    = Some (verdict cl (acc ++ selected cl ((k, s) :: ss)), acc ++ selected cl ((k, s) :: ss))).
  { intros ranges' acc' Hacc' E Hle. rewrite <- E. destruct Hcase as [(-> & Hne & ->)|[-> ->]]; cbn [Z.eqb Pos.eqb negb].
    - apply IH; try done; [lia|]. rewrite <- size_of_app, E, size_of_app. done.
    - change (selected cl []) with (@nil range). rewrite app_nil_r. unfold verdict.
      destruct (Nat.eqb_spec (length acc') 0); [done|]. by destruct (Z.gtb_spec (size_of acc') cl). }
  assert (Hsel : selected cl ((k, s) :: ss) =
    if decide (satisfiable (selects cl s)) then selects cl s :: selected cl ss else selected cl ss).
  { unfold selected. cbn [map snd]. rewrite filter_cons. done. }
  assert (Hrest : 0 <= size_of (selected cl ss)) by (apply size_of_nonneg, Forall_forall; intros x Hx; by apply list_elem_of_filter in Hx as [? _]).
  rewrite Hsel in Hlen, Hsize. pose proof (size_of_nonneg acc Hacc).
  destruct (decide (satisfiable (selects cl s))) as [Hsat|Hsat]; unfold satisfiable in Hsat.
  - destruct (Z.ltb_spec (start (selects cl s)) (end_ (selects cl s))); [|lia].
    rewrite size_of_cons in Hsize. cbn [length] in Hlen.
    destruct (Z.gtb_spec (size_of acc) (NGX_MAX_OFF_T_VALUE - (end_ (selects cl s) - start (selects cl s)))); [lia|].
    destruct ranges as [|ranges]; [lia|].
    specialize (Hnext ranges (acc ++ [mk_range (start (selects cl s)) (end_ (selects cl s))])).
    rewrite size_of_snoc in Hnext. cbn [start end_] in Hnext. apply Hnext; [|rewrite Hsel|lia].
    + apply Forall_app. split; [done|]. by apply Forall_singleton.
    + rewrite <- (assoc_L (++)). cbn [app]. by destruct (selects cl s).
  - destruct (Z.ltb_spec (start (selects cl s)) (end_ (selects cl s))); [lia|].
    destruct (Z.eqb_spec (start (selects cl s)) 0) as [E0|_]; [by apply Hss in E0|].
    apply Hnext; [done|by rewrite Hsel|done].
Qed.

(** ** Cutting a part out of the body *)

(** What a range takes of the bytes [d] that begin at [o]. *)
Definition window (r : range) (o : Z) (d : bytes) : bytes :=
  take (Z.to_nat (end_ r - Z.max (start r) o)) (drop (Z.to_nat (start r - o)) d).

Definition content (bufs : list buf) : bytes := concat (map data bufs).

Definition buf_ok (b : buf) : Prop := special b = true → data b = [].

Lemma window_app (r : range) (o : Z) (a b : bytes) :
  window r o (a ++ b) = window r o a ++ window r (o + Z.of_nat (length a)) b.
Proof.
  unfold window. rewrite drop_app, take_app, length_drop. f_equal. f_equal; [|f_equal]; lia.
Qed.

Lemma window_past (r : range) (o : Z) (d : bytes) : end_ r <= o → window r o d = [].
Proof. intros H. unfold window. by replace (Z.to_nat (end_ r - Z.max (start r) o)) with 0%nat by lia. Qed.

Lemma window_before (r : range) (o : Z) (d : bytes) : o + Z.of_nat (length d) <= start r → window r o d = [].
Proof. intros H. unfold window. rewrite drop_ge by lia. by rewrite take_nil. Qed.

(** The buffer that is cut is the window of its content. *)
Lemma cut_window (r : range) (o : Z) (d : bytes) :
  start r < o + Z.of_nat (length d) → o < end_ r → start r < end_ r →
  let d' := if start r >? o then drop (Z.to_nat (start r - o)) d else d in
  window r o d = if end_ r <=? o + Z.of_nat (length d)
                 then take (length d' - Z.to_nat (o + Z.of_nat (length d) - end_ r)) d' else d'.
Proof.
  intros H1 H2 H3. cbv zeta. unfold window.
  assert (E : (if start r >? o then drop (Z.to_nat (start r - o)) d else d) = drop (Z.to_nat (start r - o)) d).
  { destruct (Z.gtb_spec (start r) o); [done|]. by replace (Z.to_nat (start r - o)) with 0%nat by lia. }
  rewrite E. destruct (Z.leb_spec (end_ r) (o + Z.of_nat (length d))).
  - f_equal. rewrite length_drop. lia.
  - apply take_ge. rewrite length_drop. lia.
Qed.

Lemma content_cons (b : buf) (bufs : list buf) : content (b :: bufs) = data b ++ content bufs.
Proof. done. Qed.

(** One call: what is passed on is the window of what came in, and the offset has
    moved past it, or past the end of the range. *)
Lemma singlepart_window (main : bool) (r : range) (o : Z) (bufs : list buf) :
  start r < end_ r → Forall buf_ok bufs →
  let '(o', out) := singlepart_loop main r o bufs in
  content out = window r o (content bufs)
  ∧ (o' = o + Z.of_nat (length (content bufs)) ∨ end_ r <= o' ∧ end_ r <= o + Z.of_nat (length (content bufs)))
  ∧ (o < end_ r <= o + Z.of_nat (length (content bufs)) → start r < end_ r →
     ∃ b, last out = Some b ∧ last_buf b = main ∧ last_in_chain b = true).
Proof.
  intros Hr Hb. revert o. induction Hb as [|b bufs Hb Hbufs IH]; intros o.
  { cbn. unfold window. rewrite drop_nil, take_nil. split_and!; [done|left; lia|lia]. }
  cbn [singlepart_loop]. rewrite content_cons, window_app, length_app.
  specialize (IH (o + Z.of_nat (length (data b)))).
  destruct (special b) eqn:Es.
  { specialize (Hb Es). rewrite Hb in *. cbn [length] in *. rewrite Z.add_0_r in *.
    destruct (singlepart_loop main r o bufs) as [o' out]. destruct IH as (E & Ho & Hl).
    rewrite content_cons, Hb. split_and!; [|lia|].
    - rewrite E. unfold window at 2. by rewrite drop_nil, take_nil.
    - intros H1 H2. destruct Hl as (x & Hx & ?); [lia|done|]. exists x. split; [|done].
      rewrite <- Hx. by destruct out. }
  destruct (Z.leb_spec (end_ r) o) as [Hpast|Hnot]; [|destruct (Z.geb_spec (start r) (o + Z.of_nat (length (data b)))) as [Hbefore|Hin]];
    cbn [orb].
  - destruct (singlepart_loop main r _ bufs) as [o' out]. destruct IH as (E & Ho & Hl).
    rewrite (window_past r o) by done. split_and!; [done|lia|lia].
  - destruct (singlepart_loop main r _ bufs) as [o' out]. destruct IH as (E & Ho & Hl).
    rewrite (window_before r o) by lia. split_and!; [done|lia|intros; apply Hl; lia].
  - pose proof (cut_window r o (data b) ltac:(lia) Hnot Hr) as Hcut. cbv zeta in Hcut.
    destruct (Z.leb_spec (end_ r) (o + Z.of_nat (length (data b)))) as [Hend|Hmore].
    + split_and!; [|right; lia|by eexists].
      rewrite Hcut, (window_past r _ (content bufs)) by done. cbn. by rewrite app_nil_r.
    + destruct (singlepart_loop main r _ bufs) as [o' out]. destruct IH as (E & Ho & Hl).
      rewrite content_cons. cbn [data]. rewrite Hcut, E. split_and!; [done|lia|].
      intros H1 H2. destruct Hl as (x & Hx & ?); [lia|done|]. exists x. split; [|done].
      rewrite <- Hx. by destruct out.
Qed.

(** The body filter over the chains of a response: what it passes on. *)
Fixpoint respond (main : bool) (x : option ctx) (chains : list (list buf)) : option (list buf) :=
  match chains with
  | [] => Some []
  | c :: chains =>
      r ← ngx_http_range_body_filter true main x c;
      rest ← respond main (fst (fst r)) chains;
      Some (default [] (snd r) ++ rest)
  end.

Lemma content_app (a b : list buf) : content (a ++ b) = content a ++ content b.
Proof. unfold content. by rewrite map_app, concat_app. Qed.

(** Two offsets from which a range takes the same. *)
Definition same_offset (r : range) (o o' : Z) : Prop := o' = o ∨ end_ r <= o' ∧ end_ r <= o.

Lemma window_same (r : range) (o o' : Z) (d : bytes) : same_offset r o o' → window r o' d = window r o d.
Proof. intros [->|[H1 H2]]; [done|]. by rewrite !window_past. Qed.

Lemma respond_single (main : bool) (r : range) (line : bytes) (x : ctx) (o : Z) (chains : list (list buf)) :
  parts x = [(r, line)] → start r < end_ r → Forall (Forall buf_ok) chains → same_offset r o (offset x) →
  ∃ out, respond main (Some x) chains = Some out ∧ content out = window r o (content (concat chains)).
Proof.
  intros Hx Hr Hc. revert x o Hx. induction Hc as [|c chains Hc Hcs IH]; intros x o Hx Ho.
  { exists []. split; [done|]. unfold window. cbn. by rewrite drop_nil, take_nil. }
  cbn [respond concat]. rewrite content_app, window_app.
  pose proof (singlepart_window main r (offset x) c Hr Hc) as H. rewrite (window_same r o (offset x)) in H by done.
  assert (Hf : ∃ x' out, ngx_http_range_body_filter true main (Some x) c = Some (Some x', NGX_OK, out)
    ∧ parts x' = [(r, line)] ∧ content (default [] out) = window r o (content c)
    ∧ same_offset r (o + Z.of_nat (length (content c))) (offset x')).
  { destruct c as [|b c].
    - exists x, (Some []). split_and!; [done..| |].
      + unfold window. cbn. by rewrite drop_nil, take_nil.
      + cbn. unfold same_offset in *. lia.
    - unfold ngx_http_range_body_filter. rewrite Hx.
      destruct (singlepart_loop main r (offset x) (b :: c)) as [o' out]. destruct H as (E & Ho' & _).
      destruct out as [|b' out]; eexists _, _; (split; [reflexivity|]); cbn [parts offset default];
        (split_and!; [done|done|]); unfold same_offset in *; lia. }
  destruct Hf as (x' & out & -> & Hx' & E & Ho'). cbn [mbind option_bind fst snd].
  destruct (IH x' _ Hx' Ho') as (rest & -> & Er). cbn [mbind option_bind]. eexists. split; [reflexivity|].
  by rewrite content_app, E, Er.
Qed.

Lemma window_inside (r : range) (d : bytes) :
  0 <= start r → window r 0 d = sub d (Z.to_nat (start r)) (Z.to_nat (end_ r - start r)).
Proof. intros H. unfold window, sub. f_equal; [lia|]. f_equal. lia. Qed.

(** ** Several parts *)

Lemma boundary_length (n : Z) : 0 <= n < 2 ^ 64 → length (sprintf_boundary n) = 20%nat.
Proof.
  intros Hn. unfold sprintf_boundary.
  destruct (sprintf_digits_dec 20 n [] ltac:(lia) ltac:(lia)) as (ds & E & _ & _ & _ & Hl). rewrite app_nil_r in E.
  assert (Ed : sprintf_num_digits 0 n = ds) by exact E.
  rewrite ngx_sprintf_num_fits; rewrite Ed; [|unfold NGX_MAX_INT_T_VALUE, NGX_ATOMIC_T_LEN; lia].
  rewrite length_app, length_replicate. unfold NGX_ATOMIC_T_LEN. lia.
Qed.

Lemma parts_len_acc (n : nat) (total len : Z) (rs : list range) :
  parts_len n total len rs = len + parts_len n total 0 rs.
Proof.
  revert len. induction rs as [|r rs IH]; intros len; cbn [parts_len]; [lia|].
  rewrite IH, (IH (0 + _)). lia.
Qed.

Lemma multipart_parts_length (bh body : bytes) (rs : list range) (total : Z) :
  Forall (range_ok (Z.of_nat (length body))) rs →
  ∃ out, multipart_parts bh body (map (fun r => (r, part_header total r)) rs) = Some out
  ∧ Z.of_nat (length (content out)) = parts_len (length bh) total 0 rs
  ∧ content out = concat (map (fun r => bh ++ part_header total r
                      ++ sub body (Z.to_nat (start r)) (Z.to_nat (end_ r - start r))) rs).
Proof.
  induction 1 as [|r rs (H1 & H2 & H3) _ (out & E & El & Ec)]; [by exists []|].
  cbn [map multipart_parts]. rewrite E. cbn [mbind option_bind].
  replace ((0 <=? start r) && (start r <=? end_ r) && (end_ r <=? Z.of_nat (length body))) with true by lia.
  eexists. split; [reflexivity|]. cbn [parts_len concat]. rewrite !content_cons. cbn [data].
  rewrite (parts_len_acc _ _ (0 + _)), <- El, !length_app, sub_length by lia. split; [lia|].
  rewrite <- Ec, <- !(assoc_L (++)). done.
Qed.

Lemma boundary_header_prefix (n : Z) (h : headers_out) :
  0 <= n < 2 ^ 64 →
  take (2 + 2 + Z.to_nat NGX_ATOMIC_T_LEN) (make_boundary_header n h) = crlf ++ bs "--" ++ sprintf_boundary n.
Proof.
  intros Hn. unfold make_boundary_header. rewrite !(assoc_L (++)). rewrite <- (assoc_L (++)), <- (assoc_L (++)).
  apply take_app_length'. rewrite !length_app, boundary_length by done. done.
Qed.

Lemma parse_accepts (init : bool) (push : nat → bool) (cl : Z) (value : bytes) (ranges : nat) (rs : list range) :
  (6 <= length value)%nat → 0 <= cl <= NGX_MAX_OFF_T_VALUE →
  ngx_http_range_parse None init push cl value ranges = Some (NGX_OK, rs) →
  rs ≠ [] ∧ Forall (range_ok cl) rs ∧ size_of rs <= cl.
Proof.
  intros Hv Hcl H. unfold ngx_http_range_parse in H. destruct init; [|done]. cbn [negb] in H.
  destruct (range_loop_returns (S (length value)) push cl ranges [] (drop 6 (value ++ [NUL])))
    as (rc & rs' & E & Hcases); [by apply live_value|rewrite length_drop, length_app; cbn; lia|done|constructor|done|].
  change (size_of []) with 0 in E. rewrite E in H. injection H as -> ->.
  destruct Hcases as [?|[?|[[? _]|(_ & ? & ? & ? & _)]]]; done.
Qed.

(** The text of a Content-Range header. *)
Definition content_range_text (total : Z) (r : range) : bytes :=
  bs "bytes " ++ sprintf_O (start r) ++ bs "-" ++ sprintf_O (end_ r - 1) ++ bs "/" ++ sprintf_O total.

Definition type_line (h : headers_out) : bytes :=
  if (content_type_len h =? length (content_type h))%nat && negb (length (charset h) =? 0)%nat
  then bs "Content-Type: " ++ content_type h ++ bs "; charset=" ++ charset h ++ crlf
  else if negb (length (content_type h) =? 0)%nat then bs "Content-Type: " ++ content_type h ++ crlf
  else [].

(** The bytes of a body that a range selects. *)
Definition slice (body : bytes) (r : range) : bytes := sub body (Z.to_nat (start r)) (Z.to_nat (end_ r - start r)).

(** One part of a multipart body: the delimiter, its headers and its bytes. *)
Definition part_text (n : Z) (h : headers_out) (body : bytes) (r : range) : bytes :=
  crlf ++ bs "--" ++ sprintf_boundary n ++ crlf ++ type_line h
  ++ bs "Content-Range: " ++ content_range_text (content_length_n h) r ++ crlf ++ crlf ++ slice body r.

(** All parts, and the closing delimiter. *)
Definition multipart_text (n : Z) (h : headers_out) (body : bytes) (rs : list range) : bytes :=
  concat (map (part_text n h body) rs) ++ crlf ++ bs "--" ++ sprintf_boundary n ++ bs "--" ++ crlf.

Lemma multipart_exact (n : Z) (h : headers_out) (b : buf) (r r2 : range) (rs : list range) :
  0 <= n < 2 ^ 64 → special b = false → content_offset h = 0 →
  Forall (range_ok (Z.of_nat (length (data b)))) (r :: r2 :: rs) →
  let bh := make_boundary_header n h in
  let total := content_length_n h in
  ∃ x' out,
    ngx_http_range_body_filter true true
      (Some (mk_ctx (content_offset h) bh (map (fun r => (r, part_header total r)) (r :: r2 :: rs)))) [b]
    = Some (x', NGX_OK, Some out)
    ∧ content out = multipart_text n h (data b) (r :: r2 :: rs)
    ∧ Z.of_nat (length (content out))
      = parts_len (length bh) total (2 + 2 + NGX_ATOMIC_T_LEN + 2 + 2) (r :: r2 :: rs).
Proof.
  intros Hn Hsp Hoff Hrs bh total.
  destruct (multipart_parts_length bh (data b) (r :: r2 :: rs) total Hrs) as (out & E & El & Ec).
  unfold ngx_http_range_body_filter. cbn [parts map]. rewrite Hsp.
  assert (Ho : ∀ x, offset x = 0 → parts x = map (fun r => (r, part_header total r)) (r :: r2 :: rs) →
    ngx_http_range_test_overlapped x b = Some (Z.of_nat (length (data b)))).
  { intros x Hx Hp. unfold ngx_http_range_test_overlapped. rewrite Hx, Hp. cbn [Z.eqb negb].
    destruct (existsb _ _) eqn:Ex; [|by destruct (last_buf b)]. exfalso. apply existsb_exists in Ex as ([r' l] & Hin & Hbad).
    apply list_elem_of_In, list_elem_of_fmap in Hin as (r0 & [= -> ->] & Hin).
    apply Forall_forall with (x := r0) in Hrs; [|done]. destruct Hrs as (? & ? & ?). lia. }
  rewrite Ho by (by cbn). cbn [negb]. unfold ngx_http_range_multipart_body. cbn [boundary_header parts].
  change ((r, part_header total r) :: (r2, part_header total r2) :: map (λ r0 : range, (r0, part_header total r0)) rs)
    with (map (fun r => (r, part_header total r)) (r :: r2 :: rs)).
  rewrite E. cbn [mbind option_bind]. eexists _, _. split; [reflexivity|]. split.
  { rewrite content_app, Ec. unfold multipart_text. f_equal.
    - f_equal. apply map_ext. intros r'. unfold part_text, bh, total, make_boundary_header, content_range_text, part_header, type_line.
      rewrite <- !(assoc_L (++)). done.
    - unfold bh. cbn [content map concat data]. rewrite app_nil_r, boundary_header_prefix by done. by rewrite <- !(assoc_L (++)). }
  rewrite content_app, length_app, Nat2Z.inj_add, El, (parts_len_acc _ _ (2 + 2 + NGX_ATOMIC_T_LEN + 2 + 2)).
  unfold bh. cbn [content map concat data]. rewrite app_nil_r, length_app, boundary_header_prefix by done.
  rewrite !length_app, boundary_length by done. unfold NGX_ATOMIC_T_LEN. cbn [length crlf bs map]. cbn. lia.
Qed.

(** ** The properties of the filter *)

(** No Range header makes nginx send bytes that are not of the response.
    Whatever the value of the header, its parser returns and reads nothing outside
    of the value, and when it accepts the header there is at least one range and at
    most the configured number, each range is not empty and lies within the
    response, and together they are not longer than the response; the sums in off_t
    do not overflow. *)
Theorem range_parse_bounds (push : nat → bool) (cl : Z) (value : bytes) (ranges : nat) :
  (6 <= length value)%nat → 0 <= cl <= NGX_MAX_OFF_T_VALUE →
  ∃ rc rs, ngx_http_range_parse None true push cl value ranges = Some (rc, rs)
  ∧ (rc = NGX_HTTP_RANGE_NOT_SATISFIABLE ∨ rc = NGX_DECLINED
     ∨ rc = NGX_ERROR ∧ (∃ k, push k = false)
     ∨ rc = NGX_OK ∧ rs ≠ [] ∧ (length rs <= ranges)%nat ∧ size_of rs <= cl
       ∧ Forall (fun r => 0 <= start r ∧ start r < end_ r ∧ end_ r <= cl) rs).
Proof.
  intros Hv Hcl. unfold ngx_http_range_parse. cbn [negb].
  destruct (range_loop_returns (S (length value)) push cl ranges [] (drop 6 (value ++ [NUL])))
    as (rc & rs & E & H); [by apply live_value|rewrite length_drop, length_app; cbn; lia|done|constructor|done|].
  exists rc, rs. split; [exact E|]. destruct H as [?|[?|[?|(? & ? & ? & ? & ?)]]]; auto.
  do 3 right. by split_and!.
Qed.

(** The header of the attack that made nginx 1.13.2 leak memory. *)
Lemma range_parse_bounds_witness :
  ∃ rc rs, ngx_http_range_parse None true (fun _ => true) 1000
             (bs "bytes=-9223372036854773759,-9223372036854773759") 10 = Some (rc, rs) ∧ rc = NGX_DECLINED.
Proof.
  destruct (range_parse_bounds (fun _ => true) 1000 (bs "bytes=-9223372036854773759,-9223372036854773759") 10)
    as (rc & rs & E & _); [vm_compute; lia|unfold NGX_MAX_OFF_T_VALUE; lia|].
  exists rc, rs. split; [exact E|]. vm_compute in E. by injection E as <- _.
Defined.

(** The meaning of a Range header is that of RFC 7233: for a list of ranges in
    any of the three forms, with spaces before them, the accepted ranges are those
    of the list that select at least one byte of the response, in their order; the
    header is refused with 416 when there are none, and ignored when they add up to
    more than the response. *)
Lemma parse_selected (cl : Z) (ss : list (nat * byte_range)) (prefix : bytes) (ranges : nat) :
  0 < cl → length prefix = 6%nat → ss ≠ [] → Forall (fun s => wellformed (snd s)) ss →
  (length (selected cl ss) <= ranges)%nat → size_of (selected cl ss) <= NGX_MAX_OFF_T_VALUE →
  ngx_http_range_parse None true (fun _ => true) cl (prefix ++ render_all ss) ranges
  = Some (verdict cl (selected cl ss), selected cl ss).
Proof.
  intros Hcl Hp Hne Hw Hlen Hsize. unfold ngx_http_range_parse. cbn [negb].
  rewrite <- (assoc_L (++)), drop_app_length' by done.
  apply (range_loop_render _ cl ranges [] ss); try done.
  rewrite length_app. transitivity (length (render_all ss)); [|lia].
  clear. induction ss as [|[k s] ss IH]; [done|]. cbn [render_all].
  assert ((1 <= length (render s))%nat) by (destruct s; cbn [render]; rewrite ?length_app; cbn [length]; lia).
  destruct ss as [|x ss]; [cbn [length]; rewrite length_app; lia|].
  rewrite !length_app. cbn [length] in *. lia.
Qed.

Lemma selected_ok (cl : Z) (ss : list (nat * byte_range)) : 0 < cl → Forall (fun s => wellformed (snd s)) ss → Forall (range_ok cl) (selected cl ss).
Proof.
  intros Hcl Hw. apply Forall_forall. intros r [Hs Hr]%list_elem_of_filter. apply list_elem_of_fmap in Hr as ([k s] & -> & Hin).
  rewrite Forall_forall in Hw. apply Hw in Hin. cbn [snd] in *. destruct (selects_start cl s Hcl Hin) as [H0 _].
  split; [done|]. split; [exact Hs|]. destruct s; cbn; lia.
Qed.

Lemma parse_selected_example :
  ngx_http_range_parse None true (fun _ => true) 1000 (bs "bytes=0-99, 500-,-50,2000-") 5
  = Some (NGX_OK, [mk_range 0 100; mk_range 500 1000; mk_range 950 1000]).
Proof.
  apply (parse_selected 1000
    [(0%nat, FromTo (bs "0") (bs "99")); (1%nat, From (bs "500")); (0%nat, Suffix (bs "50")); (0%nat, From (bs "2000"))]
    (bs "bytes=") 5); try done; [|vm_compute; lia].
  repeat (apply Forall_cons; split; [cbn [snd wellformed]; unfold number;
    repeat split; try done; solve_forall ltac:(unfold is_digit; lia)|]). constructor.
Qed.

(** All memory is there; [n] is the number of the boundary. *)
Definition enough (n : Z) : resources := mk_resources true true (fun _ => true) true true n.

(** A request for a complete response with the ranges [ss], which may be served. *)
Record asks (q : request) (h : headers_out) (ss : list (nat * byte_range)) : Prop := {
  ask_version : NGX_HTTP_VERSION_10 <= http_version q;
  ask_main : is_main q = true;
  ask_allowed : allow_ranges q = true;
  ask_status : status h = NGX_HTTP_OK;
  ask_offset : content_offset h = 0;
  ask_value : in_range q = Some (bs "bytes=" ++ render_all ss);
  ask_some : ss ≠ [];
  ask_form : Forall (fun s => wellformed (snd s)) ss;
  ask_if_range : if_range_matches q = Some true
}.

(** One range: the headers and the body. *)
Definition single_response (h h' : headers_out) (x : ctx) (body : bytes) (r : range) : Prop :=
  content_range h' = Some (content_range_text (content_length_n h) r) ∧ content_length_n h' = Z.of_nat (length (slice body r))
  ∧ ∀ chains, Forall (Forall buf_ok) chains → content (concat chains) = body →
      ∃ out, respond true (Some x) chains = Some out ∧ content out = slice body r.

(** Several ranges, in a response of one buffer. *)
Definition multi_response (n : Z) (h h' : headers_out) (x : ctx) (body : bytes) (rs : list range) : Prop :=
  content_type h' = bs "multipart/byteranges; boundary=" ++ sprintf_boundary n
  ∧ content_length_n h' = Z.of_nat (length (multipart_text n h body rs))
  ∧ ∀ b, data b = body → special b = false →
      ∃ x' out, ngx_http_range_body_filter true true (Some x) [b] = Some (x', NGX_OK, Some out) ∧ content out = multipart_text n h body rs.

(** What a response of the body [body] becomes when the ranges [rs] of it are selected. *)
Definition answered (n : Z) (h : headers_out) (body : bytes) (rs : list range) (o : outcome) : Prop :=
  match rs with
  | [] => ∃ h', o = returned NGX_HTTP_RANGE_NOT_SATISFIABLE h' ∧ content_range h' = Some (bs "bytes */" ++ sprintf_O (content_length_n h))
  | _ =>
      if size_of rs >? Z.of_nat (length body) then o = passed (set_accept h) None
      else ∃ h' x, o = passed h' (Some x) ∧ status h' = NGX_HTTP_PARTIAL_CONTENT
           ∧ match rs with [r] => single_response h h' x body r | _ => multi_response n h h' x body rs end
  end.

Lemma header_filter_parses (n : Z) (q : request) (h : headers_out) (ss : list (nat * byte_range)) :
  asks q h ss → 0 <= content_length_n h → (0 < max_ranges q)%nat →
  ngx_http_range_header_filter (enough n) q h = parse_ranges (enough n) q h (bs "bytes=" ++ render_all ss).
Proof.
  intros [H1 H2 H3 H4 _ H6 H7 H8 H9] Hcl Hm. unfold ngx_http_range_header_filter. rewrite H2, H3, H4, H6, H9.
  rewrite (proj2 (Z.ltb_ge _ _)), (proj2 (Z.eqb_neq (content_length_n h) (-1))), (proj2 (Nat.eqb_neq (max_ranges q) 0)) by lia.
  cbn [negb orb andb Z.eqb Pos.eqb NGX_HTTP_OK].
  assert (Hl : (length (bs "bytes=" ++ render_all ss) <? 7)%nat = false).
  { apply Nat.ltb_ge. rewrite length_app. change (length (bs "bytes=")) with 6%nat.
    destruct ss as [|[k s] ss]; [done|]. apply Forall_cons in H8 as [Hs _]. cbn [render_all].
    assert ((1 <= length (render s))%nat) by (destruct s; cbn [render]; rewrite ?length_app; cbn [length]; lia). destruct ss; rewrite !length_app; lia. }
  by rewrite Hl.
Qed.

(** C35. What a Range request gets is what RFC 7233 says. For a main request with
    HTTP/1.0 or later to a complete response that is not empty, allows ranges and
    starts at offset 0, with memory, an If-Range that matches and a list of
    well-formed ranges (numbers below 2^63) of which at most the allowed number
    select something, less than 2^63 bytes together: when no range selects a byte
    the answer is 416 with the length; when they add up to more than the response it
    is sent whole; else the status is 206, and with one range Content-Range names
    it, the bodies that pass the filter, in whatever chains of buffers the response
    arrives, are exactly the bytes that were asked for, and Content-Length is their
    number; with several, for a response in one buffer, the body consists of the
    parts with their delimiters, headers and bytes, in the order of the header, and
    is as long as Content-Length says. *)
Theorem range_response_exact (n : Z) (q : request) (h : headers_out) (ss : list (nat * byte_range)) (body : bytes) :
  asks q h ss → 0 <= n < 2 ^ 64 → content_length_n h = Z.of_nat (length body) → 0 < content_length_n h <= NGX_MAX_OFF_T_VALUE →
  let rs := selected (content_length_n h) ss in
  (0 < max_ranges q)%nat → (length rs <= if single_range q then 1 else max_ranges q)%nat → size_of rs <= NGX_MAX_OFF_T_VALUE →
  ∃ o, ngx_http_range_header_filter (enough n) q h = Some o ∧ answered n h body rs o.
Proof.
  intros Ha Hn Hcl Hmax rs Hm Hlen Hsz. rewrite (header_filter_parses n q h ss) by (done || lia). pose proof Ha as [_ H2 _ _ H5 _ H7 H8 _].
  unfold parse_ranges. cbn [a_ctx a_init a_push enough negb]. rewrite H2, (parse_selected _ _ (bs "bytes=")) by (done || lia). fold rs. cbn [mbind option_bind].
  assert (Hrs : Forall (range_ok (content_length_n h)) rs) by (apply selected_ok; [lia|done]).
  unfold verdict. destruct rs as [|r rs'] eqn:Er; [eexists; split; [done|]; by eexists|]. cbn [length Nat.eqb answered].
  rewrite <- Hcl. destruct (size_of (r :: rs') >? content_length_n h); [by eexists|]. cbn [Z.eqb NGX_OK].
  eexists. split; [done|]. rewrite Hcl in Hrs. destruct rs' as [|r2 rs'].
  - apply Forall_singleton in Hrs as (R1 & R2 & R3). eexists _, _. split; [done|]. split; [done|]. split; [done|].
    split; [unfold slice; rewrite sub_length by lia; cbn; lia|]. intros chains Hch <-.
    destruct (respond_single true r [] (mk_ctx (content_offset h) [] [(r, [])]) 0 chains) as (out & E & Ec); [done..|by left|].
    exists out. split; [exact E|]. by rewrite Ec, window_inside.
  - destruct (multipart_exact n (set_partial h) (mk_buf body false false false false) r r2 rs' Hn eq_refl H5 Hrs) as (_ & out0 & _ & E0 & L0).
    eexists _, _. split; [done|]. split; [done|]. split; [done|]. split; [rewrite E0 in L0; symmetry; exact L0|]. intros b <- Hsp.
    destruct (multipart_exact n (set_partial h) b r r2 rs' Hn Hsp H5 Hrs) as (x' & out & E & Ec & _). exists x', out. split; [exact E|exact Ec].
Qed.

(** A response of ten bytes in two buffers, of which bytes 2 to 6 are asked for. *)
Definition example_request : request :=
  mk_request 1001 true false true false 10 (Some (bs "bytes=2-6")) None None (-1) None.

Definition example_headers : headers_out := mk_headers 200 10 0 (bs "text/plain") 10 [] None false.

Definition example_chain : list buf :=
  [mk_buf (bs "0123") false false false false; mk_buf (bs "456789") false true false false].

Lemma range_response_exact_witness :
  (∃ o, ngx_http_range_header_filter (enough 7) example_request example_headers = Some o
        ∧ answered 7 example_headers (bs "0123456789") [mk_range 2 7] o)
  ∧ ngx_http_range_header_filter (enough 7) example_request example_headers
    = Some (passed (mk_headers 206 5 2 (bs "text/plain") 10 [] (Some (bs "bytes 2-6/10")) false) (Some (mk_ctx 0 [] [(mk_range 2 7, [])])))
  ∧ (content <$> respond true (Some (mk_ctx 0 [] [(mk_range 2 7, [])])) [example_chain]) = Some (bs "23456").
Proof.
  split; [|split; vm_compute; reflexivity].
  apply (range_response_exact 7 example_request example_headers [(0%nat, FromTo (bs "2") (bs "6"))] (bs "0123456789"));
    [|lia|reflexivity|vm_compute; split; [reflexivity|discriminate]|vm_compute; lia|vm_compute; lia|vm_compute; discriminate].
  split; try reflexivity; try discriminate. apply Forall_singleton. cbn [snd wellformed]. unfold number.
  repeat split; try done; solve_forall ltac:(unfold is_digit; lia).
Defined.

(** The header filter reads nothing outside of the values of the headers. *)
Theorem range_header_filter_returns (e : resources) (q : request) (h : headers_out) :
  -1 <= content_length_n h <= NGX_MAX_OFF_T_VALUE → is_Some (ngx_http_range_header_filter e q h).
Proof.
  intros Hcl. unfold ngx_http_range_header_filter.
  destruct (_ || negb (allow_ranges q)) eqn:Eg; [by eexists|].
  assert (0 <= content_length_n h).
  { destruct (Z.eqb_spec (content_length_n h) (-1)) as [E|]; [|lia].
    rewrite !orb_false_iff in Eg. lia. }
  destruct (max_ranges q =? 0)%nat; [by eexists|]. destruct (in_range q) as [value|]; [|by eexists].
  destruct (Nat.ltb_spec (length value) 7); [by eexists|].
  destruct (strncasecmp_total (value ++ [NUL]) (bs "bytes=") 6) as [d ->]; [rewrite length_app; cbn; lia|done|].
  cbn [mbind option_bind]. destruct (negb (d =? 0)); [by eexists|].
  assert (is_Some (if_range_matches q)) as [ok ->].
  { unfold if_range_matches. destruct (in_if_range q) as [v|]; [|by eexists].
    destruct ((2 <=? length v)%nat && _); [destruct (out_etag q); by eexists|]. destruct (last_modified_time q =? -1); [by eexists|].
    destruct (HttpTime.parse_http_time_reads v) as [t ->]. by eexists. }
  cbn [mbind option_bind]. destruct (negb ok); [by eexists|]. unfold parse_ranges.
  destruct (negb (a_ctx e)); [by eexists|].
  assert (∃ rc rs, ngx_http_range_parse (if is_main q then None else main_ranges q) (a_init e) (a_push e)
    (content_length_n h) value (if single_range q then 1%nat else max_ranges q) = Some (rc, rs)) as (rc & rs & ->).
  { unfold ngx_http_range_parse. destruct (if is_main q then None else main_ranges q); [by eexists _, _|].
    destruct (negb (a_init e)); [by eexists _, _|].
    edestruct (range_loop_returns (S (length value)) (a_push e) (content_length_n h)
      (if single_range q then 1%nat else max_ranges q) [] (drop 6 (value ++ [NUL]))) as (rc & rs & E & _);
      [apply live_value; lia|rewrite length_drop, length_app; cbn; lia|lia|constructor|done|]. by eexists _, _. }
  cbn [mbind option_bind]. repeat (case_match; try (by eexists)).
Qed.

End Range.
