(* ===== verification/SqlText.v ===== *)
(** String literals of SQL as the server reads them: [get_text] of drizzled/sql_lex.cc in
    src/drizzle7-2011.07.21, which is MySQL's, and the character set of the server,
    drizzled/ctype-utf8.cc.  This is the reader that quoting is proved against. *)

From S2P Require Import Prelude.

Open Scope Z_scope.

Module SqlText.

(** * Definitions *)

(** [my_mb_wc_utf8mb4]: the number of bytes of the character at the start of [l], 0 when
    there is none. *)
Definition my_mb_wc_utf8mb4 (l : bytes) : nat :=
  let cont c := Z.lxor c 0x80 <? 0x40 in
  match l with
  | [] => 0%nat
  | c :: l =>
      if c <? 0x80 then 1%nat
      else if c <? 0xc2 then 0%nat
      else if c <? 0xe0 then
        match l with s1 :: _ => if cont s1 then 2%nat else 0%nat | _ => 0%nat end
      else if c <? 0xf0 then
        match l with
        | s1 :: s2 :: _ => if cont s1 && cont s2 && ((c >=? 0xe1) || (s1 >=? 0xa0)) then 3%nat else 0%nat
        | _ => 0%nat
        end
      else if c <? 0xf8 then
        match l with
        | s1 :: s2 :: s3 :: _ => if cont s1 && cont s2 && cont s3 && ((c >=? 0xf1) || (s1 >=? 0x90)) then 4%nat else 0%nat
        | _ => 0%nat
        end
      else 0%nat
  end.

(** The length of the multi-byte character at the start of [l], or 0. *)
Definition my_ismbchar_utf8mb4 (l : bytes) : nat :=
  let res := my_mb_wc_utf8mb4 l in if (1 <? res)%nat then res else 0%nat.

Section Charset.
(** [my_ismbchar] of the character set of the connection. *)
Variable my_ismbchar : bytes → nat.

(** The first loop of [get_text], after the opening quote [sep]: the text up to the closing
    one and what follows it; [None] when the query ends first. *)
Fixpoint scan (fuel : nat) (sep : Z) (l : bytes) : option (bytes * bytes) :=
  match fuel, l with
  | S fuel, c :: l1 =>
      let n := my_ismbchar l in
      if negb (n =? 0)%nat then (fun '(t, r) => (take n l ++ t, r)) <$> scan fuel sep (drop n l)
      else if c =? "\"%ch then
        match l1 with
        | [] => None
        | e :: l2 => (fun '(t, r) => (c :: e :: t, r)) <$> scan fuel sep l2
        end
      else if c =? sep then
        match l1 with
        | d :: l2 => if c =? d then (fun '(t, r) => (c :: d :: t, r)) <$> scan fuel sep l2 else Some ([], l1)
        | [] => Some ([], [])
        end
      else (fun '(t, r) => (c :: t, r)) <$> scan fuel sep l1
  | _, _ => None
  end.

(** The bytes for the letter after a backslash. *)
Definition unescape_letter (e : Z) : bytes :=
  if e =? "n"%ch then [10]
  else if e =? "t"%ch then [9]
  else if e =? "r"%ch then [13]
  else if e =? "b"%ch then [8]
  else if e =? "0"%ch then [0]
  else if e =? "Z"%ch then [26]
  else if (e =? "_"%ch) || (e =? "%"%ch) then ["\"%ch; e]
  else [e].

(** The second loop of [get_text]: the value of the text.  A text without a backslash and a
    doubled quote is copied, which is what the loop does with it. *)
Fixpoint unescape (fuel : nat) (sep : Z) (l : bytes) : bytes :=
  match fuel, l with
  | S fuel, c :: l1 =>
      let n := my_ismbchar l in
      if negb (n =? 0)%nat then take n l ++ unescape fuel sep (drop n l)
      else if (c =? "\"%ch) && negb (length l1 =? 0)%nat then
        unescape_letter (hd 0 l1) ++ unescape fuel sep (tl l1)
      else if c =? sep then c :: unescape fuel sep (tl l1)
      else c :: unescape fuel sep l1
  | _, _ => []
  end.

(** The literal at the start of a statement, in single quotes: its value, and what follows. *)
Definition get_text (l : bytes) : option (bytes * bytes) :=
  match l with
  | c :: l =>
      if c =? "'"%ch then (fun '(t, r) => (unescape (length t) c t, r)) <$> scan (length l) c l
      else None
  | [] => None
  end.

(** ** Character sets in which a quote is a quote *)

(** No multi-byte character has a byte of ASCII in it, as in UTF-8. *)
Definition ascii_transparent : Prop :=
  ∀ l, Forall is_byte l → my_ismbchar l ≠ 0%nat →
    (my_ismbchar l <= length l)%nat ∧ Forall (fun c => 0x80 <= c) (take (my_ismbchar l) l).

(** * Theorems *)

Context (Hcs : ascii_transparent).

Lemma ascii_single c l : Forall is_byte (c :: l) → c < 0x80 → my_ismbchar (c :: l) = 0%nat.
Proof.
  intros Hl Hc. destruct (decide (my_ismbchar (c :: l) = 0%nat)) as [|H]; [done|]. destruct (Hcs _ Hl H) as [_ Hf].
  destruct (my_ismbchar (c :: l)) as [|n]; [done|]. apply Forall_cons in Hf. lia.
Qed.

Lemma scan_escaped fuel sep e l :
  Forall is_byte (e :: l) → scan (S fuel) sep ("\"%ch :: e :: l) = (fun '(t, r) => ("\"%ch :: e :: t, r)) <$> scan fuel sep l.
Proof. intros Hl. cbn [scan]. rewrite ascii_single; [done|by constructor|done]. Qed.

Lemma scan_closed fuel sep rest :
  Forall is_byte (sep :: rest) → sep < 0x80 → sep ≠ "\"%ch → head rest ≠ Some sep → scan (S fuel) sep (sep :: rest) = Some ([], rest).
Proof.
  intros Hl H1 H2 H3. cbn [scan]. rewrite ascii_single, (proj2 (Z.eqb_neq _ _) H2), Z.eqb_refl by done. destruct rest as [|d rest]; [done|].
  cbn in H3. cbn [Nat.eqb negb]. by rewrite (proj2 (Z.eqb_neq sep d)) by congruence.
Qed.

Lemma unescape_escaped fuel sep e l :
  Forall is_byte (e :: l) → unescape (S fuel) sep ("\"%ch :: e :: l) = unescape_letter e ++ unescape fuel sep l.
Proof. intros Hl. cbn [unescape]. rewrite ascii_single; [done|by constructor|done]. Qed.

(** A character that is no quote and no backslash, of one byte or more, is read as it is. *)
Lemma read_char sep c l :
  Forall is_byte (c :: l) → c ≠ "\"%ch → c ≠ sep →
  ∃ n, (n <= length l)%nat ∧ Forall (fun c => 0x80 <= c) (take n l)
  ∧ (∀ fuel, scan (S fuel) sep (c :: l) = (fun '(t, r) => (c :: take n l ++ t, r)) <$> scan fuel sep (drop n l))
  ∧ (∀ fuel, unescape (S fuel) sep (c :: l) = c :: take n l ++ unescape fuel sep (drop n l)).
Proof.
  intros Hl H1 H2. cbn [scan unescape]. rewrite (proj2 (Z.eqb_neq _ _) H1), (proj2 (Z.eqb_neq _ _) H2). cbn [andb].
  destruct (my_ismbchar (c :: l)) as [|n] eqn:En.
  - exists O. cbn. split; [lia|]. done.
  - assert (Hn : my_ismbchar (c :: l) ≠ 0%nat) by (by rewrite En). destruct (Hcs _ Hl Hn) as [Hlen Hf]. rewrite En in Hlen, Hf. cbn in Hlen. apply Forall_cons in Hf as [_ Hf].
    exists n. cbn. split; [lia|]. done.
Qed.

End Charset.

(** UTF-8 is such a character set. *)
Lemma utf8mb4_transparent : ascii_transparent my_ismbchar_utf8mb4.
Proof.
  assert (Hx : ∀ c, is_byte c → (Z.lxor c 0x80 <? 0x40) = true → 0x80 <= c).
  { intros c Hc. by apply (range_check_prop 256 (fun c => (Z.lxor c 0x80 <? 0x40) = true → 0x80 <= c)). }
  intros l Hl. unfold my_ismbchar_utf8mb4, my_mb_wc_utf8mb4. destruct l as [|c l]; [done|]. cbv zeta.
  destruct (Z.ltb_spec c 0x80); [done|]. destruct (c <? 0xc2); [done|]. destruct (c <? 0xe0); [|destruct (c <? 0xf0); [|destruct (c <? 0xf8); [|done] ] ].
  - destruct l as [|s1 l]; [done|]. rewrite !Forall_cons in Hl. destruct (Z.lxor s1 128 <? 64) eqn:E1; [|done]. intros _. cbn. split; [lia|].
    rewrite !Forall_cons. split_and!; [done|apply Hx; tauto|constructor].
  - destruct l as [|s1 [|s2 l] ]; [done..|]. rewrite !Forall_cons in Hl. destruct (_ && _) eqn:E; [|done]. intros _. cbn. split; [lia|].
    rewrite !andb_true_iff in E. rewrite !Forall_cons. split_and!; [done|apply Hx; tauto..|constructor].
  - destruct l as [|s1 [|s2 [|s3 l] ] ]; [done..|]. rewrite !Forall_cons in Hl. destruct (_ && _) eqn:E; [|done]. intros _. cbn. split; [lia|].
    rewrite !andb_true_iff in E. rewrite !Forall_cons. split_and!; [done|apply Hx; tauto..|constructor].
Qed.

(** A doubled quote is a quote of the value, a backslash before a wildcard stays. *)
Example get_text_examples :
  get_text my_ismbchar_utf8mb4 (bs "'it''s a 100\% \\ \n' AND 1") = Some (bs "it's a 100\% \ " ++ [10], bs " AND 1")
  ∧ get_text my_ismbchar_utf8mb4 (bs "'open") = None ∧ get_text my_ismbchar_utf8mb4 (bs "'open\'") = None.
Proof. by vm_compute. Qed.

End SqlText.
