(* ===== verification/SetMisc.v ===== *)
(** * The set_misc directives

    src/set-misc-nginx-module-master/src: the functions behind
    [set_unescape_uri], [set_escape_uri], [set_quote_sql_str],
    [set_quote_pgsql_str], [set_quote_json_str], [set_encode_base32],
    [set_decode_base32], [set_encode_hex], [set_decode_hex], [set_if_empty],
    [set_rotate], [set_random] and [set_secure_random_*].  The login flow of the
    back end reads its arguments through [set_unescape_uri].

    A function that returns [NGX_OK] with [res] set gives [Some res], one that
    returns [NGX_ERROR] gives [None]; [alloc] says whether [ngx_palloc]
    succeeds. *)

From S2P Require Import Prelude SqlText NgxNumber NgxEscape.

Open Scope Z_scope.

(** [ngx_http_variable_value_t]. *)
Record variable_value := mk_value { v_not_found : bool; v_data : bytes }.

(** ** ngx_http_set_unescape_uri.c *)

Definition NGX_UNESCAPE_URI_COMPONENT : Z := 0.

Definition ngx_unescape_uri_patched (src : bytes) (type : Z) : bytes * bytes :=
  unescape_loop true type sw_usual src.

Definition ngx_http_set_misc_unescape_uri (alloc : bool) (v : variable_value) : option bytes :=
  if alloc then
    let '(res, rest) := ngx_unescape_uri_patched (v_data v) NGX_UNESCAPE_URI_COMPONENT in
    match rest with
    | [] => Some res
    | _ => None
    end
  else None.

(** ** ngx_http_set_escape_uri.c *)

Definition patched_uri_tbl : list Z :=
  [0xffffffff; 0xfc00886d; 0x78000000; 0xa8000000;
   0xffffffff; 0xffffffff; 0xffffffff; 0xffffffff].

(** The only type the directive passes is [NGX_ESCAPE_URI]. *)
Definition ngx_escape_uri_patched_count (src : bytes) : Z := escape_uri_count patched_uri_tbl src.
Definition ngx_escape_uri_patched (src : bytes) : bytes := escape_uri_write patched_uri_tbl src.

Definition ngx_http_set_misc_escape_uri (alloc : bool) (v : variable_value) : option bytes :=
  match v_data v with
  | [] => Some []
  | src =>
      if alloc then
        let escape := 2 * ngx_escape_uri_patched_count src in
        if escape =? 0 then Some src else Some (ngx_escape_uri_patched src)
      else None
  end.

(** ** ngx_http_set_quote_sql.c *)

(** The letter after the backslash, for the bytes that are escaped. *)
Definition sql_escape_letter (c : Z) : option Z :=
  if Z.land c 0x80 =? 0 then
    if c =? 0 then Some "0"%ch
    else if c =? 8 then Some "b"%ch
    else if c =? 10 then Some "n"%ch
    else if c =? 13 then Some "r"%ch
    else if c =? 9 then Some "t"%ch
    else if c =? "\"%ch then Some "\"%ch
    else if c =? "'"%ch then Some "'"%ch
    else if c =? 34 then Some 34
    else if c =? "$"%ch then Some "$"%ch
    else if c =? 26 then Some "Z"%ch
    else None
  else None.

Fixpoint escape_sql_count (src : bytes) : Z :=
  match src with
  | [] => 0
  | c :: src =>
      match sql_escape_letter c with Some _ => 1 | None => 0 end + escape_sql_count src
  end.

Fixpoint escape_sql_write (src : bytes) : bytes :=
  match src with
  | [] => []
  | c :: src =>
      match sql_escape_letter c with Some e => ["\"%ch; e] | None => [c] end
      ++ escape_sql_write src
  end.

(** [write] between two [q], into a buffer sized by [count]: the last check of
    the function compares the two. *)
Definition quote_with (count : bytes → Z) (write : bytes → bytes) (q : Z) (alloc : bool)
    (src : bytes) : option bytes :=
  if alloc then
    let escape := count src in
    let len := 2 + Z.of_nat (length src) + escape in
    let p := [q] ++ (if escape =? 0 then src else write src) ++ [q] in
    if negb (Z.of_nat (length p) =? len) then None else Some p
  else None.

Definition ngx_http_set_misc_quote_sql_str (alloc : bool) (v : variable_value) : option bytes :=
  if v_not_found v || (length (v_data v) =? 0)%nat then Some (bs "''")
  else quote_with escape_sql_count escape_sql_write "'"%ch alloc (v_data v).

Definition ngx_http_pg_utf_mblen (c : Z) : nat :=
  if Z.land c 0x80 =? 0 then 1
  else if Z.land c 0xe0 =? 0xc0 then 2
  else if Z.land c 0xf0 =? 0xe0 then 3
  else if Z.land c 0xf8 =? 0xf0 then 4
  else 1.

Definition outside (lo hi a : Z) : bool := (a <? lo) || (a >? hi).

(** The second byte of a two-byte sequence that starts with [c]. *)
Definition pg_second_bad (c a : Z) : bool :=
  if c =? 0xE0 then outside 0xA0 0xBF a
  else if c =? 0xED then outside 0x80 0x9F a
  else if c =? 0xF0 then outside 0x90 0xBF a
  else if c =? 0xF4 then outside 0x80 0x8F a
  else outside 0x80 0xBF a.

(** The [switch (mblen)]: each case ends with [break]. *)
Definition pg_bad (mblen : nat) (s : bytes) : bool :=
  match mblen with
  | 4%nat => outside 0x80 0xBF (s !!! 3%nat)
  | 3%nat => outside 0x80 0xBF (s !!! 2%nat)
  | 2%nat => pg_second_bad (s !!! 0%nat) (s !!! 1%nat)
  | 1%nat =>
      let a := s !!! 0%nat in
      ((a >=? 0x80) && (a <? 0xC2)) || (a >? 0xF4)
  | _ => true
  end.

(** Every turn reads at least one byte. *)
Fixpoint pg_utf_islegal (fuel : nat) (s : bytes) : bool :=
  match fuel, s with
  | _, [] => true
  | O, _ => false
  | S fuel, c :: _ =>
      let mblen := ngx_http_pg_utf_mblen c in
      if (length s <? mblen)%nat then false
      else if pg_bad mblen s then false
      else pg_utf_islegal fuel (drop mblen s)
  end.

Definition ngx_http_pg_utf_islegal (s : bytes) : bool := pg_utf_islegal (length s) s.

Fixpoint pg_utf_count (s : bytes) : Z :=
  match s with
  | [] => 0
  | d :: s => (if Z.land d 0x80 =? 0 then 0 else 4) + 1 + pg_utf_count s
  end.

Fixpoint pg_utf_write (s : bytes) : bytes :=
  match s with
  | [] => []
  | d :: s =>
      (if negb (Z.land d 0x80 =? 0)
       then ["\"%ch; "\"%ch; Z.shiftr d 6 + "0"%ch; Z.land (Z.shiftr d 3) 7 + "0"%ch;
             Z.land d 7 + "0"%ch]
       else [d]) ++ pg_utf_write s
  end.

Definition ngx_http_pg_utf_escape (alloc : bool) (s : bytes) : option bytes :=
  if alloc then Some (pg_utf_write s) else None.

Definition ngx_http_set_misc_quote_pgsql_str (alloc : bool) (v : variable_value) : option bytes :=
  if v_not_found v || (length (v_data v) =? 0)%nat then Some (bs "''")
  else
    match ngx_http_set_misc_quote_sql_str alloc v with
    | None => None                        (* res is not set *)
    | Some res =>
        if alloc then
          let res := "E"%ch :: res in
          if ngx_http_pg_utf_islegal res then Some res else ngx_http_pg_utf_escape alloc res
        else None
    end.

(** ** ngx_http_set_quote_json.c *)

Definition misc_json_letter (c : Z) : option Z :=
  if c =? 13 then Some "r"%ch
  else if c =? 10 then Some "n"%ch
  else if c =? "\"%ch then Some "\"%ch
  else if c =? 34 then Some 34
  else if c =? 12 then Some "f"%ch
  else if c =? 8 then Some "b"%ch
  else if c =? 9 then Some "t"%ch
  else None.

Fixpoint escape_json_count (src : bytes) : Z :=
  match src with
  | [] => 0
  | c :: src =>
      (if Z.land c 0x80 =? 0 then
         match misc_json_letter c with
         | Some _ => 1
         | None => if c <? 32 then 5 else 0
         end
       else 0) + escape_json_count src
  end.

Fixpoint escape_json_write (src : bytes) : bytes :=
  match src with
  | [] => []
  | c :: src =>
      (if Z.land c 0x80 =? 0 then
         match misc_json_letter c with
         | Some e => ["\"%ch; e]
         | None =>
             if c <? 32
             then ["\"%ch; "u"%ch; "0"%ch; "0"%ch; hex_digit hex_lower (Z.shiftr c 4);
                   hex_digit hex_lower (Z.land c 15)]
             else [c]
         end
       else [c]) ++ escape_json_write src
  end.

Definition ngx_http_set_misc_quote_json_str (alloc : bool) (v : variable_value) : option bytes :=
  if v_not_found v || (length (v_data v) =? 0)%nat then Some (bs "null")
  else quote_with escape_json_count escape_json_write 34 alloc (v_data v).

(** ** ngx_http_set_hex.c *)

Fixpoint decode_hex (p : bytes) : option bytes :=
  match p with
  | [] => Some []
  | a :: b :: p =>
      let n := ngx_hextoi [a; b] in
      if (n =? NGX_ERROR) || (n >? 255) then None else cons (u_char n) <$> decode_hex p
  | _ => None
  end.

Definition ngx_http_set_misc_set_decode_hex (alloc : bool) (v : variable_value) : option bytes :=
  if negb (length (v_data v) mod 2 =? 0)%nat then None
  else if alloc then decode_hex (v_data v) else None.

Definition ngx_http_set_misc_set_encode_hex (alloc : bool) (v : variable_value) : option bytes :=
  if alloc then Some (ngx_hex_dump (v_data v)) else None.

(** ** ngx_http_set_default_value.c *)

Definition ngx_http_set_misc_set_if_empty (cur_v default_v : variable_value) : bytes :=
  if v_not_found cur_v || (length (v_data cur_v) =? 0)%nat then v_data default_v
  else v_data cur_v.

(** ** ngx_http_set_rotate.c, ngx_http_set_random.c *)

Definition NGX_CONF_UNSET : Z := -1.

(** [%i] of an [ngx_int_t] that is not negative. *)
Definition sprintf_i (n : Z) : bytes := sprintf_num_digits 0 n.

(** [current] is [conf->current]; the result is the value and the new
    [conf->current]. *)
Definition ngx_http_set_misc_set_rotate (alloc : bool) (current : Z)
    (rotate_num rotate_from rotate_to : bytes) : option bytes * Z :=
  let int_from := ngx_atoi rotate_from in
  if int_from =? NGX_ERROR then (None, current)
  else
    let int_to := ngx_atoi rotate_to in
    if int_to =? NGX_ERROR then (None, current)
    else
      let '(int_from, int_to) :=
        if int_from >? int_to then (int_to, int_from) else (int_from, int_to) in
      let fallback := if negb (current =? NGX_CONF_UNSET) then current else int_from - 1 in
      let int_current :=
        match rotate_num with
        | [] => fallback
        | _ =>
            let n := ngx_atoi rotate_num in
            if n =? NGX_ERROR then fallback else n
        end in
      let int_current := wrap_s 64 (int_current + 1) in
      let int_current :=
        if (int_current >? int_to) || (int_current <? int_from) then int_from else int_current in
      (if alloc then Some (sprintf_i int_current) else None, int_current).

(** [rand ()] is an argument. *)
Definition ngx_http_set_misc_set_random (alloc : bool) (rand : Z) (rand_from rand_to : bytes)
    : option bytes :=
  let int_from := ngx_atoi rand_from in
  if int_from =? NGX_ERROR then None
  else
    let int_to := ngx_atoi rand_to in
    if int_to =? NGX_ERROR then None
    else
      let '(int_from, int_to) :=
        if int_from >? int_to then (int_to, int_from) else (int_from, int_to) in
      let random := Z.rem rand (wrap_s 64 (int_to - int_from + 1)) + int_from in
      if alloc then Some (sprintf_i random) else None.

(** ** ngx_http_set_secure_random.c *)

Definition MAX_RANDOM_STRING : Z := 64.

Inductive alphabet_type := ALPHANUM | LCALPHA.

Definition random_alphabet : bytes :=
  bs "abcdefghijklmnopqrstuvwxyzABCDEFGHIJKLMNOPQRSTUVWXYZ0123456789".

Definition random_char (t : alphabet_type) (e : Z) : Z :=
  match t with
  | LCALPHA => e mod 26 + "a"%ch
  | ALPHANUM => random_alphabet !!! Z.to_nat (e mod 62)
  end.

(** [urandom n] is what reading [n] bytes from /dev/urandom gives; [None] when
    it cannot be opened.  The result says whether the descriptor was closed. *)
Definition ngx_http_set_misc_set_secure_random_common (t : alphabet_type) (alloc : bool)
    (urandom : Z → option bytes) (v : bytes) : option bytes * bool :=
  let length_ := ngx_atoi v in
  if (length_ =? NGX_ERROR) || (length_ <? 1) || (length_ >? MAX_RANDOM_STRING)
  then (None, true)
  else
    match urandom length_ with
    | None => (None, true)
    | Some entropy =>
        if negb (Z.of_nat (length entropy) =? length_) then (None, false)
        else if alloc then (Some (map (random_char t) entropy), true)
        else (None, true)
    end.

(** * Theorems *)

(** ** The two passes of each escaper agree *)

#[export] Instance escape_sql_two_pass : TwoPass escape_sql_count escape_sql_write.
Proof.
  intros s. induction s as [|c s IH]; [done|]. cbn [escape_sql_count escape_sql_write].
  rewrite length_app, Nat2Z.inj_add, IH. destruct (sql_escape_letter c); simpl length; lia.
Qed.

#[export] Instance escape_json_two_pass : TwoPass escape_json_count escape_json_write.
Proof.
  intros s. induction s as [|c s IH]; [done|]. cbn [escape_json_count escape_json_write].
  rewrite length_app, Nat2Z.inj_add, IH.
  destruct (_ =? 0), (misc_json_letter c), (c <? 32); simpl length; lia.
Qed.

#[export] Instance escape_uri_patched_two_pass :
  TwoPass (fun s => 2 * ngx_escape_uri_patched_count s) ngx_escape_uri_patched.
Proof. intros s. apply escape_uri_length. Qed.

#[export] Instance pg_utf_two_pass : TwoPass (fun s => pg_utf_count s - Z.of_nat (length s)) pg_utf_write.
Proof.
  intros s. induction s as [|d s IH]; [done|]. cbn [pg_utf_count pg_utf_write].
  rewrite length_app, Nat2Z.inj_add, IH. cbn [length].
  destruct (_ =? 0); simpl length; lia.
Qed.

(** An escaper that adds nothing copies its input. *)
Class Lazy (extra : bytes → Z) (write : bytes → bytes) : Prop :=
  lazy_copy (s : bytes) : extra s = 0 → write s = s.

Lemma escape_sql_count_pos (s : bytes) : 0 <= escape_sql_count s.
Proof. induction s as [|c s IH]; simpl; [lia|]. destruct (sql_escape_letter c); lia. Qed.

#[export] Instance escape_sql_lazy : Lazy escape_sql_count escape_sql_write.
Proof.
  intros s. induction s as [|c s IH]; [done|]. cbn [escape_sql_count escape_sql_write].
  pose proof (escape_sql_count_pos s). destruct (sql_escape_letter c); [lia|].
  intros. simpl. by rewrite IH.
Qed.

Lemma escape_json_count_pos (s : bytes) : 0 <= escape_json_count s.
Proof.
  induction s as [|c s IH]; simpl; [lia|]. destruct (_ =? 0), (misc_json_letter c), (c <? 32); lia.
Qed.

#[export] Instance escape_json_lazy : Lazy escape_json_count escape_json_write.
Proof.
  intros s. induction s as [|c s IH]; [done|]. cbn [escape_json_count escape_json_write].
  pose proof (escape_json_count_pos s).
  destruct (_ =? 0), (misc_json_letter c), (c <? 32); try lia; intros; simpl; by rewrite IH by lia.
Qed.

(** The final check of the quoting functions never fails. *)
Lemma quote_with_ok (count : bytes → Z) (write : bytes → bytes) `{!TwoPass count write}
    `{!Lazy count write} (q : Z) (s : bytes) :
  quote_with count write q true s = Some ([q] ++ write s ++ [q]).
Proof.
  unfold quote_with. cbv zeta. pose proof (two_pass (extra := count) (write := write) s) as H.
  destruct (Z.eqb_spec (count s) 0) as [E|E].
  - rewrite (lazy_copy (extra := count) (write := write) s E) in H |- *. rewrite !length_app. simpl length.
    by rewrite (proj2 (Z.eqb_eq _ _)) by lia.
  - rewrite !length_app. simpl length. by rewrite (proj2 (Z.eqb_eq _ _)) by lia.
Qed.

(** ** SQL *)

Lemma sql_letter_inv (c : Z) :
  is_byte c →
  match sql_escape_letter c with
  | Some e => SqlText.unescape_letter e = [c] ∧ is_byte e ∧ c < 0x80
  | None => c ≠ "'"%ch ∧ c ≠ "\"%ch
  end.
Proof.
  intros Hc. by apply (range_check_prop 256 (fun c =>
    match sql_escape_letter c with
    | Some e => SqlText.unescape_letter e = [c] ∧ is_byte e ∧ c < 0x80
    | None => c ≠ 39 ∧ c ≠ 92
    end)).
Qed.

Lemma escape_sql_bytes (s : bytes) : Forall is_byte s → Forall is_byte (escape_sql_write s).
Proof.
  induction 1 as [|c s Hc Hs IH]; [constructor|]. cbn [escape_sql_write]. apply Forall_app. split; [|done].
  pose proof (sql_letter_inv c Hc) as H. destruct (sql_escape_letter c) as [e|]; rewrite !Forall_cons; split_and!; try done; tauto.
Qed.

(** Bytes above ASCII are written as they are. *)
Lemma escape_sql_high (n : nat) (s rest : bytes) :
  Forall is_byte s → (n <= length (escape_sql_write s ++ "'"%ch :: rest))%nat →
  Forall (fun c => 0x80 <= c) (take n (escape_sql_write s ++ "'"%ch :: rest)) →
  (n <= length s)%nat ∧ escape_sql_write s = take n s ++ escape_sql_write (drop n s).
Proof.
  revert s. induction n as [|n IH]; intros s Hs Hl Hf; [split; [lia|done]|]. destruct s as [|c s]; [cbn in Hf; apply Forall_cons in Hf; lia|].
  apply Forall_cons in Hs as [Hc Hs]. cbn [escape_sql_write take drop length] in *. pose proof (sql_letter_inv c Hc) as H.
  destruct (sql_escape_letter c) as [e|]; cbn in Hl, Hf |- *; apply Forall_cons in Hf as [? Hf]; [lia|].
  destruct (IH s Hs) as [H1 H2]; [lia|done|]. split; [lia|]. by rewrite H2 at 1.
Qed.

Section Reader.
Context (my_ismbchar : bytes → nat) (Hcs : SqlText.ascii_transparent my_ismbchar).

(** The server reads back what was escaped, both when it looks for the end of the text and
    when it takes the value of it. *)
Lemma sql_text_read (n : nat) (s rest : bytes) (fuel fuel' : nat) :
  (length s <= n)%nat → Forall is_byte s → Forall is_byte rest → head rest ≠ Some "'"%ch →
  (length (escape_sql_write s) < fuel)%nat → (length (escape_sql_write s) <= fuel')%nat →
  SqlText.scan my_ismbchar fuel "'"%ch (escape_sql_write s ++ "'"%ch :: rest) = Some (escape_sql_write s, rest)
  ∧ SqlText.unescape my_ismbchar fuel' "'"%ch (escape_sql_write s) = s.
Proof.
  revert s fuel fuel'. induction n as [|n IH]; intros s fuel fuel' Hn Hs Hr Hh Hf Hf'; (destruct fuel as [|fuel]; [lia|]); destruct s as [|c s]; [|cbn in Hn; lia| |].
  1-2: split; [apply SqlText.scan_closed; try done; by constructor|by destruct fuel'].
  pose proof (escape_sql_bytes _ Hs) as Hw. apply Forall_cons in Hs as [Hc Hs]. cbn [escape_sql_write] in *. cbn [length] in Hn. pose proof (sql_letter_inv c Hc) as H.
  destruct (sql_escape_letter c) as [e|]; cbn [app length] in *; (destruct fuel' as [|fuel']; [lia|]).
  - destruct H as (H1 & H2 & H3). apply Forall_cons in Hw as [_ Hw]. rewrite SqlText.scan_escaped, SqlText.unescape_escaped, H1 by
      (done || (rewrite app_comm_cons; apply Forall_app; split; [done|by constructor])).
    destruct (IH s fuel fuel') as [-> ->]; [lia|done..|lia|lia|done].
  - destruct H as [H1 H2]. assert (Hb : Forall is_byte (c :: escape_sql_write s ++ "'"%ch :: rest)) by (rewrite app_comm_cons; apply Forall_app; split; [done|by constructor]).
    destruct (SqlText.read_char my_ismbchar Hcs "'"%ch c _ Hb H2 H1) as (k & K1 & K2 & -> & _). destruct (escape_sql_high k s rest Hs K1 K2) as [K3 K4].
    destruct (SqlText.read_char my_ismbchar Hcs "'"%ch c _ Hw H2 H1) as (j & J1 & J2 & _ & ->).
    destruct (escape_sql_high j s rest Hs) as [J3 J4]; [rewrite length_app; lia|by rewrite take_app_le|]. 
    assert (Hd : ∀ i, (i <= length s)%nat → escape_sql_write s = take i s ++ escape_sql_write (drop i s) →
      drop i (escape_sql_write s) = escape_sql_write (drop i s) ∧ take i (escape_sql_write s) = take i s ∧ (i <= length (escape_sql_write s))%nat).
    { intros i Hi E. rewrite E, length_app, length_take, drop_app_length', take_app_length' by (rewrite length_take; lia). split; [done|]. split; [done|lia]. }
    destruct (Hd k K3 K4) as (D1 & D2 & D3), (Hd j J3 J4) as (E1 & E2 & E3). rewrite drop_app_le, take_app_le, D1, D2, E1, E2 by lia.
    assert (Lk : (length (escape_sql_write (drop k s)) <= length (escape_sql_write s))%nat) by (rewrite <- D1, length_drop; lia).
    assert (Lj : (length (escape_sql_write (drop j s)) <= length (escape_sql_write s))%nat) by (rewrite <- E1, length_drop; lia).
    split.
    + destruct (IH (drop k s) fuel (length (escape_sql_write (drop k s)))) as [-> _]; [rewrite length_drop; lia|by apply Forall_drop|done..|lia|lia|].
      cbn. by rewrite <- K4.
    + destruct (IH (drop j s) (S (length (escape_sql_write (drop j s)))) fuel') as [_ ->]; [rewrite length_drop; lia|by apply Forall_drop|done..|lia|lia|].
      by rewrite take_drop.
Qed.

End Reader.

(** C40. A value that [set_quote_sql_str] has quoted cannot leave its quotes: in a
    character set whose multi-byte characters have no ASCII bytes in them, as UTF-8,
    the reader of string literals of the data base ([get_text] of
    drizzled/sql_lex.cc) reads exactly one literal, whose value is the value of the
    variable, and then the rest of the statement, unless this rest starts with a
    quote, which would make a doubled one. In other character sets it can (lemma
    quote_sql_gbk). *)
Theorem quote_sql_str_safe (my_ismbchar : bytes → nat) (v : variable_value) (rest : bytes) :
  SqlText.ascii_transparent my_ismbchar → Forall is_byte (v_data v) → Forall is_byte rest → head rest ≠ Some "'"%ch →
  ∃ q, ngx_http_set_misc_quote_sql_str true v = Some q
  ∧ SqlText.get_text my_ismbchar (q ++ rest) = Some (if v_not_found v then [] else v_data v, rest).
Proof.
  intros Hcs Hv Hr Hh. unfold ngx_http_set_misc_quote_sql_str.
  assert (Hq : ∀ s, Forall is_byte s → SqlText.get_text my_ismbchar (["'"%ch] ++ (escape_sql_write s ++ ["'"%ch]) ++ rest) = Some (s, rest)).
  { intros s Hs. cbn [app SqlText.get_text Z.eqb Pos.eqb]. rewrite <- app_assoc. cbn [app].
    destruct (sql_text_read my_ismbchar Hcs (length s) s rest (length (escape_sql_write s ++ 39 :: rest)) (length (escape_sql_write s))) as [-> E];
      [lia|done..|rewrite length_app; cbn; lia|lia|]. cbn. by rewrite E. }
  destruct (v_not_found v); [eexists; split; [done|apply (Hq []); constructor]|]. cbn [orb].
  destruct (Nat.eqb_spec (length (v_data v)) 0) as [E|E].
  - apply nil_length_inv in E. rewrite E. eexists. split; [done|]. apply (Hq []). constructor.
  - rewrite quote_with_ok by apply _. eexists. split; [done|]. rewrite <- app_assoc. by apply Hq.
Qed.

Lemma quote_sql_str_safe_witness :
  ∃ q, ngx_http_set_misc_quote_sql_str true (mk_value false (0xC3 :: 0xA9 :: bs "' OR 1=1 --")) = Some q
  ∧ SqlText.get_text SqlText.my_ismbchar_utf8mb4 (q ++ bs " LIMIT 1") = Some (0xC3 :: 0xA9 :: bs "' OR 1=1 --", bs " LIMIT 1").
Proof.
  apply (quote_sql_str_safe SqlText.my_ismbchar_utf8mb4 (mk_value false (0xC3 :: 0xA9 :: bs "' OR 1=1 --")) (bs " LIMIT 1"));
    [apply SqlText.utf8mb4_transparent|solve_bytes|solve_bytes|discriminate].
Defined.

(** A character set as GBK, in which a byte above ASCII and a backslash are one character:
    the backslash before a quote is taken away from it. *)
Lemma quote_sql_gbk :
  let gbk l := match l with c :: d :: _ => if (0x81 <=? c) && (c <=? 0xfe) && (0x40 <=? d) && (d <=? 0xfe) then 2%nat else 0%nat | _ => 0%nat end in
  (q ← ngx_http_set_misc_quote_sql_str true (mk_value false (0xbf :: bs "' OR 1=1 --"));
   SqlText.get_text gbk (q ++ bs " LIMIT 1")) = Some ([0xbf; "\"%ch], bs " OR 1=1 --' LIMIT 1").
Proof. by vm_compute. Qed.

(** ** JSON *)

Lemma misc_json_letter_inv (c : Z) :
  is_byte c →
  json_escapes c
    (if Z.land c 0x80 =? 0 then
       match misc_json_letter c with
       | Some e => ["\"%ch; e]
       | None =>
           if c <? 32
           then ["\"%ch; "u"%ch; "0"%ch; "0"%ch; hex_digit hex_lower (Z.shiftr c 4);
                 hex_digit hex_lower (Z.land c 15)]
           else [c]
       end
     else [c]).
Proof.
  intros Hc.
  assert (H : match misc_json_letter c with
              | Some e => e ≠ 117 ∧ json_unescape_char e = Some c ∧ Z.land c 128 = 0
              | None => c ≠ 92 ∧ c ≠ 34 ∧ (c < 32 → Z.land c 128 = 0)
              end).
  { by apply (range_check_prop 256 (fun c => match misc_json_letter c with
      | Some e => e ≠ 117 ∧ json_unescape_char e = Some c ∧ Z.land c 128 = 0
      | None => c ≠ 92 ∧ c ≠ 34 ∧ (c < 32 → Z.land c 128 = 0) end)). }
  unfold is_byte in Hc. destruct (misc_json_letter c) as [e|].
  - destruct H as (H1 & H2 & ->). by apply json_escapes_short.
  - destruct H as (H1 & H2 & H3). destruct (Z.eqb_spec (Z.land c 128) 0).
    + destruct (Z.ltb_spec c 32); [apply json_escapes_u, json_control; lia|].
      apply json_escapes_plain; lia.
    + apply json_escapes_plain; lia.
Qed.

(** [set_quote_json_str] gives a JSON string that decodes to the value, and
    [null] for a missing or empty one. *)
Theorem quote_json_str_roundtrip (v : variable_value) :
  Forall is_byte (v_data v) →
  ∃ q, ngx_http_set_misc_quote_json_str true v = Some q
       ∧ if v_not_found v || bool_decide (v_data v = []) then q = bs "null"
         else ∃ b, q = [34] ++ b ++ [34] ∧ json_body b = Some (v_data v).
Proof.
  intros Hv. unfold ngx_http_set_misc_quote_json_str.
  destruct (v_not_found v); cbn [orb]; [by eexists|].
  destruct (decide (v_data v = [])) as [->|E]; [by eexists|].
  rewrite bool_decide_eq_false_2, (proj2 (Nat.eqb_neq _ 0)) by (done || by destruct (v_data v)).
  rewrite quote_with_ok by apply _. eexists. split; [done|]. eexists. split; [done|]. clear E.
  induction Hv as [|d l Hd Hl IH]; [done|]. cbn [escape_json_write].
  by rewrite misc_json_letter_inv, IH.
Qed.

Lemma quote_json_str_roundtrip_witness :
  ∃ q b, ngx_http_set_misc_quote_json_str true (mk_value false [34; 1; 65]) = Some q
         ∧ q = [34] ++ b ++ [34] ∧ json_body b = Some [34; 1; 65].
Proof.
  destruct (quote_json_str_roundtrip (mk_value false [34; 1; 65])) as (q & H & b & Hb);
    [solve_bytes|]. by exists q, b.
Defined.

(** ** URIs *)

(** With type 0 the decoder never stops early. *)
Lemma unescape_consumes (plus : bool) (st : unescape_state) (s : bytes) :
  snd (unescape_loop plus 0 st s) = [].
Proof.
  assert (Hf : ∀ b, flag 0 b = false) by (by intros []).
  revert st. induction s as [|c s IH]; intros st; [done|].
  assert (He : ∀ l st', snd (let '(d, r) := unescape_loop plus 0 st' s in (l ++ d, r)) = []).
  { intros l st'. specialize (IH st'). by destruct (unescape_loop plus 0 st' s). }
  cbn [unescape_loop]. rewrite !Hf, andb_false_r. cbv zeta.
  destruct st; [destruct (unescape_usual plus c)|..]; split_ifs; apply He.
Qed.

(** [set_unescape_uri] inverts [set_escape_uri] on every value; and it never
    fails on its own, whatever the input: the check that the whole input was
    consumed always holds. *)
Theorem escape_uri_unescape_uri (v w : variable_value) :
  Forall is_byte (v_data v) →
  (∃ e, ngx_http_set_misc_escape_uri true v = Some e
        ∧ ngx_http_set_misc_unescape_uri true (mk_value false e) = Some (v_data v))
  ∧ is_Some (ngx_http_set_misc_unescape_uri true w).
Proof.
  intros Hv. split.
  - assert (Hx : ngx_unescape_uri_patched (ngx_escape_uri_patched (v_data v))
                   NGX_UNESCAPE_URI_COMPONENT = (v_data v, []))
      by (by apply unescape_escape).
    assert (Hcount : 2 * ngx_escape_uri_patched_count (v_data v) = 0 →
                     ngx_escape_uri_patched (v_data v) = v_data v).
    { clear. unfold ngx_escape_uri_patched_count, ngx_escape_uri_patched.
      assert (Hpos : ∀ s, 0 <= escape_uri_count patched_uri_tbl s).
      { intros s. induction s as [|c s IH]; cbn [escape_uri_count]; [lia|].
        destruct (bitmap_test _ c); lia. }
      induction (v_data v) as [|c s IH]; [done|]. cbn [escape_uri_count escape_uri_write].
      specialize (Hpos s). destruct (bitmap_test _ c); [lia|]. intros. by rewrite IH by lia. }
    exists (ngx_escape_uri_patched (v_data v)). split.
    + unfold ngx_http_set_misc_escape_uri. destruct (v_data v) eqn:E; [done|]. rewrite <- E in *.
      cbv zeta. destruct (Z.eqb_spec (2 * ngx_escape_uri_patched_count (v_data v)) 0); [|done].
      by rewrite Hcount.
    + unfold ngx_http_set_misc_unescape_uri. cbn [v_data]. by rewrite Hx.
  - unfold ngx_http_set_misc_unescape_uri, ngx_unescape_uri_patched.
    pose proof (unescape_consumes true sw_usual (v_data w)) as H.
    destruct (unescape_loop true NGX_UNESCAPE_URI_COMPONENT sw_usual (v_data w)) as [d r] eqn:E.
    change NGX_UNESCAPE_URI_COMPONENT with 0 in E. rewrite E in H. simpl in H. subst r. by eexists.
Qed.

Lemma escape_uri_unescape_uri_witness :
  (∃ e, ngx_http_set_misc_escape_uri true (mk_value false (bs "a+b c&d%")) = Some e
        ∧ ngx_http_set_misc_unescape_uri true (mk_value false e) = Some (bs "a+b c&d%"))
  ∧ is_Some (ngx_http_set_misc_unescape_uri true (mk_value false (bs "%zz+"))).
Proof.
  apply (escape_uri_unescape_uri (mk_value false (bs "a+b c&d%")) (mk_value false (bs "%zz+"))).
  solve_bytes.
Defined.

(** ** Hexadecimal *)

Lemma hextoi_byte (c : Z) :
  is_byte c →
  ngx_hextoi [hex_digit hex_lower (Z.shiftr c 4); hex_digit hex_lower (Z.land c 15)] = c.
Proof.
  intros Hc. by apply (range_check_prop 256 (fun c =>
    ngx_hextoi [hex_digit hex_lower (Z.shiftr c 4); hex_digit hex_lower (Z.land c 15)] = c)).
Qed.

(** [set_decode_hex] inverts [set_encode_hex]. *)
Theorem encode_hex_decode_hex (v : variable_value) :
  Forall is_byte (v_data v) →
  ∃ e, ngx_http_set_misc_set_encode_hex true v = Some e
       ∧ ngx_http_set_misc_set_decode_hex true (mk_value false e) = Some (v_data v).
Proof.
  intros Hv. eexists. split; [done|]. unfold ngx_http_set_misc_set_decode_hex. cbn [v_data].
  assert (Hlen : (length (ngx_hex_dump (v_data v)) mod 2 = 0)%nat).
  { clear. replace (length _) with (length (v_data v) * 2)%nat; [by rewrite Nat.Div0.mod_mul|].
    induction (v_data v) as [|c s IH]; simpl; lia. }
  rewrite Hlen. cbn [Nat.eqb negb]. clear Hlen.
  induction Hv as [|c s Hc Hs IH]; [done|]. cbn [ngx_hex_dump decode_hex].
  rewrite hextoi_byte by done. unfold is_byte in Hc.
  rewrite (proj2 (Z.eqb_neq c NGX_ERROR)) by (unfold NGX_ERROR; lia).
  replace (c >? 255) with false by lia. cbn [orb]. rewrite IH, u_char_id by (unfold is_byte; lia). done.
Qed.

Lemma encode_hex_decode_hex_witness :
  ∃ e, ngx_http_set_misc_set_encode_hex true (mk_value false [0; 171; 255]) = Some e
       ∧ ngx_http_set_misc_set_decode_hex true (mk_value false e) = Some [0; 171; 255].
Proof. apply (encode_hex_decode_hex (mk_value false [0; 171; 255])). solve_bytes. Defined.

(** ** UTF-8 in PostgreSQL strings *)

(** The well-formed sequences of RFC 3629. *)
Definition cont (a : Z) : Prop := 0x80 <= a <= 0xBF.

Definition utf8_seq (s : bytes) : Prop :=
  match s with
  | [a] => 0 <= a <= 0x7F
  | [a; b] => 0xC2 <= a <= 0xDF ∧ cont b
  | [a; b; c] =>
      0xE0 <= a <= 0xEF ∧ cont b ∧ cont c ∧ (a = 0xE0 → 0xA0 <= b) ∧ (a = 0xED → b <= 0x9F)
  | [a; b; c; d] =>
      0xF0 <= a <= 0xF4 ∧ cont b ∧ cont c ∧ cont d ∧ (a = 0xF0 → 0x90 <= b)
      ∧ (a = 0xF4 → b <= 0x8F)
  | _ => False
  end.

Lemma pg_mblen_seq (s : bytes) :
  utf8_seq s →
  ∃ c r, s = c :: r ∧ ngx_http_pg_utf_mblen c = length s
         ∧ ∀ l, pg_bad (length s) (s ++ l) = false.
Proof.
  assert (Hlen : ∀ c, is_byte c →
    (c <= 127 → ngx_http_pg_utf_mblen c = 1%nat)
    ∧ (194 <= c <= 223 → ngx_http_pg_utf_mblen c = 2%nat)
    ∧ (224 <= c <= 239 → ngx_http_pg_utf_mblen c = 3%nat)
    ∧ (240 <= c <= 244 → ngx_http_pg_utf_mblen c = 4%nat)).
  { intros c Hc. by apply (range_check_prop 256 (fun c =>
      (c <= 127 → ngx_http_pg_utf_mblen c = 1%nat)
      ∧ (194 <= c <= 223 → ngx_http_pg_utf_mblen c = 2%nat)
      ∧ (224 <= c <= 239 → ngx_http_pg_utf_mblen c = 3%nat)
      ∧ (240 <= c <= 244 → ngx_http_pg_utf_mblen c = 4%nat))). }
  unfold is_byte in Hlen. intros Hs.
  destruct s as [|a [|b [|c [|d [|e s]]]]]; try done; simpl in Hs; exists a; eexists;
    (split; [done|]); unfold cont in Hs; destruct (Hlen a ltac:(lia)) as (H1 & H2 & H3 & H4);
    (split; [simpl; auto with lia|]); intros l; simpl; unfold pg_second_bad, outside;
    cbn [lookup_total list_lookup_total app]; split_ifs; lia.
Qed.

(** Text that is valid UTF-8 is never rewritten by [set_quote_pgsql_str]. *)
Lemma pg_islegal_complete (seqs : list bytes) :
  Forall utf8_seq seqs → ngx_http_pg_utf_islegal (concat seqs) = true.
Proof.
  intros Hs. unfold ngx_http_pg_utf_islegal.
  assert (H : ∀ fuel, (length (concat seqs) <= fuel)%nat → pg_utf_islegal fuel (concat seqs) = true).
  { induction Hs as [|s seqs Hs Hseqs IH]; intros fuel Hf; [by destruct fuel|].
    destruct (pg_mblen_seq s Hs) as (c & r & -> & Hl & Hb). simpl in Hf |- *.
    destruct fuel as [|fuel]; [lia|]. cbn [pg_utf_islegal]. rewrite Hl.
    specialize (Hb (concat seqs)). cbn [app length] in *. rewrite length_app in *.
    destruct (Nat.ltb_spec (S (length r + length (concat seqs))) (S (length r))); [lia|].
    rewrite Hb. cbn [drop]. rewrite drop_app_length. apply IH. lia. }
  by apply H.
Qed.

(** [set_quote_pgsql_str] passes valid UTF-8 on as an [E''] string, and turns a
    value it considers malformed into pure ASCII. *)
Theorem quote_pgsql_str_spec (v : variable_value) (q : bytes) :
  v_not_found v = false → v_data v ≠ [] →
  ngx_http_set_misc_quote_sql_str true v = Some q →
  ngx_http_set_misc_quote_pgsql_str true v
  = Some (if ngx_http_pg_utf_islegal ("E"%ch :: q) then "E"%ch :: q else pg_utf_write ("E"%ch :: q))
  ∧ ((∃ seqs, "E"%ch :: q = concat seqs ∧ Forall utf8_seq seqs) →
     ngx_http_set_misc_quote_pgsql_str true v = Some ("E"%ch :: q))
  ∧ (Forall is_byte q → Forall (fun c => 0 <= c < 128) (pg_utf_write ("E"%ch :: q))).
Proof.
  intros Hnf Hne Hq. unfold ngx_http_set_misc_quote_pgsql_str. rewrite Hnf, Hq. cbn [orb].
  destruct (Nat.eqb_spec (length (v_data v)) 0) as [E|E]; [by apply nil_length_inv in E|].
  split; [by destruct (ngx_http_pg_utf_islegal _)|]. split.
  - intros (seqs & -> & Hs). by rewrite pg_islegal_complete.
  - intros Hb. assert (Hb' : Forall is_byte (69 :: q)) by (by constructor).
    revert Hb'. generalize (69 :: q). clear.
    induction 1 as [|c s Hc Hs IH]; [constructor|]. cbn [pg_utf_write].
    apply Forall_app. split; [|done].
    assert (H : Forall (fun c => 0 <= c < 128)
      (if negb (Z.land c 128 =? 0)
       then [92; 92; Z.shiftr c 6 + 48; Z.land (Z.shiftr c 3) 7 + 48; Z.land c 7 + 48] else [c])).
    { by apply (range_check_prop 256 (fun c => Forall (fun c => 0 <= c < 128)
        (if negb (Z.land c 128 =? 0)
         then [92; 92; Z.shiftr c 6 + 48; Z.land (Z.shiftr c 3) 7 + 48; Z.land c 7 + 48] else [c]))). }
    done.
Qed.

Lemma quote_pgsql_str_spec_witness :
  ngx_http_set_misc_quote_pgsql_str true (mk_value false [0xC3; 0x28])
  = Some (pg_utf_write ("E"%ch :: "'"%ch :: [0xC3; 0x28; "'"%ch])).
Proof.
  destruct (quote_pgsql_str_spec (mk_value false [0xC3; 0x28]) ("'"%ch :: [0xC3; 0x28; "'"%ch]))
    as (H & _); done.
Defined.

(** The check is too lenient, because the cases of its [switch] do not fall
    through as their order suggests: an overlong two-byte sequence, a three-byte
    sequence whose second byte is a letter and a surrogate are all legal. *)
Theorem pg_islegal_lenient :
  ngx_http_pg_utf_islegal [0xC0; 0x80] = true
  ∧ ngx_http_pg_utf_islegal [0xE4; "a"%ch; 0x80] = true
  ∧ ngx_http_pg_utf_islegal [0xED; 0xA0; 0x80] = true.
Proof. by vm_compute. Qed.

(** ** Rotation and random numbers *)

Lemma sprintf_atoi (n : Z) :
  0 <= n <= NGX_MAX_INT_T_VALUE → ngx_atoi (sprintf_i n) = n.
Proof.
  intros Hn. unfold NGX_MAX_INT_T_VALUE in Hn.
  destruct (sprintf_num_digits_dec n ltac:(lia)) as (Hne & Hd & Hv & _).
  unfold sprintf_i. rewrite atoi_decimal, decide_True; [done|].
  split; [done|]. split; [done|]. rewrite Hv. unfold NGX_MAX_INT_T_VALUE. lia.
Qed.

(** [n] requests in a row that leave the current value to the module. *)
Fixpoint rotate_n (n : nat) (current : Z) (from to : bytes) : Z :=
  match n with
  | O => current
  | S n => snd (ngx_http_set_misc_set_rotate true (rotate_n n current from to) [] from to)
  end.

(** The bounds are taken in order. *)
Lemma in_order (lo hi : Z) :
  lo <= hi →
  (if lo >? hi then (hi, lo) else (lo, hi)) = (lo, hi)
  ∧ (if hi >? lo then (lo, hi) else (hi, lo)) = (lo, hi).
Proof.
  intros H. split; [by replace (lo >? hi) with false by lia|].
  destruct (hi >? lo) eqn:E; [done|]. by replace hi with lo by lia.
Qed.

Section Rotate.
Context (lo hi : Z) (Hlo : 0 <= lo <= hi) (Hhi : hi <= NGX_MAX_INT_T_VALUE).

Let from := sprintf_i lo.
Let to := sprintf_i hi.

Lemma rotate_bounds :
  ngx_atoi from = lo ∧ ngx_atoi to = hi ∧ (lo =? NGX_ERROR) = false ∧ (hi =? NGX_ERROR) = false.
Proof.
  unfold from, to. rewrite !sprintf_atoi by lia. unfold NGX_ERROR.
  split_and!; [done..| |]; apply Z.eqb_neq; lia.
Qed.

Lemma rotate_bounded (current : Z) (num : bytes) :
  ∃ k, ngx_http_set_misc_set_rotate true current num from to = (Some (sprintf_i k), k)
       ∧ ngx_http_set_misc_set_rotate true current num to from = (Some (sprintf_i k), k)
       ∧ lo <= k <= hi.
Proof.
  set (fallback := if negb (current =? NGX_CONF_UNSET) then current else lo - 1).
  set (c := match num with [] => fallback
            | _ => if ngx_atoi num =? NGX_ERROR then fallback else ngx_atoi num end).
  set (d := wrap_s 64 (c + 1)).
  exists (if (d >? hi) || (d <? lo) then lo else d).
  unfold ngx_http_set_misc_set_rotate. destruct rotate_bounds as (-> & -> & -> & ->).
  destruct (in_order lo hi ltac:(lia)) as [-> ->].
  split; [done|]. split; [done|]. split_ifs; lia.
Qed.

Lemma rotate_step (c : Z) :
  c = NGX_CONF_UNSET ∨ lo <= c <= hi →
  snd (ngx_http_set_misc_set_rotate true c [] from to)
  = if (c =? NGX_CONF_UNSET) || (c =? hi) then lo else c + 1.
Proof.
  intros Hc. unfold NGX_MAX_INT_T_VALUE, NGX_CONF_UNSET in *.
  unfold ngx_http_set_misc_set_rotate, NGX_CONF_UNSET.
  destruct rotate_bounds as (-> & -> & -> & ->).
  replace (lo >? hi) with false by lia. cbn [snd].
  destruct (Z.eqb_spec c (-1)) as [->|]; cbn [negb orb].
  - rewrite Z.sub_add, wrap_s_id by lia. split_ifs; lia.
  - destruct (decide (c = 9223372036854775807)) as [->|].
    + change (wrap_s 64 (9223372036854775807 + 1)) with (-9223372036854775808). split_ifs; lia.
    + rewrite wrap_s_id by lia. split_ifs; lia.
Qed.

Lemma rotate_walk (n : nat) :
  rotate_n (S n) NGX_CONF_UNSET from to = lo + Z.of_nat n mod (hi - lo + 1).
Proof.
  induction n as [|n IH].
  { cbn [rotate_n]. rewrite rotate_step by (by left). cbn. by rewrite Z.add_0_r. }
  set (r := rotate_n (S n) NGX_CONF_UNSET from to) in *.
  change (rotate_n (S (S n)) NGX_CONF_UNSET from to)
    with (snd (ngx_http_set_misc_set_rotate true r [] from to)).
  pose proof (Z.mod_pos_bound (Z.of_nat n) (hi - lo + 1) ltac:(lia)) as Hm.
  rewrite rotate_step by (right; lia). rewrite (proj2 (Z.eqb_neq r _)) by (unfold NGX_CONF_UNSET; lia).
  cbn [orb]. rewrite Nat2Z.inj_succ, <- Z.add_1_r, Z.add_mod by lia.
  destruct (decide (hi = lo)) as [E|Hne].
  { rewrite E, Z.sub_diag in *. cbn [Z.add] in *. rewrite Z.mod_1_r in *. split_ifs; lia. }
  rewrite (Z.mod_small 1) by lia. destruct (Z.eqb_spec r hi).
  - replace (Z.of_nat n mod (hi - lo + 1)) with (hi - lo) by lia.
    rewrite Z.mod_same by lia. lia.
  - rewrite Z.mod_small by lia. lia.
Qed.

End Rotate.

(** Whatever the saved and the given current value are, [set_rotate] gives a
    number between its bounds, and saves it; and with no value given it walks round
    the interval: the [n]-th request gets [from + (n - 1) mod size]. *)
Theorem rotate_cycles (current : Z) (num : bytes) (lo hi : Z) (n : nat) :
  0 <= lo <= hi → hi <= NGX_MAX_INT_T_VALUE →
  let from := sprintf_i lo in
  let to := sprintf_i hi in
  (∃ k, ngx_http_set_misc_set_rotate true current num from to = (Some (sprintf_i k), k)
        ∧ ngx_http_set_misc_set_rotate true current num to from = (Some (sprintf_i k), k)
        ∧ lo <= k <= hi)
  ∧ rotate_n (S n) NGX_CONF_UNSET from to = lo + Z.of_nat n mod (hi - lo + 1).
Proof. intros Hlo Hhi. split; [by apply rotate_bounded|by apply rotate_walk]. Qed.

Lemma rotate_cycles_witness :
  (∃ k, ngx_http_set_misc_set_rotate true 3 [] (sprintf_i 2) (sprintf_i 4) = (Some (sprintf_i k), k)
        ∧ ngx_http_set_misc_set_rotate true 3 [] (sprintf_i 4) (sprintf_i 2) = (Some (sprintf_i k), k)
        ∧ 2 <= k <= 4)
  ∧ rotate_n 4 NGX_CONF_UNSET (sprintf_i 2) (sprintf_i 4) = 2 + Z.of_nat 3 mod (4 - 2 + 1).
Proof. apply (rotate_cycles 3 [] 2 4 3); unfold NGX_MAX_INT_T_VALUE; lia. Defined.

(** [set_random] gives a number between its bounds, in either order, for every
    value [rand] can return, even when the size of the interval overflows. *)
Theorem random_in_range (rand lo hi : Z) :
  0 <= rand < 2 ^ 31 → 0 <= lo <= hi → hi <= NGX_MAX_INT_T_VALUE →
  ∃ k, ngx_http_set_misc_set_random true rand (sprintf_i lo) (sprintf_i hi) = Some (sprintf_i k)
       ∧ ngx_http_set_misc_set_random true rand (sprintf_i hi) (sprintf_i lo) = Some (sprintf_i k)
       ∧ lo <= k <= hi.
Proof.
  intros Hr Hlo Hhi. unfold ngx_http_set_misc_set_random.
  rewrite !sprintf_atoi by lia. unfold NGX_MAX_INT_T_VALUE in *.
  rewrite !(proj2 (Z.eqb_neq lo NGX_ERROR)), !(proj2 (Z.eqb_neq hi NGX_ERROR))
    by (unfold NGX_ERROR; lia).
  destruct (in_order lo hi ltac:(lia)) as [-> ->]. eexists. split; [done|]. split; [done|].
  change (2 ^ 31) with 2147483648 in Hr.
  destruct (decide (hi - lo + 1 = 9223372036854775808)) as [E|].
  - rewrite E. change (wrap_s 64 9223372036854775808) with (- (9223372036854775808)).
    rewrite Z.rem_opp_r by done. rewrite Z.rem_small by lia. lia.
  - rewrite wrap_s_id by lia. pose proof (Z.rem_bound_pos rand (hi - lo + 1)). lia.
Qed.

Lemma random_in_range_witness :
  ∃ k, ngx_http_set_misc_set_random true 2147483647 (sprintf_i 3) (sprintf_i 10) = Some (sprintf_i k)
       ∧ ngx_http_set_misc_set_random true 2147483647 (sprintf_i 10) (sprintf_i 3) = Some (sprintf_i k)
       ∧ 3 <= k <= 10.
Proof. apply (random_in_range 2147483647 3 10); unfold NGX_MAX_INT_T_VALUE; lia. Defined.

(** [set_secure_random_alphanum] and [_lcalpha] give as many characters as asked
    for, all from the alphabet, and refuse lengths outside 1 .. 64; a short read
    is an error on which the descriptor stays open. *)
Theorem secure_random_spec (t : alphabet_type) (entropy : bytes) (n : Z) (short : bytes) :
  1 <= n <= 64 → Forall is_byte entropy → Z.of_nat (length entropy) = n →
  Z.of_nat (length short) ≠ n →
  let run e := ngx_http_set_misc_set_secure_random_common t true (fun _ => Some e) (sprintf_i n) in
  (∃ r, run entropy = (Some r, true) ∧ length r = length entropy
        ∧ Forall (fun c => c ∈ random_alphabet) r)
  ∧ run short = (None, false).
Proof.
  intros Hn He Hl Hs run. unfold run, ngx_http_set_misc_set_secure_random_common.
  rewrite sprintf_atoi by (unfold NGX_MAX_INT_T_VALUE; lia).
  replace ((n =? NGX_ERROR) || (n <? 1) || (n >? MAX_RANDOM_STRING)) with false
    by (unfold NGX_ERROR, MAX_RANDOM_STRING; lia).
  rewrite (proj2 (Z.eqb_eq _ n)), (proj2 (Z.eqb_neq (Z.of_nat (length short)) n)) by done.
  split; [|done]. eexists. split; [done|]. split; [apply length_map|].
  apply Forall_map. eapply Forall_impl; [exact He|]. intros e Hb. simpl.
  assert (H : random_char LCALPHA e ∈ random_alphabet ∧ random_char ALPHANUM e ∈ random_alphabet).
  { by apply (range_check_prop 256 (fun e => random_char LCALPHA e ∈ random_alphabet
                                             ∧ random_char ALPHANUM e ∈ random_alphabet)). }
  destruct t; by destruct H.
Qed.

Lemma secure_random_spec_witness :
  ngx_http_set_misc_set_secure_random_common ALPHANUM true (fun _ => Some [7]) (sprintf_i 2)
  = (None, false).
Proof.
  destruct (secure_random_spec ALPHANUM [200; 61] 2 [7]) as [_ H]; [lia|solve_bytes|done..|].
  exact H.
Defined.
