(* ===== verification/SetBase32.v ===== *)
(** * set_encode_base32, set_decode_base32

    src/set-misc-nginx-module-master/src/ngx_http_set_base32.c, and the code of
    ngx_http_set_misc_module.c that builds the decoding table from the configured
    alphabet.  The table is not initialised before the 32 entries of the
    alphabet are written: its old contents are an argument. *)

From S2P Require Import Prelude NgxBase64 SetMisc.

Open Scope Z_scope.

Definition BASE32_ALPHABET_LEN : nat := 32.

(** ** The configuration *)

Definition default_alphabet : bytes := bs "0123456789abcdefghijklmnopqrstuv".

(** The directive [set_base32_alphabet]; [None] is [NGX_CONF_ERROR]. *)
Definition ngx_http_set_misc_base32_alphabet (value : bytes) : option bytes :=
  if negb (length value =? BASE32_ALPHABET_LEN)%nat then None else Some value.

(** The loop of [ngx_http_set_misc_merge_loc_conf] over the alphabet, from its
    [i]-th byte on. *)
Fixpoint fill_basis32 (i : Z) (alphabet : bytes) (basis32 : list Z) : list Z :=
  match alphabet with
  | [] => basis32
  | c :: alphabet => fill_basis32 (i + 1) alphabet (<[Z.to_nat c := u_char i]> basis32)
  end.

Record set_misc_conf := mk_misc_conf {
  base32_padding : bool;
  base32_alphabet : bytes;
  basis32 : list Z;
  misc_current : Z              (* conf->current, the state of set_rotate *)
}.

(** [conf] and [prev] as [ngx_conf_merge_value] and [ngx_conf_merge_str_value]
    merge them, an unset value being [None] or [NGX_CONF_UNSET]; [memory] is what
    [conf->basis32] holds. *)
Definition ngx_http_set_misc_merge_loc_conf (padding prev_padding : option bool)
    (alphabet prev_alphabet : option bytes) (current prev_current : Z) (memory : list Z)
    : set_misc_conf :=
  let merged := match alphabet with
                | Some a => a
                | None => default default_alphabet prev_alphabet
                end in
  mk_misc_conf
    (match padding with Some p => p | None => default true prev_padding end)
    merged (fill_basis32 0 merged memory)
    (if current =? NGX_CONF_UNSET then prev_current else current).

(** ** encode_base32 *)

Definition basis (tbl : list Z) (i : Z) : Z := tbl !!! Z.to_nat i.

Definition pad (padding : bool) (n : nat) : bytes := if padding then replicate n "="%ch else [].

Fixpoint encode_base32 (s : bytes) (padding : bool) (a : bytes) : bytes :=
  match s with
  | s0 :: s1 :: s2 :: s3 :: s4 :: s' =>
      basis a (Z.shiftr s0 3)
      :: basis a (Z.lor (Z.shiftl (Z.land s0 0x07) 2) (Z.shiftr s1 6))
      :: basis a (Z.land (Z.shiftr s1 1) 0x1f)
      :: basis a (Z.lor (Z.shiftl (Z.land s1 1) 4) (Z.shiftr s2 4))
      :: basis a (Z.lor (Z.shiftl (Z.land s2 0x0f) 1) (Z.shiftr s3 7))
      :: basis a (Z.land (Z.shiftr s3 2) 0x1f)
      :: basis a (Z.lor (Z.shiftl (Z.land s3 0x03) 3) (Z.shiftr s4 5))
      :: basis a (Z.land s4 0x1f)
      :: encode_base32 s' padding a
  | [s0; s1; s2; s3] =>
      [basis a (Z.shiftr s0 3);
       basis a (Z.lor (Z.shiftl (Z.land s0 0x07) 2) (Z.shiftr s1 6));
       basis a (Z.land (Z.shiftr s1 1) 0x1f);
       basis a (Z.lor (Z.shiftl (Z.land s1 1) 4) (Z.shiftr s2 4));
       basis a (Z.lor (Z.shiftl (Z.land s2 0x0f) 1) (Z.shiftr s3 7));
       basis a (Z.land (Z.shiftr s3 2) 0x1f);
       basis a (Z.shiftl (Z.land s3 0x03) 3)] ++ pad padding 1
  | [s0; s1; s2] =>
      [basis a (Z.shiftr s0 3);
       basis a (Z.lor (Z.shiftl (Z.land s0 0x07) 2) (Z.shiftr s1 6));
       basis a (Z.land (Z.shiftr s1 1) 0x1f);
       basis a (Z.lor (Z.shiftl (Z.land s1 1) 4) (Z.shiftr s2 4));
       basis a (Z.shiftl (Z.land s2 0x0f) 1)] ++ pad padding 3
  | [s0; s1] =>
      [basis a (Z.shiftr s0 3);
       basis a (Z.lor (Z.shiftl (Z.land s0 0x07) 2) (Z.shiftr s1 6));
       basis a (Z.land (Z.shiftr s1 1) 0x1f);
       basis a (Z.shiftl (Z.land s1 1) 4)] ++ pad padding 4
  | [s0] =>
      [basis a (Z.shiftr s0 3); basis a (Z.shiftl (Z.land s0 0x07) 2)] ++ pad padding 6
  | [] => []
  end.

Definition base32_encoded_length (len : Z) : Z := (len + 4) / 5 * 8.
Definition base32_decoded_length (len : Z) : Z := (len + 7) / 8 * 5.

Definition ngx_http_set_misc_encode_base32 (alloc : bool) (conf : set_misc_conf) (v : bytes)
    : option bytes :=
  if alloc then Some (encode_base32 v (base32_padding conf) (base32_alphabet conf)) else None.

(** ** decode_base32 *)

(** The first loop: the length up to the padding; [None] is an invalid byte. *)
Fixpoint decode_base32_len (b : list Z) (s : bytes) : option nat :=
  match s with
  | [] => Some 0%nat
  | c :: s =>
      if c =? "="%ch then Some 0%nat
      else if basis b c =? 77 then None
      else S <$> decode_base32_len b s
  end.

(** The bytes that digits [v0 ..] give. *)
Definition out0 (v0 v1 : Z) : Z := u_char (Z.lor (Z.shiftl v0 3) (Z.land (Z.shiftr v1 2) 0x07)).
Definition out1 (v1 v2 v3 : Z) : Z :=
  u_char (Z.lor (Z.lor (Z.shiftl (Z.land v1 0x03) 6) (Z.shiftl v2 1)) (Z.land (Z.shiftr v3 4) 1)).
Definition out2 (v3 v4 : Z) : Z :=
  u_char (Z.lor (Z.shiftl (Z.land v3 0x0f) 4) (Z.land (Z.shiftr v4 1) 0x0f)).
Definition out3 (v4 v5 v6 : Z) : Z :=
  u_char (Z.lor (Z.lor (Z.shiftl (Z.land v4 1) 7) (Z.shiftl (Z.land v5 0x1f) 2))
            (Z.land (Z.shiftr v6 3) 0x03)).
Definition out4 (v6 v7 : Z) : Z :=
  u_char (Z.lor (Z.shiftl (Z.land v6 0x07) 5) (Z.land v7 0x1f)).

Fixpoint decode_base32_loop (b : list Z) (s : bytes) : bytes :=
  let v c := basis b c in
  match s with
  | s0 :: s1 :: s2 :: s3 :: s4 :: s5 :: s6 :: s7 :: s' =>
      out0 (v s0) (v s1) :: out1 (v s1) (v s2) (v s3) :: out2 (v s3) (v s4)
      :: out3 (v s4) (v s5) (v s6) :: out4 (v s6) (v s7) :: decode_base32_loop b s'
  | s0 :: s1 :: s2 :: s3 :: s4 :: s5 :: s6 :: _ =>
      [out0 (v s0) (v s1); out1 (v s1) (Z.land (v s2) 0x1f) (v s3); out2 (v s3) (v s4);
       out3 (v s4) (v s5) (v s6)]
  | s0 :: s1 :: s2 :: s3 :: s4 :: _ =>
      [out0 (v s0) (v s1); out1 (v s1) (Z.land (v s2) 0x1f) (v s3); out2 (v s3) (v s4)]
  | s0 :: s1 :: s2 :: s3 :: _ => [out0 (v s0) (v s1); out1 (v s1) (Z.land (v s2) 0x1f) (v s3)]
  | s0 :: s1 :: _ => [out0 (v s0) (v s1)]
  | _ => []
  end.

(** [None] is the return value -1. *)
Definition decode_base32 (s : bytes) (b : list Z) : option bytes :=
  match decode_base32_len b s with
  | None => None
  | Some len =>
      let md := (len mod 8)%nat in
      if (md =? 1)%nat || (md =? 3)%nat || (md =? 6)%nat then None
      else Some (decode_base32_loop b (take len s))
  end.

(** A string that cannot be decoded gives the empty string, not an error. *)
Definition ngx_http_set_misc_decode_base32 (alloc : bool) (conf : set_misc_conf) (v : bytes)
    : option bytes :=
  if alloc then
    match decode_base32 v (basis32 conf) with
    | Some r => Some r
    | None => Some []
    end
  else None.

(** * Theorems *)

(** ** The decoding table *)

Lemma fill_other (i : Z) (a : bytes) (tbl : list Z) (c : Z) :
  is_byte c → Forall is_byte a → c ∉ a →
  basis (fill_basis32 i a tbl) c = basis tbl c.
Proof.
  intros Hc Ha. revert i tbl. induction Ha as [|d a Hd Ha IH]; intros i tbl Hn; [done|].
  apply not_elem_of_cons in Hn as [Hne Hn]. cbn [fill_basis32]. rewrite IH by done.
  unfold basis. apply list_lookup_total_insert_ne. unfold is_byte in *. lia.
Qed.

Lemma fill_inv (i : Z) (a : bytes) (tbl : list Z) (j : nat) (c : Z) :
  Forall is_byte a → NoDup a → length tbl = 256%nat → 0 <= i → i + Z.of_nat (length a) <= 256 →
  a !! j = Some c → basis (fill_basis32 i a tbl) c = i + Z.of_nat j.
Proof.
  intros Ha. revert i tbl j. induction Ha as [|d a Hd Ha IH]; intros i tbl j Hnd Ht Hi Hl Hj; [done|].
  apply NoDup_cons in Hnd as [Hn Hnd]. cbn [fill_basis32 length] in *.
  destruct j as [|j]; simpl in Hj.
  - injection Hj as ->. rewrite fill_other by done. unfold basis.
    rewrite list_lookup_total_insert_eq by (unfold is_byte in *; lia).
    rewrite u_char_id by (unfold is_byte; lia). lia.
  - rewrite (IH (i + 1) _ j) by (rewrite ?length_insert; done || lia). lia.
Qed.

(** What the loops rely on. *)
Definition alphabet_ok (a : bytes) (b : list Z) : Prop :=
  ∀ v, 0 <= v < 32 → basis b (basis a v) = v ∧ basis a v ≠ "="%ch.

Lemma merge_alphabet_ok (a : bytes) (memory : list Z) :
  length a = BASE32_ALPHABET_LEN → Forall is_byte a → NoDup a → "="%ch ∉ a →
  length memory = 256%nat → alphabet_ok a (fill_basis32 0 a memory).
Proof.
  intros Hl Hb Hnd Hpad Hm v Hv. unfold BASE32_ALPHABET_LEN in Hl.
  destruct (lookup_lt_is_Some_2 a (Z.to_nat v)) as [c Hc]; [lia|].
  assert (E : basis a v = c) by (by apply list_lookup_total_correct). rewrite E. split.
  - rewrite (fill_inv 0 a memory (Z.to_nat v) c) by (done || lia). lia.
  - intros ->. apply Hpad. by eapply list_elem_of_lookup_2.
Qed.

(** ** The digits of a string *)

(** The quotients [encode_base32] looks up; [k] is what the next byte adds. *)
Definition dig1 (s k : Z) : Z := Z.lor (Z.shiftl (Z.land s 0x07) 2) k.
Definition dig3 (s k : Z) : Z := Z.lor (Z.shiftl (Z.land s 1) 4) k.
Definition dig4 (s k : Z) : Z := Z.lor (Z.shiftl (Z.land s 0x0f) 1) k.
Definition dig6 (s k : Z) : Z := Z.lor (Z.shiftl (Z.land s 0x03) 3) k.
Definition dig2 (s : Z) : Z := Z.land (Z.shiftr s 1) 0x1f.
Definition dig5 (s : Z) : Z := Z.land (Z.shiftr s 2) 0x1f.

Fixpoint digits32 (s : bytes) : list Z :=
  match s with
  | s0 :: s1 :: s2 :: s3 :: s4 :: s' =>
      Z.shiftr s0 3 :: dig1 s0 (Z.shiftr s1 6) :: dig2 s1 :: dig3 s1 (Z.shiftr s2 4)
      :: dig4 s2 (Z.shiftr s3 7) :: dig5 s3 :: dig6 s3 (Z.shiftr s4 5) :: Z.land s4 0x1f
      :: digits32 s'
  | [s0; s1; s2; s3] =>
      [Z.shiftr s0 3; dig1 s0 (Z.shiftr s1 6); dig2 s1; dig3 s1 (Z.shiftr s2 4);
       dig4 s2 (Z.shiftr s3 7); dig5 s3; dig6 s3 0]
  | [s0; s1; s2] =>
      [Z.shiftr s0 3; dig1 s0 (Z.shiftr s1 6); dig2 s1; dig3 s1 (Z.shiftr s2 4); dig4 s2 0]
  | [s0; s1] => [Z.shiftr s0 3; dig1 s0 (Z.shiftr s1 6); dig2 s1; dig3 s1 0]
  | [s0] => [Z.shiftr s0 3; dig1 s0 0]
  | [] => []
  end.

(** Strings five bytes at a time. *)
Lemma five_ind (P : bytes → Prop) :
  P [] → (∀ a, P [a]) → (∀ a b, P [a; b]) → (∀ a b c, P [a; b; c]) →
  (∀ a b c d, P [a; b; c; d]) →
  (∀ a b c d e s, P s → P (a :: b :: c :: d :: e :: s)) → ∀ s, P s.
Proof.
  intros H0 H1 H2 H3 H4 H5. fix IH 1.
  intros [|a [|b [|c [|d [|e s]]]]]; [apply H0|apply H1|apply H2|apply H3|apply H4|].
  apply H5, IH.
Qed.

(** The padding of the last group. *)
Definition pad_count (n : nat) : nat :=
  match (n mod 5)%nat with 1 => 6 | 2 => 4 | 3 => 3 | 4 => 1 | _ => 0 end%nat.

Lemma pad_count_5 (n : nat) : pad_count (5 + n) = pad_count n.
Proof.
  unfold pad_count. replace (5 + n)%nat with (n + 1 * 5)%nat by lia.
  by rewrite Nat.Div0.mod_add.
Qed.

Lemma encode_digits (s : bytes) (p : bool) (a : bytes) :
  encode_base32 s p a = map (basis a) (digits32 s) ++ pad p (pad_count (length s)).
Proof.
  induction s as [| | | | |? ? ? ? ? s IH] using five_ind;
    [by destruct p|cbn; unfold dig1, dig2, dig3, dig4, dig6; by rewrite ?Z.lor_0_r..|].
  cbn [encode_base32 digits32 map app length]. rewrite IH.
  by rewrite <- (pad_count_5 (length s)).
Qed.

Definition digit (v : Z) : bool := (0 <=? v) && (v <? 32).

Lemma land_range (s n : Z) : 0 <= n → 0 <= Z.land s (Z.ones n) < 2 ^ n.
Proof. intros Hn. rewrite Z.land_ones by done. apply Z.mod_pos_bound. lia. Qed.

(** A property of the low [n] bits of a byte, of a byte and of a [k], checked on
    all of them. *)
Lemma group_check (n w : Z) (P : Z → Z → Z → bool) (s0 s k : Z) :
  range_check (2 ^ n) (fun m => range_check 256 (fun s => range_check w (P m s))) = true →
  0 <= n → is_byte s → 0 <= k < w → P (Z.land s0 (Z.ones n)) s k = true.
Proof.
  intros H Hn Hs Hk. pose proof (land_range s0 n Hn) as Hm.
  apply (range_check2_spec 256 w (P _) s k); [|done..].
  by apply (range_check_spec _ _ (Z.land s0 (Z.ones n))) in H.
Qed.

(** A byte is recovered from the digits that share its bits. *)
Lemma group0 (s k : Z) : is_byte s → 0 <= k < 4 →
  digit (Z.shiftr s 3) && digit (dig1 s k) && (out0 (Z.shiftr s 3) (dig1 s k) =? s) = true.
Proof.
  exact (group_check 0 4 (fun _ s k => digit (Z.shiftr s 3) && digit (dig1 s k)
           && (out0 (Z.shiftr s 3) (dig1 s k) =? s)) 0 s k ltac:(by vm_compute) ltac:(lia)).
Qed.

Lemma group1 (s0 s k : Z) : is_byte s → 0 <= k < 16 →
  digit (dig2 s) && digit (dig3 s k)
  && (out1 (dig1 s0 (Z.shiftr s 6)) (dig2 s) (dig3 s k) =? s) = true.
Proof.
  exact (group_check 3 16 (fun m s k => digit (dig2 s) && digit (dig3 s k)
           && (out1 (Z.lor (Z.shiftl m 2) (Z.shiftr s 6)) (dig2 s) (dig3 s k) =? s))
         s0 s k ltac:(by vm_compute) ltac:(lia)).
Qed.

Lemma group2 (s1 s k : Z) : is_byte s → 0 <= k < 2 →
  digit (dig4 s k) && (out2 (dig3 s1 (Z.shiftr s 4)) (dig4 s k) =? s) = true.
Proof.
  exact (group_check 1 2 (fun m s k => digit (dig4 s k)
           && (out2 (Z.lor (Z.shiftl m 4) (Z.shiftr s 4)) (dig4 s k) =? s))
         s1 s k ltac:(by vm_compute) ltac:(lia)).
Qed.

Lemma group3 (s2 s k : Z) : is_byte s → 0 <= k < 8 →
  digit (dig5 s) && digit (dig6 s k)
  && (out3 (dig4 s2 (Z.shiftr s 7)) (dig5 s) (dig6 s k) =? s) = true.
Proof.
  exact (group_check 4 8 (fun m s k => digit (dig5 s) && digit (dig6 s k)
           && (out3 (Z.lor (Z.shiftl m 1) (Z.shiftr s 7)) (dig5 s) (dig6 s k) =? s))
         s2 s k ltac:(by vm_compute) ltac:(lia)).
Qed.

Lemma group4 (s3 s : Z) : is_byte s →
  digit (Z.land s 0x1f) && (out4 (dig6 s3 (Z.shiftr s 5)) (Z.land s 0x1f) =? s) = true.
Proof.
  intros Hs. exact (group_check 2 1 (fun m s _ => digit (Z.land s 0x1f)
           && (out4 (Z.lor (Z.shiftl m 3) (Z.shiftr s 5)) (Z.land s 0x1f) =? s))
         s3 s 0 ltac:(by vm_compute) ltac:(lia) Hs ltac:(lia)).
Qed.

Lemma shiftr_range (s n : Z) : is_byte s → 0 <= n <= 8 → 0 <= Z.shiftr s n < 2 ^ (8 - n).
Proof.
  intros Hs Hn. rewrite Z.shiftr_div_pow2 by lia. unfold is_byte in Hs.
  split; [apply Z.div_pos; lia|]. apply Z.div_lt_upper_bound; [lia|].
  rewrite <- Z.pow_add_r by lia. replace (n + (8 - n)) with 8 by lia. lia.
Qed.

Ltac use_group t :=
  let H := fresh "G" in pose proof t as H;
  unfold digit in H; rewrite !andb_true_iff, !Z.eqb_eq, !Z.leb_le, !Z.ltb_lt in H;
  destruct_and? H.

Ltac shift_bound s n := pose proof (shiftr_range s n ltac:(done) ltac:(lia)).

(** The digits are digits, and the decoding loop gives the bytes back. *)
Lemma digits32_spec (s : bytes) :
  Forall is_byte s →
  Forall (fun v => 0 <= v < 32) (digits32 s)
  ∧ ∀ b f, (∀ v, 0 <= v < 32 → basis b (f v) = v) →
           decode_base32_loop b (map f (digits32 s)) = s.
Proof.
  induction s as [|s0|s0 s1|s0 s1 s2|s0 s1 s2 s3|s0 s1 s2 s3 s4 s IH] using five_ind;
    intros Hs; repeat (apply Forall_cons in Hs as [? Hs]).
  - done.
  - use_group (group0 s0 0 ltac:(done) ltac:(lia)).
    split; [by repeat constructor|]. intros b f Hf. cbn. rewrite !Hf by done. congruence.
  - shift_bound s1 6. use_group (group0 s0 (Z.shiftr s1 6) ltac:(done) ltac:(lia)).
    use_group (group1 s0 s1 0 ltac:(done) ltac:(lia)).
    split; [by repeat constructor|]. intros b f Hf. cbn. rewrite !Hf by done.
    unfold dig2 in *. rewrite <- Z.land_assoc, Z.land_diag. congruence.
  - shift_bound s1 6. use_group (group0 s0 (Z.shiftr s1 6) ltac:(done) ltac:(lia)).
    shift_bound s2 4. use_group (group1 s0 s1 (Z.shiftr s2 4) ltac:(done) ltac:(lia)).
    use_group (group2 s1 s2 0 ltac:(done) ltac:(lia)).
    split; [by repeat constructor|]. intros b f Hf. cbn. rewrite !Hf by done.
    unfold dig2 in *. rewrite <- Z.land_assoc, Z.land_diag. congruence.
  - shift_bound s1 6. use_group (group0 s0 (Z.shiftr s1 6) ltac:(done) ltac:(lia)).
    shift_bound s2 4. use_group (group1 s0 s1 (Z.shiftr s2 4) ltac:(done) ltac:(lia)).
    shift_bound s3 7. use_group (group2 s1 s2 (Z.shiftr s3 7) ltac:(done) ltac:(lia)).
    use_group (group3 s2 s3 0 ltac:(done) ltac:(lia)).
    split; [by repeat constructor|]. intros b f Hf. cbn. rewrite !Hf by done.
    unfold dig2 in *. rewrite <- Z.land_assoc, Z.land_diag. congruence.
  - destruct (IH Hs) as [IH1 IH2].
    shift_bound s1 6. use_group (group0 s0 (Z.shiftr s1 6) ltac:(done) ltac:(lia)).
    shift_bound s2 4. use_group (group1 s0 s1 (Z.shiftr s2 4) ltac:(done) ltac:(lia)).
    shift_bound s3 7. use_group (group2 s1 s2 (Z.shiftr s3 7) ltac:(done) ltac:(lia)).
    shift_bound s4 5. use_group (group3 s2 s3 (Z.shiftr s4 5) ltac:(done) ltac:(lia)).
    use_group (group4 s3 s4 ltac:(done)).
    split; [by repeat constructor|]. intros b f Hf. cbn. rewrite !Hf by done.
    rewrite IH2 by done. congruence.
Qed.

Lemma digits32_mod (s : bytes) :
  let md := (length (digits32 s) mod 8)%nat in
  (md =? 1)%nat || (md =? 3)%nat || (md =? 6)%nat = false
  ∧ (length (digits32 s) + pad_count (length s))%nat = ((length s + 4) / 5 * 8)%nat.
Proof.
  induction s as [| | | | |? ? ? ? ? s IH] using five_ind; [done..|].
  cbn [digits32 length]. rewrite <- (pad_count_5 (length s)) in IH.
  change (S (S (S (S (S (length s)))))) with (5 + length s)%nat.
  set (n := length (digits32 s)) in *.
  replace (S (S (S (S (S (S (S (S n)))))))) with (n + 1 * 8)%nat by lia.
  cbn zeta in *. rewrite Nat.Div0.mod_add. destruct IH as [IH1 IH2]. split; [done|].
  replace (5 + length s + 4)%nat with (length s + 4 + 1 * 5)%nat by lia.
  rewrite Nat.div_add by lia. lia.
Qed.

Lemma decode_len_digits (a : bytes) (b : list Z) (ds : list Z) (p : bool) (k : nat) :
  alphabet_ok a b → Forall (fun v => 0 <= v < 32) ds →
  decode_base32_len b (map (basis a) ds ++ pad p k) = Some (length ds).
Proof.
  intros Hab. induction 1 as [|v ds Hv _ IH]; cbn [map app].
  - by destruct p, k.
  - destruct (Hab v Hv) as [E1 E2]. cbn [decode_base32_len].
    rewrite (proj2 (Z.eqb_neq _ _) E2), E1, (proj2 (Z.eqb_neq v 77)), IH by lia. done.
Qed.

(** [set_decode_base32] inverts [set_encode_base32], with or without padding,
    for every alphabet of 32 distinct bytes other than the padding, and whatever the
    memory of the decoding table held before; the encoding has the length allocated
    for it when it is padded and never exceeds it. *)
Theorem base32_roundtrip (padding prev_padding : option bool) (alphabet : bytes)
    (prev : option bytes) (current prev_current : Z) (memory : list Z) (s : bytes) :
  Forall is_byte s → Forall is_byte alphabet → NoDup alphabet → "="%ch ∉ alphabet →
  ngx_http_set_misc_base32_alphabet alphabet = Some alphabet → length memory = 256%nat →
  let conf := ngx_http_set_misc_merge_loc_conf padding prev_padding (Some alphabet) prev
                current prev_current memory in
  ∃ e, ngx_http_set_misc_encode_base32 true conf s = Some e
       ∧ ngx_http_set_misc_decode_base32 true conf e = Some s
       ∧ Z.of_nat (length e) <= base32_encoded_length (Z.of_nat (length s))
       ∧ (base32_padding conf = true →
          Z.of_nat (length e) = base32_encoded_length (Z.of_nat (length s))).
Proof.
  intros Hs Hb Hnd Hpad Hlen Hm conf.
  assert (Hl : length alphabet = BASE32_ALPHABET_LEN).
  { unfold ngx_http_set_misc_base32_alphabet in Hlen.
    destruct (Nat.eqb_spec (length alphabet) BASE32_ALPHABET_LEN); done. }
  pose proof (merge_alphabet_ok alphabet memory Hl Hb Hnd Hpad Hm) as Hab.
  destruct (digits32_spec s Hs) as [Hd Hdec]. destruct (digits32_mod s) as [Hmod Hcount].
  eexists. split; [done|]. rewrite encode_digits. cbn [base32_alphabet base32_padding conf
    ngx_http_set_misc_merge_loc_conf].
  set (p := match padding with Some p => p | None => default true prev_padding end).
  assert (Hz : Z.of_nat ((length s + 4) / 5 * 8) = (Z.of_nat (length s) + 4) / 5 * 8)
    by (rewrite Nat2Z.inj_mul, Nat2Z.inj_div; lia).
  split; [|unfold base32_encoded_length; rewrite <- Hz, <- Hcount, length_app, length_map;
           assert (length (pad p (pad_count (length s))) <= pad_count (length s))%nat
             by (destruct p; cbn [pad]; rewrite ?length_replicate; cbn; lia);
           split; [lia|intros Hp; rewrite Hp; cbn [pad]; by rewrite length_replicate]].
  unfold ngx_http_set_misc_decode_base32, decode_base32. cbn [basis32 conf
    ngx_http_set_misc_merge_loc_conf].
  rewrite decode_len_digits by done. rewrite Hmod.
  rewrite take_app_le by (rewrite length_map; lia).
  rewrite firstn_all2 by (rewrite length_map; lia). f_equal. apply Hdec.
  intros v Hv. apply (Hab v Hv).
Qed.

Lemma base32_roundtrip_witness :
  let conf := ngx_http_set_misc_merge_loc_conf None (Some false) (Some default_alphabet) None
                (-1) (-1) (replicate 256 0) in
  ∃ e, ngx_http_set_misc_encode_base32 true conf (bs "hello!") = Some e
       ∧ ngx_http_set_misc_decode_base32 true conf e = Some (bs "hello!").
Proof.
  destruct (base32_roundtrip None (Some false) default_alphabet None (-1) (-1) (replicate 256 0)
              (bs "hello!")) as (e & H1 & H2 & _);
    [solve_bytes|solve_bytes|by apply (bool_decide_unpack _)|by apply (bool_decide_unpack _)
    |done|done|].
  by exists e.
Defined.

(** The marker 77 of an invalid character is never written to the table: with
    memory that was zero before, a string outside the alphabet is decoded as if
    all its characters were the first of the alphabet, with no error; only
    memory that happens to hold 77 detects it. *)
Theorem base32_invalid_accepted :
  let decode memory := decode_base32 (bs "!!??..--")
    (basis32 (ngx_http_set_misc_merge_loc_conf None None None None (-1) (-1) (replicate 256 memory))) in
  decode 0 = Some [0; 0; 0; 0; 0] ∧ decode 77 = None.
Proof. by vm_compute. Qed.
