(* ===== verification/Redis2Reply.v ===== *)
(** * The Redis reply parser

    src/redis2-nginx-module-master/src/ngx_http_redis2_reply.c: the machine that
    Ragel generated from ngx_http_redis2_reply.rl, with its tables, conditions and
    actions, and the loop of [ngx_http_redis2_process_reply] that runs it on the
    replies of a pipeline.  A state of the machine is the number Ragel gave it;
    bytes are read as [signed char]. *)

From S2P Require Import Prelude NgxNumber HttpChunked.

Open Scope Z_scope.

Module Redis2Reply.

(** ** The tables *)

Definition reply_cond_offsets : list Z :=
  [0; 0; 0; 0; 0; 0; 0; 0; 0; 0; 0; 0; 1; 4; 7; 7; 7; 7; 7; 7; 7; 7; 11; 14; 15; 17; 18; 21; 26;
   28; 29; 30; 32; 33; 34; 37; 42; 50; 55; 60; 65; 70; 73; 74; 79; 82; 87; 92; 97; 98; 103; 103;
   103; 103; 106; 110; 121; 126; 137].

Definition reply_cond_lengths : list Z :=
  [0; 0; 0; 0; 0; 0; 0; 0; 0; 0; 0; 1; 3; 3; 0; 0; 0; 0; 0; 0; 0; 4; 3; 1; 2; 1; 3; 5; 2; 1; 1;
   2; 1; 1; 3; 5; 8; 5; 5; 5; 5; 3; 1; 5; 3; 5; 5; 5; 1; 5; 0; 0; 0; 3; 4; 11; 5; 11; 9].

Definition reply_cond_keys : list Z :=
  [(-128); 127; (-128); 12; 13; 13; 14; 127; (-128); 12; 13; 13; 14; 127; 36; 36; 43; 43; 45; 45;
   58; 58; 45; 45; 48; 48; 49; 57; 48; 57; 13; 13; 48; 57; 10; 10; (-128); 12; 13; 13; 14; 127;
   (-128); 9; 10; 10; 11; 12; 13; 13; 14; 127; 13; 13; 48; 48; 10; 10; 13; 13; 13; 13; 48; 57;
   10; 10; (-128); 127; (-128); 12; 13; 13; 14; 127; (-128); 9; 10; 10; 11; 12; 13; 13; 14; 127;
   (-128); 12; 13; 13; 14; 44; 45; 45; 46; 47; 48; 48; 49; 57; 58; 127; (-128); 12; 13; 13; 14;
   47; 48; 57; 58; 127; (-128); 12; 13; 13; 14; 47; 48; 57; 58; 127; (-128); 12; 13; 13; 14; 47;
   48; 48; 49; 127; (-128); 9; 10; 10; 11; 12; 13; 13; 14; 127; (-128); 12; 13; 13; 14; 127; 10;
   10; (-128); 9; 10; 10; 11; 12; 13; 13; 14; 127; (-128); 12; 13; 13; 14; 127; (-128); 9; 10;
   10; 11; 12; 13; 13; 14; 127; (-128); 12; 13; 13; 14; 47; 48; 57; 58; 127; (-128); 9; 10; 10;
   11; 12; 13; 13; 14; 127; 10; 10; (-128); 9; 10; 10; 11; 12; 13; 13; 14; 127; (-128); 12; 13;
   13; 14; 127; 36; 36; 43; 43; 45; 45; 58; 58; (-128); 12; 13; 13; 14; 35; 36; 36; 37; 42; 43;
   43; 44; 44; 45; 45; 46; 57; 58; 58; 59; 127; 13; 13; 36; 36; 43; 43; 45; 45; 58; 58; (-128);
   12; 13; 13; 14; 35; 36; 36; 37; 42; 43; 43; 44; 44; 45; 45; 46; 57; 58; 58; 59; 127; (-128);
   35; 36; 36; 37; 42; 43; 43; 44; 44; 45; 45; 46; 57; 58; 58; 59; 127; 0].

Definition reply_cond_spaces : list Z :=
  [0; 0; 3; 0; 0; 3; 0; 2; 2; 2; 2; 2; 2; 2; 2; 2; 2; 2; 2; 2; 2; 2; 2; 2; 2; 2; 2; 2; 2; 2; 2;
   2; 2; 4; 4; 5; 4; 4; 4; 4; 5; 4; 4; 5; 4; 4; 4; 4; 4; 4; 4; 5; 4; 4; 4; 4; 5; 4; 4; 4; 4; 5;
   4; 4; 4; 4; 4; 4; 5; 4; 4; 5; 4; 2; 4; 4; 4; 5; 4; 4; 5; 4; 4; 4; 4; 5; 4; 4; 5; 4; 4; 4; 4;
   4; 4; 5; 4; 2; 4; 4; 4; 5; 4; 0; 3; 0; 2; 2; 2; 2; 4; 5; 4; 4; 4; 4; 4; 4; 4; 4; 4; 2; 2; 2;
   2; 2; 4; 5; 4; 4; 4; 4; 4; 4; 4; 4; 4; 4; 4; 4; 4; 4; 4; 4; 4; 4; 0].

Definition reply_key_offsets : list Z :=
  [0; 0; 5; 9; 11; 14; 15; 17; 18; 19; 22; 23; 25; 32; 41; 45; 46; 47; 48; 50; 53; 54; 58; 62;
   64; 67; 68; 71; 75; 77; 78; 79; 82; 83; 85; 92; 101; 118; 131; 145; 155; 164; 172; 173; 182;
   194; 208; 222; 230; 231; 240; 241; 243; 243; 250; 254; 269; 274; 290].

Definition reply_trans_keys : list Z :=
  [36; 42; 43; 45; 58; 45; 48; 49; 57; 48; 57; 13; 48; 57; 10; 13; 48; 10; 13; 13; 48; 57; 10;
   384; 639; 1549; 1805; 2061; 384; 524; 526; 639; 266; 522; 1549; 1805; 2061; 384; 524; 526;
   639; 45; 48; 49; 57; 49; 13; 10; 13; 48; 13; 48; 57; 10; 5668; 5675; 5677; 5690; 5677; 5680;
   5681; 5689; 5680; 5689; 5645; 5680; 5689; 5642; 5645; 5504; 5759; 5642; 5645; 5504; 5759;
   5645; 5680; 5642; 5645; 5645; 5680; 5689; 5642; 2944; 3199; 4621; 4877; 5133; 2944; 3084;
   3086; 3199; 2826; 3082; 4621; 4877; 5133; 2944; 3084; 3086; 3199; 2861; 2864; 3117; 3120;
   4621; 4877; 5133; 2865; 2873; 2944; 3084; 3086; 3119; 3121; 3129; 3130; 3199; 4621; 4877;
   5133; 2864; 2873; 2944; 3084; 3086; 3119; 3120; 3129; 3130; 3199; 4365; 4621; 4877; 5133;
   2864; 2873; 2944; 3084; 3086; 3119; 3120; 3129; 3130; 3199; 2864; 3120; 4365; 4621; 4877;
   5133; 2944; 3084; 3086; 3199; 2826; 3082; 4621; 4877; 5133; 2944; 3084; 3086; 3199; 4365;
   4621; 4877; 5133; 2944; 3084; 3086; 3199; 5642; 2826; 3082; 4621; 4877; 5133; 2944; 3084;
   3086; 3199; 4365; 4621; 4877; 5133; 2688; 2828; 2830; 2943; 2944; 3084; 3086; 3199; 2826;
   3082; 4365; 4621; 4877; 5133; 2688; 2828; 2830; 2943; 2944; 3084; 3086; 3199; 4365; 4621;
   4877; 5133; 2864; 2873; 2944; 3084; 3086; 3119; 3120; 3129; 3130; 3199; 2826; 4621; 4877;
   5133; 2944; 3084; 3086; 3199; 5642; 2826; 3082; 4621; 4877; 5133; 2944; 3084; 3086; 3199; 13;
   10; 13; 1549; 1805; 2061; 384; 524; 526; 639; 5668; 5675; 5677; 5690; 2852; 2859; 2861; 2874;
   3108; 3115; 3117; 3130; 4621; 4877; 5133; 2944; 3084; 3086; 3199; 5645; 5668; 5675; 5677;
   5690; 2852; 2859; 2861; 2874; 3108; 3115; 3117; 3130; 4365; 4621; 4877; 5133; 2944; 3084;
   3086; 3199; 2852; 2859; 2861; 2874; 3108; 3115; 3117; 3130; 2944; 3199; 0].

Definition reply_single_lengths : list Z :=
  [0; 5; 2; 0; 1; 1; 2; 1; 1; 1; 1; 0; 3; 5; 2; 1; 1; 1; 2; 1; 1; 4; 2; 0; 1; 1; 1; 2; 2; 1; 1;
   1; 1; 0; 3; 5; 7; 3; 4; 6; 5; 4; 1; 5; 4; 6; 4; 4; 1; 5; 1; 2; 0; 3; 4; 11; 5; 12; 8].

Definition reply_range_lengths : list Z :=
  [0; 0; 1; 1; 1; 0; 0; 0; 0; 1; 0; 1; 2; 2; 1; 0; 0; 0; 0; 1; 0; 0; 1; 1; 1; 0; 1; 1; 0; 0; 0;
   1; 0; 1; 2; 2; 5; 5; 5; 2; 2; 2; 0; 2; 4; 4; 5; 2; 0; 2; 0; 0; 0; 2; 0; 2; 0; 2; 1].

Definition reply_index_offsets : list Z :=
  [0; 0; 6; 10; 12; 15; 17; 20; 22; 24; 27; 29; 31; 37; 45; 49; 51; 53; 55; 58; 61; 63; 68; 72;
   74; 77; 79; 82; 86; 89; 91; 93; 96; 98; 100; 106; 114; 127; 136; 146; 155; 163; 170; 172; 180;
   189; 200; 210; 217; 219; 227; 229; 232; 233; 239; 244; 258; 264; 279].

Definition reply_indicies : list Z :=
  [0; 2; 3; 3; 3; 1; 4; 5; 6; 1; 7; 1; 8; 7; 1; 9; 1; 10; 5; 1; 11; 1; 8; 1; 12; 13; 1; 14; 1;
   15; 1; 15; 8; 16; 15; 15; 1; 9; 17; 15; 8; 16; 15; 15; 1; 18; 19; 20; 1; 21; 1; 22; 1; 23; 1;
   22; 19; 1; 24; 25; 1; 26; 1; 27; 28; 28; 28; 1; 29; 30; 31; 1; 32; 1; 33; 32; 1; 34; 1; 35;
   28; 1; 34; 35; 28; 1; 36; 30; 1; 37; 1; 33; 1; 38; 39; 1; 40; 1; 41; 1; 41; 33; 42; 41; 41; 1;
   34; 43; 41; 33; 42; 41; 41; 1; 29; 30; 44; 45; 41; 33; 42; 31; 41; 41; 46; 41; 1; 41; 33; 42;
   32; 41; 41; 47; 41; 1; 33; 42; 33; 42; 32; 41; 41; 47; 41; 1; 30; 45; 36; 48; 49; 50; 41; 41;
   1; 37; 51; 41; 33; 42; 41; 41; 1; 33; 42; 33; 42; 41; 41; 1; 52; 1; 52; 53; 41; 33; 42; 41;
   41; 1; 35; 55; 35; 55; 28; 28; 54; 54; 1; 34; 43; 35; 55; 35; 55; 28; 28; 54; 54; 1; 38; 57;
   58; 59; 39; 41; 41; 56; 41; 1; 40; 41; 33; 42; 41; 41; 1; 60; 1; 60; 43; 41; 33; 42; 41; 41;
   1; 61; 3; 62; 61; 3; 1; 15; 8; 16; 15; 15; 1; 27; 28; 28; 28; 1; 27; 28; 28; 28; 63; 54; 54;
   54; 41; 33; 42; 41; 41; 1; 33; 27; 28; 28; 28; 1; 27; 28; 28; 28; 63; 54; 54; 54; 33; 42; 33;
   42; 41; 41; 1; 27; 28; 28; 28; 63; 54; 54; 54; 41; 1; 0].

Definition reply_trans_targs : list Z :=
  [2; 0; 14; 50; 3; 6; 9; 4; 5; 52; 7; 8; 10; 9; 11; 12; 13; 53; 15; 18; 19; 16; 17; 52; 20; 19;
   21; 22; 26; 23; 28; 31; 24; 25; 54; 27; 29; 30; 32; 31; 33; 34; 35; 55; 37; 39; 46; 38; 40;
   42; 43; 41; 56; 57; 44; 45; 46; 47; 48; 49; 58; 51; 52; 36].

Definition reply_trans_actions : list Z :=
  [0; 0; 0; 0; 0; 0; 1; 0; 0; 2; 0; 0; 0; 3; 0; 0; 0; 2; 0; 0; 4; 0; 0; 5; 0; 6; 7; 0; 0; 0; 0;
   1; 0; 0; 8; 0; 0; 0; 0; 3; 0; 0; 0; 8; 0; 0; 1; 0; 0; 0; 0; 0; 8; 8; 0; 0; 3; 0; 0; 0; 8; 0;
   9; 0].

Definition reply_start : Z := 1.
Definition reply_error : Z := 0.

(** ** The context of a request, ngx_http_redis2_ctx_t *)

Record ctx := mk_ctx {
  query_count : nat;
  state : Z;   (* NGX_ERROR before the first byte *)
  chunk_size : Z;
  chunk_bytes_read : Z;
  chunks_read : Z;
  chunk_count : Z
}.

Definition set_query_count (v : nat) (s : ctx) : ctx :=
  mk_ctx v (state s) (chunk_size s) (chunk_bytes_read s) (chunks_read s)
    (chunk_count s).
Definition set_state (v : Z) (s : ctx) : ctx :=
  mk_ctx (query_count s) v (chunk_size s) (chunk_bytes_read s) (chunks_read s)
    (chunk_count s).
Definition set_chunk_size (v : Z) (s : ctx) : ctx :=
  mk_ctx (query_count s) (state s) v (chunk_bytes_read s) (chunks_read s)
    (chunk_count s).
Definition set_chunk_bytes_read (v : Z) (s : ctx) : ctx :=
  mk_ctx (query_count s) (state s) (chunk_size s) v (chunks_read s)
    (chunk_count s).
Definition set_chunks_read (v : Z) (s : ctx) : ctx :=
  mk_ctx (query_count s) (state s) (chunk_size s) (chunk_bytes_read s) v
    (chunk_count s).
Definition set_chunk_count (v : Z) (s : ctx) : ctx :=
  mk_ctx (query_count s) (state s) (chunk_size s) (chunk_bytes_read s)
    (chunks_read s) v.

(** After [ngx_pcalloc] and [ctx->state = NGX_ERROR] in the handler. *)
Definition ctx_init (queries : nat) : ctx := mk_ctx queries NGX_ERROR 0 0 0 0.

(** ** Looking a key up *)

(** A read of a table.  What it gives outside of the table does not matter: no state of the
    machine reads there (lemmas [tables_closed] and [search_reads_inside]). *)
Definition at_index (tbl : list Z) (i : Z) : Z := tbl !!! Z.to_nat i.

(** The binary search over [(low, high)] pairs from [lower] to [upper]; the
    outer [None] is lack of fuel. *)
Fixpoint search_ranges (fuel : nat) (keys : list Z) (lower upper w : Z) : option (option Z) :=
  match fuel with
  | O => None
  | S fuel =>
      if upper <? lower then Some None
      else
        let mid := lower + Z.land (Z.shiftr (upper - lower) 1) (-2) in
        if w <? at_index keys mid then search_ranges fuel keys lower (mid - 2) w
        else if w >? at_index keys (mid + 1) then search_ranges fuel keys (mid + 2) upper w
        else Some (Some mid)
  end.

Fixpoint search_singles (fuel : nat) (keys : list Z) (lower upper w : Z) : option (option Z) :=
  match fuel with
  | O => None
  | S fuel =>
      if upper <? lower then Some None
      else
        let mid := lower + Z.shiftr (upper - lower) 1 in
        if w <? at_index keys mid then search_singles fuel keys lower (mid - 1) w
        else if w >? at_index keys mid then search_singles fuel keys (mid + 1) upper w
        else Some (Some mid)
  end.

Definition fuel_of (klen : Z) : nat := S (Z.to_nat klen).

(** The condition space of the byte [c] in state [cs]: the conditions that are
    tested before the transition is chosen. *)
Definition cond_space (cs c : Z) : option (option Z) :=
  let klen := at_index reply_cond_lengths cs in
  let keys := at_index reply_cond_offsets cs * 2 in
  if klen >? 0 then
    match search_ranges (fuel_of klen) reply_cond_keys keys (keys + Z.shiftl klen 1 - 2) c with
    | Some (Some mid) =>
        Some (Some (at_index reply_cond_spaces
                      (at_index reply_cond_offsets cs + Z.shiftr (mid - keys) 1)))
    | r => r
    end
  else Some None.

(** [_widec]: the byte moved into the space, with a bit for each condition; the
    test of the length counts the byte. *)
Definition widen (space : option Z) (c : Z) (x : ctx) : Z * ctx :=
  let len := chunk_bytes_read x <? chunk_size x in
  let counted := set_chunk_bytes_read (wrap_u 64 (chunk_bytes_read x + 1)) x in
  let complete y := chunk_bytes_read y =? wrap_u 64 (chunk_size y + 1) in
  let count y := chunks_read y <? chunk_count y in
  let bit (b : bool) n := if b then n else 0 in
  match space with
  | Some 0 => (128 + (c - -128) + bit len 256, counted)
  | Some 1 => (640 + (c - -128) + bit (complete x) 256, x)
  | Some 2 => (5248 + (c - -128) + bit (count x) 256, x)
  | Some 3 => (1152 + (c - -128) + bit len 256 + bit (complete counted) 512, counted)
  | Some 4 => (2176 + (c - -128) + bit len 256 + bit (count counted) 512, counted)
  | Some 5 => (3200 + (c - -128) + bit len 256 + bit (complete counted) 512
               + bit (count counted) 1024, counted)
  | _ => (c, x)
  end.

(** The transition for [w] in state [cs]: first the single keys, then the
    ranges, then the default. *)
Definition transition (cs w : Z) : option Z :=
  let keys := at_index reply_key_offsets cs in
  let trans := at_index reply_index_offsets cs in
  let klen := at_index reply_single_lengths cs in
  let rlen := at_index reply_range_lengths cs in
  let ranges (keys trans : Z) :=
    if rlen >? 0 then
      match search_ranges (fuel_of rlen) reply_trans_keys keys (keys + Z.shiftl rlen 1 - 2) w with
      | Some (Some mid) => Some (trans + Z.shiftr (mid - keys) 1)
      | Some None => Some (trans + rlen)
      | None => None
      end
    else Some trans in
  let found :=
    if klen >? 0 then
      match search_singles (fuel_of klen) reply_trans_keys keys (keys + klen - 1) w with
      | Some (Some mid) => Some (trans + (mid - keys))
      | Some None => ranges (keys + klen) (trans + klen)
      | None => None
      end
    else ranges keys trans in
  at_index reply_indicies <$> found.

(** ** The actions *)

Definition read_size (c : Z) (x : ctx) : ctx :=
  set_chunk_size (wrap_u 64 (wrap_u 64 (chunk_size x * 10) + (c - "0"%ch))) x.
Definition start_reading_size (x : ctx) : ctx := set_chunk_size 0 (set_chunk_bytes_read 0 x).
Definition read_chunk (x : ctx) : ctx := set_chunks_read (wrap_u 64 (chunks_read x + 1)) x.
Definition start_reading_chunk (x : ctx) : ctx := set_chunks_read 0 x.
Definition start_reading_count (x : ctx) : ctx := set_chunk_count 0 x.
Definition read_count (c : Z) (x : ctx) : ctx :=
  set_chunk_count (wrap_u 64 (wrap_u 64 (chunk_count x * 10) + (c - "0"%ch))) x.
Definition multi_bulk_finalize (done : bool) (x : ctx) : bool :=
  if chunks_read x =? chunk_count x then true else done.

Definition run_action (action c : Z) (x : ctx) (done : bool) : ctx * bool :=
  match action with
  | 9 => (x, true)
  | 3 => (read_size c x, done)
  | 7 => (start_reading_chunk x, done)
  | 6 => (read_count c x, done)
  | 5 => (x, multi_bulk_finalize done x)
  | 1 => (read_size c (start_reading_size x), done)
  | 2 => (read_chunk x, true)
  | 8 => (read_chunk x, multi_bulk_finalize done (read_chunk x))
  | 4 => (read_count c (start_reading_count x), done)
  | _ => (x, done)
  end.

(** ** The machine *)

(** [cs], the context and [done]. *)
Definition mstate := (Z * ctx * bool)%type.

(** Leaving the loop at a byte: in the error state, or for lack of fuel. *)
Inductive mexit := m_out (x : ctx) (done : bool) | m_fuel.

Definition step (s : mstate) (p : nat) (ch : Z) : mstate + mexit :=
  let '(cs, x, done) := s in
  if cs =? 0 then inr (m_out x done)
  else
    let c := wrap_s 8 ch in
    match cond_space cs c with
    | None => inr m_fuel
    | Some space =>
        let '(w, x) := widen space c x in
        match transition cs w with
        | None => inr m_fuel
        | Some trans =>
            let '(x, done) := run_action (at_index reply_trans_actions trans) c x done in
            let cs := at_index reply_trans_targs trans in
            if cs =? 0 then inr (m_out x done) else inl (cs, x, done)
        end
    end.

(** The code between [write exec] and its end: the state, the context, [done] and
    the number of bytes before [p]. *)
Definition exec (cs : Z) (x : ctx) (l : bytes) : option (Z * ctx * bool * nat) :=
  match mrun step (cs, x, false) 0 l with
  | inl (cs, x, done) => Some (cs, x, done, length l)
  | inr (m_out x done, p) => Some (0, x, done, p)
  | inr (m_fuel, _) => None
  end.

(** ** ngx_http_redis2_process_reply *)

(** What the function changes in the upstream and in its buffer: the data of the
    buffer it adds to [u->out_bufs], if any, how far [b->last] moves, and whether
    [u->length] becomes 0 and [u->keepalive] 1. *)
Record effect := mk_effect {
  e_out : option bytes;
  e_last : nat;
  e_complete : bool;
  e_keepalive : bool
}.

Section Reply.
Variable alloc : bool.          (* whether ngx_chain_get_free_buf gives a buffer *)

(** The [while (ctx->query_count)] loop on the bytes [l] from [b->last] on; [cl]
    holds what the output buffer has so far. *)
Fixpoint reply_loop (queries : nat) (x : ctx) (cl : option bytes) (last : nat) (l : bytes)
    : option (Z * ctx * effect) :=
  match queries with
  | O => Some (NGX_OK, x, mk_effect cl last false false)
  | S queries =>
      let cs := if state x =? NGX_ERROR then reply_start else state x in
      match exec cs x l with
      | None => None
      | Some (cs, x, done, p) =>
          let x := set_state cs x in
          if negb done && (cs =? reply_error)
          then Some (Chunked.NGX_HTTP_INTERNAL_SERVER_ERROR, x, mk_effect None last true false)
          else if negb alloc && (match cl with None => true | Some _ => false end)
          then Some (NGX_ERROR, x, mk_effect None last true false)
          else
            let cl := Some (default [] cl ++ take p l) in
            let last := (last + p)%nat in
            if done then
              let x := set_query_count queries x in
              match queries with
              | O => Some (NGX_OK, x, mk_effect cl last true (negb (cs =? reply_error)))
              | S _ => reply_loop queries (set_state NGX_ERROR x) cl last (drop p l)
              end
            else Some (NGX_OK, x, mk_effect cl last false false)
      end
  end.

Definition ngx_http_redis2_process_reply (x : ctx) (l : bytes) : option (Z * ctx * effect) :=
  reply_loop (query_count x) x None 0 l.

End Reply.

(** * Theorems *)

(** ** The binary searches end *)

Lemma half_bounds (n : Z) :
  0 <= n → 0 <= Z.shiftr n 1 <= n ∧ 0 <= Z.land (Z.shiftr n 1) (-2) <= n.
Proof.
  intros Hn. change (-2) with (Z.lnot (Z.ones 1)).
  rewrite <- Z.ldiff_land, Z.ldiff_ones_r, Z.shiftl_mul_pow2, !Z.shiftr_div_pow2 by lia.
  change (2 ^ 1) with 2.
  pose proof (Z.div_mod n 2 ltac:(lia)). pose proof (Z.mod_pos_bound n 2 ltac:(lia)).
  pose proof (Z.div_mod (n / 2) 2 ltac:(lia)). pose proof (Z.mod_pos_bound (n / 2) 2 ltac:(lia)).
  lia.
Qed.

Lemma search_ranges_fuel (fuel : nat) (keys : list Z) (lower upper w : Z) :
  upper - lower + 4 <= 2 * Z.of_nat fuel → (0 < fuel)%nat →
  is_Some (search_ranges fuel keys lower upper w).
Proof.
  revert lower upper. induction fuel as [|fuel IH]; intros lower upper Hf H0; [lia|].
  cbn [search_ranges]. destruct (Z.ltb_spec upper lower); [done|].
  destruct (half_bounds (upper - lower) ltac:(lia)) as [_ Hm].
  cbv zeta. split_ifs; [apply IH; lia|apply IH; lia|done].
Qed.

Lemma search_singles_fuel (fuel : nat) (keys : list Z) (lower upper w : Z) :
  upper - lower + 2 <= Z.of_nat fuel → (0 < fuel)%nat →
  is_Some (search_singles fuel keys lower upper w).
Proof.
  revert lower upper. induction fuel as [|fuel IH]; intros lower upper Hf H0; [lia|].
  cbn [search_singles]. destruct (Z.ltb_spec upper lower); [done|].
  destruct (half_bounds (upper - lower) ltac:(lia)) as [Hm _].
  cbv zeta. split_ifs; [apply IH; lia|apply IH; lia|done].
Qed.

(** ** All reads are inside of the tables *)

(** A search reads only between its bounds. *)
Lemma search_reads_inside (fuel : nat) (k1 k2 : list Z) (lower upper w : Z) :
  ((∀ i, lower <= i <= upper + 1 → at_index k1 i = at_index k2 i) → search_ranges fuel k1 lower upper w = search_ranges fuel k2 lower upper w)
  ∧ ((∀ i, lower <= i <= upper → at_index k1 i = at_index k2 i) → search_singles fuel k1 lower upper w = search_singles fuel k2 lower upper w).
Proof.
  revert lower upper. induction fuel as [|fuel IH]; intros lower upper; [done|]. cbn [search_ranges search_singles].
  destruct (Z.ltb_spec upper lower) as [|Hb]; [done|]. destruct (half_bounds (upper - lower) ltac:(lia)) as [H1 H2]. cbv zeta. split; intros H; rewrite !H by lia.
  - rewrite (proj1 (IH lower _)), (proj1 (IH _ upper)); [done|..]; intros i Hi; apply H; lia.
  - rewrite (proj2 (IH lower _)), (proj2 (IH _ upper)); [done|..]; intros i Hi; apply H; lia.
Qed.

(** For every state: the keys of its conditions and its transitions and the entries for
    them, the default transition included, lie in their tables, and every transition has an
    action and leads to a state. *)
Lemma tables_closed :
  let size (t : list Z) := Z.of_nat (length t) in
  (∀ cs, 0 <= cs < 59 →
     Forall (fun t => cs < size t) [reply_cond_offsets; reply_cond_lengths; reply_key_offsets; reply_single_lengths; reply_range_lengths; reply_index_offsets]
     ∧ 0 <= at_index reply_cond_offsets cs ∧ 0 <= at_index reply_cond_lengths cs
     ∧ at_index reply_cond_offsets cs + at_index reply_cond_lengths cs <= size reply_cond_spaces
     ∧ 2 * (at_index reply_cond_offsets cs + at_index reply_cond_lengths cs) <= size reply_cond_keys
     ∧ 0 <= at_index reply_key_offsets cs ∧ 0 <= at_index reply_single_lengths cs ∧ 0 <= at_index reply_range_lengths cs
     ∧ at_index reply_key_offsets cs + at_index reply_single_lengths cs + 2 * at_index reply_range_lengths cs <= size reply_trans_keys
     ∧ 0 <= at_index reply_index_offsets cs
     ∧ at_index reply_index_offsets cs + at_index reply_single_lengths cs + at_index reply_range_lengths cs < size reply_indicies)
  ∧ Forall (fun t => 0 <= t < size reply_trans_targs ∧ t < size reply_trans_actions) reply_indicies
  ∧ Forall (fun cs => 0 <= cs < 59) reply_trans_targs.
Proof.
  cbv zeta. split; [|split].
  - intros cs Hcs. pattern cs. match goal with |- ?P cs => refine (@range_check_prop 59 P (fun z => _) cs _ Hcs) end;
      vm_compute; reflexivity.
  - apply (bool_decide_unpack _). vm_compute. done.
  - apply (bool_decide_unpack _). vm_compute. done.
Qed.

(** A search over [klen] pairs from [keys] on. *)
Lemma search_pairs (tbl : list Z) (klen keys w : Z) :
  klen > 0 → is_Some (search_ranges (fuel_of klen) tbl keys (keys + Z.shiftl klen 1 - 2) w).
Proof.
  intros H. apply search_ranges_fuel; unfold fuel_of; [|lia].
  rewrite Z.shiftl_mul_pow2 by lia. lia.
Qed.

Lemma cond_space_total (cs c : Z) : is_Some (cond_space cs c).
Proof.
  unfold cond_space. cbv zeta. destruct (_ >? 0) eqn:E; [|done].
  destruct (search_pairs reply_cond_keys (at_index reply_cond_lengths cs)
    (at_index reply_cond_offsets cs * 2) c ltac:(lia)) as [[mid|] ->]; done.
Qed.

Lemma transition_total (cs w : Z) : is_Some (transition cs w).
Proof.
  unfold transition. cbv zeta. apply fmap_is_Some.
  set (rlen := at_index reply_range_lengths cs).
  assert (Hr : ∀ keys trans : Z, is_Some (if rlen >? 0 then
      match search_ranges (fuel_of rlen) reply_trans_keys keys (keys + Z.shiftl rlen 1 - 2) w with
      | Some (Some mid) => Some (trans + Z.shiftr (mid - keys) 1)
      | Some None => Some (trans + rlen)
      | None => None
      end else Some trans)).
  { intros keys trans. destruct (rlen >? 0) eqn:E; [|done].
    by destruct (search_pairs reply_trans_keys rlen keys w ltac:(lia)) as [[mid|] ->]. }
  destruct (at_index reply_single_lengths cs >? 0) eqn:E; [|apply Hr].
  destruct (search_singles_fuel (fuel_of (at_index reply_single_lengths cs)) reply_trans_keys
    (at_index reply_key_offsets cs)
    (at_index reply_key_offsets cs + at_index reply_single_lengths cs - 1) w)
    as [[mid|] ->]; [unfold fuel_of; lia|unfold fuel_of; lia|done|apply Hr].
Qed.

Lemma step_total (s : mstate) (p : nat) (ch : Z) : step s p ch ≠ inr m_fuel.
Proof.
  destruct s as [[cs x] done]. unfold step. destruct (cs =? 0); [done|].
  destruct (cond_space_total cs (wrap_s 8 ch)) as [sp ->]. destruct (widen sp _ x) as [w y].
  destruct (transition_total cs w) as [t ->]. destruct (run_action _ _ y done) as [z d].
  by destruct (_ =? 0).
Qed.

Lemma exec_total (cs : Z) (x : ctx) (l : bytes) : is_Some (exec cs x l).
Proof.
  unfold exec. destruct (mrun step (cs, x, false) 0 l) as [[[cs' x'] d]|[[y d|] p]] eqn:E; [done..|].
  destruct (mrun_result_invariant step (fun _ _ => True) (cs, x, false) 0 l ltac:(done) I _ _ E)
    as (s & ch & _ & _ & H & _). by apply step_total in H.
Qed.

(** ** The function returns *)

Lemma widen_query_count (sp : option Z) (c : Z) (x : ctx) :
  query_count (widen sp c x).2 = query_count x.
Proof. unfold widen. by repeat case_match. Qed.

Lemma run_action_query_count (a c : Z) (x : ctx) (d : bool) :
  query_count (run_action a c x d).1 = query_count x.
Proof. unfold run_action. by repeat case_match. Qed.

Lemma step_query_count (s : mstate) (p : nat) (ch : Z) :
  match step s p ch with
  | inl (_, x, _) => query_count x = query_count s.1.2
  | inr (m_out x _) => query_count x = query_count s.1.2
  | inr m_fuel => True
  end.
Proof.
  destruct s as [[cs x] d]. unfold step. destruct (cs =? 0); [done|].
  destruct (cond_space cs _) as [sp|]; [|done].
  pose proof (widen_query_count sp (wrap_s 8 ch) x) as Hw.
  destruct (widen sp _ x) as [w y]. destruct (transition cs w) as [t|]; [|done].
  pose proof (run_action_query_count (at_index reply_trans_actions t) (wrap_s 8 ch) y d) as Ha.
  destruct (run_action _ _ y d) as [z d']. cbn in *. destruct (_ =? 0); congruence.
Qed.

Lemma exec_returns (cs : Z) (x : ctx) (l : bytes) :
  ∃ cs' y d n, exec cs x l = Some (cs', y, d, n) ∧ (n <= length l)%nat
  ∧ query_count y = query_count x.
Proof.
  destruct (exec_total cs x l) as [[[[cs' y] d] n] E]. exists cs', y, d, n. split; [done|].
  unfold exec in E. set (I := fun (s : mstate) (_ : nat) => query_count s.1.2 = query_count x).
  assert (Hstep : ∀ s p ch s', ch ∈ l → I s p → step s p ch = inl s' → I s' (p + 1)%nat).
  { unfold I. intros s p ch [[? z] ?] _ Hs Es. pose proof (step_query_count s p ch) as H.
    rewrite Es in H. cbn. congruence. }
  destruct (mrun step (cs, x, false) 0 l) as [[[cs1 y1] d1]|[[y1 d1|] p1]] eqn:Em; [..|done].
  - injection E as -> -> -> <-. split; [done|].
    apply (mrun_invariant step I (cs, x, false) 0 l Hstep eq_refl _ Em).
  - injection E as <- -> -> <-.
    destruct (mrun_result_invariant step I (cs, x, false) 0 l Hstep eq_refl _ _ Em)
      as (s & ch & _ & Hs & Es & Hle). split; [lia|].
    pose proof (step_query_count s p1 ch) as H. rewrite Es in H. unfold I in Hs. congruence.
Qed.

(** What a call of the loop with [cl] and [last] returns. *)
Definition loop_result (alloc : bool) (queries : nat) (cl : option bytes) (last : nat) (l : bytes)
    (rc : Z) (y : ctx) (e : effect) : Prop :=
  (query_count y <= queries)%nat ∧ (last <= e_last e <= last + length l)%nat ∧
  (rc = NGX_OK
   ∧ e_out e = (if (queries =? 0)%nat then cl else Some (default [] cl ++ take (e_last e - last) l))
   ∧ (e_complete e = true ↔ (0 < queries)%nat ∧ query_count y = 0%nat)
   ∨ (rc = Chunked.NGX_HTTP_INTERNAL_SERVER_ERROR ∨ rc = NGX_ERROR ∧ alloc = false)
     ∧ e_out e = None ∧ e_complete e = true ∧ e_keepalive e = false).

Lemma loop_returns (alloc : bool) (queries : nat) (x : ctx) (cl : option bytes) (last : nat) (l : bytes) :
  query_count x = queries →
  ∃ rc y e, reply_loop alloc queries x cl last l = Some (rc, y, e)
  ∧ loop_result alloc queries cl last l rc y e.
Proof.
  unfold loop_result. revert x cl last l.
  induction queries as [|q IH]; intros x cl last l Hq; cbn [reply_loop].
  { eexists _, _, _. split; [done|]. cbn. split_and!; try lia. left. split_and!; (done || lia). }
  destruct (exec_returns (if state x =? NGX_ERROR then reply_start else state x) x l)
    as (cs & y & d & n & -> & Hn & Hy). cbv zeta. rewrite Hq in Hy.
  destruct (negb d && (cs =? reply_error)).
  { eexists _, _, _. split; [done|]. cbn. split_and!; try lia. right. split_and!; auto. }
  destruct (negb alloc && _) eqn:Ea.
  { eexists _, _, _. split; [done|]. cbn. split_and!; try lia. right. split_and!; try done.
    right. split; [done|]. by destruct alloc. }
  destruct d; [destruct q as [|q]|].
  - eexists _, _, _. split; [done|]. cbn. split_and!; try lia. left.
    rewrite Nat.add_comm, Nat.add_sub. split_and!; (done || lia).
  - edestruct IH as (rc & z & e & -> & Hz & He & H); [done|].
    exists rc, z, e. split; [done|]. rewrite length_drop in He. split_and!; try lia.
    destruct H as [(-> & Ho & Hc)|H]; [left|right; done]. split; [done|]. split; [|rewrite Hc; lia].
    rewrite Ho. cbn [Nat.eqb].
    change (default [] (Some (default [] cl ++ take n l))) with (default [] cl ++ take n l).
    rewrite <- app_assoc. do 2 f_equal.
    replace (e_last e - last)%nat with (n + (e_last e - (last + n)))%nat by lia.
    by rewrite take_take_drop.
  - eexists _, _, _. split; [done|]. cbn. split_and!; try lia. left.
    rewrite Nat.add_comm, Nat.add_sub. split_and!; (done || lia).
Qed.

(** C15. The reply parser returns on every input and from every state of the
    context: the searches of the generated machine end and so does the loop over the
    queries. It never reads past the bytes received; on success it has passed on
    exactly the bytes up to the new end of the buffer, and the request is complete
    if and only if the last query was answered; on failure (the code 500 for bytes
    that are no reply, NGX_ERROR when no buffer can be allocated) nothing of this
    call is passed on and the upstream request is over. *)
Theorem redis2_reply_returns (alloc : bool) (x : ctx) (l : bytes) :
  ∃ rc y e, ngx_http_redis2_process_reply alloc x l = Some (rc, y, e)
  ∧ (query_count y <= query_count x)%nat ∧ (e_last e <= length l)%nat
  ∧ (rc = NGX_OK
     ∧ e_out e = (if (query_count x =? 0)%nat then None else Some (take (e_last e) l))
     ∧ (e_complete e = true ↔ (0 < query_count x)%nat ∧ query_count y = 0%nat)
     ∨ (rc = Chunked.NGX_HTTP_INTERNAL_SERVER_ERROR ∨ rc = NGX_ERROR ∧ alloc = false)
       ∧ e_out e = None ∧ e_complete e = true ∧ e_keepalive e = false).
Proof.
  destruct (loop_returns alloc (query_count x) x None 0 l eq_refl) as (rc & y & e & E & Hy & He & H).
  exists rc, y, e. rewrite Nat.sub_0_r in H. split_and!; [done|lia|lia|exact H].
Qed.

(** ** The automaton the tables encode

    [next] is the grammar of the .rl files as an automaton over named phases;
    [m] tells whether the reply is inside a multi-bulk reply.  [bl], [bc] and [bn]
    are the values of the conditions [test_len], [check_data_complete] and
    [test_chunk_count]; the result says whether the byte is counted, the next
    phase and the action. *)

Inductive phase :=
  | ph_start | ph_line (m : bool) | ph_line_cr (m : bool)
  | ph_dollar (m : bool) | ph_neg (m : bool) | ph_neg_digits (m : bool)
  | ph_zero (m : bool) | ph_zero_cr (m : bool) | ph_zero_lf (m : bool)
  | ph_size (m : bool) | ph_size_cr (m : bool) | ph_first (m : bool) | ph_data (m : bool)
  | ph_cr (m : bool)
  | ph_star | ph_star_neg | ph_star_one | ph_star_cr | ph_star_zero
  | ph_count | ph_count_cr | ph_items
  | ph_item_end | ph_end.

(** The number Ragel gave to a phase. *)
Definition node (ph : phase) : Z :=
  match ph with
  | ph_start => 1
  | ph_line m => if m then 26 else 50
  | ph_line_cr m => if m then 27 else 51
  | ph_dollar m => if m then 22 else 2
  | ph_neg m => if m then 23 else 3
  | ph_neg_digits m => if m then 24 else 4
  | ph_cr m => if m then 25 else 5
  | ph_zero m => if m then 28 else 6
  | ph_zero_cr m => if m then 29 else 7
  | ph_zero_lf m => if m then 30 else 8
  | ph_size m => if m then 31 else 9
  | ph_size_cr m => if m then 32 else 10
  | ph_first m => if m then 33 else 11
  | ph_data m => if m then 34 else 12
  | ph_star => 14
  | ph_star_neg => 15
  | ph_star_one => 16
  | ph_star_cr => 17
  | ph_star_zero => 18
  | ph_count => 19
  | ph_count_cr => 20
  | ph_items => 21
  | ph_item_end => 54
  | ph_end => 52
  end.

Definition digit_ch (c : Z) : bool := ("0"%ch <=? c) && (c <=? "9"%ch).
Definition positive_ch (c : Z) : bool := ("1"%ch <=? c) && (c <=? "9"%ch).
Definition line_ch (c : Z) : bool := (c =? ":"%ch) || (c =? "+"%ch) || (c =? "-"%ch).

(** The phase after a complete reply, and the action of its last byte. *)
Definition ended (m : bool) (action : Z) : phase * Z := if m then (ph_item_end, 8) else (ph_end, action).

(** A new reply of the kind a multi-bulk reply may contain. *)
Definition next_item (m : bool) (c : Z) : option (phase * Z) :=
  if c =? "$"%ch then Some (ph_dollar m, 0)
  else if line_ch c then Some (ph_line m, 0)
  else None.

(** The phases whose bytes are not counted. *)
Definition next_plain (ph : phase) (c : Z) : option (phase * Z) :=
  let on (b : bool) ph := if b then Some (ph, 0) else None in
  match ph with
  | ph_start => if c =? "*"%ch then Some (ph_star, 0) else next_item false c
  | ph_line m => Some (if c =? CR then ph_line_cr m else ph_line m, 0)
  | ph_line_cr m =>
      Some (if c =? LF then ended m 9 else (if c =? CR then ph_line_cr m else ph_line m, 0))
  | ph_dollar m =>
      if c =? "-"%ch then Some (ph_neg m, 0)
      else if c =? "0"%ch then Some (ph_zero m, 0)
      else if positive_ch c then Some (ph_size m, 1)
      else None
  | ph_neg m => on (digit_ch c) (ph_neg_digits m)
  | ph_neg_digits m => if c =? CR then Some (ph_cr m, 0) else on (digit_ch c) (ph_neg_digits m)
  | ph_cr m => if c =? LF then Some (ended m 2) else None
  | ph_zero m => if c =? CR then Some (ph_zero_cr m, 0) else on (c =? "0"%ch) (ph_zero m)
  | ph_zero_cr m => on (c =? LF) (ph_zero_lf m)
  | ph_zero_lf m => on (c =? CR) (ph_cr m)
  | ph_size m =>
      if c =? CR then Some (ph_size_cr m, 0) else if digit_ch c then Some (ph_size m, 3) else None
  | ph_size_cr m => on (c =? LF) (ph_first m)
  | ph_star =>
      if c =? "-"%ch then Some (ph_star_neg, 0)
      else if c =? "0"%ch then Some (ph_star_zero, 0)
      else if positive_ch c then Some (ph_count, 4)
      else None
  | ph_star_neg => on (c =? "1"%ch) ph_star_one
  | ph_star_one => on (c =? CR) ph_star_cr
  | ph_star_cr => if c =? LF then Some (ph_end, 5) else None
  | ph_star_zero => if c =? CR then Some (ph_star_cr, 0) else on (c =? "0"%ch) ph_star_zero
  | ph_count =>
      if c =? CR then Some (ph_count_cr, 0) else if digit_ch c then Some (ph_count, 6) else None
  | ph_count_cr => if c =? LF then Some (ph_items, 7) else None
  | ph_items | ph_item_end => next_item true c
  | ph_first _ | ph_data _ | ph_end => None
  end.

(** Whether the phase is inside a multi-bulk reply. *)
Definition protected (ph : phase) : bool :=
  match ph with
  | ph_line m | ph_line_cr m | ph_dollar m | ph_neg m | ph_neg_digits m | ph_cr m
  | ph_zero m | ph_zero_cr m | ph_zero_lf m | ph_size m | ph_size_cr m | ph_first m | ph_data m => m
  | ph_items | ph_item_end => true
  | _ => false
  end.

Definition next (ph : phase) (c : Z) (bl bc bn : bool) : bool * option (phase * Z) :=
  let guard r := if protected ph && negb bn then None else r in
  match ph with
  | ph_first m => (true, guard (if bl then Some (ph_data m, 0) else None))
  | ph_data m =>
      (true, guard (if bl then Some (ph_data m, 0)
                    else if (c =? CR) && bc then Some (ph_cr m, 0) else None))
  | _ => (false, guard (next_plain ph c))
  end.

(** What the tables say: whether the byte is counted, the target and the action. *)
Definition widen_bits (space : option Z) (c : Z) (bl bc bn : bool) : Z :=
  let bit (b : bool) n := if b then n else 0 in
  match space with
  | Some 0 => 128 + (c - -128) + bit bl 256
  | Some 2 => 5248 + (c - -128) + bit bn 256
  | Some 3 => 1152 + (c - -128) + bit bl 256 + bit bc 512
  | Some 4 => 2176 + (c - -128) + bit bl 256 + bit bn 512
  | Some 5 => 3200 + (c - -128) + bit bl 256 + bit bc 512 + bit bn 1024
  | _ => c
  end.

Definition counts (space : option Z) : bool :=
  match space with Some 0 | Some 3 | Some 4 | Some 5 => true | _ => false end.

Definition edge (cs c : Z) (bl bc bn : bool) : option (bool * Z * Z) :=
  match cond_space cs c with
  | Some (Some 1) | None => None
  | Some sp =>
      match transition cs (widen_bits sp c bl bc bn) with
      | Some t => Some (counts sp, at_index reply_trans_targs t, at_index reply_trans_actions t)
      | None => None
      end
  end.

(** The tables agree with the automaton in one phase, on one byte. *)
Definition agree (ph : phase) (c : Z) (bl bc bn : bool) : bool :=
  match edge (node ph) (wrap_s 8 c) bl bc bn, next ph c bl bc bn with
  | Some (k, cs, a), (k', Some (ph', a')) => Bool.eqb k k' && (cs =? node ph') && (a =? a')
  | Some (k, cs, a), (k', None) => Bool.eqb k k' && (cs =? 0) && (a =? 0)
  | None, _ => false
  end.

Definition phases : list phase :=
  [ph_start; ph_star; ph_star_neg; ph_star_one; ph_star_cr; ph_star_zero; ph_count; ph_count_cr;
   ph_items; ph_item_end; ph_end]
  ++ concat (map (fun f => [f false; f true])
       [ph_line; ph_line_cr; ph_dollar; ph_neg; ph_neg_digits; ph_zero; ph_zero_cr; ph_zero_lf;
        ph_size; ph_size_cr; ph_first; ph_data; ph_cr]).

Definition conditions : list (bool * bool * bool) :=
  [(true, false, true); (true, false, false); (false, true, true); (false, true, false);
   (false, false, true); (false, false, false)].

Lemma tables_agree :
  forallb (fun ph => forallb (fun '(bl, bc, bn) =>
    range_check 256 (fun c => agree ph c bl bc bn)) conditions) phases = true.
Proof. vm_compute. reflexivity. Qed.

(** ** The machine is the automaton *)

Definition test_len (x : ctx) : bool := chunk_bytes_read x <? chunk_size x.
Definition counted (x : ctx) : ctx :=
  set_chunk_bytes_read (wrap_u 64 (chunk_bytes_read x + 1)) x.
Definition check_data_complete (x : ctx) : bool :=
  chunk_bytes_read x =? wrap_u 64 (chunk_size x + 1).
Definition test_chunk_count (x : ctx) : bool := chunks_read x <? chunk_count x.

(** The values are those of a [size_t]. *)
Definition ctx_ok (x : ctx) : Prop :=
  0 <= chunk_bytes_read x < 2 ^ 64 ∧ 0 <= chunk_size x < 2 ^ 64.

Lemma widen_eq (sp : option Z) (c : Z) (x : ctx) :
  sp ≠ Some 1 →
  widen sp c x = (widen_bits sp c (test_len x) (check_data_complete (counted x))
                    (test_chunk_count x), if counts sp then counted x else x).
Proof.
  intros H. destruct sp as [z|]; [|done]. destruct z as [|z|z]; [done| |done].
  by destruct z as [[[?|?|]|[?|?|]|]|[[?|?|]|[?|?|]|]|].
Qed.

Lemma step_edge (cs : Z) (x : ctx) (d : bool) (p : nat) (ch : Z) (k : bool) (cs' a : Z) :
  cs ≠ 0 →
  edge cs (wrap_s 8 ch) (test_len x) (check_data_complete (counted x)) (test_chunk_count x)
    = Some (k, cs', a) →
  step (cs, x, d) p ch =
  let '(z, d) := run_action a (wrap_s 8 ch) (if k then counted x else x) d in
  if cs' =? 0 then inr (m_out z d) else inl (cs', z, d).
Proof.
  intros Hcs He. unfold step, edge in *. rewrite (proj2 (Z.eqb_neq _ _) Hcs).
  destruct (cond_space cs (wrap_s 8 ch)) as [sp|]; [|done].
  assert (Hsp : sp ≠ Some 1) by (by intros ->).
  assert (E : match transition cs (widen_bits sp (wrap_s 8 ch) (test_len x)
      (check_data_complete (counted x)) (test_chunk_count x)) with
    | Some t => Some (counts sp, at_index reply_trans_targs t, at_index reply_trans_actions t)
    | None => None end = Some (k, cs', a)).
  { destruct sp as [z|]; [|exact He]. destruct z as [|z|z]; [exact He| |exact He].
    destruct z; [exact He..|done]. }
  clear He. rewrite widen_eq by done. destruct (transition cs _) as [t|]; [|done].
  by injection E as <- <- <-.
Qed.

Lemma node_nonzero (ph : phase) : node ph ≠ 0.
Proof. by destruct ph as [|[]|[]|[]|[]|[]|[]|[]|[]|[]|[]|[]|[]|[]| | | | | | | | | | ]. Qed.

Lemma phases_complete (ph : phase) : ph ∈ phases.
Proof. apply list_elem_of_In. destruct ph; try destruct m; cbn; tauto. Qed.

Lemma tables_agree_at (ph : phase) (c : Z) (bl bc bn : bool) :
  is_byte c → bl && bc = false → agree ph c bl bc bn = true.
Proof.
  intros Hc Hb. pose proof tables_agree as H.
  rewrite forallb_forall in H. specialize (H ph ltac:(apply list_elem_of_In, phases_complete)).
  rewrite forallb_forall in H.
  assert (Hin : In (bl, bc, bn) conditions) by (destruct bl, bc, bn; cbn; (tauto || discriminate)).
  specialize (H _ Hin).
  exact (range_check_spec 256 (fun c => agree ph c bl bc bn) c H Hc).
Qed.

Lemma conditions_exclude (x : ctx) :
  ctx_ok x → test_len x && check_data_complete (counted x) = false.
Proof.
  intros [H1 H2]. unfold test_len, check_data_complete, counted. cbn.
  destruct (Z.ltb_spec (chunk_bytes_read x) (chunk_size x)); [|done].
  unfold wrap_u. rewrite (Z.mod_small (chunk_bytes_read x + 1)) by lia.
  destruct (decide (chunk_size x + 1 = 2 ^ 64)) as [->|].
  - rewrite Z.mod_same by lia. cbn. lia.
  - rewrite Z.mod_small by lia. lia.
Qed.

Lemma step_next (ph : phase) (x : ctx) (d : bool) (p : nat) (ch : Z) :
  is_byte ch → ctx_ok x →
  step (node ph, x, d) p ch =
  let '(k, r) := next ph ch (test_len x) (check_data_complete (counted x)) (test_chunk_count x) in
  let y := if k then counted x else x in
  match r with
  | Some (ph', a) => let '(z, d) := run_action a (wrap_s 8 ch) y d in inl (node ph', z, d)
  | None => inr (m_out y d)
  end.
Proof.
  intros Hch Hx.
  pose proof (tables_agree_at ph ch _ _ (test_chunk_count x) Hch (conditions_exclude x Hx)) as H.
  unfold agree in H. destruct (edge _ _ _ _ _) as [[[k cs] a]|] eqn:E; [|done].
  rewrite (step_edge _ _ _ _ _ _ _ _ (node_nonzero ph) E).
  destruct (next ph ch _ _ _) as [k' [[ph' a']|]].
  - apply andb_true_iff in H as [[->%eqb_prop ->%Z.eqb_eq]%andb_true_iff ->%Z.eqb_eq].
    cbv zeta. destruct (run_action _ _ _ _) as [z e].
    rewrite (proj2 (Z.eqb_neq _ _) (node_nonzero ph')). reflexivity.
  - apply andb_true_iff in H as [[->%eqb_prop ->%Z.eqb_eq]%andb_true_iff ->%Z.eqb_eq].
    reflexivity.
Qed.

(** ** Runs over the parts of a reply *)

(** The phase may go on: inside a multi-bulk reply, only while replies are due. *)
Definition allowed (ph : phase) (x : ctx) : Prop := protected ph = true → test_chunk_count x = true.

Definition counting (ph : phase) : bool :=
  match ph with ph_first _ | ph_data _ => true | _ => false end.

Lemma step_plain (ph ph' : phase) (a : Z) (x : ctx) (d : bool) (p : nat) (ch : Z) :
  is_byte ch → ctx_ok x → allowed ph x → counting ph = false →
  next_plain ph ch = Some (ph', a) →
  step (node ph, x, d) p ch =
  let '(z, d) := run_action a (wrap_s 8 ch) x d in inl (node ph', z, d).
Proof.
  intros Hch Hx Ha Hc Hn. rewrite step_next by done.
  assert (E : ∀ bl bc bn, next ph ch bl bc bn
              = (false, if protected ph && negb bn then None else next_plain ph ch))
    by (by destruct ph).
  rewrite E. assert (protected ph && negb (test_chunk_count x) = false) as ->.
  { unfold allowed in Ha. destruct (protected ph); [by rewrite Ha|done]. }
  by rewrite Hn.
Qed.

Lemma run_plain (ph ph' : phase) (x : ctx) (d : bool) (p : nat) (ch : Z) (l : bytes) :
  is_byte ch → ctx_ok x → allowed ph x → counting ph = false →
  next_plain ph ch = Some (ph', 0) →
  mrun step (node ph, x, d) p (ch :: l) = mrun step (node ph', x, d) (p + 1) l.
Proof. intros. cbn [mrun]. by rewrite (step_plain ph ph' 0). Qed.

(** The text of a status line; [cr] tells whether the last byte was CR. *)
Definition in_line (m cr : bool) : phase := if cr then ph_line_cr m else ph_line m.

Lemma run_text (m cr : bool) (x : ctx) (d : bool) (text rest : bytes) (p : nat) :
  ctx_ok x → (m = true → test_chunk_count x = true) → Forall is_byte text →
  no_infix crlf ((if cr then [CR] else []) ++ text) →
  ∃ cr', mrun step (node (in_line m cr), x, d) p (text ++ rest)
         = mrun step (node (in_line m cr'), x, d) (p + length text) rest.
Proof.
  intros Hx Hm Ht. revert cr p. induction Ht as [|c text Hc Ht IH]; intros cr p Hn.
  { exists cr. by rewrite Nat.add_0_r. }
  assert (Ha : allowed (in_line m cr) x) by (by destruct cr).
  assert (Hnext : next_plain (in_line m cr) c = Some (in_line m (c =? CR), 0)).
  { destruct cr; cbn; [|by destruct (c =? 13)].
    destruct (Z.eqb_spec c 10) as [->|]; [|by destruct (c =? 13)].
    by destruct (Hn [] text). }
  cbn [app length]. rewrite (run_plain (in_line m cr) (in_line m (c =? CR)))
    by (done || by destruct cr).
  destruct (IH (c =? CR) (p + 1)%nat) as [cr' ->].
  - destruct (Z.eqb_spec c CR) as [->|]; cbn [app].
    + destruct cr; [by apply no_infix_tail in Hn|done].
    + destruct cr; [apply no_infix_tail in Hn|]; by apply no_infix_tail in Hn.
  - exists cr'. f_equal. lia.
Qed.

(** Decimal digits, read by [read_size]. *)
Lemma read_digit (v c : Z) :
  is_digit c → 0 <= v → v * 10 + (c - 48) < 2 ^ 64 →
  wrap_u 64 (wrap_u 64 (v * 10) + (wrap_s 8 c - 48)) = v * 10 + (c - 48).
Proof.
  intros Hc Hv Hb. unfold is_digit in Hc. rewrite wrap_s_id by lia. unfold wrap_u.
  rewrite (Z.mod_small (v * 10)) by lia. apply Z.mod_small. lia.
Qed.

Lemma dec_value_step (v c : Z) (ds : bytes) (b : Z) :
  is_digit c → Forall is_digit ds → 0 <= v → dec_value v (c :: ds) < b →
  0 <= v * 10 + (c - 48) < b ∧ dec_value (v * 10 + (c - 48)) ds < b.
Proof.
  intros Hc Hd Hv Hb. rewrite dec_value_cons in Hb. unfold is_digit in Hc.
  pose proof (dec_value_ge (v * 10 + (c - 48)) ds ltac:(lia) Hd). lia.
Qed.

Lemma digit_byte (c : Z) : is_digit c → is_byte c ∧ digit_ch c = true ∧ (c =? CR) = false.
Proof. unfold is_digit, is_byte, digit_ch. lia. Qed.

Lemma run_size (m : bool) (x : ctx) (d : bool) (ds rest : bytes) (p : nat) :
  ctx_ok x → (m = true → test_chunk_count x = true) → Forall is_digit ds →
  dec_value (chunk_size x) ds < 2 ^ 64 →
  mrun step (node (ph_size m), x, d) p (ds ++ rest)
  = mrun step (node (ph_size m), set_chunk_size (dec_value (chunk_size x) ds) x, d)
      (p + length ds) rest.
Proof.
  intros Hx Hm Hd. revert x Hx Hm p. induction Hd as [|c ds Hc Hd IH]; intros x Hx Hm p Hv.
  { rewrite Nat.add_0_r. by destruct x. }
  destruct (digit_byte c Hc) as (Hb & Hdc & Hcr). pose proof Hx as [Hx1 Hx2].
  destruct (dec_value_step (chunk_size x) c ds _ Hc Hd ltac:(lia) Hv) as [H1 H2].
  cbn [app mrun length]. rewrite (step_plain (ph_size m) (ph_size m) 3); [|done..|].
  2: { cbn [next_plain]. by rewrite Hcr, Hdc. }
  cbn [run_action]. unfold read_size. rewrite read_digit by (done || lia).
  rewrite IH; [|split; cbn; lia|done|done].
  f_equal. lia.
Qed.

Lemma run_count (x : ctx) (d : bool) (ds rest : bytes) (p : nat) :
  ctx_ok x → Forall is_digit ds → 0 <= chunk_count x → dec_value (chunk_count x) ds < 2 ^ 64 →
  mrun step (node ph_count, x, d) p (ds ++ rest)
  = mrun step (node ph_count, set_chunk_count (dec_value (chunk_count x) ds) x, d)
      (p + length ds) rest.
Proof.
  intros Hx Hd. revert x Hx p. induction Hd as [|c ds Hc Hd IH]; intros x Hx p H0 Hv.
  { rewrite Nat.add_0_r. by destruct x. }
  destruct (digit_byte c Hc) as (Hb & Hdc & Hcr).
  destruct (dec_value_step (chunk_count x) c ds _ Hc Hd ltac:(lia) Hv) as [H1 H2].
  cbn [app mrun length]. rewrite (step_plain ph_count ph_count 6); [|done..|].
  2: { cbn [next_plain]. by rewrite Hcr, Hdc. }
  cbn [run_action]. unfold read_count. rewrite read_digit by (done || lia).
  rewrite IH; [|done|cbn; lia|done].
  f_equal. lia.
Qed.

(** The data of a bulk reply. *)
Lemma step_data (m : bool) (ph : phase) (x : ctx) (d : bool) (p : nat) (ch : Z) :
  ph = ph_first m ∨ ph = ph_data m →
  is_byte ch → ctx_ok x → (m = true → test_chunk_count x = true) → test_len x = true →
  step (node ph, x, d) p ch = inl (node (ph_data m), counted x, d).
Proof.
  intros Hph Hch Hx Hm Hl. rewrite step_next, Hl by done.
  assert (m && negb (test_chunk_count x) = false) as E by (destruct m; [by rewrite Hm|done]).
  by destruct Hph as [-> | ->]; cbn [next protected]; rewrite E.
Qed.

Lemma step_data_end (m : bool) (x : ctx) (d : bool) (p : nat) :
  ctx_ok x → (m = true → test_chunk_count x = true) →
  chunk_bytes_read x = chunk_size x →
  step (node (ph_data m), x, d) p CR = inl (node (ph_cr m), counted x, d).
Proof.
  intros Hx Hm Hl. rewrite step_next by (done || unfold is_byte; lia).
  assert (test_len x = false) as -> by (unfold test_len; lia).
  assert (check_data_complete (counted x) = true) as ->
    by (unfold check_data_complete, counted; cbn; rewrite Hl; apply Z.eqb_refl).
  assert (m && negb (test_chunk_count x) = false) as E by (destruct m; [by rewrite Hm|done]).
  cbn [next protected]. by rewrite E.
Qed.

Definition set_read (n : Z) (x : ctx) : ctx := set_chunk_bytes_read n x.

Lemma counted_read (x : ctx) :
  ctx_ok x → test_len x = true → counted x = set_read (chunk_bytes_read x + 1) x ∧ ctx_ok (counted x).
Proof.
  unfold test_len, counted, ctx_ok, wrap_u. intros [H1 H2] Hl.
  rewrite Z.mod_small by lia. split; [done|]. cbn. lia.
Qed.

Lemma run_data (m : bool) (ph : phase) (x : ctx) (d : bool) (data rest : bytes) (p : nat) :
  ph = ph_first m ∨ ph = ph_data m → data ≠ [] →
  ctx_ok x → (m = true → test_chunk_count x = true) → Forall is_byte data →
  chunk_bytes_read x + Z.of_nat (length data) <= chunk_size x →
  mrun step (node ph, x, d) p (data ++ rest)
  = mrun step (node (ph_data m), set_read (chunk_bytes_read x + Z.of_nat (length data)) x, d)
      (p + length data) rest.
Proof.
  intros Hph Hne Hx Hm Hd. revert ph x Hph Hne Hx Hm p.
  induction Hd as [|c data Hc Hd IH]; intros ph x Hph Hne Hx Hm p Hl; [done|].
  cbn [length] in Hl.
  assert (Ht : test_len x = true) by (unfold test_len; lia).
  destruct (counted_read x Hx Ht) as [E Hok].
  cbn [app mrun length]. rewrite (step_data m ph) by done.
  destruct data as [|c2 data].
  { cbn [app length]. rewrite E. f_equal. }
  rewrite (IH (ph_data m)); [|by right|done|done|by rewrite E|rewrite E; cbn [set_read
    set_chunk_bytes_read chunk_bytes_read chunk_size]; lia].
  rewrite E. cbn [set_read set_chunk_bytes_read chunk_bytes_read length].
  f_equal; [|lia]. f_equal. f_equal. unfold set_read, set_chunk_bytes_read. cbn. f_equal. lia.
Qed.

(** ** Replies *)

(** A reply that is not multi-bulk: a line, a bulk reply of a positive size, an
    empty bulk reply and a null bulk reply. *)
Inductive item :=
  | Line (kind : Z) (text : bytes)
  | Bulk (size data : bytes)
  | Empty (zeros : nat)
  | Nil (digits : bytes).

Definition item_bytes (it : item) : bytes :=
  match it with
  | Line kind text => [kind] ++ text ++ crlf
  | Bulk size data => bs "$" ++ size ++ crlf ++ data ++ crlf
  | Empty zeros => bs "$0" ++ replicate zeros "0"%ch ++ crlf ++ crlf
  | Nil digits => bs "$-" ++ digits ++ crlf
  end.

(** A decimal number without leading zero. *)
Definition numeral (ds : bytes) (n : Z) : Prop :=
  ∃ c ds', ds = c :: ds' ∧ positive_ch c = true ∧ Forall is_digit ds ∧ dec_value 0 ds = n
           ∧ n < 2 ^ 64.

Definition item_ok (it : item) : Prop :=
  match it with
  | Line kind text => line_ch kind = true ∧ Forall is_byte text ∧ no_infix crlf text
  | Bulk size data => numeral size (Z.of_nat (length data)) ∧ Forall is_byte data
  | Empty zeros => True
  | Nil digits => digits ≠ [] ∧ Forall is_digit digits
  end.

Definition is_line (it : item) : bool := match it with Line _ _ => true | _ => false end.

(** What a reply changes in the context. *)
Definition item_after (chunk : bool) (x y : ctx) : Prop :=
  query_count y = query_count x ∧ state y = state x ∧ chunk_count y = chunk_count x
  ∧ chunks_read y = (if chunk then wrap_u 64 (chunks_read x + 1) else chunks_read x)
  ∧ ctx_ok y.

Definition item_done (m : bool) (y : ctx) : bool :=
  if m then chunks_read y =? chunk_count y else true.

Definition end_of (m : bool) : phase := if m then ph_item_end else ph_end.

(** The last line feed. *)
Lemma run_end (m : bool) (ph : phase) (a : Z) (x : ctx) (p : nat) (rest : bytes) :
  next_plain ph LF = Some (ended m a) → counting ph = false → a = 9 ∨ a = 2 →
  ctx_ok x → allowed ph x →
  ∃ y, mrun step (node ph, x, false) p (LF :: rest)
       = mrun step (node (end_of m), y, item_done m y) (p + 1) rest
       ∧ item_after (m || (a =? 2)) x y.
Proof.
  intros Hn Hc Ha Hx Hal. cbn [mrun].
  destruct m; cbn [ended] in Hn; rewrite (step_plain _ _ _ _ _ _ LF ltac:(unfold is_byte; lia) Hx Hal Hc Hn).
  - exists (read_chunk x). split; [|done]. cbn [run_action]. unfold multi_bulk_finalize, item_done.
    by destruct (_ =? _).
  - destruct Ha as [-> | ->]; [by exists x|by exists (read_chunk x)].
Qed.

(** The phases in which a reply may begin. *)
Definition begins (m : bool) (ph : phase) : Prop :=
  if m then ph = ph_items ∨ ph = ph_item_end else ph = ph_start.

Lemma begins_spec (m : bool) (ph : phase) (c : Z) :
  begins m ph → counting ph = false ∧ protected ph = m
  ∧ (c ≠ "*"%ch → next_plain ph c = next_item m c).
Proof.
  destruct m; cbn; [intros [-> | ->]; done|]. intros ->. split_and!; try done.
  intros Hc. cbn. by rewrite (proj2 (Z.eqb_neq c 42)) by done.
Qed.

Section Items.
Context (m : bool) (start : phase) (Hstart : begins m start).
Context (x : ctx) (Hx : ctx_ok x) (Hm : m = true → test_chunk_count x = true).

Lemma start_allowed : allowed start x.
Proof. destruct (begins_spec m start 0 Hstart) as (_ & E & _). unfold allowed. by rewrite E. Qed.

(** The first byte of a reply. *)
Lemma run_first (c : Z) (ph : phase) (d : bool) (p : nat) (rest : bytes) :
  is_byte c → next_item m c = Some (ph, 0) →
  mrun step (node start, x, d) p (c :: rest) = mrun step (node ph, x, d) (p + 1) rest.
Proof.
  intros Hc Hn. destruct (begins_spec m start c Hstart) as (E1 & _ & E3).
  apply run_plain; [done..|apply start_allowed|done|]. rewrite E3; [done|]. by intros ->.
Qed.

Lemma run_line (kind : Z) (text rest : bytes) (p : nat) :
  item_ok (Line kind text) →
  ∃ y, mrun step (node start, x, false) p (item_bytes (Line kind text) ++ rest)
       = mrun step (node (end_of m), y, item_done m y) (p + length (item_bytes (Line kind text))) rest
       ∧ item_after m x y.
Proof.
  intros (Hk & Ht & Hn). cbn [item_bytes]. rewrite <- !app_assoc. cbn [app].
  assert (Hkb : is_byte kind ∧ (kind =? 36) = false) by (unfold line_ch, is_byte in *; lia).
  rewrite (run_first kind (ph_line m)); [|easy|unfold next_item; by rewrite (proj2 Hkb), Hk].
  change (ph_line m) with (in_line m false).
  destruct (run_text m false x false text (crlf ++ rest) (p + 1) Hx Hm Ht Hn) as [cr ->].
  unfold crlf. cbn [app].
  rewrite (run_plain (in_line m cr) (ph_line_cr m)); [|unfold is_byte; lia|done|by destruct cr..].
  destruct (run_end m (ph_line_cr m) 9 x (p + 1 + length text + 1) rest) as (y & -> & Hy);
    [done|done|by left|done|exact Hm|].
  exists y. rewrite orb_false_r in Hy. split; [|done]. f_equal.
  cbn [length]. rewrite length_app. cbn [length]. lia.
Qed.

Lemma run_nil (digits rest : bytes) (p : nat) :
  item_ok (Nil digits) →
  ∃ y, mrun step (node start, x, false) p (item_bytes (Nil digits) ++ rest)
       = mrun step (node (end_of m), y, item_done m y) (p + length (item_bytes (Nil digits))) rest
       ∧ item_after true x y.
Proof.
  intros (Hne & Hd). cbn [item_bytes]. change (bs "$-") with [36; 45]. rewrite <- !app_assoc.
  cbn [app]. rewrite (run_first 36 (ph_dollar m)) by (done || unfold is_byte; lia).
  rewrite (run_plain (ph_dollar m) (ph_neg m)) by (done || unfold is_byte; lia).
  assert (Hrun : ∀ ds q, Forall is_digit ds →
    mrun step (node (ph_neg_digits m), x, false) q (ds ++ crlf ++ rest)
    = mrun step (node (ph_neg_digits m), x, false) (q + length ds) (crlf ++ rest)).
  { intros ds q H. revert q. induction H as [|c ds Hc _ IH]; intros q; [by rewrite Nat.add_0_r|].
    destruct (digit_byte c Hc) as (Hb & Hdc & Hcr). cbn [app length].
    rewrite (run_plain _ (ph_neg_digits m)); [|done..|cbn; by rewrite Hcr, Hdc].
    rewrite IH. f_equal. lia. }
  destruct digits as [|c ds]; [done|]. inversion Hd as [|? ? Hc Hds]; subst.
  destruct (digit_byte c Hc) as (Hb & Hdc & Hcr). cbn [app].
  rewrite (run_plain (ph_neg m) (ph_neg_digits m)); [|done..|cbn; by rewrite Hdc].
  rewrite Hrun by done. unfold crlf. cbn [app].
  rewrite (run_plain _ (ph_cr m)) by (done || unfold is_byte; lia).
  destruct (run_end m (ph_cr m) 2 x (p + 1 + 1 + 1 + length ds + 1) rest) as (y & -> & Hy);
    [done|done|by right|done|exact Hm|].
  exists y. rewrite orb_true_r in Hy. split; [|done]. f_equal.
  cbn [length]. rewrite length_app. cbn [length]. lia.
Qed.

Lemma run_empty (zeros : nat) (rest : bytes) (p : nat) :
  ∃ y, mrun step (node start, x, false) p (item_bytes (Empty zeros) ++ rest)
       = mrun step (node (end_of m), y, item_done m y) (p + length (item_bytes (Empty zeros))) rest
       ∧ item_after true x y.
Proof.
  cbn [item_bytes]. change (bs "$0") with [36; 48]. rewrite <- !app_assoc. cbn [app].
  rewrite (run_first 36 (ph_dollar m)) by (done || unfold is_byte; lia).
  rewrite (run_plain (ph_dollar m) (ph_zero m)) by (done || unfold is_byte; lia).
  assert (Hrun : ∀ q, mrun step (node (ph_zero m), x, false) q (replicate zeros 48 ++ crlf ++ crlf ++ rest)
    = mrun step (node (ph_zero m), x, false) (q + zeros) (crlf ++ crlf ++ rest)).
  { induction zeros as [|n IH]; intros q; [by rewrite Nat.add_0_r|]. cbn [replicate app].
    rewrite (run_plain _ (ph_zero m)) by (done || unfold is_byte; lia). rewrite IH. f_equal. lia. }
  rewrite Hrun. unfold crlf. cbn [app].
  rewrite (run_plain _ (ph_zero_cr m)) by (done || unfold is_byte; lia).
  rewrite (run_plain _ (ph_zero_lf m)) by (done || unfold is_byte; lia).
  rewrite (run_plain _ (ph_cr m)) by (done || unfold is_byte; lia).
  destruct (run_end m (ph_cr m) 2 x (p + 1 + 1 + zeros + 1 + 1 + 1) rest) as (y & -> & Hy);
    [done|done|by right|done|exact Hm|].
  exists y. rewrite orb_true_r in Hy. split; [|done]. f_equal.
  cbn [length]. rewrite length_app, length_replicate. cbn [length]. lia.
Qed.

Lemma run_bulk (size data rest : bytes) (p : nat) :
  item_ok (Bulk size data) →
  ∃ y, mrun step (node start, x, false) p (item_bytes (Bulk size data) ++ rest)
       = mrun step (node (end_of m), y, item_done m y) (p + length (item_bytes (Bulk size data))) rest
       ∧ item_after true x y.
Proof.
  intros ((c & ds & -> & Hc & Hd & Hv & Hn) & Hdata). cbn [item_bytes]. rewrite <- !app_assoc.
  change (bs "$") with [36]. cbn [app]. inversion Hd as [|? ? Hcd Hds]; subst.
  rewrite (run_first 36 (ph_dollar m)) by (done || unfold is_byte; lia).
  destruct (digit_byte c Hcd) as (Hb & _ & _).
  assert (Hz : (c =? 45) = false ∧ (c =? 48) = false ∧ 49 <= c <= 57)
    by (unfold positive_ch in Hc; lia). destruct Hz as (Hz1 & Hz2 & Hz3).
  cbn [mrun]. rewrite (step_plain (ph_dollar m) (ph_size m) 1);
    [|done..|cbn; by rewrite Hz1, Hz2, Hc].
  cbn [run_action]. unfold read_size, start_reading_size.
  change (chunk_size (set_chunk_size 0 (set_chunk_bytes_read 0 x))) with 0.
  rewrite read_digit by (done || lia). rewrite dec_value_cons in Hv.
  change (0 * 10 + (c - 48)) with (c - 48) in *.
  set (x1 := set_chunk_size (c - 48) _). assert (Hx1 : ctx_ok x1) by (unfold ctx_ok, x1; cbn; lia).
  rewrite (run_size m x1) by (done || cbn; lia).
  change (chunk_size x1) with (c - 48). rewrite Hv.
  set (x2 := set_chunk_size _ x1). assert (Hx2 : ctx_ok x2) by (unfold ctx_ok, x2; cbn; lia).
  pose proof (dec_value_ge (c - 48) ds ltac:(lia) Hds) as Hpos.
  unfold crlf at 1. cbn [app].
  rewrite (run_plain _ (ph_size_cr m)) by (done || unfold is_byte; lia).
  rewrite (run_plain _ (ph_first m)) by (done || unfold is_byte; lia).
  rewrite (run_data m (ph_first m)); [|by left|intros ->; cbn [length] in Hv; lia|done..|cbn; lia].
  set (x3 := set_read _ x2). assert (Hx3 : ctx_ok x3) by (unfold ctx_ok, x3; cbn; lia).
  unfold crlf. cbn [app mrun]. rewrite step_data_end by (done || cbn; lia).
  set (x4 := counted x3).
  assert (Hx4 : ctx_ok x4) by (split; [apply Z.mod_pos_bound; lia|apply Hx3]).
  destruct (run_end m (ph_cr m) 2 x4 (p + 1 + 1 + length ds + 1 + 1 + length data + 1) rest)
    as (y & E & Hy); [done|done|by right|done|exact Hm|].
  cbn [mrun] in E. rewrite E. exists y. rewrite orb_true_r in Hy. split; [|exact Hy]. f_equal.
  cbn [length]. rewrite !length_app. cbn [length]. rewrite length_app. cbn [length]. lia.
Qed.

Lemma run_item (it : item) (rest : bytes) (p : nat) :
  item_ok it →
  ∃ y, mrun step (node start, x, false) p (item_bytes it ++ rest)
       = mrun step (node (end_of m), y, item_done m y) (p + length (item_bytes it)) rest
       ∧ item_after (m || negb (is_line it)) x y.
Proof.
  intros Hok. destruct it as [k t|s d|z|ds]; cbn [is_line negb]; rewrite ?orb_true_r, ?orb_false_r.
  - by apply run_line.
  - by apply run_bulk.
  - by apply run_empty.
  - by apply run_nil.
Qed.

End Items.

(** ** Multi-bulk replies *)

Lemma run_items (its : list item) (rest : bytes) (start : phase) (x : ctx) (p : nat) :
  begins true start → its ≠ [] → Forall item_ok its → ctx_ok x → 0 <= chunks_read x →
  chunk_count x = chunks_read x + Z.of_nat (length its) → chunk_count x < 2 ^ 64 →
  ∃ y, mrun step (node start, x, false) p (concat (map item_bytes its) ++ rest)
       = mrun step (node ph_item_end, y, true) (p + length (concat (map item_bytes its))) rest
  ∧ query_count y = query_count x ∧ state y = state x ∧ ctx_ok y
  ∧ chunk_count y = chunk_count x ∧ chunks_read y = chunk_count x.
Proof.
  intros Hs Hne Hok. revert start x p Hs Hne.
  induction Hok as [|it its Hit Hits IH]; intros start x p Hs Hne Hx H0 Hc Hb; [done|].
  cbn [length] in Hc. cbn [map concat]. rewrite <- app_assoc.
  destruct (run_item true start Hs x Hx ltac:(intros _; unfold test_chunk_count; lia) it
    (concat (map item_bytes its) ++ rest) p Hit) as (y & -> & Hq & Hst & Hcc & Hcr & Hy).
  cbn [orb] in Hcr. unfold wrap_u in Hcr. rewrite Z.mod_small in Hcr by lia.
  destruct its as [|it2 its].
  - exists y. cbn [map concat app length] in *. rewrite app_nil_r. split_and!; try (done || lia).
    unfold item_done. by rewrite (proj2 (Z.eqb_eq _ _)) by lia.
  - unfold item_done. rewrite (proj2 (Z.eqb_neq _ _)) by (cbn [length] in Hc; lia).
    destruct (IH (end_of true) y (p + length (item_bytes it))%nat) as (z & -> & Hz);
      [by right|done|done|lia|lia|lia|].
    exists z. rewrite Hq, Hst, Hcc in Hz. split; [|done]. f_equal. rewrite length_app. lia.
Qed.

(** A reply: a single one, a multi-bulk one, an empty or a null multi-bulk one. *)
Inductive reply :=
  | One (it : item)
  | Multi (count : bytes) (its : list item)
  | NoItems (zeros : nat)
  | NoMulti.

Definition reply_bytes (r : reply) : bytes :=
  match r with
  | One it => item_bytes it
  | Multi count its => bs "*" ++ count ++ crlf ++ concat (map item_bytes its)
  | NoItems zeros => bs "*0" ++ replicate zeros "0"%ch ++ crlf
  | NoMulti => bs "*-1" ++ crlf
  end.

Definition reply_ok (r : reply) : Prop :=
  match r with
  | One it => item_ok it
  | Multi count its => numeral count (Z.of_nat (length its)) ∧ Forall item_ok its
  | _ => True
  end.

(** [ctx->chunks_read] and [ctx->chunk_count] after a reply. *)
Definition counts_after (r : reply) (n : Z * Z) : Z * Z :=
  match r with
  | One it => (if is_line it then fst n else wrap_u 64 (fst n + 1), snd n)
  | Multi _ its => (Z.of_nat (length its), Z.of_nat (length its))
  | _ => n
  end.

(** The reply is recognised: an empty multi-bulk reply is only when the two counts,
    left over from the replies before, are equal. *)
Definition recognised (r : reply) (n : Z * Z) : bool :=
  match r with NoItems _ | NoMulti => fst n =? snd n | _ => true end.

Definition counts_of (x : ctx) : Z * Z := (chunks_read x, chunk_count x).

(** No byte continues a complete reply. *)
Definition final (ph : phase) (x : ctx) : Prop :=
  ph = ph_end ∨ ph = ph_item_end ∧ test_chunk_count x = false.

Definition reply_after (r : reply) (x y : ctx) : Prop :=
  query_count y = query_count x ∧ state y = state x ∧ ctx_ok y
  ∧ counts_of y = counts_after r (counts_of x).

Lemma run_multi (count : bytes) (its : list item) (x : ctx) (p : nat) (rest : bytes) :
  reply_ok (Multi count its) → ctx_ok x →
  ∃ y, mrun step (node ph_start, x, false) p (reply_bytes (Multi count its) ++ rest)
       = mrun step (node ph_item_end, y, true) (p + length (reply_bytes (Multi count its))) rest
  ∧ test_chunk_count y = false ∧ reply_after (Multi count its) x y.
Proof.
  intros ((c & ds & -> & Hc & Hd & Hv & Hn) & Hits) Hx. cbn [reply_bytes]. rewrite <- !app_assoc.
  change (bs "*") with [42]. cbn [app]. inversion Hd as [|? ? Hcd Hds]; subst.
  rewrite (run_plain ph_start ph_star) by (done || unfold is_byte; lia).
  destruct (digit_byte c Hcd) as (Hb & _ & _).
  assert (Hz : (c =? 45) = false ∧ (c =? 48) = false ∧ 49 <= c <= 57)
    by (unfold positive_ch in Hc; lia). destruct Hz as (Hz1 & Hz2 & Hz3).
  cbn [mrun]. rewrite (step_plain ph_star ph_count 4); [|done..|cbn; by rewrite Hz1, Hz2, Hc].
  cbn [run_action]. unfold read_count, start_reading_count.
  change (chunk_count (set_chunk_count 0 x)) with 0. rewrite read_digit by (done || lia).
  rewrite dec_value_cons in Hv. change (0 * 10 + (c - 48)) with (c - 48) in *.
  pose proof (dec_value_ge (c - 48) ds ltac:(lia) Hds) as Hpos.
  set (x1 := set_chunk_count (c - 48) _).
  rewrite (run_count x1) by (done || cbn; lia). change (chunk_count x1) with (c - 48). rewrite Hv.
  set (x2 := set_chunk_count _ x1). unfold crlf. cbn [app].
  rewrite (run_plain ph_count ph_count_cr) by (done || unfold is_byte; lia).
  cbn [mrun]. rewrite (step_plain ph_count_cr ph_items 7) by (done || unfold is_byte; lia).
  cbn [run_action]. unfold start_reading_chunk. set (x3 := set_chunks_read 0 x2).
  destruct (run_items its rest ph_items x3 (p + 1 + 1 + length ds + 1 + 1))
    as (y & -> & Hq & Hs & Hy & Hcc & Hcr);
    [by left|by intros ->; cbn [length] in Hv; lia|done|done|done|done|done|].
  exists y. change (chunk_count x3) with (Z.of_nat (length its)) in *. split.
  - f_equal. cbn [length]. rewrite !length_app. cbn [length]. lia.
  - split; [unfold test_chunk_count; lia|]. split_and!; try done. unfold counts_of. by rewrite Hcr, Hcc.
Qed.

Lemma run_no_items (r : reply) (x : ctx) (p : nat) (rest : bytes) :
  (∃ n, r = NoItems n) ∨ r = NoMulti → ctx_ok x →
  mrun step (node ph_start, x, false) p (reply_bytes r ++ rest)
  = mrun step (node ph_end, x, recognised r (counts_of x)) (p + length (reply_bytes r)) rest.
Proof.
  intros Hr Hx.
  assert (Hend : ∀ q, mrun step (node ph_star_cr, x, false) q (LF :: rest)
    = mrun step (node ph_end, x, chunks_read x =? chunk_count x) (q + 1) rest).
  { intros q. cbn [mrun]. rewrite (step_plain ph_star_cr ph_end 5) by (done || unfold is_byte; lia).
    cbn [run_action]. unfold multi_bulk_finalize. by destruct (_ =? _). }
  destruct Hr as [[n ->]| ->]; cbn [reply_bytes recognised counts_of fst snd].
  - change (bs "*0") with [42; 48]. rewrite <- !app_assoc. cbn [app].
    rewrite (run_plain ph_start ph_star), (run_plain ph_star ph_star_zero)
      by (done || unfold is_byte; lia).
    assert (Hz : ∀ q, mrun step (node ph_star_zero, x, false) q (replicate n 48 ++ crlf ++ rest)
      = mrun step (node ph_star_zero, x, false) (q + n) (crlf ++ rest)).
    { induction n as [|n IH]; intros q; [by rewrite Nat.add_0_r|]. cbn [replicate app].
      rewrite (run_plain ph_star_zero ph_star_zero) by (done || unfold is_byte; lia).
      rewrite IH. f_equal. lia. }
    rewrite Hz. unfold crlf. cbn [app].
    rewrite (run_plain ph_star_zero ph_star_cr), Hend by (done || unfold is_byte; lia).
    f_equal. cbn [length]. rewrite length_app, length_replicate. cbn [length]. lia.
  - change (bs "*-1") with [42; 45; 49]. unfold crlf. cbn [app].
    rewrite (run_plain ph_start ph_star), (run_plain ph_star ph_star_neg),
      (run_plain ph_star_neg ph_star_one), (run_plain ph_star_one ph_star_cr), Hend
      by (done || unfold is_byte; lia).
    f_equal. cbn [length]. lia.
Qed.

Lemma run_reply (r : reply) (x : ctx) (p : nat) (rest : bytes) :
  reply_ok r → ctx_ok x → recognised r (counts_of x) = true →
  ∃ ph y, mrun step (node ph_start, x, false) p (reply_bytes r ++ rest)
          = mrun step (node ph, y, true) (p + length (reply_bytes r)) rest
  ∧ final ph y ∧ reply_after r x y.
Proof.
  intros Hr Hx Hf. destruct r as [it|count its|n|].
  - cbn [reply_bytes]. destruct (run_item false ph_start ltac:(done) x Hx ltac:(done) it rest p Hr)
      as (y & E & Hq & Hs & Hcc & Hcr & Hy).
    exists ph_end, y. rewrite E. split; [done|]. split; [by left|]. split_and!; try done.
    unfold counts_of. cbn [counts_after fst snd]. rewrite Hcr, Hcc. by destruct it.
  - destruct (run_multi count its x p rest Hr Hx) as (y & E & Ht & Hy).
    exists ph_item_end, y. rewrite E. split; [done|]. split; [by right|done].
  - exists ph_end, x. rewrite run_no_items, Hf by (eauto || done). split; [done|].
    split; [by left|done].
  - exists ph_end, x. rewrite run_no_items, Hf by (eauto || done). split; [done|].
    split; [by left|done].
Qed.

(** ** What holds of every run *)

(** The machine is in a phase of the automaton, the sizes are in range, the
    request is still the same, and [done] is only set where a reply ends. *)
Definition good (q : nat) (s : mstate) : Prop :=
  ∃ ph x d, s = (node ph, x, d) ∧ ctx_ok x ∧ query_count x = q ∧ (d = true → final ph x).

Lemma step_final (ph : phase) (x : ctx) (d : bool) (p : nat) (ch : Z) :
  is_byte ch → ctx_ok x → final ph x → step (node ph, x, d) p ch = inr (m_out x d).
Proof.
  intros Hch Hx Hf. rewrite step_next by done. destruct Hf as [-> | [-> ->]]; done.
Qed.

(** [done] is set by the last byte of a reply only. *)
Lemma next_plain_action (ph ph' : phase) (c a : Z) :
  next_plain ph c = Some (ph', a) →
  a = 0 ∨ a = 1 ∨ a = 3 ∨ a = 4 ∨ a = 6 ∨ a = 7 ∨ (a = 5 ∨ a = 9 ∨ a = 2) ∧ ph' = ph_end
  ∨ a = 8 ∧ ph' = ph_item_end.
Proof.
  destruct ph; cbn [next_plain]; unfold next_item, ended;
    repeat match goal with
    | |- context [if ?b then _ else _] => destruct b
    end; intros [= <- <-]; tauto.
Qed.

Lemma next_action (ph ph' : phase) (c a : Z) (bl bc bn k : bool) :
  next ph c bl bc bn = (k, Some (ph', a)) →
  a = 0 ∨ a = 1 ∨ a = 3 ∨ a = 4 ∨ a = 6 ∨ a = 7 ∨ (a = 5 ∨ a = 9 ∨ a = 2) ∧ ph' = ph_end
  ∨ a = 8 ∧ ph' = ph_item_end.
Proof.
  assert (H : ∀ r : option (phase * Z), (if protected ph && negb bn then None else r) = Some (ph', a) →
    r = Some (ph', a)) by (intros r; by destruct (_ && _)).
  intros E. apply (f_equal snd) in E.
  destruct ph; cbn [next snd] in E; apply H in E; try (exact (next_plain_action _ _ _ _ E));
    repeat (match type of E with context [if ?b then _ else _] => destruct b end);
    (discriminate E || (injection E as <- <-; tauto)).
Qed.

Lemma finalize_count (x : ctx) :
  multi_bulk_finalize false x = true → test_chunk_count x = false.
Proof. unfold multi_bulk_finalize, test_chunk_count. split_ifs; (done || lia). Qed.

Lemma read_size_ok (c : Z) (x : ctx) :
  0 <= chunk_bytes_read x < 2 ^ 64 → ctx_ok (read_size c x).
Proof. intros H. split; [done|]. apply Z.mod_pos_bound. lia. Qed.

Lemma run_action_good (ph' : phase) (a c : Z) (x : ctx) :
  a = 0 ∨ a = 1 ∨ a = 3 ∨ a = 4 ∨ a = 6 ∨ a = 7 ∨ (a = 5 ∨ a = 9 ∨ a = 2) ∧ ph' = ph_end
    ∨ a = 8 ∧ ph' = ph_item_end →
  ctx_ok x →
  let '(z, d) := run_action a c x false in
  ctx_ok z ∧ query_count z = query_count x ∧ (d = true → final ph' z).
Proof.
  intros Ha Hx. destruct Ha as [->|[->|[->|[->|[->|[->|[[[->|[->| ->]] ->]|[-> ->]]]]]]]];
    cbn [run_action]; (split; [|split; [done|]]); try exact Hx; try done;
    try (by intros _; left);
    try (apply read_size_ok; cbn; destruct Hx; lia).
  intros Hd. right. split; [done|]. by apply finalize_count.
Qed.

Lemma good_step (q : nat) (s s' : mstate) (p : nat) (ch : Z) :
  is_byte ch → good q s → step s p ch = inl s' → good q s'.
Proof.
  intros Hch (ph & x & d & -> & Hx & Hq & Hd) Hs.
  destruct d; [rewrite step_final in Hs by auto; done|].
  rewrite step_next in Hs by done. destruct (next ph ch _ _ _) as [k [[ph' a]|]] eqn:En; [|done].
  cbv zeta in Hs. set (y := if k then counted x else x) in Hs.
  assert (Hy : ctx_ok y ∧ query_count y = q).
  { unfold y. destruct k; [|done]. split; [|done].
    split; [apply Z.mod_pos_bound; lia|apply Hx]. }
  apply next_action in En. pose proof (run_action_good ph' a (wrap_s 8 ch) y En (proj1 Hy)) as G.
  destruct (run_action a (wrap_s 8 ch) y false) as [z e]. destruct G as (G1 & G2 & G3).
  injection Hs as <-. exists ph', z, e. split; [done|]. split; [done|]. split; [|done].
  by rewrite G2, (proj2 Hy).
Qed.

(** ** Resuming *)

Lemma mrun_shift (s : mstate) (p : nat) (l : bytes) :
  mrun step s p l =
  match mrun step s 0 l with
  | inl s' => inl s'
  | inr (r, n) => inr (r, (p + n)%nat)
  end.
Proof.
  revert s p. induction l as [|c l IH]; intros s p; [done|]. cbn [mrun].
  change (step s p c) with (step s 0 c). destruct (step s 0 c) as [s'|r].
  - rewrite (IH s' (p + 1)%nat), (IH s' (0 + 1)%nat).
    destruct (mrun step s' 0 l) as [|[r n]]; [done|]. do 2 f_equal. lia.
  - by rewrite Nat.add_0_r.
Qed.

(** What [exec] leaves behind. *)
Definition executed (q : nat) (l : bytes) (cs : Z) (y : ctx) (done : bool) (n : nat) : Prop :=
  query_count y = q ∧ (n <= length l)%nat
  ∧ (cs ≠ 0 → n = length l ∧ ctx_ok y ∧ ∃ ph, cs = node ph ∧ (done = true → final ph y)).

Lemma exec_good (q : nat) (ph : phase) (x : ctx) (l : bytes) :
  ctx_ok x → query_count x = q → Forall is_byte l →
  ∃ cs y done n, exec (node ph) x l = Some (cs, y, done, n) ∧ executed q l cs y done n
  ∧ (cs = 0 → ctx_ok y).
Proof.
  intros Hx Hq Hl.
  assert (H0 : good q (node ph, x, false)) by (by exists ph, x, false).
  assert (Hstep : ∀ s p ch s', ch ∈ l → good q s → step s p ch = inl s' → good q s').
  { intros s p ch s' Hin. apply good_step. by eapply Forall_forall in Hl. }
  unfold exec. destruct (mrun step (node ph, x, false) 0 l) as [[[cs y] d]|[r n]] eqn:E.
  - destruct (mrun_invariant step (fun s _ => good q s) _ _ _ Hstep H0 _ E)
      as (ph' & y' & d' & [= -> -> ->] & Hy & Hqy & Hd).
    eexists _, _, _, _. split; [done|]. split; [|by intros ?%node_nonzero].
    split; [done|]. split; [done|]. intros _. split; [done|]. split; [done|]. by exists ph'.
  - destruct (mrun_result_invariant step (fun s _ => good q s) _ _ _ Hstep H0 _ _ E)
      as (s' & ch & Hin & (ph' & y' & d' & -> & Hy & Hqy & Hd) & Hs & Hn).
    rewrite step_next in Hs by (try done; by eapply Forall_forall in Hl).
    destruct (next ph' ch _ _ _) as [k [[ph2 a]|]]; cbv zeta in Hs;
      [by destruct (run_action a _ _ d')|].
    injection Hs as <-. eexists _, _, _, _. split; [done|].
    assert (ctx_ok (if k then counted y' else y') ∧ query_count (if k then counted y' else y') = q).
    { destruct k; [|done]. split; [|done]. split; [apply Z.mod_pos_bound; lia|apply Hy]. }
    split; [|tauto]. split; [tauto|]. split; [lia|done].
Qed.

Lemma exec_app (q : nat) (ph : phase) (x : ctx) (a b : bytes) :
  ctx_ok x → query_count x = q → Forall is_byte (a ++ b) → b ≠ [] →
  match exec (node ph) x a with
  | Some (cs, y, done, n) =>
      exec (node ph) x (a ++ b) =
      if cs =? 0 then Some (cs, y, done, n)
      else if done then Some (0, y, true, n)
      else match exec cs y b with
           | Some (cs, y, d, n2) => Some (cs, y, d, (n + n2)%nat)
           | None => None
           end
  | None => True
  end.
Proof.
  intros Hx Hq Hl Hb. apply Forall_app in Hl as [Ha Hbb].
  destruct (exec_good q ph x a Hx Hq Ha) as (cs & y & done & n & E & (Hqy & Hn & Hcs) & _).
  rewrite E. unfold exec in *. rewrite mrun_app.
  destruct (mrun step (node ph, x, false) 0 a) as [[[cs1 y1] d1]|[r1 n1]].
  - injection E as <- <- <- <-.
    destruct (Z.eqb_spec cs1 0) as [->|Hne].
    { destruct b as [|c b]; [done|]. cbn [mrun step]. by rewrite Z.eqb_refl. }
    destruct (Hcs Hne) as (_ & Hy & ph' & -> & Hf). destruct d1.
    + destruct b as [|c b]; [done|]. inversion Hbb; subst. cbn [mrun].
      by rewrite step_final by auto.
    + rewrite mrun_shift. destruct (mrun step (node ph', y1, false) 0 b) as [[[cs2 y2] d2]|[[y2 d2|] n2]].
      * by rewrite length_app.
      * done.
      * done.
  - destruct r1 as [y1 d1|]; [|done]. injection E as <- <- <- <-. done.
Qed.

(** The machine does not look at [ctx->state]. *)
Lemma widen_set_state (sp : option Z) (c v : Z) (x : ctx) :
  widen sp c (set_state v x) = (fst (widen sp c x), set_state v (snd (widen sp c x))).
Proof.
  destruct sp as [z|]; [|done]. destruct z as [|z|z]; [done| |done].
  by destruct z as [[[?|?|]|[?|?|]|]|[[?|?|]|[?|?|]|]|].
Qed.

Lemma run_action_set_state (a c v : Z) (x : ctx) (d : bool) :
  run_action a c (set_state v x) d
  = (set_state v (fst (run_action a c x d)), snd (run_action a c x d)).
Proof.
  destruct a as [|z|z]; [done| |done].
  by do 4 (try destruct z as [z|z|]).
Qed.

Lemma step_set_state (cs v : Z) (x : ctx) (d : bool) (p : nat) (ch : Z) :
  step (cs, set_state v x, d) p ch =
  match step (cs, x, d) p ch with
  | inl (cs, x, d) => inl (cs, set_state v x, d)
  | inr (m_out x d) => inr (m_out (set_state v x) d)
  | inr m_fuel => inr m_fuel
  end.
Proof.
  unfold step. destruct (cs =? 0); [done|]. destruct (cond_space _ _) as [sp|]; [|done].
  rewrite widen_set_state. destruct (widen sp _ x) as [w y]. cbn [fst snd].
  destruct (transition cs w) as [t|]; [|done]. rewrite run_action_set_state.
  destruct (run_action _ _ y d) as [z e]. cbn [fst snd]. by destruct (_ =? 0).
Qed.

Lemma exec_set_state (cs v : Z) (x : ctx) (l : bytes) :
  exec cs (set_state v x) l =
  match exec cs x l with
  | Some (cs, y, d, n) => Some (cs, set_state v y, d, n)
  | None => None
  end.
Proof.
  assert (H : ∀ p d, mrun step (cs, set_state v x, d) p l =
    match mrun step (cs, x, d) p l with
    | inl (cs, x, d) => inl (cs, set_state v x, d)
    | inr (m_out x d, n) => inr (m_out (set_state v x) d, n)
    | inr (m_fuel, n) => inr (m_fuel, n)
    end).
  { revert cs x. induction l as [|c l IH]; intros cs x p d; [done|]. cbn [mrun].
    rewrite step_set_state. destruct (step (cs, x, d) p c) as [[[cs' x'] d']|[]]; [apply IH|done..]. }
  unfold exec. rewrite H. by destruct (mrun step (cs, x, false) 0 l) as [[[]]|[[] ?]].
Qed.

(** Between two calls. *)
Definition ready (x : ctx) : Prop :=
  ctx_ok x ∧ (state x = NGX_ERROR ∨ ∃ ph, state x = node ph).

Definition entry (x : ctx) : Z := if state x =? NGX_ERROR then reply_start else state x.

Lemma entry_node (x : ctx) : ready x → ∃ ph, entry x = node ph.
Proof.
  intros [_ [E|[ph E]]]; unfold entry; rewrite E; [by exists ph_start|]. exists ph.
  destruct (Z.eqb_spec (node ph) NGX_ERROR) as [H|]; [|done].
  exfalso. revert H. by destruct ph as [|[]|[]|[]|[]|[]|[]|[]|[]|[]|[]|[]|[]|[]| | | | | | | | | | ].
Qed.

Lemma node_entry (ph : phase) (x : ctx) : entry (set_state (node ph) x) = node ph.
Proof. by destruct ph as [|[]|[]|[]|[]|[]|[]|[]|[]|[]|[]|[]|[]|[]| | | | | | | | | | ]. Qed.

(** A buffer that has bytes already gets the new ones after them. *)
Lemma loop_frame (queries : nat) (x : ctx) (cl : option bytes) (pre l : bytes) (k last : nat) :
  reply_loop true queries x (Some (pre ++ default [] cl)) (k + last) l =
  match reply_loop true queries x cl last l with
  | Some (rc, y, e) =>
      Some (rc, y, mk_effect (if rc =? NGX_OK then Some (pre ++ default [] (e_out e)) else None)
                     (k + e_last e) (e_complete e) (e_keepalive e))
  | None => None
  end.
Proof.
  revert x cl last l. induction queries as [|q IH]; intros x cl last l; [done|]. cbn [reply_loop].
  destruct (exec _ x l) as [[[[cs y] dn] n]|]; [|done].
  destruct (negb dn && (cs =? reply_error)); [done|]. cbn [negb andb].
  cbv zeta. change (default [] (Some (pre ++ default [] cl))) with (pre ++ default [] cl).
  rewrite <- !app_assoc, <- Nat.add_assoc. destruct dn; [|done].
  destruct q as [|q]; [done|].
  by rewrite (IH _ (Some (default [] cl ++ take n l)) (last + n)%nat).
Qed.

(** The same return value and context; and the same effects, except that an error
    leaves [b->last] where the last complete reply of the call ended. *)
Definition same_outcome (r1 r2 : option (Z * ctx * effect)) : Prop :=
  match r1, r2 with
  | Some (rc1, y1, e1), Some (rc2, y2, e2) =>
      rc1 = rc2 ∧ y1 = y2 ∧ e_complete e1 = e_complete e2 ∧ (rc1 = NGX_OK → e1 = e2)
  | _, _ => False
  end.

Lemma same_outcome_refl (queries : nat) (x : ctx) (cl : option bytes) (last : nat) (l : bytes) :
  same_outcome (reply_loop true queries x cl last l) (reply_loop true queries x cl last l).
Proof.
  assert (H : is_Some (reply_loop true queries x cl last l)).
  { revert x cl last l. induction queries as [|q IH]; intros x cl last l; [done|].
    cbn [reply_loop]. destruct (exec_total (entry x) x l) as [[[[cs y] dn] n] E].
    unfold entry in E. rewrite E. destruct (negb dn && _); [done|]. cbn [negb andb]. cbv zeta.
    destruct dn; [|done]. destruct q; [done|apply IH]. }
  by destruct H as [[[rc y] e] ->].
Qed.

(** The loop on [a ++ b], [whole], when the loop on [a], [first], is known. *)
Definition joined (first whole : option (Z * ctx * effect)) (cl : option bytes) (last : nat) (a b : bytes) : Prop :=
  match first with
  | None => False
  | Some (rc, x', e) =>
      if rc =? NGX_OK then
        if e_complete e then
          ∃ y k, whole = Some (NGX_OK, y, mk_effect (e_out e) (e_last e) true k)
                 ∧ (e_last e <= last + length a)%nat
        else
          ready x' ∧ (0 < query_count x')%nat
          ∧ e_out e = Some (default [] cl ++ a) ∧ e_last e = (last + length a)%nat
          ∧ same_outcome whole
              (reply_loop true (query_count x') x' (Some (default [] cl ++ a)) (last + length a) b)
      else ∃ y e', whole = Some (rc, y, e')
  end.

Definition continues (queries : nat) (x : ctx) (cl : option bytes) (last : nat) (a b : bytes) : Prop :=
  joined (reply_loop true queries x cl last a) (reply_loop true queries x cl last (a ++ b)) cl last a b.

(** A reply of [n] bytes has been passed on. *)
Lemma joined_shift first whole (cl : option bytes) (last n : nat) (a b : bytes) :
  (n <= length a)%nat →
  joined first whole (Some (default [] cl ++ take n a)) (last + n) (drop n a) b →
  joined first whole cl last a b.
Proof.
  intros Hn. unfold joined.
  change (default [] (Some (default [] cl ++ take n a))) with (default [] cl ++ take n a).
  rewrite <- (app_assoc (default [] cl)), take_drop, length_drop.
  replace (last + n + (length a - n))%nat with (last + length a)%nat by lia. done.
Qed.

(** The first part ends inside of a reply: the rest of it is read from the state that
    was saved. *)
Lemma loop_resumes (q : nat) (cl : option bytes) (last : nat) (a b : bytes) (ph : phase) (y : ctx) :
  let x := set_state (node ph) y in
  query_count y = S q →
  same_outcome
    (match exec (node ph) y b with
     | None => None
     | Some (cs, y, dn, n) =>
         let x := set_state cs y in
         if negb dn && (cs =? reply_error)
         then Some (Chunked.NGX_HTTP_INTERNAL_SERVER_ERROR, x, mk_effect None last true false)
         else
           let out := Some (default [] cl ++ take (length a + n) (a ++ b)) in
           let last := (last + (length a + n))%nat in
           if dn then
             let x := set_query_count q x in
             match q with
             | O => Some (NGX_OK, x, mk_effect out last true (negb (cs =? reply_error)))
             | S _ => reply_loop true q (set_state NGX_ERROR x) out last (drop (length a + n) (a ++ b))
             end
           else Some (NGX_OK, x, mk_effect out last false false)
     end)
    (reply_loop true (query_count x) x (Some (default [] cl ++ a)) (last + length a) b).
Proof.
  intros x Hq. unfold x. cbn [query_count set_state]. rewrite Hq. cbn [reply_loop].
  change (if state (set_state (node ph) y) =? NGX_ERROR then reply_start
          else state (set_state (node ph) y)) with (entry (set_state (node ph) y)).
  rewrite node_entry, exec_set_state.
  destruct (exec_total (node ph) y b) as [[[[cs2 y2] d2] n2] ->].
  rewrite take_app_ge, drop_app_ge by lia.
  replace (length a + n2 - length a)%nat with n2 by lia.
  cbv zeta. change (default [] (Some (default [] cl ++ a))) with (default [] cl ++ a).
  rewrite !app_assoc, Nat.add_assoc. unfold reply_error.
  change (set_state cs2 (set_state (node ph) y2)) with (set_state cs2 y2).
  destruct d2; cbn [negb andb]; [|by destruct (cs2 =? 0)].
  destruct q; [done|apply same_outcome_refl].
Qed.

Lemma loop_app (queries : nat) (x : ctx) (cl : option bytes) (last : nat) (a b : bytes) :
  ready x → query_count x = queries → (0 < queries)%nat → Forall is_byte (a ++ b) → b ≠ [] →
  continues queries x cl last a b.
Proof.
  revert x cl last a. induction queries as [|q IH]; intros x cl last a Hx Hq H0 Hl Hb; [lia|].
  destruct (entry_node x Hx) as [ph Eph]. destruct Hx as [Hx _].
  pose proof (exec_app (S q) ph x a b Hx Hq Hl Hb) as Happ.
  assert (Ha : Forall is_byte a) by (by apply Forall_app in Hl as [? _]).
  destruct (exec_good (S q) ph x a Hx Hq Ha) as (cs & y & dn & n & E & (Hqy & Hn & Hcs) & Hcs0).
  rewrite E in Happ. unfold continues. cbn [reply_loop].
  change (if state x =? NGX_ERROR then reply_start else state x) with (entry x).
  rewrite Eph, E, Happ. clear Happ. unfold reply_error.
  assert (Hl' : Forall is_byte (drop n a ++ b)) by (rewrite <- drop_app_le by lia; by apply Forall_drop).
  destruct (Z.eqb_spec cs 0) as [->|Hne].
  - (* the machine stopped inside [a] *)
    specialize (Hcs0 eq_refl). rewrite Z.eqb_refl. destruct dn; cbn [negb andb]; [|by eexists _, _].
    cbv zeta. rewrite take_app_le, drop_app_le by lia. destruct q as [|q].
    { cbn [Z.eqb NGX_OK e_complete e_out e_last joined]. eexists _, _. split; [done|lia]. }
    apply (joined_shift _ _ cl last n a b Hn).
    apply IH; [split; [exact Hcs0|by left]|done|lia|done|done].
  - destruct (Hcs Hne) as (-> & Hy & ph' & -> & Hfin).
    rewrite andb_false_r. destruct dn; cbn [negb andb]; cbv zeta.
    + (* [a] ends with a reply *)
      rewrite take_app_le, drop_app_le by lia. destruct q as [|q].
      { cbn [Z.eqb NGX_OK e_complete e_out e_last joined]. eexists _, _. split; [done|lia]. }
      apply (joined_shift _ _ cl last (length a) a b Hn).
      exact (IH (set_state NGX_ERROR (set_query_count (S q) (set_state (node ph') y)))
        (Some (default [] cl ++ take (length a) a)) (last + length a)%nat (drop (length a) a)
        ltac:(split; [exact Hy|by left]) eq_refl ltac:(lia) Hl' Hb).
    + (* [a] ends inside a reply *)
      rewrite take_ge by lia. cbn [Z.eqb NGX_OK e_complete e_out e_last joined].
      split; [split; [done|right; by exists ph']|]. split; [cbn; lia|].
      split; [done|]. split; [done|].
      pose proof (loop_resumes q cl last a b ph' y Hqy) as Hres. cbv zeta in Hres.
      destruct (exec_total (node ph') y b) as [[[[cs2 y2] d2] n2] E2]. rewrite E2 in Hres |- *. exact Hres.
Qed.

(** ** Pipelines *)

Lemma item_bytes_ok (it : item) : item_ok it → Forall is_byte (item_bytes it).
Proof.
  destruct it as [k t|sz d|z|ds]; cbn [item_ok item_bytes].
  - intros (Hk & Ht & _). unfold line_ch in Hk. auto with ngx.
  - intros ((c & ds & -> & _ & Hd & _) & Hb). auto with ngx.
  - auto with ngx.
  - intros (_ & Hd). auto with ngx.
Qed.

Lemma reply_bytes_ok (r : reply) : reply_ok r → Forall is_byte (reply_bytes r).
Proof.
  destruct r as [it|count its|z|]; cbn [reply_ok reply_bytes].
  - apply item_bytes_ok.
  - intros ((c & ds & -> & _ & Hd & _) & Hb).
    assert (Forall (fun it => Forall is_byte (item_bytes it)) its)
      by (eapply Forall_impl; [exact Hb|apply item_bytes_ok]).
    auto 6 with ngx.
  - auto with ngx.
  - auto with ngx.
Qed.

Lemma reply_bytes_nonempty (r : reply) : reply_bytes r ≠ [].
Proof. destruct r as [[]| | |]; discriminate. Qed.

Lemma exec_reply (r : reply) (x : ctx) (rest : bytes) :
  reply_ok r → ctx_ok x → recognised r (counts_of x) = true → Forall is_byte rest →
  ∃ cs y, exec reply_start x (reply_bytes r ++ rest) = Some (cs, y, true, length (reply_bytes r))
  ∧ (rest = [] → cs ≠ 0) ∧ reply_after r x y.
Proof.
  intros Hr Hx Hf Hb. unfold exec. change reply_start with (node ph_start).
  destruct (run_reply r x 0 rest Hr Hx Hf) as (ph & y & -> & Hfin & Hy).
  destruct rest as [|c rest]; cbn [mrun].
  - exists (node ph), y. rewrite app_nil_r. split; [done|]. split; [intros _; apply node_nonzero|done].
  - inversion Hb; subst. rewrite step_final by (done || apply Hy). by exists 0, y.
Qed.

(** Every reply is recognised, with the counts the replies before it leave. *)
Fixpoint all_recognised (rs : list reply) (n : Z * Z) : bool :=
  match rs with
  | [] => true
  | r :: rs => recognised r n && all_recognised rs (counts_after r n)
  end.

Definition stream (rs : list reply) : bytes := concat (map reply_bytes rs).

Lemma stream_ok (rs : list reply) : Forall reply_ok rs → Forall is_byte (stream rs).
Proof.
  intros H. apply Forall_concat, Forall_map. eapply Forall_impl; [exact H|]. apply reply_bytes_ok.
Qed.

Lemma loop_pipeline (rs : list reply) (x : ctx) (cl : option bytes) (last : nat) :
  rs ≠ [] → Forall reply_ok rs → ctx_ok x → state x = NGX_ERROR →
  all_recognised rs (counts_of x) = true →
  ∃ y, reply_loop true (length rs) x cl last (stream rs)
       = Some (NGX_OK, y, mk_effect (Some (default [] cl ++ stream rs))
                            (last + length (stream rs)) true true)
       ∧ query_count y = 0%nat.
Proof.
  intros Hne Hok. revert x cl last Hne. induction Hok as [|r rs Hr Hrs IH];
    intros x cl last Hne Hx Hs Hrec; [done|].
  cbn [all_recognised] in Hrec. apply andb_true_iff in Hrec as [Hf Hrec].
  destruct (exec_reply r x (stream rs) Hr Hx Hf (stream_ok rs Hrs)) as (cs & y & E & Hcs & Hq & _ & Hy & Hn).
  unfold stream in *. cbn [map concat length reply_loop]. rewrite Hs, Z.eqb_refl, E.
  cbn [negb andb]. cbv zeta. rewrite take_app_length, drop_app_length.
  destruct rs as [|r2 rs].
  - cbn [map concat length]. rewrite app_nil_r, (proj2 (Z.eqb_neq cs reply_error)) by (by apply Hcs).
    by eexists.
  - destruct (IH (set_state NGX_ERROR (set_query_count (length (r2 :: rs)) (set_state cs y)))
      (Some (default [] cl ++ reply_bytes r)) (last + length (reply_bytes r))%nat) as (z & Ez & Hz);
      [done|exact Hy|done|by rewrite <- Hn in Hrec|].
    exists z. split; [|done]. cbn [length] in *. rewrite Ez.
    change (default [] (Some (default [] cl ++ reply_bytes r))) with (default [] cl ++ reply_bytes r).
    rewrite <- app_assoc, length_app, Nat.add_assoc. done.
Qed.

(** The calls of [ngx_http_redis2_process_reply] on the segments in which the
    bytes arrive, until it fails or the replies are complete; [out] is what was
    passed on so far. *)
Fixpoint feed (x : ctx) (segs : list bytes) (out : bytes) : option (Z * ctx * bytes * effect) :=
  match segs with
  | [] => None
  | s :: segs =>
      match ngx_http_redis2_process_reply true x s with
      | None => None
      | Some (rc, y, e) =>
          let out := out ++ default [] (e_out e) in
          if (rc =? NGX_OK) && negb (e_complete e) then feed y segs out else Some (rc, y, out, e)
      end
  end.

Definition completes (x : ctx) (l : bytes) (y : ctx) : Prop :=
  ∃ e, ngx_http_redis2_process_reply true x l = Some (NGX_OK, y, e)
  ∧ default [] (e_out e) = l ∧ e_last e = length l ∧ e_complete e = true ∧ e_keepalive e = true.

Lemma feed_completes (segs : list bytes) (x y : ctx) (out : bytes) :
  segs ≠ [] → Forall (.≠ []) segs → Forall is_byte (concat segs) →
  ready x → (0 < query_count x)%nat → completes x (concat segs) y →
  ∃ e, feed x segs out = Some (NGX_OK, y, out ++ concat segs, e)
  ∧ e_complete e = true ∧ e_keepalive e = true.
Proof.
  intros Hne Hs. revert x out Hne. induction Hs as [|s segs Hs Hsegs IH];
    intros x out Hne Hb Hx Hq (e & E & Hout & Hlast & Hc & Hk); [done|].
  cbn [concat feed] in *. destruct segs as [|s2 segs].
  { cbn [concat] in *. rewrite app_nil_r in *. rewrite E, Hc, Hout. cbn [Z.eqb NGX_OK negb andb].
    by exists e. }
  set (b := concat (s2 :: segs)) in *.
  assert (Hbne : b ≠ []) by (inversion Hsegs; subst; unfold b; cbn; by destruct s2).
  unfold ngx_http_redis2_process_reply in *.
  pose proof (loop_app (query_count x) x None 0 s b Hx eq_refl Hq Hb Hbne) as H.
  unfold continues, joined in H.
  destruct (reply_loop true (query_count x) x None 0 s) as [[[rc x'] e1]|]; [|done].
  destruct (Z.eqb_spec rc NGX_OK) as [->|Hrc].
  2: { destruct H as (z & e' & H). rewrite E in H. by injection H as <- _ _. }
  destruct (e_complete e1).
  { destruct H as (z & k & H & Hle). rewrite E in H. injection H as _ ->.
    cbn [e_last] in Hlast. rewrite length_app in Hlast.
    assert (length b ≠ 0%nat) by (by destruct b). lia. }
  cbn [negb andb]. destruct H as (Hr & Hq' & Hout1 & _ & H). rewrite E in H.
  change (same_outcome (Some (NGX_OK, y, e))
    (reply_loop true (query_count x') x' (Some s) (length s) b)) in H.
  pose proof (loop_frame (query_count x') x' None s b (length s) 0) as F.
  change (default [] (@None bytes)) with (@nil Z) in F. rewrite app_nil_r, Nat.add_0_r in F.
  rewrite F in H. clear F.
  destruct (reply_loop true (query_count x') x' None 0 b) as [[[rc2 y2] e2]|] eqn:E2; [|done].
  destruct H as (<- & <- & Hc2 & He). specialize (He eq_refl). subst e.
  cbn [Z.eqb NGX_OK e_out e_last e_complete e_keepalive] in Hout, Hlast, Hc, Hk.
  change (s ++ default [] (e_out e2) = s ++ b) in Hout.
  apply app_inv_head in Hout.
  rewrite Hout1. change (default [] (Some (default [] None ++ s))) with s.
  destruct (IH x' (out ++ s)) as (e3 & -> & H3); [done| |done|done| |].
  { by apply Forall_app in Hb as [_ ?]. }
  { exists e2. rewrite length_app in Hlast. split_and!; (done || lia). }
  exists e3. by rewrite app_assoc.
Qed.

(** A pipeline of queries is answered: whatever well-formed replies Redis sends,
    in whatever segments they arrive, the machine recognises the end of each reply
    at its last byte, all bytes are passed on, the request completes at the end of
    the last reply and the connection is kept alive.  An empty or null multi-bulk
    reply counts as recognised only when the counts that earlier replies left are
    equal. *)
Theorem redis2_pipeline (rs : list reply) (segs : list bytes) :
  rs ≠ [] → Forall reply_ok rs → all_recognised rs (0, 0) = true →
  Forall (.≠ []) segs → concat segs = stream rs →
  ∃ y e, feed (ctx_init (length rs)) segs [] = Some (NGX_OK, y, stream rs, e)
  ∧ query_count y = 0%nat ∧ e_complete e = true ∧ e_keepalive e = true.
Proof.
  intros Hne Hok Hrec Hs Hcat. set (x := ctx_init (length rs)).
  assert (Hx : ctx_ok x) by (unfold ctx_ok; cbn; lia).
  destruct (loop_pipeline rs x None 0 Hne Hok Hx eq_refl Hrec) as (y & E & Hq).
  assert (Hsegs : segs ≠ []).
  { intros ->. destruct rs as [|r rs]; [done|]. inversion Hok as [|? ? Hr _]; subst.
    symmetry in Hcat. apply app_nil in Hcat as [Hcat _]. by apply reply_bytes_nonempty in Hcat. }
  destruct (feed_completes segs x y [] Hsegs Hs) as (e & -> & H1 & H2).
  - rewrite Hcat. by apply stream_ok.
  - split; [done|by left].
  - cbn. destruct rs; [done|cbn; lia].
  - rewrite Hcat. eexists. split; [exact E|]. done.
  - exists y, e. rewrite Hcat. done.
Qed.

Definition example_replies : list reply :=
  [One (Line "+"%ch (bs "OK")); Multi (bs "2") [Bulk (bs "2") (bs "hi"); Line "+"%ch (bs "OK")]].

Definition example_segments : list bytes :=
  [bs "+OK" ++ [CR]; [LF] ++ bs "*2" ++ crlf ++ bs "$2"; crlf ++ bs "hi" ++ crlf ++ bs "+OK" ++ crlf].

Lemma redis2_pipeline_witness :
  ∃ y e, feed (ctx_init (length example_replies)) example_segments []
         = Some (NGX_OK, y, stream example_replies, e)
  ∧ query_count y = 0%nat ∧ e_complete e = true ∧ e_keepalive e = true.
Proof.
  assert (Hok : item_ok (Line "+"%ch (bs "OK"))).
  { split; [done|]. split; [solve_bytes|]. intros [|? [|? [|? a]]] b; try done; by destruct a. }
  assert (Hnum : ∀ n, n = 2 → numeral (bs "2") n)
    by (intros n ->; exists 50, []; split_and!; try done; solve_forall ltac:(unfold is_digit; lia)).
  apply (redis2_pipeline example_replies example_segments).
  - discriminate.
  - apply Forall_cons; split; [exact Hok|]. apply Forall_singleton. split; [by apply Hnum|].
    apply Forall_cons; split; [split; [by apply Hnum|solve_bytes]|by apply Forall_singleton].
  - reflexivity.
  - unfold example_segments. solve_forall done.
  - reflexivity.
Defined.

(** The counts of the last multi-bulk reply are not reset by an empty one: after a
    bulk reply, the empty multi-bulk reply of the next query of the pipeline is
    read to its end and not recognised; the request stays incomplete and waits for
    bytes that Redis will not send. *)
Theorem empty_multi_bulk_stalls (it : item) (zeros : nat) :
  item_ok it → is_line it = false →
  ∃ y e, ngx_http_redis2_process_reply true (ctx_init 2) (stream [One it; NoItems zeros])
         = Some (NGX_OK, y, e)
  ∧ query_count y = 1%nat ∧ e_complete e = false ∧ e_last e = length (stream [One it; NoItems zeros]).
Proof.
  intros Hok Hline. unfold ngx_http_redis2_process_reply, stream. cbn [map concat].
  rewrite app_nil_r. set (x := ctx_init 2). assert (Hx : ctx_ok x) by (unfold ctx_ok; cbn; lia).
  destruct (exec_reply (One it) x (reply_bytes (NoItems zeros)) Hok Hx eq_refl
    (reply_bytes_ok (NoItems zeros) I)) as (cs & y & E & _ & _ & _ & Hy & Hn).
  change (query_count x) with 2%nat. cbn [reply_loop]. change (state x =? NGX_ERROR) with true.
  cbn iota. rewrite E. cbn [negb andb]. cbv zeta. rewrite take_app_length, drop_app_length.
  set (x2 := set_state NGX_ERROR _). change (state x2 =? NGX_ERROR) with true. cbn iota.
  assert (E2 : exec reply_start x2 (reply_bytes (NoItems zeros))
    = Some (node ph_end, x2, false, length (reply_bytes (NoItems zeros)))).
  { unfold exec. change reply_start with (node ph_start).
    rewrite <- (app_nil_r (reply_bytes (NoItems zeros))) at 1.
    rewrite run_no_items by (eauto || done). cbn [mrun].
    change (counts_of x2) with (counts_of y). rewrite Hn. cbn [counts_after]. by rewrite Hline. }
  rewrite E2. eexists _, _. split; [done|]. split; [done|]. split; [done|]. cbn [e_last].
  rewrite length_app. cbn [reply_bytes]. lia.
Qed.

Lemma empty_multi_bulk_stalls_witness :
  ∃ y e, ngx_http_redis2_process_reply true (ctx_init 2)
           (stream [One (Bulk (bs "2") (bs "hi")); NoItems 0]) = Some (NGX_OK, y, e)
  ∧ query_count y = 1%nat ∧ e_complete e = false
  ∧ e_last e = length (stream [One (Bulk (bs "2") (bs "hi")); NoItems 0]).
Proof.
  apply (empty_multi_bulk_stalls (Bulk (bs "2") (bs "hi")) 0).
  - split; [|solve_bytes]. exists 50, []. split_and!; try done. solve_forall ltac:(unfold is_digit; lia).
  - reflexivity.
Defined.

End Redis2Reply.
