(* ===== verification/Redis2.v ===== *)
(** * The redis2 module

    src/redis2-nginx-module-master/src without the reply parser of Redis2Reply:
    the directives and the merging of configurations (ngx_http_redis2_module.c),
    the construction of a pipeline of queries in the Redis protocol
    (ngx_http_redis2_util.c) and the handler with its upstream callbacks
    (ngx_http_redis2_handler.c).

    The values of nginx variables come from the script engine of nginx.  A compiled
    string is an element of a type [V]; [compile] and [evaluate] stand for
    [ngx_http_compile_complex_value] and for what [ngx_http_complex_value] gives for
    a compiled string in the request at hand, [None] being [NGX_ERROR]. *)

From S2P Require Import Prelude NgxNumber NgxCompare HttpChunked Redis2Reply.

Open Scope Z_scope.

Module Redis2.

Export Redis2Reply.

(** ** Building the request *)

(** [do { i = i / 10; n++; } while (i > 0);] *)
Fixpoint num_size (fuel : nat) (i n : Z) : Z :=
  match fuel with
  | O => n
  | S fuel => let i := i / 10 in let n := n + 1 in if i >? 0 then num_size fuel i n else n
  end.

Definition ngx_get_num_size (i : Z) : Z := num_size NGX_INT64_LEN i 0.

(** [ngx_sprintf(p, "%uz", n)]: no width, and no end of the buffer. *)
Definition sprintf_uz (n : Z) : bytes := ngx_sprintf_num NGX_MAX_INT_T_VALUE n " "%ch 0 0.

(** Which allocations of [ngx_http_redis2_create_request] succeed: the array of the
    arguments, the buffer and the chain link.  The array is created with room for
    all arguments, [ngx_array_push] does not allocate. *)
Record allocs := mk_allocs { a_args : bool; a_buf : bool; a_link : bool }.

Section Values.
Context {V : Type}.
Variable evaluate : V → option bytes.

(** A complex value that was only zeroed, for an empty string, or compiled. *)
Inductive complex_value := cv_zero | cv_compiled (v : V).

Definition ngx_http_complex_value (cv : complex_value) : option bytes :=
  match cv with
  | cv_zero => Some []
  | cv_compiled v => evaluate v
  end.

(** The inner loop that evaluates the arguments of a query: they are appended to
    the array [args], and [len] counts what they take. *)
Fixpoint measure_args (query : list complex_value) (args : list bytes) (len : Z)
    : option (list bytes * Z) :=
  match query with
  | [] => Some (args, len)
  | cv :: query =>
      match ngx_http_complex_value cv with
      | None => None
      | Some arg =>
          let n := Z.of_nat (length arg) in
          measure_args query (args ++ [arg])
            (wrap_u 64 (len + (1 + ngx_get_num_size n + 2 + n + 2)))
      end
  end.

Fixpoint measure_queries (queries : list (list complex_value)) (args : list bytes) (len : Z)
    : option (list bytes * Z) :=
  match queries with
  | [] => Some (args, len)
  | query :: queries =>
      match measure_args query args
              (wrap_u 64 (len + (1 + ngx_get_num_size (Z.of_nat (length query)) + 2))) with
      | None => None
      | Some (args, len) => measure_queries queries args len
      end
  end.

(** The inner loop that writes the next [n] arguments of the array. *)
Fixpoint write_args (n : nat) (args : list bytes) : bytes * list bytes :=
  match n with
  | O => ([], args)
  | S n =>
      let arg := default [] (head args) in
      let '(out, args) := write_args n (tail args) in
      ("$"%ch :: sprintf_uz (Z.of_nat (length arg)) ++ crlf ++ arg ++ crlf ++ out, args)
  end.

Fixpoint write_queries (queries : list (list complex_value)) (args : list bytes) : bytes :=
  match queries with
  | [] => []
  | query :: queries =>
      let '(out, args) := write_args (length query) args in
      "*"%ch :: sprintf_uz (Z.of_nat (length query)) ++ crlf ++ out ++ write_queries queries args
  end.

Definition ngx_http_redis2_build_query (a : allocs) (queries : list (list complex_value))
    : option bytes :=
  if negb (a_args a) then None
  else
    match measure_queries queries [] 0 with
    | None => None
    | Some (args, len) =>
        if negb (a_buf a) then None
        else
          let out := write_queries queries args in
          if negb (Z.of_nat (length out) =? wrap_s 64 len) then None else Some out
    end.

(** ** The configuration of a location, ngx_http_redis2_loc_conf_t *)

(** The fields of [upstream] that the module reads or merges; an upstream server
    group is its position in the array of [ngx_http_upstream_main_conf_t]. *)
Record loc_conf := mk_loc_conf {
  connect_timeout : Z;
  send_timeout : Z;
  read_timeout : Z;
  buffer_size : Z;
  next_upstream : Z;
  upstream : option nat;
  literal_query : option bytes;   (* None: data is NULL *)
  complex_query : option complex_value;
  complex_query_count : option complex_value;
  complex_target : option complex_value;
  queries : option (list (list complex_value))
}.

(** [rlcf->literal_query.len] *)
Definition literal_len (c : loc_conf) : nat := length (default [] (literal_query c)).

(** ** The callbacks of the upstream *)

(** [None] in the last component: [r->upstream->request_bufs] is not set. *)
Definition ngx_http_redis2_create_request (a : allocs) (rlcf : loc_conf) (x : ctx)
    : Z * ctx * option bytes :=
  let finish x (b : bytes) :=
    if negb (a_link a) then (NGX_ERROR, x, None) else (NGX_OK, x, Some b) in
  match queries rlcf with
  | Some qs =>
      let x := set_query_count (length qs) x in
      match ngx_http_redis2_build_query a qs with
      | None => (NGX_ERROR, x, None)
      | Some b => finish x b
      end
  | None =>
      if (literal_len rlcf =? 0)%nat then
        match complex_query rlcf with
        | None => (NGX_ERROR, x, None)
        | Some cq =>
            match ngx_http_complex_value cq with
            | None => (NGX_ERROR, x, None)
            | Some query =>
                let copy x := if negb (a_buf a) then (NGX_ERROR, x, None) else finish x query in
                if (length query =? 0)%nat then (NGX_ERROR, x, None)
                else
                  match complex_query_count rlcf with
                  | None => copy (set_query_count 1 x)
                  | Some cn =>
                      match ngx_http_complex_value cn with
                      | None => (NGX_ERROR, x, None)
                      | Some count =>
                          if (length count =? 0)%nat then (NGX_ERROR, x, None)
                          else
                            let n := ngx_atoi count in
                            if (n =? NGX_ERROR) || (n =? 0) then (NGX_ERROR, x, None)
                            else copy (set_query_count (Z.to_nat n) x)
                      end
                  end
            end
        end
      else
        let x := set_query_count 1 x in
        if negb (a_buf a) then (NGX_ERROR, x, None)
        else finish x (default [] (literal_query rlcf))
  end.

Definition ngx_http_redis2_reinit_request : Z := NGX_OK.

Definition NGX_HTTP_OK : Z := 200.
Definition NGX_HTTP_SPECIAL_RESPONSE : Z := 300.
Definition NGX_HTTP_UPSTREAM_INVALID_HEADER : Z := 40.

(** [buf] holds the bytes from [b->pos] to [b->last]; the second component is
    [u->headers_in.status_n] when it is set, with [ctx->filter] set to
    [ngx_http_redis2_process_reply]. *)
Definition ngx_http_redis2_process_header (buf : bytes) : Z * option Z :=
  match buf with
  | [] => (NGX_AGAIN, None)
  | chr :: _ =>
      if (chr =? "+"%ch) || (chr =? "-"%ch) || (chr =? ":"%ch) || (chr =? "$"%ch) || (chr =? "*"%ch)
      then (NGX_OK, Some NGX_HTTP_OK)
      else (NGX_HTTP_UPSTREAM_INVALID_HEADER, None)
  end.

(** [r->headers_out.status] *)
Definition ngx_http_redis2_finalize_request (status rc : Z) : Z :=
  if rc >=? NGX_HTTP_SPECIAL_RESPONSE then rc else status.

(** ** The handler *)

(** A group of upstream servers: [host] and [port] of
    [ngx_http_upstream_srv_conf_t]. *)
Record srv_conf := mk_srv_conf { host : bytes; port : Z }.

(** The upstream group of a URL with that host and port; the outer [None] is a
    read outside a string. *)
Fixpoint ngx_http_redis2_upstream_add (i : nat) (upstreams : list srv_conf) (url_host : bytes)
    (url_port : Z) : option (option nat) :=
  match upstreams with
  | [] => Some None
  | u :: upstreams =>
      let next := ngx_http_redis2_upstream_add (S i) upstreams url_host url_port in
      if negb (length (host u) =? length url_host)%nat then next
      else
        match ngx_strncasecmp (host u) url_host (length url_host) with
        | None => None
        | Some r =>
            if negb (r =? 0) then next
            else if negb (port u =? url_port) then next
            else Some (Some i)
        end
  end.

(** What the calls into nginx return to the handler: [ngx_http_set_content_type],
    [ngx_http_upstream_create], [ngx_pcalloc] and
    [ngx_http_read_client_request_body]. *)
Record env := mk_env {
  set_content_type : Z;
  upstream_create : Z;
  ctx_alloc : bool;
  read_body : Z
}.

(** The result, the configuration of the location (which a target with variables
    changes) and the context of the request when it was attached; the outer [None]
    is a read outside a string. *)
Definition ngx_http_redis2_handler (e : env) (upstreams : list srv_conf) (rlcf : loc_conf)
    : option (Z * loc_conf * option ctx) :=
  let error := Chunked.NGX_HTTP_INTERNAL_SERVER_ERROR in
  let go rlcf :=
    if negb (ctx_alloc e) then Some (error, rlcf, None)
    else if read_body e >=? NGX_HTTP_SPECIAL_RESPONSE
    then Some (read_body e, rlcf, Some (ctx_init 0))
    else Some (NGX_DONE, rlcf, Some (ctx_init 0)) in
  if negb (set_content_type e =? NGX_OK) then Some (error, rlcf, None)
  else if negb (upstream_create e =? NGX_OK) then Some (error, rlcf, None)
  else
    match complex_target rlcf with
    | None => go rlcf
    | Some ct =>
        match ngx_http_complex_value ct with
        | None => Some (NGX_ERROR, rlcf, None)
        | Some target =>
            if (length target =? 0)%nat then Some (error, rlcf, None)
            else
              match ngx_http_redis2_upstream_add 0 upstreams target 0 with
              | None => None
              | Some u =>
                  let rlcf := mk_loc_conf (connect_timeout rlcf) (send_timeout rlcf)
                    (read_timeout rlcf) (buffer_size rlcf) (next_upstream rlcf) u
                    (literal_query rlcf) (complex_query rlcf) (complex_query_count rlcf)
                    (complex_target rlcf) (queries rlcf) in
                  match u with
                  | None => Some (error, rlcf, None)
                  | Some _ => go rlcf
                  end
              end
        end
    end.

(** ** The directives *)

(** A directive returns NULL, [NGX_CONF_ERROR] or a message; an error ends the
    reading of the configuration. *)
Inductive conf_error := conf_failed | conf_message (msg : bytes).
Abbreviation conf_result := (conf_error + loc_conf)%type.

Variable compile : bytes → option V.

Definition NGX_CONF_UNSET_MSEC : Z := 18446744073709551615.
Definition NGX_CONF_UNSET_SIZE : Z := 18446744073709551615.
Definition NGX_CONF_BITMASK_SET : Z := 1.
Definition NGX_HTTP_UPSTREAM_FT_ERROR : Z := 0x00000002.
Definition NGX_HTTP_UPSTREAM_FT_TIMEOUT : Z := 0x00000004.
Definition NGX_HTTP_UPSTREAM_FT_OFF : Z := 0x80000000.

Definition ngx_http_redis2_create_loc_conf : loc_conf :=
  mk_loc_conf NGX_CONF_UNSET_MSEC NGX_CONF_UNSET_MSEC NGX_CONF_UNSET_MSEC NGX_CONF_UNSET_SIZE 0
    None None None None None None.

Definition ngx_conf_merge_msec_value (conf prev dflt : Z) : Z :=
  if conf =? NGX_CONF_UNSET_MSEC then (if prev =? NGX_CONF_UNSET_MSEC then dflt else prev) else conf.

Definition ngx_conf_merge_size_value (conf prev dflt : Z) : Z :=
  if conf =? NGX_CONF_UNSET_SIZE then (if prev =? NGX_CONF_UNSET_SIZE then dflt else prev) else conf.

Definition ngx_conf_merge_bitmask_value (conf prev dflt : Z) : Z :=
  if conf =? 0 then (if prev =? 0 then dflt else prev) else conf.

(** [if (conf->p == NULL) { conf->p = prev->p; }] *)
Definition merge_pointer {A : Type} (conf prev : option A) : option A :=
  match conf with None => prev | Some _ => conf end.

Definition merge_next_upstream (conf prev : Z) : Z :=
  let m := ngx_conf_merge_bitmask_value conf prev
    (Z.lor NGX_CONF_BITMASK_SET (Z.lor NGX_HTTP_UPSTREAM_FT_ERROR NGX_HTTP_UPSTREAM_FT_TIMEOUT)) in
  if negb (Z.land m NGX_HTTP_UPSTREAM_FT_OFF =? 0)
  then Z.lor NGX_CONF_BITMASK_SET NGX_HTTP_UPSTREAM_FT_OFF else m.

Definition ngx_http_redis2_merge_loc_conf (pagesize : Z) (prev conf : loc_conf) : loc_conf :=
  mk_loc_conf
    (ngx_conf_merge_msec_value (connect_timeout conf) (connect_timeout prev) 60000)
    (ngx_conf_merge_msec_value (send_timeout conf) (send_timeout prev) 60000)
    (ngx_conf_merge_msec_value (read_timeout conf) (read_timeout prev) 60000)
    (ngx_conf_merge_size_value (buffer_size conf) (buffer_size prev) pagesize)
    (merge_next_upstream (next_upstream conf) (next_upstream prev))
    (merge_pointer (upstream conf) (upstream prev))
    (merge_pointer (literal_query conf) (literal_query prev))
    (merge_pointer (complex_query conf) (complex_query prev))
    (merge_pointer (complex_query_count conf) (complex_query_count prev))
    (complex_target conf)
    (merge_pointer (queries conf) (queries prev)).

Definition set_queries (q : option (list (list complex_value))) (c : loc_conf) : loc_conf :=
  mk_loc_conf (connect_timeout c) (send_timeout c) (read_timeout c) (buffer_size c)
    (next_upstream c) (upstream c) (literal_query c) (complex_query c) (complex_query_count c)
    (complex_target c) q.
Definition set_raw (q n : option complex_value) (c : loc_conf) : loc_conf :=
  mk_loc_conf (connect_timeout c) (send_timeout c) (read_timeout c) (buffer_size c)
    (next_upstream c) (upstream c) (literal_query c) q n (complex_target c) (queries c).
Definition set_literal (q : option bytes) (c : loc_conf) : loc_conf :=
  mk_loc_conf (connect_timeout c) (send_timeout c) (read_timeout c) (buffer_size c)
    (next_upstream c) (upstream c) q (complex_query c) (complex_query_count c)
    (complex_target c) (queries c).
Definition set_target (u : option nat) (t : option complex_value) (c : loc_conf) : loc_conf :=
  mk_loc_conf (connect_timeout c) (send_timeout c) (read_timeout c) (buffer_size c)
    (next_upstream c) u (literal_query c) (complex_query c) (complex_query_count c) t (queries c).

(** The [i]-th argument of [redis2_query]; [alloc] is the outcome of [ngx_palloc]
    for each of them, counted from 1. *)
Fixpoint compile_args (alloc : nat → bool) (i : nat) (values : list bytes)
    : option (list complex_value) :=
  match values with
  | [] => Some []
  | value :: values =>
      if negb (alloc i) then None
      else if (length value =? 0)%nat then cons cv_zero <$> compile_args alloc (S i) values
      else match compile value with
           | None => None
           | Some v => cons (cv_compiled v) <$> compile_args alloc (S i) values
           end
  end.

(** [array] says whether the arrays of the query can be created and grown. *)
Definition ngx_http_redis2_query (array : bool) (alloc : nat → bool) (values : list bytes)
    (rlcf : loc_conf) : conf_result :=
  if negb (literal_len rlcf =? 0)%nat
  then inl (conf_message (bs "conflicts with redis2_literal_raw_query"))
  else if match complex_query rlcf with Some _ => true | None => false end
  then inl (conf_message (bs "conflicts with redis2_raw_query"))
  else if negb array then inl conf_failed
  else
    match compile_args alloc 1 values with
    | None => inl conf_failed
    | Some query => inr (set_queries (Some (default [] (queries rlcf) ++ [query])) rlcf)
    end.

(** [redis2_raw_query]: [ngx_http_redis2_set_complex_value_slot] on
    [complex_query]. *)
Definition ngx_http_redis2_set_complex_value_slot (alloc : bool) (value : bytes) (rlcf : loc_conf)
    : conf_result :=
  match complex_query rlcf with
  | Some _ => inl (conf_message (bs "is duplicate"))
  | None =>
      if negb alloc then inl conf_failed
      else if (length value =? 0)%nat
      then inr (set_raw (Some cv_zero) (complex_query_count rlcf) rlcf)
      else match compile value with
           | None => inl conf_failed
           | Some v => inr (set_raw (Some (cv_compiled v)) (complex_query_count rlcf) rlcf)
           end
  end.

Definition ngx_http_redis2_raw_queries (alloc_count alloc_query : bool) (count cmds : bytes)
    (rlcf : loc_conf) : conf_result :=
  if negb alloc_count then inl conf_failed
  else
    match compile count with
    | None => inl conf_failed
    | Some n =>
        if negb alloc_query then inl conf_failed
        else
          match compile cmds with
          | None => inl conf_failed
          | Some q => inr (set_raw (Some (cv_compiled q)) (Some (cv_compiled n)) rlcf)
          end
    end.

(** [redis2_literal_raw_query]: [ngx_conf_set_str_slot] without a post handler. *)
Definition ngx_conf_set_str_slot (value : bytes) (rlcf : loc_conf) : conf_result :=
  match literal_query rlcf with
  | Some _ => inl (conf_message (bs "is duplicate"))
  | None => inr (set_literal (Some value) rlcf)
  end.

Definition ngx_http_script_variables_count (value : bytes) : nat :=
  length (filter (fun ch => ch = "$"%ch) value).

(** [name] is the name of the location, [upstream_add] the result of
    [ngx_http_upstream_add] for the target; the second component of the result is
    [clcf->auto_redirect] when the directive sets it. *)
Definition ngx_http_redis2_pass (name : bytes) (alloc : bool) (upstream_add : option nat)
    (value : bytes) (rlcf : loc_conf) : (conf_error + loc_conf * bool)%type :=
  let auto_redirect := default 0 (last name) =? "/"%ch in
  match upstream rlcf with
  | Some _ => inl (conf_message (bs "is duplicate"))
  | None =>
      if negb (ngx_http_script_variables_count value =? 0)%nat then
        if negb alloc then inl conf_failed
        else match compile value with
             | None => inl conf_failed
             | Some t => inr (set_target (upstream rlcf) (Some (cv_compiled t)) rlcf, auto_redirect)
             end
      else
        match upstream_add with
        | None => inl conf_failed
        | Some u => inr (set_target (Some u) None rlcf, auto_redirect)
        end
  end.

End Values.

Arguments cv_zero {V}.

(** * Theorems *)

(** ** The Redis protocol, from the side of the server

    A command is [*n] followed by [n] bulk strings [$len data]; each number and each
    string ends with CR LF. *)

Fixpoint decode_number (acc : option Z) (l : bytes) : option (Z * bytes) :=
  match l with
  | [] => None
  | c :: l =>
      if c =? CR then
        match acc, l with
        | Some n, d :: l => if d =? LF then Some (n, l) else None
        | _, _ => None
        end
      else if ("0"%ch <=? c) && (c <=? "9"%ch)
      then decode_number (Some (default 0 acc * 10 + (c - "0"%ch))) l
      else None
  end.

Definition decode_tagged (tag : Z) (l : bytes) : option (Z * bytes) :=
  match l with
  | c :: l => if c =? tag then decode_number None l else None
  | [] => None
  end.

Definition decode_bulk (l : bytes) : option (bytes * bytes) :=
  '(n, l) ← decode_tagged "$"%ch l;
  if bytes_eqb (take 2 (drop (Z.to_nat n) l)) crlf
  then Some (take (Z.to_nat n) l, drop 2 (drop (Z.to_nat n) l)) else None.

(** [n] items in a row. *)
Fixpoint decode_many {A : Type} (decode : bytes → option (A * bytes)) (n : nat) (l : bytes)
    : option (list A * bytes) :=
  match n with
  | O => Some ([], l)
  | S n => '(a, l) ← decode l; '(az, l) ← decode_many decode n l; Some (a :: az, l)
  end.

Definition decode_command (l : bytes) : option (list bytes * bytes) :=
  '(n, l) ← decode_tagged "*"%ch l; decode_many decode_bulk (Z.to_nat n) l.

Definition encode_bulk (arg : bytes) : bytes :=
  "$"%ch :: sprintf_uz (Z.of_nat (length arg)) ++ crlf ++ arg ++ crlf.

Definition encode_command (args : list bytes) : bytes :=
  "*"%ch :: sprintf_uz (Z.of_nat (length args)) ++ crlf ++ concat (map encode_bulk args).

Definition encode_commands (cmds : list (list bytes)) : bytes := concat (map encode_command cmds).

(** ** Numbers *)

Lemma sprintf_uz_digits (n : Z) :
  0 <= n < 2 ^ 64 →
  sprintf_uz n = sprintf_num_digits 0 n ∧ sprintf_uz n ≠ [] ∧ Forall is_digit (sprintf_uz n)
  ∧ dec_value 0 (sprintf_uz n) = n.
Proof.
  intros Hn. destruct (sprintf_num_digits_dec n Hn) as (Hne & Hd & Hv & Hl).
  unfold sprintf_uz. rewrite ngx_sprintf_num_fits by (unfold NGX_MAX_INT_T_VALUE, NGX_INT64_LEN in *; lia).
  replace (Z.to_nat (0 - _)) with 0%nat by lia. done.
Qed.

Lemma num_size_digits (fuel : nat) (digit : Z → Z) (i n : Z) (acc : bytes) :
  0 <= i →
  num_size fuel i (n + Z.of_nat (length acc))
  = n + Z.of_nat (length (sprintf_digits fuel 10 digit i acc)).
Proof.
  revert i acc. induction fuel as [|fuel IH]; intros i acc Hi; cbn [num_size sprintf_digits]; [done|].
  cbv zeta. pose proof (Z.div_pos i 10 Hi ltac:(lia)).
  destruct (Z.eqb_spec (i / 10) 0) as [E|E].
  - rewrite E. cbn. lia.
  - destruct (Z.gtb_spec (i / 10) 0); [|lia].
    rewrite <- (IH (i / 10) (digit (i mod 10) :: acc)) by done. f_equal. cbn [length]. lia.
Qed.

Lemma get_num_size_digits (n : Z) :
  0 <= n < 2 ^ 64 → ngx_get_num_size n = Z.of_nat (length (sprintf_uz n)).
Proof.
  intros Hn. destruct (sprintf_uz_digits n Hn) as (-> & _).
  apply (num_size_digits NGX_INT64_LEN (fun d => d + "0"%ch) n 0 []). lia.
Qed.

Lemma decode_number_digits (ds rest : bytes) (acc : option Z) :
  Forall is_digit ds → ds ≠ [] ∨ acc ≠ None →
  decode_number acc (ds ++ crlf ++ rest) = Some (dec_value (default 0 acc) ds, rest).
Proof.
  intros Hd. revert acc. induction Hd as [|c ds Hc Hd IH]; intros acc Hacc.
  - destruct acc as [n|]; [done|by destruct Hacc].
  - unfold is_digit in Hc. cbn [app decode_number]. destruct (Z.eqb_spec c CR) as [->|_].
    { lia. }
    replace (("0"%ch <=? c) && (c <=? "9"%ch)) with true by lia.
    rewrite IH by (by right). by rewrite dec_value_cons.
Qed.

Lemma decode_tagged_number (tag n : Z) (rest : bytes) :
  0 <= n < 2 ^ 64 → decode_tagged tag (tag :: sprintf_uz n ++ crlf ++ rest) = Some (n, rest).
Proof.
  intros Hn. destruct (sprintf_uz_digits n Hn) as (_ & Hne & Hd & Hv).
  cbn [decode_tagged]. rewrite Z.eqb_refl, decode_number_digits by auto. cbn [default]. by rewrite Hv.
Qed.

(** ** Round trips of the reference encoding *)

Definition small (l : bytes) : Prop := Z.of_nat (length l) < 2 ^ 63.

Lemma decode_encode_bulk (arg rest : bytes) :
  small arg → decode_bulk (encode_bulk arg ++ rest) = Some (arg, rest).
Proof.
  unfold small, decode_bulk, encode_bulk. intros Hs. cbn [app]. rewrite <- !app_assoc.
  rewrite decode_tagged_number by lia. cbn. rewrite Nat2Z.id, drop_app_length, take_app_length. done.
Qed.

Lemma decode_many_spec {A : Type} (decode : bytes → option (A * bytes)) (encode : A → bytes)
    (xs : list A) (rest : bytes) :
  (∀ x rest, x ∈ xs → decode (encode x ++ rest) = Some (x, rest)) →
  decode_many decode (length xs) (concat (map encode xs) ++ rest) = Some (xs, rest).
Proof.
  induction xs as [|x xs IH]; intros H; [done|]. cbn. rewrite <- app_assoc.
  rewrite H by apply list_elem_of_here. cbn. rewrite IH; [done|].
  intros. apply H. by apply list_elem_of_further.
Qed.

Lemma length_concat_elem {A : Type} (encode : A → bytes) (x : A) (xs : list A) :
  x ∈ xs → (length (encode x) <= length (concat (map encode xs)))%nat.
Proof.
  induction 1 as [|x y xs _ IH]; cbn; rewrite length_app; lia.
Qed.

Lemma length_concat_count {A : Type} (encode : A → bytes) (xs : list A) :
  (∀ x, x ∈ xs → encode x ≠ []) → (length xs <= length (concat (map encode xs)))%nat.
Proof.
  induction xs as [|x xs IH]; intros H; [done|]. cbn. rewrite length_app.
  specialize (IH ltac:(intros; apply H; by apply list_elem_of_further)).
  pose proof (H x (list_elem_of_here _ _)). destruct (encode x); [done|cbn; lia].
Qed.

Lemma encode_bulk_length (arg : bytes) : (length arg <= length (encode_bulk arg))%nat.
Proof. unfold encode_bulk. cbn [length]. rewrite !length_app. lia. Qed.

Lemma decode_encode_command (args : list bytes) (rest : bytes) :
  small (encode_command args) → decode_command (encode_command args ++ rest) = Some (args, rest).
Proof.
  unfold decode_command. intros Hs.
  assert (Hc : small (concat (map encode_bulk args))).
  { unfold small, encode_command in *. cbn [length] in Hs. rewrite !length_app in Hs. lia. }
  pose proof (length_concat_count encode_bulk args ltac:(done)) as Hn. unfold small in Hc.
  unfold encode_command. cbn [app]. rewrite <- !app_assoc, decode_tagged_number by lia.
  cbn. rewrite Nat2Z.id. apply decode_many_spec. intros arg r Harg. apply decode_encode_bulk.
  pose proof (length_concat_elem encode_bulk arg args Harg). pose proof (encode_bulk_length arg).
  unfold small. lia.
Qed.

Lemma decode_encode_commands (cmds : list (list bytes)) (rest : bytes) :
  small (encode_commands cmds) →
  decode_many decode_command (length cmds) (encode_commands cmds ++ rest) = Some (cmds, rest).
Proof.
  intros Hs. apply decode_many_spec. intros args r Hin. apply decode_encode_command.
  pose proof (length_concat_elem encode_command args cmds Hin).
  unfold small, encode_commands in *. lia.
Qed.

(** ** The request the module builds *)

Section Requests.
Context {V : Type} (evaluate : V → option bytes).
Implicit Types (query : list (complex_value (V := V))) (qs : list (list (complex_value (V := V)))).

Definition eval_query query : option (list bytes) := mapM (ngx_http_complex_value evaluate) query.
Definition eval_queries qs : option (list (list bytes)) := mapM eval_query qs.

Lemma wrap_u_add (L a : Z) : wrap_u 64 (wrap_u 64 L + a) = wrap_u 64 (L + a).
Proof. unfold wrap_u. apply Zplus_mod_idemp_l. Qed.

Lemma measure_args_some query vs args (L : Z) :
  eval_query query = Some vs → small (concat (map encode_bulk vs)) →
  measure_args evaluate query args (wrap_u 64 L)
  = Some (args ++ vs, wrap_u 64 (L + Z.of_nat (length (concat (map encode_bulk vs))))).
Proof.
  unfold eval_query. rewrite mapM_Some. intros H. revert args L.
  induction H as [|cv v query vs Hv _ IH]; intros args L Hs.
  { cbn. by rewrite app_nil_r, Z.add_0_r. }
  cbn [map concat] in Hs |- *. unfold small in Hs. rewrite length_app in Hs |- *.
  cbn [measure_args]. rewrite Hv. cbv zeta.
  pose proof (encode_bulk_length v). rewrite wrap_u_add, IH by (unfold small; lia).
  rewrite get_num_size_digits by lia. f_equal. f_equal; [by rewrite <- app_assoc|].
  f_equal. unfold encode_bulk. cbn [length]. rewrite !length_app. cbn [length crlf]. lia.
Qed.

(** The loops fail exactly when an argument cannot be evaluated. *)
Lemma measure_args_eval query args (L : Z) :
  fst <$> measure_args evaluate query args L = app args <$> eval_query query.
Proof.
  unfold eval_query. revert args L. induction query as [|cv query IH]; intros args L.
  { cbn. by rewrite app_nil_r. }
  cbn [mapM measure_args]. destruct (ngx_http_complex_value evaluate cv) as [v|]; [|done].
  rewrite IH. cbn. destruct (mapM _ query) as [vs|]; [|done]. cbn. by rewrite <- app_assoc.
Qed.

Lemma eval_query_length query vs : eval_query query = Some vs → length query = length vs.
Proof. unfold eval_query. rewrite mapM_Some. by intros ?%Forall2_length. Qed.

Lemma encode_command_length (args : list bytes) :
  Z.of_nat (length (encode_command args))
  = 3 + Z.of_nat (length (sprintf_uz (Z.of_nat (length args))))
    + Z.of_nat (length (concat (map encode_bulk args))).
Proof. unfold encode_command. cbn [length]. rewrite !length_app. cbn [length crlf]. lia. Qed.

Lemma measure_queries_some qs vals args (L : Z) :
  eval_queries qs = Some vals → small (encode_commands vals) →
  measure_queries evaluate qs args (wrap_u 64 L)
  = Some (args ++ concat vals, wrap_u 64 (L + Z.of_nat (length (encode_commands vals)))).
Proof.
  unfold eval_queries, encode_commands. rewrite mapM_Some. intros H. revert args L.
  induction H as [|query vs qs vals Hv _ IH]; intros args L Hs.
  { cbn. by rewrite app_nil_r, Z.add_0_r. }
  cbn [map concat] in Hs |- *. unfold small in Hs. rewrite length_app in Hs |- *.
  pose proof (encode_command_length vs) as Hlen.
  pose proof (length_concat_count encode_bulk vs ltac:(done)) as Hn.
  cbn [measure_queries]. rewrite wrap_u_add, (eval_query_length _ _ Hv).
  rewrite (measure_args_some _ _ _ _ Hv) by (unfold small; lia).
  rewrite IH by (unfold small; lia). rewrite get_num_size_digits by lia.
  f_equal. f_equal; [by rewrite <- app_assoc|]. f_equal. lia.
Qed.

Lemma measure_queries_none qs args (L : Z) :
  eval_queries qs = None → measure_queries evaluate qs args L = None.
Proof.
  unfold eval_queries. revert args L. induction qs as [|query qs IH]; intros args L; [done|].
  cbn [mapM measure_queries]. set (n := wrap_u 64 _).
  pose proof (measure_args_eval query args n) as E. intros H.
  destruct (measure_args evaluate query args n) as [[args' len]|]; [|done]. apply IH.
  destruct (eval_query query) as [vs|]; [|done]. cbn in H. by destruct (mapM eval_query qs).
Qed.

Lemma write_args_spec (vs rest : list bytes) :
  write_args (length vs) (vs ++ rest) = (concat (map encode_bulk vs), rest).
Proof.
  induction vs as [|v vs IH]; [done|].
  cbn [length write_args app tail head map concat]. rewrite IH. unfold encode_bulk.
  rewrite <- app_comm_cons, <- !app_assoc. done.
Qed.

Lemma write_queries_spec qs vals :
  eval_queries qs = Some vals → write_queries qs (concat vals) = encode_commands vals.
Proof.
  unfold eval_queries. rewrite mapM_Some. intros H.
  induction H as [|query vs qs vals Hv _ IH]; [done|]. cbn [concat write_queries].
  rewrite (eval_query_length _ _ Hv), write_args_spec, IH.
  unfold encode_commands, encode_command. cbn [map concat].
  rewrite <- app_comm_cons, <- !app_assoc. done.
Qed.

(** The buffer is filled exactly. *)
Lemma build_query_some a qs vals :
  a_args a = true → a_buf a = true → eval_queries qs = Some vals → small (encode_commands vals) →
  ngx_http_redis2_build_query evaluate a qs = Some (encode_commands vals).
Proof.
  intros Ha Hb Hv Hs. unfold ngx_http_redis2_build_query. rewrite Ha, Hb. cbn [negb].
  rewrite (measure_queries_some qs vals [] 0 Hv Hs : measure_queries _ _ _ 0 = _).
  rewrite app_nil_l, write_queries_spec by done. unfold small in Hs.
  unfold wrap_u. rewrite Z.add_0_l, Z.mod_small by lia. rewrite wrap_s_id by lia.
  by rewrite Z.eqb_refl.
Qed.

(** What a configuration asks for in a request: how many replies to expect and the
    bytes to send. *)
Inductive request_for (c : loc_conf (V := V)) : nat → bytes → Prop :=
  | req_queries qs vals :
      queries c = Some qs → eval_queries qs = Some vals →
      request_for c (length qs) (encode_commands vals)
  | req_literal l :
      queries c = None → literal_query c = Some l → l ≠ [] → request_for c 1 l
  | req_raw cv (query : bytes) :
      queries c = None → literal_len c = 0%nat → complex_query c = Some cv →
      ngx_http_complex_value evaluate cv = Some query → query ≠ [] →
      complex_query_count c = None → request_for c 1 query
  | req_raw_count cv (query : bytes) cn (count : bytes) :
      queries c = None → literal_len c = 0%nat → complex_query c = Some cv →
      ngx_http_complex_value evaluate cv = Some query → query ≠ [] →
      complex_query_count c = Some cn → ngx_http_complex_value evaluate cn = Some count →
      decimal_line NGX_MAX_INT_T_VALUE count → 0 < dec_value 0 count →
      request_for c (Z.to_nat (dec_value 0 count)) query.

Definition allocs_ok (a : allocs) : Prop := a_args a = true ∧ a_buf a = true ∧ a_link a = true.

(** [ngx_atoi] as the guard of [redis2_raw_queries]. *)
Lemma atoi_count (count : bytes) :
  if (ngx_atoi count =? NGX_ERROR) || (ngx_atoi count =? 0)
  then ¬ (decimal_line NGX_MAX_INT_T_VALUE count ∧ 0 < dec_value 0 count)
  else decimal_line NGX_MAX_INT_T_VALUE count ∧ 0 < dec_value 0 count
       ∧ ngx_atoi count = dec_value 0 count.
Proof.
  rewrite atoi_decimal. destruct (decide (decimal_line _ count)) as [H|H].
  - pose proof H as (_ & Hd & _). pose proof (dec_value_ge 0 count ltac:(lia) Hd).
    unfold NGX_ERROR. destruct ((_ =? -1) || _) eqn:E; [intros [_ ?]|split_and!]; (done || lia).
  - by intros [? _].
Qed.

Lemma literal_len_zero (c : loc_conf (V := V)) l : literal_query c = Some l → l ≠ [] → literal_len c ≠ 0%nat.
Proof. unfold literal_len. intros ->. by destruct l. Qed.

(** The outcomes of [ngx_http_redis2_create_request]. *)
Definition requested a (c : loc_conf (V := V)) x (r : Z * ctx * option bytes) : Prop :=
  (∃ n out, r = (NGX_OK, set_query_count n x, Some out) ∧ request_for c n out)
  ∨ (∃ y, r = (NGX_ERROR, y, None)) ∧ (¬ allocs_ok a ∨ ∀ n out, ¬ request_for c n out).

Lemma requested_no_alloc a c x y : ¬ allocs_ok a → requested a c x (NGX_ERROR, y, None).
Proof. unfold requested. eauto. Qed.

Lemma requested_none a c x y : (∀ n out, ¬ request_for c n out) → requested a c x (NGX_ERROR, y, None).
Proof. unfold requested. eauto. Qed.

(** Each rule of [request_for] is excluded by what the code tested before. *)
Local Ltac no_request :=
  apply requested_none; intros ? ? Hreq; inversion Hreq; subst;
  try (by eapply literal_len_zero); (congruence || simplify_eq; eauto).
Local Ltac no_alloc := apply requested_no_alloc; unfold allocs_ok; intros (? & ? & ?); congruence.

(** The last steps: copying the query and linking the buffer. *)
Lemma requested_finish a c x n out :
  request_for c n out →
  requested a c x (if negb (a_link a) then (NGX_ERROR, set_query_count n x, None)
                   else (NGX_OK, set_query_count n x, Some out)).
Proof. intros H. destruct (a_link a) eqn:?; cbn [negb]; [left; eauto|no_alloc]. Qed.

Lemma requested_copy a c x n out :
  request_for c n out →
  requested a c x (if negb (a_buf a) then (NGX_ERROR, set_query_count n x, None)
                   else if negb (a_link a) then (NGX_ERROR, set_query_count n x, None)
                   else (NGX_OK, set_query_count n x, Some out)).
Proof. intros H. destruct (a_buf a) eqn:?; cbn [negb]; [by apply requested_finish|no_alloc]. Qed.

Lemma requested_queries a c x qs :
  queries c = Some qs → (∀ vals, eval_queries qs = Some vals → small (encode_commands vals)) →
  requested a c x
    match ngx_http_redis2_build_query evaluate a qs with
    | None => (NGX_ERROR, set_query_count (length qs) x, None)
    | Some b => if negb (a_link a) then (NGX_ERROR, set_query_count (length qs) x, None)
                else (NGX_OK, set_query_count (length qs) x, Some b)
    end.
Proof.
  intros Eq Hs. destruct (eval_queries qs) as [vals|] eqn:Ev.
  - destruct (a_args a) eqn:Ea; [destruct (a_buf a) eqn:Eb|].
    + rewrite (build_query_some a qs vals) by eauto. apply requested_finish. eauto using req_queries.
    + unfold ngx_http_redis2_build_query. rewrite Ea, Eb. cbn [negb].
      rewrite (measure_queries_some qs vals [] 0 Ev (Hs _ eq_refl) : measure_queries _ _ _ 0 = _).
      no_alloc.
    + unfold ngx_http_redis2_build_query. rewrite Ea. no_alloc.
  - unfold ngx_http_redis2_build_query. rewrite measure_queries_none by done.
    destruct (negb (a_args a)); no_request.
Qed.

Lemma raw_count_inv c n out cn :
  queries c = None → literal_len c = 0%nat → complex_query_count c = Some cn → request_for c n out →
  ∃ count, ngx_http_complex_value evaluate cn = Some count
  ∧ decimal_line NGX_MAX_INT_T_VALUE count ∧ 0 < dec_value 0 count.
Proof.
  intros Hq Hl Hc [| | |? ? cn' ? ? ? ? ? ? ?]; try congruence.
  - by edestruct literal_len_zero.
  - replace cn with cn' by congruence. eauto.
Qed.

Lemma requested_raw a c x cv (query : bytes) :
  queries c = None → literal_len c = 0%nat → complex_query c = Some cv →
  ngx_http_complex_value evaluate cv = Some query → query ≠ [] →
  requested a c x (ngx_http_redis2_create_request evaluate a c x).
Proof.
  intros Hq Hl Hc Hv Hne. unfold ngx_http_redis2_create_request. rewrite Hq, Hl, Hc, Hv. cbn [Nat.eqb].
  replace (length query =? 0)%nat with false by (by destruct query).
  destruct (complex_query_count c) as [cn|] eqn:En; [|apply requested_copy; eauto using req_raw].
  destruct (ngx_http_complex_value evaluate cn) as [count|] eqn:Ecount; [|no_request].
  pose proof (atoi_count count) as Hn. cbv zeta.
  destruct (Nat.eqb_spec (length count) 0) as [E0|E0].
  { apply nil_length_inv in E0. subst count. apply requested_none. intros n out Hreq.
    destruct (raw_count_inv c n out cn) as (? & ? & (? & _) & _); try done. congruence. }
  destruct (_ || _).
  - apply requested_none. intros n out Hreq. apply Hn.
    destruct (raw_count_inv c n out cn) as (? & ? & ? & ?); try done.
    replace count with x0 by congruence. done.
  - destruct Hn as (Hd & Hp & ->). apply requested_copy. eauto using req_raw_count.
Qed.

Lemma create_request_cases a c x :
  (∀ qs vals, queries c = Some qs → eval_queries qs = Some vals → small (encode_commands vals)) →
  requested a c x (ngx_http_redis2_create_request evaluate a c x).
Proof.
  intros Hs. destruct (queries c) as [qs|] eqn:Eq.
  { unfold ngx_http_redis2_create_request. rewrite Eq. apply requested_queries; eauto. }
  destruct (Nat.eqb_spec (literal_len c) 0) as [El|El].
  - destruct (complex_query c) as [cq|] eqn:Ec;
      [destruct (ngx_http_complex_value evaluate cq) as [[|ch query]|] eqn:Ev;
        [|by apply (requested_raw a c x cq (ch :: query))|]|].
    all: unfold ngx_http_redis2_create_request; rewrite Eq, El, Ec, ?Ev; cbn [Nat.eqb length]; no_request.
  - unfold ngx_http_redis2_create_request. rewrite Eq.
    destruct (Nat.eqb_spec (literal_len c) 0); [done|].
    unfold literal_len in El. destruct (literal_query c) as [l|] eqn:Eql; [|done].
    change (length l ≠ 0%nat) in El. cbn [default]. apply requested_copy.
    apply req_literal; [done..|by destruct l].
Qed.

End Requests.

(** ** Configurations *)

Section Configurations.
Context {V : Type} (compile : bytes → option V).

(** The configurations that the directives and the merging can build; the parser of
    nginx calls [redis2_query] with at least one argument (NGX_CONF_1MORE). *)
Inductive configured : loc_conf (V := V) → Prop :=
  | configured_create : configured ngx_http_redis2_create_loc_conf
  | configured_query array alloc values c c' :
      configured c → values ≠ [] →
      ngx_http_redis2_query compile array alloc values c = inr c' → configured c'
  | configured_raw_query alloc value c c' :
      configured c → ngx_http_redis2_set_complex_value_slot compile alloc value c = inr c' →
      configured c'
  | configured_raw_queries alloc1 alloc2 count cmds c c' :
      configured c → ngx_http_redis2_raw_queries compile alloc1 alloc2 count cmds c = inr c' →
      configured c'
  | configured_literal value c c' :
      configured c → ngx_conf_set_str_slot value c = inr c' → configured c'
  | configured_pass name alloc found value c c' redirect :
      configured c → ngx_http_redis2_pass compile name alloc found value c = inr (c', redirect) →
      configured c'
  | configured_merge pagesize prev conf :
      configured prev → configured conf →
      configured (ngx_http_redis2_merge_loc_conf pagesize prev conf).

(** Queries are never empty, and a number of queries comes with the queries. *)
Definition conf_ok (c : loc_conf (V := V)) : Prop :=
  (∀ qs, queries c = Some qs → qs ≠ [] ∧ Forall (.≠ []) qs)
  ∧ (complex_query_count c ≠ None → complex_query c ≠ None).

Lemma compile_args_length alloc i values query :
  compile_args compile alloc i values = Some query → length query = length values.
Proof.
  revert i query. induction values as [|v values IH]; intros i query; cbn [compile_args].
  - by intros [= <-].
  - destruct (negb (alloc i)); [done|]. destruct (length v =? 0)%nat; [|destruct (compile v); [|done]].
    all: intros (q & Hq & ->)%fmap_Some; cbn; f_equal; eauto.
Qed.

Lemma configured_conf_ok c : configured c → conf_ok c.
Proof.
  induction 1 as [|array alloc values c c' _ [IH1 IH2] Hv H|alloc value c c' _ [IH1 IH2] H
    |? ? ? ? c c' _ [IH1 IH2] H|value c c' _ [IH1 IH2] H|? ? ? ? c c' ? _ [IH1 IH2] H
    |pagesize prev conf _ [IHp1 IHp2] _ [IHc1 IHc2]].
  - done.
  - unfold ngx_http_redis2_query in H.
    repeat case_match; simplify_eq. split; cbn [queries set_queries complex_query complex_query_count];
      [|by intros ?%IH2].
    intros qs [= <-]. split; [by destruct (default [] (queries c))|].
    apply Forall_app. split.
    + destruct (queries c) as [qs|] eqn:E; [|by constructor]. by apply IH1.
    + constructor; [|constructor]. intros ->.
      match goal with E : compile_args _ _ _ _ = _ |- _ => apply compile_args_length in E end.
      by destruct values.
  - unfold ngx_http_redis2_set_complex_value_slot in H. repeat case_match; simplify_eq; (split; [exact IH1|done || exact IH2 || by intros ?%IH2]).
  - unfold ngx_http_redis2_raw_queries in H. repeat case_match; simplify_eq; (split; [exact IH1|done || exact IH2 || by intros ?%IH2]).
  - unfold ngx_conf_set_str_slot in H. repeat case_match; simplify_eq; (split; [exact IH1|done || exact IH2 || by intros ?%IH2]).
  - unfold ngx_http_redis2_pass in H. repeat case_match; simplify_eq; (split; [exact IH1|done || exact IH2 || by intros ?%IH2]).
  - split; cbn [queries complex_query complex_query_count ngx_http_redis2_merge_loc_conf].
    + intros qs. unfold merge_pointer. destruct (queries conf) eqn:E; [|by apply IHp1].
      intros [= ->]. by apply IHc1.
    + unfold merge_pointer. destruct (complex_query_count conf), (complex_query conf); try done.
      intros _. by destruct IHc2.
Qed.

End Configurations.

(** ** The properties of the module *)

(** Every configuration that the directives and the merging of locations can
    build has only non-empty queries, and every request built from one, raw queries
    with a count included, expects at least one reply. *)
Theorem redis2_conf_invariant {V : Type} (compile : bytes → option V) (evaluate : V → option bytes)
    (a : allocs) (c : loc_conf) (x y : ctx) (out : option bytes) :
  configured compile c →
  ngx_http_redis2_create_request evaluate a c x = (NGX_OK, y, out) →
  conf_ok c ∧ (0 < query_count y)%nat.
Proof.
  intros Hc%configured_conf_ok Hr. split; [done|]. destruct Hc as [Hq _].
  unfold ngx_http_redis2_create_request in Hr.
  destruct (queries c) as [qs|]; [destruct (Hq qs eq_refl) as [Hne _]|].
  { repeat case_match; simplify_eq. by destruct qs; [|cbn; lia]. }
  repeat case_match; simplify_eq; try (cbn; lia).
  match goal with H : (ngx_atoi ?l =? _) || _ = false |- _ => pose proof (ngx_atoi_range l) end.
  unfold NGX_ERROR in *. cbn [query_count set_query_count]. lia.
Qed.

(** [ngx_http_redis2_create_request] succeeds exactly when the configuration
    asks for a request in the circumstances (the queries evaluate, or there is a
    literal query, or a raw query that is not empty with a positive decimal count if
    it has one) and the memory can be had; it then sends the bytes that are asked
    for and expects that many replies. The check that the buffer was filled exactly
    never fails. In all other cases the result is [NGX_ERROR] and no request buffer
    is set. *)
Theorem redis2_create_request_spec {V : Type} (evaluate : V → option bytes) (a : allocs)
    (c : loc_conf) (x : ctx) :
  (∀ qs vals, queries c = Some qs → eval_queries evaluate qs = Some vals →
    small (encode_commands vals)) →
  (∃ n out, ngx_http_redis2_create_request evaluate a c x = (NGX_OK, set_query_count n x, Some out)
     ∧ request_for evaluate c n out)
  ∨ (∃ y, ngx_http_redis2_create_request evaluate a c x = (NGX_ERROR, y, None))
    ∧ (¬ allocs_ok a ∨ ∀ n out, ¬ request_for evaluate c n out).
Proof. exact (create_request_cases evaluate a c x). Qed.

(** The first reply of a pipeline passes [ngx_http_redis2_process_header]. *)
Lemma stream_header (rs : list reply) (segs : list bytes) :
  rs ≠ [] → Forall reply_ok rs → Forall (.≠ []) segs → concat segs = stream rs →
  ngx_http_redis2_process_header (default [] (head segs)) = (NGX_OK, Some NGX_HTTP_OK).
Proof.
  intros Hne Hok Hs Hcat. destruct rs as [|r rs]; [done|]. inversion Hok as [|? ? Hr _]; subst.
  assert (Hh : ∃ ch l, stream (r :: rs) = ch :: l ∧
    ngx_http_redis2_process_header [ch] = (NGX_OK, Some NGX_HTTP_OK)).
  { unfold stream. cbn [map concat].
    destruct r as [[kind text|size data|zeros|digits]|count its|zeros|]; cbn [reply_bytes item_bytes];
      eexists _, _; (split; [reflexivity|]); try reflexivity.
    destruct Hr as (Hk & _). unfold line_ch in Hk. unfold ngx_http_redis2_process_header.
    replace (_ || _) with true by lia. done. }
  destruct Hh as (ch & l & E & H). destruct segs as [|seg segs]; [by rewrite E in Hcat|].
  inversion Hs as [|? ? Hseg _]; subst. destruct seg as [|c seg]; [done|].
  rewrite E in Hcat. injection Hcat as -> _. exact H.
Qed.

Lemma pipeline_exchange {V : Type} (evaluate : V → option bytes) (a : allocs) (c : loc_conf)
    (qs : list (list complex_value)) (vals : list (list bytes)) (rs : list reply)
    (segs : list bytes) :
  allocs_ok a → queries c = Some qs → qs ≠ [] →
  eval_queries evaluate qs = Some vals → small (encode_commands vals) →
  length rs = length qs → Forall reply_ok rs → all_recognised rs (0, 0) = true →
  Forall (.≠ []) segs → concat segs = stream rs →
  ∃ x out y e,
    ngx_http_redis2_create_request evaluate a c (ctx_init 0) = (NGX_OK, x, Some out)
    ∧ decode_many decode_command (length qs) out = Some (vals, [])
    ∧ ngx_http_redis2_process_header (default [] (head segs)) = (NGX_OK, Some NGX_HTTP_OK)
    ∧ feed x segs [] = Some (NGX_OK, y, stream rs, e)
    ∧ query_count y = 0%nat ∧ e_complete e = true ∧ e_keepalive e = true.
Proof.
  intros (Ha & Hb & Hl) Hq Hne Hv Hs Hlen Hok Hrec Hsegs Hcat.
  assert (Hrs : rs ≠ []) by (intros ->; by destruct qs).
  destruct (redis2_pipeline rs segs Hrs Hok Hrec Hsegs Hcat) as (y & e & Hf & H).
  exists (ctx_init (length qs)), (encode_commands vals), y, e.
  rewrite Hlen in Hf. split_and!; try apply H.
  - unfold ngx_http_redis2_create_request. rewrite Hq, (build_query_some evaluate a qs vals) by done.
    by rewrite Hl.
  - assert (Hlv : length qs = length vals).
    { unfold eval_queries in Hv. apply mapM_Some in Hv. by apply Forall2_length in Hv. }
    rewrite Hlv, <- (app_nil_r (encode_commands vals)) at 1. by apply decode_encode_commands.
  - by apply stream_header with rs.
  - exact Hf.
Qed.

(** C14. A pipeline from its configuration to its answer. For the queries of a
    location, whatever bytes their arguments evaluate to, the module sends bytes
    from which a server reads back exactly those queries and arguments, one command
    per query and nothing more: no argument can smuggle in another command. When the
    server answers each command with a well-formed reply, in whatever segments the
    answers arrive, the header is accepted, all bytes are passed on, and the request
    completes at the end of the last reply with the connection kept alive. An empty
    or null multi-bulk reply counts as recognised only when the counts that earlier
    replies left are equal. *)
Theorem redis2_exchange {V : Type} (evaluate : V → option bytes) (a : allocs) (c : loc_conf)
    (qs : list (list complex_value)) (vals : list (list bytes)) (rs : list reply)
    (segs : list bytes) :
  allocs_ok a → queries c = Some qs → qs ≠ [] →
  eval_queries evaluate qs = Some vals → small (encode_commands vals) →
  length rs = length qs → Forall reply_ok rs → all_recognised rs (0, 0) = true →
  Forall (.≠ []) segs → concat segs = stream rs →
  ∃ x out y e,
    ngx_http_redis2_create_request evaluate a c (ctx_init 0) = (NGX_OK, x, Some out)
    ∧ decode_many decode_command (length qs) out = Some (vals, [])
    ∧ ngx_http_redis2_process_header (default [] (head segs)) = (NGX_OK, Some NGX_HTTP_OK)
    ∧ feed x segs [] = Some (NGX_OK, y, stream rs, e)
    ∧ query_count y = 0%nat ∧ e_complete e = true ∧ e_keepalive e = true.
Proof. apply pipeline_exchange. Qed.

(** The location of the login flow, [redis2_query auth $pwd; redis2_query set $key $val;],
    with the strings of the configuration as their own values. *)
Definition example_queries : list (list (complex_value (V := bytes))) :=
  [[cv_compiled (bs "auth"); cv_compiled (bs "secret")];
   [cv_compiled (bs "set"); cv_compiled (bs "key"); cv_compiled (CR :: LF :: bs "x")]].

Definition example_conf : loc_conf (V := bytes) :=
  set_queries (Some example_queries) ngx_http_redis2_create_loc_conf.

Definition example_values : list (list bytes) :=
  [[bs "auth"; bs "secret"]; [bs "set"; bs "key"; CR :: LF :: bs "x"]].

Definition ok_reply : reply := One (Line "+"%ch (bs "OK")).

Lemma redis2_exchange_witness :
  ∃ x out y e,
    ngx_http_redis2_create_request Some (mk_allocs true true true) example_conf (ctx_init 0)
    = (NGX_OK, x, Some out)
    ∧ decode_many decode_command (length example_queries) out = Some (example_values, [])
    ∧ ngx_http_redis2_process_header (default [] (head [stream [ok_reply; ok_reply]]))
      = (NGX_OK, Some NGX_HTTP_OK)
    ∧ feed x [stream [ok_reply; ok_reply]] [] = Some (NGX_OK, y, stream [ok_reply; ok_reply], e)
    ∧ query_count y = 0%nat ∧ e_complete e = true ∧ e_keepalive e = true.
Proof.
  assert (Hok : reply_ok ok_reply).
  { split; [done|]. split; [solve_bytes|]. intros [|? [|? [|? a]]] b; try done; by destruct a. }
  apply (redis2_exchange Some (mk_allocs true true true) example_conf example_queries
    example_values [ok_reply; ok_reply] [stream [ok_reply; ok_reply]]).
  - by split_and!.
  - reflexivity.
  - discriminate.
  - reflexivity.
  - reflexivity.
  - reflexivity.
  - apply Forall_cons; split; [exact Hok|]. apply Forall_cons; split; [exact Hok|constructor].
  - reflexivity.
  - apply Forall_cons; split; [discriminate|constructor].
  - reflexivity.
Defined.

Lemma redis2_create_request_spec_witness :
  (∃ n out, ngx_http_redis2_create_request Some (mk_allocs true true true) example_conf (ctx_init 0)
            = (NGX_OK, set_query_count n (ctx_init 0), Some out)
     ∧ request_for Some example_conf n out)
  ∨ (∃ y, ngx_http_redis2_create_request Some (mk_allocs true true true) example_conf (ctx_init 0)
          = (NGX_ERROR, y, None))
    ∧ (¬ allocs_ok (mk_allocs true true true) ∨ ∀ n out, ¬ request_for Some example_conf n out).
Proof.
  apply (redis2_create_request_spec Some (mk_allocs true true true) example_conf (ctx_init 0)).
  intros qs vals Hq Hv. injection Hq as <-. injection Hv as <-. reflexivity.
Defined.

Definition example_query_conf : loc_conf (V := bytes) :=
  set_queries (Some [[cv_compiled (bs "ping")]]) ngx_http_redis2_create_loc_conf.

Lemma redis2_conf_invariant_witness :
  conf_ok example_query_conf ∧ (0 < query_count (ctx_init 1))%nat.
Proof.
  apply (redis2_conf_invariant Some Some (mk_allocs true true true) example_query_conf
    (ctx_init 0) (ctx_init 1) (Some (encode_commands [[bs "ping"]]))).
  - apply (configured_query Some true (fun _ => true) [bs "ping"]
      ngx_http_redis2_create_loc_conf); [constructor|discriminate|reflexivity].
  - reflexivity.
Defined.

(** ** Upstream groups *)

(** [ngx_http_redis2_upstream_add] finds the first group with the name of the target,
    up to case, and the port. *)
Lemma upstream_add_spec (ups : list srv_conf) (url_host : bytes) (url_port : Z) (i : nat) :
  Forall (fun c => lower c ≠ 0) url_host →
  ngx_http_redis2_upstream_add i ups url_host url_port
  = Some (Nat.add i ∘ fst <$> list_find (fun u => ci_eq (host u) url_host ∧ port u = url_port) ups).
Proof.
  intros Hz. revert i. induction ups as [|u ups IH]; intros i; [done|].
  cbn [ngx_http_redis2_upstream_add list_find]. rewrite IH.
  destruct (Nat.eqb_spec (length (host u)) (length url_host)) as [El|El]; cbn [negb].
  - destruct (strncasecmp_total (host u) url_host (length url_host)) as [r Er]; [lia..|]. rewrite Er.
    pose proof (strncasecmp_zero (host u) url_host [] [] (length url_host) El eq_refl Hz) as Hci.
    rewrite !app_nil_r, Er in Hci.
    destruct (Z.eqb_spec r 0) as [->|Hr]; cbn [negb]; [destruct (Z.eqb_spec (port u) url_port)|].
    + cbn [negb]. rewrite decide_True by (split; [by apply Hci|done]). cbn. by rewrite Nat.add_0_r.
    + cbn [negb]. rewrite decide_False by (by intros [_ ?]).
      destruct (list_find _ ups) as [[j v]|]; [|done]. cbn. do 2 f_equal. lia.
    + rewrite decide_False by (intros [?%Hci _]; congruence).
      destruct (list_find _ ups) as [[j v]|]; [|done]. cbn. do 2 f_equal. lia.
  - rewrite decide_False.
    { destruct (list_find _ ups) as [[j v]|]; [|done]. cbn. do 2 f_equal. lia. }
    intros [Hci _]. unfold ci_eq in Hci. apply (f_equal length) in Hci. rewrite !length_map in Hci. done.
Qed.

(** ** What the configuration code gets wrong *)

(** The count of [redis2_raw_queries] is inherited by an inner location with a
    [redis2_raw_query] of its own: one query is sent, two replies are awaited. *)
Lemma raw_query_inherits_count :
  let outer := set_raw (Some (cv_compiled (bs "pings"))) (Some (cv_compiled (bs "2")))
                 ngx_http_redis2_create_loc_conf in
  let inner := set_raw (Some (cv_compiled (bs "ping"))) None ngx_http_redis2_create_loc_conf in
  ngx_http_redis2_create_request Some (mk_allocs true true true)
    (ngx_http_redis2_merge_loc_conf 4096 outer inner) (ctx_init 0)
  = (NGX_OK, ctx_init 2, Some (bs "ping")).
Proof. reflexivity. Qed.

(** The queries of an outer location take precedence over the literal query of an
    inner one. *)
Lemma outer_queries_shadow {V : Type} (evaluate : V → option bytes) (a : allocs) (pagesize : Z)
    (outer inner : loc_conf) (x : ctx) (l : bytes) :
  queries inner = None → literal_query inner = Some l → queries outer ≠ None →
  ngx_http_redis2_create_request evaluate a (ngx_http_redis2_merge_loc_conf pagesize outer inner) x
  = ngx_http_redis2_create_request evaluate a (set_queries (queries outer) inner) x.
Proof.
  intros Hq Hl Ho. unfold ngx_http_redis2_create_request.
  cbn [queries ngx_http_redis2_merge_loc_conf set_queries]. rewrite Hq. cbn [merge_pointer].
  by destruct (queries outer).
Qed.

(** The handler keeps the group of a target with variables in the configuration of
    the location, which all requests share: when a second request passes the handler
    before the first has been read, both use the group of the second. *)
Lemma handler_target_shared {V : Type} (evaluate : V → option bytes) (e : env) (ups : list srv_conf)
    (c c' : loc_conf) (ct : complex_value) (target : bytes) (x : option ctx) :
  complex_target c = Some ct → ngx_http_complex_value evaluate ct = Some target →
  Forall (fun ch => lower ch ≠ 0) target →
  ngx_http_redis2_handler evaluate e ups c = Some (NGX_DONE, c', x) →
  upstream c' = fst <$> list_find (fun u => ci_eq (host u) target ∧ port u = 0) ups
  ∧ upstream c' ≠ None ∧ complex_target c' = Some ct.
Proof.
  intros Hc Hv Hz. unfold ngx_http_redis2_handler. rewrite Hc, Hv.
  rewrite upstream_add_spec by done.
  destruct (negb (set_content_type e =? NGX_OK)); [done|].
  destruct (negb (upstream_create e =? NGX_OK)); [done|].
  destruct (length target =? 0)%nat; [done|].
  destruct (list_find _ ups) as [[i u]|]; cbn [fmap option_fmap option_map]; [|done].
  repeat case_match; try done; intros; simplify_eq; done.
Qed.

End Redis2.
