(* ===== verification/BackEnd.v ===== *)
(** * The configuration of the back end module

    src/nginx_http_back_end/src/ngx_http_back_end_module.c (the directives),
    http_module_customer_callback.c (creation and check of the configuration) and
    sys_util.c ([get_random_id]).

    A string of the configuration is [None] while its data is NULL.  A directive
    reads [value[1]] of its arguments whether there is one or not (the directives
    are declared with NGX_CONF_ANY); reading a word that is not there is the result
    [None]. *)

From S2P Require Import Prelude NgxNumber.

Open Scope Z_scope.

Module BackEnd.

(** ** State: customer_backend_typedef.h *)

Record mysql_connect_conf := mk_mysql {
  mysql_host : option bytes;
  user_name : option bytes;
  user_pwd : option bytes;
  db_name : option bytes;
  mysql_port : Z   (* int16_t *)
}.

Record redis_connect_conf := mk_redis {
  redis_host : option bytes;
  redis_port : Z;   (* int16_t *)
  redis_pwd : option bytes
}.

Record wx_backend_info := mk_wx { app_id : option bytes; secret : option bytes }.

(** [mysql_client] is whether the pointer is set; nothing uses [redis_client]. *)
Record main_conf := mk_conf {
  mysql_info : mysql_connect_conf;
  mysql_client : bool;
  redis_info : redis_connect_conf;
  wx_info : wx_backend_info
}.

(** ** http_module_customer_callback.c *)

Definition http_create_main_conf (alloc : bool) : option main_conf :=
  if negb alloc then None
  else Some (mk_conf (mk_mysql None None None None 3306) false (mk_redis None 6379 None)
               (mk_wx None None)).

Definition is_null (s : option bytes) : bool := match s with None => true | Some _ => false end.

(** [connect] is whether [connect_mysql_db] gives a connection. *)
Definition http_postconfiguration (connect : mysql_connect_conf → bool) (ct : main_conf)
    : Z * main_conf :=
  let mysql := mysql_info ct in
  let redis := redis_info ct in
  let wx := wx_info ct in
  if is_null (mysql_host mysql) || is_null (user_name mysql) || is_null (user_pwd mysql)
     || is_null (db_name mysql)
  then (NGX_ERROR, ct)
  else if is_null (redis_host redis) || is_null (redis_pwd redis) then (NGX_ERROR, ct)
  else if is_null (app_id wx) || is_null (secret wx) then (NGX_ERROR, ct)
  else
    let ct := mk_conf mysql (connect mysql) redis wx in
    if negb (mysql_client ct) then (NGX_ERROR, ct) else (NGX_OK, ct).

(** ** The directives of ngx_http_back_end_module.c *)

Inductive directive :=
  | d_mysql | d_mysql_host | d_mysql_port | d_mysql_user_name | d_mysql_user_pwd | d_mysql_db_name
  | d_redis_host | d_redis_port | d_redis_pwd | d_wx_ma_appid | d_wx_ma_secret.

(** [*field = ngx_atoi(value[1].data, value[1].len)] with an [int16_t] field. *)
Definition set_port (value : bytes) : Z := wrap_s 16 (ngx_atoi value).

Definition ngx_http_get_mysql_conf (ct : main_conf) : option main_conf := Some ct.

Definition set_mysql (m : mysql_connect_conf) (ct : main_conf) : main_conf :=
  mk_conf m (mysql_client ct) (redis_info ct) (wx_info ct).

Definition ngx_http_get_mysql_host (args : list bytes) (ct : main_conf) : option main_conf :=
  value ← args !! 1%nat; let m := mysql_info ct in
  Some (set_mysql (mk_mysql (Some value) (user_name m) (user_pwd m) (db_name m) (mysql_port m)) ct).

Definition ngx_http_get_mysql_port (args : list bytes) (ct : main_conf) : option main_conf :=
  value ← args !! 1%nat; let m := mysql_info ct in
  Some (set_mysql (mk_mysql (mysql_host m) (user_name m) (user_pwd m) (db_name m) (set_port value)) ct).

Definition ngx_http_get_mysql_user_name (args : list bytes) (ct : main_conf) : option main_conf :=
  value ← args !! 1%nat; let m := mysql_info ct in
  Some (set_mysql (mk_mysql (mysql_host m) (Some value) (user_pwd m) (db_name m) (mysql_port m)) ct).

Definition ngx_http_get_mysql_user_pwd (args : list bytes) (ct : main_conf) : option main_conf :=
  value ← args !! 1%nat; let m := mysql_info ct in
  Some (set_mysql (mk_mysql (mysql_host m) (user_name m) (Some value) (db_name m) (mysql_port m)) ct).

Definition ngx_http_get_mysql_db_name (args : list bytes) (ct : main_conf) : option main_conf :=
  value ← args !! 1%nat; let m := mysql_info ct in
  Some (set_mysql (mk_mysql (mysql_host m) (user_name m) (user_pwd m) (Some value) (mysql_port m)) ct).

Definition set_redis (r : redis_connect_conf) (ct : main_conf) : main_conf :=
  mk_conf (mysql_info ct) (mysql_client ct) r (wx_info ct).

Definition ngx_http_get_redis_host (args : list bytes) (ct : main_conf) : option main_conf :=
  value ← args !! 1%nat; let r := redis_info ct in
  Some (set_redis (mk_redis (Some value) (redis_port r) (redis_pwd r)) ct).

Definition ngx_http_get_redis_pwd (args : list bytes) (ct : main_conf) : option main_conf :=
  value ← args !! 1%nat; let r := redis_info ct in
  Some (set_redis (mk_redis (redis_host r) (redis_port r) (Some value)) ct).

Definition ngx_http_get_redis_port (args : list bytes) (ct : main_conf) : option main_conf :=
  value ← args !! 1%nat; let r := redis_info ct in
  Some (set_redis (mk_redis (redis_host r) (set_port value) (redis_pwd r)) ct).

Definition set_wx (w : wx_backend_info) (ct : main_conf) : main_conf :=
  mk_conf (mysql_info ct) (mysql_client ct) (redis_info ct) w.

Definition ngx_http_get_wx_ma_app_id (args : list bytes) (ct : main_conf) : option main_conf :=
  value ← args !! 1%nat; Some (set_wx (mk_wx (Some value) (secret (wx_info ct))) ct).

Definition ngx_http_get_wx_ma_secret (args : list bytes) (ct : main_conf) : option main_conf :=
  value ← args !! 1%nat; Some (set_wx (mk_wx (app_id (wx_info ct)) (Some value)) ct).

(** [ngx_http_commands]: the directive and its handler. *)
Definition run_directive (d : directive) (args : list bytes) (ct : main_conf) : option main_conf :=
  match d with
  | d_mysql => ngx_http_get_mysql_conf ct
  | d_mysql_host => ngx_http_get_mysql_host args ct
  | d_mysql_port => ngx_http_get_mysql_port args ct
  | d_mysql_user_name => ngx_http_get_mysql_user_name args ct
  | d_mysql_user_pwd => ngx_http_get_mysql_user_pwd args ct
  | d_mysql_db_name => ngx_http_get_mysql_db_name args ct
  | d_redis_host => ngx_http_get_redis_host args ct
  | d_redis_port => ngx_http_get_redis_port args ct
  | d_redis_pwd => ngx_http_get_redis_pwd args ct
  | d_wx_ma_appid => ngx_http_get_wx_ma_app_id args ct
  | d_wx_ma_secret => ngx_http_get_wx_ma_secret args ct
  end.

(** The directives of a configuration file, in order, each with its words. *)
Fixpoint read_conf (ds : list (directive * list bytes)) (ct : main_conf) : option main_conf :=
  match ds with
  | [] => Some ct
  | (d, args) :: ds => ct ← run_directive d args ct; read_conf ds ct
  end.

(** Start-up: create, read, check. *)
Definition start (connect : mysql_connect_conf → bool) (ds : list (directive * list bytes))
    : option (Z * main_conf) :=
  ct ← http_create_main_conf true; ct ← read_conf ds ct; Some (http_postconfiguration connect ct).

(** ** sys_util.c *)

(** What [open] and [read] on /dev/urandom return; the result is the return value
    and whether the descriptor is left open. *)
Definition get_random_id (buf_null : bool) (max fd nread : Z) : Z * bool :=
  if buf_null || (0 >? max) then (-1, false)
  else if fd <? 0 then (-2, false)
  else if nread <? 0 then (-3, true)
  else (0, false).

#[export] Instance directive_eq_dec : EqDecision directive.
Proof. solve_decision. Defined.

(** * Theorems *)

(** What is in effect after reading: the argument of the last occurrence. *)
Definition last_value (ds : list (directive * list bytes)) (d : directive) : option bytes :=
  foldl (fun acc '(d', args) => if decide (d = d') then args !! 1%nat else acc) None ds.

Lemma last_value_snoc ds d' args d :
  last_value (ds ++ [(d', args)]) d = if decide (d = d') then args !! 1%nat else last_value ds d.
Proof. unfold last_value. by rewrite foldl_app. Qed.

(** The configuration that [ds] describes. *)
Definition described (ds : list (directive * list bytes)) : main_conf :=
  let v := last_value ds in
  mk_conf
    (mk_mysql (v d_mysql_host) (v d_mysql_user_name) (v d_mysql_user_pwd) (v d_mysql_db_name)
       (default 3306 (set_port <$> v d_mysql_port)))
    false
    (mk_redis (v d_redis_host) (default 6379 (set_port <$> v d_redis_port)) (v d_redis_pwd))
    (mk_wx (v d_wx_ma_appid) (v d_wx_ma_secret)).

(** Every directive that reads a value has one. *)
Definition has_value (x : directive * list bytes) : Prop := x.1 = d_mysql ∨ is_Some (x.2 !! 1%nat).

Lemma read_conf_app ds1 ds2 ct : read_conf (ds1 ++ ds2) ct = read_conf ds1 ct ≫= read_conf ds2.
Proof.
  revert ct. induction ds1 as [|[d args] ds1 IH]; intros ct; [done|]. cbn.
  destruct (run_directive d args ct); [|done]. apply IH.
Qed.

Lemma run_directive_described ds d args :
  has_value (d, args) → run_directive d args (described ds) = Some (described (ds ++ [(d, args)])).
Proof.
  intros [Hm|[value Hv]]; cbn in *.
  - subst d. unfold described. cbn [run_directive ngx_http_get_mysql_conf].
    by rewrite !last_value_snoc.
  - unfold described. rewrite !last_value_snoc, Hv. destruct d; cbn [run_directive].
    all: unfold ngx_http_get_mysql_conf, ngx_http_get_mysql_host, ngx_http_get_mysql_port,
      ngx_http_get_mysql_user_name, ngx_http_get_mysql_user_pwd, ngx_http_get_mysql_db_name,
      ngx_http_get_redis_host, ngx_http_get_redis_port, ngx_http_get_redis_pwd,
      ngx_http_get_wx_ma_app_id, ngx_http_get_wx_ma_secret; rewrite ?Hv; reflexivity.
Qed.

Lemma read_conf_described ds ct :
  http_create_main_conf true = Some ct → Forall has_value ds → read_conf ds ct = Some (described ds).
Proof.
  intros [= <-]. induction ds as [|[d args] ds IH] using rev_ind; intros H; [done|].
  apply Forall_app in H as [H1 H2]. rewrite read_conf_app, IH by done. cbn [mbind option_bind read_conf].
  inversion H2. rewrite run_directive_described by done. done.
Qed.

(** The strings that [http_postconfiguration] looks at. *)
Definition strings (ct : main_conf) : list (option bytes) :=
  [mysql_host (mysql_info ct); user_name (mysql_info ct); user_pwd (mysql_info ct);
   db_name (mysql_info ct); redis_host (redis_info ct); redis_pwd (redis_info ct);
   app_id (wx_info ct); secret (wx_info ct)].

Lemma postconfiguration_spec (connect : mysql_connect_conf → bool) (ct : main_conf) :
  http_postconfiguration connect ct
  = if decide (Forall is_Some (strings ct))
    then (if connect (mysql_info ct) then NGX_OK else NGX_ERROR,
          mk_conf (mysql_info ct) (connect (mysql_info ct)) (redis_info ct) (wx_info ct))
    else (NGX_ERROR, ct).
Proof.
  unfold http_postconfiguration. cbv zeta.
  destruct (_ || _ || _ || _) eqn:E1; [|destruct (is_null (redis_host _) || _) eqn:E2;
    [|destruct (is_null (app_id _) || _) eqn:E3]].
  1-3: rewrite decide_False; [done|]; intros H; unfold strings in H;
    rewrite !Forall_cons in H; destruct H as ([? Hh] & [? Hu] & [? Hp] & [? Hd] & [? Hr] & [? Hw] & [? Ha] & [? Hs] & _);
    by rewrite ?Hh, ?Hu, ?Hp, ?Hd, ?Hr, ?Hw, ?Ha, ?Hs in *.
  rewrite decide_True.
  - cbn [mysql_client]. by destruct (connect _).
  - unfold strings. rewrite !orb_false_iff in *. rewrite !Forall_cons, Forall_nil.
    repeat match goal with H : _ ∧ _ |- _ => destruct H end.
    repeat split; match goal with |- is_Some ?s => by destruct s end.
Qed.

(** Start-up succeeds exactly when every host, name, password and application
    identifier has been given and the database can be reached; the login handler
    then finds the strings of the last directive of each kind, and the connection to
    the database is open. *)
Theorem back_end_start (connect : mysql_connect_conf → bool) (ds : list (directive * list bytes)) :
  Forall has_value ds →
  ∃ rc ct, start connect ds = Some (rc, ct)
  ∧ (rc = NGX_OK ↔
     Forall (fun d => is_Some (last_value ds d))
       [d_mysql_host; d_mysql_user_name; d_mysql_user_pwd; d_mysql_db_name; d_redis_host;
        d_redis_pwd; d_wx_ma_appid; d_wx_ma_secret]
     ∧ connect (mysql_info (described ds)) = true)
  ∧ mysql_info ct = mysql_info (described ds) ∧ redis_info ct = redis_info (described ds)
  ∧ wx_info ct = wx_info (described ds) ∧ (rc = NGX_OK → mysql_client ct = true).
Proof.
  intros H. unfold start. cbn [http_create_main_conf negb mbind option_bind].
  rewrite (read_conf_described ds _ eq_refl H). cbn [mbind option_bind].
  rewrite postconfiguration_spec.
  assert (Hs : Forall (fun d => is_Some (last_value ds d))
       [d_mysql_host; d_mysql_user_name; d_mysql_user_pwd; d_mysql_db_name; d_redis_host;
        d_redis_pwd; d_wx_ma_appid; d_wx_ma_secret] ↔ Forall is_Some (strings (described ds)))
    by (unfold strings; by rewrite !Forall_cons, !Forall_nil).
  destruct (decide _) as [Hd|Hd]; eexists _, _; (split; [done|]).
  - apply Hs in Hd. destruct (connect _); split_and!; try done. split; [done|by intros [_ ?]].
  - split_and!; try done. split; [done|by intros [?%Hs _]].
Qed.

(** A port up to 32767 is kept; a larger one wraps around and a word that is no
    number becomes -1. *)
Lemma set_port_spec (value : bytes) :
  decimal_line NGX_MAX_INT_T_VALUE value → dec_value 0 value < 2 ^ 15 →
  set_port value = dec_value 0 value.
Proof.
  intros H Hle. pose proof H as (_ & Hd & _). pose proof (dec_value_ge 0 value ltac:(lia) Hd).
  unfold set_port. rewrite atoi_decimal, decide_True by done. apply wrap_s_id; lia.
Qed.

Lemma set_port_wraps : set_port (bs "33060") = -32476 ∧ set_port (bs "port") = -1.
Proof. done. Qed.

Definition example_directives : list (directive * list bytes) :=
  [(d_mysql_host, [bs "mysql_host"; bs "localhost"]);
   (d_mysql_port, [bs "mysql_port"; bs "3306"]);
   (d_mysql_user_name, [bs "mysql_user_name"; bs "root"]);
   (d_mysql_user_pwd, [bs "mysql_user_pwd"; bs "123456"]);
   (d_mysql_db_name, [bs "mysql_db_name"; bs "customer"]);
   (d_redis_host, [bs "redis_host"; bs "localhost"]);
   (d_redis_pwd, [bs "redis_pwd"; bs "123456"]);
   (d_wx_ma_appid, [bs "wx_ma_appid"; bs "wx"]);
   (d_wx_ma_secret, [bs "wx_ma_secret"; bs "s"])].

Lemma back_end_start_witness :
  ∃ rc ct, start (fun _ => true) example_directives = Some (rc, ct)
  ∧ (rc = NGX_OK ↔
     Forall (fun d => is_Some (last_value example_directives d))
       [d_mysql_host; d_mysql_user_name; d_mysql_user_pwd; d_mysql_db_name; d_redis_host;
        d_redis_pwd; d_wx_ma_appid; d_wx_ma_secret]
     ∧ true = true)
  ∧ mysql_info ct = mysql_info (described example_directives)
  ∧ redis_info ct = redis_info (described example_directives)
  ∧ wx_info ct = wx_info (described example_directives) ∧ (rc = NGX_OK → mysql_client ct = true).
Proof.
  apply (back_end_start (fun _ => true) example_directives).
  repeat (apply Forall_cons; split; [right; by eexists|]). constructor.
Defined.

End BackEnd.
