(* ===== verification/Login.v ===== *)
(** * The login flow of the back end

    src/nginx_http_back_end/src/Login.cpp: a POST is answered in three stages, each
    a handler that nginx calls when the stage before has ended.  The body gives the
    code of a WeChat login; a subrequest to /wxMiniBuyPhone/login exchanges it for
    the session of the user; a subrequest to /redis_set stores the session; the
    answer is a JSON object.  The results of a subrequest reach the parent through
    [headers_out.status] and the context that the parent and the completion handler
    share.

    [decode_LoginParam], [decode_WXSessionInfo] and [encode_LoginBackParam] stand
    for the JSON functions that slothjson generates.  A step of the model is one call
    of a handler by nginx; what the nginx functions return to a handler is part of
    the event. *)

From S2P Require Import Prelude NgxNumber NgxEscape NgxCompare HttpUri HttpRawUri HttpChunked.
From S2P Require Import SetMisc Redis2Reply Redis2 BackEnd.
From stdpp Require Import sets.

Open Scope Z_scope.

Module Login.

(** ** Data *)

Record LoginParam := mk_param { code : bytes }.

Record WXSessionInfo := mk_session {
  session_key : bytes;
  openid : bytes;
  unionid : bytes;
  expires_in : Z
}.

Record LoginBackParam := mk_back { expire : Z; session_id : bytes; back_openid : bytes }.

(** [ngx_http_login_ctx_t]; the array is not initialised when it is allocated. *)
Record login_ctx := mk_login_ctx { wx_response : option bytes; redis_response : option bytes }.

(** The completion handlers of subrequests, and the handlers that resume the
    parent. *)
Inductive post_handler := wx_login_subrequest_post | wx_login_set_redis_post.
Inductive write_handler := wx_login_father | login_done_handler.

(** What the flow uses of [ngx_http_request_t]. *)
Record request := mk_request {
  status : Z;               (* headers_out.status *)
  r_ctx : option login_ctx;
  write_event : option write_handler
}.

(** How a request ends: [ngx_http_finalize_request] with a code, with or without a
    JSON body sent before, or a NULL pointer that is followed. *)
Inductive outcome :=
  | finalized (rc : Z)
  | answered (body : bytes) (rc : Z)
  | crashed.

(** What a handler does: it ends the request, or it waits for a subrequest. *)
Inductive result :=
  | ended (o : outcome)
  | waiting (r : request) (uri args : bytes) (post : post_handler).

(** What the nginx functions return to a handler: the allocations of the
    subrequest structure, of the context and of the arguments,
    [ngx_http_subrequest], [ngx_http_send_header], [r->header_only],
    [ngx_create_temp_buf] and [ngx_http_output_filter]. *)
Record calls := mk_calls {
  c_psr : bool;
  c_ctx : bool;
  c_args : bool;
  c_subrequest : Z;
  c_send_header : Z;
  c_header_only : bool;
  c_buf : bool;
  c_output : Z
}.

Definition NGX_HTTP_POST : Z := 0x0008.
Definition NGX_HTTP_NOT_ALLOWED : Z := 405.
Abbreviation NGX_HTTP_OK := Redis2.NGX_HTTP_OK.
Abbreviation NGX_HTTP_INTERNAL_SERVER_ERROR := Chunked.NGX_HTTP_INTERNAL_SERVER_ERROR.

(** [ngx_snprintf(buf, max, "%V%V...", ...)] *)
Fixpoint snprintf_V (max : nat) (parts : list bytes) : bytes :=
  match parts with
  | [] => []
  | v :: parts =>
      let w := take max v in w ++ snprintf_V (max - length w) parts
  end.

Section Handlers.
Variable decode_LoginParam : bytes → option LoginParam.
Variable decode_WXSessionInfo : bytes → option WXSessionInfo.
Variable encode_LoginBackParam : LoginBackParam → option bytes.

(** The configuration of the module; after a successful start no string is NULL. *)
Variable cf : BackEnd.main_conf.

Definition str (s : option bytes) : bytes := default [] s.

(** ** The handlers *)

Definition ngx_http_customer_manager_login (method read_body : Z) : Z :=
  if Z.land method NGX_HTTP_POST =? 0 then NGX_HTTP_NOT_ALLOWED
  else if read_body >=? Redis2.NGX_HTTP_SPECIAL_RESPONSE then read_body
  else NGX_DONE.

(** [bufs] are the buffers of the body; only the first one is looked at. *)
Definition ngx_http_customer_manager_login_handler (c : calls) (bufs : list bytes) (r : request)
    : result :=
  match bufs with
  | [] => ended crashed
  | body :: _ =>
      if (length body =? 0)%nat then ended (finalized NGX_HTTP_INTERNAL_SERVER_ERROR)
      else
        match decode_LoginParam body with
        | None => ended (finalized NGX_HTTP_INTERNAL_SERVER_ERROR)
        | Some codeObj =>
            if (length (code codeObj) =? 0)%nat
            then ended (finalized NGX_HTTP_INTERNAL_SERVER_ERROR)
            else if negb (c_psr c) then ended (finalized NGX_HTTP_INTERNAL_SERVER_ERROR)
            else
              let ctx :=
                match r_ctx r with
                | Some ctx => Some ctx
                | None => if c_ctx c then Some (mk_login_ctx None None) else None
                end in
              match ctx with
              | None => ended (finalized NGX_HTTP_INTERNAL_SERVER_ERROR)
              | Some ctx =>
                  let r := mk_request (status r) (Some ctx) (write_event r) in
                  let parts :=
                    [bs "appid="; str (BackEnd.app_id (BackEnd.wx_info cf));
                     bs "&secret="; str (BackEnd.secret (BackEnd.wx_info cf));
                     bs "&js_code="; code codeObj; bs "&grant_type=authorization_code"] in
                  let len := (length (bs "appid=") + length (bs "&secret=") + length (bs "&js_code=")
                    + length (bs "&grant_type=authorization_code")
                    + length (str (BackEnd.app_id (BackEnd.wx_info cf)))
                    + length (str (BackEnd.secret (BackEnd.wx_info cf))) + length (code codeObj))%nat in
                  if negb (c_args c) then ended crashed
                  else if negb (c_subrequest c =? NGX_OK)
                  then ended (finalized NGX_HTTP_INTERNAL_SERVER_ERROR)
                  else waiting r (bs "/wxMiniBuyPhone/login") (snprintf_V len parts)
                         wx_login_subrequest_post
              end
        end
  end.

(** The completion handlers: [sub_status] is the status of the subrequest, [buffer]
    its response; the parent [pr] and its context change. *)
Definition wx_login_subrequest_post_handler (sub_status : Z) (buffer : bytes) (pr : request)
    : request :=
  mk_request sub_status
    (if sub_status =? NGX_HTTP_OK
     then (fun ctx => mk_login_ctx (Some buffer) (redis_response ctx)) <$> r_ctx pr else r_ctx pr)
    (Some wx_login_father).

Definition redis_ok_str : bytes := bs "+OK" ++ [LF] ++ bs "+OK" ++ [LF].
Definition redis_ok_str2 : bytes := bs "+OK" ++ crlf ++ bs "+OK" ++ crlf.

Definition wx_login_set_redis_subrequest_done (sub_status : Z) (buffer : bytes) (pr : request)
    : request :=
  if sub_status =? NGX_HTTP_OK then
    mk_request
      (if negb (bytes_eqb buffer redis_ok_str) && negb (bytes_eqb buffer redis_ok_str2)
       then NGX_HTTP_INTERNAL_SERVER_ERROR else sub_status)
      ((fun ctx => mk_login_ctx (wx_response ctx) (Some buffer)) <$> r_ctx pr)
      (Some login_done_handler)
  else mk_request sub_status (r_ctx pr) (Some login_done_handler).

(** The second stage.  Reading a response that was never stored, or a context that
    was never set, is [crashed]. *)
Definition wx_login_subrequest_post_father_handler (c : calls) (r : request) : result :=
  if negb (status r =? NGX_HTTP_OK) then ended (finalized (status r))
  else if negb (c_psr c) then ended (finalized NGX_HTTP_INTERNAL_SERVER_ERROR)
  else
    match r_ctx r ≫= wx_response with
    | None => ended crashed
    | Some backStr =>
        match decode_WXSessionInfo backStr with
        | None => ended (finalized NGX_HTTP_INTERNAL_SERVER_ERROR)
        | Some info =>
            let pwd := str (BackEnd.redis_pwd (BackEnd.redis_info cf)) in
            let parts :=
              [bs "key="; openid info; bs "&value="; session_key info; bs "&pwd="; pwd] in
            let len := (length (bs "key=") + length (bs "&value=") + length (bs "&pwd=")
              + length (openid info) + length (session_key info) + length pwd)%nat in
            if negb (c_args c) then ended crashed
            else if negb (c_subrequest c =? NGX_OK)
            then ended (finalized NGX_HTTP_INTERNAL_SERVER_ERROR)
            else waiting r (bs "/redis_set") (snprintf_V len parts) wx_login_set_redis_post
        end
    end.

(** The last stage. *)
Definition login_done (c : calls) (r : request) : result :=
  if negb (status r =? NGX_HTTP_OK) then ended (finalized (status r))
  else
    match r_ctx r ≫= wx_response with
    | None => ended crashed
    | Some wxBackJson =>
        match decode_WXSessionInfo wxBackJson with
        | None => ended (finalized NGX_HTTP_INTERNAL_SERVER_ERROR)
        | Some info =>
            match encode_LoginBackParam (mk_back 0 (openid info) (openid info)) with
            | None => ended (finalized NGX_HTTP_INTERNAL_SERVER_ERROR)
            | Some backJson =>
                let rc := c_send_header c in
                if (rc =? NGX_ERROR) || (rc >? NGX_OK) || c_header_only c
                then ended (finalized rc)
                else if negb (c_buf c) then ended (finalized NGX_HTTP_INTERNAL_SERVER_ERROR)
                else ended (answered backJson (c_output c))
            end
        end
    end.

(** ** The flow *)

(** Where a request is between two handlers. *)
Inductive state :=
  | reading_body (r : request)
  | in_subrequest (r : request) (uri args : bytes) (post : post_handler)
  | posted (r : request)          (* the subrequest is done, the parent is to run *)
  | finished (o : outcome).

Inductive event :=
  | body_read (c : calls) (bufs : list bytes)
  | subrequest_done (sub_status : Z) (buffer : bytes)
  | write_ready (c : calls).

Definition of_result (res : result) : state :=
  match res with
  | ended o => finished o
  | waiting r uri args post => in_subrequest r uri args post
  end.

(** The call that nginx makes for an event; [None] when the event cannot occur. *)
Definition next (s : state) (ev : event) : option state :=
  match s, ev with
  | reading_body r, body_read c bufs =>
      Some (of_result (ngx_http_customer_manager_login_handler c bufs r))
  | in_subrequest r _ _ wx_login_subrequest_post, subrequest_done st buffer =>
      Some (posted (wx_login_subrequest_post_handler st buffer r))
  | in_subrequest r _ _ wx_login_set_redis_post, subrequest_done st buffer =>
      Some (posted (wx_login_set_redis_subrequest_done st buffer r))
  | posted r, write_ready c =>
      match write_event r with
      | Some wx_login_father => Some (of_result (wx_login_subrequest_post_father_handler c r))
      | Some login_done_handler => Some (of_result (login_done c r))
      | None => None
      end
  | _, _ => None
  end.

Fixpoint run (s : state) (evs : list event) : option state :=
  match evs with
  | [] => Some s
  | ev :: evs => s ← next s ev; run s evs
  end.

(** A request that has passed [ngx_http_customer_manager_login]. *)
Definition fresh : request := mk_request 0 None None.

End Handlers.

(** ** The /redis_set location of conf/nginx.conf *)

Definition ngx_http_variable_argument (args name : bytes) : option variable_value :=
  match ngx_http_arg args name with
  | None => None
  | Some None => Some (mk_value true [])
  | Some (Some value) => Some (mk_value false value)
  end.

(** The words of its [redis2_query] directives: a string, or a variable that
    [set_unescape_uri] computes from an argument of the request. *)
Inductive word := text (s : bytes) | unescaped_arg (name : bytes).

Definition redis_set_queries : list (list (Redis2.complex_value (V := word))) :=
  [[Redis2.cv_compiled (text (bs "auth")); Redis2.cv_compiled (unescaped_arg (bs "pwd"))];
   [Redis2.cv_compiled (text (bs "set")); Redis2.cv_compiled (unescaped_arg (bs "key"));
    Redis2.cv_compiled (unescaped_arg (bs "value"))]].

(** [redis2_pass redis_server] and the settings of the upstream are not used here. *)
Definition redis_set_location : Redis2.loc_conf (V := word) :=
  Redis2.set_queries (Some redis_set_queries) Redis2.ngx_http_redis2_create_loc_conf.

Definition evaluate (args : bytes) (w : word) : option bytes :=
  match w with
  | text s => Some s
  | unescaped_arg name =>
      v ← ngx_http_variable_argument args name; ngx_http_set_misc_unescape_uri true v
  end.

(** * Theorems *)

Lemma snprintf_V_exact (max : nat) (parts : list bytes) :
  (length (concat parts) <= max)%nat → snprintf_V max parts = concat parts.
Proof.
  revert max. induction parts as [|v parts IH]; intros max H; [done|].
  cbn [concat snprintf_V] in *. rewrite length_app in H.
  rewrite take_ge by lia. f_equal. apply IH. lia.
Qed.

Section Flow.
Context (decode_LoginParam : bytes → option LoginParam).
Context (decode_WXSessionInfo : bytes → option WXSessionInfo).
Context (encode_LoginBackParam : LoginBackParam → option bytes).
Context (cf : BackEnd.main_conf).

Local Abbreviation login_handler :=
  (ngx_http_customer_manager_login_handler decode_LoginParam cf).
Local Abbreviation father_handler :=
  (wx_login_subrequest_post_father_handler decode_WXSessionInfo cf).
Local Abbreviation done_handler := (login_done decode_WXSessionInfo encode_LoginBackParam).
Local Abbreviation next :=
  (next decode_LoginParam decode_WXSessionInfo encode_LoginBackParam cf).
Local Abbreviation run := (run decode_LoginParam decode_WXSessionInfo encode_LoginBackParam cf).

(** The arguments of the two subrequests. *)
Definition wx_args (p : LoginParam) : bytes :=
  bs "appid=" ++ str (BackEnd.app_id (BackEnd.wx_info cf))
  ++ bs "&secret=" ++ str (BackEnd.secret (BackEnd.wx_info cf))
  ++ bs "&js_code=" ++ code p ++ bs "&grant_type=authorization_code".

Definition redis_args (info : WXSessionInfo) : bytes :=
  bs "key=" ++ openid info ++ bs "&value=" ++ session_key info
  ++ bs "&pwd=" ++ str (BackEnd.redis_pwd (BackEnd.redis_info cf)).

(** ** What each handler does *)

(** The codes with which a handler ends a request without an answer. *)
Definition failed (o : outcome) : Prop :=
  o = finalized NGX_HTTP_INTERNAL_SERVER_ERROR ∨ o = crashed.

Local Ltac fails := eexists; split; [reflexivity|split; [by left|discriminate]].
Local Ltac crashes := eexists; split; [reflexivity|split; [by right|by auto]].

Lemma login_handler_spec (c : calls) (bufs : list bytes) :
  (∃ body p, head bufs = Some body ∧ decode_LoginParam body = Some p ∧ code p ≠ []
     ∧ login_handler c bufs fresh
       = waiting (mk_request 0 (Some (mk_login_ctx None None)) None) (bs "/wxMiniBuyPhone/login")
           (wx_args p) wx_login_subrequest_post)
  ∨ ∃ o, login_handler c bufs fresh = ended o ∧ failed o ∧ (o = crashed → bufs = [] ∨ c_args c = false).
Proof.
  unfold ngx_http_customer_manager_login_handler, failed.
  destruct bufs as [|body bufs]; [right; crashes|]. cbn [head r_ctx fresh status write_event].
  destruct (length body =? 0)%nat; [right; fails|].
  destruct (decode_LoginParam body) as [p|] eqn:Ep; [|right; fails].
  destruct (Nat.eqb_spec (length (code p)) 0) as [El|El]; [right; fails|].
  destruct (negb (c_psr c)); [right; fails|]. destruct (c_ctx c); [|right; fails].
  destruct (c_args c) eqn:Ea; cbn [negb]; [|right; crashes].
  destruct (negb (c_subrequest c =? NGX_OK)); [right; fails|]. left. exists body, p.
  split_and!; try done. { intros E. by rewrite E in El. }
  rewrite snprintf_V_exact.
  - unfold wx_args. cbn [concat]. by rewrite app_nil_r.
  - cbn [concat]. autorewrite with ngx_len. cbn [length]. lia.
Qed.

Lemma father_handler_spec (c : calls) (st : Z) (ctx : login_ctx) (w : option write_handler) :
  let r := mk_request st (Some ctx) w in
  (∃ wx info, st = NGX_HTTP_OK ∧ wx_response ctx = Some wx ∧ decode_WXSessionInfo wx = Some info
     ∧ father_handler c r = waiting r (bs "/redis_set") (redis_args info) wx_login_set_redis_post)
  ∨ (st ≠ NGX_HTTP_OK ∧ father_handler c r = ended (finalized st))
  ∨ (st = NGX_HTTP_OK ∧ ∃ o, father_handler c r = ended o ∧ failed o
     ∧ (o = crashed → wx_response ctx = None ∨ c_args c = false)).
Proof.
  intros r. unfold wx_login_subrequest_post_father_handler, failed, r. cbn [status r_ctx mbind option_bind].
  destruct (Z.eqb_spec st NGX_HTTP_OK) as [->|Hst]; cbn [negb]; [|eauto].
  destruct (negb (c_psr c)); [right; right; split; [done|fails]|].
  destruct (wx_response ctx) as [wx|] eqn:Ew; [|right; right; split; [done|crashes]].
  destruct (decode_WXSessionInfo wx) as [info|] eqn:Ei; [|right; right; split; [done|fails]].
  destruct (c_args c) eqn:Ea; cbn [negb]; [|right; right; split; [done|crashes]].
  destruct (negb (c_subrequest c =? NGX_OK)); [right; right; split; [done|fails]|]. left. exists wx, info.
  split_and!; try done. rewrite snprintf_V_exact.
  - unfold redis_args. cbn [concat]. by rewrite app_nil_r.
  - cbn [concat]. autorewrite with ngx_len. cbn [length]. lia.
Qed.

(** [ngx_http_send_header] failed, or only the header is wanted. *)
Definition header_stops (c : calls) : Prop :=
  c_send_header c = NGX_ERROR ∨ NGX_OK < c_send_header c ∨ c_header_only c = true.

Lemma done_handler_spec (c : calls) (st : Z) (ctx : login_ctx) (w : option write_handler) :
  let r := mk_request st (Some ctx) w in
  (∃ wx info body, st = NGX_HTTP_OK ∧ wx_response ctx = Some wx ∧ decode_WXSessionInfo wx = Some info
     ∧ encode_LoginBackParam (mk_back 0 (openid info) (openid info)) = Some body
     ∧ done_handler c r = ended (answered body (c_output c)))
  ∨ (st ≠ NGX_HTTP_OK ∧ done_handler c r = ended (finalized st))
  ∨ (st = NGX_HTTP_OK ∧ ∃ o, done_handler c r = ended o
     ∧ (failed o ∧ (o = crashed → wx_response ctx = None)
        ∨ o = finalized (c_send_header c) ∧ header_stops c)).
Proof.
  intros r. unfold login_done, failed, header_stops, r. cbn [status r_ctx mbind option_bind].
  destruct (Z.eqb_spec st NGX_HTTP_OK) as [->|Hst]; cbn [negb]; [|eauto].
  destruct (wx_response ctx) as [wx|] eqn:Ew; [|right; right; split; [done|]; eexists; split; [reflexivity|]; left; split; [by right|done]].
  destruct (decode_WXSessionInfo wx) as [info|] eqn:Ei; [|right; right; split; [done|]; eexists; split; [reflexivity|]; left; split; [by left|discriminate]].
  destruct (encode_LoginBackParam _) as [body|] eqn:Eb; [|right; right; split; [done|]; eexists; split; [reflexivity|]; left; split; [by left|discriminate]].
  destruct ((_ || _) || _) eqn:Eh.
  - right. right. split; [done|]. eexists. split; [done|]. right. split; [done|].
    rewrite !orb_true_iff, Z.eqb_eq, Z.gtb_lt in Eh. tauto.
  - destruct (negb (c_buf c)); [right; right; split; [done|]; eexists; split; [reflexivity|]; left; split; [by left|discriminate]|]. left. eauto 10.
Qed.

Lemma run_finished (o : outcome) (evs : list event) (s : state) :
  run (finished o) evs = Some s → evs = [] ∧ s = finished o.
Proof. destruct evs as [|ev evs]; [by intros [= <-]|done]. Qed.

Lemma run_app (s : state) (evs1 evs2 : list event) : run s (evs1 ++ evs2) = run s evs1 ≫= (fun s => run s evs2).
Proof.
  revert s. induction evs1 as [|ev evs1 IH]; intros s; [done|]. cbn.
  destruct (Login.next _ _ _ _ s ev); [apply IH|done].
Qed.

(** The request after each stage. *)
Definition after_login : request := mk_request 0 (Some (mk_login_ctx None None)) None.
Definition after_wx (st : Z) (wx : bytes) : request :=
  mk_request st (Some (mk_login_ctx (if st =? NGX_HTTP_OK then Some wx else None) None))
    (Some wx_login_father).

Lemma wx_post_spec (st : Z) (wx : bytes) :
  wx_login_subrequest_post_handler st wx after_login = after_wx st wx.
Proof.
  unfold wx_login_subrequest_post_handler, after_wx, after_login. cbn [r_ctx].
  by destruct (st =? NGX_HTTP_OK).
Qed.

Definition redis_confirms (reply : bytes) : Prop := reply = redis_ok_str ∨ reply = redis_ok_str2.

Lemma redis_post_spec (st : Z) (reply : bytes) (pr : request) (ctx : login_ctx) :
  r_ctx pr = Some ctx →
  let r := wx_login_set_redis_subrequest_done st reply pr in
  (∃ ctx', r_ctx r = Some ctx' ∧ wx_response ctx' = wx_response ctx) ∧ write_event r = Some login_done_handler
  ∧ (status r = NGX_HTTP_OK ↔ st = NGX_HTTP_OK ∧ redis_confirms reply)
  ∧ (status r ≠ NGX_HTTP_OK → status r = st ∧ st ≠ NGX_HTTP_OK ∨ status r = NGX_HTTP_INTERNAL_SERVER_ERROR).
Proof.
  intros Hc. unfold wx_login_set_redis_subrequest_done, redis_confirms.
  destruct (Z.eqb_spec st NGX_HTTP_OK) as [->|Hst]; cbn [r_ctx write_event status].
  - rewrite Hc. split; [by eexists|]. split; [done|].
    destruct (bytes_eqb_spec reply redis_ok_str), (bytes_eqb_spec reply redis_ok_str2);
      cbn [negb andb]; (split; [|by auto]); split; auto; try done. by intros [_ [|]].
  - split; [by eauto|]. split; [done|]. split; [tauto|auto].
Qed.

(** A request is answered only after all three parties agreed. *)
Definition login_trace (evs : list event) (body : bytes) : Prop :=
  ∃ c1 c2 c3 json bufs wx reply p info,
    evs = [body_read c1 (json :: bufs); subrequest_done NGX_HTTP_OK wx; write_ready c2;
           subrequest_done NGX_HTTP_OK reply; write_ready c3]
    ∧ decode_LoginParam json = Some p ∧ code p ≠ []
    ∧ run (reading_body fresh) (take 1 evs)
      = Some (in_subrequest after_login (bs "/wxMiniBuyPhone/login") (wx_args p) wx_login_subrequest_post)
    ∧ decode_WXSessionInfo wx = Some info
    ∧ run (reading_body fresh) (take 3 evs)
      = Some (in_subrequest (after_wx NGX_HTTP_OK wx) (bs "/redis_set") (redis_args info)
                wx_login_set_redis_post)
    ∧ redis_confirms reply
    ∧ encode_LoginBackParam (mk_back 0 (openid info) (openid info)) = Some body.

Lemma run_login_done (r : request) (ctx : login_ctx) (evs : list event) (body : bytes) (rc : Z) :
  r_ctx r = Some ctx → write_event r = Some login_done_handler →
  run (posted r) evs = Some (finished (answered body rc)) →
  status r = NGX_HTTP_OK ∧ ∃ c wx info, evs = [write_ready c] ∧ wx_response ctx = Some wx
  ∧ decode_WXSessionInfo wx = Some info
  ∧ encode_LoginBackParam (mk_back 0 (openid info) (openid info)) = Some body.
Proof.
  intros Hc Hw Hrun. destruct evs as [|[c bufs|st b|c] evs]; try discriminate.
  destruct r as [st ctx' w]. cbn in Hc, Hw. subst ctx' w. cbn [Login.run Login.next write_event mbind option_bind] in Hrun.
  destruct (done_handler_spec c st ctx (Some login_done_handler))
    as [(wx & info & b & -> & Hwx & Hi & Hb & E)|[(_ & E)|(_ & o & E & Ho)]];
    rewrite E in Hrun; apply run_finished in Hrun as [-> Hrun]; simplify_eq; [eauto 8|].
  destruct Ho as [[[Ho|Ho] _]|[Ho _]]; discriminate.
Qed.

Lemma answered_trace (evs : list event) (body : bytes) (rc : Z) :
  run (reading_body fresh) evs = Some (finished (answered body rc)) → login_trace evs body.
Proof.
  intros Hrun. destruct evs as [|[c1 bufs|st b|c] evs]; try discriminate.
  cbn [Login.run Login.next mbind option_bind] in Hrun.
  destruct (login_handler_spec c1 bufs) as [(json & p & Hj & Hp & Hne & E1)|(o & E & [->| ->] & _)];
    [|rewrite E in Hrun; by apply run_finished in Hrun as [_ ?]..].
  rewrite E1 in Hrun. destruct bufs as [|b bufs]; [done|]. injection Hj as ->.
  destruct evs as [|[| st wx|] evs]; try discriminate.
  cbn [of_result Login.run Login.next mbind option_bind] in Hrun.
  change (mk_request 0 _ None) with after_login in Hrun. rewrite wx_post_spec in Hrun.
  destruct evs as [|[| |c2] evs]; try discriminate.
  cbn [Login.run Login.next mbind option_bind after_wx write_event] in Hrun. unfold after_wx in Hrun.
  destruct (father_handler_spec c2 st (mk_login_ctx (if st =? NGX_HTTP_OK then Some wx else None) None)
    (Some wx_login_father)) as [(wx' & info & -> & Hwx & Hi & E2)|[(_ & E)|(_ & o & E & [->| ->] & _)]];
    [|rewrite E in Hrun; by apply run_finished in Hrun as [_ ?]..].
  injection Hwx as <-. rewrite E2 in Hrun.
  destruct evs as [|[| st reply|] evs]; try discriminate.
  cbn [of_result Login.run Login.next mbind option_bind] in Hrun.
  change (mk_request _ _ (Some wx_login_father)) with (after_wx NGX_HTTP_OK wx) in Hrun, E2.
  destruct (redis_post_spec st reply (after_wx NGX_HTTP_OK wx) _ eq_refl)
    as ((ctx & Hc & Hw) & Hh & Hok & _).
  apply (run_login_done _ ctx) in Hrun as (Hst & c3 & wx' & info' & -> & Hw' & Hi' & Hb); [|done..].
  apply Hok in Hst as [-> Hconf]. rewrite Hw in Hw'. injection Hw' as <-. simplify_eq.
  exists c1, c2, c3, json, bufs, wx, reply, p, info'. split_and!; try done.
  - cbn [take Login.run Login.next mbind option_bind]. by rewrite E1.
  - cbn [take Login.run Login.next mbind option_bind]. rewrite E1.
    cbn [of_result Login.run Login.next mbind option_bind].
    change (mk_request 0 _ None) with after_login. rewrite wx_post_spec.
    change (write_event _) with (Some wx_login_father). by rewrite E2.
Qed.

(** ** Termination *)

(** How many more events a request can see. *)
Definition rank (s : state) : nat :=
  match s with
  | reading_body _ => 5
  | in_subrequest _ _ _ wx_login_subrequest_post => 4
  | posted r => match write_event r with Some wx_login_father => 3 | _ => 1 end
  | in_subrequest _ _ _ wx_login_set_redis_post => 2
  | finished _ => 0
  end.

(** A request that is to run has a handler to run. *)
Definition runnable (s : state) : Prop :=
  match s with posted r => write_event r ≠ None | _ => True end.

Lemma handler_rank (c : calls) (r : request) (bufs : list bytes) :
  (rank (of_result (login_handler c bufs r)) <= 4)%nat
  ∧ (rank (of_result (father_handler c r)) <= 2)%nat ∧ rank (of_result (done_handler c r)) = 0%nat.
Proof.
  split_and!.
  - unfold ngx_http_customer_manager_login_handler. repeat case_match; cbn; lia.
  - unfold wx_login_subrequest_post_father_handler. repeat case_match; cbn; lia.
  - unfold login_done. by repeat case_match.
Qed.

Lemma of_result_runnable (res : result) : runnable (of_result res).
Proof. by destruct res. Qed.

Lemma next_rank (s s' : state) (ev : event) :
  next s ev = Some s' → runnable s → (rank s' < rank s)%nat ∧ runnable s'.
Proof.
  destruct s as [r|r uri args [|]|r|o], ev as [c bufs|st b|c]; cbn; try done.
  - intros [= <-] _. pose proof (handler_rank c r bufs). split; [lia|apply of_result_runnable].
  - intros [= <-] _. cbn. split; [lia|done].
  - intros [= <-] _. unfold wx_login_set_redis_subrequest_done. destruct (_ =? _); cbn; (split; [lia|done]).
  - pose proof (handler_rank c r []). destruct (write_event r) as [[|]|]; intros [= <-] _;
      (split; [lia|apply of_result_runnable]).
Qed.

Lemma run_rank (evs : list event) (s s' : state) :
  run s evs = Some s' → runnable s → (length evs + rank s' <= rank s)%nat ∧ runnable s'.
Proof.
  revert s. induction evs as [|ev evs IH]; intros s Hrun Hs; [injection Hrun as ->; by split|].
  cbn in Hrun. destruct (Login.next _ _ _ _ s ev) as [s1|] eqn:E; [|done].
  destruct (next_rank s s1 ev E Hs) as [Hr H1]. destruct (IH s1 Hrun H1). cbn. split; [lia|done].
Qed.

(** ** Errors *)

(** nginx hands over a body buffer and the pool has room for the arguments. *)
Definition event_ok (ev : event) : Prop :=
  match ev with
  | body_read c bufs => bufs ≠ [] ∧ c_args c = true
  | subrequest_done _ _ => True
  | write_ready c => c_args c = true
  end.

(** Why a request may end without an answer. *)
Definition excuse (evs : list event) (rc : Z) : Prop :=
  rc = NGX_HTTP_INTERNAL_SERVER_ERROR
  ∨ (∃ b, subrequest_done rc b ∈ evs ∧ rc ≠ NGX_HTTP_OK)
  ∨ (∃ c, write_ready c ∈ evs ∧ rc = c_send_header c ∧ header_stops c).

Definition good_end (evs : list event) (o : outcome) : Prop :=
  match o with
  | crashed => False
  | finalized rc => excuse evs rc
  | answered _ _ => True
  end.

Lemma failed_good (evs : list event) (o : outcome) : failed o → o ≠ crashed → good_end evs o.
Proof. intros [-> | ->]; [by left|done]. Qed.

(** What holds at each point of the flow. *)
Definition flow_ok (evs : list event) (s : state) : Prop :=
  match s with
  | reading_body r => r = fresh
  | in_subrequest r _ _ wx_login_subrequest_post => r = after_login
  | in_subrequest r _ _ wx_login_set_redis_post => ∃ ctx, r_ctx r = Some ctx ∧ is_Some (wx_response ctx)
  | posted r =>
      ∃ ctx, r_ctx r = Some ctx ∧ (status r = NGX_HTTP_OK → is_Some (wx_response ctx))
      ∧ (status r ≠ NGX_HTTP_OK → excuse evs (status r))
  | finished o => good_end evs o
  end.

Lemma excuse_mono (evs evs' : list event) (rc : Z) : evs ⊆ evs' → excuse evs rc → excuse evs' rc.
Proof. intros H [?|[(b & ? & ?)|(c & ? & ?)]]; [by left|right; left|right; right]; eauto. Qed.

Lemma next_flow_ok (evs : list event) (s s' : state) (ev : event) :
  next s ev = Some s' → event_ok ev → flow_ok evs s → flow_ok (evs ++ [ev]) s'.
Proof.
  assert (Hsub : evs ⊆ evs ++ [ev]) by set_solver.
  assert (Hin : ev ∈ evs ++ [ev]) by (clear Hsub; set_solver).
  destruct s as [r|r uri args [|]|r|o], ev as [c bufs|st b|c]; cbn [Login.next]; try done.
  - intros [= <-] [Hb Ha] ->. destruct (login_handler_spec c bufs) as [(? & ? & _ & _ & _ & ->)|(o & -> & Hf & Hc)]; [done|].
    apply failed_good; [done|]. intros Ho. destruct (Hc Ho); congruence.
  - intros [= <-] _ ->. rewrite wx_post_spec. eexists. split; [done|]. cbn [status after_wx].
    split; [intros ->; by eexists|]. intros Hst. right. left. eauto.
  - intros [= <-] _ (ctx & Hctx & Hw). destruct (redis_post_spec st b r ctx Hctx) as ((ctx' & Hc' & Hw') & _ & _ & He).
    exists ctx'. rewrite Hw'. split; [done|]. split; [done|]. intros Hst.
    destruct (He Hst) as [[-> Hne] | ->]; [right; left; eauto|by left].
  - destruct (write_event r) as [[|]|] eqn:Ew; try done; intros [= <-] Ha (ctx & Hctx & Hw & He);
      destruct r as [st ctx' w]; cbn in Hctx, Hw, He, Ha; subst ctx'.
    + destruct (father_handler_spec c st ctx w) as [(wx & info & -> & Hwx & _ & ->)|[(Hst & ->)|(Hst & o & -> & Hf & Hc)]].
      * exists ctx. split; [done|]. by rewrite Hwx.
      * cbn. by eapply excuse_mono, He.
      * apply failed_good; [done|]. intros Ho. destruct (Hw Hst) as [wx Hwx]. destruct (Hc Ho); congruence.
    + destruct (done_handler_spec c st ctx w) as [(wx & info & body & _ & _ & _ & _ & ->)|[(Hst & ->)|(Hst & o & -> & [[Hf Hc]|[-> Hh]])]].
      * done.
      * cbn. by eapply excuse_mono, He.
      * apply failed_good; [done|]. intros Ho. destruct (Hw Hst) as [wx Hwx]. rewrite (Hc Ho) in Hwx. done.
      * right. right. eauto.
Qed.

Lemma run_flow_ok (evs past : list event) (s s' : state) :
  run s evs = Some s' → Forall event_ok evs → flow_ok past s → flow_ok (past ++ evs) s'.
Proof.
  revert past s. induction evs as [|ev evs IH]; intros past s Hrun Hev Hs.
  { rewrite app_nil_r. by injection Hrun as ->. }
  cbn in Hrun. destruct (Login.next _ _ _ _ s ev) as [s1|] eqn:E; [|discriminate Hrun].
  inversion Hev; subst. rewrite cons_middle, app_assoc. eapply IH; eauto using next_flow_ok.
Qed.

End Flow.

(** ** The session in Redis *)

(** Characters that reach Redis unchanged through [$arg_name] and
    [set_unescape_uri]. *)
Definition plain_char (c : Z) : Prop := c ≠ "&"%ch ∧ c ≠ "%"%ch ∧ c ≠ "+"%ch.
Definition plain (s : bytes) : Prop := Forall plain_char s.

Lemma unescape_plain_string (s : bytes) (b : bool) :
  plain s → ngx_http_set_misc_unescape_uri true (mk_value b s) = Some s.
Proof.
  intros Hs. unfold ngx_http_set_misc_unescape_uri, ngx_unescape_uri_patched. cbn [v_data].
  replace (unescape_loop true NGX_UNESCAPE_URI_COMPONENT sw_usual s) with (s, @nil Z); [done|].
  change NGX_UNESCAPE_URI_COMPONENT with 0.
  induction Hs as [|c s (Ha & Hp & Hq) Hs IH]; [done|].
  by rewrite unescape_plain, <- IH.
Qed.

Lemma plain_no_amp (s : bytes) : plain s → Forall (.≠ "&"%ch) s.
Proof. intros H. eapply Forall_impl; [exact H|]. by intros c (? & _). Qed.

(** The arguments of the subrequest, taken apart at the ["&"]s. *)
Lemma segments_redis_args (cf : BackEnd.main_conf) (info : WXSessionInfo) :
  plain (openid info) → plain (session_key info) →
  plain (str (BackEnd.redis_pwd (BackEnd.redis_info cf))) →
  Arg.segments (redis_args cf info)
  = [bs "key=" ++ openid info; bs "value=" ++ session_key info;
     bs "pwd=" ++ str (BackEnd.redis_pwd (BackEnd.redis_info cf))].
Proof.
  intros Hk%plain_no_amp Hv%plain_no_amp Hp%plain_no_amp. unfold redis_args.
  assert (Hseg : ∀ l, Arg.segments ("&"%ch :: l) = [] :: Arg.segments l) by done.
  change (bs "&value=") with ("&"%ch :: bs "value="). change (bs "&pwd=") with ("&"%ch :: bs "pwd=").
  rewrite <- !app_comm_cons, (app_assoc (bs "key=")), Arg.segments_app, Hseg
    by (auto with ngx).
  rewrite (app_assoc (bs "value=")), Arg.segments_app, Hseg
    by (auto with ngx).
  rewrite <- (app_nil_r (bs "pwd=" ++ _)) at 1.
  rewrite Arg.segments_app by (auto with ngx).
  cbn [Arg.segments]. by rewrite !app_nil_r.
Qed.

Lemma seg_value_named (name v : bytes) : Arg.seg_value name (name ++ "="%ch :: v) = Some v.
Proof.
  unfold Arg.seg_value. rewrite decide_True.
  - by rewrite Arg.drop_name.
  - apply Arg.named_split. by exists name, v.
Qed.

Lemma seg_value_other (name seg : bytes) (c d : Z) :
  lower d ≠ lower c → Arg.seg_value (c :: name) (d :: seg) = None.
Proof.
  intros Hne. unfold Arg.seg_value. rewrite decide_False; [done|].
  intros [H _]. unfold ci_eq in H. cbn in H. by injection H.
Qed.

(** The queries that the location sends for the arguments of the subrequest. *)
Lemma redis_set_values (cf : BackEnd.main_conf) (info : WXSessionInfo) :
  plain (openid info) → plain (session_key info) →
  plain (str (BackEnd.redis_pwd (BackEnd.redis_info cf))) →
  Redis2.eval_queries (evaluate (redis_args cf info)) redis_set_queries
  = Some [[bs "auth"; str (BackEnd.redis_pwd (BackEnd.redis_info cf))];
          [bs "set"; openid info; session_key info]].
Proof.
  intros Hk Hv Hp. pose proof (segments_redis_args cf info Hk Hv Hp) as Hs.
  set (pwd := str (BackEnd.redis_pwd (BackEnd.redis_info cf))) in *.
  assert (Harg : ∀ name v, name ≠ [] → Forall (fun d => lower d ≠ 0) name → Forall (.≠ "&"%ch) name →
    Arg.arg_spec (redis_args cf info) name = Some v → plain v →
    evaluate (redis_args cf info) (unescaped_arg name) = Some v).
  { intros name v H1 H2 H3 Hv' Hpl. unfold evaluate, ngx_http_variable_argument.
    rewrite Arg.http_arg_segments, Hv' by done. by apply unescape_plain_string. }
  unfold Redis2.eval_queries, redis_set_queries, Redis2.eval_query.
  cbn [mapM Redis2.ngx_http_complex_value].
  rewrite (Harg (bs "pwd") pwd), (Harg (bs "key") (openid info)), (Harg (bs "value") (session_key info)).
  all: try done; try solve_forall done.
  all: unfold Arg.arg_spec; rewrite Hs.
  - change (head (omap (Arg.seg_value (bs "value")) [bs "k" ++ bs "ey=" ++ openid info;
      bs "value" ++ "="%ch :: session_key info; bs "pwd=" ++ pwd]) = Some (session_key info)).
    cbn [omap list_omap].
    rewrite (seg_value_other (bs "alue") (bs "ey=" ++ openid info) "v"%ch "k"%ch ltac:(done)
      : Arg.seg_value (bs "value") (bs "k" ++ _) = None), seg_value_named. done.
  - change (head (omap (Arg.seg_value (bs "key")) [bs "key" ++ "="%ch :: openid info;
      bs "value=" ++ session_key info; bs "pwd=" ++ pwd]) = Some (openid info)).
    cbn [omap list_omap]. by rewrite seg_value_named.
  - change (head (omap (Arg.seg_value (bs "pwd")) [bs "k" ++ bs "ey=" ++ openid info;
      bs "v" ++ bs "alue=" ++ session_key info; bs "pwd" ++ "="%ch :: pwd]) = Some pwd).
    cbn [omap list_omap].
    rewrite (seg_value_other (bs "wd") (bs "ey=" ++ openid info) "p"%ch "k"%ch ltac:(done)
      : Arg.seg_value (bs "pwd") (bs "k" ++ _) = None).
    rewrite (seg_value_other (bs "wd") (bs "alue=" ++ session_key info) "p"%ch "v"%ch ltac:(done)
      : Arg.seg_value (bs "pwd") (bs "v" ++ _) = None), seg_value_named. done.
Qed.

(** ** A login that goes well *)

Definition calls_ok (c : calls) : Prop :=
  c_psr c = true ∧ c_ctx c = true ∧ c_args c = true ∧ c_subrequest c = NGX_OK
  ∧ c_send_header c = NGX_OK ∧ c_header_only c = false ∧ c_buf c = true.

Section Completes.
Context (decode_LoginParam : bytes → option LoginParam).
Context (decode_WXSessionInfo : bytes → option WXSessionInfo).
Context (encode_LoginBackParam : LoginBackParam → option bytes).
Context (cf : BackEnd.main_conf).
Local Abbreviation run := (run decode_LoginParam decode_WXSessionInfo encode_LoginBackParam cf).

(** With nginx granting what the handlers ask for, none of them fails. *)
Lemma login_handler_ok c json bufs p :
  calls_ok c → json ≠ [] → decode_LoginParam json = Some p → code p ≠ [] →
  ngx_http_customer_manager_login_handler decode_LoginParam cf c (json :: bufs) fresh
  = waiting after_login (bs "/wxMiniBuyPhone/login") (wx_args cf p) wx_login_subrequest_post.
Proof.
  intros (H1 & H2 & H3 & H4 & _) Hj Hp Hc.
  destruct (login_handler_spec decode_LoginParam cf c (json :: bufs)) as
    [(json' & p' & Hj' & Hp' & _ & ->)|(o & E & _)].
  { injection Hj' as <-. by simplify_eq. }
  unfold ngx_http_customer_manager_login_handler in E. exfalso. revert E.
  replace (length json =? 0)%nat with false by (by destruct json). rewrite Hp.
  replace (length (code p) =? 0)%nat with false by (by destruct (code p)).
  rewrite H1, H3, H4. cbn [negb r_ctx fresh]. by rewrite H2.
Qed.

Lemma father_handler_ok c wx info :
  calls_ok c → decode_WXSessionInfo wx = Some info →
  wx_login_subrequest_post_father_handler decode_WXSessionInfo cf c (after_wx NGX_HTTP_OK wx)
  = waiting (after_wx NGX_HTTP_OK wx) (bs "/redis_set") (redis_args cf info) wx_login_set_redis_post.
Proof.
  intros (H1 & H2 & H3 & H4 & _) Hi.
  destruct (father_handler_spec decode_WXSessionInfo cf c NGX_HTTP_OK (mk_login_ctx (Some wx) None)
    (Some wx_login_father)) as [(wx' & info' & _ & Hwx & Hi' & E)|[(? & _)|(_ & o & E & _)]]; [|done|].
  { injection Hwx as <-. simplify_eq. exact E. }
  unfold wx_login_subrequest_post_father_handler in E. exfalso. revert E.
  cbn [status r_ctx mbind option_bind wx_response]. rewrite H1, Hi, H3, H4. done.
Qed.

Lemma done_handler_ok c wx info body :
  calls_ok c → decode_WXSessionInfo wx = Some info →
  encode_LoginBackParam (mk_back 0 (openid info) (openid info)) = Some body →
  login_done decode_WXSessionInfo encode_LoginBackParam c
    (wx_login_set_redis_subrequest_done NGX_HTTP_OK redis_ok_str2 (after_wx NGX_HTTP_OK wx))
  = ended (answered body (c_output c)).
Proof.
  intros (_ & _ & _ & _ & H5 & H6 & H7) Hi Hb. unfold login_done.
  change (status _) with 200. change (r_ctx _ ≫= wx_response) with (Some wx). cbn [negb Z.eqb Pos.eqb].
  change (200 =? Redis2.NGX_HTTP_OK) with true. cbn [negb].
  rewrite Hi, Hb, H5, H6, H7. done.
Qed.

End Completes.

(** ** The properties of the flow *)

(** C2. A JSON answer is sent only when everything before went well: the body
    decoded to a non-empty code; the code, the application id and its secret were
    the arguments of the subrequest to WeChat, which was answered with 200 and a
    session; the openid and the session key of that session with the password of
    Redis were the arguments of the subrequest to /redis_set, which was answered
    with 200 and two confirmations. The answer encodes the openid of that session. *)
Theorem login_answer_safe decode_LoginParam decode_WXSessionInfo encode_LoginBackParam cf
    (evs : list event) (body : bytes) (rc : Z) :
  run decode_LoginParam decode_WXSessionInfo encode_LoginBackParam cf (reading_body fresh) evs
  = Some (finished (answered body rc)) →
  login_trace decode_LoginParam decode_WXSessionInfo encode_LoginBackParam cf evs body.
Proof. apply answered_trace. Qed.

(** C4. The flow ends: whatever the subrequests and the nginx functions return, a
    request sees at most five events, and as long as it is not finished the event it
    waits for has a handler. *)
Theorem login_terminates decode_LoginParam decode_WXSessionInfo encode_LoginBackParam cf
    (evs : list event) (s : state) :
  run decode_LoginParam decode_WXSessionInfo encode_LoginBackParam cf (reading_body fresh) evs = Some s →
  let next := next decode_LoginParam decode_WXSessionInfo encode_LoginBackParam cf in
  (length evs <= 5)%nat ∧ (length evs = 5%nat → ∃ o, s = finished o)
  ∧ match s with
    | reading_body _ => ∀ c bufs, is_Some (next s (body_read c bufs))
    | in_subrequest _ _ _ _ => ∀ st b, is_Some (next s (subrequest_done st b))
    | posted _ => ∀ c, is_Some (next s (write_ready c))
    | finished _ => True
    end.
Proof.
  intros Hrun next. destruct (run_rank _ _ _ _ _ _ _ Hrun I) as [Hr Hs].
  change (rank (reading_body fresh)) with 5%nat in Hr. split; [lia|]. split.
  { intros H5. destruct s as [r|r uri args [|]|r|o]; cbn in Hr; try lia; [|by eexists].
    destruct (write_event r) as [[|]|]; lia. }
  destruct s as [r|r uri args [|]|r|o]; try done; intros; try (by eexists).
  unfold next, Login.next. cbn in Hs. destruct (write_event r) as [[|]|]; [by eexists..|done].
Qed.

(** C3. Errors are reported and nothing else is: provided that the body has a buffer
    and the pool has room for the arguments of the subrequests, no NULL pointer is
    followed, and a request that ends without an answer ends with the code 500, with
    the status of a subrequest that was not answered with 200, or with what
    [ngx_http_send_header] returned. *)
Theorem login_errors decode_LoginParam decode_WXSessionInfo encode_LoginBackParam cf
    (evs : list event) (o : outcome) :
  Forall event_ok evs →
  run decode_LoginParam decode_WXSessionInfo encode_LoginBackParam cf (reading_body fresh) evs
  = Some (finished o) →
  match o with
  | crashed => False
  | finalized rc =>
      rc = NGX_HTTP_INTERNAL_SERVER_ERROR
      ∨ (∃ b, subrequest_done rc b ∈ evs ∧ rc ≠ NGX_HTTP_OK)
      ∨ (∃ c, write_ready c ∈ evs ∧ rc = c_send_header c ∧ header_stops c)
  | answered _ _ => True
  end.
Proof.
  intros Hev Hrun.
  exact (run_flow_ok _ _ _ _ evs [] (reading_body fresh) (finished o) Hrun Hev eq_refl).
Qed.

(** C1. A login completes, from the request to Redis and back, when the allocations
    and calls of nginx succeed. A POST whose body decodes to a code is turned into
    the subrequest to WeChat; when that is answered with a session, and the openid,
    the key and the configured password of Redis have no "&", "%" or "+" in them,
    the /redis_set location sends Redis exactly AUTH with the password and SET of
    the key under the openid; and when Redis confirms both, in whatever segments,
    the redis2 module completes the subrequest with the bytes that the login handler
    accepts, and the client gets the JSON answer. The commands fit into 2^63 bytes
    and the answer can be encoded. *)
Theorem login_completes decode_LoginParam decode_WXSessionInfo encode_LoginBackParam cf
    (c1 c2 c3 : calls) (json : bytes) (bufs : list bytes) (p : LoginParam) (wx : bytes)
    (info : WXSessionInfo) (body : bytes) (a : Redis2.allocs) (segs : list bytes) :
  let run := run decode_LoginParam decode_WXSessionInfo encode_LoginBackParam cf (reading_body fresh) in
  let pwd := str (BackEnd.redis_pwd (BackEnd.redis_info cf)) in
  let cmds := [[bs "auth"; pwd]; [bs "set"; openid info; session_key info]] in
  calls_ok c1 → calls_ok c2 → calls_ok c3 → Redis2.allocs_ok a →
  json ≠ [] → decode_LoginParam json = Some p → code p ≠ [] →
  decode_WXSessionInfo wx = Some info →
  encode_LoginBackParam (mk_back 0 (openid info) (openid info)) = Some body →
  plain (openid info) → plain (session_key info) → plain pwd →
  Redis2.small (Redis2.encode_commands cmds) →
  Forall (.≠ []) segs → concat segs = redis_ok_str2 →
  run [body_read c1 (json :: bufs)]
  = Some (in_subrequest after_login (bs "/wxMiniBuyPhone/login") (wx_args cf p) wx_login_subrequest_post)
  ∧ run [body_read c1 (json :: bufs); subrequest_done NGX_HTTP_OK wx; write_ready c2]
    = Some (in_subrequest (after_wx NGX_HTTP_OK wx) (bs "/redis_set") (redis_args cf info)
              wx_login_set_redis_post)
  ∧ (∃ x out y e,
       Redis2.ngx_http_redis2_create_request (evaluate (redis_args cf info)) a redis_set_location
         (Redis2Reply.ctx_init 0) = (NGX_OK, x, Some out)
       ∧ Redis2.decode_many Redis2.decode_command 2 out = Some (cmds, [])
       ∧ Redis2Reply.feed x segs [] = Some (NGX_OK, y, redis_ok_str2, e)
       ∧ Redis2Reply.e_complete e = true)
  ∧ run [body_read c1 (json :: bufs); subrequest_done NGX_HTTP_OK wx; write_ready c2;
         subrequest_done NGX_HTTP_OK redis_ok_str2; write_ready c3]
    = Some (finished (answered body (c_output c3))).
Proof.
  intros run pwd cmds Hc1 Hc2 Hc3 Ha Hj Hp Hcode Hi Hb Hk Hv Hpwd Hsmall Hsegs Hcat.
  pose proof (login_handler_ok decode_LoginParam cf c1 json bufs p Hc1 Hj Hp Hcode) as E1.
  pose proof (father_handler_ok decode_WXSessionInfo cf c2 wx info Hc2 Hi) as E2.
  pose proof (done_handler_ok decode_WXSessionInfo encode_LoginBackParam c3 wx info body Hc3 Hi Hb) as E3.
  assert (R1 : run [body_read c1 (json :: bufs)] = Some (in_subrequest after_login
    (bs "/wxMiniBuyPhone/login") (wx_args cf p) wx_login_subrequest_post)).
  { unfold run. cbn [Login.run next mbind option_bind]. by rewrite E1. }
  assert (R2 : run [body_read c1 (json :: bufs); subrequest_done NGX_HTTP_OK wx; write_ready c2]
    = Some (in_subrequest (after_wx NGX_HTTP_OK wx) (bs "/redis_set") (redis_args cf info)
              wx_login_set_redis_post)).
  { change (_ :: _ :: _) with ([body_read c1 (json :: bufs)] ++ [subrequest_done NGX_HTTP_OK wx; write_ready c2]).
    unfold run in *. rewrite run_app, R1. cbn [Login.run next mbind option_bind].
    rewrite wx_post_spec. cbn [after_wx write_event]. by rewrite E2. }
  split; [exact R1|]. split; [exact R2|]. split.
  - assert (Hok : Redis2Reply.reply_ok Redis2.ok_reply).
    { split; [done|]. split; [solve_bytes|]. intros [|? [|? [|? l]]] b; try done; by destruct l. }
    destruct (Redis2.pipeline_exchange (evaluate (redis_args cf info)) a redis_set_location
      redis_set_queries cmds [Redis2.ok_reply; Redis2.ok_reply] segs) as (x & out & y & e & H1 & H2 & _ & H4 & _ & H5 & _);
      try done; [by apply redis_set_values|by apply Forall_cons; split; [|apply Forall_singleton]|].
    exists x, out, y, e. split_and!; done.
  - change [body_read c1 (json :: bufs); _; _; _; _] with
      ([body_read c1 (json :: bufs); subrequest_done NGX_HTTP_OK wx; write_ready c2]
       ++ [subrequest_done NGX_HTTP_OK redis_ok_str2; write_ready c3]).
    unfold run in *. rewrite run_app, R2. cbn [Login.run next mbind option_bind].
    change (write_event _) with (Some login_done_handler). by rewrite E3.
Qed.

(** ** Examples *)

(** Stand-ins for the JSON functions: the body is the code, and WeChat answers with
    the openid, a space and the session key. *)
Definition example_param (json : bytes) : option LoginParam := Some (mk_param json).
Definition example_session (wx : bytes) : option WXSessionInfo :=
  match wx with
  | [k; " "%ch; o] => Some (mk_session [o] [k] [] 0)
  | _ => None
  end.
Definition example_back (b : LoginBackParam) : option bytes := Some (back_openid b).
Definition example_cf : BackEnd.main_conf := BackEnd.described BackEnd.example_directives.
Definition example_calls : calls := mk_calls true true true NGX_OK NGX_OK false true NGX_OK.
Definition example_events : list event :=
  [body_read example_calls [bs "code"]; subrequest_done NGX_HTTP_OK (bs "u k");
   write_ready example_calls; subrequest_done NGX_HTTP_OK redis_ok_str2; write_ready example_calls].

Lemma login_answer_safe_witness :
  login_trace example_param example_session example_back example_cf example_events (bs "u").
Proof.
  apply (login_answer_safe example_param example_session example_back example_cf example_events
    (bs "u") NGX_OK).
  reflexivity.
Defined.

Lemma login_terminates_witness :
  let next := next example_param example_session example_back example_cf in
  (length (take 2 example_events) <= 5)%nat
  ∧ (length (take 2 example_events) = 5%nat → ∃ o, posted (after_wx NGX_HTTP_OK (bs "u k")) = finished o)
  ∧ ∀ c, is_Some (next (posted (after_wx NGX_HTTP_OK (bs "u k"))) (write_ready c)).
Proof.
  apply (login_terminates example_param example_session example_back example_cf
    (take 2 example_events) (posted (after_wx NGX_HTTP_OK (bs "u k")))).
  reflexivity.
Defined.

Lemma login_errors_witness :
  502 = NGX_HTTP_INTERNAL_SERVER_ERROR
  ∨ (∃ b, subrequest_done 502 b ∈ [body_read example_calls [bs "code"]; subrequest_done 502 [];
                                     write_ready example_calls] ∧ 502 ≠ NGX_HTTP_OK)
  ∨ (∃ c, write_ready c ∈ [body_read example_calls [bs "code"]; subrequest_done 502 [];
                           write_ready example_calls] ∧ 502 = c_send_header c ∧ header_stops c).
Proof.
  apply (login_errors example_param example_session example_back example_cf
    [body_read example_calls [bs "code"]; subrequest_done 502 []; write_ready example_calls]
    (finalized 502)).
  - repeat constructor; discriminate.
  - reflexivity.
Defined.

Lemma login_completes_witness :
  let run := run example_param example_session example_back example_cf (reading_body fresh) in
  let cmds := [[bs "auth"; bs "123456"]; [bs "set"; bs "u"; bs "k"]] in
  let info := mk_session (bs "k") (bs "u") [] 0 in
  run [body_read example_calls [bs "code"]]
  = Some (in_subrequest after_login (bs "/wxMiniBuyPhone/login")
            (wx_args example_cf (mk_param (bs "code"))) wx_login_subrequest_post)
  ∧ run [body_read example_calls [bs "code"]; subrequest_done NGX_HTTP_OK (bs "u k");
         write_ready example_calls]
    = Some (in_subrequest (after_wx NGX_HTTP_OK (bs "u k")) (bs "/redis_set")
              (redis_args example_cf info) wx_login_set_redis_post)
  ∧ (∃ x out y e,
       Redis2.ngx_http_redis2_create_request (evaluate (redis_args example_cf info))
         (Redis2.mk_allocs true true true) redis_set_location (Redis2Reply.ctx_init 0)
       = (NGX_OK, x, Some out)
       ∧ Redis2.decode_many Redis2.decode_command 2 out = Some (cmds, [])
       ∧ Redis2Reply.feed x [redis_ok_str2] [] = Some (NGX_OK, y, redis_ok_str2, e)
       ∧ Redis2Reply.e_complete e = true)
  ∧ run [body_read example_calls [bs "code"]; subrequest_done NGX_HTTP_OK (bs "u k");
         write_ready example_calls; subrequest_done NGX_HTTP_OK redis_ok_str2;
         write_ready example_calls]
    = Some (finished (answered (bs "u") NGX_OK)).
Proof.
  apply (login_completes example_param example_session example_back example_cf example_calls
    example_calls example_calls (bs "code") [] (mk_param (bs "code")) (bs "u k")
    (mk_session (bs "k") (bs "u") [] 0) (bs "u") (Redis2.mk_allocs true true true) [redis_ok_str2]).
  1-3: by split_and!.
  - by split_and!.
  - discriminate.
  - reflexivity.
  - discriminate.
  - reflexivity.
  - reflexivity.
  - solve_forall ltac:(unfold plain_char; lia).
  - solve_forall ltac:(unfold plain_char; lia).
  - change (plain (bs "123456")). solve_forall ltac:(unfold plain_char; lia).
  - reflexivity.
  - apply Forall_singleton. discriminate.
  - reflexivity.
Defined.

(** ** What the flow gets wrong *)

(** The strings are put into the arguments as they are.  A session key is base64 and
    may contain ["+"], which [set_unescape_uri] turns into a space: Redis stores
    another key. *)
Lemma session_key_plus :
  Redis2.eval_queries (evaluate (redis_args example_cf (mk_session (bs "a+b") (bs "u") [] 0)))
    redis_set_queries
  = Some [[bs "auth"; bs "123456"]; [bs "set"; bs "u"; bs "a b"]].
Proof. vm_compute. reflexivity. Qed.

(** A code with ["&"] adds arguments to the request to WeChat. *)
Lemma code_injects :
  ngx_http_arg (wx_args example_cf (mk_param (bs "x&scope=y"))) (bs "scope") = Some (Some (bs "y")).
Proof. vm_compute. reflexivity. Qed.

(** A POST without a body has no buffer: the handler follows a NULL pointer. *)
Lemma no_body_crashes decode_LoginParam cf (c : calls) :
  ngx_http_customer_manager_login_handler decode_LoginParam cf c [] fresh = ended crashed.
Proof. reflexivity. Qed.

End Login.
