(* ===== verification/RoundRobin.v ===== *)
(** * Weighted round robin over upstream servers

    src/nginx-master/src/http/ngx_http_upstream_round_robin.c: how a request gets a
    server of an upstream group (such as [redis_server] of the back end) and gives it
    back.  The peers of a group are a list; a pointer to a
    peer is its position.  The bitmap [tried] is kept as words of 64 bits.  The locks
    of groups in shared memory and the TLS sessions are left out.

    Weights are integers without bound here; the invariant shows that after [k]
    selections every [current_weight] is within [k] times the sum of the weights. *)

From S2P Require Import Prelude NgxNumber.

Open Scope Z_scope.

Module RoundRobin.

Definition NGX_BUSY : Z := -3.

(** ** State *)

(** [ngx_http_upstream_rr_peer_t].  The integers are unbounded: after [k] selections in a group
    of total weight [W] no current weight is beyond [k * W] (theorem rr_wellformed), so that an
    [ngx_int_t] holds them while [k * W] is below 2^63. *)
Record peer := mk_peer {
  name : bytes;
  current_weight : Z;
  effective_weight : Z;
  weight : Z;
  conns : Z;
  max_conns : Z;
  fails : Z;
  accessed : Z;
  checked : Z;
  max_fails : Z;
  fail_timeout : Z;
  down : bool
}.

(** [ngx_http_upstream_rr_peers_t] without [next]. *)
Record peers := mk_peers {
  number : nat;
  total_weight : Z;
  single : bool;
  weighted : bool;
  peer_list : list peer
}.

(** A group with its backup servers, [peers->next]. *)
Record upstream := mk_upstream { primary : peers; backup : option peers }.

(** [ngx_http_upstream_rr_peer_data_t] and [pc->tries]: whether [rrp->peers] is the
    backup group; [rrp->current], a position in the backup group or in the primary one;
    [rrp->tried]. *)
Record rrp := mk_rrp { on_backup : bool; current : option (bool * nat); tried : list Z; tries : Z }.

(** ** Creation *)

(** [ngx_http_upstream_server_t] *)
Record server := mk_server {
  addrs : list bytes;
  s_weight : Z;
  s_max_conns : Z;
  s_max_fails : Z;
  s_fail_timeout : Z;
  s_down : bool;
  s_backup : bool
}.

Definition make_peer (s : server) (addr : bytes) : peer :=
  mk_peer addr 0 (s_weight s) (s_weight s) 0 (s_max_conns s) 0 0 0 (s_max_fails s)
    (s_fail_timeout s) (s_down s).

(** The peers of the servers that are, or are not, backup servers. *)
Definition make_peers (backup : bool) (servers : list server) : list peer :=
  concat (map (fun s => if bool_decide (s_backup s = backup) then map (make_peer s) (addrs s) else [])
            servers).

Definition make_group (single : bool) (ps : list peer) : peers :=
  let n := length ps in
  let w := foldr (fun p acc => weight p + acc) 0 ps in
  mk_peers n w single (negb (w =? Z.of_nat n)) ps.

(** [ngx_http_upstream_srv_conf_t]: an upstream block, or an upstream implicitly
    defined by a [redis2_pass] with a host and a port. *)
Inductive upstream_conf :=
  | Block (servers : list server)
  | Implicit (host : bytes) (port : Z).

(** The peer of an address of an implicitly defined upstream. *)
Definition implicit_peer (addr : bytes) : peer := mk_peer addr 0 1 1 0 0 0 0 0 1 10 false.

(** [None] is [NGX_ERROR].  [alloc] tells whether the allocations succeed; [resolve] is
    [ngx_inet_resolve_host], [None] when the host has no address. *)
Definition ngx_http_upstream_init_round_robin (alloc : bool)
    (resolve : bytes → Z → option (list bytes)) (us : upstream_conf) : option upstream :=
  match us with
  | Block servers =>
      let ps := make_peers false servers in
      let bs := make_peers true servers in
      if (length ps =? 0)%nat then None
      else if negb alloc then None
      else if (length bs =? 0)%nat
      then Some (mk_upstream (make_group (length ps =? 1)%nat ps) None)
      else Some (mk_upstream (make_group false ps) (Some (make_group false bs)))
  | Implicit host port =>
      if port =? 0 then None
      else
        addrs ← resolve host port;
        let n := length addrs in
        if negb alloc then None
        else Some (mk_upstream (mk_peers n (Z.of_nat n) (n =? 1)%nat false (map implicit_peer addrs)) None)
  end.

(** 8 * sizeof(uintptr_t) *)
Definition word_bits : nat := 64.

Definition words (n : nat) : nat := (n + (word_bits - 1)) / word_bits.

Definition ngx_http_upstream_init_round_robin_peer (alloc : bool) (up : upstream) : option rrp :=
  let n := match backup up with
           | Some b => if (number (primary up) <? number b)%nat then number b else number (primary up)
           | None => number (primary up)
           end in
  let t := Z.of_nat (number (primary up) + match backup up with Some b => number b | None => 0 end) in
  if (n <=? word_bits)%nat then Some (mk_rrp false None [0] t)
  else if negb alloc then None
  else Some (mk_rrp false None (replicate (words n) 0) t).

(** ** Selection *)

Definition bit_of (i : nat) : Z := Z.shiftl 1 (Z.of_nat (i mod word_bits)).

Definition tried_bit (tried : list Z) (i : nat) : bool :=
  negb (Z.land (tried !!! (i / word_bits)%nat) (bit_of i) =? 0).

Definition set_tried (tried : list Z) (i : nat) : list Z :=
  <[(i / word_bits)%nat := Z.lor (tried !!! (i / word_bits)%nat) (bit_of i)]> tried.

(** The four [continue]s of the loop. *)
Definition eligible (now : Z) (tried : list Z) (i : nat) (p : peer) : bool :=
  if tried_bit tried i then false
  else if down p then false
  else if negb (max_fails p =? 0) && (fails p >=? max_fails p)
          && (now - checked p <=? fail_timeout p) then false
  else if negb (max_conns p =? 0) && (conns p >=? max_conns p) then false
  else true.

Definition set_weights (c e : Z) (p : peer) : peer :=
  mk_peer (name p) c e (weight p) (conns p) (max_conns p) (fails p) (accessed p) (checked p)
    (max_fails p) (fail_timeout p) (down p).

(** [peer->current_weight += peer->effective_weight], then the effective weight
    recovers. *)
Definition bump (p : peer) : peer :=
  set_weights (current_weight p + effective_weight p)
    (if effective_weight p <? weight p then effective_weight p + 1 else effective_weight p) p.

(** The loop over the peers; [best] is the position and the weight of the best peer
    so far. *)
Fixpoint scan (now : Z) (tried : list Z) (i : nat) (ps : list peer) (total : Z)
    (best : option (nat * Z)) : list peer * Z * option (nat * Z) :=
  match ps with
  | [] => ([], total, best)
  | p :: ps =>
      if negb (eligible now tried i p) then
        let '(ps, total, best) := scan now tried (S i) ps total best in (p :: ps, total, best)
      else
        let total := total + effective_weight p in
        let p := bump p in
        let best :=
          match best with
          | None => Some (i, current_weight p)
          | Some (_, w) => if current_weight p >? w then Some (i, current_weight p) else best
          end in
        let '(ps, total, best) := scan now tried (S i) ps total best in (p :: ps, total, best)
  end.

(** What happens to the best peer. *)
Definition choose (now total : Z) (p : peer) : peer :=
  let p := set_weights (current_weight p - total) (effective_weight p) p in
  if now - checked p >? fail_timeout p
  then mk_peer (name p) (current_weight p) (effective_weight p) (weight p) (conns p) (max_conns p)
         (fails p) (accessed p) now (max_fails p) (fail_timeout p) (down p)
  else p.

Definition ngx_http_upstream_get_peer (now : Z) (tried : list Z) (ps : list peer)
    : option (nat * list peer * list Z) :=
  match scan now tried 0 ps 0 None with
  | (ps, total, Some (p, _)) => Some (p, alter (choose now total) p ps, set_tried tried p)
  | (_, _, None) => None
  end.

Definition set_conns (n : Z) (p : peer) : peer :=
  mk_peer (name p) (current_weight p) (effective_weight p) (weight p) n (max_conns p) (fails p)
    (accessed p) (checked p) (max_fails p) (fail_timeout p) (down p).

Definition set_list (ps : list peer) (g : peers) : peers :=
  mk_peers (number g) (total_weight g) (single g) (weighted g) ps.

(** One group: the position of the peer, the group and the bitmap; [None] is
    [goto failed]. *)
Definition get_from (now : Z) (tried : list Z) (g : peers) : option (nat * peers * list Z) :=
  let chosen :=
    if single g then
      match peer_list g with
      | [] => None
      | p :: _ =>
          if down p then None
          else if negb (max_conns p =? 0) && (conns p >=? max_conns p) then None
          else Some (0%nat, peer_list g, tried)
      end
    else ngx_http_upstream_get_peer now tried (peer_list g) in
  match chosen with
  | None => None
  | Some (i, ps, tried) =>
      Some (i, set_list (alter (fun p => set_conns (conns p + 1) p) i ps) g, tried)
  end.

(** The backup group has no [next]. *)
Definition ngx_http_upstream_get_round_robin_peer (now : Z) (up : upstream) (r : rrp)
    : Z * upstream * rrp :=
  let from_backup b r :=
    match get_from now (tried r) b with
    | Some (i, b, t) =>
        (NGX_OK, mk_upstream (primary up) (Some b), mk_rrp true (Some (true, i)) t (tries r))
    | None => (NGX_BUSY, up, r)
    end in
  if on_backup r then
    match backup up with
    | Some b => from_backup b r
    | None => (NGX_BUSY, up, r)
    end
  else
    match get_from now (tried r) (primary up) with
    | Some (i, g, t) => (NGX_OK, mk_upstream g (backup up), mk_rrp false (Some (false, i)) t (tries r))
    | None =>
        match backup up with
        | Some b =>
            let n := words (number b) in
            from_backup b (mk_rrp true (current r) (replicate n 0 ++ drop n (tried r)) (tries r))
        | None => (NGX_BUSY, up, r)
        end
    end.

(** ** Giving a peer back *)

Definition mark_failed (now : Z) (p : peer) : peer :=
  let e := if max_fails p =? 0 then effective_weight p
           else effective_weight p - weight p / max_fails p in
  mk_peer (name p) (current_weight p) (if e <? 0 then 0 else e) (weight p) (conns p) (max_conns p)
    (fails p + 1) now now (max_fails p) (fail_timeout p) (down p).

Definition mark_live (p : peer) : peer :=
  if accessed p <? checked p
  then mk_peer (name p) (current_weight p) (effective_weight p) (weight p) (conns p) (max_conns p)
         0 (accessed p) (checked p) (max_fails p) (fail_timeout p) (down p)
  else p.

(** The group of the peer; [failed] is [state & NGX_PEER_FAILED], [single] that of
    [rrp->peers]. *)
Definition free_in (now : Z) (failed single : bool) (i : nat) (g : peers) : peers :=
  let release p := set_conns (conns p - 1) p in
  if single then set_list (alter release i (peer_list g)) g
  else
    set_list (alter (fun p => release (if failed then mark_failed now p else mark_live p)) i
                (peer_list g)) g.

(** [None]: there is no current peer, a pointer that is NULL would be followed. *)
Definition ngx_http_upstream_free_round_robin_peer (now : Z) (failed : bool) (up : upstream) (r : rrp)
    : option (upstream * rrp) :=
  cur ← current r;
  let '(b, i) := (cur : bool * nat) in
  g ← (if on_backup r then backup up else Some (primary up));
  h ← (if b then backup up else Some (primary up));
  let tries := if single g then 0 else if negb (tries r =? 0) then tries r - 1 else tries r in
  let h := free_in now failed (single g) i h in
  Some (if b then mk_upstream (primary up) (Some h) else mk_upstream h (backup up),
        mk_rrp (on_backup r) (current r) (tried r) tries).

(** * Theorems *)

(** ** Sums over the peers *)

Definition sum (f : peer → Z) (ps : list peer) : Z := foldr (fun p acc => f p + acc) 0 ps.

Lemma sum_cons (f : peer → Z) (p : peer) (ps : list peer) : sum f (p :: ps) = f p + sum f ps.
Proof. done. Qed.

Lemma sum_alter (f : peer → Z) (g : peer → peer) (ps : list peer) (i : nat) (p : peer) :
  ps !! i = Some p → sum f (alter g i ps) = sum f ps - f p + f (g p).
Proof.
  revert i. induction ps as [|q ps IH]; intros [|i] H; try discriminate H.
  - injection H as ->. change (alter g 0%nat (p :: ps)) with (g p :: ps). rewrite !sum_cons. lia.
  - change (alter g (S i) (q :: ps)) with (q :: alter g i ps). rewrite !sum_cons, (IH i H). lia.
Qed.

Lemma sum_app (f : peer → Z) (a b : list peer) : sum f (a ++ b) = sum f a + sum f b.
Proof. induction a as [|p a IH]; [done|]. rewrite <- app_comm_cons, !sum_cons, IH. lia. Qed.

Lemma sum_ext (f g : peer → Z) (ps : list peer) :
  Forall (fun p => f p = g p) ps → sum f ps = sum g ps.
Proof. induction 1 as [|p ps Hp _ IH]; [done|]. by rewrite !sum_cons, Hp, IH. Qed.

Lemma sum_weights (a b : list peer) : map weight a = map weight b → sum weight a = sum weight b.
Proof.
  revert b. induction a as [|p a IH]; intros [|q b] H; try done. cbn [map] in H. injection H as Hp Hs.
  by rewrite !sum_cons, Hp, (IH b Hs).
Qed.

Lemma sum_nonneg_zero (f : peer → Z) (ps : list peer) (p : peer) :
  Forall (fun p => 0 <= f p) ps → sum f ps = 0 → p ∈ ps → f p = 0.
Proof.
  intros H. assert (Hs : ∀ l, Forall (fun p => 0 <= f p) l → 0 <= sum f l).
  { induction 1; [done|]. rewrite sum_cons. lia. }
  induction H as [|q ps Hq Hps IH]; intros H0 Hin; [by apply elem_of_nil in Hin|].
  rewrite sum_cons in H0. specialize (Hs ps Hps).
  apply elem_of_cons in Hin as [->|Hin]; [lia|]. apply IH; [lia|done].
Qed.

(** ** The loop *)

Section Scan.
Context (now : Z) (tried : list Z).

Definition visit (i : nat) (p : peer) : peer := if eligible now tried i p then bump p else p.

(** What an eligible peer adds to [total]. *)
Definition share (i : nat) (p : peer) : Z := if eligible now tried i p then effective_weight p else 0.

Fixpoint shares (i : nat) (ps : list peer) : Z :=
  match ps with [] => 0 | p :: ps => share i p + shares (S i) ps end.

(** [best] is at least as good as every eligible peer of [ps], and is one of them or
    the best before. *)
Definition best_of (i : nat) (ps : list peer) (best r : option (nat * Z)) : Prop :=
  (∀ j w, best = Some (j, w) → ∃ j' w', r = Some (j', w') ∧ w <= w')
  ∧ (∀ k p, ps !! k = Some p → eligible now tried (i + k) p = true →
       ∃ j w, r = Some (j, w) ∧ current_weight (bump p) <= w)
  ∧ (∀ j w, r = Some (j, w) → best = Some (j, w)
       ∨ ∃ k p, j = (i + k)%nat ∧ ps !! k = Some p ∧ eligible now tried j p = true
                ∧ w = current_weight (bump p)).

Lemma best_of_skip i p ps best r :
  eligible now tried i p = false → best_of (S i) ps best r → best_of i (p :: ps) best r.
Proof.
  intros He (H1 & H2 & H3). split_and!; [done| |].
  - intros [|k] q Hq Hel; cbn in Hq; [rewrite Nat.add_0_r in Hel; congruence|].
    apply (H2 k); [done|]. by rewrite Nat.add_succ_comm.
  - intros j w Hr. destruct (H3 j w Hr) as [?|(k & q & -> & ? & ? & ?)]; [by left|right].
    exists (S k), q. split_and!; try done. lia.
Qed.

Lemma best_of_take i p ps best r :
  eligible now tried i p = true →
  let best' := match best with
    | None => Some (i, current_weight (bump p))
    | Some (_, w) => if current_weight (bump p) >? w then Some (i, current_weight (bump p)) else best
    end in
  best_of (S i) ps best' r → best_of i (p :: ps) best r.
Proof.
  intros He best' (H1 & H2 & H3).
  assert (Hb : ∃ j w, best' = Some (j, w) ∧ current_weight (bump p) <= w
    ∧ (∀ j0 w0, best = Some (j0, w0) → w0 <= w)
    ∧ (best = Some (j, w) ∨ j = i ∧ w = current_weight (bump p))).
  { unfold best'. destruct best as [[j w]|].
    - destruct (Z.gtb_spec (current_weight (bump p)) w).
      + eexists _, _. split_and!; [done|lia| |by right]. intros ? ? [= -> ->]. lia.
      + eexists _, _. split_and!; [done|lia| |by left]. intros ? ? [= -> ->]. lia.
    - eexists _, _. split_and!; [done|lia|done|by right]. }
  destruct Hb as (j & w & Hb & Hw & Hold & Hfrom). destruct (H1 j w Hb) as (j' & w' & Hr & Hle).
  split_and!.
  - intros j0 w0 Hj0. specialize (Hold _ _ Hj0). exists j', w'. split; [done|lia].
  - intros [|k] q Hq Hel; cbn in Hq.
    + injection Hq as ->. exists j', w'. split; [done|lia].
    + apply (H2 k); [done|]. by rewrite Nat.add_succ_comm.
  - intros j0 w0 Hr0. destruct (H3 j0 w0 Hr0) as [Hb0|(k & q & -> & ? & ? & ?)].
    + rewrite Hb in Hb0. injection Hb0 as -> ->. destruct Hfrom as [?|[-> ->]]; [by left|right].
      exists 0%nat, p. rewrite Nat.add_0_r. done.
    + right. exists (S k), q. split_and!; try done. lia.
Qed.

Lemma peer_loop_spec (i : nat) (ps : list peer) (total : Z) (best : option (nat * Z)) :
  ∃ r, scan now tried i ps total best = (imap (fun k => visit (i + k)) ps, total + shares i ps, r)
  ∧ best_of i ps best r.
Proof.
  revert i total best. induction ps as [|p ps IH]; intros i total best.
  { exists best. cbn. rewrite Z.add_0_r. split; [done|]. split_and!; [|done|by left].
    intros j w ->. by eexists _, _. }
  assert (Hmap : ∀ i, imap ((fun k => visit (i + k)) ∘ S) ps = imap (fun k => visit (S i + k)) ps).
  { intros i0. apply imap_ext. intros k x _. cbn. by rewrite Nat.add_succ_r. }
  cbn [scan shares imap]. unfold share, visit at 1. rewrite Nat.add_0_r, Hmap.
  destruct (eligible now tried i p) eqn:E; cbn [negb].
  - cbv zeta. edestruct IH as (r & -> & Hr). exists r. split; [f_equal; f_equal; lia|].
    by apply best_of_take.
  - edestruct IH as (r & -> & Hr). exists r. split; [f_equal; f_equal; lia|]. by apply best_of_skip.
Qed.

End Scan.

Lemma get_peer_spec (now : Z) (tried : list Z) (ps : list peer) :
  match ngx_http_upstream_get_peer now tried ps with
  | None => ∀ i p, ps !! i = Some p → eligible now tried i p = false
  | Some (j, ps', tried') =>
      ps' = alter (choose now (shares now tried 0 ps)) j (imap (visit now tried) ps)
      ∧ tried' = set_tried tried j
      ∧ ∃ q, ps !! j = Some q ∧ eligible now tried j q = true
        ∧ ∀ i p, ps !! i = Some p → eligible now tried i p = true →
            current_weight (bump p) <= current_weight (bump q)
  end.
Proof.
  unfold ngx_http_upstream_get_peer.
  destruct (peer_loop_spec now tried 0 ps 0 None) as (r & -> & _ & Hmax & Hfrom).
  destruct r as [[j w]|].
  - split; [done|]. split; [done|].
    destruct (Hfrom j w eq_refl) as [?|(k & q & -> & Hq & He & ->)]; [done|].
    exists q. split_and!; try done. intros i p Hp Hel.
    destruct (Hmax i p Hp Hel) as (j' & w' & [= <- <-] & Hle). done.
  - intros i p Hp. destruct (eligible now tried i p) eqn:E; [|done].
    by destruct (Hmax i p Hp E) as (? & ? & ? & _).
Qed.

(** ** What never changes: the invariant of a group *)

Lemma sum_visit (now : Z) (tried : list Z) (i : nat) (ps : list peer) :
  sum current_weight (imap (fun k => visit now tried (i + k)) ps)
  = sum current_weight ps + shares now tried i ps.
Proof.
  revert i. induction ps as [|p ps IH]; intros i; [done|]. cbn [imap shares].
  rewrite !sum_cons, Nat.add_0_r.
  rewrite (imap_ext _ (fun k => visit now tried (S i + k))), IH
    by (intros k x _; cbn; by rewrite Nat.add_succ_r).
  unfold visit, share. destruct (eligible now tried i p); cbn [current_weight bump set_weights]; lia.
Qed.

(** Weights are positive, the effective weight recovers up to the weight; a peer
    that has been selected [k] times or less has not left the band. *)
Definition peer_ok (W k : Z) (p : peer) : Prop :=
  0 < weight p ∧ 0 <= effective_weight p <= weight p ∧ 0 <= max_fails p
  ∧ Z.abs (current_weight p) <= k * W.

Definition group_ok (k : Z) (g : peers) : Prop :=
  number g = length (peer_list g) ∧ total_weight g = sum weight (peer_list g)
  ∧ sum current_weight (peer_list g) = 0
  ∧ Forall (peer_ok (total_weight g) k) (peer_list g).

Lemma sum_weight_ge (ps : list peer) (W k : Z) (p : peer) :
  Forall (peer_ok W k) ps → p ∈ ps → weight p <= sum weight ps.
Proof.
  intros H Hp. induction H as [|q ps (Hq & _) Hps IH]; [by apply elem_of_nil in Hp|].
  assert (0 <= sum weight ps).
  { clear -Hps. induction Hps as [|q ps (Hq & _) _ IH]; [done|]. rewrite sum_cons. lia. }
  rewrite sum_cons. apply elem_of_cons in Hp as [->|Hp]; [lia|]. specialize (IH Hp). lia.
Qed.

Lemma shares_bounds (now : Z) (tried : list Z) (i : nat) (ps : list peer) (W k : Z) :
  Forall (peer_ok W k) ps → 0 <= shares now tried i ps <= sum weight ps.
Proof.
  intros H. revert i. induction H as [|p ps (Hp & He & _) _ IH]; intros i; [done|].
  cbn [shares]. rewrite sum_cons. specialize (IH (S i)). unfold share.
  destruct (eligible now tried i p); lia.
Qed.

Lemma peer_ok_mono (W k : Z) (p : peer) : 0 <= W → peer_ok W k p → peer_ok W (k + 1) p.
Proof. unfold peer_ok. intros HW (? & ? & ? & ?). split_and!; try done; lia. Qed.

Lemma visit_ok (now : Z) (tried : list Z) (i : nat) (W k : Z) (p : peer) :
  weight p <= W → peer_ok W k p → peer_ok W (k + 1) (visit now tried i p).
Proof.
  intros HW H. unfold visit. destruct (eligible now tried i p); [|apply peer_ok_mono; [|done]].
  - destruct H as (? & ? & ? & ?). unfold peer_ok, bump.
    cbn [weight effective_weight max_fails current_weight set_weights].
    split_and!; try done; try lia; split_ifs; lia.
  - destruct H as (? & _). lia.
Qed.

Lemma choose_fields (now total : Z) (p : peer) :
  current_weight (choose now total p) = current_weight p - total
  ∧ effective_weight (choose now total p) = effective_weight p
  ∧ weight (choose now total p) = weight p ∧ max_fails (choose now total p) = max_fails p
  ∧ fails (choose now total p) = fails p ∧ down (choose now total p) = down p
  ∧ max_conns (choose now total p) = max_conns p ∧ conns (choose now total p) = conns p.
Proof. unfold choose. by destruct (_ >? _). Qed.

Lemma choose_visit_ok (now : Z) (tried : list Z) (j : nat) (total W k : Z) (q : peer) :
  eligible now tried j q = true → effective_weight q <= total <= W → peer_ok W k q →
  peer_ok W (k + 1) (choose now total (visit now tried j q)).
Proof.
  intros He Ht (Hw & Hef & Hm & Hc). unfold peer_ok.
  destruct (choose_fields now total (visit now tried j q)) as (-> & -> & -> & -> & _).
  unfold visit. rewrite He. unfold bump. cbn [weight effective_weight max_fails current_weight set_weights].
  split_and!; try done; try lia; split_ifs; lia.
Qed.

Lemma share_le_shares (now : Z) (tried : list Z) (i j : nat) (ps : list peer) (q : peer) (W k : Z) :
  Forall (peer_ok W k) ps → ps !! j = Some q → eligible now tried (i + j) q = true →
  effective_weight q <= shares now tried i ps.
Proof.
  intros H. revert i j. induction H as [|p ps Hp Hps IH]; intros i [|j] Hq He; try discriminate Hq.
  - injection Hq as ->. rewrite Nat.add_0_r in He. cbn [shares]. unfold share. rewrite He.
    pose proof (shares_bounds now tried (S i) ps W k Hps). lia.
  - cbn in Hq. cbn [shares]. rewrite <- Nat.add_succ_comm in He. specialize (IH (S i) j Hq He).
    destruct Hp as (_ & Hp & _). unfold share. destruct (eligible now tried i p); lia.
Qed.

Lemma get_peer_ok (now : Z) (tried tried' : list Z) (ps ps' : list peer) (W k : Z) (j : nat) :
  Forall (peer_ok W k) ps → sum weight ps = W → sum current_weight ps = 0 →
  ngx_http_upstream_get_peer now tried ps = Some (j, ps', tried') →
  Forall (peer_ok W (k + 1)) ps' ∧ sum weight ps' = W ∧ sum current_weight ps' = 0
  ∧ length ps' = length ps.
Proof.
  intros Hok HW Hsum E. pose proof (get_peer_spec now tried ps) as H. rewrite E in H.
  destruct H as (-> & _ & q & Hq & He & _). set (total := shares now tried 0 ps).
  assert (Hv : imap (visit now tried) ps !! j = Some (visit now tried j q))
    by (by rewrite list_lookup_imap, Hq).
  pose proof (shares_bounds now tried 0 ps W k Hok) as Hb.
  pose proof (share_le_shares now tried 0 j ps q W k Hok Hq He) as Hs.
  assert (Hweights : ∀ i, sum weight (imap (fun k => visit now tried (i + k)) ps) = sum weight ps).
  { clear. induction ps as [|p ps IH]; intros i; [done|]. cbn [imap]. rewrite !sum_cons.
    rewrite (imap_ext _ (fun k => visit now tried (S i + k))), IH
      by (intros k x _; cbn; by rewrite Nat.add_succ_r).
    unfold visit. by destruct (eligible _ _ _ p). }
  split_and!.
  - apply Forall_alter.
    + apply Forall_lookup. intros i p'. rewrite list_lookup_imap. intros (p & Hp & ->)%fmap_Some_1.
      apply visit_ok; [|by eapply Forall_lookup]. rewrite <- HW.
      by eapply sum_weight_ge, list_elem_of_lookup_2.
    + intros x Hx _. rewrite Hv in Hx. injection Hx as <-.
      apply choose_visit_ok; [done|unfold total; lia|by eapply Forall_lookup].
  - rewrite (sum_alter _ _ _ _ _ Hv). destruct (choose_fields now total (visit now tried j q)) as (_ & _ & -> & _).
    change (visit now tried) with (fun k => visit now tried (0 + k)) at 1.
    rewrite (Hweights 0%nat). lia.
  - rewrite (sum_alter _ _ _ _ _ Hv). destruct (choose_fields now total (visit now tried j q)) as (-> & _).
    change (visit now tried) with (fun k => visit now tried (0 + k)) at 1.
    rewrite (sum_visit now tried 0). fold total. lia.
  - by rewrite length_alter, length_imap.
Qed.

(** A change of one peer that keeps its weights. *)
Definition keeps (f : peer → peer) : Prop :=
  ∀ p, weight (f p) = weight p ∧ current_weight (f p) = current_weight p
  ∧ ∀ W k, peer_ok W k p → peer_ok W k (f p).

Lemma sum_alter_keep (g : peer → Z) (f : peer → peer) (i : nat) (ps : list peer) :
  (∀ p, g (f p) = g p) → sum g (alter f i ps) = sum g ps.
Proof.
  intros H. revert i. induction ps as [|p ps IH]; intros [|i]; try done.
  - change (alter f 0%nat (p :: ps)) with (f p :: ps). by rewrite !sum_cons, H.
  - change (alter f (S i) (p :: ps)) with (p :: alter f i ps). by rewrite !sum_cons, IH.
Qed.

Lemma alter_group_ok (k : Z) (f : peer → peer) (i : nat) (g : peers) :
  keeps f → group_ok k g → group_ok k (set_list (alter f i (peer_list g)) g).
Proof.
  intros Hf (Hn & Hw & Hc & Hok). unfold group_ok. cbn [number total_weight peer_list set_list].
  rewrite length_alter, !sum_alter_keep by (intros p; by destruct (Hf p) as (? & ? & _)).
  split_and!; try done. apply Forall_alter; [done|]. intros p _. apply (Hf p).
Qed.

Lemma set_conns_keeps (n : peer → Z) : keeps (fun p => set_conns (n p) p).
Proof. by intros p. Qed.

Lemma mark_failed_keeps (now : Z) : keeps (mark_failed now).
Proof.
  intros p. split; [done|]. split; [done|]. intros W k (Hw & He & Hm & Hc). unfold peer_ok, mark_failed.
  cbn [weight effective_weight max_fails current_weight]. split_and!; try done; try (split_ifs; lia).
  destruct (Z.eqb_spec (max_fails p) 0); [split_ifs; lia|].
  pose proof (Z.div_pos (weight p) (max_fails p)). split_ifs; lia.
Qed.

Lemma mark_live_keeps : keeps mark_live.
Proof. intros p. unfold mark_live. by destruct (_ <? _). Qed.

Lemma keeps_compose (f g : peer → peer) : keeps f → keeps g → keeps (fun p => f (g p)).
Proof.
  intros Hf Hg p. destruct (Hg p) as (H1 & H2 & H3), (Hf (g p)) as (H4 & H5 & H6).
  split_and!; [congruence..|auto].
Qed.

Lemma free_in_ok (k now : Z) (failed single : bool) (i : nat) (g : peers) :
  group_ok k g → group_ok k (free_in now failed single i g).
Proof.
  intros H. unfold free_in. destruct single.
  - apply alter_group_ok; [apply (set_conns_keeps (fun p => conns p - 1))|done].
  - apply alter_group_ok; [|done]. apply (keeps_compose (fun p => set_conns (conns p - 1) p));
      [apply (set_conns_keeps (fun p => conns p - 1))|].
    destruct failed; [apply mark_failed_keeps|apply mark_live_keeps].
Qed.

Lemma group_ok_mono (k : Z) (g : peers) : group_ok k g → group_ok (k + 1) g.
Proof.
  intros (Hn & Hw & Hc & Hok). split_and!; try done.
  assert (0 <= total_weight g).
  { rewrite Hw. clear -Hok. induction Hok as [|p ps (Hp & _) _ IH]; [done|]. rewrite sum_cons. lia. }
  eapply Forall_impl; [exact Hok|]. intros p. by apply peer_ok_mono.
Qed.

Lemma get_from_ok (k now : Z) (tried tried' : list Z) (g g' : peers) (i : nat) :
  group_ok k g → get_from now tried g = Some (i, g', tried') → group_ok (k + 1) g'.
Proof.
  intros Hg H. unfold get_from in H.
  assert (Hc : ∀ ps, group_ok (k + 1) (set_list ps g) →
    group_ok (k + 1) (set_list (alter (fun p => set_conns (conns p + 1) p) i ps) g)).
  { intros ps Hps. exact (alter_group_ok _ _ i _ (set_conns_keeps (fun p => conns p + 1)) Hps). }
  destruct (single g).
  - destruct (peer_list g) as [|p ps] eqn:El; [done|]. destruct (down p); [done|].
    destruct (_ && _); [done|]. injection H as <- <- <-. refine (Hc (p :: ps) _).
    rewrite <- El. destruct g. by apply group_ok_mono.
  - destruct (ngx_http_upstream_get_peer now tried (peer_list g)) as [[[j ps] t]|] eqn:E; [|done].
    injection H as <- <- <-. apply Hc. destruct Hg as (Hn & Hw & Hsum & Hok).
    destruct (get_peer_ok _ _ _ _ _ _ _ _ Hok (eq_sym Hw) Hsum E) as (H1 & H2 & H3 & H4).
    split_and!; cbn [number total_weight peer_list set_list]; congruence || done.
Qed.

Definition upstream_ok (k : Z) (up : upstream) : Prop :=
  group_ok k (primary up) ∧ ∀ b, backup up = Some b → group_ok k b.

Lemma upstream_ok_mono (k : Z) (up : upstream) : upstream_ok k up → upstream_ok (k + 1) up.
Proof. intros [H1 H2]. split; [by apply group_ok_mono|]. intros b Hb. by apply group_ok_mono, H2. Qed.

Lemma get_upstream_ok (k now rc : Z) (up up' : upstream) (r r' : rrp) :
  upstream_ok k up → ngx_http_upstream_get_round_robin_peer now up r = (rc, up', r') →
  upstream_ok (k + 1) up'.
Proof.
  intros Hok H. pose proof (upstream_ok_mono k up Hok) as Hok'. destruct Hok as [Hp Hb].
  assert (Hback : ∀ b t, backup up = Some b →
    upstream_ok (k + 1) match get_from now t b with
      | Some (_, b', _) => mk_upstream (primary up) (Some b') | None => up end).
  { intros b t Eb. destruct (get_from now t b) as [[[i b'] t']|] eqn:E; [|done].
    split; [exact (proj1 Hok')|]. cbn [backup]. intros b2 Hb2. injection Hb2 as <-.
    exact (get_from_ok k now t t' b b' i (Hb b Eb) E). }
  unfold ngx_http_upstream_get_round_robin_peer in H. cbv zeta in H.
  destruct (on_backup r).
  - destruct (backup up) as [b|] eqn:Eb; [|by simplify_eq]. specialize (Hback b (tried r) eq_refl).
    destruct (get_from now (tried r) b) as [[[i b'] t']|]; by simplify_eq.
  - destruct (get_from now (tried r) (primary up)) as [[[i g] t]|] eqn:E.
    + simplify_eq. split; [by eapply get_from_ok|]. apply Hok'.
    + destruct (backup up) as [b|] eqn:Eb; [|by simplify_eq]. cbn [tried] in H.
      set (t := _ ++ drop _ _) in H. specialize (Hback b t eq_refl).
      destruct (get_from now t b) as [[[i b'] t']|]; by simplify_eq.
Qed.

Lemma free_upstream_ok (k now : Z) (failed : bool) (up up' : upstream) (r r' : rrp) :
  upstream_ok k up → ngx_http_upstream_free_round_robin_peer now failed up r = Some (up', r') →
  upstream_ok k up'.
Proof.
  intros [Hp Hb] H. unfold ngx_http_upstream_free_round_robin_peer in H.
  destruct (current r) as [[b i]|]; [|done]. cbn [mbind option_bind] in H.
  destruct (if on_backup r then _ else _) as [g|]; [|done]. cbn [mbind option_bind] in H.
  destruct b.
  - destruct (backup up) as [b|] eqn:Eb; [|done]. cbn [mbind option_bind] in H. simplify_eq.
    split; [done|]. cbn [backup]. intros b2 Hb2. injection Hb2 as <-. by apply free_in_ok, Hb.
  - cbn [mbind option_bind] in H. simplify_eq. split; [by apply free_in_ok|done].
Qed.

Definition server_ok (s : server) : Prop := 0 < s_weight s ∧ 0 <= s_max_fails s.

Lemma make_group_ok (single backup : bool) (servers : list server) :
  Forall server_ok servers → group_ok 0 (make_group single (make_peers backup servers)).
Proof.
  intros H. split_and!; try done; cbn [peer_list make_group]; unfold make_peers.
  - induction servers as [|s servers IH]; [done|]. inversion H; subst. cbn [map concat].
    rewrite sum_app, IH by done. destruct (bool_decide _); [|done].
    induction (addrs s) as [|a l IHl]; [done|]. cbn [map]. rewrite sum_cons. cbn [current_weight make_peer]. lia.
  - apply Forall_concat, Forall_map. eapply Forall_impl; [exact H|]. intros s [Hw Hm].
    destruct (bool_decide _); [|done]. apply Forall_map, Forall_true. intros a.
    unfold peer_ok. cbn. lia.
Qed.

Lemma implicit_group_ok (single : bool) (addrs : list bytes) :
  group_ok 0 (mk_peers (length addrs) (Z.of_nat (length addrs)) single false (map implicit_peer addrs)).
Proof.
  unfold group_ok. cbn [number total_weight peer_list].
  assert (Hs : sum weight (map implicit_peer addrs) = Z.of_nat (length addrs)
    ∧ sum current_weight (map implicit_peer addrs) = 0).
  { induction addrs as [|a l IH]; [done|]. cbn [map length]. rewrite !sum_cons.
    cbn [weight current_weight implicit_peer]. lia. }
  destruct Hs as [-> ->]. split_and!; [by rewrite length_map|done..|].
  apply Forall_map, Forall_true. intros a. unfold peer_ok. cbn. lia.
Qed.

Definition conf_ok (us : upstream_conf) : Prop :=
  match us with Block servers => Forall server_ok servers | Implicit _ _ => True end.

(** The states of a group after [k] selections, with any results of the requests and
    at any times. *)
Inductive reachable (us : upstream_conf) : Z → upstream → Prop :=
  | reach_init alloc resolve up :
      ngx_http_upstream_init_round_robin alloc resolve us = Some up → reachable us 0 up
  | reach_get k up now r rc up' r' :
      reachable us k up → ngx_http_upstream_get_round_robin_peer now up r = (rc, up', r') →
      reachable us (k + 1) up'
  | reach_free k up now failed r up' r' :
      reachable us k up → ngx_http_upstream_free_round_robin_peer now failed up r = Some (up', r') →
      reachable us k up'.

Lemma init_ok (alloc : bool) (resolve : bytes → Z → option (list bytes)) (us : upstream_conf) (up : upstream) :
  conf_ok us → ngx_http_upstream_init_round_robin alloc resolve us = Some up → upstream_ok 0 up.
Proof.
  intros Hc H. unfold ngx_http_upstream_init_round_robin in H. destruct us as [servers|host port].
  - repeat case_match; simplify_eq; split; cbn [primary backup]; try (by apply make_group_ok); try done.
    intros b Hb. injection Hb as <-. by apply make_group_ok.
  - destruct (port =? 0); [done|]. destruct (resolve host port) as [l|]; [|done].
    cbn [mbind option_bind] in H. destruct alloc; [|done]. cbn [negb] in H. simplify_eq.
    split; [apply implicit_group_ok|done].
Qed.

(** C28. The state of an upstream group stays well formed through every sequence of
    selections and releases, with failures or not: the recorded number and total
    weight are those of the list of peers, the effective weight of a peer is between
    0 and its weight, the current weights of a group add up to 0, and after [k]
    selections none of them has left the band of [k] times the total weight, so that
    the 64-bit fields do not overflow before that band reaches their range. *)
Theorem rr_wellformed (us : upstream_conf) (k : Z) (up : upstream) :
  conf_ok us → reachable us k up → upstream_ok k up.
Proof.
  intros Hs. induction 1; [by eapply init_ok|by eapply get_upstream_ok|by eapply free_upstream_ok].
Qed.

Definition example_servers : list server :=
  [mk_server [bs "a"] 5 0 1 10 false false; mk_server [bs "b"] 1 0 1 10 false false;
   mk_server [bs "c"] 1 0 1 10 false false].

Definition example_upstream : upstream :=
  mk_upstream (make_group false (make_peers false example_servers)) None.

Lemma rr_wellformed_witness :
  upstream_ok 1 (snd (fst (ngx_http_upstream_get_round_robin_peer 0 example_upstream (mk_rrp false None [0] 3)))).
Proof.
  apply (rr_wellformed (Block example_servers) (0 + 1)).
  - unfold conf_ok. repeat (apply Forall_cons; split; [unfold server_ok; cbn; lia|]). constructor.
  - destruct (ngx_http_upstream_get_round_robin_peer 0 example_upstream (mk_rrp false None [0] 3))
      as [[rc up] r] eqn:E.
    eapply reach_get; [|exact E]. by apply (reach_init _ true (fun _ _ => None)).
Defined.

(** ** Fairness *)

(** What happens to a group while its servers work: a request takes a server, with a
    fresh bitmap; a request ends well and gives its server back. *)
Inductive event := Request (now : Z) | Done (now : Z) (i : nat).

Fixpoint requests (evs : list event) : nat :=
  match evs with
  | [] => 0
  | Request _ :: evs => S (requests evs)
  | Done _ _ :: evs => requests evs
  end.

(** The servers selected, in their order; [None] when a request gets none. *)
Fixpoint serve (up : upstream) (evs : list event) : option (upstream * list nat) :=
  match evs with
  | [] => Some (up, [])
  | Request now :: evs =>
      r ← ngx_http_upstream_init_round_robin_peer true up;
      match ngx_http_upstream_get_round_robin_peer now up r with
      | (rc, up, mk_rrp false (Some (false, i)) _ _) =>
          if rc =? NGX_OK then '(up, chosen) ← serve up evs; Some (up, i :: chosen) else None
      | _ => None
      end
  | Done now i :: evs =>
      '(up, _) ← ngx_http_upstream_free_round_robin_peer now false up (mk_rrp false (Some (false, i)) [] 0);
      serve up evs
  end.

(** A peer that takes requests and has not failed. *)
Definition steady (p : peer) : Prop :=
  effective_weight p = weight p ∧ down p = false ∧ fails p = 0 ∧ max_conns p = 0.

Definition fresh (n : nat) (tried : list Z) : Prop := ∀ i, (i < n)%nat → tried_bit tried i = false.

Lemma fresh_zeros (n k : nat) : (words n <= k)%nat → fresh n (replicate k 0).
Proof.
  intros Hk i Hi. unfold tried_bit. rewrite lookup_total_replicate_2; [done|].
  unfold words, word_bits in *. pose proof (Nat.div_mod_eq i 64). pose proof (Nat.div_mod_eq (n + (64 - 1)) 64).
  pose proof (Nat.mod_upper_bound i 64). pose proof (Nat.mod_upper_bound (n + (64 - 1)) 64). lia.
Qed.

Lemma init_peer_fresh (up : upstream) :
  ∃ t k, ngx_http_upstream_init_round_robin_peer true up = Some (mk_rrp false None t k)
  ∧ fresh (number (primary up)) t.
Proof.
  unfold ngx_http_upstream_init_round_robin_peer. cbv zeta.
  set (n := match backup up with Some _ => _ | None => _ end).
  assert (Hn : (number (primary up) <= n)%nat).
  { unfold n. destruct (backup up) as [b|]; [|done]. destruct (Nat.ltb_spec (number (primary up)) (number b)); lia. }
  destruct (Nat.leb_spec n word_bits) as [Hle|_]; cbn [negb]; eexists _, _; (split; [done|]).
  - apply (fresh_zeros _ 1). unfold words, word_bits in *.
    pose proof (Nat.Div0.div_le_mono (number (primary up) + (64 - 1)) (64 + (64 - 1)) 64).
    change ((64 + (64 - 1)) / 64)%nat with 1%nat in *. lia.
  - apply fresh_zeros. unfold words. apply Nat.Div0.div_le_mono. lia.
Qed.

Lemma steady_eligible (now : Z) (tried : list Z) (i : nat) (p : peer) (W k : Z) :
  tried_bit tried i = false → steady p → peer_ok W k p → eligible now tried i p = true.
Proof.
  intros Ht (_ & Hd & Hf & Hm) (_ & _ & Hmf & _). unfold eligible. rewrite Ht, Hd, Hf, Hm. cbn [Z.eqb negb andb].
  destruct (Z.eqb_spec (max_fails p) 0); [done|]. destruct (Z.geb_spec 0 (max_fails p)); [lia|done].
Qed.

Lemma sum_nonpos (f : peer → Z) (ps : list peer) : Forall (fun p => f p <= 0) ps → sum f ps <= 0.
Proof. induction 1; [done|]. rewrite sum_cons. lia. Qed.

(** The state after the requests that selected [ch]: the current weight of a peer is
    what it has been given less what its selections cost. *)
Definition fair_peer (W : Z) (ch : list nat) (i : nat) (p : peer) : Prop :=
  steady p ∧ - W < current_weight p
  ∧ current_weight p = Z.of_nat (length ch) * weight p - W * Z.of_nat (count_occ Nat.eq_dec ch i).

Definition fair_group (ch : list nat) (g : peers) : Prop :=
  (∃ k, group_ok k g) ∧ peer_list g ≠ [] ∧ (single g = true → length (peer_list g) = 1%nat)
  ∧ ∀ i p, peer_list g !! i = Some p → fair_peer (total_weight g) ch i p.

Lemma shares_steady (now : Z) (tried : list Z) (i : nat) (ps : list peer) :
  (∀ k p, ps !! k = Some p → eligible now tried (i + k) p = true ∧ effective_weight p = weight p) →
  shares now tried i ps = sum weight ps.
Proof.
  revert i. induction ps as [|p ps IH]; intros i H; [done|]. cbn [shares]. rewrite sum_cons, IH.
  - destruct (H 0%nat p eq_refl) as [He Hw]. rewrite Nat.add_0_r in He. unfold share. by rewrite He, Hw.
  - intros k q Hq. rewrite Nat.add_succ_comm. by apply (H (S k)).
Qed.

Lemma sum_bump (ps : list peer) :
  sum (fun p => current_weight (bump p)) ps = sum current_weight ps + sum effective_weight ps.
Proof.
  induction ps as [|p ps IH]; [done|]. rewrite !sum_cons, IH. cbn [current_weight bump set_weights]. lia.
Qed.

(** The weights after the bump add up to the total weight, which is positive: so is
    the best of them. *)
Lemma best_positive (ps : list peer) (q : peer) :
  ps ≠ [] → sum current_weight ps = 0 → Forall (fun p => effective_weight p = weight p ∧ 0 < weight p) ps →
  (∀ i p, ps !! i = Some p → current_weight (bump p) <= current_weight (bump q)) →
  0 < current_weight (bump q).
Proof.
  intros Hne Hsum Hw Hmax. destruct (Z.lt_ge_cases 0 (current_weight (bump q))) as [|Hle]; [done|exfalso].
  assert (Hn : sum (fun p => current_weight (bump p)) ps <= 0).
  { apply sum_nonpos, Forall_lookup. intros i p Hp. specialize (Hmax i p Hp). lia. }
  rewrite sum_bump, Hsum in Hn. clear -Hne Hw Hn. destruct Hw as [|p ps [Hpe Hp] Hps]; [done|].
  rewrite sum_cons in Hn. assert (0 <= sum effective_weight ps); [|lia].
  clear -Hps. induction Hps as [|q ps [? ?] _ IH]; [done|]. rewrite sum_cons. lia.
Qed.

Lemma steady_same (p q : peer) :
  effective_weight q = effective_weight p → weight q = weight p → down q = down p → fails q = fails p →
  max_conns q = max_conns p → steady p → steady q.
Proof. unfold steady. intros -> -> -> -> ->. done. Qed.

Lemma bump_steady (p : peer) : steady p → steady (bump p).
Proof.
  intros Hp. pose proof Hp as (He & _). eapply steady_same; [..|exact Hp]; try done.
  cbn [effective_weight bump set_weights]. rewrite He. destruct (Z.ltb_spec (weight p) (weight p)); [lia|done].
Qed.

Lemma choose_steady (now total : Z) (p : peer) : steady p → steady (choose now total p).
Proof.
  destruct (choose_fields now total p) as (_ & ? & ? & _ & ? & ? & ? & _). by apply steady_same.
Qed.

Lemma count_occ_snoc (ch : list nat) (i j : nat) :
  count_occ Nat.eq_dec (ch ++ [j]) i = (count_occ Nat.eq_dec ch i + if decide (i = j) then 1 else 0)%nat.
Proof.
  rewrite count_occ_app. cbn [count_occ]. destruct (Nat.eq_dec j i), (decide (i = j)); congruence || lia.
Qed.

Lemma fair_eligible (now : Z) (ch : list nat) (g : peers) (t : list Z) (i : nat) (p : peer) :
  fair_group ch g → fresh (number g) t → peer_list g !! i = Some p → eligible now t i p = true.
Proof.
  intros ((k & Hn & _ & _ & Hok) & _ & _ & Hf) Ht Hp. destruct (Hf i p Hp) as [Hs _].
  eapply steady_eligible; [|done|by eapply Forall_lookup].
  apply Ht. rewrite Hn. by eapply lookup_lt_Some.
Qed.

(** One selection among several servers. *)
Lemma get_peer_fair (now : Z) (ch : list nat) (g : peers) (t : list Z) :
  fair_group ch g → fresh (number g) t →
  ∃ j ps t', ngx_http_upstream_get_peer now t (peer_list g) = Some (j, ps, t')
  ∧ ∀ i p, ps !! i = Some p → fair_peer (total_weight g) (ch ++ [j]) i p.
Proof.
  intros Hg Ht. pose proof (fun i p => fair_eligible now ch g t i p Hg Ht) as Hel.
  destruct Hg as ((k & Hn & HW & Hsum & Hok) & Hne & _ & Hf).
  pose proof (get_peer_spec now t (peer_list g)) as H.
  destruct (ngx_http_upstream_get_peer now t (peer_list g)) as [[[j ps] t']|].
  2: { exfalso. destruct (peer_list g) as [|p l] eqn:El; [done|].
       specialize (Hel 0%nat p eq_refl). by rewrite (H 0%nat p eq_refl) in Hel. }
  destruct H as (-> & _ & q & Hq & Heq & Hmax).
  rewrite (shares_steady now t 0) by
    (intros i p Hp; split; [by apply Hel|by destruct (Hf i p Hp) as [[? _] _]]).
  rewrite <- HW. eexists _, _, _. split; [done|].
  assert (Hpos : 0 < current_weight (bump q)).
  { apply (best_positive (peer_list g)); [done..| |intros i p Hp; by eapply Hmax, Hel].
    apply Forall_lookup. intros i p Hp. destruct (Hf i p Hp) as [[? _] _].
    pose proof (Forall_lookup_1 _ _ _ _ Hok Hp) as (? & _). done. }
  assert (Hbump : ∀ i p, peer_list g !! i = Some p → imap (visit now t) (peer_list g) !! i = Some (bump p)).
  { intros i p Hp. rewrite list_lookup_imap, Hp. cbn. unfold visit. by rewrite (Hel i p Hp). }
  intros i p Hp. unfold fair_peer. rewrite length_app, count_occ_snoc. cbn [length].
  destruct (decide (i = j)) as [->|Hij].
  - destruct (Hf j q Hq) as (Hs & Hlow & Hcw). rewrite list_lookup_alter_eq, (Hbump j q Hq) in Hp.
    apply (inj Some) in Hp as <-.
    destruct (choose_fields now (total_weight g) (bump q)) as (-> & _ & -> & _).
    split; [by apply choose_steady, bump_steady|]. pose proof Hs as (He & _).
    cbn [current_weight weight bump set_weights] in *. lia.
  - rewrite list_lookup_alter_ne in Hp by done.
    assert (is_Some (peer_list g !! i)) as [p0 Hp0].
    { apply lookup_lt_is_Some. apply lookup_lt_Some in Hp. by rewrite length_imap in Hp. }
    rewrite (Hbump i p0 Hp0) in Hp. injection Hp as <-. destruct (Hf i p0 Hp0) as (Hs & Hlow & Hcw).
    split; [by apply bump_steady|]. pose proof Hs as (He & _).
    pose proof (Forall_lookup_1 _ _ _ _ Hok Hp0) as (? & _).
    cbn [current_weight weight bump set_weights] in *. lia.
Qed.

(** A change of one peer that leaves its weights and its availability. *)
Lemma alter_fair (W : Z) (ch : list nat) (f : peer → peer) (j : nat) (ps : list peer) :
  (∀ p, steady p → steady (f p)) → keeps f →
  (∀ i p, ps !! i = Some p → fair_peer W ch i p) →
  ∀ i p, alter f j ps !! i = Some p → fair_peer W ch i p.
Proof.
  intros Hs Hk H i p Hp. rewrite list_lookup_alter in Hp. destruct (decide (j = i)) as [->|]; [|by apply H].
  apply fmap_Some_1 in Hp as (q & Hq & ->). destruct (H i q Hq) as (? & ? & ?), (Hk q) as (Hw & Hc & _).
  unfold fair_peer. rewrite Hw, Hc. auto.
Qed.

Lemma set_conns_steady (n : peer → Z) (p : peer) : steady p → steady (set_conns (n p) p).
Proof. by apply steady_same. Qed.

Lemma mark_live_steady (p : peer) : steady p → steady (mark_live p).
Proof.
  intros H. pose proof H as (_ & _ & Hf & _). eapply steady_same; [..|exact H]; unfold mark_live;
    by destruct (_ <? _).
Qed.

Lemma get_from_fair (now : Z) (ch : list nat) (g : peers) (t : list Z) :
  fair_group ch g → fresh (number g) t →
  ∃ j g' t', get_from now t g = Some (j, g', t') ∧ fair_group (ch ++ [j]) g'.
Proof.
  intros Hg Ht.
  assert (H : ∃ j g' t', get_from now t g = Some (j, g', t') ∧ single g' = single g
    ∧ length (peer_list g') = length (peer_list g) ∧ total_weight g' = total_weight g
    ∧ ∀ i p, peer_list g' !! i = Some p → fair_peer (total_weight g) (ch ++ [j]) i p).
  { unfold get_from. destruct (single g) eqn:Es.
    - pose proof Hg as ((k & _ & HW & Hsum & Hok) & _ & H1 & Hf). specialize (H1 Es).
      destruct (peer_list g) as [|p [|]] eqn:El; try done.
      destruct (Hf 0%nat p eq_refl) as ((He & Hd & Hfl & Hm) & Hlow & Hcw). rewrite Hd, Hm. cbn [Z.eqb negb andb].
      eexists _, _, _. split; [done|]. split; [done|]. split; [done|]. split; [done|].
      apply alter_fair; [apply (set_conns_steady (fun p => conns p + 1))|apply (set_conns_keeps (fun p => conns p + 1))|].
      intros [|i] q Hq; [|done]. injection Hq as <-. unfold fair_peer. rewrite length_app, count_occ_snoc.
      rewrite !sum_cons in HW, Hsum. cbn [sum foldr] in HW, Hsum. cbn [length].
      destruct (decide (0%nat = 0%nat)); [|done]. split_and!; try done; lia.
    - destruct (get_peer_fair now ch g t Hg Ht) as (j & ps & t' & E & Hf). pose proof E as E'. rewrite E.
      eexists _, _, _. split; [done|]. split; [done|]. cbn [peer_list set_list]. rewrite length_alter. split.
      + destruct Hg as ((k & _ & HW & Hsum & Hok) & _).
        by destruct (get_peer_ok _ _ _ _ _ _ _ _ Hok (eq_sym HW) Hsum E') as (_ & _ & _ & ?).
      + split; [done|]. apply alter_fair; [|apply (set_conns_keeps (fun p => conns p + 1))|done].
        apply (set_conns_steady (fun p => conns p + 1)). }
  destruct H as (j & g' & t' & E & Hs & Hl & HW & Hf). exists j, g', t'. split; [done|].
  destruct Hg as ((k & Hok) & Hne & H1 & _). split; [exists (k + 1); by eapply get_from_ok|].
  rewrite Hs, Hl, HW. split_and!; try done. destruct (peer_list g'); [|done].
  destruct (peer_list g); [done|discriminate Hl].
Qed.

Lemma free_in_fair (now : Z) (ch : list nat) (s : bool) (i : nat) (g : peers) :
  fair_group ch g → fair_group ch (free_in now false s i g).
Proof.
  intros ((k & Hok) & Hne & H1 & Hf). split; [exists k; by apply free_in_ok|].
  assert (Hlen : length (peer_list (free_in now false s i g)) = length (peer_list g)).
  { unfold free_in. destruct s; cbn [peer_list set_list]; by rewrite length_alter. }
  assert (Hs : single (free_in now false s i g) = single g) by (by destruct s).
  rewrite Hs, Hlen. split_and!; try done.
  - destruct (peer_list (free_in now false s i g)); [|done]. by destruct (peer_list g).
  - unfold free_in. destruct s; cbn [peer_list set_list total_weight]; apply alter_fair; try done.
    + intros p Hp. by apply (set_conns_steady (fun p => conns p - 1)), mark_live_steady.
    + apply (keeps_compose (fun p => set_conns (conns p - 1) p)), mark_live_keeps.
      apply (set_conns_keeps (fun p => conns p - 1)).
Qed.

(** The weights are those of the configuration for ever. *)
Lemma alter_weights (f : peer → peer) (i : nat) (ps : list peer) :
  (∀ p, weight (f p) = weight p) → map weight (alter f i ps) = map weight ps.
Proof.
  intros H. revert i. induction ps as [|p ps IH]; intros [|i]; try done.
  - change (alter f 0%nat (p :: ps)) with (f p :: ps). cbn [map]. by rewrite H.
  - change (alter f (S i) (p :: ps)) with (p :: alter f i ps). cbn [map]. by rewrite IH.
Qed.

Lemma visit_weights (now : Z) (t : list Z) (ps : list peer) :
  map weight (imap (visit now t) ps) = map weight ps.
Proof.
  change (visit now t) with (fun k => visit now t (0 + k)). generalize 0%nat.
  induction ps as [|p ps IH]; intros i; [done|]. cbn [imap map]. f_equal.
  - unfold visit. by destruct (eligible _ _ _ p).
  - rewrite <- (IH (S i)). f_equal. apply imap_ext. intros k x _. cbn. by rewrite Nat.add_succ_r.
Qed.

Lemma get_from_weights (now : Z) (t t' : list Z) (g g' : peers) (j : nat) :
  get_from now t g = Some (j, g', t') → map weight (peer_list g') = map weight (peer_list g).
Proof.
  unfold get_from. intros H.
  assert (Hc : ∀ ps, map weight (alter (fun p => set_conns (conns p + 1) p) j ps) = map weight ps)
    by (intros ps; by apply alter_weights).
  destruct (single g).
  - destruct (peer_list g); [done|]. repeat case_match; simplify_eq. apply Hc.
  - pose proof (get_peer_spec now t (peer_list g)) as Hs.
    destruct (ngx_http_upstream_get_peer now t (peer_list g)) as [[[i ps] t2]|]; [|done].
    destruct Hs as (-> & _). injection H as -> <- <-. cbn [peer_list set_list].
    rewrite Hc, alter_weights, visit_weights; [done|].
    intros p. by destruct (choose_fields now (shares now t 0 (peer_list g)) p) as (_ & _ & ? & _).
Qed.

Lemma free_in_weights (now : Z) (failed s : bool) (i : nat) (g : peers) :
  map weight (peer_list (free_in now failed s i g)) = map weight (peer_list g).
Proof.
  unfold free_in. destruct s; cbn [peer_list set_list]; apply alter_weights; [done|].
  intros p. unfold mark_live. destruct failed; [done|]. by destruct (_ <? _).
Qed.

Lemma serve_fair (evs : list event) (ch : list nat) (up : upstream) :
  fair_group ch (primary up) →
  ∃ up' chosen, serve up evs = Some (up', chosen) ∧ length chosen = requests evs
  ∧ fair_group (ch ++ chosen) (primary up')
  ∧ map weight (peer_list (primary up')) = map weight (peer_list (primary up)).
Proof.
  revert ch up. induction evs as [|[now|now i] evs IH]; intros ch up Hg; cbn [serve requests].
  - exists up, []. by rewrite app_nil_r.
  - destruct (init_peer_fresh up) as (t & k & -> & Ht). cbn [mbind option_bind].
    destruct (get_from_fair now ch (primary up) t Hg Ht) as (j & g' & t' & E & Hg').
    unfold ngx_http_upstream_get_round_robin_peer. cbn [on_backup tried tries]. rewrite E.
    destruct (IH (ch ++ [j]) (mk_upstream g' (backup up)) Hg') as (up' & chosen & Es & Hl & Hf & Hw).
    exists up', (j :: chosen). cbn [Z.eqb NGX_OK]. rewrite Es. cbn [mbind option_bind length].
    rewrite Hl, Hw, <- (assoc_L (++)) in *. split_and!; try done. by eapply get_from_weights.
  - unfold ngx_http_upstream_free_round_robin_peer. cbn [current on_backup mbind option_bind].
    rewrite <- (free_in_weights now false (single (primary up)) i (primary up)).
    apply (IH ch (mk_upstream (free_in now false (single (primary up)) i (primary up)) (backup up))).
    by apply free_in_fair.
Qed.

Definition conf_steady (us : upstream_conf) : Prop :=
  match us with
  | Block servers => Forall (fun s => server_ok s ∧ s_down s = false ∧ s_max_conns s = 0) servers
  | Implicit _ _ => True
  end.

Lemma init_fair (resolve : bytes → Z → option (list bytes)) (us : upstream_conf) (up : upstream) :
  conf_steady us → (∀ h p, resolve h p ≠ Some []) →
  ngx_http_upstream_init_round_robin true resolve us = Some up → fair_group [] (primary up).
Proof.
  intros Hs Hr H.
  assert (Hok : conf_ok us).
  { destruct us; [|done]. eapply Forall_impl; [exact Hs|]. by intros s [? _]. }
  assert (Hpeers : peer_list (primary up) ≠ []
    ∧ Forall (fun p => current_weight p = 0 ∧ steady p) (peer_list (primary up))
    ∧ (single (primary up) = true → length (peer_list (primary up)) = 1%nat)).
  { unfold ngx_http_upstream_init_round_robin in H. cbn [negb] in H. destruct us as [servers|host port].
    - assert (Hf : Forall (fun p => current_weight p = 0 ∧ steady p) (make_peers false servers)).
      { apply Forall_concat, Forall_map. eapply Forall_impl; [exact Hs|]. intros s (_ & Hd & Hm).
        destruct (bool_decide _); [|done]. apply Forall_map, Forall_true. by intros a. }
      destruct (Nat.eqb_spec (length (make_peers false servers)) 0) as [|Hne]; [done|].
      destruct (Nat.eqb_spec (length (make_peers true servers)) 0) as [|]; simplify_eq;
        cbn [primary peer_list single make_group]; (split; [by intros E; rewrite E in Hne|]); split; try done.
      apply Nat.eqb_eq.
    - destruct (port =? 0); [done|]. destruct (resolve host port) as [l|] eqn:E; [|done].
      cbn [mbind option_bind] in H. simplify_eq. cbn [primary peer_list single]. split.
      { intros El. apply map_eq_nil in El as ->. by eapply Hr. }
      split; [apply Forall_map, Forall_true; by intros a|]. rewrite length_map. apply Nat.eqb_eq. }
  destruct Hpeers as (Hne & Hf & H1). pose proof (init_ok _ _ _ _ Hok H) as [Hg _].
  split; [by exists 0|]. split_and!; try done. intros i p Hp.
  destruct (Forall_lookup_1 _ _ _ _ Hf Hp) as [Hc Hst].
  destruct Hg as (_ & HW & _ & Hpk). pose proof (Forall_lookup_1 _ _ _ _ Hpk Hp) as (Hw & _).
  rewrite HW. pose proof (sum_weight_ge _ _ _ _ Hpk (list_elem_of_lookup_2 _ _ _ Hp)).
  unfold fair_peer. rewrite Hc. cbn [length count_occ]. split_and!; try done; lia.
Qed.

Lemma above_minus_one (W c x : Z) : - W < c → c = W * x → 0 <= c.
Proof. intros H ->. destruct (Z.lt_trichotomy W 0) as [?|[->|?]], (Z.lt_trichotomy x 0) as [?|[->|?]]; nia. Qed.

(** C27. When every server of a group works, each gets its share. Whatever the order
    of requests and completions and at any times: every request gets a server; after
    [n] requests a server of weight [w], in a group of total weight [W], has got
    less than one request more than its share [n * w / W]; and after [m] full rounds
    of [W] requests it has got exactly [m * w] of them. The completions do not
    change it, and the bitmap of a request covers groups of more than 64 servers. *)
Theorem rr_fair (resolve : bytes → Z → option (list bytes)) (us : upstream_conf) (up : upstream)
    (evs : list event) :
  conf_steady us → (∀ h p, resolve h p ≠ Some []) →
  ngx_http_upstream_init_round_robin true resolve us = Some up →
  ∃ up' chosen, serve up evs = Some (up', chosen) ∧ length chosen = requests evs
  ∧ ∀ i p, peer_list (primary up) !! i = Some p →
      let W := total_weight (primary up) in
      let n := Z.of_nat (requests evs) in
      let c := Z.of_nat (count_occ Nat.eq_dec chosen i) in
      W * c < n * weight p + W ∧ ∀ m, n = m * W → c = m * weight p.
Proof.
  intros Hs Hr H. destruct (serve_fair evs [] up (init_fair _ _ _ Hs Hr H)) as (up' & ch & E & Hl & Hf & Hw).
  exists up', ch. split; [done|]. split; [done|]. intros i p Hp. cbv zeta.
  assert (HW : total_weight (primary up') = total_weight (primary up)).
  { pose proof (init_fair _ _ _ Hs Hr H) as ((k & _ & H1 & _) & _). destruct Hf as ((k' & _ & H2 & _) & _).
    rewrite H1, H2. by apply sum_weights. }
  assert (∃ q, peer_list (primary up') !! i = Some q ∧ weight q = weight p) as (q & Hq & Hqw).
  { assert (Hi : map weight (peer_list (primary up')) !! i = Some (weight p))
      by (rewrite Hw; by apply (list_lookup_fmap_Some_2 weight)).
    apply (list_lookup_fmap_Some_1 weight) in Hi as (q & ? & ?). by exists q. }
  pose proof Hf as ((k & _ & _ & Hsum & Hok) & _ & _ & Hfair). cbn [app] in Hfair.
  destruct (Hfair i q Hq) as (_ & Hlow & Hcw). rewrite HW, Hqw, Hl in *.
  split; [lia|]. intros m Hm.
  assert (Hz : current_weight q = 0); [|nia].
  apply (sum_nonneg_zero current_weight (peer_list (primary up'))); [|done|by eapply list_elem_of_lookup_2].
  apply Forall_lookup. intros i' q' Hq'. destruct (Hfair i' q' Hq') as (_ & Hlow' & Hcw').
  rewrite Hl, Hm in Hcw'.
  apply (above_minus_one _ _ (m * weight q' - Z.of_nat (count_occ Nat.eq_dec ch i')) Hlow'). lia.
Qed.

(** Weights 5, 1, 1: the servers in the order of the documentation. *)
Lemma rr_fair_witness :
  ∃ up' chosen, serve example_upstream (map Request [1; 2; 3; 4; 5; 6; 7]) = Some (up', chosen)
  ∧ chosen = [0; 0; 1; 0; 2; 0; 0]%nat ∧ Z.of_nat (count_occ Nat.eq_dec chosen 0%nat) = 1 * 5.
Proof.
  destruct (rr_fair (fun _ _ => None) (Block example_servers) example_upstream (map Request [1; 2; 3; 4; 5; 6; 7]))
    as (up' & chosen & E & _ & H).
  - unfold conf_steady. repeat (apply Forall_cons; split; [unfold server_ok; cbn; lia|]). constructor.
  - done.
  - done.
  - exists up', chosen. split; [exact E|]. split; [vm_compute in E; by injection E as _ <-|].
    by apply (H 0%nat (make_peer (mk_server [bs "a"] 5 0 1 10 false false) (bs "a"))).
Defined.

End RoundRobin.
