(* ===== verification/RdsStream.v ===== *)
(** The Resty DBD Stream (RDS), the binary format in which the drizzle module passes
    the result of a database query to the filters: its types and its readers, from
    src/rds-json-nginx-module-master/src/resty_dbd_stream.h, ngx_http_rds.h and
    ngx_http_rds_utils.h.

    Integers are stored in the byte order of the machine; the model is the
    little-endian build ([NGX_HAVE_LITTLE_ENDIAN]).  [consume] is the contract between
    the module that writes a stream and the filter that reads it: a buffer takes the
    stream from one point to another, and no header, column, row flag or field length
    (with the first byte of the field) is cut by the end of a buffer. *)

From S2P Require Import Prelude.

Open Scope Z_scope.

Module Rds.

(** ** resty_dbd_stream.h *)

Definition resty_dbd_stream_version : Z := 3.
Definition rds_content_type : bytes := bs "application/x-resty-dbd-stream".

Definition rds_rough_col_type_int : Z := Z.shiftl 0 14.
Definition rds_rough_col_type_float : Z := Z.shiftl 1 14.
Definition rds_rough_col_type_str : Z := Z.shiftl 2 14.
Definition rds_rough_col_type_bool : Z := Z.shiftl 3 14.

Definition rds_col_type_unknown : Z := Z.lor 0 rds_rough_col_type_str.
Definition rds_col_type_bigint : Z := Z.lor 1 rds_rough_col_type_int.
Definition rds_col_type_bit : Z := Z.lor 2 rds_rough_col_type_str.
Definition rds_col_type_bool : Z := Z.lor 4 rds_rough_col_type_bool.
Definition rds_col_type_varchar : Z := Z.lor 6 rds_rough_col_type_str.
Definition rds_col_type_double : Z := Z.lor 8 rds_rough_col_type_float.
Definition rds_col_type_integer : Z := Z.lor 9 rds_rough_col_type_int.
Definition rds_col_type_decimal : Z := Z.lor 11 rds_rough_col_type_float.
Definition rds_col_type_real : Z := Z.lor 12 rds_rough_col_type_float.
Definition rds_col_type_smallint : Z := Z.lor 13 rds_rough_col_type_int.
Definition rds_col_type_time : Z := Z.lor 15 rds_rough_col_type_str.
Definition rds_col_type_timestamp : Z := Z.lor 17 rds_rough_col_type_str.
Definition rds_col_type_blob : Z := Z.lor 19 rds_rough_col_type_str.

(** ** ngx_http_rds.h *)

Record ngx_http_rds_header_t := mk_header {
  std_errcode : Z;
  drv_errcode : Z;
  errstr : bytes;
  affected_rows : Z;
  insert_id : Z;
  col_count : Z
}.

Record ngx_http_rds_column_t := mk_column {
  std_type : Z;
  drv_type : Z;
  name : bytes
}.

#[export] Instance column_eq_dec : EqDecision ngx_http_rds_column_t.
Proof. solve_decision. Defined.

(** ** Integers in memory *)

(** An integer of [n] bytes is read from and stored to memory through a pointer of its
    type: least significant byte first. *)
Fixpoint get_le (l : bytes) : Z :=
  match l with
  | [] => 0
  | b :: l => b + 256 * get_le l
  end.

Fixpoint put_le (n : nat) (z : Z) : bytes :=
  match n with
  | O => []
  | S n => z mod 256 :: put_le n (z / 256)
  end.

(** ** ngx_http_rds_utils.h *)

Definition u16 (l : bytes) : Z := get_le (take 2 l).
Definition u32 (l : bytes) : Z := get_le (take 4 l).
Definition u64 (l : bytes) : Z := get_le (take 8 l).

(** The header at [b->pos], and the bytes after it. *)
Definition ngx_http_rds_parse_header (b : bytes) : option (ngx_http_rds_header_t * bytes) :=
  let rest := 1 + 4 + 1 + 2 + 2 + 2 + 0 + 8 + 8 + 2 in
  if Z.of_nat (length b) <? rest then None
  else if negb (b !!! 0%nat =? 0) then None
  else
    let b := drop 1 b in
    if negb (u32 b =? resty_dbd_stream_version) then None
    else
      let b := drop 4 b in
      if negb (b !!! 0%nat =? 0) then None
      else
        let b := drop 1 b in
        let std := u16 b in let b := drop 2 b in
        let drv := u16 b in let b := drop 2 b in
        let len := u16 b in let b := drop 2 b in
        let rest := len + 8 + 8 + 2 in
        if Z.of_nat (length b) <? rest then None
        else
          let es := take (Z.to_nat len) b in let b := drop (Z.to_nat len) b in
          let ar := u64 b in let b := drop 8 b in
          let ii := u64 b in let b := drop 8 b in
          let cc := u16 b in let b := drop 2 b in
          Some (mk_header std drv es ar ii cc, b).

(** A column at [b->pos], and the bytes after it. *)
Definition ngx_http_rds_parse_col (b : bytes) : option (ngx_http_rds_column_t * bytes) :=
  let rest := 2 + 2 + 2 in
  if Z.of_nat (length b) <? rest then None
  else
    let st := u16 b in let b := drop 2 b in
    let dt := u16 b in let b := drop 2 b in
    let len := u16 b in let b := drop 2 b in
    if len =? 0 then None
    else
      let rest := len in
      if Z.of_nat (length b) <? rest then None
      else Some (mk_column st dt (take (Z.to_nat len) b), drop (Z.to_nat len) b).

(** * Specification *)

(** ** The stream of a result *)

Definition header_bytes (h : ngx_http_rds_header_t) : bytes :=
  [0] ++ put_le 4 resty_dbd_stream_version ++ [0]
  ++ put_le 2 (std_errcode h) ++ put_le 2 (drv_errcode h)
  ++ put_le 2 (Z.of_nat (length (errstr h))) ++ errstr h
  ++ put_le 8 (affected_rows h) ++ put_le 8 (insert_id h) ++ put_le 2 (col_count h).

Definition col_bytes (c : ngx_http_rds_column_t) : bytes :=
  put_le 2 (std_type c) ++ put_le 2 (drv_type c)
  ++ put_le 2 (Z.of_nat (length (name c))) ++ name c.

(** A field is SQL NULL or a byte string. *)
Definition field := option bytes.

Definition NULL_LEN : Z := 2 ^ 32 - 1.

(** A point of a stream, by what is still to come after it. *)
Inductive cursor :=
  | at_header (h : ngx_http_rds_header_t) (cols : list ngx_http_rds_column_t)
      (rows : list (list field))
  | at_col (cols : list ngx_http_rds_column_t) (rows : list (list field))
  | at_row (rows : list (list field))
  | at_field (fs : list field) (rows : list (list field))
  | at_more (d : bytes) (fs : list field) (rows : list (list field))
  | at_end.

Definition after_header (cols : list ngx_http_rds_column_t) (rows : list (list field)) : cursor :=
  match cols with [] => at_end | _ => at_col cols rows end.

Definition after_col (cols : list ngx_http_rds_column_t) (rows : list (list field)) : cursor :=
  match cols with [] => at_row rows | _ => at_col cols rows end.

Definition after_field (fs : list field) (rows : list (list field)) : cursor :=
  match fs with [] => at_row rows | _ => at_field fs rows end.

(** [consume r b r']: the buffer [b] takes the stream from [r] to [r']. *)
Inductive consume : cursor → bytes → cursor → Prop :=
  | consume_nil r : consume r [] r
  | consume_header h cols rows b r' :
      consume (after_header cols rows) b r' →
      consume (at_header h cols rows) (header_bytes h ++ b) r'
  | consume_col c cols rows b r' :
      consume (after_col cols rows) b r' →
      consume (at_col (c :: cols) rows) (col_bytes c ++ b) r'
  | consume_row flag fs rows b r' :
      flag ≠ 0 → consume (after_field fs rows) b r' →
      consume (at_row (fs :: rows)) (flag :: b) r'
  | consume_end : consume (at_row []) [0] at_end
  | consume_null fs rows b r' :
      consume (after_field fs rows) b r' →
      consume (at_field (None :: fs) rows) (put_le 4 NULL_LEN ++ b) r'
  | consume_field d fs rows b r' :
      consume (after_field fs rows) b r' →
      consume (at_field (Some d :: fs) rows) (put_le 4 (Z.of_nat (length d)) ++ d ++ b) r'
  | consume_part d1 d2 fs rows :
      d1 ≠ [] → d2 ≠ [] →
      consume (at_field (Some (d1 ++ d2) :: fs) rows)
        (put_le 4 (Z.of_nat (length (d1 ++ d2))) ++ d1) (at_more d2 fs rows)
  | consume_more d fs rows b r' :
      d ≠ [] → consume (after_field fs rows) b r' →
      consume (at_more d fs rows) (d ++ b) r'
  | consume_more_part d1 d2 fs rows :
      d1 ≠ [] → d2 ≠ [] →
      consume (at_more (d1 ++ d2) fs rows) d1 (at_more d2 fs rows).

Create HintDb rds.
#[export] Hint Constructors consume : rds.

(** The buffers of a stream, one after the other: none is empty. *)
Inductive consumes : cursor → list bytes → cursor → Prop :=
  | consumes_nil r : consumes r [] r
  | consumes_cons r b r1 bs r2 :
      b ≠ [] → consume r b r1 → consumes r1 bs r2 → consumes r (b :: bs) r2.

#[export] Hint Constructors consumes : rds.

(** What the lengths and counts of the format can hold.  No field is as long as the
    length that stands for NULL. *)
Definition header_fits (h : ngx_http_rds_header_t) (cols : list ngx_http_rds_column_t) : Prop :=
  0 <= std_errcode h < 2 ^ 16 ∧ 0 <= drv_errcode h < 2 ^ 16
  ∧ Z.of_nat (length (errstr h)) < 2 ^ 16
  ∧ 0 <= affected_rows h < 2 ^ 64 ∧ 0 <= insert_id h < 2 ^ 64
  ∧ col_count h = Z.of_nat (length cols) ∧ col_count h < 2 ^ 16.

Definition col_fits (c : ngx_http_rds_column_t) : Prop :=
  0 <= std_type c < 2 ^ 16 ∧ 0 <= drv_type c < 2 ^ 16
  ∧ name c ≠ [] ∧ Z.of_nat (length (name c)) < 2 ^ 16.

Definition field_fits (f : field) : Prop :=
  match f with
  | None => True
  | Some d => Z.of_nat (length d) < NULL_LEN
  end.

(** * Theorems *)

(** ** Integers *)

Lemma put_le_length (n : nat) (z : Z) : length (put_le n z) = n.
Proof. revert z. induction n as [|n IH]; intros z; [done|]. simpl. by rewrite IH. Qed.

#[export] Hint Rewrite put_le_length : ngx_len.

Lemma get_put_le (n : nat) (z : Z) : 0 <= z < 256 ^ Z.of_nat n → get_le (put_le n z) = z.
Proof.
  revert z. induction n as [|n IH]; intros z Hz; [simpl in *; lia|].
  cbn [put_le get_le]. rewrite IH.
  - pose proof (Z.div_mod z 256). lia.
  - rewrite Nat2Z.inj_succ, Z.pow_succ_r in Hz by lia.
    split; [apply Z.div_pos; lia|]. apply Z.div_lt_upper_bound; lia.
Qed.

Lemma put_le_bytes (n : nat) (z : Z) : Forall is_byte (put_le n z).
Proof.
  revert z. induction n as [|n IH]; intros z; constructor; [|apply IH].
  unfold is_byte. pose proof (Z.mod_pos_bound z 256). lia.
Qed.

Lemma take_put_le (n : nat) (z : Z) (l : bytes) : take n (put_le n z ++ l) = put_le n z.
Proof. by rewrite take_app_le, take_ge by (rewrite put_le_length; lia). Qed.

Lemma drop_put_le (n : nat) (z : Z) (l : bytes) : drop n (put_le n z ++ l) = l.
Proof. rewrite drop_app_ge by (rewrite put_le_length; lia). by rewrite put_le_length, Nat.sub_diag. Qed.

Lemma take_length_app (a l : bytes) : take (Z.to_nat (Z.of_nat (length a))) (a ++ l) = a.
Proof. by rewrite Nat2Z.id, take_app_le, take_ge by lia. Qed.

Lemma drop_length_app (a l : bytes) : drop (Z.to_nat (Z.of_nat (length a))) (a ++ l) = l.
Proof. by rewrite Nat2Z.id, drop_app_length. Qed.

Lemma u16_put (z : Z) (l : bytes) : 0 <= z < 2 ^ 16 → u16 (put_le 2 z ++ l) = z.
Proof. intros H. unfold u16. rewrite take_put_le. by apply get_put_le. Qed.

Lemma u32_put (z : Z) (l : bytes) : 0 <= z < 2 ^ 32 → u32 (put_le 4 z ++ l) = z.
Proof. intros H. unfold u32. rewrite take_put_le. by apply get_put_le. Qed.

Lemma u64_put (z : Z) (l : bytes) : 0 <= z < 2 ^ 64 → u64 (put_le 8 z ++ l) = z.
Proof. intros H. unfold u64. rewrite take_put_le. by apply get_put_le. Qed.

(** ** The readers invert the format *)

Lemma header_bytes_length (h : ngx_http_rds_header_t) :
  Z.of_nat (length (header_bytes h)) = 30 + Z.of_nat (length (errstr h)).
Proof. unfold header_bytes. autorewrite with ngx_len. cbn [length]. lia. Qed.

Lemma parse_header_bytes (h : ngx_http_rds_header_t) cols (l : bytes) :
  header_fits h cols → ngx_http_rds_parse_header (header_bytes h ++ l) = Some (h, l).
Proof.
  intros (Hs & Hd & He & Ha & Hi & Hc & Hcc). unfold ngx_http_rds_parse_header.
  pose proof (header_bytes_length h).
  destruct (Z.ltb_spec (Z.of_nat (length (header_bytes h ++ l))) (1 + 4 + 1 + 2 + 2 + 2 + 0 + 8 + 8 + 2));
    [rewrite length_app in *; lia|].
  unfold header_bytes. rewrite <- !(assoc_L (++)). cbn [app lookup_total list_lookup_total Z.eqb negb].
  cbv zeta. change (drop 1 (?x :: ?l)) with l. rewrite drop_put_le.
  rewrite u32_put by done. cbn [Z.eqb negb Pos.eqb].
  change (drop 1 (?x :: ?l)) with l. rewrite !drop_put_le, !u16_put by lia.
  destruct (Z.ltb_spec (Z.of_nat (length (errstr h ++ put_le 8 (affected_rows h)
    ++ put_le 8 (insert_id h) ++ put_le 2 (col_count h) ++ l)))
    (Z.of_nat (length (errstr h)) + 8 + 8 + 2)); [autorewrite with ngx_len in *; lia|].
  rewrite take_length_app, drop_length_app, !drop_put_le, !u64_put, u16_put by lia.
  by destruct h.
Qed.

Lemma col_bytes_length (c : ngx_http_rds_column_t) :
  Z.of_nat (length (col_bytes c)) = 6 + Z.of_nat (length (name c)).
Proof. unfold col_bytes. autorewrite with ngx_len. lia. Qed.

Lemma parse_col_bytes (c : ngx_http_rds_column_t) (l : bytes) :
  col_fits c → ngx_http_rds_parse_col (col_bytes c ++ l) = Some (c, l).
Proof.
  intros (Hs & Hd & Hn & Hl). unfold ngx_http_rds_parse_col.
  pose proof (col_bytes_length c).
  destruct (Z.ltb_spec (Z.of_nat (length (col_bytes c ++ l))) (2 + 2 + 2)); [rewrite length_app in *; lia|].
  unfold col_bytes. rewrite <- !(assoc_L (++)). cbv zeta.
  rewrite !drop_put_le, !u16_put by lia.
  destruct (Z.eqb_spec (Z.of_nat (length (name c))) 0); [by destruct (name c)|].
  destruct (Z.ltb_spec (Z.of_nat (length (name c ++ l))) (Z.of_nat (length (name c))));
    [rewrite length_app in *; lia|].
  rewrite take_length_app, drop_length_app. by destruct c.
Qed.

(** ** Buffers can be joined *)

Lemma consume_app r b r1 b' r2 : consume r b r1 → consume r1 b' r2 → consume r (b ++ b') r2.
Proof.
  intros H. revert b' r2. induction H; intros b' r2 H2;
    rewrite <- ?(assoc_L (++)); cbn [app]; eauto with rds.
  - inversion H2; subst; [constructor].
  - inversion H2; subst.
    + rewrite app_nil_r. eauto with rds.
    + rewrite (assoc_L (++) d1). eauto with rds.
    + rewrite (assoc_L (++) d1).
      apply consume_part; [by destruct d1|done].
  - inversion H2; subst.
    + rewrite app_nil_r. eauto with rds.
    + rewrite (assoc_L (++) d1). constructor; [by destruct d1|done].
    + rewrite (assoc_L (++) d1). constructor; [by destruct d1|done].
Qed.

Lemma consumes_app r a r1 b r2 : consumes r a r1 → consumes r1 b r2 → consumes r (a ++ b) r2.
Proof. induction 1; simpl; eauto with rds. Qed.

Lemma consumes_snoc r a r1 b r2 :
  consumes r a r1 → b ≠ [] → consume r1 b r2 → consumes r (a ++ [b]) r2.
Proof. intros. eapply consumes_app; eauto with rds. Qed.

(** The readers of the format give back every header and column that the format can
    hold, whatever follows it in the buffer. *)
Theorem rds_parse_roundtrip (h : ngx_http_rds_header_t) (cols : list ngx_http_rds_column_t)
    (c : ngx_http_rds_column_t) (l : bytes) :
  header_fits h cols → col_fits c →
  ngx_http_rds_parse_header (header_bytes h ++ l) = Some (h, l)
  ∧ ngx_http_rds_parse_col (col_bytes c ++ l) = Some (c, l).
Proof. split; [by eapply parse_header_bytes|by apply parse_col_bytes]. Qed.

Lemma rds_parse_roundtrip_witness :
  ngx_http_rds_parse_col (col_bytes (mk_column rds_col_type_integer 3 (bs "id")) ++ [1])
  = Some (mk_column rds_col_type_integer 3 (bs "id"), [1]).
Proof.
  apply (rds_parse_roundtrip (mk_header 0 0 (bs "x") 1 2 0) []
    (mk_column rds_col_type_integer 3 (bs "id")) [1]).
  - unfold header_fits. vm_compute. intuition discriminate.
  - unfold col_fits. vm_compute. intuition discriminate.
Defined.

End Rds.
