(* ===== verification/RdsJsonOut.v ===== *)
(** The rds-json filter, its output half: the context of a request, the output buffers
    and the functions that write JSON into them, from
    src/rds-json-nginx-module-master/src/ngx_http_rds_json_output.c,
    ngx_http_rds_json_util.c and ngx_http_rds_json_filter_module.h.

    A text is written in three moves, as in the code: [request_mem] finds room for it
    (behind the data of the current buffer or, when it does not fit there, in a
    postponed area), the text is stored, and [submit_mem] makes it part of the output,
    copying postponed data through as many buffers as it takes.  Every function
    computes the size of its text before it writes it.  Allocations succeed. *)

From S2P Require Import Prelude NgxNumber NgxEscape SetMisc Redis2 RdsStream.

Open Scope Z_scope.

Module RdsJson.

Export Rds.

(** ** Data *)

(** [ngx_http_rds_json_format_t] *)
Definition json_format_normal : Z := 0.
Definition json_format_compact : Z := 1.
Definition json_format_pretty : Z := 2.

Inductive ngx_http_rds_json_state_t :=
  | state_expect_header | state_expect_col | state_expect_row | state_expect_field
  | state_expect_more_field_data | state_done.

(** A buffer of the output: the bytes between [pos] and [last]. *)
Record obuf := mk_obuf { data : bytes; last_buf : bool }.

Definition set_last_buf (v : bool) (b : obuf) : obuf := mk_obuf (data b) v.

(** The fields of [ngx_http_rds_json_ctx_t] that deal with the output.  [written] is
    what was stored behind [out_buf->last]; [cached] is the size of the cached area,
    [postponed] the data between [postponed.pos] and [postponed.last]. *)
Record out_mem := mk_mem {
  out : list obuf;
  busy_bufs : list obuf;
  free_bufs : list obuf;
  out_buf : obuf;
  written : bytes;
  cached : option Z;
  postponed : option bytes;
  avail_out : Z;
  seen_stream_end : bool
}.

Definition set_out (v : list obuf) (s : out_mem) : out_mem :=
  mk_mem v (busy_bufs s) (free_bufs s) (out_buf s) (written s) (cached s) (postponed s)
    (avail_out s) (seen_stream_end s).
Definition set_busy_bufs (v : list obuf) (s : out_mem) : out_mem :=
  mk_mem (out s) v (free_bufs s) (out_buf s) (written s) (cached s) (postponed s)
    (avail_out s) (seen_stream_end s).
Definition set_free_bufs (v : list obuf) (s : out_mem) : out_mem :=
  mk_mem (out s) (busy_bufs s) v (out_buf s) (written s) (cached s) (postponed s)
    (avail_out s) (seen_stream_end s).
Definition set_out_buf (v : obuf) (s : out_mem) : out_mem :=
  mk_mem (out s) (busy_bufs s) (free_bufs s) v (written s) (cached s) (postponed s)
    (avail_out s) (seen_stream_end s).
Definition set_written (v : bytes) (s : out_mem) : out_mem :=
  mk_mem (out s) (busy_bufs s) (free_bufs s) (out_buf s) v (cached s) (postponed s)
    (avail_out s) (seen_stream_end s).
Definition set_cached (v : option Z) (s : out_mem) : out_mem :=
  mk_mem (out s) (busy_bufs s) (free_bufs s) (out_buf s) (written s) v (postponed s)
    (avail_out s) (seen_stream_end s).
Definition set_postponed (v : option bytes) (s : out_mem) : out_mem :=
  mk_mem (out s) (busy_bufs s) (free_bufs s) (out_buf s) (written s) (cached s) v
    (avail_out s) (seen_stream_end s).
Definition set_avail_out (v : Z) (s : out_mem) : out_mem :=
  mk_mem (out s) (busy_bufs s) (free_bufs s) (out_buf s) (written s) (cached s)
    (postponed s) v (seen_stream_end s).
Definition set_seen_stream_end (v : bool) (s : out_mem) : out_mem :=
  mk_mem (out s) (busy_bufs s) (free_bufs s) (out_buf s) (written s) (cached s)
    (postponed s) (avail_out s) v.

(** [ngx_http_rds_json_ctx_t]; the fields [col_name], [field_offset] and [field_total]
    are never used. *)
Record ngx_http_rds_json_ctx_t := mk_ctx {
  state : ngx_http_rds_json_state_t;
  cols : list ngx_http_rds_column_t;
  ctx_col_count : Z;
  cur_col : Z;
  row : Z;
  field_data_rest : Z;
  header_sent : bool;
  generated_col_names : bool;
  mem : out_mem
}.

Definition set_state (v : ngx_http_rds_json_state_t) (s : ngx_http_rds_json_ctx_t) : ngx_http_rds_json_ctx_t :=
  mk_ctx v (cols s) (ctx_col_count s) (cur_col s) (row s) (field_data_rest s)
    (header_sent s) (generated_col_names s) (mem s).
Definition set_cols (v : list ngx_http_rds_column_t) (s : ngx_http_rds_json_ctx_t) : ngx_http_rds_json_ctx_t :=
  mk_ctx (state s) v (ctx_col_count s) (cur_col s) (row s) (field_data_rest s)
    (header_sent s) (generated_col_names s) (mem s).
Definition set_ctx_col_count (v : Z) (s : ngx_http_rds_json_ctx_t) : ngx_http_rds_json_ctx_t :=
  mk_ctx (state s) (cols s) v (cur_col s) (row s) (field_data_rest s) (header_sent s)
    (generated_col_names s) (mem s).
Definition set_cur_col (v : Z) (s : ngx_http_rds_json_ctx_t) : ngx_http_rds_json_ctx_t :=
  mk_ctx (state s) (cols s) (ctx_col_count s) v (row s) (field_data_rest s) (header_sent s)
    (generated_col_names s) (mem s).
Definition set_row (v : Z) (s : ngx_http_rds_json_ctx_t) : ngx_http_rds_json_ctx_t :=
  mk_ctx (state s) (cols s) (ctx_col_count s) (cur_col s) v (field_data_rest s)
    (header_sent s) (generated_col_names s) (mem s).
Definition set_field_data_rest (v : Z) (s : ngx_http_rds_json_ctx_t) : ngx_http_rds_json_ctx_t :=
  mk_ctx (state s) (cols s) (ctx_col_count s) (cur_col s) (row s) v (header_sent s)
    (generated_col_names s) (mem s).
Definition set_header_sent (v : bool) (s : ngx_http_rds_json_ctx_t) : ngx_http_rds_json_ctx_t :=
  mk_ctx (state s) (cols s) (ctx_col_count s) (cur_col s) (row s) (field_data_rest s) v
    (generated_col_names s) (mem s).
Definition set_generated_col_names (v : bool) (s : ngx_http_rds_json_ctx_t) : ngx_http_rds_json_ctx_t :=
  mk_ctx (state s) (cols s) (ctx_col_count s) (cur_col s) (row s) (field_data_rest s)
    (header_sent s) v (mem s).
Definition set_mem (v : out_mem) (s : ngx_http_rds_json_ctx_t) : ngx_http_rds_json_ctx_t :=
  mk_ctx (state s) (cols s) (ctx_col_count s) (cur_col s) (row s) (field_data_rest s)
    (header_sent s) (generated_col_names s) v.

Definition no_column : ngx_http_rds_column_t := mk_column 0 0 [].

Definition set_col (i : Z) (c : ngx_http_rds_column_t) (s : ngx_http_rds_json_ctx_t)
    : ngx_http_rds_json_ctx_t :=
  set_cols (<[Z.to_nat i := c]> (cols s)) s.

Definition get_col (i : Z) (s : ngx_http_rds_json_ctx_t) : ngx_http_rds_column_t :=
  default no_column (cols s !! Z.to_nat i).

(** ** ngx_http_rds_json_util.c *)

Definition json_letter (c : Z) : option Z :=
  if c =? 13 then Some "r"%ch
  else if c =? 10 then Some "n"%ch
  else if c =? "\"%ch then Some "\"%ch
  else if c =? 34 then Some 34
  else if c =? 12 then Some "f"%ch
  else if c =? 8 then Some "b"%ch
  else if c =? 9 then Some "t"%ch
  else None.

(** The first pass, [dst == NULL]. *)
Fixpoint ngx_http_rds_json_escape_count (src : bytes) : Z :=
  match src with
  | [] => 0
  | c :: src =>
      (if Z.land c 0x80 =? 0 then
         match json_letter c with
         | Some _ => 1
         | None => if c <? 32 then 5 else 0
         end
       else 0) + ngx_http_rds_json_escape_count src
  end.

Fixpoint ngx_http_rds_json_escape_json_str (src : bytes) : bytes :=
  match src with
  | [] => []
  | c :: src =>
      (if Z.land c 0x80 =? 0 then
         match json_letter c with
         | Some e => ["\"%ch; e]
         | None =>
             if c <? 32
             then ["\"%ch; "u"%ch; "0"%ch; "0"%ch; hex_digit hex_lower (Z.shiftr c 4);
                   hex_digit hex_lower (Z.land c 15)]
             else [c]
         end
       else [c]) ++ ngx_http_rds_json_escape_json_str src
  end.

(** [if (escape == 0) ngx_copy(...) else escape_json_str(...)]. *)
Definition copy_escaped (escape : Z) (src : bytes) : bytes :=
  if escape =? 0 then src else ngx_http_rds_json_escape_json_str src.

Definition ngx_http_rds_json_test_content_type (content_type : bytes) : Z :=
  if negb (length content_type =? length rds_content_type)%nat
     || negb (bytes_eqb content_type rds_content_type)
  then NGX_DECLINED else NGX_OK.

(** ** ngx_get_num_size *)

Fixpoint rds_num_size (fuel : nat) (i n : Z) : Z :=
  match fuel with
  | O => n
  | S fuel => let i := i / 10 in let n := n + 1 in if i >? 0 then rds_num_size fuel i n else n
  end.

Definition rds_get_num_size (i : Z) : Z := rds_num_size NGX_INT64_LEN i 0.

(** [ngx_snprintf(last, room, "%uD" or "%uL", n)]. *)
Definition snprintf_u (room n : Z) : bytes := ngx_sprintf_num room n " "%ch 0 0.

Definition NGX_UINT16_LEN : Z := 5.
Definition NGX_UINT64_LEN : Z := 20.

(** ** ngx_buf.c *)

(** [ngx_chain_update_chains]: what was sent becomes busy, and the [sent] buffers at the
    front of the busy ones that have nothing left to send are free again. *)
Definition ngx_chain_update_chains {B : Type} (reset : B → B) (sent : nat) (free busy out : list B)
    : list B * list B :=
  let busy := busy ++ out in
  (rev (map reset (take sent busy)) ++ free, drop sent busy).

(** ** The output buffers *)

Section Memory.
Variable buf_size : Z.

Definition ngx_http_rds_json_get_buf (m : out_mem) : out_mem :=
  if negb (avail_out m =? 0) then m
  else
    let m :=
      match free_bufs m with
      | b :: fb => set_free_bufs fb (set_out_buf b m)
      | [] => set_out_buf (mk_obuf [] false) m
      end in
    set_written [] (set_avail_out buf_size m).

(** The cached area is enlarged when it is too small for [len] bytes. *)
Definition ngx_http_rds_json_get_postponed (len : Z) (m : out_mem) : out_mem :=
  match cached m with
  | Some c => if c <? len then set_cached (Some len) m else m
  | None => set_cached (Some len) m
  end.

Definition ngx_http_rds_json_request_mem (len : Z) (m : out_mem) : out_mem :=
  let m := ngx_http_rds_json_get_buf m in
  if avail_out m <? len then
    set_postponed (Some (replicate (Z.to_nat len) 0)) (ngx_http_rds_json_get_postponed len m)
  else m.

(** The text goes where [request_mem] pointed. *)
Definition store (text : bytes) (m : out_mem) : out_mem :=
  match postponed m with
  | Some _ => set_postponed (Some text) m
  | None => set_written text m
  end.

Definition append_out_buf (d : bytes) (m : out_mem) : out_mem :=
  set_out_buf (mk_obuf (data (out_buf m) ++ d) (last_buf (out_buf m))) m.

(** [cl->buf = ctx->out_buf; *ctx->last_out = cl;] *)
Definition link_out_buf (m : out_mem) : out_mem := set_out (out m ++ [out_buf m]) m.

(** The loop that copies postponed data.  The buffer that is linked when nothing is
    left gets [last_buf]: it is the last one of [out]. *)
Fixpoint copy_postponed (fuel : nat) (last : bool) (m : out_mem) : option out_mem :=
  match fuel with
  | O => None
  | S fuel =>
      let p := default [] (postponed m) in
      let len := Z.min (Z.of_nat (length p)) (avail_out m) in
      let m := append_out_buf (take (Z.to_nat len) p) m in
      let m := set_avail_out (avail_out m - len) m in
      let p := drop (Z.to_nat len) p in
      let m := set_postponed (if (length p =? 0)%nat then None else Some p) m in
      if avail_out m >? 0 then Some m
      else
        match postponed m with
        | None => Some (link_out_buf (set_out_buf (set_last_buf last (out_buf m)) m))
        | Some _ => copy_postponed fuel last (ngx_http_rds_json_get_buf (link_out_buf m))
        end
  end.

(** [None] is a loop that does not end. *)
Definition ngx_http_rds_json_submit_mem (len : Z) (last : bool) (m : out_mem) : option (Z * out_mem) :=
  match postponed m with
  | Some p =>
      match copy_postponed (S (length p)) last m with
      | Some m => Some (NGX_OK, m)
      | None => None
      end
  | None =>
      let m := append_out_buf (take (Z.to_nat len) (written m)) m in
      let m := set_avail_out (avail_out m - len) m in
      let m := set_out_buf (set_last_buf last (out_buf m)) m in
      Some (NGX_OK, if avail_out m =? 0 then link_out_buf m else m)
  end.

End Memory.

(** ** Configuration *)

Section Values.
Context {V : Type}.

(** The expressions of the configuration: the script engine of nginx gives their
    values for a request. *)
Variable evaluate : V → option bytes.

Record ngx_http_rds_json_property_t := mk_property {
  prop_key : bytes;
  prop_value : Redis2.complex_value (V := V)
}.

Record ngx_http_rds_json_loc_conf_t := mk_conf {
  enabled : Z;
  format : Z;
  content_type : option bytes;   (* None: NULL *)
  root : bytes;
  success : bytes;
  user_props : option (list ngx_http_rds_json_property_t);
  errcode_key : bytes;
  errstr_key : bytes;
  buf_size : Z;
  errcode : bytes;
  conf_errstr : option (Redis2.complex_value (V := V))
}.

Variable conf : ngx_http_rds_json_loc_conf_t.
Variable is_main : bool.   (* r == r->main *)

(** ** Writing *)

(** The end of every output function: the text goes to the memory requested for it and
    is submitted. *)
Definition write_text (size : Z) (text : option bytes) (check last : bool)
    (s : ngx_http_rds_json_ctx_t) : option (Z * ngx_http_rds_json_ctx_t) :=
  let m := ngx_http_rds_json_request_mem (buf_size conf) size (mem s) in
  match text with
  | None => Some (NGX_ERROR, set_mem m s)
  | Some text =>
      let m := store text m in
      if check && negb (Z.of_nat (length text) =? size) then Some (NGX_ERROR, set_mem m s)
      else
        match ngx_http_rds_json_submit_mem (buf_size conf) size last m with
        | Some (rc, m) => Some (rc, set_mem m s)
        | None => None
        end
  end.

Definition see_stream_end (s : ngx_http_rds_json_ctx_t) : ngx_http_rds_json_ctx_t :=
  set_mem (set_seen_stream_end true (mem s)) s.

Definition ngx_http_rds_json_output_literal (text : bytes) (last : bool)
    (s : ngx_http_rds_json_ctx_t) : option (Z * ngx_http_rds_json_ctx_t) :=
  if last
  then write_text (Z.of_nat (length text)) (Some text) false is_main (see_stream_end s)
  else write_text (Z.of_nat (length text)) (Some text) false false s.

(** The values of the user properties, each with the size of its escapes. *)
Fixpoint eval_props (props : list ngx_http_rds_json_property_t) : option (list (bytes * bytes * Z)) :=
  match props with
  | [] => Some []
  | p :: props =>
      match Redis2.ngx_http_complex_value evaluate (prop_value p) with
      | None => None
      | Some v =>
          match eval_props props with
          | None => None
          | Some vs => Some ((prop_key p, v, ngx_http_rds_json_escape_count v) :: vs)
          end
      end
  end.

Definition user_prop_list : list ngx_http_rds_json_property_t := default [] (user_props conf).

Fixpoint props_size (vs : list (bytes * bytes * Z)) : Z :=
  match vs with
  | [] => 0
  | (key, v, escape) :: vs =>
      4 + Z.of_nat (length key) + Z.of_nat (length v) + escape + props_size vs
  end.

Fixpoint props_text (vs : list (bytes * bytes * Z)) : bytes :=
  match vs with
  | [] => []
  | (key, v, escape) :: vs =>
      key ++ [":"%ch] ++ [34] ++ copy_escaped escape v ++ [34] ++ [","%ch] ++ props_text vs
  end.

(** [ngx_http_rds_json_output_header]: the result has no columns. *)
Definition header_size (h : ngx_http_rds_header_t) (vs : list (bytes * bytes * Z)) : Z :=
  1 + Z.of_nat (length (errcode_key conf)) + 1 + rds_get_num_size (std_errcode h) + 1
  + (if negb (length (success conf) =? 0)%nat
     then Z.of_nat (length (success conf)) + 2 + (if std_errcode h =? 0 then 4 else 5) else 0)
  + props_size vs
  + (if negb (length (errstr h) =? 0)%nat
     then 1 + Z.of_nat (length (errstr_key conf)) + 1 + 1 + Z.of_nat (length (errstr h))
          + ngx_http_rds_json_escape_count (errstr h) + 1 else 0)
  + (if negb (insert_id h =? 0) then 13 + rds_get_num_size (insert_id h) else 0)
  + (if negb (affected_rows h =? 0) then 17 + rds_get_num_size (affected_rows h) else 0).

Definition header_text (h : ngx_http_rds_header_t) (vs : list (bytes * bytes * Z)) : bytes :=
  ["{"%ch]
  ++ (if negb (length (success conf) =? 0)%nat
      then success conf ++ (if std_errcode h =? 0 then bs ":true," else bs ":false,") else [])
  ++ props_text vs
  ++ errcode_key conf ++ [":"%ch] ++ snprintf_u NGX_UINT16_LEN (std_errcode h)
  ++ (if negb (length (errstr h) =? 0)%nat
      then [","%ch] ++ errstr_key conf ++ [":"%ch] ++ [34]
           ++ copy_escaped (ngx_http_rds_json_escape_count (errstr h)) (errstr h) ++ [34] else [])
  ++ (if negb (insert_id h =? 0)
      then [","%ch; 34] ++ bs "insert_id" ++ [34; ":"%ch]
           ++ snprintf_u NGX_UINT64_LEN (insert_id h) else [])
  ++ (if negb (affected_rows h =? 0)
      then [","%ch; 34] ++ bs "affected_rows" ++ [34; ":"%ch]
           ++ snprintf_u NGX_UINT64_LEN (affected_rows h) else [])
  ++ ["}"%ch].

Definition ngx_http_rds_json_output_header (h : ngx_http_rds_header_t)
    (s : ngx_http_rds_json_ctx_t) : option (Z * ngx_http_rds_json_ctx_t) :=
  match eval_props user_prop_list with
  | None => Some (NGX_ERROR, s)
  | Some vs =>
      let size := header_size h vs in
      let text := header_text h vs in
      if negb (Z.of_nat (length text) =? size)
      then write_text size (Some text) true false s
      else write_text size (Some text) true is_main (see_stream_end s)
  end.

(** [ngx_http_rds_json_output_props]: what comes before the rows when [rds_json_root]
    is set. *)
Definition ngx_http_rds_json_output_props (s : ngx_http_rds_json_ctx_t)
    : option (Z * ngx_http_rds_json_ctx_t) :=
  match eval_props user_prop_list with
  | None => Some (NGX_ERROR, s)
  | Some vs =>
      let size := 2 + Z.of_nat (length (root conf))
        + (if negb (length (success conf) =? 0)%nat then 6 + Z.of_nat (length (success conf)) else 0)
        + props_size vs in
      let text := ["{"%ch]
        ++ (if negb (length (success conf) =? 0)%nat then success conf ++ bs ":true," else [])
        ++ props_text vs ++ root conf ++ [":"%ch] in
      write_text size (Some text) true false s
  end.

(** [ngx_http_rds_json_output_cols]: the first row of the compact format. *)
Fixpoint cols_size (cs : list ngx_http_rds_column_t) (i n : Z) : Z :=
  match cs with
  | [] => 0
  | c :: cs =>
      Z.of_nat (length (name c)) + ngx_http_rds_json_escape_count (name c) + 2
      + (if negb (i =? n - 1) then 1 else 0) + cols_size cs (i + 1) n
  end.

Fixpoint cols_text (cs : list ngx_http_rds_column_t) (i n : Z) : bytes :=
  match cs with
  | [] => []
  | c :: cs =>
      [34] ++ ngx_http_rds_json_escape_json_str (name c) ++ [34]
      ++ (if negb (i =? n - 1) then [","%ch] else []) ++ cols_text cs (i + 1) n
  end.

Definition ngx_http_rds_json_output_cols (s : ngx_http_rds_json_ctx_t)
    : option (Z * ngx_http_rds_json_ctx_t) :=
  let cs := take (Z.to_nat (ctx_col_count s)) (cols s) in
  let size := 2 + cols_size cs 0 (ctx_col_count s) in
  let text := ["["%ch] ++ cols_text cs 0 (ctx_col_count s) ++ ["]"%ch] in
  write_text size (Some text) false false (set_generated_col_names true s).

(** *** [ngx_http_rds_json_output_field] *)

Definition rough_type (c : ngx_http_rds_column_t) : Z := Z.land (std_type c) 0xc000.

Definition digit_char (c : Z) : bool := negb ((c <? "0"%ch) || (c >? "9"%ch)).

(** [for (p = data, i = 0; i < len; i++, p++)]: a minus sign is skipped at [i == 0]. *)
Definition int_chars (d : bytes) : bool :=
  match d with
  | [] => true
  | c :: d' => if c =? "-"%ch then forallb digit_char d' else forallb digit_char d
  end.

(** [bool_val]; [None] is an invalid boolean. *)
Definition bool_value (d : bytes) (rest : Z) : option bool :=
  match d with
  | [] => None
  | c :: _ =>
      if (c =? "0"%ch) || (c =? "f"%ch) || (c =? "F"%ch) || (c =? "1"%ch) || (c =? "t"%ch)
         || (c =? "T"%ch)
      then
        if negb (length d =? 1)%nat || negb (rest =? 0) then None
        else Some (negb ((c =? "0"%ch) || (c =? "f"%ch) || (c =? "F"%ch)))
      else None
  end.

(** The size of the value: the first switch on the type of the column. *)
Definition value_size (c : ngx_http_rds_column_t) (d : bytes) (rest : Z) (is_null : bool) : option Z :=
  if is_null then Some 4
  else if (length d =? 0)%nat then Some 2
  else if rough_type c =? rds_rough_col_type_float then Some (Z.of_nat (length d))
  else if rough_type c =? rds_rough_col_type_int then
    if int_chars d then Some (Z.of_nat (length d)) else None
  else if rough_type c =? rds_rough_col_type_bool then
    match bool_value d rest with
    | None => None
    | Some b => Some (if b then 4 else 5)
    end
  else Some (1 + Z.of_nat (length d) + ngx_http_rds_json_escape_count d
             + (if rest =? 0 then 1 else 0)).

(** The value: the second switch. *)
Definition value_text (c : ngx_http_rds_column_t) (d : bytes) (rest : Z) (is_null : bool) : bytes :=
  if is_null then bs "null"
  else if (length d =? 0)%nat then [34; 34]
  else if (rough_type c =? rds_rough_col_type_int) || (rough_type c =? rds_rough_col_type_float)
  then d
  else if rough_type c =? rds_rough_col_type_bool then
    if default false (bool_value d rest) then bs "true" else bs "false"
  else [34] ++ copy_escaped (ngx_http_rds_json_escape_count d) d
       ++ (if rest =? 0 then [34] else []).

Definition lead_size (s : ngx_http_rds_json_ctx_t) (c : ngx_http_rds_column_t) : option Z :=
  if format conf =? json_format_normal then
    Some ((if cur_col s =? 0 then (if row s =? 1 then 2 else 3) else 2)
          + (Z.of_nat (length (name c)) + ngx_http_rds_json_escape_count (name c) + 2))
  else if format conf =? json_format_compact then Some (if cur_col s =? 0 then 2 else 1)
  else None.

Definition lead_text (s : ngx_http_rds_json_ctx_t) (c : ngx_http_rds_column_t) : option bytes :=
  if format conf =? json_format_normal then
    Some ((if cur_col s =? 0 then (if row s =? 1 then ["{"%ch] else [","%ch; "{"%ch])
           else [","%ch])
          ++ [34] ++ copy_escaped (ngx_http_rds_json_escape_count (name c)) (name c)
          ++ [34; ":"%ch])
  else if format conf =? json_format_compact then
    Some (if cur_col s =? 0 then [","%ch; "["%ch] else [","%ch])
  else None.

(** The end of a row, after the last byte of its last column. *)
Definition last_column (s : ngx_http_rds_json_ctx_t) : bool :=
  (field_data_rest s =? 0) && (cur_col s =? ctx_col_count s - 1).

Definition tail_size (s : ngx_http_rds_json_ctx_t) : option Z :=
  if last_column s then
    if format conf =? json_format_normal then Some 1
    else if format conf =? json_format_compact then Some 1
    else None
  else Some 0.

Definition tail_text (s : ngx_http_rds_json_ctx_t) : option bytes :=
  if last_column s then
    if format conf =? json_format_normal then Some ["}"%ch]
    else if format conf =? json_format_compact then Some ["]"%ch]
    else None
  else Some [].

Definition field_size (s : ngx_http_rds_json_ctx_t) (d : bytes) (is_null : bool) : option Z :=
  let c := get_col (cur_col s) s in
  l ← lead_size s c;
  if (length d =? 0)%nat && (field_data_rest s >? 0) then None
  else
    v ← value_size c d (field_data_rest s) is_null;
    t ← tail_size s;
    Some (l + v + t).

Definition field_text (s : ngx_http_rds_json_ctx_t) (d : bytes) (is_null : bool) : option bytes :=
  let c := get_col (cur_col s) s in
  l ← lead_text s c;
  t ← tail_text s;
  Some (l ++ value_text c d (field_data_rest s) is_null ++ t).

Definition ngx_http_rds_json_output_field (d : bytes) (is_null : bool)
    (s : ngx_http_rds_json_ctx_t) : option (Z * ngx_http_rds_json_ctx_t) :=
  match field_size s d is_null with
  | None => Some (NGX_ERROR, s)
  | Some size => write_text size (field_text s d is_null) true false s
  end.

(** *** [ngx_http_rds_json_output_more_field_data] *)

Definition more_size (s : ngx_http_rds_json_ctx_t) (d : bytes) : option Z :=
  let c := get_col (cur_col s) s in
  v ← (if rough_type c =? rds_rough_col_type_int then
         if forallb digit_char d then Some (Z.of_nat (length d)) else None
       else if rough_type c =? rds_rough_col_type_float then Some (Z.of_nat (length d))
       else if rough_type c =? rds_rough_col_type_bool then Some 0
       else Some (Z.of_nat (length d) + ngx_http_rds_json_escape_count d
                  + (if field_data_rest s =? 0 then 1 else 0)));
  t ← tail_size s;
  Some (v + t).

Definition more_text (s : ngx_http_rds_json_ctx_t) (d : bytes) : option bytes :=
  let c := get_col (cur_col s) s in
  t ← tail_text s;
  Some ((if (rough_type c =? rds_rough_col_type_int) || (rough_type c =? rds_rough_col_type_float)
         then d
         else if rough_type c =? rds_rough_col_type_bool then []
         else copy_escaped (ngx_http_rds_json_escape_count d) d
              ++ (if field_data_rest s =? 0 then [34] else [])) ++ t).

Definition ngx_http_rds_json_output_more_field_data (d : bytes) (s : ngx_http_rds_json_ctx_t)
    : option (Z * ngx_http_rds_json_ctx_t) :=
  match more_size s d with
  | None => Some (NGX_ERROR, s)
  | Some size => write_text size (more_text s d) true false s
  end.

End Values.

(** * Theorems *)

(** ** The output buffers *)

(** The buffers that hold the output so far: those that are linked and, when there is
    room in it, the current one. *)
Definition fin (m : out_mem) : list obuf :=
  out m ++ (if avail_out m =? 0 then [] else [out_buf m]).

Definition content (m : out_mem) : bytes := concat (map data (fin m)).

Definition unmarked (b : obuf) : Prop := last_buf b = false.

(** The invariant of the output.  Every buffer has [size] bytes of memory. *)
Record mem_inv (size : Z) (m : out_mem) : Prop := {
  inv_avail : 0 <= avail_out m <= size;
  inv_room : avail_out m ≠ 0 → Z.of_nat (length (data (out_buf m))) + avail_out m = size;
  inv_postponed : postponed m = None;
  inv_free : Forall (fun b => b = mk_obuf [] false) (free_bufs m);
  inv_busy : Forall unmarked (busy_bufs m);
  inv_bounds : Forall (fun b => Z.of_nat (length (data b)) <= size) (fin m)
}.

(** [m'] is [m] with [text] written; [marked] says whether the last buffer is marked. *)
Record wrote (size : Z) (text : bytes) (marked : out_mem → bool) (m m' : out_mem) : Prop := {
  wrote_inv : mem_inv size m';
  wrote_content : content m' = content m ++ text;
  wrote_busy : busy_bufs m' = busy_bufs m;
  wrote_seen : seen_stream_end m' = seen_stream_end m;
  wrote_marks : ∃ init b, fin m' = init ++ [b] ∧ Forall unmarked init ∧ last_buf b = marked m'
}.

(** Whether [text] fits in the current buffer, or in a new one. *)
Definition fits (size : Z) (text : bytes) (m : out_mem) : bool :=
  Z.of_nat (length text) <=? (if avail_out m =? 0 then size else avail_out m).

Lemma fin_open (m : out_mem) : avail_out m ≠ 0 → fin m = out m ++ [out_buf m].
Proof. intros H. unfold fin. by rewrite (proj2 (Z.eqb_neq _ 0)). Qed.

Lemma fin_closed (m : out_mem) : avail_out m = 0 → fin m = out m.
Proof. intros H. unfold fin. by rewrite H, app_nil_r. Qed.

Lemma content_open (m : out_mem) :
  avail_out m ≠ 0 → content m = concat (map data (out m)) ++ data (out_buf m).
Proof.
  intros H. unfold content. rewrite fin_open, map_app, concat_app by done. cbn. by rewrite app_nil_r.
Qed.

Lemma content_closed (m : out_mem) : avail_out m = 0 → content m = concat (map data (out m)).
Proof. intros H. unfold content. by rewrite fin_closed. Qed.

Section Memory_proofs.
Context {size : Z} (Hsize : 0 < size).

Lemma get_buf_spec (m : out_mem) :
  mem_inv size m → Forall unmarked (fin m) →
  let m' := ngx_http_rds_json_get_buf size m in
  mem_inv size m' ∧ Forall unmarked (fin m') ∧ content m' = content m
  ∧ 0 < avail_out m' ∧ busy_bufs m' = busy_bufs m ∧ seen_stream_end m' = seen_stream_end m
  ∧ avail_out m' = (if avail_out m =? 0 then size else avail_out m).
Proof.
  intros [Ha Hr Hp Hf Hy Hb] Hu. unfold ngx_http_rds_json_get_buf.
  destruct (Z.eqb_spec (avail_out m) 0) as [E|E]; cbn [negb].
  2: { split_and!; try done; lia. }
  unfold fin in Hb, Hu. rewrite E in Hb, Hu. cbn [Z.eqb] in Hb, Hu. rewrite app_nil_r in Hb, Hu.
  assert (∃ fb, Forall (fun b => b = mk_obuf [] false) fb ∧
    match free_bufs m with
    | b :: fb => set_free_bufs fb (set_out_buf b m)
    | [] => set_out_buf (mk_obuf [] false) m
    end = set_free_bufs fb (set_out_buf (mk_obuf [] false) m)) as (fb & Hfb & ->).
  { destruct (free_bufs m) as [|b fb] eqn:Ef; [exists []; split; [done|]; destruct m; simpl in *; by subst|].
    apply Forall_cons in Hf as [-> Hf]. by exists fb. }
  unfold content, fin. cbn. rewrite (proj2 (Z.eqb_neq size 0)) by lia. rewrite E. cbn [Z.eqb].
  split_and!; try done; try lia.
  - split; cbn; try done; try lia. unfold fin. cbn. rewrite (proj2 (Z.eqb_neq size 0)) by lia.
    apply Forall_app_2; [done|]. repeat constructor. cbn. lia.
  - apply Forall_app_2; [done|]. by repeat constructor.
  - rewrite !map_app, !concat_app. by cbn.
Qed.

(** The loop that copies postponed data ends, and puts it all behind the output. *)
Lemma copy_postponed_spec (fuel : nat) (last : bool) (m : out_mem) (p : bytes) :
  mem_inv size (set_postponed None m) → Forall unmarked (fin m) → 0 < avail_out m →
  postponed m = Some p → (length p < fuel)%nat →
  ∃ m', copy_postponed size fuel last m = Some m'
        ∧ wrote size p (fun m' => last && (avail_out m' =? 0)) m m'.
Proof.
  revert m p. induction fuel as [|fuel IH]; intros m p Hm Hu Ha Hp Hl; [lia|].
  cbn [copy_postponed]. rewrite Hp. change (default [] (Some p)) with p. cbv zeta.
  destruct Hm as [Ha' Hr _ Hf Hy Hb]. cbn in Ha', Hr, Hf, Hy. unfold fin in Hb, Hu. cbn in Hb.
  assert (En : (avail_out m =? 0) = false) by lia. rewrite En in Hb, Hu.
  apply Forall_app in Hb as [Hb1 Hb2]. apply Forall_app in Hu as [Hu1 Hu2].
  inversion Hu2 as [|? ? Hu3 _]; subst. unfold unmarked in Hu3. specialize (Hr ltac:(lia)).
  remember (Z.min (Z.of_nat (length p)) (avail_out m)) as len eqn:Elen.
  cbn [avail_out set_avail_out append_out_buf set_out_buf set_postponed postponed].
  assert (Ec : content m = concat (map data (out m)) ++ data (out_buf m)).
  { unfold content, fin. rewrite En.
    rewrite map_app, concat_app. cbn. by rewrite app_nil_r. }
  destruct (Z.gtb_spec (avail_out m - len) 0) as [H1|H1].
  - rewrite take_ge, drop_ge by lia. eexists. split; [done|].
    split.
    + split; unfold fin; cbn; rewrite ?(proj2 (Z.eqb_neq (avail_out m - len) 0)) by lia;
        rewrite ?length_app; try done; try lia.
      apply Forall_app_2; [done|]. repeat constructor. cbn. rewrite length_app. lia.
    + rewrite Ec. unfold content, fin. cbn. rewrite (proj2 (Z.eqb_neq (avail_out m - len) 0)) by lia.
      rewrite map_app, concat_app. cbn. by rewrite app_nil_r, <- (assoc_L (++)).
    + done.
    + done.
    + exists (out m), (mk_obuf (data (out_buf m) ++ p) (last_buf (out_buf m))).
      unfold fin. cbn. rewrite (proj2 (Z.eqb_neq (avail_out m - len) 0)) by lia. split_and!; try done.
      cbn. by rewrite Hu3, andb_false_r.
  - destruct (Nat.eqb_spec (length (drop (Z.to_nat len) p)) 0) as [H2|H2]; rewrite length_drop in H2.
    + rewrite take_ge by lia. eexists. split; [done|].
      assert (E0 : (avail_out m - len =? 0) = true) by lia. split.
      * split; unfold fin; cbn; rewrite ?E0, ?app_nil_r; try done; try lia.
        apply Forall_app_2; [done|]. repeat constructor. cbn. rewrite length_app. lia.
      * rewrite Ec. unfold content, fin. cbn. rewrite E0, app_nil_r, map_app, concat_app. cbn. by rewrite app_nil_r, <- (assoc_L (++)).
      * done.
      * done.
      * exists (out m). eexists. unfold fin. cbn. by rewrite E0, app_nil_r, andb_true_r.
    + set (m1 := link_out_buf _).
      assert (Hlen : len = avail_out m) by lia.
      assert (E0 : (avail_out m - len =? 0) = true) by lia.
      set (m0 := set_postponed None m1).
      assert (Hm0 : mem_inv size m0 ∧ Forall unmarked (fin m0)).
      { unfold m0, m1. split; [split|]; unfold fin; cbn; rewrite ?E0, ?app_nil_r; try done; try lia;
          (apply Forall_app_2; [done|]); repeat constructor; cbn; [|done].
        rewrite length_app, length_take. lia. }
      destruct (get_buf_spec m0 (proj1 Hm0) (proj2 Hm0)) as (G1 & G2 & G3 & G4 & G5 & G6 & G7).
      assert (Eg : ngx_http_rds_json_get_buf size m1 =
        set_postponed (Some (drop (Z.to_nat len) p)) (ngx_http_rds_json_get_buf size m0)).
      { unfold m0, m1, ngx_http_rds_json_get_buf. cbn. rewrite E0. cbn. by destruct (free_bufs m). }
      rewrite Eg. destruct (IH (set_postponed (Some (drop (Z.to_nat len) p))
        (ngx_http_rds_json_get_buf size m0)) (drop (Z.to_nat len) p)) as (m' & Em & Wm).
      { destruct G1. by split. } { done. } { done. } { done. } { rewrite length_drop. lia. }
      exists m'. split; [exact Em|]. destruct Wm as [W1 W2 W3 W4 W5]. split; try done.
      * rewrite W2. change (content (set_postponed _ ?x)) with (content x). rewrite G3, Ec.
        unfold m0, m1, content, fin. cbn. rewrite E0, app_nil_r, map_app, concat_app. cbn.
        by rewrite app_nil_r, <- !(assoc_L (++)), take_drop.
      * by rewrite W3; cbn; rewrite G5.
      * by rewrite W4; cbn; rewrite G6.
Qed.

(** Writing a text of the announced size succeeds, whatever the size of the buffers.
    The last buffer is marked when this was asked for and the text fits in one buffer
    or fills the last one completely. *)
Lemma write_mem_spec (text : bytes) (last : bool) (m : out_mem) :
  mem_inv size m → Forall unmarked (fin m) →
  ∃ m', ngx_http_rds_json_submit_mem size (Z.of_nat (length text)) last
          (store text (ngx_http_rds_json_request_mem size (Z.of_nat (length text)) m))
        = Some (NGX_OK, m')
        ∧ wrote size text (fun m' => last && (fits size text m || (avail_out m' =? 0))) m m'.
Proof.
  intros Hm Hu. destruct (get_buf_spec m Hm Hu) as (G1 & G2 & G3 & G4 & G5 & G6 & G7).
  unfold ngx_http_rds_json_request_mem. set (m1 := ngx_http_rds_json_get_buf size m) in *.
  cbv zeta. unfold fits. rewrite <- G7.
  destruct (Z.ltb_spec (avail_out m1) (Z.of_nat (length text))) as [H1|H1].
  - set (m2 := ngx_http_rds_json_get_postponed (Z.of_nat (length text)) m1).
    assert (E2 : ∃ c, m2 = set_cached c m1).
    { unfold m2, ngx_http_rds_json_get_postponed. destruct m1; simpl.
      repeat case_match; eexists; reflexivity. }
    destruct E2 as [c ->]. unfold store. cbn [postponed set_postponed].
    unfold ngx_http_rds_json_submit_mem. cbn [postponed set_postponed].
    destruct (copy_postponed_spec (S (length text)) last
      (set_postponed (Some text) (set_postponed (Some (replicate (Z.to_nat (Z.of_nat (length text))) 0))
        (set_cached c m1))) text) as (m' & -> & W); [by destruct G1|done|done|done|lia|].
    exists m'. split; [done|]. destruct W as [W1 W2 W3 W4 W5].
    rewrite (proj2 (Z.leb_gt _ _)) by lia. cbn [orb]. split; try done.
    + by rewrite W2, <- G3.
    + by rewrite W3.
    + by rewrite W4.
  - destruct G1 as [A1 A2 A3 A4 Ay A5]. unfold store. rewrite A3.
    unfold ngx_http_rds_json_submit_mem. cbn [postponed set_written]. rewrite A3.
    rewrite Nat2Z.id. cbn [written set_written]. rewrite take_ge by lia. cbv zeta.
    eexists. split; [reflexivity|]. rewrite (proj2 (Z.leb_le _ _)) by lia. cbn [orb].
    rewrite andb_true_r. specialize (A2 ltac:(lia)). rewrite fin_open in A5, G2 by lia.
    apply Forall_app in A5 as [A5 _]. apply Forall_app in G2 as [G2 _].
    set (m2 := set_out_buf _ _).
    assert (Hd : data (out_buf m2) = data (out_buf m1) ++ text) by done.
    assert (Ha : avail_out m2 = avail_out m1 - Z.of_nat (length text)) by done.
    assert (Hl : (Z.of_nat (length (data (out_buf m2))) <= size)) by (rewrite Hd, length_app; lia).
    destruct (Z.eqb_spec (avail_out m2) 0) as [E|E].
    + assert (Ef : fin (link_out_buf m2) = out m1 ++ [out_buf m2]) by (by rewrite fin_closed).
      split.
      * split; [cbn; lia|intros H; by destruct H|done|done|done|].
        rewrite Ef. apply Forall_app_2; [done|by repeat constructor].
      * rewrite <- G3, (content_open m1) by lia. unfold content. rewrite Ef, map_app, concat_app. cbn.
        by rewrite app_nil_r, (assoc_L (++)).
      * done.
      * done.
      * by exists (out m1), (out_buf m2).
    + assert (Ef : fin m2 = out m1 ++ [out_buf m2]) by (by rewrite fin_open).
      split.
      * split; [cbn; lia|intros _; rewrite Hd, length_app; lia|done|done|done|].
        rewrite Ef. apply Forall_app_2; [done|by repeat constructor].
      * rewrite <- G3, (content_open m1), (content_open m2), Hd by lia. by rewrite (assoc_L (++)).
      * done.
      * done.
      * by exists (out m1), (out_buf m2).
Qed.

End Memory_proofs.

(** ** Sizes *)

#[export] Instance rds_escape_two_pass :
  TwoPass ngx_http_rds_json_escape_count ngx_http_rds_json_escape_json_str.
Proof. exact escape_json_two_pass. Qed.

#[export] Instance rds_escape_lazy :
  Lazy ngx_http_rds_json_escape_count ngx_http_rds_json_escape_json_str.
Proof. exact escape_json_lazy. Qed.

Lemma copy_escaped_count (s : bytes) :
  copy_escaped (ngx_http_rds_json_escape_count s) s = ngx_http_rds_json_escape_json_str s.
Proof.
  unfold copy_escaped. destruct (Z.eqb_spec (ngx_http_rds_json_escape_count s) 0); [|done].
  symmetry. by apply lazy_copy.
Qed.

Lemma escape_app (a b : bytes) :
  ngx_http_rds_json_escape_json_str (a ++ b)
  = ngx_http_rds_json_escape_json_str a ++ ngx_http_rds_json_escape_json_str b.
Proof.
  induction a as [|c a IH]; [done|]. cbn [app ngx_http_rds_json_escape_json_str].
  by rewrite IH, (assoc_L (++)).
Qed.

Lemma escape_json_roundtrip (s : bytes) :
  Forall is_byte s → json_body (ngx_http_rds_json_escape_json_str s) = Some s.
Proof.
  induction 1 as [|c s Hc Hs IH]; [done|]. cbn [ngx_http_rds_json_escape_json_str].
  by rewrite (misc_json_letter_inv c Hc), IH.
Qed.

Lemma snprintf_u_digits (room n : Z) :
  0 <= n < 2 ^ 64 → Z.of_nat (length (sprintf_num_digits 0 n)) <= room →
  snprintf_u room n = sprintf_num_digits 0 n.
Proof.
  intros Hn Hr. unfold snprintf_u. rewrite ngx_sprintf_num_fits by lia.
  by replace (Z.to_nat (0 - _)) with 0%nat by lia.
Qed.

Lemma rds_num_size_digits (n : Z) :
  0 <= n < 2 ^ 64 → rds_get_num_size n = Z.of_nat (length (sprintf_num_digits 0 n)).
Proof. intros Hn. apply (Redis2.num_size_digits NGX_INT64_LEN (fun d => d + "0"%ch) n 0 []). lia. Qed.

(** [NGX_UINT16_LEN] and [NGX_UINT64_LEN] are enough for the numbers of a header. *)
Lemma digits_bound (n : Z) (w : nat) :
  0 <= n < 10 ^ Z.of_nat w → (0 < w <= NGX_INT64_LEN)%nat →
  (length (sprintf_num_digits 0 n) <= w)%nat.
Proof.
  intros Hn Hw. unfold sprintf_num_digits. cbn [Z.eqb].
  rewrite (sprintf_digits_fuel 10 _ w) by (done || lia).
  destruct (sprintf_digits_dec w n [] Hn) as (ds & -> & _ & _ & _ & H); [lia|].
  by rewrite app_nil_r.
Qed.

Lemma snprintf_u16 (n : Z) :
  0 <= n < 2 ^ 16 → snprintf_u NGX_UINT16_LEN n = sprintf_num_digits 0 n.
Proof.
  intros Hn. apply snprintf_u_digits; [lia|].
  pose proof (digits_bound n 5 ltac:(lia) ltac:(unfold NGX_INT64_LEN; lia)).
  unfold NGX_UINT16_LEN. lia.
Qed.

Lemma snprintf_u64 (n : Z) :
  0 <= n < 2 ^ 64 → snprintf_u NGX_UINT64_LEN n = sprintf_num_digits 0 n.
Proof.
  intros Hn. apply snprintf_u_digits; [lia|].
  destruct (sprintf_num_digits_dec n Hn) as (_ & _ & _ & H).
  unfold NGX_UINT64_LEN, NGX_INT64_LEN in *. lia.
Qed.

Section Output_proofs.
Context {V : Type} (evaluate : V → option bytes) (conf : ngx_http_rds_json_loc_conf_t (V := V)).
Context (is_main : bool).

Lemma lead_sized (s : ngx_http_rds_json_ctx_t) (c : ngx_http_rds_column_t) (n : Z) :
  lead_size conf s c = Some n → ∃ t, lead_text conf s c = Some t ∧ Z.of_nat (length t) = n.
Proof.
  unfold lead_size, lead_text.
  destruct (format conf =? _); [|destruct (format conf =? _); [intros [= <-]|done]].
  - intros [= <-]. eexists. split; [done|]. rewrite copy_escaped_count, !length_app, !Nat2Z.inj_add.
    rewrite (two_pass (TwoPass := rds_escape_two_pass)). destruct (cur_col s =? 0), (row s =? 1); simpl length; lia.
  - eexists. split; [done|]. by destruct (cur_col s =? 0).
Qed.

Lemma tail_sized (s : ngx_http_rds_json_ctx_t) (n : Z) :
  tail_size conf s = Some n → ∃ t, tail_text conf s = Some t ∧ Z.of_nat (length t) = n.
Proof.
  unfold tail_size, tail_text. destruct (last_column s); [|intros [= <-]; by eexists].
  destruct (format conf =? _); [intros [= <-]; by eexists|].
  destruct (format conf =? _); intros [= <-]; by eexists.
Qed.

Lemma value_sized (c : ngx_http_rds_column_t) (d : bytes) (rest : Z) (is_null : bool) (n : Z) :
  value_size c d rest is_null = Some n → Z.of_nat (length (value_text c d rest is_null)) = n.
Proof.
  unfold value_size, value_text. destruct is_null; [by intros [= <-]|].
  destruct (length d =? 0)%nat; [by intros [= <-]|].
  destruct (rough_type c =? rds_rough_col_type_float) eqn:Ef; [rewrite orb_true_r; by intros [= <-]|].
  destruct (rough_type c =? rds_rough_col_type_int); cbn [orb].
  - destruct (int_chars d); [by intros [= <-]|done].
  - destruct (rough_type c =? rds_rough_col_type_bool).
    + destruct (bool_value d rest) as [[]|]; by intros [= <-].
    + intros [= <-]. rewrite copy_escaped_count, !length_app, !Nat2Z.inj_add.
      rewrite (two_pass (TwoPass := rds_escape_two_pass)). destruct (rest =? 0); simpl length; lia.
Qed.

(** The text of a field has the size computed for it. *)
Lemma field_sized (s : ngx_http_rds_json_ctx_t) (d : bytes) (is_null : bool) (n : Z) :
  field_size conf s d is_null = Some n →
  ∃ t, field_text conf s d is_null = Some t ∧ Z.of_nat (length t) = n.
Proof.
  unfold field_size, field_text. set (c := get_col _ _).
  destruct (lead_size conf s c) as [l|] eqn:El; [|done].
  destruct (lead_sized s c l El) as (lt & -> & <-). cbn.
  destruct (_ && _); [done|].
  destruct (value_size c d (field_data_rest s) is_null) as [v|] eqn:Ev; [|done].
  apply value_sized in Ev as <-. cbn.
  destruct (tail_size conf s) as [t|] eqn:Et; [|done].
  destruct (tail_sized s t Et) as (tt & -> & <-). cbn. intros [= <-].
  eexists. split; [done|]. rewrite !length_app. lia.
Qed.

Lemma more_sized (s : ngx_http_rds_json_ctx_t) (d : bytes) (n : Z) :
  more_size conf s d = Some n → ∃ t, more_text conf s d = Some t ∧ Z.of_nat (length t) = n.
Proof.
  unfold more_size, more_text. set (c := get_col _ _).
  assert (E : ∀ o v, o = Some v → (o ≫= fun v => tail_size conf s ≫= fun t => Some (v + t)) = Some n →
    ∃ t tt, tail_size conf s = Some t ∧ tail_text conf s = Some tt ∧ Z.of_nat (length tt) = t ∧ n = v + t).
  { intros o v -> H. cbn in H. destruct (tail_size conf s) as [t|] eqn:Et; [|done].
    destruct (tail_sized s t Et) as (tt & E & <-). injection H as <-. eauto 10. }
  destruct (rough_type c =? rds_rough_col_type_int); cbn [orb].
  - destruct (forallb digit_char d); [|done]. intros H.
    destruct (E _ _ eq_refl H) as (t & tt & _ & -> & <- & ->). eexists. split; [done|]. rewrite length_app. lia.
  - destruct (rough_type c =? rds_rough_col_type_float); cbn [orb]; intros H.
    + destruct (E _ _ eq_refl H) as (t & tt & _ & -> & <- & ->). eexists. split; [done|]. rewrite length_app. lia.
    + destruct (rough_type c =? rds_rough_col_type_bool);
        destruct (E _ _ eq_refl H) as (t & tt & _ & -> & <- & ->); eexists; (split; [done|]).
      * rewrite length_app. simpl. lia.
      * rewrite copy_escaped_count, !length_app, !Nat2Z.inj_add.
        rewrite (two_pass (TwoPass := rds_escape_two_pass)). destruct (field_data_rest s =? 0); simpl length; lia.
Qed.

(** Properties and columns. *)
Definition props_json (vs : list (bytes * bytes)) : bytes :=
  concat (map (fun '(key, v) =>
    key ++ [":"%ch; 34] ++ ngx_http_rds_json_escape_json_str v ++ [34; ","%ch]) vs).

Definition values_of (vs : list (bytes * bytes * Z)) : list (bytes * bytes) := map fst vs.

Lemma eval_props_counted (props : list (ngx_http_rds_json_property_t (V := V))) vs :
  eval_props evaluate props = Some vs →
  props_text vs = props_json (values_of vs) ∧ props_size vs = Z.of_nat (length (props_text vs)).
Proof.
  revert vs. induction props as [|p props IH]; intros vs; cbn [eval_props]; [by intros [= <-]|].
  destruct (Redis2.ngx_http_complex_value evaluate (prop_value p)) as [v|]; [|done].
  destruct (eval_props evaluate props) as [vs'|]; [|done]. intros [= <-].
  destruct (IH vs' eq_refl) as [E1 E2]. cbn [props_text props_size values_of map fst].
  rewrite copy_escaped_count, E2. split.
  - rewrite E1. unfold props_json. cbn [map concat]. by rewrite <- !(assoc_L (++)).
  - rewrite !length_app, !Nat2Z.inj_add, (two_pass (TwoPass := rds_escape_two_pass)). simpl length. lia.
Qed.

Lemma cols_sized (cs : list ngx_http_rds_column_t) (i n : Z) :
  cols_size cs i n = Z.of_nat (length (cols_text cs i n)).
Proof.
  revert i. induction cs as [|c cs IH]; intros i; [done|]. cbn [cols_size cols_text].
  rewrite IH, !length_app, !Nat2Z.inj_add, (two_pass (TwoPass := rds_escape_two_pass)).
  destruct (negb _); simpl length; lia.
Qed.

Lemma header_sized (h : ngx_http_rds_header_t) cs props vs :
  header_fits h cs → eval_props evaluate props = Some vs →
  header_size conf h vs = Z.of_nat (length (header_text conf h vs)).
Proof.
  intros (Hs & _ & _ & Ha & Hi & _) Hv. apply eval_props_counted in Hv as [_ Hv].
  unfold header_size, header_text. rewrite Hv.
  rewrite copy_escaped_count, snprintf_u16, !snprintf_u64, !rds_num_size_digits by lia.
  rewrite !length_app, !Nat2Z.inj_add.
  assert (E1 : Z.of_nat (length (if negb (length (success conf) =? 0)%nat
      then success conf ++ (if std_errcode h =? 0 then bs ":true," else bs ":false,") else []))
    = if negb (length (success conf) =? 0)%nat
      then Z.of_nat (length (success conf)) + 2 + (if std_errcode h =? 0 then 4 else 5) else 0).
  { destruct (negb _); [|done]. rewrite length_app, Nat2Z.inj_add.
    destruct (_ =? 0); change (length (bs _)) with 6%nat || change (length (bs _)) with 7%nat; lia. }
  rewrite E1. clear E1. destruct (negb (length (errstr h) =? 0)%nat), (negb (insert_id h =? 0)),
    (negb (affected_rows h =? 0)); rewrite ?length_app, ?Nat2Z.inj_add, ?(two_pass (TwoPass := rds_escape_two_pass));
    change (length (bs "insert_id")) with 9%nat; change (length (bs "affected_rows")) with 13%nat;
    simpl length; lia.
Qed.

(** ** The output functions *)

(** A text whose size was computed right is written. *)
Lemma write_text_spec (text : bytes) (check last : bool) (s : ngx_http_rds_json_ctx_t) :
  0 < buf_size conf → mem_inv (buf_size conf) (mem s) → Forall unmarked (fin (mem s)) →
  ∃ m', write_text conf (Z.of_nat (length text)) (Some text) check last s
        = Some (NGX_OK, set_mem m' s)
        ∧ wrote (buf_size conf) text
            (fun m' => last && (fits (buf_size conf) text (mem s) || (avail_out m' =? 0))) (mem s) m'.
Proof.
  intros Hb Hm Hu. unfold write_text. rewrite Z.eqb_refl, andb_false_r. cbv zeta.
  destruct (write_mem_spec Hb text last (mem s) Hm Hu) as (m' & -> & W). eauto.
Qed.

End Output_proofs.

End RdsJson.
