(* ===== verification/Json.v ===== *)
(** A reference reader and printer of JSON (RFC 8259, without white space), against
    which the texts that the modules write are judged: [json_parse] reads a text back
    into a value.  Nothing here models code of the repository; strings are byte
    strings, as in [NgxEscape.json_body]. *)

From S2P Require Import Prelude NgxNumber NgxEscape SetMisc RdsStream RdsJsonOut.

Open Scope Z_scope.

Module Json.

#[warnings="-register-all"]
Inductive json :=
  | JNull
  | JBool (b : bool)
  | JNum (d : bytes)
  | JStr (s : bytes)
  | JArr (l : list json)
  | JObj (m : list (bytes * json)).

(** ** Reader *)

(** The body of a string, up to the quote that ends it. *)
Fixpoint json_scan (l : bytes) : option (bytes * bytes) :=
  match l with
  | [] => None
  | c :: l =>
      if c =? 34 then Some ([], l)
      else if c =? 92 then
        match l with
        | [] => None
        | e :: l => match json_scan l with Some (b, r) => Some (c :: e :: b, r) | None => None end
        end
      else match json_scan l with Some (b, r) => Some (c :: b, r) | None => None end
  end.

Definition parse_string (l : bytes) : option (bytes * bytes) :=
  match json_scan l with
  | Some (b, r) => match json_body b with Some s => Some (s, r) | None => None end
  | None => None
  end.

Definition num_char (c : Z) : bool :=
  (("0"%ch <=? c) && (c <=? "9"%ch)) || (c =? "-"%ch) || (c =? "+"%ch) || (c =? "."%ch)
  || (c =? "e"%ch) || (c =? "E"%ch).

Fixpoint span_num (l : bytes) : bytes * bytes :=
  match l with
  | [] => ([], [])
  | c :: l' => if num_char c then let '(a, b) := span_num l' in (c :: a, b) else ([], l)
  end.

Definition dig (c : Z) : bool := ("0"%ch <=? c) && (c <=? "9"%ch).

Fixpoint skip_digits (l : bytes) : bytes :=
  match l with
  | [] => []
  | c :: l' => if dig c then skip_digits l' else l
  end.

(** One digit or more. *)
Definition digits1 (l : bytes) : option bytes :=
  match l with
  | c :: l => if dig c then Some (skip_digits l) else None
  | [] => None
  end.

Definition num_exp (l : bytes) : bool :=
  match l with
  | [] => true
  | c :: l =>
      ((c =? "e"%ch) || (c =? "E"%ch))
      && match digits1 (match l with
                        | s :: l' => if (s =? "-"%ch) || (s =? "+"%ch) then l' else l
                        | [] => l
                        end) with
         | Some [] => true
         | _ => false
         end
  end.

Definition num_frac (l : bytes) : bool :=
  match l with
  | c :: l' => if c =? "."%ch then match digits1 l' with Some r => num_exp r | None => false end
               else num_exp l
  | [] => true
  end.

(** The grammar of numbers: an optional minus sign, an integer without leading zeros, a
    fraction and an exponent. *)
Definition json_number (l : bytes) : bool :=
  match (match l with c :: l' => if c =? "-"%ch then l' else l | [] => [] end) with
  | c :: l' => if c =? "0"%ch then num_frac l' else dig c && num_frac (skip_digits l')
  | [] => false
  end.

Definition strip (p l : bytes) : option bytes :=
  if bytes_eqb (take (length p) l) p then Some (drop (length p) l) else None.

Fixpoint json_parse (fuel : nat) (l : bytes) : option (json * bytes) :=
  match fuel with
  | O => None
  | S fuel =>
      match l with
      | [] => None
      | c :: l' =>
          if c =? "{"%ch then
            match l' with
            | c' :: l'' =>
                if c' =? "}"%ch then Some (JObj [], l'')
                else match parse_members fuel l' with Some (m, r) => Some (JObj m, r) | None => None end
            | [] => None
            end
          else if c =? "["%ch then
            match l' with
            | c' :: l'' =>
                if c' =? "]"%ch then Some (JArr [], l'')
                else match parse_elements fuel l' with Some (m, r) => Some (JArr m, r) | None => None end
            | [] => None
            end
          else if c =? 34 then
            match parse_string l' with Some (s, r) => Some (JStr s, r) | None => None end
          else if c =? "n"%ch then
            match strip (bs "null") l with Some r => Some (JNull, r) | None => None end
          else if c =? "t"%ch then
            match strip (bs "true") l with Some r => Some (JBool true, r) | None => None end
          else if c =? "f"%ch then
            match strip (bs "false") l with Some r => Some (JBool false, r) | None => None end
          else
            let '(d, r) := span_num l in
            if json_number d then Some (JNum d, r) else None
      end
  end
with parse_elements (fuel : nat) (l : bytes) : option (list json * bytes) :=
  match fuel with
  | O => None
  | S fuel =>
      match json_parse fuel l with
      | Some (v, c :: r) =>
          if c =? ","%ch
          then match parse_elements fuel r with Some (vs, r) => Some (v :: vs, r) | None => None end
          else if c =? "]"%ch then Some ([v], r) else None
      | _ => None
      end
  end
with parse_members (fuel : nat) (l : bytes) : option (list (bytes * json) * bytes) :=
  match fuel with
  | O => None
  | S fuel =>
      match l with
      | c :: l =>
          if c =? 34 then
            match parse_string l with
            | Some (k, c1 :: r) =>
                if c1 =? ":"%ch then
                  match json_parse fuel r with
                  | Some (v, c2 :: r) =>
                      if c2 =? ","%ch
                      then match parse_members fuel r with Some (m, r) => Some ((k, v) :: m, r) | None => None end
                      else if c2 =? "}"%ch then Some ([(k, v)], r) else None
                  | _ => None
                  end
                else None
            | _ => None
            end
          else None
      | [] => None
      end
  end.

(** A complete text. *)
Definition json_decode (l : bytes) : option json :=
  match json_parse (S (2 * length l)) l with
  | Some (v, []) => Some v
  | _ => None
  end.

(** ** Printer *)

Definition json_quote (s : bytes) : bytes := [34] ++ RdsJson.ngx_http_rds_json_escape_json_str s ++ [34].

Fixpoint commas (l : list bytes) : bytes :=
  match l with
  | [] => []
  | [x] => x
  | x :: l => x ++ [","%ch] ++ commas l
  end.

Fixpoint json_print (v : json) : bytes :=
  match v with
  | JNull => bs "null"
  | JBool b => if b then bs "true" else bs "false"
  | JNum d => d
  | JStr s => json_quote s
  | JArr l => ["["%ch] ++ commas (map json_print l) ++ ["]"%ch]
  | JObj m => ["{"%ch] ++ commas (map (fun '(k, v) => json_quote k ++ [":"%ch] ++ json_print v) m) ++ ["}"%ch]
  end.

(** Values whose numbers are numbers and whose strings are bytes. *)
Fixpoint json_ok (v : json) : Prop :=
  match v with
  | JNull | JBool _ => True
  | JNum d => json_number d = true
  | JStr s => Forall is_byte s
  | JArr l => Forall id (map json_ok l)
  | JObj m => Forall id (map (fun '(k, v) => Forall is_byte k ∧ json_ok v) m)
  end.

(** * Theorems *)

(** ** Strings *)

Definition scans (p : bytes) : Prop :=
  ∀ l, json_scan (p ++ l) = match json_scan l with Some (b, r) => Some (p ++ b, r) | None => None end.

Lemma scans_app (p q : bytes) : scans p → scans q → scans (p ++ q).
Proof.
  intros Hp Hq l. rewrite <- (assoc_L (++)), Hp, Hq. destruct (json_scan l) as [[b r]|]; [|done].
  by rewrite (assoc_L (++)).
Qed.

Lemma scans_plain (c : Z) : c ≠ 34 → c ≠ 92 → scans [c].
Proof.
  intros H1 H2 l. cbn [app json_scan]. by rewrite !(proj2 (Z.eqb_neq _ _)).
Qed.

Lemma scans_escape (e : Z) : scans [92; e].
Proof. intros l. cbn [app json_scan Z.eqb Pos.eqb]. by destruct (json_scan l) as [[b r]|]. Qed.

Lemma scans_u (a b : Z) : a ≠ 34 → a ≠ 92 → b ≠ 34 → b ≠ 92 → scans [92; 117; 48; 48; a; b].
Proof.
  intros H1 H2 H3 H4 l. cbn [app json_scan Z.eqb Pos.eqb]. rewrite !(proj2 (Z.eqb_neq _ _)) by done.
  by destruct (json_scan l) as [[c r]|].
Qed.

(** The escapes of control characters hold no quote and no backslash of their own. *)
Lemma control_plain (c : Z) :
  0 <= c < 32 →
  (hex_digit hex_lower (Z.shiftr c 4) ≠ 34 ∧ hex_digit hex_lower (Z.shiftr c 4) ≠ 92)
  ∧ (hex_digit hex_lower (Z.land c 15) ≠ 34 ∧ hex_digit hex_lower (Z.land c 15) ≠ 92).
Proof.
  intros Hc. by apply (range_check_prop 32 (fun c =>
    (hex_digit hex_lower (Z.shiftr c 4) ≠ 34 ∧ hex_digit hex_lower (Z.shiftr c 4) ≠ 92)
    ∧ (hex_digit hex_lower (Z.land c 15) ≠ 34 ∧ hex_digit hex_lower (Z.land c 15) ≠ 92))).
Qed.

Lemma escape_scans (s : bytes) : Forall is_byte s → scans (RdsJson.ngx_http_rds_json_escape_json_str s).
Proof.
  induction 1 as [|c s Hc Hs IH].
  { intros l. cbn. by destruct (json_scan l) as [[b r]|]. }
  cbn [RdsJson.ngx_http_rds_json_escape_json_str]. apply scans_app; [|done]. unfold is_byte in Hc.
  destruct (RdsJson.json_letter c) as [e|] eqn:El.
  - destruct (Z.land c 128 =? 0) eqn:E8; [apply scans_escape|].
    assert (H : match RdsJson.json_letter c with Some _ => Z.land c 128 = 0 | None => True end).
    { by apply (range_check_prop 256 (fun c => match RdsJson.json_letter c with Some _ => Z.land c 128 = 0 | None => True end)). }
    rewrite El in H. apply Z.eqb_neq in E8. done.
  - assert (c ≠ 34 ∧ c ≠ 92) as [Hq Hb] by (split; intros ->; done).
    destruct (Z.land c 128 =? 0); [|by apply scans_plain].
    destruct (Z.ltb_spec c 32); [|by apply scans_plain].
    destruct (control_plain c) as [[? ?] [? ?]]; [lia|].
    by apply scans_u.
Qed.

Lemma parse_string_quote (s r : bytes) :
  Forall is_byte s →
  parse_string (RdsJson.ngx_http_rds_json_escape_json_str s ++ [34] ++ r) = Some (s, r).
Proof.
  intros Hs. unfold parse_string. rewrite (escape_scans s Hs). cbn [app json_scan Z.eqb Pos.eqb].
  by rewrite app_nil_r, RdsJson.escape_json_roundtrip.
Qed.

(** ** Numbers *)

Lemma dig_num (c : Z) : dig c = true → num_char c = true.
Proof. unfold dig, num_char. by intros ->. Qed.

Lemma skip_digits_num (l : bytes) : forallb num_char (skip_digits l) = true → forallb num_char l = true.
Proof.
  induction l as [|c l IH]; [done|]. cbn [skip_digits]. destruct (dig c) eqn:E; [|done].
  intros H. cbn [forallb]. by rewrite dig_num, IH.
Qed.

Lemma digits1_num (l r : bytes) :
  digits1 l = Some r → forallb num_char r = true → forallb num_char l = true.
Proof.
  unfold digits1. destruct l as [|c l]; [done|]. destruct (dig c) eqn:E; [|done]. intros [= <-] H.
  cbn [forallb]. by rewrite dig_num, skip_digits_num.
Qed.

Lemma num_exp_num (l : bytes) : num_exp l = true → forallb num_char l = true.
Proof.
  destruct l as [|c l]; [done|]. unfold num_exp. intros [Hc H]%andb_true_iff. cbn [forallb].
  assert (num_char c = true) as ->.
  { unfold num_char. apply orb_true_iff in Hc as [-> | ->]; by rewrite ?orb_true_r. }
  cbn [andb]. destruct l as [|s l]; [done|].
  destruct ((s =? "-"%ch) || (s =? "+"%ch)) eqn:Es.
  - destruct (digits1 l) as [[|]|] eqn:El; try done. cbn [forallb].
    rewrite (digits1_num _ _ El eq_refl), andb_true_r. unfold num_char.
    apply orb_true_iff in Es as [-> | ->]; by rewrite ?orb_true_r.
  - destruct (digits1 (s :: l)) as [[|]|] eqn:El; try done. by eapply digits1_num.
Qed.

Lemma num_frac_num (l : bytes) : num_frac l = true → forallb num_char l = true.
Proof.
  destruct l as [|c l]; [done|]. unfold num_frac. destruct (c =? "."%ch) eqn:Ec; [|apply num_exp_num].
  destruct (digits1 l) as [r|] eqn:El; [|done]. intros H. cbn [forallb].
  rewrite (digits1_num _ _ El (num_exp_num _ H)), andb_true_r. unfold num_char. by rewrite Ec, ?orb_true_r.
Qed.

(** A number starts with a digit or a minus sign and is made of the characters of
    numbers. *)
Lemma json_number_chars (d : bytes) :
  json_number d = true →
  forallb num_char d = true ∧ ∃ c d', d = c :: d' ∧ ((c =? "-"%ch) || dig c = true).
Proof.
  unfold json_number. destruct d as [|c d]; [done|]. destruct (c =? "-"%ch) eqn:Ec; intros H.
  - split; [|exists c, d; by rewrite Ec]. cbn [forallb]. unfold num_char at 1. rewrite Ec, ?orb_true_r. cbn [orb andb].
    destruct d as [|a d]; [done|]. cbn [forallb]. destruct (a =? "0"%ch) eqn:Ea.
    + rewrite (num_frac_num _ H), andb_true_r. apply dig_num. unfold dig. lia.
    + apply andb_true_iff in H as [H1 H2]. by rewrite (dig_num _ H1), (skip_digits_num _ (num_frac_num _ H2)).
  - cbn [forallb]. destruct (c =? "0"%ch) eqn:Ea.
    + rewrite (num_frac_num _ H), andb_true_r. assert (dig c = true) by (unfold dig; lia).
      split; [by apply dig_num|]. exists c, d. by rewrite Ec.
    + apply andb_true_iff in H as [H1 H2]. rewrite (dig_num _ H1), (skip_digits_num _ (num_frac_num _ H2)).
      split; [done|]. exists c, d. by rewrite Ec.
Qed.

(** What may follow a value. *)
Definition follows (r : bytes) : Prop := match r with c :: _ => num_char c = false | [] => True end.

Lemma span_num_app (d r : bytes) : forallb num_char d = true → follows r → span_num (d ++ r) = (d, r).
Proof.
  intros Hd Hr. induction d as [|c d IH]; cbn [app span_num].
  - destruct r as [|c r]; [done|]. cbn [span_num]. by rewrite Hr.
  - cbn [forallb] in Hd. apply andb_true_iff in Hd as [-> Hd]. by rewrite IH.
Qed.

(** ** Values *)

(** Induction over a value and the values inside it. *)
Section Induction.
Context (P : json → Prop).
Context (Hnull : P JNull) (Hbool : ∀ b, P (JBool b)) (Hnum : ∀ d, P (JNum d)) (Hstr : ∀ s, P (JStr s)).
Context (Harr : ∀ l, Forall P l → P (JArr l)).
Context (Hobj : ∀ m, Forall (fun kv => P kv.2) m → P (JObj m)).

Fixpoint json_nested_ind (v : json) : P v :=
  match v with
  | JNull => Hnull
  | JBool b => Hbool b
  | JNum d => Hnum d
  | JStr s => Hstr s
  | JArr l =>
      Harr l ((fix go (l : list json) : Forall P l :=
                 match l with
                 | [] => Forall_nil_2 P
                 | x :: l => Forall_cons_2 P x l (json_nested_ind x) (go l)
                 end) l)
  | JObj m =>
      Hobj m ((fix go (m : list (bytes * json)) : Forall (fun kv => P kv.2) m :=
                 match m with
                 | [] => Forall_nil_2 (fun kv => P kv.2)
                 | x :: m => Forall_cons_2 (fun kv => P kv.2) x m (json_nested_ind x.2) (go m)
                 end) m)
  end.

End Induction.

(** The number of calls that reading a value takes. *)
Fixpoint calls (v : json) : nat :=
  match v with
  | JArr l => S (list_sum (map (fun v => S (calls v)) l))
  | JObj m => S (list_sum (map (fun '(_, v) => S (calls v)) m))
  | _ => 1
  end.

Lemma commas_cons (x : bytes) (l : list bytes) :
  l ≠ [] → commas (x :: l) = x ++ [","%ch] ++ commas l.
Proof. by destruct l. Qed.

Definition first_ok (v : json) : Prop :=
  ∃ c l, json_print v = c :: l ∧ c ≠ "]"%ch ∧ c ≠ "}"%ch.

Lemma print_first (v : json) : json_ok v → first_ok v.
Proof.
  intros H. destruct v as [|b|d|s|l|m].
  - exists "n"%ch, (bs "ull"). done.
  - destruct b; [exists "t"%ch, (bs "rue")|exists "f"%ch, (bs "alse")]; done.
  - destruct (json_number_chars d H) as (_ & c & d' & -> & Hc). exists c, d'. split; [done|].
    unfold dig in Hc. lia.
  - by eexists 34, _.
  - by eexists "["%ch, _.
  - by eexists "{"%ch, _.
Qed.

Definition reads (v : json) : Prop :=
  json_ok v → ∀ fuel r, (calls v <= fuel)%nat → follows r →
  json_parse fuel (json_print v ++ r) = Some (v, r).

(** The elements of an array that is not empty, after its bracket. *)
Lemma elements_read (l : list json) :
  Forall reads l → Forall json_ok l → l ≠ [] → ∀ fuel r,
  (list_sum (map (fun v => S (calls v)) l) <= fuel)%nat →
  parse_elements fuel (commas (map json_print l) ++ "]"%ch :: r) = Some (l, r).
Proof.
  induction 1 as [|v l Hv Hl IH]; intros Hok Hne fuel r Hf; [done|].
  apply Forall_cons in Hok as [Hv' Hok]. cbn [map list_sum fold_right] in Hf.
  destruct fuel as [|fuel]; [lia|]. cbn [parse_elements map].
  destruct (decide (l = [])) as [->|Hne'].
  - cbn [map commas]. rewrite (Hv Hv' fuel ("]"%ch :: r)); [done|simpl in Hf; lia|done].
  - rewrite commas_cons by (by destruct l). rewrite <- !(assoc_L (++)). cbn [app].
    rewrite (Hv Hv' fuel); [|lia|done]. cbn [app Z.eqb Pos.eqb].
    rewrite IH; [done|done|done|]. fold (list_sum (map (fun v => S (calls v)) l)) in Hf. lia.
Qed.

Definition print_member (kv : bytes * json) : bytes := json_quote kv.1 ++ [":"%ch] ++ json_print kv.2.

Lemma members_read (m : list (bytes * json)) :
  Forall (fun kv => reads kv.2) m → Forall (fun kv => Forall is_byte kv.1 ∧ json_ok kv.2) m → m ≠ [] →
  ∀ fuel r, (list_sum (map (fun '(_, v) => S (calls v)) m) <= fuel)%nat →
  parse_members fuel (commas (map print_member m) ++ "}"%ch :: r) = Some (m, r).
Proof.
  induction 1 as [|[k v] m Hv Hm IH]; intros Hok Hne fuel r Hf; [done|].
  apply Forall_cons in Hok as [[Hk Hv'] Hok]. cbn [map list_sum fold_right fst snd] in *.
  destruct fuel as [|fuel]; [lia|]. cbn [parse_members].
  assert (E : ∀ t, follows t → (calls v <= fuel)%nat →
    ∃ q, print_member (k, v) ++ t = 34 :: q ∧ parse_string q = Some (k, ":"%ch :: json_print v ++ t)
         ∧ json_parse fuel (json_print v ++ t) = Some (v, t)).
  { intros t Ht Hfu. exists (RdsJson.ngx_http_rds_json_escape_json_str k ++ [34] ++ ":"%ch :: json_print v ++ t).
    split_and!; [|by apply parse_string_quote|by apply Hv].
    unfold print_member, json_quote. by rewrite <- !(assoc_L (++)). }
  destruct (decide (m = [])) as [->|Hne'].
  - cbn [map commas]. destruct (E ("}"%ch :: r)) as (q & -> & E1 & E2); [done|simpl in Hf; lia|].
    cbn [Z.eqb Pos.eqb]. rewrite E1. cbn [Z.eqb Pos.eqb]. by rewrite E2.
  - rewrite commas_cons by (by destruct m). rewrite <- !(assoc_L (++)). cbn [app].
    destruct (E (","%ch :: commas (map print_member m) ++ "}"%ch :: r)) as (q & -> & E1 & E2); [done|lia|].
    cbn [Z.eqb Pos.eqb]. rewrite E1. cbn [Z.eqb Pos.eqb]. rewrite E2. cbn [app Z.eqb Pos.eqb].
    rewrite IH; [done|done|done|]. fold (list_sum (map (fun '(_, v) => S (calls v)) m)) in Hf. lia.
Qed.

Lemma json_reads (v : json) : reads v.
Proof.
  induction v as [| [] |d|s|l IH|m IH] using json_nested_ind; intros Hok [|fuel] r Hf Hr; try (simpl in Hf; lia).
  - done.
  - done.
  - done.
  - destruct (json_number_chars d Hok) as (Hn & c & d' & E & Hc). cbn [json_print json_parse].
    cbn [json_ok] in Hok. subst d. cbn [app]. unfold dig in Hc.
    rewrite !(proj2 (Z.eqb_neq c _)) by lia.
    change (c :: d' ++ r) with ((c :: d') ++ r). by rewrite span_num_app, Hok.
  - cbn [json_print json_parse]. unfold json_quote. rewrite <- !(assoc_L (++)). cbn [app Z.eqb Pos.eqb].
    change (34 :: r) with ([34] ++ r). by rewrite parse_string_quote.
  - cbn [json_print json_parse app Z.eqb Pos.eqb]. cbn [calls] in Hf. cbn [json_ok] in Hok.
    destruct l as [|v l]; [reflexivity|].
    assert (Hok' : Forall json_ok (v :: l)) by exact (proj1 (Forall_map _ _ _) Hok). inversion Hok' as [|? ? Hv _]; subst.
    destruct (print_first v Hv) as (c & t & Et & H1 & H2).
    rewrite <- (assoc_L (++)). cbn [app].
    assert (∃ t', commas (map json_print (v :: l)) ++ "]"%ch :: r = c :: t') as [t' Et'].
    { destruct l; cbn [map commas]; rewrite Et; by eexists. }
    pose proof (elements_read (v :: l) IH Hok' ltac:(done) fuel r ltac:(lia)) as E. rewrite Et' in E |- *.
    rewrite (proj2 (Z.eqb_neq c _)) by done. by rewrite E.
  - cbn [json_print json_parse app Z.eqb Pos.eqb]. cbn [calls] in Hf. cbn [json_ok] in Hok.
    destruct m as [|[k v] m]; [reflexivity|].
    assert (Hok' : Forall (fun kv => Forall is_byte kv.1 ∧ json_ok kv.2) ((k, v) :: m)).
    { eapply Forall_impl; [exact (proj1 (Forall_map _ _ _) Hok)|]. by intros [k' v']. }
    assert (Em : map (fun '(k, v) => json_quote k ++ ":"%ch :: json_print v) ((k, v) :: m)
                 = map print_member ((k, v) :: m)).
    { apply map_ext. by intros [k' v']. }
    rewrite Em, <- (assoc_L (++)). cbn [app].
    pose proof (members_read ((k, v) :: m) IH Hok' ltac:(done) fuel r ltac:(lia)) as E.
    assert (∃ t', commas (map print_member ((k, v) :: m)) ++ "}"%ch :: r = 34 :: t') as [t' Et'].
    { destruct m; cbn [map commas]; by eexists. }
    rewrite Et' in E |- *. cbn [Z.eqb Pos.eqb]. by rewrite E.
Qed.

(** The text of a value is long enough to pay for the calls. *)
Lemma commas_length (l : list bytes) :
  (list_sum (map length l) + length l <= S (length (commas l)))%nat.
Proof.
  induction l as [|x l IH]; [simpl; lia|]. cbn [map list_sum fold_right length].
  fold (list_sum (map length l)). destruct l as [|y l]; [simpl; lia|].
  rewrite commas_cons by done. rewrite !length_app. cbn [length] in *. lia.
Qed.

Lemma list_sum_le {A : Type} (f g : A → nat) (l : list A) :
  Forall (fun x => (f x <= g x)%nat) l → (list_sum (map f l) <= list_sum (map g l))%nat.
Proof. induction 1; cbn [map list_sum fold_right] in *; unfold list_sum in *; lia. Qed.

Lemma list_sum_double {A : Type} (f : A → nat) (l : list A) :
  list_sum (map (fun x => S (2 * f x)) l) = (length l + 2 * list_sum (map f l))%nat.
Proof. induction l as [|x l IH]; [done|]. unfold list_sum in *. cbn [map fold_right length] in *. lia. Qed.

Lemma calls_bound (v : json) : json_ok v → (calls v <= 2 * length (json_print v))%nat.
Proof.
  induction v as [|b|d|s|l IH|m IH] using json_nested_ind; intros Hok.
  - change (length (json_print JNull)) with 4%nat. simpl. lia.
  - destruct b; [change (length _) with 4%nat|change (length _) with 5%nat]; simpl; lia.
  - destruct (json_number_chars d Hok) as (_ & c & d' & -> & _). simpl. lia.
  - simpl. lia.
  - assert (H : (list_sum (map (fun v => S (calls v)) l) <= length l + 2 * list_sum (map length (map json_print l)))%nat).
    { rewrite map_map, <- list_sum_double. apply list_sum_le. cbn [json_ok] in Hok.
      pose proof (proj1 (Forall_map _ _ _) Hok) as Hok'. rewrite Forall_forall in *.
      intros x Hx. specialize (IH x Hx (Hok' x Hx)). cbv beta in *. lia. }
    pose proof (commas_length (map json_print l)) as Hc. rewrite length_map in Hc.
    cbn [calls json_print]. rewrite !length_app. simpl length. lia.
  - assert (H : (list_sum (map (fun '(_, v) => S (calls v)) m)
      <= length m + 2 * list_sum (map length (map (fun '(k, v) => json_quote k ++ [":"%ch] ++ json_print v) m)))%nat).
    { rewrite map_map, <- list_sum_double. apply list_sum_le. cbn [json_ok] in Hok.
      pose proof (proj1 (Forall_map _ _ _) Hok) as Hok'. rewrite Forall_forall in *.
      intros [k v] Hx. specialize (IH _ Hx (proj2 (Hok' _ Hx))). cbn [snd] in IH. cbv beta iota. rewrite !length_app. lia. }
    pose proof (commas_length (map (fun '(k, v) => json_quote k ++ [":"%ch] ++ json_print v) m)) as Hc.
    rewrite length_map in Hc. cbn [calls json_print]. rewrite (length_app [_]), length_app. cbn [length]. lia.
Qed.

(** Reading back what was printed. *)
Lemma json_decode_print (v : json) : json_ok v → json_decode (json_print v) = Some v.
Proof.
  intros Hok. unfold json_decode. rewrite <- (app_nil_r (json_print v)) at 2.
  rewrite (json_reads v Hok); [done| |done]. pose proof (calls_bound v Hok). lia.
Qed.

End Json.
