(* ===== verification/RdsJsonFilter.v ===== *)
(** The rds-json filter, its input half: the functions that take an RDS stream apart,
    the header and body filters, the handler of [rds_json_ret] and the directives, from
    src/rds-json-nginx-module-master/src/ngx_http_rds_json_processor.c,
    ngx_http_rds_json_filter_module.c and ngx_http_rds_json_handler.c.

    The functions of the processor call each other along the chain of input buffers:
    they are one mutual recursion, with fuel for the number of calls; [chain_fuel] is
    enough for a chain, and [None] stands for running out of it or for the endless loop
    of [submit_mem].  A run of the body filter returns its code, the new context and
    the calls it made to the next filters, in order. *)

From S2P Require Import Prelude NgxNumber NgxEscape SetMisc Redis2 RdsStream RdsJsonOut.

Open Scope Z_scope.

Module RdsJsonFilter.

Export RdsJson.

Definition NGX_HTTP_OK : Z := 200.
Definition NGX_HTTP_NO_CONTENT : Z := 204.
Definition NGX_HTTP_RESET_CONTENT : Z := 205.
Definition NGX_HTTP_SPECIAL_RESPONSE : Z := 300.
Definition NGX_HTTP_INTERNAL_SERVER_ERROR : Z := 500.

(** ** The input *)

(** A buffer of the input, by [ngx_buf_in_memory], [ngx_buf_special] and the bytes from
    [pos] to [last]. *)
Record ibuf := mk_ibuf { in_memory : bool; special : bool; bdata : bytes }.

Definition mbuf (d : bytes) : ibuf := mk_ibuf true false d.

Definition set_bdata (d : bytes) (b : ibuf) : ibuf := mk_ibuf (in_memory b) (special b) d.

(** How each function of the processor finds its buffer: one special buffer is
    skipped; [inl rc] is a return. *)
Definition current_buf (inn : list ibuf) : Z + (ibuf * list ibuf) :=
  match inn with
  | [] => inl NGX_OK
  | b :: inn =>
      if in_memory b then inr (b, inn)
      else if negb (special b) then inl NGX_ERROR
      else
        match inn with
        | [] => inl NGX_OK
        | b :: inn => inr (b, inn)
        end
  end.

(** [if (b->pos == b->last) in = in->next;] with the bytes [d] left in [b]. *)
Definition advance (b : ibuf) (d : bytes) (inn : list ibuf) : list ibuf :=
  if (length d =? 0)%nat then inn else set_bdata d b :: inn.

Definition failed (rc : Z) : bool := (rc =? NGX_ERROR) || (rc >=? NGX_HTTP_SPECIAL_RESPONSE).

Definition failed_strict (rc : Z) : bool := (rc =? NGX_ERROR) || (rc >? NGX_OK).

Section Values.
Context {V : Type}.
Variable evaluate : V → option bytes.
Variable conf : ngx_http_rds_json_loc_conf_t (V := V).
Variable is_main : bool.

(** ** ngx_http_rds_json_processor.c *)

Fixpoint ngx_http_rds_json_process_row (fuel : nat) (inn : list ibuf) (s : ngx_http_rds_json_ctx_t)
    : option (Z * ngx_http_rds_json_ctx_t) :=
  match fuel with
  | O => None
  | S fuel =>
      match current_buf inn with
      | inl rc => Some (rc, s)
      | inr (b, inn) =>
          match bdata b with
          | [] => Some (NGX_ERROR, s)
          | flag :: d =>
              if flag =? 0 then
                let s := set_state state_done s in
                if negb (length d =? 0)%nat then Some (NGX_ERROR, s)
                else if negb (length (root conf) =? 0)%nat
                then ngx_http_rds_json_output_literal conf is_main ["]"%ch; "}"%ch] true s
                else ngx_http_rds_json_output_literal conf is_main ["]"%ch] true s
              else
                let s := set_row (wrap_u 64 (row s + 1)) s in
                let s := set_state state_expect_field (set_cur_col 0 s) in
                ngx_http_rds_json_process_field fuel (advance b d inn) s
          end
      end
  end
with ngx_http_rds_json_process_field (fuel : nat) (inn : list ibuf) (s : ngx_http_rds_json_ctx_t)
    : option (Z * ngx_http_rds_json_ctx_t) :=
  match fuel with
  | O => None
  | S fuel =>
      match current_buf inn with
      | inl rc => Some (rc, s)
      | inr (b, inn) =>
          if Z.of_nat (length (bdata b)) <? 4 then Some (NGX_ERROR, s)
          else
            let total := u32 (bdata b) in
            let d := drop 4 (bdata b) in
            let is_null := total =? 2 ^ 32 - 1 in
            let total := if is_null then 0 else total in
            let len := if is_null then 0
              else (let len := wrap_u 32 (Z.of_nat (length d)) in
                    if len >=? total then total else len) in
            let s := set_field_data_rest (total - len) s in
            match ngx_http_rds_json_output_field conf (take (Z.to_nat len) d) is_null s with
            | None => None
            | Some (rc, s) =>
                if failed rc then Some (rc, s)
                else
                  let inn := advance b (drop (Z.to_nat len) d) inn in
                  if len <? total then
                    ngx_http_rds_json_process_more_field_data fuel inn
                      (set_state state_expect_more_field_data s)
                  else
                    let s := set_cur_col (cur_col s + 1) s in
                    if cur_col s >=? ctx_col_count s
                    then ngx_http_rds_json_process_row fuel inn (set_state state_expect_row s)
                    else ngx_http_rds_json_process_field fuel inn s
            end
      end
  end
with ngx_http_rds_json_process_more_field_data (fuel : nat) (inn : list ibuf)
    (s : ngx_http_rds_json_ctx_t) : option (Z * ngx_http_rds_json_ctx_t) :=
  match fuel with
  | O => None
  | S fuel =>
      match inn with
      | [] => Some (NGX_OK, s)
      | b :: inn =>
          if negb (in_memory b) then Some (NGX_ERROR, s)
          else
            let len := Z.of_nat (length (bdata b)) in
            let all := len >=? field_data_rest s in
            let len := if all then field_data_rest s else len in
            let s := set_field_data_rest (if all then 0 else field_data_rest s - len) s in
            match ngx_http_rds_json_output_more_field_data conf (take (Z.to_nat len) (bdata b)) s with
            | None => None
            | Some (rc, s) =>
                if failed rc then Some (rc, s)
                else
                  let inn := advance b (drop (Z.to_nat len) (bdata b)) inn in
                  if negb (field_data_rest s =? 0)
                  then ngx_http_rds_json_process_more_field_data fuel inn s
                  else
                    let s := set_cur_col (cur_col s + 1) s in
                    if cur_col s >=? ctx_col_count s
                    then ngx_http_rds_json_process_row fuel inn (set_state state_expect_row s)
                    else ngx_http_rds_json_process_field fuel inn (set_state state_expect_field s)
            end
      end
  end.

(** What [process_col] writes after the last column; [true] is a return. *)
Definition begin_rows (s : ngx_http_rds_json_ctx_t) : option (bool * Z * ngx_http_rds_json_ctx_t) :=
  match (if negb (length (root conf) =? 0)%nat
         then ngx_http_rds_json_output_props evaluate conf s else Some (NGX_OK, s)) with
  | None => None
  | Some (rc, s) =>
      if failed_strict rc then Some (true, rc, s)
      else
        match ngx_http_rds_json_output_literal conf is_main ["["%ch] false s with
        | None => None
        | Some (rc, s) =>
            if failed_strict rc then Some (true, rc, s)
            else if format conf =? json_format_compact then
              match ngx_http_rds_json_output_cols conf s with
              | None => None
              | Some (rc, s) => Some (failed rc, rc, s)
              end
            else Some (failed rc, rc, s)
        end
  end.

Fixpoint ngx_http_rds_json_process_col (fuel : nat) (inn : list ibuf) (s : ngx_http_rds_json_ctx_t)
    : option (Z * ngx_http_rds_json_ctx_t) :=
  match fuel with
  | O => None
  | S fuel =>
      match current_buf inn with
      | inl rc => Some (rc, s)
      | inr (b, inn) =>
          match ngx_http_rds_parse_col (bdata b) with
          | None => Some (NGX_ERROR, s)
          | Some (c, d) =>
              let s := set_col (cur_col s) c s in
              let inn := advance b d inn in
              let s := set_cur_col (cur_col s + 1) s in
              if cur_col s >=? ctx_col_count s then
                let s := set_row 0 (set_state state_expect_row s) in
                match begin_rows s with
                | None => None
                | Some (stop, rc, s) =>
                    if stop : bool then Some (rc, s) else ngx_http_rds_json_process_row fuel inn s
                end
              else ngx_http_rds_json_process_col fuel inn s
          end
      end
  end.

(** Enough calls for a chain: every call but one of [process_more_field_data] takes a
    byte or a buffer. *)
Fixpoint chain_size (inn : list ibuf) : nat :=
  match inn with
  | [] => O
  | b :: inn => (1 + length (bdata b) + chain_size inn)%nat
  end.

Definition chain_fuel (inn : list ibuf) : nat := (2 + 2 * chain_size inn)%nat.

(** ** Calls to the next filters *)

Inductive action :=
  | next_header                            (* ngx_http_rds_json_next_header_filter(r) *)
  | send_error (status : Z)                (* status; ngx_http_send_header; ngx_http_send_special *)
  | next_error (status : Z)                (* status; next_header_filter; ngx_http_send_special *)
  | next_body (bufs : list obuf)           (* ngx_http_rds_json_next_body_filter(r, ctx->out) *)
  | pass_body (inn : list ibuf).           (* ngx_http_rds_json_next_body_filter(r, in) *)

(** What the next filters answer: the codes of the header and of the body filter, and
    how many of the busy buffers are sent completely. *)
Record env := mk_env { e_header : Z; e_body : Z; e_sent : nat }.

Variable e : env.

Definition ngx_http_rds_json_process_header (inn : list ibuf) (s : ngx_http_rds_json_ctx_t)
    : option (Z * ngx_http_rds_json_ctx_t * list action) :=
  let invalid (s : ngx_http_rds_json_ctx_t) :=
    if negb (header_sent s)
    then Some (NGX_ERROR, set_header_sent true s, [send_error NGX_HTTP_INTERNAL_SERVER_ERROR])
    else Some (NGX_ERROR, s, []) in
  match current_buf inn with
  | inl rc => if rc =? NGX_ERROR then invalid s else Some (rc, s, [])
  | inr (b, inn) =>
      match ngx_http_rds_parse_header (bdata b) with
      | None => invalid s
      | Some (h, d) =>
          if col_count h =? 0 then
            if negb (length d =? 0)%nat then invalid s
            else
              let s := set_state state_done s in
              let '(rc, s, acts) :=
                (if negb (header_sent s) then (e_header e, set_header_sent true s, [next_header])
                 else (NGX_OK, s, [])) in
              if failed rc then Some (rc, s, acts)
              else
                match ngx_http_rds_json_output_header evaluate conf is_main h s with
                | None => None
                | Some (rc, s) => Some (rc, s, acts)
                end
          else
            let s := set_cols (replicate (Z.to_nat (col_count h)) no_column) s in
            let s := set_state state_expect_col s in
            let s := set_ctx_col_count (col_count h) (set_cur_col 0 s) in
            let '(rc, s, acts) :=
              (if negb (header_sent s) then (e_header e, set_header_sent true s, [next_header])
               else (NGX_OK, s, [])) in
            if failed rc then Some (rc, s, acts)
            else
              let inn := advance b d inn in
              match ngx_http_rds_json_process_col (chain_fuel inn) inn s with
              | None => None
              | Some (rc, s) => Some (rc, s, acts)
              end
      end
  end.

(** ** ngx_http_rds_json_output_bufs *)

Definition empty_obuf (b : obuf) : obuf := mk_obuf [] (last_buf b).

Definition ngx_http_rds_json_output_bufs (s : ngx_http_rds_json_ctx_t)
    : Z * ngx_http_rds_json_ctx_t * list action :=
  let m := mem s in
  let m :=
    if seen_stream_end m then
      let m := set_seen_stream_end false m in
      if negb (avail_out m =? 0) then set_avail_out 0 (link_out_buf m) else m
    else m in
  match out m with
  | [] => (NGX_OK, set_mem m s, [])
  | bufs =>
      let acts := [next_body bufs] in
      if failed (e_body e) then (e_body e, set_mem m s, acts)
      else
        let '(free, busy) :=
          ngx_chain_update_chains empty_obuf (e_sent e) (free_bufs m) (busy_bufs m) (out m) in
        (NGX_OK, set_mem (set_out [] (set_busy_bufs busy (set_free_bufs free m))) s, acts)
  end.

(** ** ngx_http_rds_json_body_filter *)

Definition filter_state (inn : list ibuf) (s : ngx_http_rds_json_ctx_t)
    : option (Z * ngx_http_rds_json_ctx_t * list action) :=
  let quiet (o : option (Z * ngx_http_rds_json_ctx_t)) :=
    match o with Some (rc, s) => Some (rc, s, []) | None => None end in
  match state s with
  | state_expect_header => ngx_http_rds_json_process_header inn s
  | state_expect_col => quiet (ngx_http_rds_json_process_col (chain_fuel inn) inn s)
  | state_expect_row => quiet (ngx_http_rds_json_process_row (chain_fuel inn) inn s)
  | state_expect_field => quiet (ngx_http_rds_json_process_field (chain_fuel inn) inn s)
  | state_expect_more_field_data =>
      quiet (ngx_http_rds_json_process_more_field_data (chain_fuel inn) inn s)
  | state_done => Some (NGX_OK, s, [])
  end.

Definition ngx_http_rds_json_body_filter (header_only : bool) (inn : list ibuf)
    (ctx : option ngx_http_rds_json_ctx_t)
    : option (Z * option ngx_http_rds_json_ctx_t * list action) :=
  if (length inn =? 0)%nat || header_only then Some (e_body e, ctx, [pass_body inn])
  else
    match ctx with
    | None => Some (e_body e, ctx, [pass_body inn])
    | Some s =>
        match state s with
        | state_done => Some (NGX_OK, Some s, [])
        | _ =>
            match filter_state inn s with
            | None => None
            | Some (rc, s, acts) =>
                if failed rc then
                  let s := set_state state_done s in
                  if negb (header_sent s) then
                    let status := if rc =? NGX_ERROR then NGX_HTTP_INTERNAL_SERVER_ERROR else rc in
                    Some (NGX_ERROR, Some (set_header_sent true s), acts ++ [next_error status])
                  else Some (NGX_ERROR, Some s, acts)
                else
                  let '(rc, s, acts') := ngx_http_rds_json_output_bufs s in
                  Some (rc, Some s, acts ++ acts')
            end
        end
    end.

(** ** ngx_http_rds_json_header_filter *)

(** What [ngx_pcalloc] and the assignments after it make. *)
Definition new_ctx : ngx_http_rds_json_ctx_t :=
  mk_ctx state_expect_header [] 0 0 0 0 false false
    (mk_mem [] [] [] (mk_obuf [] false) [] None None 0 false).

Record response := mk_response {
  status : Z;
  resp_content_type : bytes;
  content_length : option Z;
  filter_need_in_memory : bool;
  module_ctx : option ngx_http_rds_json_ctx_t
}.

(** [true]: the header goes to the next filter; [false]: it is postponed. *)
Definition ngx_http_rds_json_header_filter (r : response) : bool * response :=
  if (status r <? NGX_HTTP_OK) || (status r >=? NGX_HTTP_SPECIAL_RESPONSE)
     || (status r =? NGX_HTTP_NO_CONTENT) || (status r =? NGX_HTTP_RESET_CONTENT)
  then (true, mk_response (status r) (resp_content_type r) (content_length r)
                (filter_need_in_memory r) None)
  else if enabled conf =? 0 then (true, r)
  else if negb (ngx_http_rds_json_test_content_type (resp_content_type r) =? NGX_OK) then (true, r)
  else (false, mk_response (status r) (default [] (content_type conf)) None true (Some new_ctx)).

(** ** ngx_http_rds_json_ret_handler *)

Definition ret_size (es : bytes) (vs : list (bytes * bytes * Z)) : Z :=
  1 + Z.of_nat (length (errcode_key conf)) + 1 + Z.of_nat (length (errcode conf)) + 1
  + (if negb (length es =? 0)%nat
     then 1 + Z.of_nat (length (errstr_key conf)) + 1 + 1 + Z.of_nat (length es)
          + ngx_http_rds_json_escape_count es + 1 else 0)
  + (if negb (length (success conf) =? 0)%nat
     then Z.of_nat (length (success conf)) + 2 + (if ngx_atoi (errcode conf) =? 0 then 4 else 5) else 0)
  + props_size vs.

(** The properties are written with the comma in front here. *)
Fixpoint ret_props_text (vs : list (bytes * bytes * Z)) : bytes :=
  match vs with
  | [] => []
  | (key, v, escape) :: vs =>
      [","%ch] ++ key ++ [":"%ch] ++ [34] ++ copy_escaped escape v ++ [34] ++ ret_props_text vs
  end.

Definition ret_text (es : bytes) (vs : list (bytes * bytes * Z)) : bytes :=
  ["{"%ch] ++ errcode_key conf ++ [":"%ch] ++ errcode conf
  ++ (if negb (length es =? 0)%nat
      then [","%ch] ++ errstr_key conf ++ [":"%ch] ++ [34]
           ++ copy_escaped (ngx_http_rds_json_escape_count es) es ++ [34] else [])
  ++ (if negb (length (success conf) =? 0)%nat
      then [","%ch] ++ success conf ++ (if ngx_atoi (errcode conf) =? 0 then bs ":true" else bs ":false")
      else [])
  ++ ret_props_text vs ++ ["}"%ch].

(** The buffer of the response; [None] is [NGX_ERROR] before anything is sent. *)
Definition ngx_http_rds_json_ret_handler : option obuf :=
  match Redis2.ngx_http_complex_value evaluate (default Redis2.cv_zero (conf_errstr conf)) with
  | None => None
  | Some es =>
      match eval_props evaluate (user_prop_list conf) with
      | None => None
      | Some vs =>
          let text := ret_text es vs in
          if negb (Z.of_nat (length text) =? ret_size es vs) then None
          else Some (mk_obuf text is_main)
      end
  end.

End Values.

(** ** Directives *)

Section Directives.
Context {V : Type}.

(** [ngx_http_compile_complex_value] of the script engine. *)
Variable compile : bytes → option V.

Definition NGX_CONF_UNSET_UINT : Z := 2 ^ 64 - 1.

Definition ngx_http_rds_json_create_loc_conf : ngx_http_rds_json_loc_conf_t (V := V) :=
  mk_conf NGX_CONF_UNSET NGX_CONF_UNSET_UINT None [] [] None [] [] Redis2.NGX_CONF_UNSET_SIZE [] None.

(** The errors of a directive: the messages that start with its name, and
    [NGX_CONF_ERROR]. *)
Inductive conf_error := is_duplicate | takes_an_empty_value | takes_an_empty_key | sees_buffer_error
  | invalid_value
  | conf_error_logged.

(** A name in quotes, with room for its escapes. *)
Definition quote_key (value : bytes) : conf_error + bytes :=
  let escape := ngx_http_rds_json_escape_count value in
  let len := Z.of_nat (length value) + escape + 2 in
  let text := [34] ++ copy_escaped escape value ++ [34] in
  if negb (Z.of_nat (length text) =? len) then inl sees_buffer_error else inr text.

(** The code that the four directives that set a name share. *)
Definition set_key (current value : bytes) : conf_error + bytes :=
  if negb (length current =? 0)%nat then inl is_duplicate
  else if (length value =? 0)%nat then inl takes_an_empty_value
  else quote_key value.

Definition ngx_http_rds_json_root (value : bytes) (c : ngx_http_rds_json_loc_conf_t (V := V))
    : conf_error + ngx_http_rds_json_loc_conf_t :=
  match set_key (root c) value with
  | inl e => inl e
  | inr t => inr (mk_conf (enabled c) (format c) (content_type c) t (success c) (user_props c)
                    (errcode_key c) (errstr_key c) (buf_size c) (errcode c) (conf_errstr c))
  end.

Definition ngx_http_rds_json_success_property (value : bytes)
    (c : ngx_http_rds_json_loc_conf_t (V := V)) : conf_error + ngx_http_rds_json_loc_conf_t :=
  match set_key (success c) value with
  | inl e => inl e
  | inr t => inr (mk_conf (enabled c) (format c) (content_type c) (root c) t (user_props c)
                    (errcode_key c) (errstr_key c) (buf_size c) (errcode c) (conf_errstr c))
  end.

Definition ngx_http_rds_json_errcode_key (value : bytes) (c : ngx_http_rds_json_loc_conf_t (V := V))
    : conf_error + ngx_http_rds_json_loc_conf_t :=
  match set_key (errcode_key c) value with
  | inl e => inl e
  | inr t => inr (mk_conf (enabled c) (format c) (content_type c) (root c) (success c) (user_props c)
                    t (errstr_key c) (buf_size c) (errcode c) (conf_errstr c))
  end.

Definition ngx_http_rds_json_errstr_key (value : bytes) (c : ngx_http_rds_json_loc_conf_t (V := V))
    : conf_error + ngx_http_rds_json_loc_conf_t :=
  match set_key (errstr_key c) value with
  | inl e => inl e
  | inr t => inr (mk_conf (enabled c) (format c) (content_type c) (root c) (success c) (user_props c)
                    (errcode_key c) t (buf_size c) (errcode c) (conf_errstr c))
  end.

Definition ngx_http_rds_json_user_property (key value : bytes)
    (c : ngx_http_rds_json_loc_conf_t (V := V)) : conf_error + ngx_http_rds_json_loc_conf_t :=
  if (length key =? 0)%nat then inl takes_an_empty_key
  else if (length value =? 0)%nat then inl takes_an_empty_value
  else
    match quote_key key with
    | inl e => inl e
    | inr t =>
        match compile value with
        | None => inl conf_error_logged
        | Some v =>
            inr (mk_conf (enabled c) (format c) (content_type c) (root c) (success c)
                   (Some (user_prop_list c ++ [mk_property t (Redis2.cv_compiled v)]))
                   (errcode_key c) (errstr_key c) (buf_size c) (errcode c) (conf_errstr c))
        end
    end.

Definition ngx_http_rds_json_ret (code es : bytes) (c : ngx_http_rds_json_loc_conf_t (V := V))
    : conf_error + ngx_http_rds_json_loc_conf_t :=
  let set cv := mk_conf (enabled c) (format c) (content_type c) (root c) (success c) (user_props c)
                  (errcode_key c) (errstr_key c) (buf_size c) code (Some cv) in
  if (length code =? 0)%nat then inl conf_error_logged
  else if negb (forallb digit_char code) then inl conf_error_logged
  else if (length es =? 0)%nat then inr (set Redis2.cv_zero)
  else
    match compile es with
    | None => inl conf_error_logged
    | Some v => inr (set (Redis2.cv_compiled v))
    end.

Definition merge_str (conf prev dflt : bytes) : bytes :=
  if (length conf =? 0)%nat then (if (length prev =? 0)%nat then dflt else prev) else conf.

Definition merge_uint (unset conf prev dflt : Z) : Z :=
  if conf =? unset then (if prev =? unset then dflt else prev) else conf.

(** A string that was not set has no data and the length 0.  The directives that set a
    name refuse an empty one, so that the length tells which names were set; the
    content type may be set to an empty string. *)
Definition ngx_http_rds_json_merge_loc_conf (pagesize : Z) (prev conf : ngx_http_rds_json_loc_conf_t (V := V))
    : ngx_http_rds_json_loc_conf_t :=
  let succ := merge_str (success conf) (success prev) [] in
  let props := match user_props conf with None => user_props prev | p => p end in
  let rt := merge_str (root conf) (root prev) [] in
  let rt := if (length rt =? 0)%nat
               && (negb (length succ =? 0)%nat || match props with None => false | Some _ => true end)
            then [34] ++ bs "data" ++ [34] else rt in
  mk_conf (merge_uint NGX_CONF_UNSET (enabled conf) (enabled prev) 0)
    (merge_uint NGX_CONF_UNSET_UINT (format conf) (format prev) json_format_normal)
    (match content_type conf, content_type prev with
     | None, None => Some (bs "application/json")
     | None, t => t
     | t, _ => t
     end)
    rt succ props
    (merge_str (errcode_key conf) (errcode_key prev) ([34] ++ bs "errcode" ++ [34]))
    (merge_str (errstr_key conf) (errstr_key prev) ([34] ++ bs "errstr" ++ [34]))
    (merge_uint Redis2.NGX_CONF_UNSET_SIZE (buf_size conf) (buf_size prev) pagesize)
    (errcode conf) (conf_errstr conf).

End Directives.

End RdsJsonFilter.
