(* ===== verification/RdsJsonProof.v ===== *)
(** What the rds-json filter does with a stream: the JSON text of a result as a
    reference definition, and the proof that the filter writes exactly this text for
    every way in which the stream can be cut into buffers and the buffers into calls.

    The proof follows the cursor of the stream ([Rds.consume]): [tracks] relates the
    context of the filter to the cursor, [rest_json] is the text that is still to be
    written there, and every call keeps "written ++ still to be written" unchanged. *)

From S2P Require Import Prelude NgxNumber NgxEscape SetMisc Redis2 RdsStream RdsJsonOut RdsJsonFilter.

Open Scope Z_scope.

Module RdsJsonProof.

Export RdsJsonFilter.

(** * Specification *)

Definition json_string (s : bytes) : bytes := [34] ++ ngx_http_rds_json_escape_json_str s ++ [34].

(** The value of a field of column [c]. *)
Definition value_json (c : ngx_http_rds_column_t) (f : field) : bytes :=
  match f with
  | None => bs "null"
  | Some [] => [34; 34]
  | Some d =>
      if (rough_type c =? rds_rough_col_type_int) || (rough_type c =? rds_rough_col_type_float)
      then d
      else if rough_type c =? rds_rough_col_type_bool
      then if default false (bool_value d 0) then bs "true" else bs "false"
      else json_string d
  end.

(** The fields the filter accepts: integers are digits after an optional minus sign,
    booleans are one of [0], [1], [f], [t], [F], [T].  Nothing is asked of floats. *)
Definition field_ok (c : ngx_http_rds_column_t) (f : field) : bool :=
  match f with
  | None | Some [] => true
  | Some d =>
      if rough_type c =? rds_rough_col_type_float then true
      else if rough_type c =? rds_rough_col_type_int then int_chars d
      else if rough_type c =? rds_rough_col_type_bool then
        match bool_value d 0 with Some _ => true | None => false end
      else true
  end.

Definition row_ok (cs : list ngx_http_rds_column_t) (fs : list field) : Prop :=
  Forall2 (fun c f => field_ok c f = true ∧ field_fits f) cs fs.

(** What is accepted as the rest of a field whose first bytes were accepted. *)
Definition more_ok (c : ngx_http_rds_column_t) (d : bytes) : bool :=
  if rough_type c =? rds_rough_col_type_float then true
  else if rough_type c =? rds_rough_col_type_int then forallb digit_char d
  else negb (rough_type c =? rds_rough_col_type_bool).

(** The rest of a value whose first bytes were written. *)
Definition more_json (c : ngx_http_rds_column_t) (d : bytes) : bytes :=
  if (rough_type c =? rds_rough_col_type_int) || (rough_type c =? rds_rough_col_type_float)
  then d else ngx_http_rds_json_escape_json_str d ++ [34].

(** The first bytes of such a value. *)
Definition begin_json (c : ngx_http_rds_column_t) (d : bytes) : bytes :=
  if (rough_type c =? rds_rough_col_type_int) || (rough_type c =? rds_rough_col_type_float)
  then d else [34] ++ ngx_http_rds_json_escape_json_str d.

Section Table.
Context {V : Type} (conf : ngx_http_rds_json_loc_conf_t (V := V)) (is_main : bool).
Context (C : list ngx_http_rds_column_t) (vs : list (bytes * bytes)).

Let n : Z := Z.of_nat (length C).

(** What comes before the value of column [i] in row [k]. *)
Definition lead_json (k i : Z) (c : ngx_http_rds_column_t) : bytes :=
  if format conf =? json_format_normal then
    (if i =? 0 then (if k =? 1 then ["{"%ch] else [","%ch; "{"%ch]) else [","%ch])
    ++ json_string (name c) ++ [":"%ch]
  else if i =? 0 then [","%ch; "["%ch] else [","%ch].

Definition tail_json (i : Z) : bytes :=
  if i =? n - 1 then (if format conf =? json_format_normal then ["}"%ch] else ["]"%ch]) else [].

Fixpoint fields_json (k i : Z) (cs : list ngx_http_rds_column_t) (fs : list field) : bytes :=
  match cs, fs with
  | c :: cs, f :: fs => lead_json k i c ++ value_json c f ++ tail_json i ++ fields_json k (i + 1) cs fs
  | _, _ => []
  end.

Fixpoint rows_json (k : Z) (rows : list (list field)) : bytes :=
  match rows with
  | [] => []
  | fs :: rows => fields_json k 0 C fs ++ rows_json (k + 1) rows
  end.

Definition open_json : bytes :=
  (if negb (length (root conf) =? 0)%nat
   then ["{"%ch] ++ (if negb (length (success conf) =? 0)%nat then success conf ++ bs ":true," else [])
        ++ props_json vs ++ root conf ++ [":"%ch] else [])
  ++ ["["%ch]
  ++ (if format conf =? json_format_compact then ["["%ch] ++ cols_text C 0 n ++ ["]"%ch] else []).

Definition close_json : bytes :=
  if negb (length (root conf) =? 0)%nat then ["]"%ch; "}"%ch] else ["]"%ch].

(** The JSON text of a result with columns. *)
Definition table_json (rows : list (list field)) : bytes :=
  open_json ++ rows_json 1 rows ++ close_json.

(** The text still to be written at a point of the stream, after [k] rows were begun. *)
Definition rest_json (k : Z) (r : cursor) : bytes :=
  match r with
  | at_header _ _ rows | at_col _ rows => table_json rows
  | at_row rows => rows_json (k + 1) rows ++ close_json
  | at_field fs rows =>
      let i := (length C - length fs)%nat in
      fields_json k (Z.of_nat i) (drop i C) fs ++ rows_json (k + 1) rows ++ close_json
  | at_more d fs rows =>
      let i := (length C - length fs - 1)%nat in
      more_json (default no_column (C !! i)) d ++ tail_json (Z.of_nat i)
      ++ fields_json k (Z.of_nat i + 1) (drop (S i) C) fs ++ rows_json (k + 1) rows ++ close_json
  | at_end => []
  end.

(** The rows of a result, after [k] of them were begun. *)
Definition rows_ok (k : Z) (rows : list (list field)) : Prop :=
  Forall (row_ok C) rows ∧ 0 <= k ∧ k + Z.of_nat (length rows) < 2 ^ 64.

(** ** The context of the filter at a point of the stream *)

Definition running (s : ngx_http_rds_json_ctx_t) : Prop :=
  mem_inv (buf_size conf) (mem s) ∧ Forall unmarked (fin (mem s)) ∧ header_sent s = true
  ∧ seen_stream_end (mem s) = false ∧ ctx_col_count s = n ∧ 0 < n.

Definition in_rows (k : Z) (rows : list (list field)) (s : ngx_http_rds_json_ctx_t) : Prop :=
  running s ∧ cols s = C ∧ row s = k ∧ rows_ok k rows.

(** After the end: everything is in the output buffers, and the last of them is marked
    as the end of the response of a main request, unless [rds_json_root] is set. *)
Definition finished (s : ngx_http_rds_json_ctx_t) : Prop :=
  state s = state_done ∧ mem_inv (buf_size conf) (mem s) ∧ header_sent s = true
  ∧ seen_stream_end (mem s) = true
  ∧ ∃ init b, fin (mem s) = init ++ [b] ∧ Forall unmarked init ∧ (root conf = [] → last_buf b = is_main).

Definition tracks (k : Z) (r : cursor) (s : ngx_http_rds_json_ctx_t) : Prop :=
  match r with
  | at_header _ _ _ => False
  | at_col cs rows =>
      running s ∧ state s = state_expect_col ∧ k = 0 ∧ rows_ok 0 rows ∧ Forall col_fits cs ∧ cs ≠ []
      ∧ ∃ pre, C = pre ++ cs ∧ cur_col s = Z.of_nat (length pre)
               ∧ ∃ post, cols s = pre ++ post ∧ length post = length cs
  | at_row rows => in_rows k rows s ∧ state s = state_expect_row
  | at_field fs rows =>
      in_rows k rows s ∧ state s = state_expect_field ∧ fs ≠ []
      ∧ ∃ pre cs, C = pre ++ cs ∧ cur_col s = Z.of_nat (length pre) ∧ row_ok cs fs
  | at_more d fs rows =>
      in_rows k rows s ∧ state s = state_expect_more_field_data
      ∧ ∃ pre c cs, C = pre ++ c :: cs ∧ cur_col s = Z.of_nat (length pre) ∧ row_ok cs fs
          ∧ more_ok c d = true ∧ d ≠ [] ∧ field_data_rest s = Z.of_nat (length d)
          ∧ Z.of_nat (length d) < 2 ^ 32
  | at_end => finished s
  end.

End Table.

(** * Theorems *)

(** ** Values *)

Lemma length_zero_nil (d : bytes) : (length d =? 0)%nat = true ↔ d = [].
Proof. by destruct d. Qed.

(** The code that computes a complete value computes [value_json]. *)
Lemma value_complete (c : ngx_http_rds_column_t) (f : field) :
  field_ok c f = true →
  (∃ v, value_size c (default [] f) 0 (match f with None => true | _ => false end) = Some v)
  ∧ value_text c (default [] f) 0 (match f with None => true | _ => false end) = value_json c f.
Proof.
  destruct f as [[|a d]|]; [by eauto| |by eauto].
  change (default [] (Some (a :: d))) with (a :: d).
  unfold field_ok, value_size, value_text, value_json. cbn [length Nat.eqb].
  destruct (rough_type c =? rds_rough_col_type_float) eqn:Ef.
  { rewrite orb_true_r. by eauto. }
  destruct (rough_type c =? rds_rough_col_type_int); cbn [orb].
  { intros ->. by eauto. }
  destruct (rough_type c =? rds_rough_col_type_bool).
  { destruct (bool_value (a :: d) 0); [by eauto|done]. }
  intros _. rewrite copy_escaped_count. by eauto.
Qed.

Lemma int_chars_app (d1 d2 : bytes) :
  d1 ≠ [] → int_chars (d1 ++ d2) = int_chars d1 && forallb digit_char d2.
Proof.
  destruct d1 as [|a d1]; [done|]. intros _. cbn [app int_chars].
  destruct (a =? "-"%ch); cbn [forallb]; by rewrite forallb_app, ?andb_assoc.
Qed.

Lemma bool_value_singleton (d : bytes) (rest : Z) (b : bool) :
  bool_value d rest = Some b → length d = 1%nat.
Proof.
  unfold bool_value. destruct d as [|a d]; [done|]. split_ifs; try done.
  destruct (Nat.eqb_spec (length (a :: d)) 1); [done|]. cbn [negb orb] in *. done.
Qed.

(** A value that comes in two parts. *)
Lemma value_parts (c : ngx_http_rds_column_t) (d1 d2 : bytes) :
  d1 ≠ [] → d2 ≠ [] → field_ok c (Some (d1 ++ d2)) = true →
  more_ok c d2 = true
  ∧ (∃ v, value_size c d1 (Z.of_nat (length d2)) false = Some v)
  ∧ value_text c d1 (Z.of_nat (length d2)) false = begin_json c d1
  ∧ value_json c (Some (d1 ++ d2)) = begin_json c d1 ++ more_json c d2.
Proof.
  intros H1 H2 H. unfold field_ok in H. unfold more_ok, value_size, value_text, value_json, begin_json, more_json.
  destruct (d1 ++ d2) as [|a d] eqn:E; [by destruct d1|]. rewrite <- E in *.
  rewrite (proj2 (Nat.eqb_neq _ 0)) by (by destruct d1).
  rewrite (proj2 (Z.eqb_neq (Z.of_nat (length d2)) 0)) by (by destruct d2).
  destruct (rough_type c =? rds_rough_col_type_float) eqn:Ef.
  { rewrite orb_true_r. by eauto. }
  destruct (rough_type c =? rds_rough_col_type_int); cbn [orb].
  { rewrite int_chars_app in H by done. apply andb_true_iff in H as [-> ->]. by eauto. }
  destruct (rough_type c =? rds_rough_col_type_bool).
  { destruct (bool_value (d1 ++ d2) 0) as [b|] eqn:Eb; [|done]. apply bool_value_singleton in Eb.
    rewrite length_app in Eb. destruct d1, d2; try done. simpl in Eb. lia. }
  rewrite copy_escaped_count, app_nil_r. split_and!; try done; [by eauto|].
  unfold json_string. by rewrite escape_app, <- !(assoc_L (++)).
Qed.

Lemma more_parts (c : ngx_http_rds_column_t) (d1 d2 : bytes) :
  more_ok c (d1 ++ d2) = true →
  more_ok c d1 = true ∧ more_ok c d2 = true
  ∧ more_json c (d1 ++ d2)
    = (if (rough_type c =? rds_rough_col_type_int) || (rough_type c =? rds_rough_col_type_float)
       then d1 else ngx_http_rds_json_escape_json_str d1) ++ more_json c d2.
Proof.
  unfold more_ok, more_json. destruct (rough_type c =? rds_rough_col_type_float) eqn:Ef.
  { by rewrite orb_true_r. }
  destruct (rough_type c =? rds_rough_col_type_int); cbn [orb].
  { rewrite forallb_app. intros H. by apply andb_true_iff in H as [-> ->]. }
  intros ->. by rewrite escape_app, <- (assoc_L (++)).
Qed.

(** ** Writing in the middle of a result *)

Section Steps.
Context {V : Type} (evaluate : V → option bytes) (conf : ngx_http_rds_json_loc_conf_t (V := V)).
Context (is_main : bool) (C : list ngx_http_rds_column_t) (vs : list (bytes * bytes * Z)).

(** The configurations the directives and their defaults can give. *)
Record conf_ok : Prop := {
  conf_buf : 0 < buf_size conf;
  conf_format : format conf = json_format_normal ∨ format conf = json_format_compact;
  conf_props : eval_props evaluate (user_prop_list conf) = Some vs
}.

Context (Hconf : conf_ok).

(** [s'] is [s] with [text] written. *)
Definition emitted (text : bytes) (s s' : ngx_http_rds_json_ctx_t) : Prop :=
  ∃ m', s' = set_mem m' s ∧ mem_inv (buf_size conf) m' ∧ Forall unmarked (fin m')
        ∧ content m' = content (mem s) ++ text ∧ seen_stream_end m' = seen_stream_end (mem s).

Lemma write_text_emitted (text : bytes) (check : bool) (s : ngx_http_rds_json_ctx_t) :
  mem_inv (buf_size conf) (mem s) → Forall unmarked (fin (mem s)) →
  ∃ s', write_text conf (Z.of_nat (length text)) (Some text) check false s = Some (NGX_OK, s')
        ∧ emitted text s s'.
Proof.
  intros Hm Hu.
  destruct (write_text_spec conf text check false s (conf_buf Hconf) Hm Hu) as (m' & -> & [W1 W2 W3 W4 W5]).
  eexists. split; [done|]. exists m'. split_and!; try done.
  destruct W5 as (init & b & -> & Hi & Hb). apply Forall_app_2; [done|]. by repeat constructor.
Qed.

Lemma running_emitted (text : bytes) (s s' : ngx_http_rds_json_ctx_t) :
  running conf C s → emitted text s s' → running conf C s'.
Proof.
  intros (R1 & R2 & R3 & R4 & R5 & R6) (m' & -> & M1 & M2 & M3 & M4). split_and!; try done. cbn. by rewrite M4.
Qed.

Lemma running_write (text : bytes) (check : bool) (s : ngx_http_rds_json_ctx_t) :
  running conf C s →
  ∃ s', write_text conf (Z.of_nat (length text)) (Some text) check false s = Some (NGX_OK, s')
        ∧ emitted text s s'.
Proof. intros (R1 & R2 & _). by apply write_text_emitted. Qed.

Lemma output_field_emitted (d : bytes) (is_null : bool) (z : Z) (t : bytes) (s : ngx_http_rds_json_ctx_t) :
  running conf C s → field_size conf s d is_null = Some z → field_text conf s d is_null = Some t →
  ∃ s', ngx_http_rds_json_output_field conf d is_null s = Some (NGX_OK, s') ∧ emitted t s s'.
Proof.
  intros Hr Hz Ht. destruct (field_sized conf s d is_null z Hz) as (t' & Et & <-).
  rewrite Ht in Et. injection Et as <-. unfold ngx_http_rds_json_output_field.
  rewrite Hz, Ht. by apply running_write.
Qed.

Lemma output_more_emitted (d : bytes) (z : Z) (t : bytes) (s : ngx_http_rds_json_ctx_t) :
  running conf C s → more_size conf s d = Some z → more_text conf s d = Some t →
  ∃ s', ngx_http_rds_json_output_more_field_data conf d s = Some (NGX_OK, s') ∧ emitted t s s'.
Proof.
  intros Hr Hz Ht. destruct (more_sized conf s d z Hz) as (t' & Et & <-).
  rewrite Ht in Et. injection Et as <-. unfold ngx_http_rds_json_output_more_field_data.
  rewrite Hz, Ht. by apply running_write.
Qed.

(** The frame of a field: what is written before and after its value. *)
Lemma lead_ok (s : ngx_http_rds_json_ctx_t) (c : ngx_http_rds_column_t) :
  lead_text conf s c = Some (lead_json conf (row s) (cur_col s) c) ∧ ∃ z, lead_size conf s c = Some z.
Proof.
  unfold lead_text, lead_size, lead_json. rewrite copy_escaped_count. unfold json_string.
  destruct (conf_format Hconf) as [-> | ->]; cbn [Z.eqb json_format_normal json_format_compact Pos.eqb].
  - rewrite <- !(assoc_L (++)). by eauto.
  - by eauto.
Qed.

Lemma tail_ok (s : ngx_http_rds_json_ctx_t) :
  ctx_col_count s = Z.of_nat (length C) →
  tail_text conf s = Some (if field_data_rest s =? 0 then tail_json conf C (cur_col s) else [])
  ∧ ∃ z, tail_size conf s = Some z.
Proof.
  intros Hn. unfold tail_text, tail_size, last_column, tail_json. rewrite Hn.
  destruct (field_data_rest s =? 0); cbn [andb]; [|by eauto].
  destruct (cur_col s =? _); [|by eauto].
  destruct (conf_format Hconf) as [-> | ->]; cbn [Z.eqb json_format_normal json_format_compact Pos.eqb]; by eauto.
Qed.

(** Where a column is. *)
Lemma get_col_at (s : ngx_http_rds_json_ctx_t) pre c cs :
  cols s = pre ++ c :: cs → cur_col s = Z.of_nat (length pre) → get_col (cur_col s) s = c.
Proof.
  intros H1 H2. unfold get_col. rewrite H1, H2, Nat2Z.id. by rewrite list_lookup_middle.
Qed.

(** A field that is complete in its buffer. *)
Lemma emit_whole (f : field) (s : ngx_http_rds_json_ctx_t) pre c cs :
  running conf C s → C = pre ++ c :: cs → cols s = C → cur_col s = Z.of_nat (length pre) →
  field_ok c f = true → field_data_rest s = 0 →
  ∃ s', ngx_http_rds_json_output_field conf (default [] f) (match f with None => true | _ => false end) s
        = Some (NGX_OK, s')
        ∧ emitted (lead_json conf (row s) (cur_col s) c ++ value_json c f
                   ++ tail_json conf C (cur_col s)) s s'.
Proof.
  intros Hr HC Hc Hi Hf H0. destruct (value_complete c f Hf) as [[v Hv] Ht].
  destruct (lead_ok s c) as [L1 [lz L2]]. destruct (tail_ok s) as [T1 [tz T2]]; [apply Hr|].
  assert (Hg : get_col (cur_col s) s = c) by (eapply get_col_at; [by rewrite Hc|done]).
  eapply output_field_emitted; [done| |]; unfold field_size, field_text; rewrite Hg.
  - rewrite L2. cbn. rewrite H0, andb_false_r, Hv. cbn. rewrite T2. done.
  - rewrite L1. cbn. rewrite T1, H0. cbn. by rewrite Ht.
Qed.

(** The part of a field that is in the first of several buffers. *)
Lemma emit_begin (d1 d2 : bytes) (s : ngx_http_rds_json_ctx_t) pre c cs :
  running conf C s → C = pre ++ c :: cs → cols s = C → cur_col s = Z.of_nat (length pre) →
  d1 ≠ [] → d2 ≠ [] → field_ok c (Some (d1 ++ d2)) = true →
  field_data_rest s = Z.of_nat (length d2) →
  ∃ s', ngx_http_rds_json_output_field conf d1 false s = Some (NGX_OK, s')
        ∧ emitted (lead_json conf (row s) (cur_col s) c ++ begin_json c d1) s s'.
Proof.
  intros Hr HC Hc Hi H1 H2 Hf H0. destruct (value_parts c d1 d2 H1 H2 Hf) as (_ & [v Hv] & Ht & _).
  destruct (lead_ok s c) as [L1 [lz L2]]. destruct (tail_ok s) as [T1 [tz T2]]; [apply Hr|].
  assert (Hg : get_col (cur_col s) s = c) by (eapply get_col_at; [by rewrite Hc|done]).
  eapply output_field_emitted; [done| |]; unfold field_size, field_text; rewrite Hg.
  - rewrite L2. cbn [mbind option_bind]. rewrite (proj2 (Nat.eqb_neq (length d1) 0)) by (by destruct d1). cbn [andb].
    rewrite H0, Hv. cbn [mbind option_bind]. by rewrite T2.
  - rewrite L1. cbn [mbind option_bind]. rewrite T1, H0, Ht. cbn [mbind option_bind].
    rewrite (proj2 (Z.eqb_neq (Z.of_nat (length d2)) 0)) by (by destruct d2). by rewrite app_nil_r.
Qed.

(** The rest of a field, all of it or some of it. *)
Lemma emit_more (d1 d2 : bytes) (s : ngx_http_rds_json_ctx_t) pre c cs :
  running conf C s → C = pre ++ c :: cs → cols s = C → cur_col s = Z.of_nat (length pre) →
  more_ok c (d1 ++ d2) = true → field_data_rest s = Z.of_nat (length d2) →
  ∃ s', ngx_http_rds_json_output_more_field_data conf d1 s = Some (NGX_OK, s')
        ∧ emitted (if bool_decide (d2 = []) then more_json c d1 ++ tail_json conf C (cur_col s)
                   else if (rough_type c =? rds_rough_col_type_int)
                           || (rough_type c =? rds_rough_col_type_float)
                   then d1 else ngx_http_rds_json_escape_json_str d1) s s'.
Proof.
  intros Hr HC Hc Hi Hf H0. destruct (more_parts c d1 d2 Hf) as (M1 & _ & _).
  destruct (tail_ok s) as [T1 [tz T2]]; [apply Hr|].
  assert (Hg : get_col (cur_col s) s = c) by (eapply get_col_at; [by rewrite Hc|done]).
  assert (E : (Z.of_nat (length d2) =? 0) = bool_decide (d2 = [])).
  { destruct d2; [done|]. by rewrite bool_decide_eq_false_2, (proj2 (Z.eqb_neq _ 0)). }
  unfold more_ok in M1. rewrite H0, E in T1.
  assert (∃ z, more_size conf s d1 = Some z) as [z Hz].
  { unfold more_size. rewrite Hg. destruct (rough_type c =? rds_rough_col_type_int) eqn:Ei.
    - destruct (rough_type c =? rds_rough_col_type_float) eqn:Ef.
      { apply Z.eqb_eq in Ei, Ef. rewrite Ei in Ef. by vm_compute in Ef. }
      rewrite M1. cbn. rewrite T2. by eexists.
    - destruct (rough_type c =? rds_rough_col_type_float), (rough_type c =? rds_rough_col_type_bool);
        cbn [mbind option_bind]; rewrite T2; cbn; eauto. }
  eapply output_more_emitted; [done|done|]. unfold more_text. rewrite Hg, T1. cbn. f_equal.
  rewrite copy_escaped_count, H0, E. unfold more_json.
  destruct (rough_type c =? rds_rough_col_type_float) eqn:Ef.
  { rewrite orb_true_r. case_bool_decide; [done|by rewrite app_nil_r]. }
  destruct (rough_type c =? rds_rough_col_type_int); cbn [orb].
  { case_bool_decide; [done|by rewrite app_nil_r]. }
  destruct (rough_type c =? rds_rough_col_type_bool); [done|].
  case_bool_decide; [done|by rewrite !app_nil_r].
Qed.

(** ** One atom of the stream *)

Definition resume (fuel : nat) (inn : list ibuf) (s : ngx_http_rds_json_ctx_t)
    : option (Z * ngx_http_rds_json_ctx_t) :=
  match state s with
  | state_expect_col => ngx_http_rds_json_process_col evaluate conf is_main fuel inn s
  | state_expect_row => ngx_http_rds_json_process_row conf is_main fuel inn s
  | state_expect_field => ngx_http_rds_json_process_field conf is_main fuel inn s
  | state_expect_more_field_data => ngx_http_rds_json_process_more_field_data conf is_main fuel inn s
  | state_expect_header | state_done => Some (NGX_OK, s)
  end.

Abbreviation trk := (tracks conf is_main C).
Abbreviation rest := (rest_json conf C (values_of vs)).
Abbreviation running := (running conf C).

(** [s1] is at [r1] after [s] was at [r], and no text is lost. *)
Definition moves (k : Z) (r : cursor) (s : ngx_http_rds_json_ctx_t)
    (k1 : Z) (r1 : cursor) (s1 : ngx_http_rds_json_ctx_t) : Prop :=
  trk k1 r1 s1 ∧ content (mem s) ++ rest k r = content (mem s1) ++ rest k1 r1.

Lemma drop_at pre c cs :
  C = pre ++ c :: cs → drop (length pre) C = c :: cs ∧ drop (S (length pre)) C = cs.
Proof.
  intros ->. rewrite drop_app_length. split; [done|].
  rewrite drop_app_ge by lia. by replace (S (length pre) - length pre)%nat with 1%nat by lia.
Qed.

Lemma rest_field (k : Z) pre c cs f fs rows :
  C = pre ++ c :: cs → length cs = length fs →
  rest k (at_field (f :: fs) rows)
  = lead_json conf k (Z.of_nat (length pre)) c ++ value_json c f ++ tail_json conf C (Z.of_nat (length pre))
    ++ rest k (after_field fs rows).
Proof.
  intros HC Hl. unfold rest_json at 1.
  assert (Hi : (length C - length (f :: fs))%nat = length pre).
  { rewrite HC, length_app. simpl. lia. }
  destruct (drop_at pre c cs HC) as [Hd Hd']. rewrite Hi, Hd. cbn [fields_json].
  rewrite <- !(assoc_L (++)). do 3 f_equal. unfold after_field.
  destruct fs as [|f' fs]; cbn [rest_json]; [by destruct cs|].
  assert (Hj : (length C - length (f' :: fs))%nat = S (length pre)).
  { rewrite HC, length_app. simpl in *. lia. }
  rewrite Hj, Hd'.
  by replace (Z.of_nat (S (length pre))) with (Z.of_nat (length pre) + 1) by lia.
Qed.

Lemma rest_more (k : Z) pre c cs d fs rows :
  C = pre ++ c :: cs → length cs = length fs →
  rest k (at_more d fs rows)
  = more_json c d ++ tail_json conf C (Z.of_nat (length pre)) ++ rest k (after_field fs rows).
Proof.
  intros HC Hl. unfold rest_json at 1.
  assert (Hi : (length C - length fs - 1)%nat = length pre).
  { rewrite HC, length_app. simpl. lia. }
  rewrite Hi. replace (C !! length pre) with (Some c) by (by rewrite HC, list_lookup_middle).
  change (default no_column (Some c)) with c. do 2 f_equal. unfold after_field.
  destruct (drop_at pre c cs HC) as [_ Hd]. rewrite Hd.
  destruct fs as [|f' fs]; cbn [rest_json]; [by destruct cs|].
  assert (Hj : (length C - length (f' :: fs))%nat = S (length pre)).
  { rewrite HC, length_app. simpl in *. lia. }
  rewrite Hj, Hd.
  by replace (Z.of_nat (S (length pre))) with (Z.of_nat (length pre) + 1) by lia.
Qed.

(** The context after a field: the next column is chosen. *)
Definition next_col (s : ngx_http_rds_json_ctx_t) : ngx_http_rds_json_ctx_t :=
  let s := set_cur_col (cur_col s + 1) s in
  set_state (if cur_col s >=? ctx_col_count s then state_expect_row else state_expect_field) s.

Lemma tracks_after_field (k : Z) (fs : list field) rows pre c cs (s : ngx_http_rds_json_ctx_t) :
  in_rows conf C k rows s → C = pre ++ c :: cs → cur_col s = Z.of_nat (length pre) → row_ok cs fs →
  trk k (after_field fs rows) (next_col s).
Proof.
  intros Hin HC Hi Hok. unfold next_col. cbv zeta. cbn [cur_col set_cur_col ctx_col_count].
  pose proof (Forall2_length _ _ _ Hok) as Hl. destruct Hin as ((R1 & R2 & R3 & R4 & R5 & R6) & Hc & Hk & Hrs).
  assert (Hn : Z.of_nat (length C) = Z.of_nat (length pre) + 1 + Z.of_nat (length cs)).
  { rewrite HC, length_app. simpl. lia. }
  assert (Hin' : ∀ st, in_rows conf C k rows (set_state st (set_cur_col (cur_col s + 1) s))) by done.
  unfold after_field. destruct fs as [|f fs].
  - destruct cs; [|done]. rewrite R5, Hi. destruct (Z.geb_spec (Z.of_nat (length pre) + 1) (Z.of_nat (length C))); [|simpl in *; lia].
    by split.
  - rewrite R5, Hi. destruct (Z.geb_spec (Z.of_nat (length pre) + 1) (Z.of_nat (length C))); [simpl in *; lia|].
    split_and!; try done. exists (pre ++ [c]), cs. rewrite <- (assoc_L (++)). split_and!; try done.
    cbn. rewrite length_app. simpl. lia.
Qed.

(** The length before a field. *)
Definition field_len (f : field) : Z :=
  match f with None => NULL_LEN | Some d => Z.of_nat (length d) end.

Lemma set_state_same (s : ngx_http_rds_json_ctx_t) st : state s = st → set_state st s = s.
Proof. by destruct s; intros <-. Qed.

(** After a field, both [process_field] and [process_more_field_data] go on like this. *)
Lemma resume_next (fuel : nat) (inn : list ibuf) (s : ngx_http_rds_json_ctx_t) :
  resume fuel inn (next_col s)
  = let s := set_cur_col (cur_col s + 1) s in
    if cur_col s >=? ctx_col_count s
    then ngx_http_rds_json_process_row conf is_main fuel inn (set_state state_expect_row s)
    else ngx_http_rds_json_process_field conf is_main fuel inn (set_state state_expect_field s).
Proof. unfold next_col. cbv zeta. by destruct (_ >=? _). Qed.

(** [s1] is [s] with a field finished: its text is written. *)
Lemma moves_field (k : Z) (r : cursor) (s s0 s1 : ngx_http_rds_json_ctx_t) (text : bytes) fs rows pre c cs :
  in_rows conf C k rows s0 → C = pre ++ c :: cs → cur_col s0 = Z.of_nat (length pre) → row_ok cs fs →
  mem s0 = mem s → emitted text s0 s1 → rest k r = text ++ rest k (after_field fs rows) →
  moves k r s k (after_field fs rows) (next_col s1).
Proof.
  intros (Hr & Hc & Hk & Hrs) HC Hi Hok Hm He Hrest.
  pose proof (running_emitted text s0 s1 Hr He) as Hr1. destruct He as (m' & -> & M1 & M2 & M3 & M4).
  split; [by eapply tracks_after_field|]. unfold next_col. cbn [mem set_state set_cur_col set_mem].
  by rewrite M3, Hrest, <- (assoc_L (++)), Hm.
Qed.

Lemma field_step (f : field) fs rows b bufs k s fuel :
  trk k (at_field (f :: fs) rows) s → Z.of_nat (length (default [] f ++ b)) < 2 ^ 32 →
  let d := put_le 4 (field_len f) ++ default [] f ++ b in
  ∃ s1, ngx_http_rds_json_process_field conf is_main (S fuel) (mbuf d :: bufs) s
        = resume fuel (advance (mbuf d) b bufs) s1
        ∧ moves k (at_field (f :: fs) rows) s k (after_field fs rows) s1.
Proof.
  intros (Hin & Hst & _ & pre & cs & HC & Hi & Hok) Hb d.
  inversion Hok as [|c f' cs' fs' [Hf Hfit] Hok' E1 E2]; subst cs f' fs'.
  pose proof (Forall2_length _ _ _ Hok') as Hl.
  cbn [ngx_http_rds_json_process_field current_buf mbuf in_memory bdata].
  assert (Hd4 : length d = (4 + length (default [] f ++ b))%nat).
  { unfold d. by rewrite length_app, put_le_length. }
  destruct (Z.ltb_spec (Z.of_nat (length d)) 4); [lia|].
  assert (Hu : u32 d = field_len f).
  { apply u32_put. unfold field_len, NULL_LEN. rewrite length_app in Hb. destruct f; cbn in Hb; lia. }
  assert (Hd : drop 4 d = default [] f ++ b) by apply drop_put_le.
  rewrite Hu, Hd. cbv zeta.
  assert (Hnull : (field_len f =? 2 ^ 32 - 1) = match f with None => true | _ => false end).
  { unfold field_len, field_fits, NULL_LEN in *. destruct f; [apply Z.eqb_neq; lia|done]. }
  rewrite Hnull. set (isn := match f with None => true | _ => false end).
  set (len := if isn then 0 else _).
  assert (Hlen : len = Z.of_nat (length (default [] f)) ∧ len = (if isn then 0 else field_len f)).
  { unfold len, isn, field_len. destruct f as [d0|]; [|done].
    unfold wrap_u. change (default [] (Some d0)) with d0 in *. rewrite Z.mod_small by lia.
    rewrite length_app. destruct (Z.geb_spec (Z.of_nat (length d0 + length b)) (Z.of_nat (length d0))); lia. }
  destruct Hlen as [Hlen Htot]. rewrite <- Htot, Z.sub_diag, Z.ltb_irrefl, Hlen, take_length_app, drop_length_app.
  assert (Hin0 : in_rows conf C k rows (set_field_data_rest 0 s)) by done. unfold isn.
  destruct (emit_whole f (set_field_data_rest 0 s) pre c cs') as (s1 & -> & He); try done; [by apply Hin..|].
  cbn [failed NGX_OK NGX_ERROR Z.eqb Z.geb Z.compare orb NGX_HTTP_SPECIAL_RESPONSE Pos.eqb].
  exists (next_col s1). split; [rewrite resume_next; cbv zeta|eapply moves_field; try done].
  - assert (state s1 = state_expect_field) as Hs1 by (by destruct He as (m' & -> & _)).
    by rewrite (set_state_same (set_cur_col (cur_col s1 + 1) s1) state_expect_field).
  - destruct Hin as (_ & _ & Hk & _). rewrite (rest_field k pre c cs' f fs rows HC Hl).
    cbn [row cur_col set_field_data_rest]. by rewrite Hk, Hi, <- !(assoc_L (++)).
Qed.

Lemma part_step (d1 d2 : bytes) fs rows bufs k s fuel :
  trk k (at_field (Some (d1 ++ d2) :: fs) rows) s → d1 ≠ [] → d2 ≠ [] →
  Z.of_nat (length d1) < 2 ^ 32 →
  let d := put_le 4 (Z.of_nat (length (d1 ++ d2))) ++ d1 in
  ∃ s1, ngx_http_rds_json_process_field conf is_main (S fuel) (mbuf d :: bufs) s = resume fuel bufs s1
        ∧ moves k (at_field (Some (d1 ++ d2) :: fs) rows) s k (at_more d2 fs rows) s1.
Proof.
  intros (Hin & Hst & _ & pre & cs & HC & Hi & Hok) H1 H2 Hb d.
  inversion Hok as [|c f' cs' fs' [Hf Hfit] Hok' E1 E2]; subst cs f' fs'.
  pose proof (Forall2_length _ _ _ Hok') as Hl. unfold field_fits, NULL_LEN in Hfit.
  assert (Hl2 : (0 < length d2)%nat) by (destruct d2; [done|simpl; lia]).
  cbn [ngx_http_rds_json_process_field current_buf mbuf in_memory bdata].
  assert (Hd4 : length d = (4 + length d1)%nat) by (unfold d; by rewrite length_app, put_le_length).
  destruct (Z.ltb_spec (Z.of_nat (length d)) 4); [lia|].
  assert (Hu : u32 d = Z.of_nat (length (d1 ++ d2))) by (apply u32_put; lia).
  assert (Hd : drop 4 d = d1) by apply drop_put_le.
  rewrite Hu, Hd. cbv zeta. rewrite (proj2 (Z.eqb_neq _ _)) by lia.
  unfold wrap_u. rewrite Z.mod_small by lia. rewrite length_app, Nat2Z.inj_add in *.
  destruct (Z.geb_spec (Z.of_nat (length d1)) (Z.of_nat (length d1) + Z.of_nat (length d2))); [lia|].
  replace (Z.of_nat (length d1) + Z.of_nat (length d2) - Z.of_nat (length d1)) with (Z.of_nat (length d2)) by lia.
  rewrite Nat2Z.id, take_ge, drop_ge by lia.
  destruct (emit_begin d1 d2 (set_field_data_rest (Z.of_nat (length d2)) s) pre c cs') as (s1 & -> & He);
    try done; [by apply Hin..|].
  cbn [failed NGX_OK NGX_ERROR Z.eqb Z.geb Z.compare orb NGX_HTTP_SPECIAL_RESPONSE Pos.eqb].
  destruct (Z.ltb_spec (Z.of_nat (length d1)) (Z.of_nat (length d1) + Z.of_nat (length d2))); [|lia].
  eexists. split; [by instantiate (1 := set_state state_expect_more_field_data s1)|].
  destruct Hin as (Hr & Hc & Hk & Hrs).
  pose proof (running_emitted _ _ _ (Hr : running (set_field_data_rest (Z.of_nat (length d2)) s)) He) as Hr1.
  destruct He as (m' & -> & M1 & M2 & M3 & M4).
  destruct (value_parts c d1 d2 H1 H2 Hf) as (Hmore & _ & _ & Hv). split.
  - split_and!; try done. exists pre, c, cs'. split_and!; try done. lia.
  - cbn [mem set_state set_mem]. rewrite M3. cbn [mem row cur_col set_field_data_rest].
    rewrite (rest_field k pre c cs' _ fs rows HC Hl), (rest_more k pre c cs' d2 fs rows HC Hl).
    by rewrite Hv, Hk, Hi, <- !(assoc_L (++)).
Qed.

Lemma more_step (d b : bytes) fs rows bufs k s fuel :
  trk k (at_more d fs rows) s →
  ∃ s1, ngx_http_rds_json_process_more_field_data conf is_main (S fuel) (mbuf (d ++ b) :: bufs) s
        = resume fuel (advance (mbuf (d ++ b)) b bufs) s1
        ∧ moves k (at_more d fs rows) s k (after_field fs rows) s1.
Proof.
  intros (Hin & Hst & pre & c & cs & HC & Hi & Hok & Hmore & Hd & Hrest & Hlt).
  pose proof (Forall2_length _ _ _ Hok) as Hl.
  cbn [ngx_http_rds_json_process_more_field_data mbuf in_memory bdata negb]. cbv zeta.
  rewrite Hrest. destruct (Z.geb_spec (Z.of_nat (length (d ++ b))) (Z.of_nat (length d)));
    [|rewrite length_app in *; lia].
  rewrite take_length_app, drop_length_app.
  assert (Hin0 : in_rows conf C k rows (set_field_data_rest 0 s)) by done.
  destruct (emit_more d [] (set_field_data_rest 0 s) pre c cs) as (s1 & -> & He);
    rewrite ?app_nil_r; try done; [by apply Hin..|].
  rewrite bool_decide_eq_true_2 in He by done.
  cbn [failed NGX_OK NGX_ERROR Z.eqb Z.geb Z.compare orb NGX_HTTP_SPECIAL_RESPONSE Pos.eqb].
  assert (field_data_rest s1 = 0) as -> by (by destruct He as (m' & -> & _)). cbn [Z.eqb negb].
  exists (next_col s1). split; [by rewrite resume_next|]. eapply moves_field; try done.
  rewrite (rest_more k pre c cs d fs rows HC Hl). cbn [cur_col set_field_data_rest].
  by rewrite Hi, <- !(assoc_L (++)).
Qed.

Lemma more_part_step (d1 d2 : bytes) fs rows bufs k s fuel :
  trk k (at_more (d1 ++ d2) fs rows) s → d1 ≠ [] → d2 ≠ [] →
  ∃ s1, ngx_http_rds_json_process_more_field_data conf is_main (S fuel) (mbuf d1 :: bufs) s
        = resume fuel bufs s1
        ∧ moves k (at_more (d1 ++ d2) fs rows) s k (at_more d2 fs rows) s1.
Proof.
  intros (Hin & Hst & pre & c & cs & HC & Hi & Hok & Hmore & Hd & Hrest & Hlt) H1 H2.
  pose proof (Forall2_length _ _ _ Hok) as Hl. rewrite length_app, Nat2Z.inj_add in *.
  assert (Hl2 : (0 < length d2)%nat) by (destruct d2; [done|simpl; lia]).
  cbn [ngx_http_rds_json_process_more_field_data mbuf in_memory bdata negb]. cbv zeta.
  rewrite Hrest. destruct (Z.geb_spec (Z.of_nat (length d1)) (Z.of_nat (length d1) + Z.of_nat (length d2))); [lia|].
  replace (Z.of_nat (length d1) + Z.of_nat (length d2) - Z.of_nat (length d1)) with (Z.of_nat (length d2)) by lia.
  rewrite Nat2Z.id, take_ge, drop_ge by lia.
  destruct (emit_more d1 d2 (set_field_data_rest (Z.of_nat (length d2)) s) pre c cs) as (s1 & -> & He);
    try done; [by apply Hin..|].
  rewrite bool_decide_eq_false_2 in He by done.
  cbn [failed NGX_OK NGX_ERROR Z.eqb Z.geb Z.compare orb NGX_HTTP_SPECIAL_RESPONSE Pos.eqb].
  assert (field_data_rest s1 = Z.of_nat (length d2)) as Hr1 by (by destruct He as (m' & -> & _)).
  rewrite Hr1, (proj2 (Z.eqb_neq _ 0)) by lia. cbn [negb].
  destruct Hin as (Hr & Hc & Hk & Hrs).
  pose proof (running_emitted _ _ _ (Hr : running (set_field_data_rest (Z.of_nat (length d2)) s)) He) as Hrun.
  exists s1. destruct He as (m' & -> & M1 & M2 & M3 & M4).
  destruct (more_parts c d1 d2 Hmore) as (_ & Hm2 & Hv). split; [unfold resume; cbn; by rewrite Hst|]. split.
  - split_and!; try done. exists pre, c, cs. split_and!; try done. lia.
  - cbn [mem set_mem]. rewrite M3. cbn [mem set_field_data_rest].
    rewrite !(rest_more k pre c cs _ fs rows HC Hl). by rewrite Hv, <- !(assoc_L (++)).
Qed.

Lemma row_step (flag : Z) (fs : list field) rows b bufs k s fuel :
  trk k (at_row (fs :: rows)) s → flag ≠ 0 →
  ∃ s1, ngx_http_rds_json_process_row conf is_main (S fuel) (mbuf (flag :: b) :: bufs) s
        = resume fuel (advance (mbuf (flag :: b)) b bufs) s1
        ∧ moves k (at_row (fs :: rows)) s (k + 1) (after_field fs rows) s1.
Proof.
  intros ((Hr & Hc & Hk & Hrs & Hk0 & Hkl) & Hst) Hflag.
  cbn [ngx_http_rds_json_process_row current_buf mbuf in_memory bdata].
  rewrite (proj2 (Z.eqb_neq flag 0)) by done. cbv zeta.
  apply Forall_cons in Hrs as [Hfs Hrs]. pose proof (Forall2_length _ _ _ Hfs) as Hl.
  destruct fs as [|f fs]; [destruct Hr as (_ & _ & _ & _ & _ & Hn); simpl in Hl; lia|].
  cbn [length] in Hkl. cbn [after_field]. eexists. split.
  { by instantiate (1 := set_state state_expect_field (set_cur_col 0 (set_row (wrap_u 64 (row s + 1)) s))). }
  assert (Hw : wrap_u 64 (row s + 1) = k + 1) by (unfold wrap_u; rewrite Hk; apply Z.mod_small; lia).
  split.
  - split_and!; try done; [|by exists [], C].
    split_and!; try done. split_and!; [done|lia|lia].
  - cbn [mem set_state set_cur_col set_row]. f_equal. cbn [rest_json rows_json].
    rewrite Hl, Nat.sub_diag. cbn [drop Z.of_nat]. by rewrite <- (assoc_L (++)).
Qed.

Lemma end_step bufs k s fuel :
  trk k (at_row []) s →
  ∃ s1, ngx_http_rds_json_process_row conf is_main (S fuel) (mbuf [0] :: bufs) s = Some (NGX_OK, s1)
        ∧ moves k (at_row []) s k at_end s1.
Proof.
  intros (((R1 & R2 & R3 & R4 & R5 & R6) & Hc & Hk & Hrs) & Hst).
  cbn [ngx_http_rds_json_process_row current_buf mbuf in_memory bdata Z.eqb length Nat.eqb negb].
  cbv zeta. set (s0 := set_state state_done s).
  assert (Hb := conf_buf Hconf).
  assert (E : ∀ text, (root conf = [] → length text = 1%nat) → ∃ s1,
    ngx_http_rds_json_output_literal conf is_main text true s0 = Some (NGX_OK, s1)
    ∧ finished conf is_main s1 ∧ content (mem s1) = content (mem s) ++ text).
  { intros text Hroot. unfold ngx_http_rds_json_output_literal.
    destruct (write_text_spec conf text false is_main (see_stream_end s0)) as (m' & -> & [W1 W2 W3 W4 W5]);
      [done|by destruct R1|done|].
    eexists. split; [done|]. split; [|done]. split_and!; try done.
    destruct W5 as (init & b & Ef & Hi & Hl). exists init, b. split_and!; try done.
    intros Hr. rewrite Hl. unfold fits. rewrite Hroot by done.
    rewrite (proj2 (Z.leb_le _ _)); [by rewrite andb_true_r|].
    change (avail_out (mem (see_stream_end s0))) with (avail_out (mem s)).
    destruct R1 as [A1 _ _ _ _ _]. destruct (Z.eqb_spec (avail_out (mem s)) 0); lia. }
  unfold moves. cbn [rest_json tracks rows_json app]. unfold close_json.
  destruct (negb (length (root conf) =? 0)%nat) eqn:Er.
  - destruct (E ["]"%ch; "}"%ch]) as (s1 & -> & Hf & Hcont); [by intros H; rewrite H in Er|].
    exists s1. rewrite Hcont, app_nil_r. done.
  - destruct (E ["]"%ch]) as (s1 & -> & Hf & Hcont); [done|].
    exists s1. rewrite Hcont, app_nil_r. done.
Qed.

Lemma emitted_trans (t1 t2 : bytes) (s s1 s2 : ngx_http_rds_json_ctx_t) :
  emitted t1 s s1 → emitted t2 s1 s2 → emitted (t1 ++ t2) s s2.
Proof.
  intros (m1 & -> & _ & _ & C1 & S1) (m2 & -> & M2 & U2 & C2 & S2). exists m2.
  split_and!; try done; cbn in *; [by rewrite C2, C1, (assoc_L (++))|by rewrite S2].
Qed.

Lemma emitted_nil (s : ngx_http_rds_json_ctx_t) : running s → emitted [] s s.
Proof. intros (R1 & R2 & _). exists (mem s). rewrite app_nil_r. by destruct s. Qed.

(** What is written before the rows. *)
Lemma props_step (s : ngx_http_rds_json_ctx_t) :
  running s →
  ∃ s1, ngx_http_rds_json_output_props evaluate conf s = Some (NGX_OK, s1)
        ∧ emitted (["{"%ch] ++ (if negb (length (success conf) =? 0)%nat then success conf ++ bs ":true," else [])
                   ++ props_json (values_of vs) ++ root conf ++ [":"%ch]) s s1.
Proof.
  intros Hr. unfold ngx_http_rds_json_output_props. rewrite (conf_props Hconf). cbv zeta.
  destruct (eval_props_counted evaluate _ _ (conf_props Hconf)) as [E1 E2]. rewrite E1 in *.
  set (text := ["{"%ch] ++ _).
  assert (E : 2 + Z.of_nat (length (root conf))
    + (if negb (length (success conf) =? 0)%nat then 6 + Z.of_nat (length (success conf)) else 0)
    + props_size vs = Z.of_nat (length text)).
  { unfold text. rewrite E2, !length_app. destruct (negb _); rewrite ?length_app;
      change (length (bs ":true,")) with 6%nat; simpl length; lia. }
  rewrite E. by apply running_write.
Qed.

Lemma begin_rows_step (s : ngx_http_rds_json_ctx_t) :
  running s → cols s = C →
  ∃ s1 g, begin_rows evaluate conf is_main s = Some (false, NGX_OK, s1)
          ∧ emitted (open_json conf C (values_of vs)) (set_generated_col_names g s) s1.
Proof.
  intros Hr Hc. unfold begin_rows, open_json.
  assert (∃ s1, (if negb (length (root conf) =? 0)%nat
      then ngx_http_rds_json_output_props evaluate conf s else Some (NGX_OK, s)) = Some (NGX_OK, s1)
    ∧ emitted (if negb (length (root conf) =? 0)%nat
        then ["{"%ch] ++ (if negb (length (success conf) =? 0)%nat then success conf ++ bs ":true," else [])
             ++ props_json (values_of vs) ++ root conf ++ [":"%ch] else []) s s1) as (s1 & -> & H1).
  { destruct (negb _); [by apply props_step|]. exists s. split; [done|]. by apply emitted_nil. }
  cbn [failed_strict NGX_OK NGX_ERROR Z.eqb Z.gtb Z.compare orb Pos.eqb].
  pose proof (running_emitted _ _ _ Hr H1) as Hr1. unfold ngx_http_rds_json_output_literal.
  destruct (running_write ["["%ch] false s1 Hr1) as (s2 & E2 & H2). rewrite E2. clear E2.
  cbn [failed failed_strict NGX_OK NGX_ERROR Z.eqb Z.gtb Z.geb Z.compare orb Pos.eqb NGX_HTTP_SPECIAL_RESPONSE].
  pose proof (emitted_trans _ _ _ _ _ H1 H2) as H12. pose proof (running_emitted _ _ _ Hr H12) as Hr2.
  destruct (format conf =? json_format_compact).
  - unfold ngx_http_rds_json_output_cols. rewrite cols_sized.
    assert (Hn : ctx_col_count s2 = Z.of_nat (length C)) by (by destruct Hr2 as (_ & _ & _ & _ & -> & _)).
    assert (Hc2 : cols s2 = C) by (by destruct H12 as (m & -> & _)).
    rewrite Hn, Hc2, Nat2Z.id, take_ge by lia. cbv zeta.
    set (text := ["["%ch] ++ _).
    replace (2 + _) with (Z.of_nat (length text)) by (unfold text; rewrite !length_app; simpl length; lia).
    destruct (running_write text false (set_generated_col_names true s2) Hr2) as (s3 & -> & H3).
    exists s3, true. split; [done|]. rewrite (assoc_L (++)). eapply emitted_trans; [|exact H3].
    destruct H12 as (m & -> & M1 & M2 & M3 & M4). by exists m.
  - exists s2, (generated_col_names s). rewrite app_nil_r. split; [done|]. by destruct s.
Qed.

Lemma col_step (c : ngx_http_rds_column_t) cs rows b bufs k s fuel :
  trk k (at_col (c :: cs) rows) s →
  ∃ s1, ngx_http_rds_json_process_col evaluate conf is_main (S fuel) (mbuf (col_bytes c ++ b) :: bufs) s
        = resume fuel (advance (mbuf (col_bytes c ++ b)) b bufs) s1
        ∧ moves k (at_col (c :: cs) rows) s k (after_col cs rows) s1.
Proof.
  intros (Hr & Hst & -> & Hrs & Hfit & _ & pre & HC & Hi & post & Hcols & Hpost).
  apply Forall_cons in Hfit as [Hfc Hfit].
  cbn [ngx_http_rds_json_process_col current_buf mbuf in_memory bdata].
  rewrite parse_col_bytes by done. cbv zeta.
  destruct post as [|c0 post]; [done|]. injection Hpost as Hpost.
  assert (Hc1 : <[Z.to_nat (cur_col s) := c]> (cols s) = pre ++ c :: post).
  { rewrite Hi, Hcols, Nat2Z.id. by rewrite insert_app_r_alt, Nat.sub_diag. }
  unfold set_col. rewrite Hc1. cbn [cur_col set_cur_col set_cols ctx_col_count].
  destruct Hr as (R1 & R2 & R3 & R4 & R5 & R6). rewrite R5.
  assert (Hn : Z.of_nat (length C) = Z.of_nat (length pre) + 1 + Z.of_nat (length cs)).
  { rewrite HC, length_app. simpl. lia. }
  fold (set_cols (pre ++ c :: post) s). fold (set_cur_col (cur_col s + 1) (set_cols (pre ++ c :: post) s)).
  set (s0 := set_cur_col (cur_col s + 1) (set_cols (pre ++ c :: post) s)).
  destruct (Z.geb_spec (cur_col s + 1) (Z.of_nat (length C))) as [Hge|Hlt].
  - destruct cs as [|c' cs]; [|simpl in Hn; lia]. destruct post; [|done]. cbn [after_col].
    destruct (begin_rows_step (set_row 0 (set_state state_expect_row s0))) as (s1 & g & -> & H1); [done|done|].
    exists s1. pose proof (running_emitted _ (set_generated_col_names g (set_row 0 (set_state state_expect_row s0))) s1
      ltac:(done) H1) as Hr1.
    destruct H1 as (m & -> & M1 & M2 & M3 & M4). split; [done|]. split.
    + by split_and!.
    + cbn [rest_json mem set_mem]. rewrite M3. unfold table_json. cbn. by rewrite <- !(assoc_L (++)).
  - destruct cs as [|c' cs]; [simpl in Hn; lia|]. cbn [after_col].
    exists s0. split; [unfold resume; cbn; by rewrite Hst|]. split; [|done].
    split_and!; try done. exists (pre ++ [c]). rewrite <- !(assoc_L (++)). split_and!; try done.
    + cbn. rewrite length_app. simpl. lia.
    + exists post. by rewrite <- (assoc_L (++)).
Qed.

(** ** A buffer, a chain of buffers *)

Lemma moves_refl (k : Z) (r : cursor) (s : ngx_http_rds_json_ctx_t) : trk k r s → moves k r s k r s.
Proof. done. Qed.

Lemma moves_trans k r s k1 r1 s1 k2 r2 s2 :
  moves k r s k1 r1 s1 → moves k1 r1 s1 k2 r2 s2 → moves k r s k2 r2 s2.
Proof. intros [_ E1] [T2 E2]. split; [done|]. by rewrite E1, E2. Qed.

Lemma advance_ne (y d : bytes) (bufs : list ibuf) : d ≠ [] → advance (mbuf y) d bufs = mbuf d :: bufs.
Proof. intros H. unfold advance. by rewrite (proj2 (Nat.eqb_neq _ 0)) by (by destruct d). Qed.

Definition reaches (k : Z) (r : cursor) (b : bytes) (r' : cursor) : Prop :=
  ∀ s fuel bufs y, trk k r s → Z.of_nat (length b) < 2 ^ 32 → (length b < fuel)%nat →
  ∃ k' s' fuel', resume fuel (advance (mbuf y) b bufs) s = resume fuel' bufs s'
                 ∧ (fuel <= fuel' + length b)%nat ∧ moves k r s k' r' s'.

(** After one atom, the rest of the buffer. *)
Lemma reaches_step k r s k1 r1 s1 r' (fuel : nat) b d bufs :
  reaches k1 r1 b r' → moves k r s k1 r1 s1 →
  Z.of_nat (length d) < 2 ^ 32 → (length b < length d < S fuel)%nat →
  ∃ k' s' fuel', resume fuel (advance (mbuf d) b bufs) s1 = resume fuel' bufs s'
                 ∧ (S fuel <= fuel' + length d)%nat ∧ moves k r s k' r' s'.
Proof.
  intros IH Hm Hd Hl. destruct (IH s1 fuel bufs d) as (k' & s' & fuel' & E & Hf & Hm'); [apply Hm|lia..|].
  exists k', s', fuel'. split_and!; [done|lia|by eapply moves_trans].
Qed.

Lemma buffer_sim r b r' : consume r b r' → ∀ k, reaches k r b r'.
Proof.
  assert (Hres : ∀ s st, state s = st → ∀ fuel inn, resume fuel inn s = match st with
    | state_expect_col => ngx_http_rds_json_process_col evaluate conf is_main fuel inn s
    | state_expect_row => ngx_http_rds_json_process_row conf is_main fuel inn s
    | state_expect_field => ngx_http_rds_json_process_field conf is_main fuel inn s
    | state_expect_more_field_data => ngx_http_rds_json_process_more_field_data conf is_main fuel inn s
    | _ => Some (NGX_OK, s) end) by (by intros s st <-).
  induction 1 as [r|h cs rows b r' _ _|c cs rows b r' _ IH|flag fs rows b r' Hfl _ IH| |fs rows b r' _ IH
    |d fs rows b r' _ IH|d1 d2 fs rows H1 H2|d fs rows b r' Hd _ IH|d1 d2 fs rows H1 H2];
    intros k s fuel bufs y Ht Hb Hf.
  - exists k, s, fuel. split_and!; [done|lia|done].
  - done.
  - rewrite advance_ne by (intros [E _]%app_nil; done).
    destruct fuel as [|fuel]; [lia|]. pose proof (col_bytes_length c). rewrite length_app in Hb, Hf.
    rewrite (Hres s state_expect_col) by apply Ht.
    destruct (col_step c cs rows b bufs k s fuel Ht) as (s1 & -> & Hm).
    eapply reaches_step; [apply IH|done|rewrite length_app; lia..].
  - rewrite advance_ne by done. destruct fuel as [|fuel]; [lia|]. cbn [length] in Hb, Hf.
    rewrite (Hres s state_expect_row) by apply Ht.
    destruct (row_step flag fs rows b bufs k s fuel Ht Hfl) as (s1 & -> & Hm).
    eapply reaches_step; [apply IH|done|cbn [length]; lia..].
  - rewrite advance_ne by done. destruct fuel as [|fuel]; [lia|]. cbn [length] in Hb, Hf.
    rewrite (Hres s state_expect_row) by apply Ht.
    destruct (end_step bufs k s fuel Ht) as (s1 & -> & Hm).
    exists k, s1, (S fuel). split_and!; [|lia|done]. symmetry. apply (Hres s1 state_done). apply Hm.
  - rewrite advance_ne by (intros [E _]%app_nil; done).
    destruct fuel as [|fuel]; [lia|]. rewrite length_app, put_le_length in Hb, Hf.
    rewrite (Hres s state_expect_field) by apply Ht.
    destruct (field_step None fs rows b bufs k s fuel Ht ltac:(cbn; lia)) as (s1 & E & Hm).
    change (default [] None ++ b) with b in E. cbn [field_len] in E. rewrite E.
    eapply reaches_step; [apply IH|done|rewrite length_app, put_le_length; lia..].
  - rewrite advance_ne by (intros [E _]%app_nil; done).
    destruct fuel as [|fuel]; [lia|]. rewrite !length_app, put_le_length in Hb, Hf.
    rewrite (Hres s state_expect_field) by apply Ht.
    destruct (field_step (Some d) fs rows b bufs k s fuel Ht) as (s1 & E & Hm).
    { change (default [] (Some d)) with d. rewrite length_app. lia. }
    change (default [] (Some d)) with d in E. cbn [field_len] in E. rewrite E.
    eapply reaches_step; [apply IH|done|rewrite !length_app, put_le_length; lia..].
  - rewrite advance_ne by (intros [E _]%app_nil; done).
    destruct fuel as [|fuel]; [lia|]. rewrite (length_app (put_le _ _)), put_le_length in Hb, Hf.
    rewrite (Hres s state_expect_field) by apply Ht.
    destruct (part_step d1 d2 fs rows bufs k s fuel Ht H1 H2 ltac:(lia)) as (s1 & -> & Hm).
    exists k, s1, fuel. split_and!; [done|rewrite (length_app (put_le _ _)), put_le_length; lia|done].
  - rewrite advance_ne by (intros [E _]%app_nil; done).
    assert (0 < length d)%nat by (destruct d; [done|simpl; lia]).
    destruct fuel as [|fuel]; [lia|]. rewrite length_app in Hb, Hf.
    rewrite (Hres s state_expect_more_field_data) by apply Ht.
    destruct (more_step d b fs rows bufs k s fuel Ht) as (s1 & -> & Hm).
    eapply reaches_step; [apply IH|done|rewrite length_app; lia..].
  - rewrite advance_ne by done. destruct fuel as [|fuel]; [lia|].
    assert (0 < length d1)%nat by (destruct d1; [done|simpl; lia]).
    rewrite (Hres s state_expect_more_field_data) by apply Ht.
    destruct (more_part_step d1 d2 fs rows bufs k s fuel Ht H1 H2) as (s1 & -> & Hm).
    exists k, s1, fuel. split_and!; [done|lia|done].
Qed.

Definition small (bufs : list bytes) : Prop := Forall (fun b => Z.of_nat (length b) < 2 ^ 32) bufs.

Lemma chain_sim r bufs r' :
  consumes r bufs r' → ∀ k s fuel, trk k r s → small bufs →
  (chain_size (map mbuf bufs) < fuel)%nat →
  ∃ k' s', resume fuel (map mbuf bufs) s = Some (NGX_OK, s') ∧ moves k r s k' r' s'.
Proof.
  induction 1 as [r|r b r1 bufs r2 Hb Hc _ IH]; intros k s fuel Ht Hs Hf.
  - exists k, s. split; [|done]. destruct fuel as [|fuel]; [lia|]. unfold resume. by destruct (state s).
  - apply Forall_cons in Hs as [Hs1 Hs]. cbn [map chain_size mbuf bdata] in Hf.
    destruct (buffer_sim r b r1 Hc k s fuel (map mbuf bufs) b Ht Hs1 ltac:(lia)) as (k1 & s1 & f1 & E & Hf1 & Hm).
    rewrite advance_ne in E by done. cbn [map]. rewrite E.
    destruct (IH k1 s1 f1 ltac:(apply Hm) Hs ltac:(lia)) as (k2 & s2 & E2 & Hm2).
    exists k2, s2. split; [done|]. by eapply moves_trans.
Qed.

(** ** One call of the body filter *)

(** The next filters accept what they get. *)
Definition env_ok (e : env) : Prop := failed (e_header e) = false ∧ failed (e_body e) = false.

(** The buffers of a list of calls to the next body filter. *)
Definition sent_bufs (acts : list action) : list obuf :=
  concat (map (fun a => match a with next_body bufs => bufs | _ => [] end) acts).

Definition sent (acts : list action) : bytes := concat (map data (sent_bufs acts)).

(** Between two calls nothing is waiting in [out]. *)
Definition idle (k : Z) (r : cursor) (s : ngx_http_rds_json_ctx_t) : Prop :=
  trk k r s ∧ out (mem s) = [].

Lemma free_inv m n' (fb : list obuf) :
  Forall unmarked m → Forall (fun b => b = mk_obuf [] false) fb →
  Forall (fun b => b = mk_obuf [] false) (rev (map empty_obuf (take n' m)) ++ fb).
Proof.
  intros Hm Hfb. apply Forall_app_2; [|done]. apply Forall_rev, Forall_map.
  eapply Forall_impl; [apply Forall_take, Hm|]. intros [d l] H. cbv in H |- *. by subst.
Qed.

(** Before the end of the stream, complete buffers are passed on and the current one is
    kept. *)
Lemma output_bufs_running (e : env) (s : ngx_http_rds_json_ctx_t) :
  env_ok e → running s →
  ∃ m' acts, ngx_http_rds_json_output_bufs e s = (NGX_OK, set_mem m' s, acts)
    ∧ running (set_mem m' s) ∧ out m' = []
    ∧ sent acts ++ content m' = content (mem s) ∧ Forall unmarked (sent_bufs acts)
    ∧ Forall (fun a => ∃ bufs, a = next_body bufs) acts.
Proof.
  intros [_ He] (R1 & R2 & R3 & R4 & R5 & R6). unfold ngx_http_rds_json_output_bufs. rewrite R4. cbv zeta.
  destruct (out (mem s)) as [|b0 bufs] eqn:Eo.
  { exists (mem s), []. destruct s; simpl in *. split_and!; try done. }
  rewrite He. unfold ngx_chain_update_chains. cbv zeta.
  eexists _, [next_body (b0 :: bufs)]. split; [reflexivity|].
  destruct R1 as [A1 A2 A3 A4 A5 A6]. unfold fin in A6, R2. rewrite Eo in A6, R2.
  apply Forall_app in A6 as [A6 A7]. apply Forall_app in R2 as [U1 U2].
  assert (Hbusy : Forall unmarked (busy_bufs (mem s) ++ b0 :: bufs)) by (by apply Forall_app_2).
  split_and!; try done; [split_and!; try done|..].
  - split; cbn; try done.
    + by apply free_inv.
    + by apply Forall_drop.
  - unfold content, fin, sent, sent_bufs. cbn. rewrite Eo. rewrite app_nil_r, map_app, concat_app. done.
  - unfold sent_bufs. cbn. by rewrite app_nil_r.
  - repeat constructor. by eexists.
Qed.

(** At the end of the stream everything is passed on. *)
Lemma output_bufs_end (e : env) (s : ngx_http_rds_json_ctx_t) :
  env_ok e → seen_stream_end (mem s) = true → fin (mem s) ≠ [] →
  ∃ m', ngx_http_rds_json_output_bufs e s = (NGX_OK, set_mem m' s, [next_body (fin (mem s))])
        ∧ content m' = [].
Proof.
  intros [_ He] F4 Ef. unfold ngx_http_rds_json_output_bufs. rewrite F4. cbv zeta.
  set (m := if negb _ then _ else _).
  assert (Hm : out m = fin (mem s)).
  { unfold m, fin. cbn. destruct (avail_out (mem s) =? 0); cbn; [by rewrite app_nil_r|done]. }
  rewrite Hm. destruct (fin (mem s)) as [|b0 bufs]; [done|]. rewrite He.
  unfold ngx_chain_update_chains. cbv zeta. eexists. split; [reflexivity|].
  rewrite content_closed; [done|]. cbn. unfold m. cbn.
  by destruct (Z.eqb_spec (avail_out (mem s)) 0).
Qed.

Lemma output_bufs_finished (e : env) (s : ngx_http_rds_json_ctx_t) :
  env_ok e → finished conf is_main s →
  ∃ m', ngx_http_rds_json_output_bufs e s = (NGX_OK, set_mem m' s, [next_body (fin (mem s))])
        ∧ content m' = [].
Proof.
  intros He (F1 & F2 & F3 & F4 & init & b & Ef & _). apply output_bufs_end; [done..|].
  rewrite Ef. by destruct init.
Qed.

(** What a call leaves behind. *)
Definition called (k : Z) (r : cursor) (pending : bytes) (k' : Z) (r' : cursor)
    (s' : ngx_http_rds_json_ctx_t) (acts : list action) : Prop :=
  Forall (fun a => ∃ bufs, a = next_body bufs) acts
  ∧ pending ++ rest k r = sent acts ++ content (mem s') ++ rest k' r'
  ∧ match r' with
    | at_end => state s' = state_done ∧ content (mem s') = []
                ∧ ∃ init b, sent_bufs acts = init ++ [b] ∧ Forall unmarked init
                            ∧ (root conf = [] → last_buf b = is_main)
    | _ => idle k' r' s' ∧ Forall unmarked (sent_bufs acts)
    end.

Definition is_end (r : cursor) : bool := match r with at_end => true | _ => false end.

Lemma tracks_mem (k : Z) (r : cursor) (s : ngx_http_rds_json_ctx_t) (m : out_mem) :
  is_end r = false → trk k r s → running s ∧ (running (set_mem m s) → trk k r (set_mem m s)).
Proof.
  intros Hr Ht. destruct r; try done.
  - destruct Ht as (H1 & H2). by split.
  - destruct Ht as ((H1 & H2) & H3). by split.
  - destruct Ht as ((H1 & H2) & H3). by split.
  - destruct Ht as ((H1 & H2) & H3). by split.
Qed.

Lemma flush (e : env) k r s0 k' r' s1 :
  env_ok e → moves k r s0 k' r' s1 →
  ∃ s' acts, ngx_http_rds_json_output_bufs e s1 = (NGX_OK, s', acts)
             ∧ called k r (content (mem s0)) k' r' s' acts.
Proof.
  intros He [Ht Em]. destruct (is_end r') eqn:Ee.
  - destruct r'; try done. destruct (output_bufs_finished e s1 He Ht) as (m' & -> & Ho).
    eexists _, _. split; [done|]. destruct Ht as (F1 & F2 & F3 & F4 & init & b & Ef & Hi & Hl).
    split_and!; try done; [by repeat constructor; eexists|..].
    + rewrite Em. cbn [rest_json mem set_mem]. rewrite Ho. unfold sent, sent_bufs. cbn. by rewrite !app_nil_r.
    + exists init, b. unfold sent_bufs. cbn. by rewrite app_nil_r.
  - destruct (tracks_mem k' r' s1 (mem s1) Ee Ht) as [Hr1 _].
    destruct (output_bufs_running e s1 He Hr1) as (m' & acts & -> & Hr & Ho & Hs & Hu & Ha).
    exists (set_mem m' s1), acts. split; [done|]. split_and!; [done|..].
    + cbn [mem set_mem]. by rewrite Em, <- Hs, <- (assoc_L (++)).
    + destruct (tracks_mem k' r' s1 m' Ee Ht) as [_ Ht']. specialize (Ht' Hr). by destruct r'.
Qed.

Definition state_of (r : cursor) : ngx_http_rds_json_state_t :=
  match r with
  | at_header _ _ _ => state_expect_header
  | at_col _ _ => state_expect_col
  | at_row _ => state_expect_row
  | at_field _ _ => state_expect_field
  | at_more _ _ _ => state_expect_more_field_data
  | at_end => state_done
  end.

Lemma tracks_state (k : Z) (r : cursor) (s : ngx_http_rds_json_ctx_t) : trk k r s → state s = state_of r.
Proof. destruct r; intros Ht; [done|apply Ht..]. Qed.

Abbreviation body_filter := (ngx_http_rds_json_body_filter evaluate conf is_main).

Lemma call_running (e : env) (k : Z) (r r' : cursor) (bufs : list bytes) (s : ngx_http_rds_json_ctx_t) :
  env_ok e → trk k r s → is_end r = false → consumes r bufs r' → bufs ≠ [] → small bufs →
  ∃ k' s' acts, body_filter e false (map mbuf bufs) (Some s) = Some (NGX_OK, Some s', acts)
                ∧ called k r (content (mem s)) k' r' s' acts.
Proof.
  intros He Ht Hr Hc Hb Hs.
  destruct (chain_sim r bufs r' Hc k s (chain_fuel (map mbuf bufs)) Ht Hs) as (k' & s1 & E & Hm);
    [unfold chain_fuel; lia|].
  destruct (flush e k r s k' r' s1 He Hm) as (s' & acts & Ef & Hcall).
  exists k', s', acts. split; [|done]. unfold ngx_http_rds_json_body_filter.
  rewrite (proj2 (Nat.eqb_neq _ 0)) by (by destruct bufs). cbn [orb].
  assert (Hst := tracks_state k r s Ht).
  assert (Hfs : filter_state evaluate conf is_main e (map mbuf bufs) s = Some (NGX_OK, s1, [])).
  { unfold filter_state. unfold resume in E. rewrite Hst in *. destruct r; try done; cbn in *; by rewrite E. }
  rewrite Hst, Hfs. destruct r; try done;
    cbn [state_of failed NGX_OK NGX_ERROR Z.eqb Z.geb Z.compare orb NGX_HTTP_SPECIAL_RESPONSE Pos.eqb]; by rewrite Ef.
Qed.

(** The first call: the header of the response goes out, then the stream is read on. *)
Lemma call_header (e : env) (h : ngx_http_rds_header_t) rows (r' : cursor) (bufs : list bytes) :
  env_ok e → header_fits h C → C ≠ [] → Forall col_fits C → rows_ok C 0 rows →
  consumes (at_header h C rows) bufs r' → bufs ≠ [] → small bufs →
  ∃ k' s' acts, body_filter e false (map mbuf bufs) (Some new_ctx)
                = Some (NGX_OK, Some s', next_header :: acts)
                ∧ called 0 (at_header h C rows) [] k' r' s' acts.
Proof.
  intros He Hh HC Hfit Hrows Hc Hb Hs. inversion Hc as [|r b r1 bufs' r2 Hb1 Hc1 Hc2]; subst; [done|].
  inversion Hc1 as [|h' cs' rows' b' r1' Hc3| | | | | | | |]; subst; [done|].
  assert (Ha : after_header C rows = at_col C rows) by (by destruct C). rewrite Ha in Hc3.
  assert (Hcc : 0 < col_count h) by (destruct Hh as (_ & _ & _ & _ & _ & -> & _); destruct C; [done|simpl; lia]).
  pose proof Hh as (Hh1 & Hh2 & Hh3 & Hh4 & Hh5 & Hh6 & Hh7).
  set (s0 := set_header_sent true (set_ctx_col_count (col_count h) (set_cur_col 0 (set_state state_expect_col
    (set_cols (replicate (Z.to_nat (col_count h)) no_column) new_ctx))))).
  assert (Ht : trk 0 (at_col C rows) s0).
  { pose proof (conf_buf Hconf). split_and!; try done.
    - split_and!; try done; [split; try done; cbn; lia|by rewrite <- Hh6].
    - exists []. split_and!; [done|done|]. exists (replicate (Z.to_nat (col_count h)) no_column).
      split; [done|]. rewrite length_replicate. lia. }
  apply Forall_cons in Hs as [Hs1 Hs2]. rewrite length_app in Hs1.
  set (inn := advance (mbuf (header_bytes h ++ b')) b' (map mbuf bufs')).
  assert (∃ bs2, inn = map mbuf bs2 ∧ consumes (at_col C rows) bs2 r' ∧ small bs2) as (bs2 & Hinn & Hc4 & Hs4).
  { unfold inn, advance. destruct (Nat.eqb_spec (length b') 0) as [E|E].
    - destruct b'; [|done]. exists bufs'. split_and!; try done.
      by inversion Hc3; subst; try (by destruct C); try (apply app_nil in H as [? ?]; done).
    - exists (b' :: bufs'). split_and!; try done; [econstructor; [by destruct b'|done|done]|].
      constructor; [lia|done]. }
  destruct (chain_sim (at_col C rows) bs2 r' Hc4 0 s0 (chain_fuel inn) Ht Hs4) as (k' & s1 & E & Hm).
  { rewrite Hinn. unfold chain_fuel. lia. }
  destruct (flush e 0 (at_col C rows) s0 k' r' s1 He Hm) as (s' & acts & Ef & Hcall).
  exists k', s', acts. split; [|exact Hcall]. unfold ngx_http_rds_json_body_filter.
  cbn [map length Nat.eqb orb new_ctx state filter_state]. unfold ngx_http_rds_json_process_header.
  cbn [current_buf mbuf in_memory bdata]. rewrite (parse_header_bytes h C) by done.
  rewrite (proj2 (Z.eqb_neq (col_count h) 0)) by lia. cbv zeta.
  change (header_sent (set_ctx_col_count _ _)) with false. cbn [negb].
  rewrite (proj1 He). fold inn. unfold resume in E. cbn [state s0 set_header_sent set_ctx_col_count set_cur_col set_state] in E.
  rewrite Hinn in *. fold s0. rewrite E.
  cbn [failed NGX_OK NGX_ERROR Z.eqb Z.geb Z.compare orb NGX_HTTP_SPECIAL_RESPONSE Pos.eqb]. by rewrite Ef.
Qed.

(** ** All calls for a response *)

(** The calls of the body filter for a response, each with the answers of the next
    filters and the buffers of its chain. *)
Fixpoint filter_calls (calls : list (env * list ibuf)) (ctx : option ngx_http_rds_json_ctx_t)
    : option (list Z * option ngx_http_rds_json_ctx_t * list action) :=
  match calls with
  | [] => Some ([], ctx, [])
  | (e, inn) :: calls =>
      match body_filter e false inn ctx with
      | None => None
      | Some (rc, ctx, acts) =>
          match filter_calls calls ctx with
          | None => None
          | Some (rcs, ctx, acts') => Some (rc :: rcs, ctx, acts ++ acts')
          end
      end
  end.

(** A call with buffers in memory. *)
Definition mem_call (c : env * list bytes) : env * list ibuf := (c.1, map mbuf c.2).

Definition call_ok (c : env * list bytes) : Prop := env_ok c.1 ∧ c.2 ≠ [] ∧ small c.2.

Definition chains (calls : list (env * list bytes)) : list bytes := concat (map snd calls).

Lemma consumes_app_inv r a b r' : consumes r (a ++ b) r' → ∃ r1, consumes r a r1 ∧ consumes r1 b r'.
Proof.
  revert r. induction a as [|x a IH]; intros r H; [eauto with rds|].
  inversion H as [|? ? r1 ? ? Hx Hc Hr]; subst. apply IH in Hr as (r2 & H1 & H2). eauto with rds.
Qed.

Lemma consumes_end bufs r : consumes at_end bufs r → bufs = [] ∧ r = at_end.
Proof. intros H. inversion H as [|? b r1 ? ? Hb Hc]; subst; [done|]. by inversion Hc; subst. Qed.

(** The whole text, and the mark on the last buffer. *)
Definition delivered (text : bytes) (acts : list action) : Prop :=
  Forall (fun a => ∃ bufs, a = next_body bufs) acts
  ∧ sent acts = text
  ∧ ∃ init b, sent_bufs acts = init ++ [b] ∧ Forall unmarked init ∧ (root conf = [] → last_buf b = is_main).

Lemma sent_bufs_app a b : sent_bufs (a ++ b) = sent_bufs a ++ sent_bufs b.
Proof. unfold sent_bufs. by rewrite map_app, concat_app. Qed.

Lemma sent_app a b : sent (a ++ b) = sent a ++ sent b.
Proof. unfold sent. by rewrite sent_bufs_app, map_app, concat_app. Qed.

(** From what a call left behind to the end. *)
Lemma calls_rest calls : Forall call_ok calls → ∀ k r pending k1 r1 s1 acts1,
  called k r pending k1 r1 s1 acts1 → consumes r1 (chains calls) at_end →
  (∀ h cs rows, r1 ≠ at_header h cs rows) →
  ∃ s' acts, filter_calls (map mem_call calls) (Some s1) = Some (replicate (length calls) NGX_OK, Some s', acts)
             ∧ state s' = state_done ∧ delivered (pending ++ rest k r) (acts1 ++ acts).
Proof.
  induction 1 as [|[e bufs] calls (He & Hb & Hs) Hcs IH]; intros k r pending k1 r1 s1 acts1 (A1 & A2 & A3) Hc Hh.
  - inversion Hc; subst. destruct A3 as (B1 & B2 & init & b & Hi). exists s1, []. rewrite app_nil_r. split_and!; try done.
    rewrite A2, B2. cbn [rest_json app]. rewrite app_nil_r. split_and!; try done. by exists init, b.
  - cbn [chains map concat snd] in Hc. apply consumes_app_inv in Hc as (r2 & Hc1 & Hc2).
    destruct (is_end r1) eqn:Er.
    { destruct r1; try done. by apply consumes_end in Hc1 as [-> _]. }
    assert (Hidle : trk k1 r1 s1 ∧ Forall unmarked (sent_bufs acts1)).
    { destruct r1; try discriminate; destruct A3 as [[Ht _] Hu]; split; assumption. }
    destruct Hidle as [Ht Hu].
    destruct (call_running e k1 r1 r2 bufs s1 He Ht Er Hc1 Hb Hs) as (k2 & s2 & acts2 & E2 & Hcall).
    destruct Hcall as (B1 & B2 & B3).
    destruct (IH k r pending k2 r2 s2 (acts1 ++ acts2)) as (s3 & acts3 & E3 & Hd & Hdel).
    { split_and!; [by apply Forall_app_2|by rewrite A2, B2, sent_app, <- (assoc_L (++))|].
      destruct r2; rewrite sent_bufs_app; try (destruct B3 as [B3 B4]; split; [done|by apply Forall_app_2]).
      destruct B3 as (B3 & B4 & init & b & E & Hi & Hl). split_and!; try done.
      exists (sent_bufs acts1 ++ init), b. rewrite E, (assoc_L (++)). split_and!; try done. by apply Forall_app_2. }
    { done. }
    { intros h cs rows ->. destruct B3 as [[B3 _] _]. done. }
    exists s3, (acts2 ++ acts3). cbn [map filter_calls mem_call fst snd]. rewrite E2, E3. split_and!; try done.
    by rewrite (assoc_L (++)).
Qed.

(** The whole response of a result with columns. *)
Lemma filter_table (h : ngx_http_rds_header_t) rows calls :
  header_fits h C → C ≠ [] → Forall col_fits C → rows_ok C 0 rows → Forall call_ok calls →
  consumes (at_header h C rows) (chains calls) at_end →
  ∃ s' acts, filter_calls (map mem_call calls) (Some new_ctx)
             = Some (replicate (length calls) NGX_OK, Some s', next_header :: acts)
             ∧ state s' = state_done ∧ delivered (table_json conf C (values_of vs) rows) acts.
Proof.
  intros Hh HC Hfit Hrows Hok Hc. destruct calls as [|[e bufs] calls]; [by inversion Hc|].
  apply Forall_cons in Hok as [(He & Hb & Hs) Hok].
  cbn [chains map concat snd] in Hc. apply consumes_app_inv in Hc as (r1 & Hc1 & Hc2).
  destruct (call_header e h rows r1 bufs He Hh HC Hfit Hrows Hc1 Hb Hs) as (k1 & s1 & acts1 & E1 & Hcall).
  destruct (calls_rest calls Hok 0 (at_header h C rows) [] k1 r1 s1 acts1 Hcall Hc2) as (s2 & acts2 & E2 & Hd & Hdel).
  { intros h' cs' rows' ->. by destruct Hcall as (_ & _ & [[? _] _]). }
  exists s2, (acts1 ++ acts2). cbn [map filter_calls mem_call fst snd]. by rewrite E1, E2.
Qed.

End Steps.

End RdsJsonProof.
