(* ===== verification/RdsJsonSafe.v ===== *)
(** The rds-json filter on arbitrary input: whatever bytes the buffers hold and however
    they are cut, every call of the body filter returns, the array of columns is not
    left, no output buffer is overrun, and the header of the response is sent at most
    once and before any body. *)

From S2P Require Import Prelude NgxNumber NgxEscape SetMisc Redis2 RdsStream RdsJsonOut RdsJsonFilter RdsJsonProof.

Open Scope Z_scope.

Module RdsJsonSafe.

Export RdsJsonProof.

(** * The invariant *)

Section Safe.
Context {V : Type} (evaluate : V → option bytes) (conf : ngx_http_rds_json_loc_conf_t (V := V)).
Context (is_main : bool) (Hbuf : 0 < buf_size conf).

(** The output before the end of the stream. *)
Definition mem_good (s : ngx_http_rds_json_ctx_t) : Prop :=
  mem_inv (buf_size conf) (mem s) ∧ Forall unmarked (fin (mem s)) ∧ seen_stream_end (mem s) = false.

Definition cols_good (s : ngx_http_rds_json_ctx_t) : Prop :=
  Z.of_nat (length (cols s)) = ctx_col_count s ∧ 0 < ctx_col_count s.

(** The index of the next column is one of the array. *)
Definition index_good (s : ngx_http_rds_json_ctx_t) : Prop :=
  cols_good s ∧ 0 <= cur_col s < ctx_col_count s.

(** A context that expects more of the stream. *)
Definition good (s : ngx_http_rds_json_ctx_t) : Prop :=
  mem_good s
  ∧ match state s with
    | state_expect_header => header_sent s = false ∧ out (mem s) = []
    | state_expect_col | state_expect_field => header_sent s = true ∧ index_good s
    | state_expect_more_field_data => header_sent s = true ∧ index_good s ∧ 0 <= field_data_rest s
    | state_expect_row => header_sent s = true ∧ cols_good s
    | state_done => False
    end.

(** The end of the stream was seen: what is left is to pass the output on. *)
Definition closing (s : ngx_http_rds_json_ctx_t) : Prop :=
  state s = state_done ∧ header_sent s = true ∧ mem_inv (buf_size conf) (mem s).

Definition ctx_inv (s : ngx_http_rds_json_ctx_t) : Prop :=
  (state s = state_done ∧ header_sent s = true) ∨ good s.

(** How the functions of the processor return: with an error or with [NGX_OK] and a
    context that can go on, the header having been sent. *)
Definition returns (o : option (Z * ngx_http_rds_json_ctx_t)) : Prop :=
  ∃ rc s', o = Some (rc, s') ∧ header_sent s' = true
           ∧ (rc = NGX_ERROR ∨ (rc = NGX_OK ∧ (closing s' ∨ good s'))).

Lemma mem_good_emitted (text : bytes) (s s' : ngx_http_rds_json_ctx_t) :
  mem_good s → emitted conf text s s' → mem_good s'.
Proof.
  intros (M1 & M2 & M3) (m' & -> & E1 & E2 & E3 & E4). split_and!; try done. cbn. by rewrite E4.
Qed.

(** ** The output functions *)

(** An output function fails without a trace, or writes something. *)
Definition writes (o : option (Z * ngx_http_rds_json_ctx_t)) (s : ngx_http_rds_json_ctx_t) : Prop :=
  o = Some (NGX_ERROR, s) ∨ ∃ s' text, o = Some (NGX_OK, s') ∧ emitted conf text s s'.

Lemma write_text_writes (text : bytes) (check : bool) (s : ngx_http_rds_json_ctx_t) :
  mem_good s →
  ∃ s', write_text conf (Z.of_nat (length text)) (Some text) check false s = Some (NGX_OK, s')
        ∧ emitted conf text s s'.
Proof.
  intros (M1 & M2 & M3).
  destruct (write_text_spec conf text check false s Hbuf M1 M2) as (m' & -> & [W1 W2 W3 W4 W5]).
  eexists. split; [done|]. exists m'. split_and!; try done.
  destruct W5 as (init & b & -> & Hi & Hb). apply Forall_app_2; [done|]. by repeat constructor.
Qed.

Lemma output_field_writes (d : bytes) (is_null : bool) (s : ngx_http_rds_json_ctx_t) :
  mem_good s → writes (ngx_http_rds_json_output_field conf d is_null s) s.
Proof.
  intros Hm. unfold ngx_http_rds_json_output_field.
  destruct (field_size conf s d is_null) as [z|] eqn:Ez; [|by left]. right.
  destruct (field_sized conf s d is_null z Ez) as (t & -> & <-).
  destruct (write_text_writes t true s Hm) as (s' & E & He). eauto.
Qed.

Lemma output_more_writes (d : bytes) (s : ngx_http_rds_json_ctx_t) :
  mem_good s → writes (ngx_http_rds_json_output_more_field_data conf d s) s.
Proof.
  intros Hm. unfold ngx_http_rds_json_output_more_field_data.
  destruct (more_size conf s d) as [z|] eqn:Ez; [|by left]. right.
  destruct (more_sized conf s d z Ez) as (t & -> & <-).
  destruct (write_text_writes t true s Hm) as (s' & E & He). eauto.
Qed.

Lemma output_props_writes (s : ngx_http_rds_json_ctx_t) :
  mem_good s → writes (ngx_http_rds_json_output_props evaluate conf s) s.
Proof.
  intros Hm. unfold ngx_http_rds_json_output_props.
  destruct (eval_props evaluate (user_prop_list conf)) as [vs|] eqn:Ev; [|by left]. right. cbv zeta.
  destruct (eval_props_counted evaluate _ _ Ev) as [E1 E2]. rewrite E2.
  set (text := ["{"%ch] ++ _).
  assert (E : 2 + Z.of_nat (length (root conf))
    + (if negb (length (success conf) =? 0)%nat then 6 + Z.of_nat (length (success conf)) else 0)
    + Z.of_nat (length (props_text vs)) = Z.of_nat (length text)).
  { unfold text. rewrite !length_app. destruct (negb _); rewrite ?length_app;
      change (length (bs ":true,")) with 6%nat; simpl length; lia. }
  rewrite E. destruct (write_text_writes text true s Hm) as (s' & Ew & He). eauto.
Qed.

(** The text that ends the stream. *)
Lemma write_last_total (size : Z) (text : bytes) (check last : bool) (s : ngx_http_rds_json_ctx_t) :
  mem_good s → size = Z.of_nat (length text) →
  ∃ m', write_text conf size (Some text) check last (see_stream_end s)
        = Some (NGX_OK, set_mem m' (see_stream_end s)) ∧ mem_inv (buf_size conf) m'.
Proof.
  intros (M1 & M2 & M3) ->.
  destruct (write_text_spec conf text check last (see_stream_end s) Hbuf) as (m' & E & W);
    [by destruct M1|done|]. exists m'. split; [done|apply W].
Qed.

Lemma output_literal_last (text : bytes) (s : ngx_http_rds_json_ctx_t) :
  mem_good s → header_sent s = true → state s = state_done →
  returns (ngx_http_rds_json_output_literal conf is_main text true s).
Proof.
  intros Hm Hh Hs. unfold ngx_http_rds_json_output_literal.
  destruct (write_last_total (Z.of_nat (length text)) text false is_main s Hm eq_refl) as (m' & -> & Hi).
  eexists _, _. split; [done|]. split; [done|]. right. split; [done|]. by left.
Qed.

Lemma begin_rows_total (s : ngx_http_rds_json_ctx_t) :
  mem_good s →
  ∃ stop rc s', begin_rows evaluate conf is_main s = Some (stop, rc, s')
    ∧ (if stop : bool then rc = NGX_ERROR ∧ header_sent s' = header_sent s
       else ∃ text, emitted conf text (set_generated_col_names (generated_col_names s') s) s').
Proof.
  intros Hm. unfold begin_rows.
  assert (H1 : writes (if negb (length (root conf) =? 0)%nat
    then ngx_http_rds_json_output_props evaluate conf s else Some (NGX_OK, s)) s).
  { destruct (negb _); [by apply output_props_writes|]. right. exists s, []. split; [done|].
    exists (mem s). destruct Hm as (M1 & M2 & M3). rewrite app_nil_r. by destruct s. }
  destruct H1 as [->|(s1 & t1 & -> & H1)]; [by eexists _, _, _|].
  cbn [failed_strict NGX_OK NGX_ERROR Z.eqb Z.gtb Z.compare orb Pos.eqb].
  pose proof (mem_good_emitted _ _ _ Hm H1) as Hm1. unfold ngx_http_rds_json_output_literal.
  destruct (write_text_writes ["["%ch] false s1 Hm1) as (s2 & E2 & H2). rewrite E2. clear E2.
  cbn [failed failed_strict NGX_OK NGX_ERROR Z.eqb Z.gtb Z.geb Z.compare orb Pos.eqb NGX_HTTP_SPECIAL_RESPONSE].
  pose proof (emitted_trans conf _ _ _ _ _ H1 H2) as H12. pose proof (mem_good_emitted _ _ _ Hm H12) as Hm2.
  destruct (format conf =? json_format_compact).
  - unfold ngx_http_rds_json_output_cols. rewrite cols_sized. cbv zeta. set (text := ["["%ch] ++ _).
    replace (2 + _) with (Z.of_nat (length text)) by (unfold text; rewrite !length_app; simpl length; lia).
    destruct (write_text_writes text false (set_generated_col_names true s2) Hm2) as (s3 & -> & H3).
    exists false, NGX_OK, s3. split; [done|]. exists ((t1 ++ ["["%ch]) ++ text).
    assert (Hg : generated_col_names s3 = true) by (by destruct H3 as (m & -> & _)). rewrite Hg.
    eapply emitted_trans; [|exact H3]. destruct H12 as (m & -> & M). by exists m.
  - exists false, NGX_OK, s2. split; [done|]. exists (t1 ++ ["["%ch]).
    destruct H12 as (m & -> & M). exists m. by destruct s.
Qed.

(** ** The processor *)

Lemma current_buf_size (inn inn' : list ibuf) (b : ibuf) :
  current_buf inn = inr (b, inn') → (1 + length (bdata b) + chain_size inn' <= chain_size inn)%nat.
Proof.
  unfold current_buf. destruct inn as [|b0 inn]; [done|]. cbn [chain_size].
  destruct (in_memory b0); [by intros [= -> ->]|]. destruct (negb (special b0)); [done|].
  destruct inn as [|b1 inn]; [done|]. intros [= -> ->]. cbn [chain_size]. lia.
Qed.

Lemma current_buf_rc (inn : list ibuf) (rc : Z) :
  current_buf inn = inl rc → rc = NGX_OK ∨ rc = NGX_ERROR.
Proof.
  unfold current_buf. destruct inn as [|b0 inn]; [intros [= <-]; by left|].
  destruct (in_memory b0); [done|]. destruct (negb (special b0)); [intros [= <-]; by right|].
  destruct inn; [intros [= <-]; by left|done].
Qed.

Lemma advance_size (b : ibuf) (d : bytes) (inn : list ibuf) :
  (chain_size (advance b d inn) <= 1 + length d + chain_size inn)%nat
  ∧ (length d = O → (chain_size (advance b d inn) <= chain_size inn)%nat).
Proof.
  unfold advance. destruct (Nat.eqb_spec (length d) 0); cbn [chain_size set_bdata bdata]; split; lia.
Qed.

Lemma returns_rc (rc : Z) (s : ngx_http_rds_json_ctx_t) :
  rc = NGX_OK ∨ rc = NGX_ERROR → good s → header_sent s = true → returns (Some (rc, s)).
Proof. intros Hrc Hg Hh. exists rc, s. split_and!; try done. destruct Hrc as [-> | ->]; [right|by left]. eauto. Qed.

Lemma returns_error (s : ngx_http_rds_json_ctx_t) : header_sent s = true → returns (Some (NGX_ERROR, s)).
Proof. intros. exists NGX_ERROR, s. eauto. Qed.

(** After a field: the next field or the next row, as the code chooses. *)
Lemma next_total (fuel : nat) (inn : list ibuf) (s : ngx_http_rds_json_ctx_t) :
  (∀ s, good s → state s = state_expect_row → returns (ngx_http_rds_json_process_row conf is_main fuel inn s)) →
  (∀ s, good s → state s = state_expect_field → returns (ngx_http_rds_json_process_field conf is_main fuel inn s)) →
  mem_good s → header_sent s = true → index_good s →
  let s := set_cur_col (cur_col s + 1) s in
  returns (if cur_col s >=? ctx_col_count s
           then ngx_http_rds_json_process_row conf is_main fuel inn (set_state state_expect_row s)
           else ngx_http_rds_json_process_field conf is_main fuel inn (set_state state_expect_field s)).
Proof.
  intros IHr IHf Hm Hh [Hc Hi]. cbn [cur_col set_cur_col ctx_col_count].
  destruct (Z.geb_spec (cur_col s + 1) (ctx_col_count s)); [apply IHr|apply IHf]; try done.
  split; [done|]. split; [done|]. split; [done|]. cbn. lia.
Qed.

Lemma rows_total (fuel : nat) :
  (∀ inn s, (2 * chain_size inn < fuel)%nat → good s → state s = state_expect_row →
     returns (ngx_http_rds_json_process_row conf is_main fuel inn s))
  ∧ (∀ inn s, (2 * chain_size inn < fuel)%nat → good s → state s = state_expect_field →
     returns (ngx_http_rds_json_process_field conf is_main fuel inn s))
  ∧ (∀ inn s, (2 * chain_size inn + 1 < fuel)%nat → good s → state s = state_expect_more_field_data →
     returns (ngx_http_rds_json_process_more_field_data conf is_main fuel inn s)).
Proof.
  induction fuel as [|fuel (IHr & IHf & IHm)]; [split_and!; intros; lia|]. split_and!; intros inn s Hf Hg Hst.
  - cbn [ngx_http_rds_json_process_row]. pose proof Hg as [Hm Hg']. rewrite Hst in Hg'. destruct Hg' as [Hh Hc].
    destruct (current_buf inn) as [rc|[b inn']] eqn:Eb; [by apply returns_rc; [eapply current_buf_rc|..]|].
    apply current_buf_size in Eb. destruct (bdata b) as [|flag d] eqn:Ed; [by apply returns_error|].
    destruct (flag =? 0); cbv zeta.
    + destruct (negb (length d =? 0)%nat); [by apply returns_error|].
      destruct (negb (length (root conf) =? 0)%nat); by apply output_literal_last.
    + pose proof (advance_size b d inn') as [H1 H2]. cbn [length] in Eb.
      apply IHf; [lia|split; [done|]|done]. split; [done|]. split; [done|]. destruct Hc. cbn. lia.
  - cbn [ngx_http_rds_json_process_field]. pose proof Hg as [Hm Hg']. rewrite Hst in Hg'. destruct Hg' as [Hh Hi].
    destruct (current_buf inn) as [rc|[b inn']] eqn:Eb; [by apply returns_rc; [eapply current_buf_rc|..]|].
    apply current_buf_size in Eb. destruct (Z.ltb_spec (Z.of_nat (length (bdata b))) 4); [by apply returns_error|].
    cbv zeta. set (total := if u32 (bdata b) =? 2 ^ 32 - 1 then 0 else u32 (bdata b)).
    set (len := if u32 (bdata b) =? 2 ^ 32 - 1 then 0 else _). set (d := drop 4 (bdata b)).
    set (s0 := set_field_data_rest (total - len) s).
    destruct (output_field_writes (take (Z.to_nat len) d) (u32 (bdata b) =? 2 ^ 32 - 1) s0 Hm)
      as [-> | (s1 & t & -> & He)]; [by apply returns_error|].
    cbn [failed NGX_OK NGX_ERROR Z.eqb Z.geb Z.compare orb NGX_HTTP_SPECIAL_RESPONSE Pos.eqb].
    pose proof (mem_good_emitted t s0 s1 Hm He) as Hm1.
    pose proof (advance_size b (drop (Z.to_nat len) d) inn') as [H1 H2].
    assert (Hd : (length (drop (Z.to_nat len) d) + 4 <= length (bdata b))%nat).
    { unfold d. rewrite !length_drop. lia. }
    destruct He as (m' & -> & _). destruct (Z.ltb_spec len total) as [Hlt|Hge].
    + apply IHm; [lia|split; [done|]|done]. split; [done|]. split; [exact Hi|]. change (0 <= total - len). lia.
    + rewrite <- (set_state_same (set_cur_col _ (set_mem m' s0)) state_expect_field) by done.
      apply (next_total fuel (advance b (drop (Z.to_nat len) d) inn') (set_mem m' s0)); try done.
      * intros. apply IHr; [lia|done..].
      * intros. apply IHf; [lia|done..].
  - cbn [ngx_http_rds_json_process_more_field_data]. pose proof Hg as [Hm Hg']. rewrite Hst in Hg'.
    destruct Hg' as (Hh & Hi & H0).
    destruct inn as [|b inn]; [apply returns_rc; by eauto|]. cbn [chain_size] in Hf.
    destruct (negb (in_memory b)); [by apply returns_error|]. cbv zeta.
    set (all := _ >=? field_data_rest s). set (len := if all then _ else _).
    set (s0 := set_field_data_rest _ s).
    destruct (output_more_writes (take (Z.to_nat len) (bdata b)) s0 Hm)
      as [-> | (s1 & t & -> & He)]; [by apply returns_error|].
    cbn [failed NGX_OK NGX_ERROR Z.eqb Z.geb Z.compare orb NGX_HTTP_SPECIAL_RESPONSE Pos.eqb].
    pose proof (mem_good_emitted t s0 s1 Hm He) as Hm1.
    pose proof (advance_size b (drop (Z.to_nat len) (bdata b)) inn) as [H1 H2].
    rewrite length_drop in H1, H2. destruct He as (m' & -> & _).
    destruct (Z.eqb_spec (field_data_rest (set_mem m' s0)) 0) as [E0|E0]; cbn [negb].
    + apply (next_total fuel (advance b (drop (Z.to_nat len) (bdata b)) inn) (set_mem m' s0)); try done.
      * intros. apply IHr; [lia|done..].
      * intros. apply IHf; [lia|done..].
    + assert (all = false ∧ len = Z.of_nat (length (bdata b)) ∧ Z.of_nat (length (bdata b)) < field_data_rest s) as (Ha & Hl & Hlt).
      { cbn in E0. unfold len. destruct all eqn:Ea; [done|]. split_and!; try done.
        unfold all in Ea. destruct (Z.geb_spec (Z.of_nat (length (bdata b))) (field_data_rest s)); [done|lia]. }
      apply IHm; [|split; [done|]|done].
      * specialize (H2 ltac:(rewrite Hl; lia)). lia.
      * cbn [state set_mem]. change (state s0) with (state s). rewrite Hst. split; [done|]. split; [exact Hi|].
        change (0 <= if all then 0 else field_data_rest s - len). rewrite Ha. lia.
Qed.

Lemma col_total (fuel : nat) (inn : list ibuf) (s : ngx_http_rds_json_ctx_t) :
  (2 * chain_size inn < fuel)%nat → good s → state s = state_expect_col →
  returns (ngx_http_rds_json_process_col evaluate conf is_main fuel inn s).
Proof.
  revert inn s. induction fuel as [|fuel IH]; intros inn s Hf Hg Hst; [lia|].
  cbn [ngx_http_rds_json_process_col]. pose proof Hg as [Hm Hg']. rewrite Hst in Hg'. destruct Hg' as [Hh [[Hc Hc0] Hi]].
  destruct (current_buf inn) as [rc|[b inn']] eqn:Eb; [by apply returns_rc; [eapply current_buf_rc|..]|].
  apply current_buf_size in Eb.
  destruct (ngx_http_rds_parse_col (bdata b)) as [[c d]|] eqn:Ep; [|by apply returns_error]. cbv zeta.
  assert (Hd : (length d + 2 <= length (bdata b))%nat).
  { unfold ngx_http_rds_parse_col in Ep. cbv zeta in Ep. split_ifs_in Ep; try done.
    injection Ep as _ <-. rewrite !length_drop in *. lia. }
  pose proof (advance_size b d inn') as [H1 H2].
  set (s0 := set_cur_col (cur_col (set_col (cur_col s) c s) + 1) (set_col (cur_col s) c s)).
  assert (Hc' : cols_good s0) by (split; [cbn; by rewrite length_insert|done]).
  change (cur_col s0) with (cur_col s + 1). change (ctx_col_count s0) with (ctx_col_count s).
  destruct (Z.geb_spec (cur_col s + 1) (ctx_col_count s)).
  - destruct (begin_rows_total (set_row 0 (set_state state_expect_row s0)) Hm) as (stop & rc & s1 & -> & H3).
    destruct stop; [destruct H3 as [-> H3]; apply returns_error; by rewrite H3|].
    destruct H3 as [text H3].
    pose proof (mem_good_emitted _ (set_generated_col_names (generated_col_names s1)
      (set_row 0 (set_state state_expect_row s0))) s1 Hm H3) as Hm1.
    assert (Hs1 : state s1 = state_expect_row ∧ header_sent s1 = true ∧ cols_good s1).
    { destruct H3 as (m' & E & _). rewrite E. by split_and!. }
    destruct Hs1 as (Hs1 & Hs2 & Hs3).
    apply (proj1 (rows_total fuel)); [lia|split; [done|]|done]. by rewrite Hs1.
  - apply IH; [lia|split; [done|]|done]. cbn [s0 set_cur_col state]. change (state (set_col _ _ _)) with (state s).
    rewrite Hst. split; [done|]. split; [done|]. change (0 <= cur_col s + 1 < ctx_col_count s). lia.
Qed.

(** ** The body filter *)

Definition buf_bound (bufs : list obuf) : Prop :=
  Forall (fun b => Z.of_nat (length (data b)) <= buf_size conf) bufs.

Definition only_bodies (acts : list action) : Prop :=
  Forall (fun a => ∃ bufs, a = next_body bufs) acts ∧ buf_bound (sent_bufs acts).

Lemma only_bodies_nil : only_bodies [].
Proof. split; constructor. Qed.

Lemma only_bodies_one (bufs : list obuf) : buf_bound bufs → only_bodies [next_body bufs].
Proof. intros H. split; [by repeat constructor; eexists|]. unfold sent_bufs. cbn. by rewrite app_nil_r. Qed.

Lemma output_bufs_total (e : env) (s : ngx_http_rds_json_ctx_t) :
  mem_inv (buf_size conf) (mem s) →
  ∃ rc m' acts, ngx_http_rds_json_output_bufs e s = (rc, set_mem m' s, acts) ∧ only_bodies acts
                ∧ (mem_good s → mem_good (set_mem m' s)).
Proof.
  intros [A1 A2 A3 A4 A5 A6]. unfold ngx_http_rds_json_output_bufs. cbv zeta.
  set (m := if seen_stream_end (mem s) then _ else mem s).
  assert (Hm : (seen_stream_end (mem s) = false → m = mem s) ∧ buf_bound (out m)).
  { unfold m. destruct (seen_stream_end (mem s)); [split; [done|]|split; [done|]].
    - unfold fin in A6. cbn. destruct (avail_out (mem s) =? 0); cbn; [by rewrite app_nil_r in A6|done].
    - unfold fin in A6. by apply Forall_app in A6 as [A6 _]. }
  destruct Hm as [Hm Hb]. destruct (out m) as [|b0 bufs] eqn:Eo.
  { exists NGX_OK, m, []. split_and!; [done|apply only_bodies_nil|].
    intros Hg. rewrite Hm by apply Hg. by destruct s. }
  destruct (failed (e_body e)).
  { exists (e_body e), m, [next_body (b0 :: bufs)]. split_and!; [done|by apply only_bodies_one|].
    intros Hg. rewrite Hm by apply Hg. by destruct s. }
  unfold ngx_chain_update_chains. cbv zeta.
  eexists NGX_OK, _, [next_body (b0 :: bufs)]. split_and!; [reflexivity|by apply only_bodies_one|].
  intros (G1 & G2 & G3). rewrite Hm in * by done. unfold fin in A6, G2. rewrite Eo in A6, G2.
  apply Forall_app in A6 as [A6 A7]. apply Forall_app in G2 as [U1 U2]. split_and!; try done.
  split; cbn; try done.
  - apply free_inv; [by apply Forall_app_2|done].
  - apply Forall_drop. by apply Forall_app_2.
Qed.

Definition bytes_in (inn : list ibuf) : Prop := Forall (fun b => Forall is_byte (bdata b)) inn.

Lemma get_le_nonneg (l : bytes) : Forall is_byte l → 0 <= get_le l.
Proof. induction 1 as [|b l Hb Hl IH]; cbn [get_le]; unfold is_byte in *; lia. Qed.

Lemma parse_header_count (l d : bytes) (h : ngx_http_rds_header_t) :
  Forall is_byte l → ngx_http_rds_parse_header l = Some (h, d) → 0 <= col_count h.
Proof.
  intros Hl Hp. unfold ngx_http_rds_parse_header in Hp. cbv zeta in Hp. split_ifs_in Hp; try done.
  injection Hp as <- _. cbn [col_count]. apply get_le_nonneg, Forall_take.
  by repeat apply Forall_drop.
Qed.

Lemma current_buf_bytes (inn inn' : list ibuf) (b : ibuf) :
  bytes_in inn → current_buf inn = inr (b, inn') → Forall is_byte (bdata b).
Proof.
  intros Hb. unfold current_buf. destruct Hb as [|b0 inn0 H0 Hb]; [done|].
  destruct (in_memory b0); [by intros [= <- _]|]. destruct (negb (special b0)); [done|].
  destruct Hb as [|b1 inn1 H1 Hb]; [done|]. by intros [= <- _].
Qed.

(** How the first function returns: nothing was read yet, or the response has begun. *)
Definition starts (s : ngx_http_rds_json_ctx_t) (rc : Z) (s' : ngx_http_rds_json_ctx_t)
    (acts : list action) : Prop :=
  (rc = NGX_OK ∧ s' = s ∧ acts = [])
  ∨ (rc = NGX_ERROR ∧ header_sent s' = true ∧ acts = [send_error NGX_HTTP_INTERNAL_SERVER_ERROR])
  ∨ (header_sent s' = true ∧ acts = [next_header]
     ∧ (failed rc = true ∨ (rc = NGX_OK ∧ (closing s' ∨ good s')))).

Lemma header_total (e : env) (inn : list ibuf) (s : ngx_http_rds_json_ctx_t) :
  bytes_in inn → mem_good s → header_sent s = false →
  ∃ rc s' acts, ngx_http_rds_json_process_header evaluate conf is_main e inn s = Some (rc, s', acts)
                ∧ starts s rc s' acts.
Proof.
  intros Hb Hm Hh. unfold ngx_http_rds_json_process_header. cbv zeta. rewrite Hh. cbn [negb].
  assert (Hinv : starts s NGX_ERROR (set_header_sent true s) [send_error NGX_HTTP_INTERNAL_SERVER_ERROR])
    by (right; left; done).
  destruct (current_buf inn) as [rc|[b inn']] eqn:Eb.
  { apply current_buf_rc in Eb as [-> | ->]; cbn [NGX_OK NGX_ERROR Z.eqb Pos.eqb]; [|by eauto].
    eexists _, _, _. split; [done|]. by left. }
  pose proof (current_buf_bytes _ _ _ Hb Eb) as Hbb. apply current_buf_size in Eb.
  destruct (ngx_http_rds_parse_header (bdata b)) as [[h d]|] eqn:Ep; [|by eauto].
  apply parse_header_count in Ep; [|done].
  destruct (Z.eqb_spec (col_count h) 0) as [E0|E0].
  - destruct (negb (length d =? 0)%nat); [by eauto|].
    change (header_sent (set_state state_done s)) with (header_sent s). rewrite Hh. cbn [negb].
    destruct (failed (e_header e)) eqn:Ef.
    { eexists _, _, _. split; [done|]. right; right. by eauto. }
    set (s1 := set_header_sent true (set_state state_done s)). unfold ngx_http_rds_json_output_header.
    destruct (eval_props evaluate (user_prop_list conf)) as [vs|].
    2: { eexists _, _, _. split; [done|]. right; right. by eauto. }
    cbv zeta. destruct (negb (Z.of_nat (length (header_text conf h vs)) =? header_size conf h vs)) eqn:Es.
    + unfold write_text. cbv zeta. rewrite Es. cbn [andb]. eexists _, _, _. split; [done|]. right; right. by eauto.
    + apply negb_false_iff, Z.eqb_eq in Es.
      destruct (write_last_total (header_size conf h vs) (header_text conf h vs) true is_main s1 Hm (eq_sym Es))
        as (m' & -> & Hi).
      eexists _, _, _. split; [done|]. right; right. split_and!; try done. right. split; [done|]. by left.
  - set (s1 := set_ctx_col_count _ _). change (header_sent s1) with (header_sent s). rewrite Hh. cbn [negb].
    destruct (failed (e_header e)) eqn:Ef.
    { eexists _, _, _. split; [done|]. right; right. by eauto. }
    destruct (col_total (chain_fuel (advance b d inn')) (advance b d inn') (set_header_sent true s1))
      as (rc & s2 & -> & Hh2 & Hret); [unfold chain_fuel; lia|split; [done|]|done|].
    { split; [done|]. split; [split|]; cbn; [rewrite length_replicate|..]; lia. }
    eexists _, _, _. split; [done|]. right; right. split_and!; try done.
    destruct Hret as [-> |Hret]; [by left|by right].
Qed.

(** What the body filter does after a failure, when the header was sent. *)
Lemma after_failure (e : env) rc s1 (acts : list action) :
  failed rc = true → header_sent s1 = true →
  (if failed rc then
     let s2 := set_state state_done s1 in
     if negb (header_sent s2) then
       Some (NGX_ERROR, Some (set_header_sent true s2),
             acts ++ [next_error (if rc =? NGX_ERROR then NGX_HTTP_INTERNAL_SERVER_ERROR else rc)])
     else Some (NGX_ERROR, Some s2, acts)
   else let '(rc, s2, acts') := ngx_http_rds_json_output_bufs e s1 in Some (rc, Some s2, acts ++ acts'))
  = Some (NGX_ERROR, Some (set_state state_done s1), acts).
Proof. intros -> Hh1. cbv zeta. change (header_sent (set_state _ _)) with (header_sent s1). by rewrite Hh1. Qed.

Lemma flush_total (e : env) (s : ngx_http_rds_json_ctx_t) :
  closing s ∨ good s →
  ∃ rc s' acts, ngx_http_rds_json_output_bufs e s = (rc, s', acts)
    ∧ only_bodies acts ∧ ctx_inv s' ∧ header_sent s' = header_sent s.
Proof.
  intros Hs. assert (Hm : mem_inv (buf_size conf) (mem s)) by (destruct Hs as [Hs|[Hs _]]; apply Hs).
  destruct (output_bufs_total e s Hm) as (rc & m' & acts & E & Ha & Hg). exists rc, (set_mem m' s), acts.
  split_and!; try done. destruct Hs as [(H1 & H2 & _)|[H1 H2]]; [by left|right]. split; [by apply Hg|].
  cbn [state set_mem]. destruct (state s) eqn:Est; try done. split; [apply H2|].
  unfold ngx_http_rds_json_output_bufs in E. destruct H1 as (_ & _ & H1). destruct H2 as [_ H2].
  rewrite H1, H2 in E. injection E as _ <- _. done.
Qed.

(** What a call of the body filter may do, by whether the header was sent before. *)
Definition call_safe (s s' : ngx_http_rds_json_ctx_t) (acts : list action) : Prop :=
  if header_sent s then header_sent s' = true ∧ only_bodies acts
  else (acts = [] ∧ header_sent s' = false)
       ∨ (header_sent s' = true
          ∧ ((acts = [send_error NGX_HTTP_INTERNAL_SERVER_ERROR] ∧ state s' = state_done)
             ∨ ∃ acts', acts = next_header :: acts' ∧ only_bodies acts')).

(** A call that finds the context in the middle of the stream. *)
Lemma middle_safe (e : env) (s : ngx_http_rds_json_ctx_t) (o : option (Z * ngx_http_rds_json_ctx_t)) :
  header_sent s = true → returns o →
  ∃ rc s' acts,
    match (match o with Some (rc, s) => Some (rc, s, []) | None => None end) with
    | None => None
    | Some (rc, s, acts) =>
        if failed rc then
          let s := set_state state_done s in
          if negb (header_sent s) then
            Some (NGX_ERROR, Some (set_header_sent true s),
                  acts ++ [next_error (if rc =? NGX_ERROR then NGX_HTTP_INTERNAL_SERVER_ERROR else rc)])
          else Some (NGX_ERROR, Some s, acts)
        else let '(rc, s, acts') := ngx_http_rds_json_output_bufs e s in Some (rc, Some s, acts ++ acts')
    end = Some (rc, Some s', acts) ∧ ctx_inv s' ∧ call_safe s s' acts.
Proof.
  intros Hh (rc & s1 & -> & Hh1 & Hret). unfold call_safe. rewrite Hh. destruct Hret as [-> |[-> Hs1]].
  - rewrite after_failure by done. eexists _, _, _. split; [done|]. split; [by left|].
    split; [done|apply only_bodies_nil].
  - cbn [failed NGX_OK NGX_ERROR Z.eqb Z.geb Z.compare orb NGX_HTTP_SPECIAL_RESPONSE Pos.eqb].
    destruct (flush_total e s1 Hs1) as (rc' & s2 & acts & -> & Ha & Hi & Hh2).
    eexists _, _, _. split; [done|]. split_and!; try done. by rewrite Hh2.
Qed.

Lemma body_filter_safe (e : env) (inn : list ibuf) (s : ngx_http_rds_json_ctx_t) :
  ctx_inv s → bytes_in inn → inn ≠ [] →
  ∃ rc s' acts,
    ngx_http_rds_json_body_filter evaluate conf is_main e false inn (Some s) = Some (rc, Some s', acts)
    ∧ ctx_inv s' ∧ call_safe s s' acts.
Proof.
  intros Hinv Hb Hne. unfold ngx_http_rds_json_body_filter.
  rewrite (proj2 (Nat.eqb_neq _ 0)) by (by destruct inn). cbn [orb].
  destruct Hinv as [[Hd Hh]|Hg].
  { rewrite Hd. exists NGX_OK, s, []. split_and!; [done|by left|]. unfold call_safe. rewrite Hh.
    split; [done|apply only_bodies_nil]. }
  unfold filter_state. pose proof Hg as [Hm Hg']. destruct (state s) eqn:Est.
  - destruct Hg' as [Hg' Ho]. unfold call_safe. rewrite Hg'.
    destruct (header_total e inn s Hb Hm Hg') as (rc & s1 & acts & -> & Hst).
    destruct Hst as [(-> & -> & ->)|[(-> & Hh1 & ->)|(Hh1 & -> & Hst)]].
    + cbn [failed NGX_OK NGX_ERROR Z.eqb Z.geb Z.compare orb NGX_HTTP_SPECIAL_RESPONSE Pos.eqb].
      unfold ngx_http_rds_json_output_bufs. destruct Hm as (M1 & M2 & M3). rewrite M3, Ho.
      eexists _, _, _. split; [done|]. destruct s; simpl in *. split; [by right|]. by left.
    + rewrite after_failure by done. eexists _, _, _. split; [done|]. split; [by left|]. right. eauto.
    + destruct Hst as [Hf|[-> Hs1]].
      * rewrite after_failure by done. eexists _, _, _. split; [done|]. split; [by left|]. right. split; [done|].
        right. exists []. split; [done|apply only_bodies_nil].
      * cbn [failed NGX_OK NGX_ERROR Z.eqb Z.geb Z.compare orb NGX_HTTP_SPECIAL_RESPONSE Pos.eqb].
        destruct (flush_total e s1 Hs1) as (rc' & s2 & acts & -> & Ha & Hi & Hh2).
        eexists _, _, _. split; [done|]. split; [done|]. right. split; [by rewrite Hh2|]. right. by exists acts.
  - apply middle_safe; [apply Hg'|]. apply col_total; [unfold chain_fuel; lia|done..].
  - apply middle_safe; [apply Hg'|]. apply rows_total; [unfold chain_fuel; lia|done..].
  - apply middle_safe; [apply Hg'|]. apply rows_total; [unfold chain_fuel; lia|done..].
  - apply middle_safe; [apply Hg'|]. apply rows_total; [unfold chain_fuel; lia|done..].
  - done.
Qed.

Lemma new_ctx_inv : ctx_inv new_ctx.
Proof. right. split; [split_and!|]; try done. split; cbn; try done. lia. Qed.

Lemma only_bodies_app a b : only_bodies a → only_bodies b → only_bodies (a ++ b).
Proof.
  intros [A1 A2] [B1 B2]. split; [by apply Forall_app_2|]. unfold buf_bound. rewrite sent_bufs_app.
  by apply Forall_app_2.
Qed.

(** After the end of the stream, what comes is discarded. *)
Lemma done_calls (calls : list (env * list ibuf)) (s : ngx_http_rds_json_ctx_t) :
  Forall (fun c => c.2 ≠ []) calls → state s = state_done →
  filter_calls evaluate conf is_main calls (Some s) = Some (replicate (length calls) NGX_OK, Some s, []).
Proof.
  intros Hc Hs. induction Hc as [|[e inn] calls Hne Hc IH]; [done|]. cbn [filter_calls length replicate].
  unfold ngx_http_rds_json_body_filter at 1.
  rewrite (proj2 (Nat.eqb_neq _ 0)) by (by destruct inn). cbn [orb]. by rewrite Hs, IH.
Qed.

Lemma calls_safe (calls : list (env * list ibuf)) (s : ngx_http_rds_json_ctx_t) :
  Forall (fun c => bytes_in c.2 ∧ c.2 ≠ []) calls → ctx_inv s →
  ∃ rcs s' acts, filter_calls evaluate conf is_main calls (Some s) = Some (rcs, Some s', acts)
    ∧ ctx_inv s' ∧ call_safe s s' acts.
Proof.
  intros Hc. revert s. induction Hc as [|[e inn] calls [Hb Hne] Hc IH]; intros s Hi; cbn [filter_calls].
  - eexists _, _, _. split; [done|]. split; [done|]. unfold call_safe.
    destruct (header_sent s) eqn:Eh; [split; [done|apply only_bodies_nil]|by left].
  - destruct (body_filter_safe e inn s Hi Hb Hne) as (rc & s1 & a1 & -> & Hi1 & S1).
    destruct (IH s1 Hi1) as (rcs & s2 & a2 & E2 & Hi2 & S2). rewrite E2.
    eexists _, _, _. split; [done|]. split; [done|]. unfold call_safe in *.
    destruct (header_sent s) eqn:Eh.
    + destruct S1 as [S1 B1]. rewrite S1 in S2. destruct S2 as [S2 B2]. split; [done|by apply only_bodies_app].
    + destruct S1 as [[-> S1]|(S1 & S1')]; rewrite S1 in S2; [done|]. destruct S2 as [S2 B2]. right. split; [done|].
      destruct S1' as [[-> Hd]|(a1' & -> & B1)].
      * rewrite done_calls in E2 by (done || (eapply Forall_impl; [exact Hc|]; by intros c [_ ?])).
        injection E2 as _ <- <-. by left.
      * right. exists (a1' ++ a2). split; [done|by apply only_bodies_app].
Qed.

End Safe.


Definition example_conf : ngx_http_rds_json_loc_conf_t (V := bytes) :=
  ngx_http_rds_json_merge_loc_conf 4096 ngx_http_rds_json_create_loc_conf ngx_http_rds_json_create_loc_conf.


End RdsJsonSafe.
