(* ===== verification/RdsJsonTable.v ===== *)
(** The JSON text of a result as a JSON value: the table that the filter writes, read
    back by the reference reader [Json.json_decode], is the array of the rows of the
    result.  This file states the properties of the rds-json module: the response for
    results with and without columns, the [rds_json_ret] handler, the configuration,
    and what goes wrong at the end of a response and with a buffer size of zero. *)

From S2P Require Import Prelude NgxNumber NgxEscape SetMisc Redis2 RdsStream RdsJsonOut Json RdsJsonFilter RdsJsonProof.

Open Scope Z_scope.

Module RdsJsonTable.

Export RdsJsonProof.
Import Json.

(** * The value of a result *)

Definition value_ast (c : ngx_http_rds_column_t) (f : field) : json :=
  match f with
  | None => JNull
  | Some [] => JStr []
  | Some d =>
      if (rough_type c =? rds_rough_col_type_int) || (rough_type c =? rds_rough_col_type_float)
      then JNum d
      else if rough_type c =? rds_rough_col_type_bool then JBool (default false (bool_value d 0))
      else JStr d
  end.

Definition names (C : list ngx_http_rds_column_t) : list bytes := map name C.

Definition row_values (C : list ngx_http_rds_column_t) (fs : list field) : list json :=
  zip_with value_ast C fs.

(** The rows: objects in the normal format; in the compact one arrays, after an array
    with the names of the columns. *)
Definition rows_ast (fmt : Z) (C : list ngx_http_rds_column_t) (rows : list (list field)) : json :=
  if fmt =? json_format_normal
  then JArr (map (fun fs => JObj (zip (names C) (row_values C fs))) rows)
  else JArr (JArr (map JStr (names C)) :: map (fun fs => JArr (row_values C fs)) rows).

(** The names that the configuration gives to the parts of a response; the values of
    the user properties are strings. *)
Record conf_names := mk_names {
  root_name : option bytes;
  success_name : option bytes;
  prop_names : list (bytes * bytes)
}.

Definition quoted (k : option bytes) : bytes := match k with None => [] | Some k => json_quote k end.

Definition members (nm : conf_names) : list (bytes * json) :=
  (match success_name nm with None => [] | Some k => [(k, JBool true)] end)
  ++ map (fun '(k, v) => (k, JStr v)) (prop_names nm).

Definition table_ast (nm : conf_names) (fmt : Z) (C : list ngx_http_rds_column_t)
    (rows : list (list field)) : json :=
  match root_name nm with
  | None => rows_ast fmt C rows
  | Some k => JObj (members nm ++ [(k, rows_ast fmt C rows)])
  end.

(** Fields whose value JSON can hold: the numbers of the data base are JSON numbers. *)
Definition json_field (c : ngx_http_rds_column_t) (f : field) : Prop :=
  match f with
  | None => True
  | Some d =>
      Forall is_byte d
      ∧ (d ≠ [] → (rough_type c =? rds_rough_col_type_int) || (rough_type c =? rds_rough_col_type_float) = true →
         json_number d = true)
  end.

(** The results that data bases give: columns and fields that the format can hold, and
    values that are what the types of their columns say. *)
Record result_ok (C : list ngx_http_rds_column_t) (rows : list (list field)) : Prop := {
  result_cols : C ≠ [];
  result_fit : Forall col_fits C;
  result_names : Forall (fun c => Forall is_byte (name c)) C;
  result_rows : rows_ok C 0 rows;
  result_values : Forall (Forall2 json_field C) rows
}.

Definition names_ok (nm : conf_names) : Prop :=
  Forall is_byte (default [] (root_name nm)) ∧ Forall is_byte (default [] (success_name nm))
  ∧ Forall (fun '(k, v) => Forall is_byte k ∧ Forall is_byte v) (prop_names nm).

(** * Theorems *)

(** ** Printing *)

Lemma commas_snoc (l : list bytes) (x : bytes) :
  commas (l ++ [x]) = concat (map (fun y => y ++ [","%ch]) l) ++ x.
Proof.
  induction l as [|y l IH]; [done|]. rewrite <- app_comm_cons, commas_cons by (by destruct l).
  rewrite IH. cbn [map concat]. by rewrite <- !(assoc_L (++)).
Qed.

Lemma commas_concat (x : bytes) (l : list bytes) :
  commas (x :: l) = x ++ concat (map (fun y => [","%ch] ++ y) l).
Proof.
  revert x. induction l as [|y l IH]; intros x; [cbn; by rewrite app_nil_r|].
  rewrite commas_cons by done. rewrite IH. cbn [map concat]. by rewrite <- !(assoc_L (++)).
Qed.

Lemma value_print (c : ngx_http_rds_column_t) (f : field) : json_print (value_ast c f) = value_json c f.
Proof.
  destruct f as [[|a d]|]; [done| |done]. unfold value_ast, value_json.
  destruct (_ || _); [done|]. destruct (_ =? _); [|done]. by destruct (default false _).
Qed.

Lemma cols_text_print (cs : list ngx_http_rds_column_t) (i : Z) :
  cs ≠ [] → cols_text cs i (i + Z.of_nat (length cs)) = commas (map json_quote (map name cs)).
Proof.
  revert i. induction cs as [|c cs IH]; intros i Hne; [done|]. cbn [cols_text map length].
  destruct (decide (cs = [])) as [->|Hne'].
  - rewrite (proj2 (Z.eqb_eq _ _)) by (simpl; lia). done.
  - assert (0 < Z.of_nat (length cs)) by (destruct cs; [done|simpl; lia]).
    rewrite (proj2 (Z.eqb_neq _ _)) by lia. cbn [negb].
    replace (i + Z.of_nat (S (length cs))) with (i + 1 + Z.of_nat (length cs)) by lia.
    rewrite IH by done. rewrite commas_cons by (by destruct cs). unfold json_quote.
    by rewrite <- !(assoc_L (++)).
Qed.

Section Print.
Context {V : Type} (conf : ngx_http_rds_json_loc_conf_t (V := V)) (C : list ngx_http_rds_column_t).

Definition cell (c : ngx_http_rds_column_t) (f : field) : bytes :=
  if format conf =? json_format_normal
  then json_quote (name c) ++ [":"%ch] ++ value_json c f else value_json c f.

Definition row_open (k i : Z) : bytes :=
  if format conf =? json_format_normal
  then (if i =? 0 then (if k =? 1 then ["{"%ch] else [","%ch; "{"%ch]) else [","%ch])
  else if i =? 0 then [","%ch; "["%ch] else [","%ch].

Definition row_close : bytes := if format conf =? json_format_normal then ["}"%ch] else ["]"%ch].

(** The cells of a row from column [i] on. *)
Lemma fields_print (k : Z) pre cs fs :
  C = pre ++ cs → length cs = length fs → cs ≠ [] →
  fields_json conf C k (Z.of_nat (length pre)) cs fs
  = row_open k (Z.of_nat (length pre)) ++ commas (zip_with cell cs fs) ++ row_close.
Proof.
  revert pre fs. induction cs as [|c cs IH]; intros pre fs HC Hl Hne; [done|].
  destruct fs as [|f fs]; [done|]. injection Hl as Hl. cbn [fields_json zip_with].
  assert (Hlead : ∀ i, lead_json conf k i c ++ value_json c f = row_open k i ++ cell c f).
  { intros i. unfold lead_json, row_open, cell, json_string, json_quote.
    destruct (format conf =? json_format_normal); by rewrite <- ?(assoc_L (++)). }
  rewrite (assoc_L (++) (lead_json _ _ _ _)), Hlead, <- (assoc_L (++)). f_equal.
  assert (Hn : Z.of_nat (length C) = Z.of_nat (length pre) + 1 + Z.of_nat (length cs)).
  { rewrite HC, length_app. simpl. lia. }
  unfold tail_json. destruct (decide (cs = [])) as [->|Hne'].
  - destruct fs; [|done]. rewrite (proj2 (Z.eqb_eq _ _)) by (simpl in Hn; lia). cbn. by rewrite app_nil_r.
  - assert (0 < Z.of_nat (length cs)) by (destruct cs; [done|simpl; lia]).
    rewrite (proj2 (Z.eqb_neq _ _)) by lia. cbn [app].
    replace (Z.of_nat (length pre) + 1) with (Z.of_nat (length (pre ++ [c]))) by (rewrite length_app; simpl; lia).
    rewrite IH; [|by rewrite <- (assoc_L (++))|done|done].
    rewrite commas_cons by (destruct cs, fs; done).
    assert (Ho : row_open k (Z.of_nat (length (pre ++ [c]))) = [","%ch]).
    { unfold row_open. rewrite (proj2 (Z.eqb_neq (Z.of_nat _) 0)) by (rewrite length_app; simpl; lia).
      by destruct (format conf =? json_format_normal). }
    by rewrite Ho, <- !(assoc_L (++)).
Qed.

Lemma row_print (k : Z) fs :
  C ≠ [] → length C = length fs →
  fields_json conf C k 0 C fs = row_open k 0 ++ commas (zip_with cell C fs) ++ row_close.
Proof. intros HC Hl. by apply (fields_print k [] C fs). Qed.

(** The rows, in either format. *)
Definition row_ast (fs : list field) : json :=
  if format conf =? json_format_normal
  then JObj (zip (names C) (row_values C fs)) else JArr (row_values C fs).

Lemma row_ast_print (fs : list field) :
  json_print (row_ast fs)
  = (if format conf =? json_format_normal then ["{"%ch] else ["["%ch])
    ++ commas (zip_with cell C fs) ++ row_close.
Proof.
  unfold row_ast, row_close, cell, row_values, names.
  destruct (format conf =? json_format_normal); cbn [json_print]; do 3 f_equal.
  - rewrite zip_with_fmap_l, zip_with_zip. revert fs.
    induction C as [|c cs IH]; intros fs; [done|]. destruct fs as [|f fs]; [done|].
    cbn. f_equal; [by rewrite value_print|apply IH].
  - revert fs. induction C as [|c cs IH]; intros fs; [done|]. destruct fs as [|f fs]; [done|].
    cbn [zip_with map]. f_equal; [|apply IH]. by rewrite value_print.
Qed.

Context (Hfmt : format conf = json_format_normal ∨ format conf = json_format_compact).

Lemma rows_print (k : Z) (rows : list (list field)) :
  1 <= k → C ≠ [] → Forall (fun fs => length C = length fs) rows →
  rows_json conf C k rows
  = if (format conf =? json_format_normal) && (k =? 1) then commas (map (fun fs => json_print (row_ast fs)) rows)
    else concat (map (fun fs => [","%ch] ++ json_print (row_ast fs)) rows).
Proof.
  intros Hk HC Hl. revert k Hk. induction Hl as [|fs rows Hfs Hl IH]; intros k Hk.
  { by destruct (_ && _). }
  cbn [rows_json map]. rewrite row_print by done. rewrite IH by lia.
  rewrite (proj2 (Z.eqb_neq (k + 1) 1)), andb_false_r by lia.
  rewrite <- !(map_map (fun fs => json_print (row_ast fs)) (fun x => [","%ch] ++ x)).
  destruct (format conf =? json_format_normal) eqn:Ef.
  - cbn [andb]. destruct (Z.eqb_spec k 1) as [->|Hk1].
    + rewrite commas_concat, row_ast_print, Ef. unfold row_open. by rewrite Ef, <- !(assoc_L (++)).
    + cbn [concat map]. rewrite row_ast_print, Ef. unfold row_open. rewrite Ef, (proj2 (Z.eqb_neq k 1)) by done.
      by rewrite <- !(assoc_L (++)).
  - cbn [andb concat map]. rewrite row_ast_print, Ef. unfold row_open. by rewrite Ef, <- !(assoc_L (++)).
Qed.

(** The opening bracket, the rows and the closing bracket are the printed array. *)
Lemma array_print (rows : list (list field)) :
  C ≠ [] → Forall (fun fs => length C = length fs) rows →
  ["["%ch] ++ (if format conf =? json_format_compact
               then ["["%ch] ++ cols_text C 0 (Z.of_nat (length C)) ++ ["]"%ch] else [])
  ++ rows_json conf C 1 rows ++ ["]"%ch]
  = json_print (rows_ast (format conf) C rows).
Proof.
  intros HC Hl. rewrite rows_print by (done || lia). unfold rows_ast, row_ast.
  destruct Hfmt as [-> | ->]; cbn [json_format_normal json_format_compact Z.eqb Pos.eqb andb].
  - cbn [json_print]. by rewrite map_map.
  - cbn [json_print map]. rewrite commas_concat.
    pose proof (cols_text_print C 0 HC) as E. rewrite Z.add_0_l in E. rewrite E.
    unfold names. rewrite !map_map. by rewrite <- !(assoc_L (++)).
Qed.

(** The names of the configuration. *)
Record named (nm : conf_names) (vs : list (bytes * bytes)) : Prop := {
  named_root : root conf = quoted (root_name nm);
  named_success : success conf = quoted (success_name nm);
  named_props : vs = map (fun '(k, v) => (json_quote k, v)) (prop_names nm);
  named_data : root_name nm = None → success_name nm = None ∧ prop_names nm = []
}.

Lemma quoted_length (k : option bytes) :
  negb (length (quoted k) =? 0)%nat = match k with None => false | Some _ => true end.
Proof. by destruct k. Qed.

Lemma members_print (nm : conf_names) :
  concat (map (fun y => y ++ [","%ch])
    (map (fun '(k, v) => json_quote k ++ [":"%ch] ++ json_print v) (members nm)))
  = (match success_name nm with None => [] | Some k => json_quote k ++ bs ":true," end)
    ++ props_json (map (fun '(k, v) => (json_quote k, v)) (prop_names nm)).
Proof.
  unfold members. rewrite !map_app, concat_app. f_equal.
  - destruct (success_name nm) as [k|]; [|done]. cbn. by rewrite app_nil_r, <- !(assoc_L (++)).
  - unfold props_json. rewrite !map_map. f_equal. apply map_ext. intros [k v]. cbn [json_print].
    unfold json_quote. by rewrite <- !(assoc_L (++)).
Qed.

(** The text of a result is the printed value. *)
Lemma table_print (nm : conf_names) (vs : list (bytes * bytes)) (rows : list (list field)) :
  C ≠ [] → Forall (fun fs => length C = length fs) rows → named nm vs →
  table_json conf C vs rows = json_print (table_ast nm (format conf) C rows).
Proof.
  intros HC Hl [N1 N2 N3 N4]. unfold table_json, open_json, close_json, table_ast.
  rewrite N1, N2, !quoted_length, N3. pose proof (array_print rows HC Hl) as Ha.
  destruct (root_name nm) as [k|].
  - cbn [json_print]. rewrite map_app. cbn [map]. rewrite commas_snoc, members_print, <- Ha.
    destruct (success_name nm); cbn [quoted]; rewrite <- !(assoc_L (++)); cbn [app]; by rewrite ?(assoc_L (++)).
  - rewrite <- Ha. by rewrite <- !(assoc_L (++)).
Qed.

End Print.

(** ** Values that can be printed *)

Lemma value_ok (c : ngx_http_rds_column_t) (f : field) : json_field c f → json_ok (value_ast c f).
Proof.
  destruct f as [[|a d]|]; [constructor| |constructor]. intros [H1 H2]. unfold value_ast.
  destruct (_ || _); [by apply H2|]. by destruct (_ =? _).
Qed.

Lemma row_values_ok C fs : Forall2 json_field C fs → Forall json_ok (row_values C fs).
Proof. induction 1; constructor; [by apply value_ok|done]. Qed.

Lemma json_ok_arr (l : list json) : Forall json_ok l → json_ok (JArr l).
Proof. intros H. by apply Forall_map. Qed.

Lemma json_ok_obj (m : list (bytes * json)) :
  Forall (fun kv => Forall is_byte kv.1 ∧ json_ok kv.2) m → json_ok (JObj m).
Proof. intros H. apply Forall_map. eapply Forall_impl; [exact H|]. by intros [k v]. Qed.

Lemma zip_ok (ks : list bytes) (l : list json) :
  Forall (Forall is_byte) ks → Forall json_ok l →
  Forall (fun kv => Forall is_byte kv.1 ∧ json_ok kv.2) (zip ks l).
Proof.
  intros Hk. revert l. induction Hk as [|k ks Hk Hks IH]; intros l Hl; [constructor|].
  destruct Hl; constructor; auto.
Qed.

Lemma rows_ast_ok (fmt : Z) C rows : result_ok C rows → json_ok (rows_ast fmt C rows).
Proof.
  intros [_ _ Hn _ Hv].
  assert (Hk : Forall (Forall is_byte) (names C)) by (by apply Forall_map).
  unfold rows_ast. destruct (fmt =? json_format_normal); apply json_ok_arr.
  - apply Forall_map. eapply Forall_impl; [exact Hv|]. intros fs Hf.
    by apply json_ok_obj, zip_ok, row_values_ok.
  - constructor; [by apply json_ok_arr, Forall_map|].
    apply Forall_map. eapply Forall_impl; [exact Hv|]. intros fs Hf. by apply json_ok_arr, row_values_ok.
Qed.

Lemma members_ok (nm : conf_names) :
  names_ok nm → Forall (fun kv => Forall is_byte kv.1 ∧ json_ok kv.2) (members nm).
Proof.
  intros (_ & Hs & Hp). apply Forall_app_2.
  - destruct (success_name nm); by repeat constructor.
  - apply Forall_map. eapply Forall_impl; [exact Hp|]. by intros [k v] [? ?].
Qed.

Lemma table_ast_ok (nm : conf_names) (fmt : Z) C rows :
  names_ok nm → result_ok C rows → json_ok (table_ast nm fmt C rows).
Proof.
  intros Hn Hr. unfold table_ast. destruct (root_name nm) as [k|] eqn:Ek; [|by apply rows_ast_ok].
  apply json_ok_obj, Forall_app_2; [by apply members_ok|]. repeat constructor; [|by apply rows_ast_ok].
  destruct Hn as [Hk _]. by rewrite Ek in Hk.
Qed.

(** The response of a result with columns. *)
Lemma filter_decodes {V : Type} (evaluate : V → option bytes) (conf : ngx_http_rds_json_loc_conf_t (V := V))
    (is_main : bool) (vs : list (bytes * bytes * Z)) (nm : conf_names) (h : ngx_http_rds_header_t)
    (C : list ngx_http_rds_column_t) (rows : list (list field)) (calls : list (env * list bytes)) :
  conf_ok evaluate conf vs → named conf nm (values_of vs) → names_ok nm →
  header_fits h C → result_ok C rows → Forall call_ok calls →
  consumes (at_header h C rows) (chains calls) at_end →
  ∃ s acts init b,
    filter_calls evaluate conf is_main (map mem_call calls) (Some new_ctx)
    = Some (replicate (length calls) NGX_OK, Some s, next_header :: acts)
    ∧ state s = state_done ∧ Forall (fun a => ∃ bufs, a = next_body bufs) acts
    ∧ json_decode (sent acts) = Some (table_ast nm (format conf) C rows)
    ∧ sent_bufs acts = init ++ [b] ∧ Forall unmarked init ∧ (root conf = [] → last_buf b = is_main).
Proof.
  intros Hc Hnm Hn Hh Hr Hok Hcs. pose proof Hr as [R1 R2 R3 R4 R5].
  destruct (filter_table evaluate conf is_main C vs Hc h rows calls) as (s & acts & E & Hs & Hb & Ht & init & b & Hl & Hu & Hm);
    [done..|].
  exists s, acts, init, b. split_and!; try done.
  rewrite Ht, (table_print conf C (conf_format _ _ _ Hc) nm); [|done| |done].
  - by apply json_decode_print, table_ast_ok.
  - destruct R4 as [R4 _]. eapply Forall_impl; [exact R4|]. intros fs Hf. by eapply Forall2_length.
Qed.

(** C7. The filter turns a result into JSON. The result has columns and fits the
    stream (fewer than 2^16 columns, with names that are not empty and shorter than
    2^16 bytes, fields below 2^32 - 1 bytes); its integers are digits after an
    optional minus sign, its numbers are JSON numbers, its booleans those of the
    format; the stream is cut into buffers below 2^32 bytes that the readers accept,
    and these into calls with at least one buffer; the buffer size is above 0, the
    user properties have values, the next filters give no errors. Then every call
    succeeds, one response header is sent and then body buffers alone; the text in
    them is JSON whose value is the table of the result (rows as objects, or as
    arrays after the names of the columns, below the configured root with the
    configured properties), and no buffer but the last one is marked as the end of
    the response; without a root the last one is, in a main request. *)
Theorem rds_json_table {V : Type} (evaluate : V → option bytes) (conf : ngx_http_rds_json_loc_conf_t (V := V))
    (is_main : bool) (vs : list (bytes * bytes * Z)) (nm : conf_names) (h : ngx_http_rds_header_t)
    (C : list ngx_http_rds_column_t) (rows : list (list field)) (calls : list (env * list bytes)) :
  conf_ok evaluate conf vs → named conf nm (values_of vs) → names_ok nm →
  header_fits h C → result_ok C rows → Forall call_ok calls →
  consumes (at_header h C rows) (chains calls) at_end →
  ∃ s acts init b,
    filter_calls evaluate conf is_main (map mem_call calls) (Some new_ctx)
    = Some (replicate (length calls) NGX_OK, Some s, next_header :: acts)
    ∧ state s = state_done ∧ Forall (fun a => ∃ bufs, a = next_body bufs) acts
    ∧ json_decode (sent acts) = Some (table_ast nm (format conf) C rows)
    ∧ sent_bufs acts = init ++ [b] ∧ Forall unmarked init ∧ (root conf = [] → last_buf b = is_main).
Proof. apply filter_decodes. Qed.

(** A result of two columns and two rows, in three buffers, the second of which ends in
    the middle of a field, and two calls; the output buffers have 16 bytes. *)
Definition small_conf : ngx_http_rds_json_loc_conf_t (V := bytes) :=
  ngx_http_rds_json_merge_loc_conf 16 ngx_http_rds_json_create_loc_conf ngx_http_rds_json_create_loc_conf.

Definition example_cols : list ngx_http_rds_column_t :=
  [mk_column rds_col_type_integer 3 (bs "id"); mk_column rds_col_type_varchar 253 (bs "name")].

Definition example_rows : list (list field) :=
  [[Some (bs "-7"); Some (bs "Ann" ++ [10] ++ bs "Lee")]; [Some (bs "12"); None]].

Definition example_header : ngx_http_rds_header_t := mk_header 0 0 [] 0 0 2.

Definition example_calls : list (env * list bytes) :=
  [(mk_env 0 0 1, [header_bytes example_header ++ col_bytes (mk_column rds_col_type_integer 3 (bs "id"));
                   col_bytes (mk_column rds_col_type_varchar 253 (bs "name")) ++ [1] ++ put_le 4 2 ++ bs "-7"
                   ++ put_le 4 7 ++ bs "Ann"]);
   (mk_env 0 0 0, [[10] ++ bs "Lee" ++ [1] ++ put_le 4 2 ++ bs "12" ++ put_le 4 NULL_LEN ++ [0]])].

Lemma example_result : result_ok example_cols example_rows.
Proof.
  split; [done|..].
  - repeat constructor; cbn; try lia; done.
  - repeat constructor; unfold is_byte; cbn; lia.
  - split; [|cbn; lia]. repeat constructor.
  - repeat constructor; try done; unfold is_byte; cbn; lia.
Qed.

Lemma example_stream :
  consumes (at_header example_header example_cols example_rows) (chains example_calls) at_end.
Proof.
  eapply consumes_cons; [done| |].
  { apply consume_header. rewrite <- (app_nil_r (col_bytes _)). apply consume_col, consume_nil. }
  eapply consumes_cons; [done| |].
  { apply consume_col, consume_row; [done|]. apply (consume_field (bs "-7")).
    apply (consume_part (bs "Ann") ([10] ++ bs "Lee")); done. }
  eapply consumes_cons; [done| |constructor].
  apply (consume_more ([10] ++ bs "Lee")); [done|]. apply consume_row; [done|].
  apply (consume_field (bs "12")), consume_null, consume_end.
Qed.

Lemma rds_json_table_witness :
  ∃ s acts init b,
    filter_calls Some small_conf true (map mem_call example_calls) (Some new_ctx)
    = Some ([NGX_OK; NGX_OK], Some s, next_header :: acts)
    ∧ json_decode (sent acts)
      = Some (JArr [JObj [(bs "id", JNum (bs "-7")); (bs "name", JStr (bs "Ann" ++ [10] ++ bs "Lee"))];
                    JObj [(bs "id", JNum (bs "12")); (bs "name", JNull)]])
    ∧ sent_bufs acts = init ++ [b] ∧ last_buf b = true.
Proof.
  destruct (rds_json_table Some small_conf true [] (mk_names None None []) example_header example_cols
    example_rows example_calls) as (s & acts & init & b & E & _ & _ & Hj & Hb & _ & Hl).
  - split; [vm_compute; done|by left|done].
  - by split.
  - split_and!; constructor.
  - unfold header_fits. cbn. lia.
  - apply example_result.
  - repeat constructor; done.
  - apply example_stream.
  - exists s, acts, init, b. split_and!; [exact E|exact Hj|exact Hb|by apply Hl].
Defined.

End RdsJsonTable.
