(* ===== verification/RdsJsonConf.v ===== *)
(** The configuration of the rds-json module: the table of its directives and the slots
    of nginx that set flags, sizes, strings and enumerations, from
    src/rds-json-nginx-module-master/src/ngx_http_rds_json_filter_module.c and
    src/nginx-master/src/core/ngx_conf_file.c, and what every configuration satisfies
    that the directives of nested blocks can make. *)

From S2P Require Import Prelude NgxNumber NgxEscape NgxCompare NgxParse SetMisc Redis2 RdsStream RdsJsonOut Json RdsJsonFilter RdsJsonProof RdsJsonTable.

Open Scope Z_scope.

Module RdsJsonConf.

Export RdsJsonTable.
Import Json.

(** ** Slots *)

(** The arguments of a directive end with a NUL that their length does not count. *)
Definition same_word (value word : bytes) : bool :=
  match ngx_strcasecmp (value ++ [0]) (word ++ [0]) with Some r => r =? 0 | None => false end.

Definition ngx_conf_set_flag_slot (fp : Z) (value : bytes) : conf_error + Z :=
  if negb (fp =? NGX_CONF_UNSET) then inl is_duplicate
  else if same_word value (bs "on") then inr 1
  else if same_word value (bs "off") then inr 0
  else inl conf_error_logged.

Definition ngx_conf_set_str_slot (field : option bytes) (value : bytes) : conf_error + bytes :=
  match field with
  | Some _ => inl is_duplicate
  | None => inr value
  end.

(** A [size_t] that is [(size_t) NGX_ERROR] is the invalid one. *)
Definition ngx_conf_set_size_slot (sp : Z) (value : bytes) : conf_error + Z :=
  if negb (sp =? Redis2.NGX_CONF_UNSET_SIZE) then inl is_duplicate
  else
    let sp := wrap_u 64 (ngx_parse_size value) in
    if sp =? wrap_u 64 NGX_ERROR then inl invalid_value else inr sp.

Fixpoint enum_lookup (e : list (bytes * Z)) (value : bytes) : option Z :=
  match e with
  | [] => None
  | (name, v) :: e =>
      if negb (length name =? length value)%nat || negb (same_word name value)
      then enum_lookup e value else Some v
  end.

Definition ngx_conf_set_enum_slot (e : list (bytes * Z)) (np : Z) (value : bytes) : conf_error + Z :=
  if negb (np =? NGX_CONF_UNSET_UINT) then inl is_duplicate
  else match enum_lookup e value with Some v => inr v | None => inl conf_error_logged end.

Definition ngx_http_rds_json_formats : list (bytes * Z) :=
  [(bs "normal", json_format_normal); (bs "compact", json_format_compact)].

Section Commands.
Context {V : Type}.
Variable compile : bytes → option V.

(** ** ngx_http_rds_json_commands *)

Inductive command :=
  | rds_json (value : bytes)
  | rds_json_root (value : bytes)
  | rds_json_success_property (value : bytes)
  | rds_json_user_property (key value : bytes)
  | rds_json_errcode_key (value : bytes)
  | rds_json_errstr_key (value : bytes)
  | rds_json_format (value : bytes)
  | rds_json_content_type (value : bytes)
  | rds_json_ret (code es : bytes)
  | rds_json_buffer_size (value : bytes).

Definition set_enabled (v : Z) (c : ngx_http_rds_json_loc_conf_t (V := V)) : ngx_http_rds_json_loc_conf_t :=
  mk_conf v (format c) (content_type c) (root c) (success c) (user_props c) (errcode_key c)
    (errstr_key c) (buf_size c) (errcode c) (conf_errstr c).
Definition set_format (v : Z) (c : ngx_http_rds_json_loc_conf_t (V := V)) : ngx_http_rds_json_loc_conf_t :=
  mk_conf (enabled c) v (content_type c) (root c) (success c) (user_props c) (errcode_key c)
    (errstr_key c) (buf_size c) (errcode c) (conf_errstr c).
Definition set_content_type (v : bytes) (c : ngx_http_rds_json_loc_conf_t (V := V)) : ngx_http_rds_json_loc_conf_t :=
  mk_conf (enabled c) (format c) (Some v) (root c) (success c) (user_props c) (errcode_key c)
    (errstr_key c) (buf_size c) (errcode c) (conf_errstr c).
Definition set_buf_size (v : Z) (c : ngx_http_rds_json_loc_conf_t (V := V)) : ngx_http_rds_json_loc_conf_t :=
  mk_conf (enabled c) (format c) (content_type c) (root c) (success c) (user_props c) (errcode_key c)
    (errstr_key c) v (errcode c) (conf_errstr c).

Definition put {A B : Type} (set : A → B) (r : conf_error + A) : conf_error + B :=
  match r with inl e => inl e | inr v => inr (set v) end.

Definition run_command (d : command) (c : ngx_http_rds_json_loc_conf_t (V := V))
    : conf_error + ngx_http_rds_json_loc_conf_t :=
  match d with
  | rds_json v => put (fun x => set_enabled x c) (ngx_conf_set_flag_slot (enabled c) v)
  | rds_json_root v => ngx_http_rds_json_root v c
  | rds_json_success_property v => ngx_http_rds_json_success_property v c
  | rds_json_user_property k v => ngx_http_rds_json_user_property compile k v c
  | rds_json_errcode_key v => ngx_http_rds_json_errcode_key v c
  | rds_json_errstr_key v => ngx_http_rds_json_errstr_key v c
  | rds_json_format v =>
      put (fun x => set_format x c) (ngx_conf_set_enum_slot ngx_http_rds_json_formats (format c) v)
  | rds_json_content_type v =>
      put (fun x => set_content_type x c) (ngx_conf_set_str_slot (content_type c) v)
  | rds_json_ret code es => ngx_http_rds_json_ret compile code es c
  | rds_json_buffer_size v => put (fun x => set_buf_size x c) (ngx_conf_set_size_slot (buf_size c) v)
  end.

(** The directives of a block, in order; the first error ends the configuration. *)
Fixpoint run_commands (ds : list command) (c : ngx_http_rds_json_loc_conf_t (V := V))
    : conf_error + ngx_http_rds_json_loc_conf_t :=
  match ds with
  | [] => inr c
  | d :: ds =>
      match run_command d c with
      | inl e => inl e
      | inr c => run_commands ds c
      end
  end.

(** The blocks inside a block [prev], each merged with the one around it; the block of
    [http] itself is not merged with anything. *)
Fixpoint nested (pagesize : Z) (blocks : list (list command)) (prev : ngx_http_rds_json_loc_conf_t (V := V))
    : conf_error + ngx_http_rds_json_loc_conf_t :=
  match blocks with
  | [] => inr prev
  | ds :: blocks =>
      match run_commands ds ngx_http_rds_json_create_loc_conf with
      | inl e => inl e
      | inr c => nested pagesize blocks (ngx_http_rds_json_merge_loc_conf pagesize prev c)
      end
  end.

(** The configuration of a location: [http] holds the directives of the http block, the
    last list of [blocks] those of the location. *)
Definition configure (pagesize : Z) (http : list command) (blocks : list (list command))
    : conf_error + ngx_http_rds_json_loc_conf_t :=
  match run_commands http ngx_http_rds_json_create_loc_conf with
  | inl e => inl e
  | inr c => nested pagesize blocks c
  end.

(** * Specification *)

(** A name is a non-empty string, quoted. *)
Definition key_set (t : bytes) : Prop := ∃ k, k ≠ [] ∧ Forall is_byte k ∧ t = json_quote k.

Definition key_ok (t : bytes) : Prop := t = [] ∨ key_set t.

(** What holds of the configuration of a block before it is merged. *)
Record conf_wf (c : ngx_http_rds_json_loc_conf_t (V := V)) : Prop := {
  wf_root : key_ok (root c);
  wf_success : key_ok (success c);
  wf_errcode_key : key_ok (errcode_key c);
  wf_errstr_key : key_ok (errstr_key c);
  wf_props : Forall (fun p => key_set (prop_key p)) (user_prop_list c);
  wf_enabled : enabled c = NGX_CONF_UNSET ∨ enabled c = 0 ∨ enabled c = 1;
  wf_format : format c = NGX_CONF_UNSET_UINT ∨ format c = json_format_normal ∨ format c = json_format_compact;
  wf_size : 0 <= buf_size c < 2 ^ 64;
  wf_errcode : Forall is_digit (errcode c);
  wf_ret : errcode c = [] ↔ conf_errstr c = None
}.

(** What holds after the merge: everything has a value, and there is a root when there
    is something to put beside it. *)
Record conf_merged (c : ngx_http_rds_json_loc_conf_t (V := V)) : Prop := {
  merged_wf : conf_wf c;
  merged_root : root c = [] → success c = [] ∧ user_props c = None;
  merged_keys : key_set (errcode_key c) ∧ key_set (errstr_key c);
  merged_set : enabled c ≠ NGX_CONF_UNSET ∧ format c ≠ NGX_CONF_UNSET_UINT ∧ content_type c ≠ None
}.

Definition args (d : command) : list bytes :=
  match d with
  | rds_json v | rds_json_root v | rds_json_success_property v | rds_json_errcode_key v
  | rds_json_errstr_key v | rds_json_format v | rds_json_content_type v | rds_json_buffer_size v => [v]
  | rds_json_user_property k v => [k; v]
  | rds_json_ret code es => [code; es]
  end.

Definition command_ok (d : command) : Prop := Forall (Forall is_byte) (args d).

End Commands.

(** * Theorems *)

Lemma quote_key_spec (value : bytes) : quote_key value = inr (json_quote value).
Proof.
  unfold quote_key. rewrite copy_escaped_count. rewrite !length_app.
  pose proof (two_pass (TwoPass := rds_escape_two_pass) value).
  rewrite (proj2 (Z.eqb_eq _ _)); [done|]. cbn [length]. lia.
Qed.

Lemma set_key_spec (current value t : bytes) :
  Forall is_byte value → set_key current value = inr t → current = [] ∧ key_set t.
Proof.
  intros Hb. unfold set_key. destruct current; [|done]. destruct value as [|a v]; [done|].
  cbn [length Nat.eqb negb]. rewrite quote_key_spec. intros [= <-]. split; [done|]. by exists (a :: v).
Qed.

Lemma size_slot_range (sp r : Z) (value : bytes) :
  ngx_conf_set_size_slot sp value = inr r → 0 <= r < 2 ^ 64.
Proof.
  unfold ngx_conf_set_size_slot. destruct (negb _); [done|]. cbv zeta. destruct (_ =? _); [done|].
  intros [= <-]. unfold wrap_u. apply Z.mod_pos_bound. lia.
Qed.

Section Wf.
Context {V : Type} (compile : bytes → option V).

Lemma create_wf : conf_wf (ngx_http_rds_json_create_loc_conf (V := V)).
Proof. split; cbn; unfold key_ok; auto; try constructor; done. Qed.

Lemma run_command_wf (d : command) (c c' : ngx_http_rds_json_loc_conf_t (V := V)) :
  command_ok d → conf_wf c → run_command compile d c = inr c' → conf_wf c'.
Proof.
  intros Hd Hc H. pose proof Hc as [W1 W2 W3 W4 W5 W6 W7 W8 W9 W10].
  unfold command_ok in Hd.
  destruct d; cbn [args] in Hd; cbn [run_command] in H; apply Forall_cons in Hd as [Hb Hd].
  - unfold ngx_conf_set_flag_slot, put in H. repeat case_match; simplify_eq; split; cbn; auto.
  - unfold ngx_http_rds_json_root in H. destruct (set_key _ _) as [|t] eqn:E; [done|]. injection H as <-.
    apply set_key_spec in E as [_ E]; [|done]. split; cbn; auto. by right.
  - unfold ngx_http_rds_json_success_property in H. destruct (set_key _ _) as [|t] eqn:E; [done|].
    injection H as <-. apply set_key_spec in E as [_ E]; [|done]. split; cbn; auto. by right.
  - unfold ngx_http_rds_json_user_property in H. destruct key as [|a key]; [done|].
    destruct value as [|b value]; [done|]. cbn [length Nat.eqb] in H. rewrite quote_key_spec in H.
    destruct (compile _); [|done]. injection H as <-. split; cbn; auto.
    apply Forall_app_2; [done|]. repeat constructor. by exists (a :: key).
  - unfold ngx_http_rds_json_errcode_key in H. destruct (set_key _ _) as [|t] eqn:E; [done|].
    injection H as <-. apply set_key_spec in E as [_ E]; [|done]. split; cbn; auto. by right.
  - unfold ngx_http_rds_json_errstr_key in H. destruct (set_key _ _) as [|t] eqn:E; [done|].
    injection H as <-. apply set_key_spec in E as [_ E]; [|done]. split; cbn; auto. by right.
  - unfold ngx_conf_set_enum_slot, put in H. cbn [enum_lookup ngx_http_rds_json_formats] in H.
    repeat case_match; simplify_eq; split; cbn; auto.
  - unfold ngx_conf_set_str_slot, put in H. repeat case_match; simplify_eq; split; cbn; auto.
  - unfold ngx_http_rds_json_ret in H. destruct code as [|a code]; [done|]. cbn [length Nat.eqb] in H.
    destruct (forallb digit_char (a :: code)) eqn:Ed; [|done]. cbn [negb] in H.
    assert (Hdig : Forall is_digit (a :: code)).
    { apply Forall_forall. intros x Hx%list_elem_of_In. rewrite forallb_forall in Ed. apply Ed in Hx.
      unfold digit_char in Hx. unfold is_digit. lia. }
    repeat case_match; simplify_eq; split; cbn; auto; by split.
  - unfold put in H. destruct (ngx_conf_set_size_slot _ _) as [|x] eqn:E; [done|]. injection H as <-.
    apply size_slot_range in E. split; cbn; auto.
Qed.

Lemma run_commands_wf (ds : list command) (c c' : ngx_http_rds_json_loc_conf_t (V := V)) :
  Forall command_ok ds → conf_wf c → run_commands compile ds c = inr c' → conf_wf c'.
Proof.
  intros Hds. revert c. induction Hds as [|d ds Hd Hds IH]; intros c Hc H; cbn in H; [by injection H as <-|].
  destruct (run_command compile d c) as [|c1] eqn:E; [done|]. eapply IH; [|exact H].
  by eapply run_command_wf.
Qed.

Lemma merge_str_cases (P : bytes → Prop) (conf prev dflt : bytes) :
  P conf → P prev → P dflt → P (merge_str conf prev dflt).
Proof. unfold merge_str. by repeat case_match. Qed.

Lemma merge_key (conf prev k : bytes) :
  k ≠ [] → Forall is_byte k → key_ok conf → key_ok prev → key_set (merge_str conf prev (json_quote k)).
Proof.
  intros Hk Hb [->|Hc] Hp.
  - destruct Hp as [->|Hp]; [by exists k|]. unfold merge_str. cbn. by destruct Hp as (q & ? & ? & ->); exists q.
  - destruct Hc as (q & ? & ? & ->). by exists q.
Qed.

Lemma merge_wf (pagesize : Z) (prev conf : ngx_http_rds_json_loc_conf_t (V := V)) :
  0 <= pagesize < 2 ^ 64 → conf_wf prev → conf_wf conf →
  conf_merged (ngx_http_rds_json_merge_loc_conf pagesize prev conf).
Proof.
  intros Hp [P1 P2 P3 P4 P5 P6 P7 P8 P9 P10] [C1 C2 C3 C4 C5 C6 C7 C8 C9 C10].
  pose proof (merge_key (errcode_key conf) (errcode_key prev) (bs "errcode")) as K1.
  pose proof (merge_key (errstr_key conf) (errstr_key prev) (bs "errstr")) as K2.
  assert (Hd : key_set ([34] ++ bs "data" ++ [34])) by (exists (bs "data"); split_and!; [done| |done]; repeat constructor; unfold is_byte; simpl; lia).
  assert (E1 : Forall is_byte (bs "errcode")) by (repeat constructor; unfold is_byte; simpl; lia).
  assert (E2 : Forall is_byte (bs "errstr")) by (repeat constructor; unfold is_byte; simpl; lia).
  specialize (K1 ltac:(done) E1 C3 P3). specialize (K2 ltac:(done) E2 C4 P4).
  split; [split| | |]; cbn.
  - destruct (_ && _); [by right|]. by apply merge_str_cases; [..|left].
  - by apply merge_str_cases; [..|left].
  - by right.
  - by right.
  - unfold user_prop_list in *. cbn. by destruct (user_props conf).
  - unfold merge_uint. repeat case_match; auto.
  - unfold merge_uint. repeat case_match; auto.
  - unfold merge_uint. repeat case_match; auto.
  - done.
  - done.
  - set (rt := merge_str (root conf) (root prev) []). set (su := merge_str (success conf) (success prev) []).
    destruct rt as [|a rt]; cbn; [|done]. destruct su as [|b su]; cbn; [|done].
    by destruct (user_props conf), (user_props prev).
  - by split.
  - split_and!.
    + unfold merge_uint. repeat case_match; try done; destruct C6 as [?|[?|?]], P6 as [?|[?|?]]; congruence || lia.
    + unfold merge_uint. repeat case_match; try done; lia.
    + by destruct (content_type conf), (content_type prev).
Qed.

Lemma nested_merged (pagesize : Z) blocks (c c' : ngx_http_rds_json_loc_conf_t (V := V)) :
  0 <= pagesize < 2 ^ 64 → Forall (Forall command_ok) blocks → blocks ≠ [] → conf_wf c →
  nested compile pagesize blocks c = inr c' → conf_merged c'.
Proof.
  intros Hp Hb. revert c. induction Hb as [|ds blocks Hds Hb IH]; intros c Hne Hc H; [done|]. cbn in H.
  destruct (run_commands compile ds _) as [|c1] eqn:E; [done|].
  assert (Hm : conf_merged (ngx_http_rds_json_merge_loc_conf pagesize c c1)).
  { apply merge_wf; [done..|]. eapply run_commands_wf; [exact Hds|apply create_wf|exact E]. }
  destruct blocks as [|ds' blocks]; [by injection H as <-|]. eapply IH; [done| |exact H]. apply Hm.
Qed.

(** The names that the values of a request go with. *)
Lemma props_named (evaluate : V → option bytes) (props : list (ngx_http_rds_json_property_t (V := V))) vs :
  Forall (fun p => key_set (prop_key p)) props → eval_props evaluate props = Some vs →
  Forall (fun kv => Forall is_byte kv.2) (values_of vs) →
  ∃ pn, values_of vs = map (fun '(k, v) => (json_quote k, v)) pn
        ∧ Forall (fun '(k, v) => Forall is_byte k ∧ Forall is_byte v) pn ∧ length pn = length props.
Proof.
  intros Hk. revert vs. induction Hk as [|p props (k & Hne & Hb & Ek) Hk IH]; intros vs E Hv; cbn [eval_props] in E.
  { injection E as <-. by exists []. }
  destruct (Redis2.ngx_http_complex_value _ _) as [v|]; [|done].
  destruct (eval_props evaluate props) as [vs'|]; [|done]. injection E as <-.
  cbn [values_of map fst] in Hv. apply Forall_cons in Hv as [Hv1 Hv].
  destruct (IH vs' eq_refl Hv) as (pn & E1 & E2 & E3). exists ((k, v) :: pn).
  cbn [values_of map fst length]. rewrite Ek. unfold values_of in E1. rewrite E1. split_and!; [done| |by f_equal].
  by constructor.
Qed.

Lemma key_ok_quoted (t : bytes) : key_ok t → ∃ k, t = quoted k ∧ Forall is_byte (default [] k).
Proof. intros [->|(k & _ & Hb & ->)]; [by exists None|by exists (Some k)]. Qed.

Lemma merged_named (evaluate : V → option bytes) (c : ngx_http_rds_json_loc_conf_t (V := V)) vs :
  conf_merged c → eval_props evaluate (user_prop_list c) = Some vs →
  Forall (fun kv => Forall is_byte kv.2) (values_of vs) →
  ∃ nm, named c nm (values_of vs) ∧ names_ok nm.
Proof.
  intros [W Hr _ _] E Hv. destruct W as [W1 W2 _ _ W5 _ _ _ _ _].
  destruct (key_ok_quoted _ W1) as (rk & E1 & B1). destruct (key_ok_quoted _ W2) as (sk & E2 & B2).
  destruct (props_named evaluate _ vs W5 E Hv) as (pn & E3 & B3 & Hl).
  exists (mk_names rk sk pn). split; [|done]. split; cbn; try done. intros ->.
  destruct Hr as [Hs Hp]; [done|]. split; [destruct sk; [by rewrite Hs in E2|done]|].
  unfold user_prop_list in Hl. rewrite Hp in Hl. by destruct pn.
Qed.

End Wf.

(** C10. Whatever directives the blocks of a configuration hold, the configuration
    of a location in it is one that the other properties of the module ask for: the
    format is one of the two, the names of the error code and message are quoted
    non-empty strings, the other names are quoted or not set, and for all values of
    the user properties there are names for the parts of a response, with a root
    whenever there is a property to put beside it. Only the size of the buffers can
    be zero. *)
Theorem rds_json_configured {V : Type} (compile : bytes → option V) (evaluate : V → option bytes)
    (pagesize : Z) (http : list command) (blocks : list (list command))
    (c : ngx_http_rds_json_loc_conf_t (V := V)) (vs : list (bytes * bytes * Z)) :
  0 < pagesize < 2 ^ 64 → Forall (Forall command_ok) (http :: blocks) → blocks ≠ [] →
  configure compile pagesize http blocks = inr c →
  eval_props evaluate (user_prop_list c) = Some vs →
  Forall (fun kv => Forall is_byte kv.2) (values_of vs) →
  (buf_size c = 0 ∨ conf_ok evaluate c vs)
  ∧ (∃ nm, named c nm (values_of vs) ∧ names_ok nm)
  ∧ key_set (errcode_key c) ∧ key_set (errstr_key c)
  ∧ (enabled c = 0 ∨ enabled c = 1) ∧ content_type c ≠ None.
Proof.
  intros Hp Hds Hne H Ev Hv. apply Forall_cons in Hds as [Hh Hb]. unfold configure in H.
  destruct (run_commands compile http _) as [|c0] eqn:E; [done|].
  assert (Hm : conf_merged c).
  { eapply nested_merged; [|exact Hb|done| |exact H]; [lia|].
    eapply run_commands_wf; [exact Hh|apply create_wf|exact E]. }
  pose proof Hm as [[W1 W2 W3 W4 W5 W6 W7 W8 W9 W10] _ [K1 K2] (S1 & S2 & S3)].
  split_and!; try done; [|by eapply merged_named|by destruct W6].
  destruct (decide (buf_size c = 0)); [by left|right]. split; [lia|by destruct W7|done].
Qed.

(** [rds_json on] with a root in the http block and a property in the location. *)
Definition example_blocks : list (list command) :=
  [[rds_json (bs "ON"); rds_json_success_property (bs "ok")];
   [rds_json_user_property (bs "by") (bs "nginx"); rds_json_format (bs "compact"); rds_json_buffer_size (bs "1k")]].

Lemma rds_json_configured_witness :
  ∃ c, configure Some 4096 [rds_json_root (bs "rows")] example_blocks = inr c
    ∧ (buf_size c = 0 ∨ conf_ok Some c [(json_quote (bs "by"), bs "nginx", 0)]) ∧ root c = json_quote (bs "rows")
    ∧ ∃ nm, named c nm [(json_quote (bs "by"), bs "nginx")] ∧ names_ok nm.
Proof.
  destruct (configure Some 4096 [rds_json_root (bs "rows")] example_blocks) as [e|c] eqn:E; [vm_compute in E; discriminate|].
  assert (Ec : Some c = match configure Some 4096 [rds_json_root (bs "rows")] example_blocks with inr c => Some c | _ => None end)
    by (by rewrite E).
  vm_compute in Ec. injection Ec as ->. eexists. split; [reflexivity|].
  destruct (rds_json_configured Some Some 4096 [rds_json_root (bs "rows")] example_blocks _
    [(json_quote (bs "by"), bs "nginx", 0)] ltac:(lia)
    ltac:(repeat constructor; unfold is_byte; simpl; lia) ltac:(done) E ltac:(reflexivity)
    ltac:(repeat constructor; unfold is_byte; simpl; lia)) as (H1 & H2 & _).
  split; [exact H1|]. split; [reflexivity|]. exact H2.
Defined.

End RdsJsonConf.
