(* ===== verification/RdsJsonReply.v ===== *)
(** The other responses of the rds-json module: the object for a result without columns,
    the answer of [rds_json_ret], and the cases in which a response goes wrong: an end
    that is not marked, a buffer size of zero, and numbers that are no JSON numbers. *)

From S2P Require Import Prelude NgxNumber NgxEscape SetMisc Redis2 RdsStream RdsJsonOut Json RdsJsonFilter RdsJsonProof RdsJsonSafe RdsJsonTable RdsJsonConf.

Open Scope Z_scope.

Module RdsJsonReply.

Export RdsJsonConf RdsJsonSafe.
Import Json.

(** * Specification *)

Definition status_member (nm : conf_names) (ok : bool) : list (bytes * json) :=
  match success_name nm with None => [] | Some k => [(k, JBool ok)] end.

Definition prop_members (nm : conf_names) : list (bytes * json) :=
  map (fun '(k, v) => (k, JStr v)) (prop_names nm).

(** [present b l]: the member [l] when [b]. *)
Definition present {A : Type} (b : bool) (x : A) : list A := if b then [x] else [].

Definition decimal (n : Z) : bytes := sprintf_num_digits 0 n.

(** The object for a result without columns: [ek] and [sk] are the names of the error
    code and of the error message. *)
Definition header_ast (nm : conf_names) (ek sk : bytes) (h : ngx_http_rds_header_t) : json :=
  JObj (status_member nm (std_errcode h =? 0) ++ prop_members nm
        ++ [(ek, JNum (decimal (std_errcode h)))]
        ++ present (negb (length (errstr h) =? 0)%nat) (sk, JStr (errstr h))
        ++ present (negb (insert_id h =? 0)) (bs "insert_id", JNum (decimal (insert_id h)))
        ++ present (negb (affected_rows h =? 0)) (bs "affected_rows", JNum (decimal (affected_rows h)))).

(** The answer of [rds_json_ret code es]. *)
Definition ret_ast (nm : conf_names) (ek sk code es : bytes) : json :=
  JObj ([(ek, JNum code)] ++ present (negb (length es =? 0)%nat) (sk, JStr es)
        ++ status_member nm (ngx_atoi code =? 0) ++ prop_members nm).

(** * Theorems *)

(** ** Numbers *)

Lemma skip_digits_all (ds : bytes) : Forall is_digit ds → skip_digits ds = [].
Proof.
  induction 1 as [|d ds Hd Hds IH]; [done|]. cbn. unfold dig, is_digit in *.
  rewrite (proj2 (Z.leb_le _ _)), (proj2 (Z.leb_le _ _)) by lia. done.
Qed.

Lemma json_number_digits (ds : bytes) :
  Forall is_digit ds → ds ≠ [] → (ds !! 0%nat = Some "0"%ch → length ds = 1%nat) → json_number ds = true.
Proof.
  intros Hd Hne Hz. destruct ds as [|c ds]; [done|]. apply Forall_cons in Hd as [Hc Hd]. unfold is_digit in Hc.
  unfold json_number. rewrite (proj2 (Z.eqb_neq c "-"%ch)) by (simpl; lia).
  destruct (Z.eqb_spec c "0"%ch) as [->|Hn].
  - specialize (Hz eq_refl). by destruct ds.
  - rewrite skip_digits_all by done. unfold dig. by rewrite (proj2 (Z.leb_le _ _)), (proj2 (Z.leb_le _ _)) by (simpl; lia).
Qed.

Lemma sprintf_first (fuel : nat) (n : Z) (acc : bytes) :
  0 < n < 10 ^ Z.of_nat fuel → (0 < fuel)%nat →
  sprintf_digits fuel 10 (fun d => d + "0"%ch) n acc !! 0%nat ≠ Some "0"%ch.
Proof.
  revert n acc. induction fuel as [|fuel IH]; intros n acc Hn Hf; [lia|]. cbn [sprintf_digits].
  rewrite Nat2Z.inj_succ, Z.pow_succ_r in Hn by lia.
  destruct (Z.eqb_spec (n / 10) 0) as [E|E].
  - cbn. pose proof (Z.div_mod n 10 ltac:(lia)). intros [= H1]. simpl in H1. lia.
  - assert (0 < n / 10) by (pose proof (Z.div_pos n 10); lia).
    assert (n / 10 < 10 ^ Z.of_nat fuel) by (apply Z.div_lt_upper_bound; lia).
    destruct fuel as [|fuel]; [simpl in *; lia|]. apply IH; lia.
Qed.

Lemma decimal_json (n : Z) : 0 <= n < 2 ^ 64 → json_number (decimal n) = true.
Proof.
  intros Hn. destruct (sprintf_num_digits_dec n Hn) as (Hne & Hd & Hv & _). apply json_number_digits; [done..|].
  destruct (decide (n = 0)) as [->|Hz]; [done|]. intros H. exfalso. revert H. unfold decimal, sprintf_num_digits.
  apply sprintf_first; unfold NGX_INT64_LEN; [simpl; lia|lia].
Qed.

(** ** Texts *)

Lemma commas_middle (l r : list bytes) (x : bytes) :
  commas (l ++ x :: r) = concat (map (fun y => y ++ [","%ch]) l) ++ x ++ concat (map (fun y => [","%ch] ++ y) r).
Proof.
  induction l as [|y l IH]; [apply commas_concat|]. cbn [app]. rewrite commas_cons by (by destruct l).
  rewrite IH. cbn [map concat]. by rewrite <- !(assoc_L (++)).
Qed.

(** A member, and the text of an object around one of its members. *)
Lemma object_print (m1 m2 : list (bytes * json)) (kv : bytes * json) :
  json_print (JObj (m1 ++ kv :: m2))
  = ["{"%ch] ++ concat (map (fun y => print_member y ++ [","%ch]) m1) ++ print_member kv
    ++ concat (map (fun y => [","%ch] ++ print_member y) m2) ++ ["}"%ch].
Proof.
  assert (E : ∀ m, json_print (JObj m) = ["{"%ch] ++ commas (map print_member m) ++ ["}"%ch]).
  { intros m. cbn [json_print]. do 3 f_equal. apply map_ext. by intros [k v]. }
  rewrite E, map_app. cbn [map]. rewrite commas_middle, !map_map. by rewrite <- !(assoc_L (++)).
Qed.

Lemma present_print (b : bool) (kv : bytes * json) (t : bytes) :
  (b = true → [","%ch] ++ print_member kv = t) →
  concat (map (fun y => [","%ch] ++ print_member y) (present b kv)) = if b then t else [].
Proof. intros H. destruct b; [|done]. cbn [present map concat]. by rewrite app_nil_r, H. Qed.

Section Texts.
Context {V : Type} (evaluate : V → option bytes) (conf : ngx_http_rds_json_loc_conf_t (V := V)).
Context (nm : conf_names) (vs : list (bytes * bytes * Z)) (ek sk : bytes).
Context (Hnm : named conf nm (values_of vs)) (Hvs : eval_props evaluate (user_prop_list conf) = Some vs).
Context (Hek : errcode_key conf = json_quote ek) (Hsk : errstr_key conf = json_quote sk).

Lemma status_before (ok : bool) :
  concat (map (fun y => print_member y ++ [","%ch]) (status_member nm ok))
  = if negb (length (success conf) =? 0)%nat
    then success conf ++ (if ok then bs ":true," else bs ":false,") else [].
Proof.
  rewrite (named_success _ _ _ Hnm), quoted_length. unfold status_member.
  destruct (success_name nm) as [k|]; [|done]. cbn [map concat quoted]. rewrite app_nil_r.
  unfold print_member. cbn [fst snd json_print]. rewrite <- !(assoc_L (++)). by destruct ok.
Qed.

Lemma status_after (ok : bool) :
  concat (map (fun y => [","%ch] ++ print_member y) (status_member nm ok))
  = if negb (length (success conf) =? 0)%nat
    then [","%ch] ++ success conf ++ (if ok then bs ":true" else bs ":false") else [].
Proof.
  rewrite (named_success _ _ _ Hnm), quoted_length. unfold status_member.
  destruct (success_name nm) as [k|]; [|done]. cbn [map concat quoted]. rewrite app_nil_r.
  unfold print_member. cbn [fst snd json_print]. by destruct ok.
Qed.

Lemma props_before : concat (map (fun y => print_member y ++ [","%ch]) (prop_members nm)) = props_text vs.
Proof.
  destruct (eval_props_counted evaluate _ vs Hvs) as [-> _]. rewrite (named_props _ _ _ Hnm).
  unfold props_json, prop_members. rewrite !map_map. f_equal. apply map_ext. intros [k v].
  unfold print_member, json_quote. cbn [fst snd json_print]. unfold json_quote. by rewrite <- !(assoc_L (++)).
Qed.

Lemma ret_props_json (us : list (bytes * bytes * Z)) :
  Forall (fun u => u.2 = ngx_http_rds_json_escape_count u.1.2) us →
  ret_props_text us = concat (map (fun kv => [","%ch] ++ kv.1 ++ [":"%ch] ++ json_quote kv.2) (values_of us)).
Proof.
  induction 1 as [|[[k v] z] us Hu Hus IH]; [done|]. cbn [ret_props_text values_of map concat fst snd].
  cbn [fst snd] in Hu. subst z. rewrite copy_escaped_count, IH. unfold json_quote. by rewrite <- !(assoc_L (++)).
Qed.

Lemma eval_counts (props : list (ngx_http_rds_json_property_t (V := V))) us :
  eval_props evaluate props = Some us → Forall (fun u => u.2 = ngx_http_rds_json_escape_count u.1.2) us.
Proof.
  revert us. induction props as [|p props IH]; intros us; cbn [eval_props]; [by intros [= <-]|].
  repeat case_match; try done. intros [= <-]. constructor; [done|by apply IH].
Qed.

Lemma props_after : concat (map (fun y => [","%ch] ++ print_member y) (prop_members nm)) = ret_props_text vs.
Proof.
  rewrite ret_props_json by (by eapply eval_counts). rewrite (named_props _ _ _ Hnm).
  unfold prop_members. rewrite !map_map. f_equal. apply map_ext. by intros [k v].
Qed.

Lemma header_print (h : ngx_http_rds_header_t) (cs : list ngx_http_rds_column_t) :
  header_fits h cs → header_text conf h vs = json_print (header_ast nm ek sk h).
Proof.
  intros (Hs & _ & _ & Ha & Hi & _). unfold header_ast. rewrite (assoc_L (++) (status_member _ _)).
  change (?a ++ [?x] ++ ?r) with (a ++ x :: r). rewrite object_print, !map_app, !concat_app.
  rewrite status_before, props_before. unfold header_text. rewrite Hek, Hsk.
  rewrite snprintf_u16, !snprintf_u64, copy_escaped_count by lia.
  rewrite (present_print (negb (length (errstr h) =? 0)%nat) _ _ (fun _ => eq_refl)).
  rewrite (present_print (negb (insert_id h =? 0)) _ _ (fun _ => eq_refl)).
  rewrite (present_print (negb (affected_rows h =? 0)) _ _ (fun _ => eq_refl)).
  unfold print_member. cbn [fst snd json_print]. by rewrite <- !(assoc_L (++)).
Qed.

Lemma ret_print (es : bytes) : ret_text conf es vs = json_print (ret_ast nm ek sk (errcode conf) es).
Proof.
  unfold ret_ast. change ([?x] ++ ?r) with ([] ++ x :: r). rewrite object_print.
  cbn [map concat]. rewrite app_nil_l, !map_app, !concat_app, status_after, props_after.
  rewrite (present_print (negb (length es =? 0)%nat) _ _ (fun _ => eq_refl)).
  unfold ret_text. rewrite Hek, Hsk, copy_escaped_count.
  unfold print_member. cbn [fst snd json_print]. by rewrite <- !(assoc_L (++)).
Qed.

Lemma ret_sized (es : bytes) : ret_size conf es vs = Z.of_nat (length (ret_text conf es vs)).
Proof.
  destruct (eval_props_counted evaluate _ vs Hvs) as [E1 E2].
  assert (E3 : length (ret_props_text vs) = length (props_text vs)).
  { rewrite E1, ret_props_json by (by eapply eval_counts). unfold props_json.
    rewrite !length_concat, !map_map. f_equal. apply map_ext. intros [k v]. unfold json_quote.
    rewrite !length_app. simpl. lia. }
  unfold ret_size, ret_text. rewrite E2, <- E3, copy_escaped_count.
  pose proof (two_pass (TwoPass := rds_escape_two_pass) es).
  assert (E4 : ∀ b : bool, Z.of_nat (length (if b then bs ":true" else bs ":false")) = (if b then 5 else 6))
    by (by intros []).
  rewrite !length_app.
  destruct (negb (length es =? 0)%nat), (negb (length (success conf) =? 0)%nat); rewrite ?length_app;
    specialize (E4 (ngx_atoi (errcode conf) =? 0)); destruct (ngx_atoi (errcode conf) =? 0);
    cbn [length] in *; lia.
Qed.

End Texts.

(** ** A result without columns *)

Lemma status_ok (nm : conf_names) (ok : bool) :
  names_ok nm → Forall (fun kv => Forall is_byte kv.1 ∧ json_ok kv.2) (status_member nm ok).
Proof. intros (_ & Hs & _). unfold status_member. destruct (success_name nm); by repeat constructor. Qed.

Lemma prop_members_ok (nm : conf_names) :
  names_ok nm → Forall (fun kv => Forall is_byte kv.1 ∧ json_ok kv.2) (prop_members nm).
Proof.
  intros (_ & _ & Hp). apply Forall_map. eapply Forall_impl; [exact Hp|]. by intros [k v] [? ?].
Qed.

Lemma present_ok (b : bool) (kv : bytes * json) :
  Forall is_byte kv.1 → json_ok kv.2 → Forall (fun kv => Forall is_byte kv.1 ∧ json_ok kv.2) (present b kv).
Proof. intros H1 H2. destruct b; by repeat constructor. Qed.

Lemma header_ast_ok (nm : conf_names) (ek sk : bytes) (h : ngx_http_rds_header_t) cs :
  names_ok nm → Forall is_byte ek → Forall is_byte sk → Forall is_byte (errstr h) → header_fits h cs →
  json_ok (header_ast nm ek sk h).
Proof.
  intros Hn H1 H2 H3 (Hs & _ & _ & Ha & Hi & _). apply json_ok_obj.
  repeat apply Forall_app_2; try apply present_ok; try done.
  - by apply status_ok.
  - by apply prop_members_ok.
  - repeat constructor; [done|]. apply decimal_json. lia.
  - repeat constructor; unfold is_byte; simpl; lia.
  - by apply decimal_json.
  - repeat constructor; unfold is_byte; simpl; lia.
  - by apply decimal_json.
Qed.

Lemma new_ctx_mem (size : Z) : 0 < size → mem_inv size (mem new_ctx).
Proof. intros H. split; cbn; try done; lia. Qed.

(** The filter writes the text of the header and passes everything on. *)
Lemma filter_header {V : Type} (evaluate : V → option bytes) (conf : ngx_http_rds_json_loc_conf_t (V := V))
    (is_main : bool) (vs : list (bytes * bytes * Z)) (h : ngx_http_rds_header_t) (e : env) :
  conf_ok evaluate conf vs → header_fits h [] → env_ok e →
  ∃ s bufs init b,
    ngx_http_rds_json_body_filter evaluate conf is_main e false [mbuf (header_bytes h)] (Some new_ctx)
    = Some (NGX_OK, Some s, [next_header; next_body bufs])
    ∧ state s = state_done ∧ concat (map data bufs) = header_text conf h vs
    ∧ bufs = init ++ [b] ∧ Forall unmarked init
    ∧ (Z.of_nat (length (header_text conf h vs)) <= buf_size conf → last_buf b = is_main).
Proof.
  intros [Hb Hf Hv] Hh He. unfold ngx_http_rds_json_body_filter. cbn [length Nat.eqb orb].
  cbn [state new_ctx]. unfold filter_state. cbn [state new_ctx]. unfold ngx_http_rds_json_process_header.
  cbn [current_buf in_memory mbuf bdata]. rewrite <- (app_nil_r (header_bytes h)).
  rewrite (parse_header_bytes h []) by done.
  assert (Hc : col_count h = 0) by (destruct Hh as (_ & _ & _ & _ & _ & Hc & _); done).
  rewrite Hc. cbn [Z.eqb length Nat.eqb negb header_sent set_state]. destruct He as [He1 He2].
  cbn [new_ctx header_sent negb]. rewrite He1. unfold ngx_http_rds_json_output_header. rewrite Hv.
  rewrite (header_sized evaluate conf h [] (user_prop_list conf) vs) by done. rewrite Z.eqb_refl. cbn [negb].
  destruct (write_text_spec conf (header_text conf h vs) true is_main
    (see_stream_end (set_header_sent true (set_state state_done new_ctx))) Hb) as (m' & -> & [W1 W2 W3 W4 W5]).
  { split; cbn; try done; lia. } { done. }
  cbn [failed NGX_OK NGX_ERROR Z.eqb Z.geb Z.compare orb NGX_HTTP_SPECIAL_RESPONSE Pos.eqb].
  destruct W5 as (init & b & Ef & Hi & Hl).
  set (s1 := set_mem m' _). destruct (output_bufs_end e s1) as (m2 & E2 & _); [done|exact W4|change (mem s1) with m'; rewrite Ef; by destruct init|].
  rewrite E2. eexists _, _, init, b. split; [reflexivity|]. split_and!; try done.
  intros Hle. rewrite Hl. unfold fits. cbn [avail_out mem see_stream_end set_mem set_seen_stream_end new_ctx set_header_sent set_state Z.eqb].
  by rewrite (proj2 (Z.leb_le _ _)), andb_true_r.
Qed.

(** A result without columns (an error, or the answer to an update) becomes one
    JSON object: after the response header the filter passes on buffers with the
    text of an object that holds the success flag and the user properties where they
    are configured, the error code, the message when there is one, and the insert id
    and the affected rows when they are not 0. The last buffer is marked as the end
    of the response when the text fits in one buffer. *)
Theorem rds_json_no_columns {V : Type} (evaluate : V → option bytes)
    (conf : ngx_http_rds_json_loc_conf_t (V := V)) (is_main : bool) (vs : list (bytes * bytes * Z))
    (nm : conf_names) (ek sk : bytes) (h : ngx_http_rds_header_t) (e : env) :
  conf_ok evaluate conf vs → named conf nm (values_of vs) → names_ok nm →
  errcode_key conf = json_quote ek → errstr_key conf = json_quote sk →
  Forall is_byte (ek ++ sk ++ errstr h) → header_fits h [] → env_ok e →
  ∃ s bufs init b,
    ngx_http_rds_json_body_filter evaluate conf is_main e false [mbuf (header_bytes h)] (Some new_ctx)
    = Some (NGX_OK, Some s, [next_header; next_body bufs])
    ∧ state s = state_done
    ∧ json_decode (concat (map data bufs)) = Some (header_ast nm ek sk h)
    ∧ bufs = init ++ [b] ∧ Forall unmarked init
    ∧ (Z.of_nat (length (concat (map data bufs))) <= buf_size conf → last_buf b = is_main).
Proof.
  intros Hc Hnm Hn Hek Hsk Hby Hh He. apply Forall_app in Hby as [B1 [B2 B3]%Forall_app].
  destruct (filter_header evaluate conf is_main vs h e Hc Hh He) as (s & bufs & init & b & E & Hs & Ht & Hb & Hi & Hl).
  exists s, bufs, init, b. rewrite Ht. split_and!; try done.
  rewrite (header_print evaluate conf nm vs ek sk Hnm (conf_props _ _ _ Hc) Hek Hsk h []) by done.
  apply json_decode_print. by eapply header_ast_ok.
Qed.

Lemma rds_json_no_columns_witness :
  ∃ s bufs init b,
    ngx_http_rds_json_body_filter Some example_conf true (mk_env 0 0 0) false
      [mbuf (header_bytes (mk_header 0 0 [] 3 12 0))] (Some new_ctx)
    = Some (NGX_OK, Some s, [next_header; next_body bufs])
    ∧ json_decode (concat (map data bufs))
      = Some (JObj [(bs "errcode", JNum (bs "0")); (bs "insert_id", JNum (bs "12")); (bs "affected_rows", JNum (bs "3"))])
    ∧ bufs = init ++ [b].
Proof.
  destruct (rds_json_no_columns Some example_conf true [] (mk_names None None []) (bs "errcode") (bs "errstr")
    (mk_header 0 0 [] 3 12 0) (mk_env 0 0 0)) as (s & bufs & init & b & E & _ & Hj & Hb & _).
  - split; [vm_compute; done|by left|done].
  - by split.
  - split_and!; constructor.
  - done.
  - done.
  - repeat constructor; unfold is_byte; simpl; lia.
  - unfold header_fits. cbn. lia.
  - done.
  - exists s, bufs, init, b. by split_and!.
Defined.

(** [rds_json_ret code message] answers with one buffer, of exactly the size
    that was computed for it, whenever the values it needs can be evaluated, and
    fails when one of them cannot. When the code has no leading zero, the text is a
    JSON object with the code, the message when it is not empty, the success flag
    (true when the code is zero) and the user properties where they are configured. *)
Theorem rds_json_ret_answer {V : Type} (evaluate : V → option bytes)
    (conf : ngx_http_rds_json_loc_conf_t (V := V)) (is_main : bool) (es : option bytes)
    (vs : option (list (bytes * bytes * Z))) (nm : conf_names) (ek sk : bytes) :
  Redis2.ngx_http_complex_value evaluate (default Redis2.cv_zero (conf_errstr conf)) = es →
  eval_props evaluate (user_prop_list conf) = vs →
  named conf nm (values_of (default [] vs)) → names_ok nm →
  errcode_key conf = json_quote ek → errstr_key conf = json_quote sk →
  Forall is_byte (ek ++ sk ++ default [] es) →
  match es, vs with
  | Some es, Some vs =>
      ∃ b, ngx_http_rds_json_ret_handler evaluate conf is_main = Some b ∧ last_buf b = is_main
           ∧ Z.of_nat (length (data b)) = ret_size conf es vs
           ∧ (Forall is_digit (errcode conf) → errcode conf ≠ [] →
              (errcode conf !! 0%nat = Some "0"%ch → length (errcode conf) = 1%nat) →
              json_decode (data b) = Some (ret_ast nm ek sk (errcode conf) es))
  | _, _ => ngx_http_rds_json_ret_handler evaluate conf is_main = None
  end.
Proof.
  intros He Hv Hnm Hn Hek Hsk Hby. unfold ngx_http_rds_json_ret_handler. rewrite He, Hv.
  destruct es as [es|]; [|done]. destruct vs as [vs|]; [|done].
  change (default [] (Some ?x)) with x in *. apply Forall_app in Hby as [B1 [B2 B3]%Forall_app].
  rewrite (ret_sized evaluate conf vs Hv es), Z.eqb_refl. eexists. split; [reflexivity|].
  split_and!; [done..|]. intros Hd Hne Hz. cbn [data].
  rewrite (ret_print evaluate conf nm vs ek sk Hnm Hv Hek Hsk). apply json_decode_print, json_ok_obj.
  repeat apply Forall_app_2.
  - repeat constructor; [done|]. by apply json_number_digits.
  - by apply present_ok.
  - by apply status_ok.
  - by apply prop_members_ok.
Qed.

(** [rds_json_ret 409 "no user"] with [rds_json_success_property ok]. *)
Lemma rds_json_ret_answer_witness :
  ∃ c b, configure Some 4096 [rds_json_success_property (bs "ok")] [[rds_json_ret (bs "409") (bs "no user")]] = inr c
    ∧ ngx_http_rds_json_ret_handler Some c true = Some b
    ∧ json_decode (data b)
      = Some (JObj [(bs "errcode", JNum (bs "409")); (bs "errstr", JStr (bs "no user")); (bs "ok", JBool false)]).
Proof.
  eexists. 
  pose proof (rds_json_ret_answer Some
    (mk_conf 0 0 (Some (bs "application/json")) (json_quote (bs "data")) (json_quote (bs "ok")) None
       (json_quote (bs "errcode")) (json_quote (bs "errstr")) 4096 (bs "409") (Some (Redis2.cv_compiled (bs "no user"))))
    true (Some (bs "no user")) (Some []) (mk_names (Some (bs "data")) (Some (bs "ok")) []) (bs "errcode") (bs "errstr")
    eq_refl eq_refl) as H.
  destruct H as (b & E & _ & _ & Hj).
  - by split.
  - repeat split; repeat constructor; unfold is_byte; simpl; lia.
  - done.
  - done.
  - repeat constructor; unfold is_byte; simpl; lia.
  - exists b. split; [reflexivity|]. split; [exact E|].
    apply Hj; [repeat constructor; unfold is_digit; simpl; lia|done|done].
Defined.

(** The rounds of the loop that copies postponed data. *)
Lemma copy_more (size : Z) (fuel : nat) (last : bool) (m : out_mem) (p : bytes) :
  postponed m = Some p → 0 <= avail_out m < Z.of_nat (length p) →
  ∃ m1, avail_out m1 = 0 ∧ postponed m1 = Some (drop (Z.to_nat (avail_out m)) p)
        ∧ copy_postponed size (S fuel) last m = copy_postponed size fuel last (ngx_http_rds_json_get_buf size m1).
Proof.
  intros Hp Ha. cbn [copy_postponed]. rewrite Hp. change (default [] (Some p)) with p. rewrite Z.min_r by lia.
  cbn [avail_out set_postponed set_avail_out append_out_buf set_out_buf]. rewrite Z.sub_diag. cbn [Z.gtb Z.compare].
  rewrite (proj2 (Nat.eqb_neq _ 0)) by (rewrite length_drop; lia). cbn [postponed set_postponed].
  eexists. split; [|split; [|reflexivity]]; done.
Qed.

Lemma copy_fits (size : Z) (fuel : nat) (last : bool) (m : out_mem) (p : bytes) :
  postponed m = Some p → Z.of_nat (length p) < avail_out m →
  ∃ m', copy_postponed size (S fuel) last m = Some m' ∧ avail_out m' = avail_out m - Z.of_nat (length p).
Proof.
  intros Hp Ha. cbn [copy_postponed]. rewrite Hp. change (default [] (Some p)) with p. rewrite Z.min_l by lia.
  cbn [avail_out set_postponed set_avail_out append_out_buf set_out_buf].
  rewrite (proj2 (Z.gtb_lt _ _)) by lia. by eexists.
Qed.

Lemma get_buf_new (size : Z) (m : out_mem) :
  avail_out m = 0 →
  avail_out (ngx_http_rds_json_get_buf size m) = size
  ∧ postponed (ngx_http_rds_json_get_buf size m) = postponed m.
Proof. intros H. unfold ngx_http_rds_json_get_buf. rewrite H. cbn. by destruct (free_bufs m). Qed.

(** Two bytes at the end of a buffer that has room for one. *)
Lemma split_text (size : Z) (a b : Z) (last : bool) (m m' : out_mem) :
  1 < size → avail_out m = 1 →
  ngx_http_rds_json_submit_mem size 2 last (store [a; b] (ngx_http_rds_json_request_mem size 2 m)) = Some (NGX_OK, m') →
  avail_out m' = size - 1.
Proof.
  intros Hs Ha.
  assert (E : ∃ m1, avail_out m1 = 1 ∧ store [a; b] (ngx_http_rds_json_request_mem size 2 m) = set_postponed (Some [a; b]) m1).
  { unfold ngx_http_rds_json_request_mem, ngx_http_rds_json_get_buf. rewrite Ha. cbn [Z.eqb negb].
    cbv zeta. rewrite Ha. eexists. split; [|reflexivity].
    unfold ngx_http_rds_json_get_postponed. by repeat case_match. }
  destruct E as (m1 & E1 & ->). unfold ngx_http_rds_json_submit_mem. cbn [postponed set_postponed length].
  destruct (copy_more size 2 last (set_postponed (Some [a; b]) m1) [a; b]) as (m2 & A2 & P2 & ->); [done|cbn; lia|].
  destruct (get_buf_new size m2 A2) as [A3 P3]. rewrite P2 in P3. cbn [avail_out set_postponed] in P3. rewrite E1 in P3.
  destruct (copy_fits size 1 last _ _ P3) as (m4 & -> & A4); [rewrite A3; simpl; lia|].
  intros [= <-]. rewrite A4, A3. done.
Qed.

(** With [rds_json_root], a response may never end: when one byte is left in
    the current output buffer at the end of the rows, the closing brackets do not
    fit in it, none of the buffers that are passed on is marked as the last one,
    even in a main request, and whatever is given to the filter later (the special
    buffer with which the upstream module ends a response included) is discarded. *)
Theorem rds_json_root_unfinished {V : Type} (evaluate : V → option bytes)
    (conf : ngx_http_rds_json_loc_conf_t (V := V)) (is_main : bool) (e : env) (s : ngx_http_rds_json_ctx_t) :
  root conf ≠ [] → 1 < buf_size conf → env_ok e →
  state s = state_expect_row → mem_inv (buf_size conf) (mem s) → Forall unmarked (fin (mem s)) →
  avail_out (mem s) = 1 →
  ∃ s' bufs,
    ngx_http_rds_json_body_filter evaluate conf is_main e false [mbuf [0]] (Some s)
    = Some (NGX_OK, Some s', [next_body bufs])
    ∧ Forall unmarked bufs
    ∧ ∀ calls, Forall (fun c => c.2 ≠ []) calls →
        filter_calls evaluate conf is_main calls (Some s') = Some (replicate (length calls) NGX_OK, Some s', []).
Proof.
  intros Hr Hb He Hs Hm Hu Ha. unfold ngx_http_rds_json_body_filter. cbn [length Nat.eqb orb].
  rewrite Hs. unfold filter_state. rewrite Hs. unfold chain_fuel. cbn [Nat.add Nat.mul ngx_http_rds_json_process_row].
  cbn [current_buf in_memory mbuf bdata Z.eqb length Nat.eqb negb].
  rewrite (proj2 (Nat.eqb_neq (length (root conf)) 0)) by (by destruct (root conf)). cbn [negb].
  unfold ngx_http_rds_json_output_literal.
  destruct (write_text_spec conf ["]"%ch; "}"%ch] false is_main (see_stream_end (set_state state_done s)))
    as (m' & Ew & [W1 W2 W3 W4 W5]); [lia|by destruct Hm; split|done|].
  assert (Hav : avail_out m' = buf_size conf - 1).
  { unfold write_text in Ew. cbn [andb length] in Ew.
    destruct (ngx_http_rds_json_submit_mem _ _ _ _) as [[rc m1]|] eqn:Es; [|done]. injection Ew as -> ->.
    by eapply split_text; [| |exact Es]. }
  rewrite Ew.
  cbn [failed NGX_OK NGX_ERROR Z.eqb Z.geb Z.compare orb NGX_HTTP_SPECIAL_RESPONSE Pos.eqb].
  destruct W5 as (init & b & Ef & Hi & Hl). set (s1 := set_mem m' _).
  destruct (output_bufs_end e s1) as (m2 & E2 & _); [done|exact W4|change (mem s1) with m'; rewrite Ef; by destruct init|].
  rewrite E2. eexists _, _. split; [reflexivity|]. change (mem s1) with m'. rewrite Ef. split.
  2: { intros calls Hc. by apply done_calls. }
  apply Forall_app_2; [done|]. repeat constructor. unfold unmarked. rewrite Hl. unfold fits.
  change (avail_out (mem (see_stream_end (set_state state_done s)))) with (avail_out (mem s)).
  rewrite Ha, Hav, (proj2 (Z.eqb_neq (buf_size conf - 1) 0)) by lia. by destruct is_main.
Qed.

(** A result of one row, [{"d":[{"a":1}]}], in buffers of 14 bytes. *)
Definition root_conf : ngx_http_rds_json_loc_conf_t (V := bytes) :=
  mk_conf 1 json_format_normal (Some []) (json_quote (bs "d")) [] None (json_quote (bs "errcode"))
    (json_quote (bs "errstr")) 14 [] None.

Definition one_row : list ibuf :=
  [mbuf (header_bytes (mk_header 0 0 [] 0 0 1) ++ col_bytes (mk_column rds_col_type_integer 3 (bs "a"))
         ++ [1] ++ put_le 4 1 ++ bs "1")].

(** The context after the row. *)
Definition one_row_ctx : ngx_http_rds_json_ctx_t :=
  mk_ctx state_expect_row [mk_column rds_col_type_integer 3 (bs "a")] 1 1 1 0 true false
    (mk_mem [] [] [] (mk_obuf (bs "{" ++ json_quote (bs "d") ++ bs ":[{" ++ json_quote (bs "a") ++ bs ":1}") false)
       (bs "{" ++ json_quote (bs "a") ++ bs ":1}") None None 1 false).

Lemma rds_json_root_unfinished_witness :
  ∃ s' bufs,
    ngx_http_rds_json_body_filter Some root_conf true (mk_env 0 0 0) false one_row (Some new_ctx)
    = Some (NGX_OK, Some one_row_ctx, [next_header])
    ∧ ngx_http_rds_json_body_filter Some root_conf true (mk_env 0 0 0) false [mbuf [0]] (Some one_row_ctx)
      = Some (NGX_OK, Some s', [next_body bufs])
    ∧ Forall unmarked bufs
    ∧ filter_calls Some root_conf true [(mk_env 0 0 0, [mk_ibuf false true []])] (Some s')
      = Some ([NGX_OK], Some s', []).
Proof.
  destruct (rds_json_root_unfinished Some root_conf true (mk_env 0 0 0)
    one_row_ctx) as (s' & bufs & E & Hu & Hc).
  - done.
  - done.
  - done.
  - done.
  - split; cbn; try done; try lia. repeat constructor. done.
  - repeat constructor.
  - done.
  - exists s', bufs. split; [vm_compute; reflexivity|]. split; [exact E|]. split; [exact Hu|].
    apply (Hc [(mk_env 0 0 0, [mk_ibuf false true []])]). by repeat constructor.
Defined.

Lemma copy_stuck (fuel : nat) (last : bool) (m : out_mem) (p : bytes) :
  avail_out m = 0 → postponed m = Some p → p ≠ [] → copy_postponed 0 fuel last m = None.
Proof.
  revert m. induction fuel as [|fuel IH]; intros m Ha Hp Hne; [done|].
  destruct (copy_more 0 fuel last m p Hp) as (m1 & A1 & P1 & ->); [rewrite Ha; destruct p; [done|simpl; lia]|].
  destruct (get_buf_new 0 m1 A1) as [A2 P2]. rewrite P1, Ha in P2. by apply IH.
Qed.

(** [rds_json_buffer_size 0] is accepted by the configuration, and then the loop that
    copies data to the output buffers never ends, whatever there is to write: no number
    of rounds is enough. *)
Theorem rds_json_buffer_size_zero {V : Type} (compile : bytes → option V) (pagesize : Z)
    (text : bytes) (last : bool) (m : out_mem) :
  text ≠ [] → avail_out m = 0 →
  (∃ c, configure compile pagesize [] [[rds_json_buffer_size (bs "0")]] = inr c ∧ buf_size c = 0)
  ∧ ∃ p, postponed (store text (ngx_http_rds_json_request_mem 0 (Z.of_nat (length text)) m)) = Some p
    ∧ ∀ fuel, copy_postponed 0 fuel last
                (store text (ngx_http_rds_json_request_mem 0 (Z.of_nat (length text)) m)) = None.
Proof.
  intros Ht Ha. split; [eexists; split; reflexivity|].
  assert (E : ∃ m1, store text (ngx_http_rds_json_request_mem 0 (Z.of_nat (length text)) m)
              = set_postponed (Some text) m1 ∧ avail_out m1 = 0).
  { destruct (get_buf_new 0 m Ha) as [A1 _]. unfold ngx_http_rds_json_request_mem. cbv zeta. rewrite A1.
    rewrite (proj2 (Z.ltb_lt _ _)) by (destruct text; [done|simpl; lia]).
    eexists. split; [reflexivity|]. cbn. unfold ngx_http_rds_json_get_postponed. by repeat case_match. }
  destruct E as (m1 & -> & A1). exists text. split; [done|]. intros fuel. by eapply copy_stuck.
Qed.

Lemma rds_json_buffer_size_zero_witness :
  ∃ p, postponed (store (bs "[") (ngx_http_rds_json_request_mem 0 1 (mem new_ctx))) = Some p
    ∧ ∀ fuel, copy_postponed 0 fuel false (store (bs "[") (ngx_http_rds_json_request_mem 0 1 (mem new_ctx))) = None.
Proof. by apply (rds_json_buffer_size_zero (V := bytes) Some 4096 (bs "[") false (mem new_ctx)). Defined.

(** The check of integers accepts a minus sign without digits; what is written then is
    no JSON text. *)
Example rds_json_lone_minus :
  ∃ s bufs,
    ngx_http_rds_json_body_filter Some example_conf true (mk_env 0 0 0) false
      [mbuf (header_bytes (mk_header 0 0 [] 0 0 1) ++ col_bytes (mk_column rds_col_type_integer 3 (bs "a"))
             ++ [1] ++ put_le 4 1 ++ bs "-" ++ [0])] (Some new_ctx)
    = Some (NGX_OK, Some s, [next_header; next_body bufs])
    ∧ concat (map data bufs) = bs "[{" ++ json_quote (bs "a") ++ bs ":-}]"
    ∧ json_decode (concat (map data bufs)) = None.
Proof. eexists _, _. split; [vm_compute; reflexivity|]. split; vm_compute; reflexivity. Qed.

(** The same columns and rows, but a special buffer in the middle of a field is an
    error, where between fields it is skipped. *)
Example rds_json_special_in_field :
  let call d := ngx_http_rds_json_body_filter Some example_conf true (mk_env 0 0 0) false
    [mbuf (header_bytes (mk_header 0 0 [] 0 0 1) ++ col_bytes (mk_column rds_col_type_varchar 3 (bs "a")) ++ [1]);
     mk_ibuf false true []; mbuf (put_le 4 2 ++ d); mk_ibuf false true []; mbuf (drop (length d) (bs "xy") ++ [0])]
    (Some new_ctx) in
  (∃ s acts, call (bs "xy") = Some (NGX_OK, Some s, acts)) ∧ (∃ s acts, call (bs "x") = Some (NGX_ERROR, Some s, acts)).
Proof. split; eexists _, _; vm_compute; reflexivity. Qed.

End RdsJsonReply.
