(* ===== verification/Drizzle.v ===== *)
(** The drizzle module: the client of MySQL and Drizzle servers that turns the answers of
    libdrizzle into an RDS stream, from
    src/drizzle-nginx-module-master/src/ngx_http_drizzle_output.c and
    ngx_http_drizzle_processor.c.

    libdrizzle answers one call after the other: its answers are a list, and the loops of
    the module go along it.  [None] stands for an answer that does not come.  A call of
    [process_events] returns its code, the state of the connection, the answers that are
    left and what it did: headers and buffers it passed on, queries it sent, how it
    ended the request.  Allocations succeed. *)

From S2P Require Import Prelude NgxNumber NgxEscape SetMisc Redis2 RdsStream RdsJsonOut.

Open Scope Z_scope.

Module Drizzle.

Export Rds.

(** ** libdrizzle *)

Definition DRIZZLE_MAX_BUFFER_SIZE : Z := 32768.

Definition DRIZZLE_RETURN_OK : Z := 0.
Definition DRIZZLE_RETURN_IO_WAIT : Z := 1.
Definition DRIZZLE_RETURN_ERROR_CODE : Z := 17.
Definition DRIZZLE_RETURN_ROW_END : Z := 19.

Definition DRIZZLE_COLUMN_TYPE_DECIMAL : Z := 0.
Definition DRIZZLE_COLUMN_TYPE_TINY : Z := 1.
Definition DRIZZLE_COLUMN_TYPE_SHORT : Z := 2.
Definition DRIZZLE_COLUMN_TYPE_LONG : Z := 3.
Definition DRIZZLE_COLUMN_TYPE_FLOAT : Z := 4.
Definition DRIZZLE_COLUMN_TYPE_DOUBLE : Z := 5.
Definition DRIZZLE_COLUMN_TYPE_NULL : Z := 6.
Definition DRIZZLE_COLUMN_TYPE_TIMESTAMP : Z := 7.
Definition DRIZZLE_COLUMN_TYPE_LONGLONG : Z := 8.
Definition DRIZZLE_COLUMN_TYPE_INT24 : Z := 9.
Definition DRIZZLE_COLUMN_TYPE_DATE : Z := 10.
Definition DRIZZLE_COLUMN_TYPE_TIME : Z := 11.
Definition DRIZZLE_COLUMN_TYPE_DATETIME : Z := 12.
Definition DRIZZLE_COLUMN_TYPE_YEAR : Z := 13.
Definition DRIZZLE_COLUMN_TYPE_NEWDATE : Z := 14.
Definition DRIZZLE_COLUMN_TYPE_VARCHAR : Z := 15.
Definition DRIZZLE_COLUMN_TYPE_BIT : Z := 16.
Definition DRIZZLE_COLUMN_TYPE_NEWDECIMAL : Z := 246.
Definition DRIZZLE_COLUMN_TYPE_ENUM : Z := 247.
Definition DRIZZLE_COLUMN_TYPE_SET : Z := 248.
Definition DRIZZLE_COLUMN_TYPE_TINY_BLOB : Z := 249.
Definition DRIZZLE_COLUMN_TYPE_MEDIUM_BLOB : Z := 250.
Definition DRIZZLE_COLUMN_TYPE_LONG_BLOB : Z := 251.
Definition DRIZZLE_COLUMN_TYPE_BLOB : Z := 252.
Definition DRIZZLE_COLUMN_TYPE_VAR_STRING : Z := 253.
Definition DRIZZLE_COLUMN_TYPE_STRING : Z := 254.
Definition DRIZZLE_COLUMN_TYPE_GEOMETRY : Z := 255.

(** What [drizzle_result_error_code] and its companions give for a result; the message
    is a C string. *)
Record drizzle_result_st := mk_result {
  result_error_code : Z;
  result_error : bytes;
  result_affected_rows : Z;
  result_insert_id : Z;
  result_column_count : Z
}.

Record drizzle_column_st := mk_dcol { column_type : Z; column_name : bytes }.

(** The answers of libdrizzle, each with the return code of the call: for a query with
    [drizzle_error_code], for a field with the offset, the length and the total length. *)
Inductive answer :=
  | con_connect (ret : Z)
  | query (ret error_code : Z) (res : drizzle_result_st)
  | column_read (ret : Z) (col : option drizzle_column_st)
  | row_read (ret row : Z)
  | field_read (ret offset len total : Z) (field : option bytes).

(** ** Data *)

Inductive ngx_http_drizzle_state_t :=
  | state_db_connect | state_db_send_query | state_db_recv_cols | state_db_recv_rows | state_db_idle.

(** An output buffer: the bytes between [pos] and [last], and the size of its memory. *)
Record dbuf := mk_dbuf { ddata : bytes; dcap : Z }.

(** The output of a request: [u->out_bufs], [u->busy_bufs], [u->free_bufs] and the fields
    of the peer data.  [written] is what was stored behind [out_buf->last]. *)
Record dmem := mk_dmem {
  out_bufs : list dbuf;
  busy_bufs : list dbuf;
  free_bufs : list dbuf;
  out_buf : option dbuf;
  written : bytes;
  cached : option Z;
  postponed : option bytes;
  avail_out : Z;
  seen_stream_end : bool
}.

Definition set_out_bufs (v : list dbuf) (m : dmem) : dmem :=
  mk_dmem v (busy_bufs m) (free_bufs m) (out_buf m) (written m) (cached m) (postponed m)
    (avail_out m) (seen_stream_end m).
Definition set_busy_bufs (v : list dbuf) (m : dmem) : dmem :=
  mk_dmem (out_bufs m) v (free_bufs m) (out_buf m) (written m) (cached m) (postponed m)
    (avail_out m) (seen_stream_end m).
Definition set_free_bufs (v : list dbuf) (m : dmem) : dmem :=
  mk_dmem (out_bufs m) (busy_bufs m) v (out_buf m) (written m) (cached m) (postponed m)
    (avail_out m) (seen_stream_end m).
Definition set_out_buf (v : option dbuf) (m : dmem) : dmem :=
  mk_dmem (out_bufs m) (busy_bufs m) (free_bufs m) v (written m) (cached m) (postponed m)
    (avail_out m) (seen_stream_end m).
Definition set_written (v : bytes) (m : dmem) : dmem :=
  mk_dmem (out_bufs m) (busy_bufs m) (free_bufs m) (out_buf m) v (cached m) (postponed m)
    (avail_out m) (seen_stream_end m).
Definition set_cached (v : option Z) (m : dmem) : dmem :=
  mk_dmem (out_bufs m) (busy_bufs m) (free_bufs m) (out_buf m) (written m) v (postponed m)
    (avail_out m) (seen_stream_end m).
Definition set_postponed (v : option bytes) (m : dmem) : dmem :=
  mk_dmem (out_bufs m) (busy_bufs m) (free_bufs m) (out_buf m) (written m) (cached m) v
    (avail_out m) (seen_stream_end m).
Definition set_avail_out (v : Z) (m : dmem) : dmem :=
  mk_dmem (out_bufs m) (busy_bufs m) (free_bufs m) (out_buf m) (written m) (cached m)
    (postponed m) v (seen_stream_end m).
Definition set_seen_stream_end (v : bool) (m : dmem) : dmem :=
  mk_dmem (out_bufs m) (busy_bufs m) (free_bufs m) (out_buf m) (written m) (cached m)
    (postponed m) (avail_out m) v.

(** [ngx_http_upstream_drizzle_peer_data_t], with [u->header_sent] and the timers of the
    connection. *)
Record peer_data := mk_dp {
  state : ngx_http_drizzle_state_t;
  has_set_names : bool;
  drizzle_row : Z;
  header_sent : bool;
  write_timer : bool;
  read_timer : bool;
  mem : dmem
}.

Definition set_state (v : ngx_http_drizzle_state_t) (p : peer_data) : peer_data :=
  mk_dp v (has_set_names p) (drizzle_row p) (header_sent p) (write_timer p) (read_timer p) (mem p).
Definition set_has_set_names (v : bool) (p : peer_data) : peer_data :=
  mk_dp (state p) v (drizzle_row p) (header_sent p) (write_timer p) (read_timer p) (mem p).
Definition set_drizzle_row (v : Z) (p : peer_data) : peer_data :=
  mk_dp (state p) (has_set_names p) v (header_sent p) (write_timer p) (read_timer p) (mem p).
Definition set_header_sent (v : bool) (p : peer_data) : peer_data :=
  mk_dp (state p) (has_set_names p) (drizzle_row p) v (write_timer p) (read_timer p) (mem p).
Definition set_write_timer (v : bool) (p : peer_data) : peer_data :=
  mk_dp (state p) (has_set_names p) (drizzle_row p) (header_sent p) v (read_timer p) (mem p).
Definition set_read_timer (v : bool) (p : peer_data) : peer_data :=
  mk_dp (state p) (has_set_names p) (drizzle_row p) (header_sent p) (write_timer p) v (mem p).
Definition set_mem (v : dmem) (p : peer_data) : peer_data :=
  mk_dp (state p) (has_set_names p) (drizzle_row p) (header_sent p) (write_timer p) (read_timer p) v.

(** What the rest of nginx sees, in order. *)
Inductive action :=
  | send_query_text (q : bytes)              (* drizzle_query *)
  | send_header (status : Z) (content_type : bytes) (module_header : bool)   (* ngx_http_send_header *)
  | output_filter (bufs : list dbuf)         (* ngx_http_output_filter(r, u->out_bufs) *)
  | upstream_next                            (* ngx_http_upstream_drizzle_next(r, u, FT_ERROR) *)
  | finalize (rc : Z).                       (* ngx_http_upstream_drizzle_finalize_request *)

(** The settings of a request: the buffer size, the queries and whether the character
    set is chosen first. *)
Record settings := mk_settings {
  buf_size : Z;
  enable_module_header : bool;
  query_text : bytes;
  set_names_query : bytes;
  enable_charset : bool
}.

(** What the filters answer: the codes of the header and of the body filter, and how
    many of the busy buffers are sent completely. *)
Record env := mk_env { e_header : Z; e_body : Z; e_sent : nat }.

Definition NGX_HTTP_OK : Z := 200.
Definition NGX_HTTP_CLIENT_CLOSED_REQUEST : Z := 499.
Definition NGX_HTTP_BAD_GATEWAY : Z := 502.
Definition NGX_HTTP_SPECIAL_RESPONSE : Z := 300.
Definition NGX_HTTP_GONE : Z := 410.
Definition NGX_HTTP_INTERNAL_SERVER_ERROR : Z := 500.
Definition MYSQL_ER_NO_SUCH_TABLE : Z := 1146.

Definition failed (rc : Z) : bool := (rc =? NGX_ERROR) || (rc >=? NGX_HTTP_SPECIAL_RESPONSE).

(** ** The end of a request *)

(** The code with which [ngx_http_upstream_drizzle_next(r, u, NGX_HTTP_UPSTREAM_FT_ERROR)]
    ends the request: whether there are other servers to try makes no difference. *)
Definition ngx_http_upstream_drizzle_next (cached connection_error : bool) : Z :=
  let status := if cached then 0 else NGX_HTTP_BAD_GATEWAY in
  if connection_error then NGX_HTTP_CLIENT_CLOSED_REQUEST
  else if status =? 0 then NGX_HTTP_INTERNAL_SERVER_ERROR else status.

(** [ngx_http_upstream_drizzle_finalize_request]: [None] when nothing is done, else the
    code for [ngx_http_finalize_request], or [inr tt] for the code of
    [ngx_http_send_special(r, NGX_HTTP_LAST)]. *)
Definition ngx_http_upstream_drizzle_finalize_request (header_sent : bool) (rc : Z) : option (Z + unit) :=
  let rc := if header_sent && failed rc then 0 else rc in
  if rc =? NGX_DECLINED then None
  else if rc =? 0 then Some (inr tt) else Some (inl rc).

(** ** ngx_http_drizzle_std_col_type *)

Definition ngx_http_drizzle_std_col_type (t : Z) : Z :=
  if t =? DRIZZLE_COLUMN_TYPE_DECIMAL then rds_col_type_decimal
  else if t =? DRIZZLE_COLUMN_TYPE_TINY then rds_col_type_smallint
  else if t =? DRIZZLE_COLUMN_TYPE_SHORT then rds_col_type_smallint
  else if t =? DRIZZLE_COLUMN_TYPE_LONG then rds_col_type_integer
  else if t =? DRIZZLE_COLUMN_TYPE_FLOAT then rds_col_type_real
  else if t =? DRIZZLE_COLUMN_TYPE_DOUBLE then rds_col_type_double
  else if t =? DRIZZLE_COLUMN_TYPE_NULL then rds_col_type_unknown
  else if t =? DRIZZLE_COLUMN_TYPE_TIMESTAMP then rds_col_type_timestamp
  else if t =? DRIZZLE_COLUMN_TYPE_LONGLONG then rds_col_type_bigint
  else if t =? DRIZZLE_COLUMN_TYPE_INT24 then rds_col_type_integer
  else if t =? DRIZZLE_COLUMN_TYPE_DATE then rds_col_type_timestamp
  else if t =? DRIZZLE_COLUMN_TYPE_TIME then rds_col_type_time
  else if t =? DRIZZLE_COLUMN_TYPE_DATETIME then rds_col_type_timestamp
  else if t =? DRIZZLE_COLUMN_TYPE_YEAR then rds_col_type_smallint
  else if t =? DRIZZLE_COLUMN_TYPE_NEWDATE then rds_col_type_timestamp
  else if t =? DRIZZLE_COLUMN_TYPE_VARCHAR then rds_col_type_varchar
  else if t =? DRIZZLE_COLUMN_TYPE_BIT then rds_col_type_bit
  else if t =? DRIZZLE_COLUMN_TYPE_NEWDECIMAL then rds_col_type_decimal
  else if t =? DRIZZLE_COLUMN_TYPE_ENUM then rds_col_type_varchar
  else if t =? DRIZZLE_COLUMN_TYPE_SET then rds_col_type_varchar
  else if t =? DRIZZLE_COLUMN_TYPE_TINY_BLOB then rds_col_type_blob
  else if t =? DRIZZLE_COLUMN_TYPE_MEDIUM_BLOB then rds_col_type_blob
  else if t =? DRIZZLE_COLUMN_TYPE_LONG_BLOB then rds_col_type_blob
  else if t =? DRIZZLE_COLUMN_TYPE_BLOB then rds_col_type_blob
  else if t =? DRIZZLE_COLUMN_TYPE_VAR_STRING then rds_col_type_varchar
  else if t =? DRIZZLE_COLUMN_TYPE_STRING then rds_col_type_varchar
  else if t =? DRIZZLE_COLUMN_TYPE_GEOMETRY then rds_col_type_varchar
  else rds_col_type_unknown.

Section Settings.
Variable st : settings.

(** ** The output buffers *)

Definition ngx_http_drizzle_get_buf (m : dmem) : dmem :=
  if negb (avail_out m =? 0) then m
  else
    let m :=
      match free_bufs m with
      | b :: fb => set_free_bufs fb (set_out_buf (Some b) m)
      | [] => set_out_buf (Some (mk_dbuf [] (buf_size st))) m
      end in
    set_written [] (set_avail_out (buf_size st) m).

Definition ngx_http_drizzle_get_postponed (len : Z) (m : dmem) : dmem :=
  match cached m with
  | Some c => if c <? len then set_cached (Some len) m else m
  | None => set_cached (Some len) m
  end.

Definition ngx_http_drizzle_request_mem (len : Z) (m : dmem) : dmem :=
  let m := ngx_http_drizzle_get_buf m in
  if avail_out m <? len then
    set_postponed (Some (replicate (Z.to_nat len) 0)) (ngx_http_drizzle_get_postponed len m)
  else m.

(** The text goes where [request_mem] pointed. *)
Definition store (text : bytes) (m : dmem) : dmem :=
  match postponed m with
  | Some _ => set_postponed (Some text) m
  | None => set_written text m
  end.

Definition no_buf : dbuf := mk_dbuf [] 0.

Definition current (m : dmem) : dbuf := default no_buf (out_buf m).

Definition append_out_buf (d : bytes) (m : dmem) : dmem :=
  set_out_buf (Some (mk_dbuf (ddata (current m) ++ d) (dcap (current m)))) m.

(** [cl->buf = dp->out_buf; *dp->last_out = cl;] *)
Definition link_out_buf (m : dmem) : dmem := set_out_bufs (out_bufs m ++ [current m]) m.

(** The loop that copies postponed data; [None] is a loop that does not end. *)
Fixpoint copy_postponed (fuel : nat) (m : dmem) : option dmem :=
  match fuel with
  | O => None
  | S fuel =>
      let p := default [] (postponed m) in
      let len := Z.min (Z.of_nat (length p)) (avail_out m) in
      let m := append_out_buf (take (Z.to_nat len) p) m in
      let m := set_avail_out (avail_out m - len) m in
      let p := drop (Z.to_nat len) p in
      let m := set_postponed (if (length p =? 0)%nat then None else Some p) m in
      if avail_out m >? 0 then Some m
      else
        let m := link_out_buf m in
        match postponed m with
        | None => Some m
        | Some _ => copy_postponed fuel (ngx_http_drizzle_get_buf m)
        end
  end.

Definition ngx_http_drizzle_submit_mem (len : Z) (m : dmem) : option (Z * dmem) :=
  match postponed m with
  | Some p =>
      let postponed_len := Z.of_nat (length p) in
      if postponed_len >? avail_out m then
        let m :=
          match out_buf m with
          | Some b => if negb (length (ddata b) =? 0)%nat then link_out_buf m else m
          | None => m
          end in
        let len := if postponed_len >? buf_size st then postponed_len else buf_size st in
        let m := set_out_buf (Some (mk_dbuf p len)) m in
        let m := set_postponed None (set_avail_out (len - postponed_len) m) in
        Some (NGX_OK, if avail_out m =? 0 then link_out_buf m else m)
      else
        match copy_postponed (S (length p)) m with
        | Some m => Some (NGX_OK, m)
        | None => None
        end
  | None =>
      let m := append_out_buf (take (Z.to_nat len) (written m)) m in
      let m := set_avail_out (avail_out m - len) m in
      Some (NGX_OK, if avail_out m =? 0 then link_out_buf m else m)
  end.

(** The text is written to memory of the requested size; [check] is the test that the
    text has this size. *)
Definition write_text (size : Z) (text : bytes) (check : bool) (p : peer_data) : option (Z * peer_data) :=
  let m := store text (ngx_http_drizzle_request_mem size (mem p)) in
  if check && negb (Z.of_nat (length text) =? size) then Some (NGX_ERROR, set_mem m p)
  else
    match ngx_http_drizzle_submit_mem size m with
    | Some (rc, m) => Some (rc, set_mem m p)
    | None => None
    end.

(** ** ngx_http_drizzle_output_bufs *)

Definition reset_dbuf (b : dbuf) : dbuf := mk_dbuf [] (dcap b).

(** After [ngx_chain_update_chains] nothing is left in [out_bufs], so that the loop ends
    with its second round.  [true]: the header with the module version was added. *)
Definition ngx_http_drizzle_output_bufs (e : env) (p : peer_data) : Z * peer_data * list action :=
  let m := mem p in
  let m :=
    if seen_stream_end m then
      let m := set_seen_stream_end false m in
      if negb (avail_out m =? 0) then set_avail_out 0 (link_out_buf m) else m
    else m in
  let p := set_mem m p in
  let has_out := negb (length (out_bufs m) =? 0)%nat in
  let '(stop, rc, p, acts) :=
    (if negb (header_sent p) && has_out
     then
       let acts := [send_header NGX_HTTP_OK rds_content_type (enable_module_header st)] in
       if failed (e_header e) then (true, e_header e, p, acts)
       else (false, NGX_OK, set_header_sent true p, acts)
     else (false, NGX_OK, p, [])) in
  if stop : bool then (rc, p, acts)
  else if negb has_out then (NGX_OK, p, acts)
  else
    let acts := acts ++ [output_filter (out_bufs m)] in
    if failed (e_body e) then (e_body e, p, acts)
    else
      let '(free, busy) :=
        RdsJson.ngx_chain_update_chains reset_dbuf (e_sent e) (free_bufs m) (busy_bufs m) (out_bufs m) in
      (NGX_OK, set_mem (set_out_bufs [] (set_busy_bufs busy (set_free_bufs free m))) p, acts).

(** ** ngx_http_upstream_drizzle_done *)

Definition ngx_http_upstream_drizzle_done (e : env) (rc : Z) (p : peer_data) : peer_data * list action :=
  let '(_, p, acts) := ngx_http_drizzle_output_bufs e p in
  if rc =? NGX_DONE
  then (set_state state_db_idle (set_header_sent true p), acts ++ [finalize NGX_OK])
  else (set_state state_db_idle p, acts ++ [finalize rc]).

(** ** Output *)

Definition header_atom (res : drizzle_result_st) : bytes :=
  let errstr_len := wrap_u 16 (Z.of_nat (length (result_error res))) in
  [0] ++ put_le 4 resty_dbd_stream_version ++ [0]
  ++ put_le 2 (wrap_u 16 (result_error_code res)) ++ put_le 2 (result_error_code res)
  ++ put_le 2 errstr_len
  ++ (if negb (errstr_len =? 0) then take (Z.to_nat errstr_len) (result_error res) else [])
  ++ put_le 8 (result_affected_rows res) ++ put_le 8 (result_insert_id res)
  ++ put_le 2 (wrap_u 16 (result_column_count res)).

Definition ngx_http_drizzle_output_result_header (e : env) (res : drizzle_result_st) (p : peer_data)
    : option (Z * peer_data * list action) :=
  let errcode := wrap_u 16 (result_error_code res) in
  if enable_charset st && negb (has_set_names p) then
    if negb (errcode =? 0) then Some (NGX_ERROR, p, []) else Some (NGX_DONE, p, [])
  else
    let errstr_len := wrap_u 16 (Z.of_nat (length (result_error res))) in
    let col_count := wrap_u 16 (result_column_count res) in
    let size := 1 + 4 + 1 + 2 + 2 + 2 + errstr_len + 8 + 8 + 2 in
    if (Z.of_nat (length (header_atom res)) =? size) && (col_count =? 0) then
      match write_text size (header_atom res) true (set_mem (set_seen_stream_end true (mem p)) p) with
      | None => None
      | Some (rc, p) =>
          if negb (rc =? NGX_OK) then Some (NGX_ERROR, p, [])
          else
            let '(p, acts) := ngx_http_upstream_drizzle_done e NGX_DONE p in
            Some (NGX_DONE, p, acts)
      end
    else
      match write_text size (header_atom res) true p with
      | None => None
      | Some (rc, p) => Some (rc, p, [])
      end.

Definition ngx_http_drizzle_output_col (col : drizzle_column_st) (p : peer_data) : option (Z * peer_data) :=
  let col_name_len := wrap_u 16 (Z.of_nat (length (column_name col))) in
  let size := 2 + 2 + 2 + col_name_len in
  let text :=
    put_le 2 (wrap_u 16 (ngx_http_drizzle_std_col_type (column_type col)))
    ++ put_le 2 (column_type col) ++ put_le 2 col_name_len
    ++ take (Z.to_nat col_name_len) (column_name col) in
  write_text size text true p.

Definition ngx_http_drizzle_output_row (row : Z) (p : peer_data) : option (Z * peer_data) :=
  let p := if row =? 0 then set_mem (set_seen_stream_end true (mem p)) p else p in
  write_text 1 [if row =? 0 then 0 else 1] false p.

Definition ngx_http_drizzle_output_field (offset len total : Z) (field : option bytes) (p : peer_data)
    : option (Z * peer_data) :=
  if (offset =? 0) && (len =? 0) && negb (total =? 0) then Some (NGX_DONE, p)
  else
    let size := (if offset =? 0 then 4 else 0) + wrap_u 32 len in
    let text :=
      (if offset =? 0 then
         match field with
         | None => put_le 4 (2 ^ 32 - 1)
         | Some _ => put_le 4 (wrap_u 32 total)
         end
       else [])
      ++ (match field with
          | Some d => if negb (len =? 0) then take (Z.to_nat (wrap_u 32 len)) d else []
          | None => []
          end) in
    write_text size text true p.

(** ** The processor *)

(** [if (timer_set) ngx_del_timer(...); ngx_add_timer(...)] when the state changes. *)
Definition wait_in (s : ngx_http_drizzle_state_t) (set_timer : peer_data → peer_data)
    (same : bool) (p : peer_data) : peer_data :=
  if same then p else set_timer (set_state s p).

Definition outcome : Type := option (Z * peer_data * list answer * list action).

(** More actions before those of [o]. *)
Definition after (acts : list action) (o : outcome) : outcome :=
  match o with
  | Some (rc, p, l, acts') => Some (rc, p, l, acts ++ acts')
  | None => None
  end.

Variable e : env.

Fixpoint ngx_http_upstream_drizzle_send_query (l : list answer) (p : peer_data) {struct l} : outcome :=
  let setting_names := enable_charset st && negb (has_set_names p) in
  let q := if setting_names then set_names_query st else query_text st in
  match l with
  | query ret code res :: l =>
      after [send_query_text q]
      (if ret =? DRIZZLE_RETURN_IO_WAIT then
         let p := wait_in state_db_send_query (set_write_timer true)
                    (match state p with state_db_send_query => true | _ => false end) p in
         Some (NGX_AGAIN, p, l, [])
       else
         let p := set_write_timer false p in
         if negb (ret =? DRIZZLE_RETURN_OK) then
           if (ret =? DRIZZLE_RETURN_ERROR_CODE) && (code =? MYSQL_ER_NO_SUCH_TABLE) then
             if setting_names
             then ngx_http_upstream_drizzle_send_query l (set_has_set_names true p)
             else
               let '(p, acts) := ngx_http_upstream_drizzle_done e NGX_HTTP_GONE p in
               Some (NGX_DONE, p, l, acts)
           else Some (NGX_HTTP_INTERNAL_SERVER_ERROR, p, l, [])
         else
           match ngx_http_drizzle_output_result_header e res p with
           | None => None
           | Some (rc, p, acts) =>
               after acts
               (if failed rc then Some (rc, p, l, [])
                else if rc =? NGX_DONE then
                  if setting_names
                  then ngx_http_upstream_drizzle_send_query l (set_state state_db_idle (set_has_set_names true p))
                  else Some (rc, p, l, [])
                else ngx_http_upstream_drizzle_recv_cols l p)
           end)
  | _ => None
  end
with ngx_http_upstream_drizzle_recv_cols (l : list answer) (p : peer_data) {struct l} : outcome :=
  match l with
  | column_read ret col :: l =>
      if ret =? DRIZZLE_RETURN_IO_WAIT then
        let p := wait_in state_db_recv_cols (set_read_timer true)
                   (match state p with state_db_recv_cols => true | _ => false end) p in
        Some (NGX_AGAIN, p, l, [])
      else if negb (ret =? DRIZZLE_RETURN_OK) then Some (NGX_ERROR, p, l, [])
      else
        match col with
        | Some col =>
            match ngx_http_drizzle_output_col col p with
            | None => None
            | Some (rc, p) =>
                if failed rc then Some (rc, p, l, [])
                else ngx_http_upstream_drizzle_recv_cols l p
            end
        | None => ngx_http_upstream_drizzle_recv_rows l (set_read_timer false p)
        end
  | _ => None
  end
with ngx_http_upstream_drizzle_recv_rows (l : list answer) (p : peer_data) {struct l} : outcome :=
  let io_wait (p : peer_data) (l : list answer) :=
    let p := wait_in state_db_recv_rows (set_read_timer true)
               (match state p with state_db_recv_rows => true | _ => false end) p in
    Some (NGX_AGAIN, p, l, []) in
  if drizzle_row p =? 0 then
    match l with
    | row_read ret row :: l =>
        let p := set_drizzle_row row p in
        if ret =? DRIZZLE_RETURN_IO_WAIT then io_wait (set_drizzle_row 0 p) l
        else if negb (ret =? DRIZZLE_RETURN_OK) then Some (NGX_ERROR, p, l, [])
        else
          match ngx_http_drizzle_output_row (drizzle_row p) p with
          | None => None
          | Some (rc, p) =>
              if failed rc then Some (rc, p, l, [])
              else if drizzle_row p =? 0 then
                let p := set_read_timer false p in
                if enable_charset st && negb (has_set_names p)
                then ngx_http_upstream_drizzle_send_query l (set_has_set_names true p)
                else
                  let '(p, acts) := ngx_http_upstream_drizzle_done e NGX_DONE p in
                  Some (NGX_DONE, p, l, acts)
              else ngx_http_upstream_drizzle_recv_rows l p
          end
    | _ => None
    end
  else
    match l with
    | field_read ret offset len total field :: l =>
        if ret =? DRIZZLE_RETURN_IO_WAIT then io_wait p l
        else if ret =? DRIZZLE_RETURN_ROW_END
        then ngx_http_upstream_drizzle_recv_rows l (set_drizzle_row 0 p)
        else if negb (ret =? DRIZZLE_RETURN_OK) then Some (NGX_ERROR, p, l, [])
        else
          match ngx_http_drizzle_output_field offset len total field p with
          | None => None
          | Some (rc, p) =>
              if failed rc then Some (rc, p, l, [])
              else ngx_http_upstream_drizzle_recv_rows l p
          end
    | _ => None
    end.

Definition ngx_http_upstream_drizzle_connect (l : list answer) (p : peer_data) : outcome :=
  match l with
  | con_connect ret :: l =>
      if ret =? DRIZZLE_RETURN_IO_WAIT then Some (NGX_AGAIN, p, l, [])
      else
        let p := set_write_timer false p in
        if negb (ret =? DRIZZLE_RETURN_OK) then Some (NGX_ERROR, p, l, [])
        else ngx_http_upstream_drizzle_send_query l p
  | _ => None
  end.

(** The peer is one of this module. *)
Definition ngx_http_drizzle_process_events (l : list answer) (p : peer_data) : outcome :=
  match (match state p with
         | state_db_connect => ngx_http_upstream_drizzle_connect l p
         | state_db_idle | state_db_send_query => ngx_http_upstream_drizzle_send_query l p
         | state_db_recv_cols => ngx_http_upstream_drizzle_recv_cols l p
         | state_db_recv_rows => ngx_http_upstream_drizzle_recv_rows l p
         end) with
  | None => None
  | Some (rc, p, l, acts) =>
      after acts
      (if rc =? NGX_ERROR then Some (NGX_ERROR, p, l, [upstream_next])
       else if rc >=? NGX_HTTP_SPECIAL_RESPONSE then Some (NGX_ERROR, p, l, [finalize rc])
       else if rc =? NGX_AGAIN then
         let '(rc, p, acts) := ngx_http_drizzle_output_bufs e p in
         if (rc =? NGX_ERROR) || (rc >? NGX_OK)
         then Some (NGX_ERROR, p, l, acts ++ [finalize NGX_HTTP_INTERNAL_SERVER_ERROR])
         else Some (rc, p, l, acts)
       else Some (rc, p, l, []))
  end.

End Settings.

End Drizzle.
