(* ===== verification/DrizzleProof.v ===== *)
(** What the drizzle module makes of the answers of libdrizzle: for every way in which a
    result can arrive (in pieces, with waits between any two answers), the buffers that
    it passes on are the RDS stream of the result, cut only where the readers of the
    stream allow it. *)

From S2P Require Import Prelude NgxNumber NgxEscape SetMisc Redis2 RdsStream RdsJsonOut Drizzle.

Open Scope Z_scope.

Module DrizzleProof.

Export Drizzle.

(** * Specification *)

(** ** The answers to a query *)

Definition rds_header (res : drizzle_result_st) : ngx_http_rds_header_t :=
  mk_header (result_error_code res) (result_error_code res) (result_error res)
    (result_affected_rows res) (result_insert_id res) (result_column_count res).

(** The types of columns in the protocol of MySQL, by their numbers there, for each type of
    the stream; all others are of an unknown type. *)
Definition mysql_types : list (Z * list Z) :=
  [(rds_col_type_smallint, [1; 2; 13]);                         (* TINY, SHORT, YEAR *)
   (rds_col_type_integer, [3; 9]);                              (* LONG, INT24 *)
   (rds_col_type_bigint, [8]);                                  (* LONGLONG *)
   (rds_col_type_real, [4]);                                    (* FLOAT *)
   (rds_col_type_double, [5]);                                  (* DOUBLE *)
   (rds_col_type_decimal, [0; 246]);                            (* DECIMAL, NEWDECIMAL *)
   (rds_col_type_timestamp, [7; 10; 12; 14]);                   (* TIMESTAMP, DATE, DATETIME, NEWDATE *)
   (rds_col_type_time, [11]);                                   (* TIME *)
   (rds_col_type_bit, [16]);                                    (* BIT *)
   (rds_col_type_blob, [249; 250; 251; 252]);                   (* the four sizes of BLOB *)
   (rds_col_type_varchar, [15; 247; 248; 253; 254; 255])].      (* VARCHAR, ENUM, SET, VAR_STRING, STRING, GEOMETRY *)

Definition rds_type (t : Z) : Z :=
  match list_find (fun x => t ∈ x.2) mysql_types with Some (_, x) => x.1 | None => rds_col_type_unknown end.

Definition rds_col (c : drizzle_column_st) : ngx_http_rds_column_t :=
  mk_column (rds_type (column_type c)) (column_type c) (column_name c).

(** What libdrizzle is asked for next: a connection, the answer to the query that sets
    the character set, the answer to the query, columns, rows, fields, or the rest [d]
    of a field after its first [off] bytes. *)
Inductive phase :=
  | ph_connect (names : bool) (res : drizzle_result_st) (cs : list drizzle_column_st) (rows : list (list field))
  | ph_names (res : drizzle_result_st) (cs : list drizzle_column_st) (rows : list (list field))
  | ph_query (res : drizzle_result_st) (cs : list drizzle_column_st) (rows : list (list field))
  | ph_cols (cs : list drizzle_column_st) (rows : list (list field))
  | ph_rows (rows : list (list field))
  | ph_fields (fs : list field) (rows : list (list field))
  | ph_more (off : Z) (d : bytes) (fs : list field) (rows : list (list field)).

Definition ph_start (names : bool) res cs rows : phase :=
  if names then ph_names res cs rows else ph_query res cs rows.

(** After [off] bytes of a field, with [d] to come. *)
Definition ph_piece (off : Z) (d : bytes) fs rows : phase :=
  match d with [] => ph_fields fs rows | _ => ph_more off d fs rows end.

Definition is_wait (a : answer) : bool :=
  match a with
  | con_connect ret | query ret _ _ | column_read ret _ | row_read ret _ | field_read ret _ _ _ _ =>
      ret =? DRIZZLE_RETURN_IO_WAIT
  end.

(** The kind of answer a phase waits for. *)
Definition awaits (ph : phase) (a : answer) : Prop :=
  match ph, a with
  | ph_connect _ _ _ _, con_connect _ | ph_names _ _ _, query _ _ _ | ph_query _ _ _, query _ _ _
  | ph_cols _ _, column_read _ _ | ph_rows _, row_read _ _
  | ph_fields _ _, field_read _ _ _ _ _ | ph_more _ _ _ _, field_read _ _ _ _ _ => True
  | _, _ => False
  end.

(** [serves ph l]: the answers [l] deliver the rest of a result from [ph] on.  A field
    comes whole or in pieces; its length may be announced before its first byte is
    there, and a later piece may be empty. *)
Inductive serves : phase → list answer → Prop :=
  | sv_wait ph a l : awaits ph a → is_wait a = true → serves ph l → serves ph (a :: l)
  | sv_connect names res cs rows l :
      serves (ph_start names res cs rows) l →
      serves (ph_connect names res cs rows) (con_connect DRIZZLE_RETURN_OK :: l)
  | sv_names code ok res cs rows l :
      result_error_code ok = 0 → serves (ph_query res cs rows) l →
      serves (ph_names res cs rows) (query DRIZZLE_RETURN_OK code ok :: l)
  | sv_no_cols code res rows :
      serves (ph_query res [] rows) [query DRIZZLE_RETURN_OK code res]
  | sv_query code res c cs rows l :
      serves (ph_cols (c :: cs) rows) l →
      serves (ph_query res (c :: cs) rows) (query DRIZZLE_RETURN_OK code res :: l)
  | sv_col c cs rows l :
      serves (ph_cols cs rows) l → serves (ph_cols (c :: cs) rows) (column_read DRIZZLE_RETURN_OK (Some c) :: l)
  | sv_cols_end rows l :
      serves (ph_rows rows) l → serves (ph_cols [] rows) (column_read DRIZZLE_RETURN_OK None :: l)
  | sv_row row fs rows l :
      row ≠ 0 → serves (ph_fields fs rows) l → serves (ph_rows (fs :: rows)) (row_read DRIZZLE_RETURN_OK row :: l)
  | sv_end : serves (ph_rows []) [row_read DRIZZLE_RETURN_OK 0]
  | sv_row_end rows l off len total f :
      serves (ph_rows rows) l → serves (ph_fields [] rows) (field_read DRIZZLE_RETURN_ROW_END off len total f :: l)
  | sv_null fs rows l :
      serves (ph_fields fs rows) l →
      serves (ph_fields (None :: fs) rows) (field_read DRIZZLE_RETURN_OK 0 0 0 None :: l)
  | sv_empty fs rows l d :
      serves (ph_fields fs rows) l →
      serves (ph_fields (Some [] :: fs) rows) (field_read DRIZZLE_RETURN_OK 0 0 0 (Some d) :: l)
  | sv_announced d fs rows l d0 :
      d ≠ [] → serves (ph_fields (Some d :: fs) rows) l →
      serves (ph_fields (Some d :: fs) rows)
        (field_read DRIZZLE_RETURN_OK 0 0 (Z.of_nat (length d)) d0 :: l)
  | sv_first d1 d2 rest fs rows l :
      d1 ≠ [] → Z.of_nat (length d1) <= DRIZZLE_MAX_BUFFER_SIZE → serves (ph_piece (Z.of_nat (length d1)) d2 fs rows) l →
      serves (ph_fields (Some (d1 ++ d2) :: fs) rows)
        (field_read DRIZZLE_RETURN_OK 0 (Z.of_nat (length d1)) (Z.of_nat (length (d1 ++ d2))) (Some (d1 ++ rest)) :: l)
  | sv_piece off d1 d2 rest fs rows l total :
      0 < off → d1 ++ d2 ≠ [] → Z.of_nat (length d1) <= DRIZZLE_MAX_BUFFER_SIZE → serves (ph_piece (off + Z.of_nat (length d1)) d2 fs rows) l →
      serves (ph_more off (d1 ++ d2) fs rows)
        (field_read DRIZZLE_RETURN_OK off (Z.of_nat (length d1)) total (Some (d1 ++ rest)) :: l).

Definition waits (l : list answer) : nat := length (filter (fun a => is_wait a = true) l).

(** ** The results that the stream can hold *)

Definition dcol_fits (c : drizzle_column_st) : Prop :=
  0 <= column_type c < 2 ^ 16 ∧ column_name c ≠ [] ∧ Z.of_nat (length (column_name c)) < 2 ^ 16.

Definition dresult_fits (res : drizzle_result_st) (cs : list drizzle_column_st) : Prop :=
  header_fits (rds_header res) (map rds_col cs) ∧ Forall dcol_fits cs.

Definition phase_fits (ph : phase) : Prop :=
  match ph with
  | ph_connect _ res cs rows | ph_names res cs rows | ph_query res cs rows =>
      dresult_fits res cs ∧ Forall (Forall field_fits) rows
  | ph_cols cs rows => Forall dcol_fits cs ∧ Forall (Forall field_fits) rows
  | ph_rows rows => Forall (Forall field_fits) rows
  | ph_fields fs rows => Forall field_fits fs ∧ Forall (Forall field_fits) rows
  | ph_more off d fs rows =>
      0 < off ∧ d ≠ [] ∧ Z.of_nat (length d) < NULL_LEN ∧ Forall field_fits fs ∧ Forall (Forall field_fits) rows
  end.

(** The point of the stream that a phase is at. *)
Definition cursor_of (ph : phase) : cursor :=
  match ph with
  | ph_connect _ res cs rows | ph_names res cs rows | ph_query res cs rows =>
      at_header (rds_header res) (map rds_col cs) rows
  | ph_cols cs rows => after_col (map rds_col cs) rows
  | ph_rows rows => at_row rows
  | ph_fields fs rows => after_field fs rows
  | ph_more _ d fs rows => at_more d fs rows
  end.

(** ** The state of the module at a phase *)

(** The data in the buffer that is not complete. *)
Definition open_data (m : dmem) : bytes := if avail_out m =? 0 then [] else ddata (current m).

(** The buffers that were passed on, the linked ones and the current one take the stream
    from [start] to [r]. *)
Definition holds (start : cursor) (sent : list bytes) (m : dmem) (r : cursor) : Prop :=
  ∃ r1, consumes start (sent ++ map ddata (out_bufs m)) r1 ∧ consume r1 (open_data m) r.

Definition buf_ok (b : dbuf) : Prop := Z.of_nat (length (ddata b)) <= dcap b.

Section Spec.
Context (st : settings).

(** Every buffer has the configured size, or that of the atom it was made for. *)
Definition cap_max : Z := Z.max (buf_size st) 65565.

Definition cap_ok (b : dbuf) : Prop := buf_size st <= dcap b <= cap_max.

Definition sendable (b : dbuf) : Prop := buf_ok b ∧ cap_ok b.

(** Nothing is written past the end of a buffer. *)
Record mem_ok (m : dmem) : Prop := {
  ok_avail : 0 <= avail_out m;
  ok_current : avail_out m ≠ 0 →
    ∃ b, out_buf m = Some b ∧ Z.of_nat (length (ddata b)) + avail_out m <= dcap b;
  ok_postponed : postponed m = None;
  ok_free : Forall (fun b => ddata b = [] ∧ cap_ok b) (free_bufs m);
  ok_busy : Forall (fun b => cap_ok b) (busy_bufs m);
  ok_out : Forall sendable (out_bufs m);
  ok_cap : avail_out m ≠ 0 → cap_ok (current m)
}.

(** The query that sets the character set has still to be answered. *)
Definition pending (p : peer_data) : bool := enable_charset st && negb (has_set_names p).

Definition at_phase (ph : phase) (p : peer_data) : Prop :=
  match ph with
  | ph_connect names _ _ _ => state p = state_db_connect ∧ pending p = names ∧ drizzle_row p = 0
  | ph_names _ _ _ => (state p = state_db_send_query ∨ state p = state_db_idle) ∧ pending p = true ∧ drizzle_row p = 0
  | ph_query _ _ _ => (state p = state_db_send_query ∨ state p = state_db_idle) ∧ pending p = false ∧ drizzle_row p = 0
  | ph_cols _ _ => state p = state_db_recv_cols ∧ pending p = false ∧ drizzle_row p = 0
  | ph_rows _ => state p = state_db_recv_rows ∧ pending p = false ∧ drizzle_row p = 0
  | ph_fields _ _ | ph_more _ _ _ _ => state p = state_db_recv_rows ∧ pending p = false ∧ drizzle_row p ≠ 0
  end.

Definition ready (start : cursor) (sent : list bytes) (ph : phase) (p : peer_data) : Prop :=
  mem_ok (mem p) ∧ seen_stream_end (mem p) = false ∧ holds start sent (mem p) (cursor_of ph) ∧ at_phase ph p.

(** ** Several calls *)

Definition queries (acts : list action) : list bytes :=
  concat (map (fun a => match a with send_query_text q => [q] | _ => [] end) acts).

(** What was done besides sending queries. *)
Definition is_query (a : action) : bool := match a with send_query_text _ => true | _ => false end.

Definition passed (acts : list action) : list action := filter (fun a => is_query a = false) acts.

(** The queries that lead to the answers [l]. *)
Fixpoint asked (names : bool) (l : list answer) : list bytes :=
  match l with
  | [] => []
  | query ret _ _ :: l =>
      (if names then set_names_query st else query_text st)
      :: asked (names && (ret =? DRIZZLE_RETURN_IO_WAIT)) l
  | _ :: l => asked names l
  end.

(** One call for each event of the connection. *)
Fixpoint process_all (es : list env) (l : list answer) (p : peer_data)
    : option (list Z * peer_data * list answer * list action) :=
  match es with
  | [] => Some ([], p, l, [])
  | e :: es =>
      match ngx_http_drizzle_process_events st e l p with
      | None => None
      | Some (rc, p, l, acts) =>
          match process_all es l p with
          | None => None
          | Some (rcs, p, l, acts') => Some (rc :: rcs, p, l, acts ++ acts')
          end
      end
  end.

Definition env_ok (e : env) : Prop := failed (e_header e) = false ∧ failed (e_body e) = false.

Definition ct_header : action := send_header NGX_HTTP_OK rds_content_type (enable_module_header st).

(** What a call at phase [ph] does: it stops at a wait with nothing passed on by the
    functions it calls, or it passes everything on and ends the request. *)
Definition progress (start : cursor) (sent : list bytes) (l : list answer) (p : peer_data) (o : outcome) : Prop :=
  ∃ rc p' l' acts, o = Some (rc, p', l', acts)
  ∧ queries acts ++ asked (pending p') l' = asked (pending p) l
  ∧ ((rc = NGX_AGAIN ∧ passed acts = [] ∧ waits l = S (waits l') ∧ header_sent p' = header_sent p
      ∧ ∃ ph', phase_fits ph' ∧ serves ph' l' ∧ ready start sent ph' p')
     ∨ (rc = NGX_DONE ∧ l' = [] ∧ waits l = 0%nat
        ∧ ∃ bufs, passed acts = (if header_sent p then [] else [ct_header]) ++ [output_filter bufs; finalize NGX_OK]
                  ∧ bufs ≠ [] ∧ Forall sendable bufs ∧ consumes start (sent ++ map ddata bufs) at_end)).

End Spec.

(** * Theorems *)

(** ** Writing *)

Lemma consume_nothing r r' : consume r [] r' → r = r'.
Proof.
  intros H. remember ([] : bytes) as b eqn:E. destruct H; try done. by destruct d.
Qed.

Section Writing.
Context (st : settings) (Hsize : 0 < buf_size st).

Lemma get_buf_ok start sent (m : dmem) (r : cursor) :
  mem_ok st m → holds start sent m r →
  let m' := ngx_http_drizzle_get_buf st m in
  mem_ok st m' ∧ holds start sent m' r ∧ 0 < avail_out m' ∧ seen_stream_end m' = seen_stream_end m.
Proof.
  intros Hm (r1 & H1 & H2). unfold ngx_http_drizzle_get_buf. pose proof Hm as [A1 A2 A3 A5 A6 A7 A8].
  destruct (Z.eqb_spec (avail_out m) 0) as [E|E]; cbn [negb]; cbv zeta.
  2: { split_and!; [done|by exists r1|lia|done]. }
  unfold open_data in H2. rewrite E in H2. cbn in H2.
  assert (Hfb : ∃ b fb, ddata b = [] ∧ cap_ok st b
    ∧ Forall (fun b => ddata b = [] ∧ cap_ok st b) fb
    ∧ match free_bufs m with
      | b :: fb => set_free_bufs fb (set_out_buf (Some b) m)
      | [] => set_out_buf (Some (mk_dbuf [] (buf_size st))) m
      end = set_free_bufs fb (set_out_buf (Some b) m)).
  { destruct (free_bufs m) as [|b fb] eqn:Ef.
    - exists (mk_dbuf [] (buf_size st)), []. split; [done|]. split; [unfold cap_ok, cap_max; cbn; lia|].
      split; [constructor|]. destruct m; simpl in *. by subst.
    - apply Forall_cons in A5 as [[? ?] ?]. by exists b, fb. }
  destruct Hfb as (b & fb & B1 & B2 & B3 & ->). split_and!; cbn; [|exists r1; split; [done|]|lia|done].
  - split; cbn; try done; try lia. intros _. exists b. rewrite B1. split; [done|]. destruct B2. simpl. lia.
  - unfold open_data. cbn. rewrite (proj2 (Z.eqb_neq (buf_size st) 0)) by lia. by rewrite B1.
Qed.

(** Linking the current buffer. *)
Lemma link_ok start sent (m : dmem) (r1 r : cursor) (b : dbuf) :
  consumes start (sent ++ map ddata (out_bufs m)) r1 → ddata b ≠ [] → consume r1 (ddata b) r →
  consumes start (sent ++ map ddata (out_bufs m ++ [b])) r.
Proof.
  intros H1 Hne H2. rewrite map_app, (assoc_L (++)). by eapply consumes_snoc.
Qed.

(** Something was written since the last buffer was passed on. *)
Definition fresh (m : dmem) : Prop := if avail_out m =? 0 then out_bufs m ≠ [] else ddata (current m) ≠ [].

(** What is left to do after a text was put into the current buffer [b]. *)
Lemma settle_ok start sent (m : dmem) (b : dbuf) (r1 r : cursor) :
  out_buf m = Some b → 0 <= avail_out m → Z.of_nat (length (ddata b)) + avail_out m <= dcap b →
  cap_ok st b → postponed m = None →
  Forall (fun b => ddata b = [] ∧ cap_ok st b) (free_bufs m) →
  Forall (fun b => cap_ok st b) (busy_bufs m) →
  Forall (sendable st) (out_bufs m) →
  consumes start (sent ++ map ddata (out_bufs m)) r1 → consume r1 (ddata b) r →
  (avail_out m = 0 → ddata b ≠ []) →
  let m' := if avail_out m =? 0 then link_out_buf m else m in
  mem_ok st m' ∧ holds start sent m' r ∧ seen_stream_end m' = seen_stream_end m
  ∧ (ddata b ≠ [] → fresh m').
Proof.
  intros Eb Ha Hl Hc Hp Hf Hbu Ho H1 H2 Hne. assert (Ec : current m = b) by (unfold current; by rewrite Eb).
  destruct (Z.eqb_spec (avail_out m) 0) as [E|E]; cbv zeta; split_and!; try done.
  - split; cbn; try done; try lia.
    apply Forall_app_2; [done|]. rewrite Ec. apply Forall_singleton. split; [unfold buf_ok; lia|done].
  - exists r. unfold open_data. cbn. rewrite E, Ec. cbn. split; [|constructor].
    apply (link_ok start sent m r1 r b); [done|by apply Hne|done].
  - intros _. unfold fresh. cbn. rewrite E. cbn. by destruct (out_bufs m).
  - split; try done; [by eexists|by rewrite Ec].
  - exists r1. split; [done|]. unfold open_data. by rewrite (proj2 (Z.eqb_neq _ 0)), Ec by done.
  - intros Hb. unfold fresh. by rewrite (proj2 (Z.eqb_neq _ 0)), Ec by done.
Qed.

(** A text of the announced size goes whole into one buffer: into the current one when it
    fits there, else into one of its own. *)
Lemma write_ok start sent (p : peer_data) (text : bytes) (check : bool) (r r' : cursor) :
  mem_ok st (mem p) → holds start sent (mem p) r → consume r text r' → Z.of_nat (length text) <= cap_max st →
  ∃ m', write_text st (Z.of_nat (length text)) text check p = Some (NGX_OK, set_mem m' p)
        ∧ mem_ok st m' ∧ holds start sent m' r' ∧ seen_stream_end m' = seen_stream_end (mem p)
        ∧ (text ≠ [] → fresh m').
Proof.
  intros Hm Hh Ht Htl. unfold write_text. rewrite Z.eqb_refl, andb_false_r. cbv zeta.
  destruct (get_buf_ok start sent (mem p) r Hm Hh) as (G1 & (r1 & H1 & H2) & G3 & G4).
  unfold ngx_http_drizzle_request_mem. set (m := ngx_http_drizzle_get_buf st (mem p)) in *. cbv zeta.
  pose proof G1 as [A1 A2 A3 A5 A6 A7 A8]. destruct (A2 ltac:(lia)) as (b & Eb & Hb).
  unfold open_data in H2. rewrite (proj2 (Z.eqb_neq _ 0)) in H2 by lia.
  assert (Ec : current m = b) by (unfold current; by rewrite Eb). rewrite Ec in *. specialize (A8 ltac:(lia)).
  destruct (Z.ltb_spec (avail_out m) (Z.of_nat (length text))) as [Hlt|Hge].
  - assert (E : ∃ c, ngx_http_drizzle_get_postponed (Z.of_nat (length text)) m = set_cached c m).
    { unfold ngx_http_drizzle_get_postponed. destruct m. cbn. repeat case_match; by eexists. }
    destruct E as [c ->]. unfold store. cbn [postponed set_postponed]. unfold ngx_http_drizzle_submit_mem.
    cbn [postponed set_postponed avail_out set_cached out_buf]. rewrite (proj2 (Z.gtb_lt _ _)) by lia. rewrite Eb.
    set (len := if Z.of_nat (length text) >? buf_size st then Z.of_nat (length text) else buf_size st).
    assert (Hlen : Z.of_nat (length text) <= len ∧ buf_size st <= len)
      by (unfold len; destruct (Z.gtb_spec (Z.of_nat (length text)) (buf_size st)); lia).
    assert (Hne : text ≠ []) by (intros ->; simpl in Hlt; lia).
    set (m2 := if negb (length (ddata b) =? 0)%nat then _ else _).
    assert (M2 : free_bufs m2 = free_bufs m ∧ busy_bufs m2 = busy_bufs m ∧ seen_stream_end m2 = seen_stream_end m
      ∧ Forall (sendable st) (out_bufs m2)
      ∧ consumes start (sent ++ map ddata (out_bufs m2)) r).
    { unfold m2. destruct (Nat.eqb_spec (length (ddata b)) 0) as [E0|E0];
        cbn [negb out_bufs free_bufs busy_bufs seen_stream_end link_out_buf set_out_bufs set_postponed set_cached].
      - destruct (ddata b); [|done]. apply consume_nothing in H2. by subst r1.
      - change (current _) with (current m). rewrite Ec. split_and!; try done.
        + apply Forall_app_2; [done|]. apply Forall_singleton. split; [unfold buf_ok; lia|done].
        + apply (link_ok start sent m r1 r b); [done|by destruct (ddata b)|done]. }
    destruct M2 as (M1 & M2 & M3 & M4 & M5). eexists. split; [reflexivity|].
    assert (Hcap : cap_ok st (mk_dbuf text len)).
    { unfold cap_ok, cap_max in *. unfold len. cbn [dcap].
      destruct (Z.gtb_spec (Z.of_nat (length text)) (buf_size st)); lia. }
    destruct (settle_ok start sent (set_postponed None (set_avail_out (len - Z.of_nat (length text))
      (set_out_buf (Some (mk_dbuf text len)) m2))) (mk_dbuf text len) r r') as (S1 & S2 & S3 & S4);
      cbn; try done; try lia; try (by rewrite ?M1, ?M2).
    split; [exact S1|]. split; [exact S2|]. split; [|intros _; by apply S4].
    etransitivity; [exact S3|]. cbn. by rewrite M3.
  - unfold store. rewrite A3. unfold ngx_http_drizzle_submit_mem. cbn [postponed set_written]. rewrite A3.
    rewrite Nat2Z.id. cbn [written set_written]. rewrite take_ge by lia. cbv zeta. eexists. split; [reflexivity|].
    set (b' := mk_dbuf (ddata b ++ text) (dcap b)).
    destruct (settle_ok start sent (set_avail_out (avail_out m - Z.of_nat (length text))
      (append_out_buf text (set_written text m))) b' r1 r') as (S1 & S2 & S3 & S4); cbn; try done; try lia.
    + by rewrite Eb.
    + rewrite length_app. lia.
    + by eapply consume_app.
    + intros E Hn. apply app_nil in Hn as [_ ->]. simpl in E. lia.
    + split; [exact S1|]. split; [exact S2|]. split; [by etransitivity; [exact S3|]|].
      intros Hn. apply S4. cbn. intros Hn'. by apply app_nil in Hn' as [_ ->].
Qed.

(** ** The atoms of the stream *)

Lemma header_atom_bytes (res : drizzle_result_st) cs :
  header_fits (rds_header res) cs → header_atom res = header_bytes (rds_header res).
Proof.
  intros (Hs & _ & He & _ & _ & Hn & Hc). cbn in Hs, He, Hn, Hc. unfold header_atom, header_bytes.
  cbn [rds_header std_errcode drv_errcode errstr affected_rows insert_id col_count].
  assert (0 <= result_column_count res) by (pose proof (Nat2Z.is_nonneg (length cs)); lia).
  unfold wrap_u. rewrite !Z.mod_small by lia. do 6 f_equal.
  destruct (Z.eqb_spec (Z.of_nat (length (result_error res))) 0) as [E|E]; cbn [negb].
  - by destruct (result_error res).
  - by rewrite Nat2Z.id, take_ge by lia.
Qed.

Lemma header_atom_length (res : drizzle_result_st) cs :
  header_fits (rds_header res) cs →
  1 + 4 + 1 + 2 + 2 + 2 + wrap_u 16 (Z.of_nat (length (result_error res))) + 8 + 8 + 2
  = Z.of_nat (length (header_atom res)).
Proof.
  intros H. rewrite (header_atom_bytes res cs H), header_bytes_length. destruct H as (_ & _ & He & _). cbn in He.
  unfold wrap_u. rewrite Z.mod_small by lia. cbn. lia.
Qed.

Lemma header_atom_bound (res : drizzle_result_st) cs :
  header_fits (rds_header res) cs → Z.of_nat (length (header_atom res)) <= cap_max st.
Proof.
  intros H. rewrite (header_atom_bytes res cs H), header_bytes_length. destruct H as (_ & _ & He & _). cbn in He.
  unfold cap_max. cbn. lia.
Qed.

Lemma rds_type_unknown (t : Z) : ¬ 0 <= t < 256 → rds_type t = rds_col_type_unknown.
Proof.
  intros Ht. unfold rds_type. destruct (list_find _ _) as [ [i x]|] eqn:E; [|done]. exfalso. apply list_find_Some in E as (E & Hx & _).
  assert (Hall : Forall (fun x => Forall (fun k => 0 <= k < 256) x.2) mysql_types) by (repeat constructor; cbn; lia).
  rewrite Forall_forall in Hall. apply list_elem_of_lookup_2, Hall in E. rewrite Forall_forall in E. by apply Ht, E.
Qed.

Lemma std_col_type_ok (t : Z) : ngx_http_drizzle_std_col_type t = rds_type t.
Proof.
  destruct (decide (0 <= t < 256)) as [Ht|Ht]; [by apply (range_check_prop 256 (fun t => ngx_http_drizzle_std_col_type t = rds_type t))|].
  assert (Hn : ∀ k, 0 <= k < 256 → (t =? k) = false) by (intros k Hk; apply Z.eqb_neq; lia).
  unfold ngx_http_drizzle_std_col_type. rewrite !Hn by (vm_compute; split; congruence). by rewrite rds_type_unknown.
Qed.

Lemma std_col_type_range (t : Z) : 0 <= ngx_http_drizzle_std_col_type t < 2 ^ 16.
Proof. unfold ngx_http_drizzle_std_col_type. repeat case_match; vm_compute; split; congruence. Qed.

Lemma rds_col_fits (c : drizzle_column_st) : dcol_fits c → col_fits (rds_col c).
Proof. intros (H1 & H2 & H3). pose proof (std_col_type_range (column_type c)) as H. rewrite std_col_type_ok in H. done. Qed.

(** What a write leaves behind. *)
Definition wrote start sent (p p' : peer_data) (r : cursor) : Prop :=
  ∃ m', p' = set_mem m' p ∧ mem_ok st m' ∧ holds start sent m' r
        ∧ seen_stream_end m' = seen_stream_end (mem p).

Lemma output_col_ok start sent (c : drizzle_column_st) cs rows (p : peer_data) :
  dcol_fits c → mem_ok st (mem p) → holds start sent (mem p) (cursor_of (ph_cols (c :: cs) rows)) →
  ∃ p', ngx_http_drizzle_output_col st c p = Some (NGX_OK, p')
        ∧ wrote start sent p p' (cursor_of (ph_cols cs rows)).
Proof.
  intros (H1 & H2 & H3) Hm Hh. unfold ngx_http_drizzle_output_col. cbv zeta.
  unfold wrap_u. rewrite Z.mod_small by lia. rewrite (Z.mod_small (ngx_http_drizzle_std_col_type _)), std_col_type_ok
    by apply std_col_type_range. rewrite Nat2Z.id, take_ge by lia.
  set (t := put_le 2 _ ++ _). assert (Et : t = col_bytes (rds_col c)) by done.
  replace (2 + 2 + 2 + Z.of_nat (length (column_name c))) with (Z.of_nat (length t)).
  2: { rewrite Et, col_bytes_length. cbn. lia. }
  destruct (write_ok start sent p t true _ (cursor_of (ph_cols cs rows)) Hm Hh) as (m' & -> & M1 & M2 & M3 & _).
  { rewrite Et, <- (app_nil_r (col_bytes _)). cbn [cursor_of map after_col]. constructor.
    destruct cs; constructor. }
  { rewrite Et, col_bytes_length. cbn. unfold cap_max. lia. }
  eexists. split; [done|]. by exists m'.
Qed.

Lemma output_row_ok start sent (row : Z) fs rows (p : peer_data) :
  row ≠ 0 → mem_ok st (mem p) → holds start sent (mem p) (at_row (fs :: rows)) →
  ∃ p', ngx_http_drizzle_output_row st row p = Some (NGX_OK, p')
        ∧ wrote start sent p p' (after_field fs rows).
Proof.
  intros Hr Hm Hh. unfold ngx_http_drizzle_output_row. rewrite (proj2 (Z.eqb_neq row 0)) by done. cbv zeta.
  destruct (write_ok start sent p [1] false _ (after_field fs rows) Hm Hh) as (m' & E & M1 & M2 & M3 & _).
  { by apply consume_row; [|constructor]. }
  { unfold cap_max. simpl. lia. }
  cbn [length] in E. eexists. split; [exact E|]. by exists m'.
Qed.

Lemma field_text_ok start sent (p : peer_data) (offset len total : Z) (f : option bytes) (text : bytes) (r r' : cursor) :
  mem_ok st (mem p) → holds start sent (mem p) r → consume r text r' → Z.of_nat (length text) <= cap_max st →
  (offset =? 0) && (len =? 0) && negb (total =? 0) = false →
  (if offset =? 0 then 4 else 0) + wrap_u 32 len = Z.of_nat (length text) →
  (if offset =? 0 then match f with None => put_le 4 (2 ^ 32 - 1) | Some _ => put_le 4 (wrap_u 32 total) end else [])
  ++ (match f with Some d => if negb (len =? 0) then take (Z.to_nat (wrap_u 32 len)) d else [] | None => [] end) = text →
  ∃ p', ngx_http_drizzle_output_field st offset len total f p = Some (NGX_OK, p') ∧ wrote start sent p p' r'.
Proof.
  intros Hm Hh Hc Hcap H0 Hl Ht. unfold ngx_http_drizzle_output_field. rewrite H0, Hl, Ht. cbv zeta.
  destruct (write_ok start sent p text true _ r' Hm Hh Hc Hcap) as (m' & -> & M1 & M2 & M3 & _).
  eexists. split; [done|]. by exists m'.
Qed.

(** ** Passing buffers on *)

Lemma reset_ok (bufs fb : list dbuf) (n : nat) :
  Forall (fun b => cap_ok st b) bufs →
  Forall (fun b => ddata b = [] ∧ cap_ok st b) fb →
  Forall (fun b => ddata b = [] ∧ cap_ok st b) (rev (map reset_dbuf (take n bufs)) ++ fb).
Proof.
  intros H1 H2. apply Forall_app_2; [|done]. apply Forall_rev, Forall_map.
  eapply Forall_impl; [apply Forall_take, H1|]. by intros b Hb.
Qed.

(** Before the end of the stream: the linked buffers are passed on, the current one is
    kept. *)
Lemma output_bufs_ok (e : env) start sent (p : peer_data) (r : cursor) :
  env_ok e → mem_ok st (mem p) → seen_stream_end (mem p) = false → holds start sent (mem p) r →
  ∃ p' bufs acts,
    ngx_http_drizzle_output_bufs st e p = (NGX_OK, p', acts)
    ∧ acts = (if (length bufs =? 0)%nat then [] else (if header_sent p then [] else [ct_header st]) ++ [output_filter bufs])
    ∧ header_sent p' = (if (length bufs =? 0)%nat then header_sent p else true)
    ∧ Forall (sendable st) bufs ∧ mem_ok st (mem p') ∧ seen_stream_end (mem p') = false
    ∧ holds start (sent ++ map ddata bufs) (mem p') r
    ∧ state p' = state p ∧ has_set_names p' = has_set_names p ∧ drizzle_row p' = drizzle_row p.
Proof.
  intros [He1 He2] Hm Hs (r1 & H1 & H2). unfold ngx_http_drizzle_output_bufs. rewrite Hs. cbv zeta.
  pose proof Hm as [A1 A2 A3 A5 A6 A7 A8]. cbn [header_sent set_mem].
  exists (if (length (out_bufs (mem p)) =? 0)%nat then set_mem (mem p) p else
    set_mem (set_out_bufs [] (set_busy_bufs (drop (e_sent e) (busy_bufs (mem p) ++ out_bufs (mem p)))
      (set_free_bufs (rev (map reset_dbuf (take (e_sent e) (busy_bufs (mem p) ++ out_bufs (mem p)))) ++ free_bufs (mem p)) (mem p))))
      (set_header_sent true p)).
  exists (out_bufs (mem p)).
  destruct (out_bufs (mem p)) as [|b0 bufs] eqn:Eo.
  - cbn [length Nat.eqb negb]. rewrite andb_false_r. eexists. split; [reflexivity|]. split_and!; try done.
    exists r1. cbn [mem set_mem]. rewrite Eo, app_nil_r in *. by rewrite app_nil_r.
  - cbn [length Nat.eqb negb]. rewrite andb_true_r.
    assert (Hbusy : Forall (fun b => cap_ok st b) (busy_bufs (mem p) ++ b0 :: bufs)).
    { apply Forall_app_2; [done|]. eapply Forall_impl; [exact A7|]. by intros b [_ ?]. }
    exists ((if header_sent p then [] else [ct_header st]) ++ [output_filter (b0 :: bufs)]). split.
    { destruct (header_sent p) eqn:Eh; cbn [negb]; [|rewrite He1]; rewrite He2;
        unfold RdsJson.ngx_chain_update_chains; cbv zeta; [|done]. destruct p. cbn in Eh. by subst. }
    split_and!; try done.
    + split; cbn; try done; [by apply reset_ok|by apply Forall_drop].
    + exists r1. cbn. by rewrite app_nil_r.
Qed.

(** At the end of the stream everything is passed on and the request is ended. *)
Lemma done_ok (e : env) start sent (p : peer_data) :
  env_ok e → mem_ok st (mem p) → seen_stream_end (mem p) = true → fresh (mem p) →
  holds start sent (mem p) at_end →
  ∃ p' bufs, ngx_http_upstream_drizzle_done st e NGX_DONE p
             = (p', (if header_sent p then [] else [ct_header st]) ++ [output_filter bufs; finalize NGX_OK])
    ∧ bufs ≠ [] ∧ Forall (sendable st) bufs ∧ consumes start (sent ++ map ddata bufs) at_end ∧ pending st p' = pending st p.
Proof.
  intros [He1 He2] Hm Hs Hf (r1 & H1 & H2). pose proof Hm as [A1 A2 A3 A5 A6 A7 A8].
  unfold ngx_http_upstream_drizzle_done, ngx_http_drizzle_output_bufs. rewrite Hs. cbv zeta.
  set (m := if negb (avail_out _ =? 0) then _ else _).
  assert (Hout : out_bufs m ≠ [] ∧ Forall (sendable st) (out_bufs m) ∧ consumes start (sent ++ map ddata (out_bufs m)) at_end).
  { unfold m, fresh, open_data in *. cbn [avail_out set_seen_stream_end].
    destruct (Z.eqb_spec (avail_out (mem p)) 0) as [E|E].
    - apply consume_nothing in H2. by subst r1.
    - destruct (A2 E) as (b & Eb & Hl). assert (Ec : current (mem p) = b) by (unfold current; by rewrite Eb).
      cbn [negb out_bufs set_avail_out link_out_buf set_out_bufs].
      change (current (set_seen_stream_end false (mem p))) with (current (mem p)). rewrite Ec in *.
      change (out_bufs (set_seen_stream_end false (mem p))) with (out_bufs (mem p)). split_and!.
      + by destruct (out_bufs (mem p)).
      + apply Forall_app_2; [done|]. apply Forall_singleton. split; [unfold buf_ok; lia|]. by apply A8.
      + by eapply link_ok. }
  destruct Hout as (O1 & O2 & O3). rewrite (proj2 (Nat.eqb_neq (length (out_bufs m)) 0)) by (by destruct (out_bufs m)).
  cbn [negb header_sent set_mem]. rewrite andb_true_r.
  destruct (header_sent p) eqn:Eh; cbn [negb]; [|rewrite He1]; cbv iota; rewrite He2;
    unfold RdsJson.ngx_chain_update_chains; cbv zeta; eexists _, (out_bufs m); split; try reflexivity; done.
Qed.

(** ** Fields *)

Definition in_row (ph : phase) : Prop := match ph with ph_fields _ _ | ph_more _ _ _ _ => True | _ => False end.

Lemma wrote_nothing start sent (p : peer_data) (r : cursor) :
  mem_ok st (mem p) → holds start sent (mem p) r → wrote start sent p p r.
Proof. intros H1 H2. exists (mem p). by destruct p. Qed.

Lemma piece_fits off d fs rows :
  0 < off → Z.of_nat (length d) < NULL_LEN → Forall field_fits fs → Forall (Forall field_fits) rows →
  phase_fits (ph_piece off d fs rows) ∧ in_row (ph_piece off d fs rows).
Proof. intros. by destruct d. Qed.

(** The first bytes of a field, and the next ones. *)
Lemma first_piece start sent (p : peer_data) d1 d2 rest fs rows :
  d1 ≠ [] → Z.of_nat (length d1) <= DRIZZLE_MAX_BUFFER_SIZE → Z.of_nat (length (d1 ++ d2)) < NULL_LEN → mem_ok st (mem p) →
  holds start sent (mem p) (at_field (Some (d1 ++ d2) :: fs) rows) →
  ∃ p', ngx_http_drizzle_output_field st 0 (Z.of_nat (length d1)) (Z.of_nat (length (d1 ++ d2))) (Some (d1 ++ rest)) p
        = Some (NGX_OK, p')
        ∧ wrote start sent p p' (cursor_of (ph_piece (Z.of_nat (length d1)) d2 fs rows)).
Proof.
  intros Hne Hmax Hlen Hm Hh. unfold DRIZZLE_MAX_BUFFER_SIZE in Hmax. unfold NULL_LEN in Hlen. pose proof Hlen as Hlen'. rewrite length_app, Nat2Z.inj_add in Hlen'.
  assert (Hz : (Z.of_nat (length d1) =? 0) = false) by (apply Z.eqb_neq; destruct d1; [done|simpl; lia]).
  eapply field_text_ok; [done|exact Hh| | | | |].
  - instantiate (1 := put_le 4 (Z.of_nat (length (d1 ++ d2))) ++ d1). destruct d2 as [|a d2].
    + pose proof (consume_field d1 fs rows [] _ (consume_nil _)) as H. rewrite app_nil_r in H. by rewrite !app_nil_r.
    + by apply consume_part.
  - rewrite length_app, put_le_length. unfold cap_max. lia.
  - by rewrite Hz.
  - rewrite length_app, put_le_length. unfold wrap_u. rewrite Z.mod_small by lia. cbn [Z.eqb]. lia.
  - rewrite Hz. unfold wrap_u. rewrite !Z.mod_small by lia. cbn [Z.eqb negb]. by rewrite take_length_app.
Qed.

Lemma next_piece start sent (p : peer_data) off total d1 d2 rest fs rows :
  0 < off → d1 ++ d2 ≠ [] → Z.of_nat (length d1) <= DRIZZLE_MAX_BUFFER_SIZE → Z.of_nat (length (d1 ++ d2)) < NULL_LEN → mem_ok st (mem p) →
  holds start sent (mem p) (at_more (d1 ++ d2) fs rows) →
  ∃ p', ngx_http_drizzle_output_field st off (Z.of_nat (length d1)) total (Some (d1 ++ rest)) p = Some (NGX_OK, p')
        ∧ wrote start sent p p' (cursor_of (ph_piece (off + Z.of_nat (length d1)) d2 fs rows)).
Proof.
  intros Ho Hne Hmax Hlen Hm Hh. unfold DRIZZLE_MAX_BUFFER_SIZE in Hmax. unfold NULL_LEN in Hlen. rewrite length_app, Nat2Z.inj_add in Hlen.
  assert (Hz : (off =? 0) = false) by lia.
  eapply field_text_ok; [done|exact Hh| | | | |].
  - instantiate (1 := d1). destruct d2 as [|a d2].
    + rewrite app_nil_r in *. pose proof (consume_more d1 fs rows [] _ Hne (consume_nil _)) as H.
      by rewrite app_nil_r in H.
    + destruct d1 as [|b d1]; [constructor|]. by apply consume_more_part.
  - unfold cap_max. lia.
  - by rewrite Hz.
  - rewrite Hz. unfold wrap_u. rewrite Z.mod_small by lia. lia.
  - rewrite Hz. cbn [app]. destruct (Z.eqb_spec (Z.of_nat (length d1)) 0) as [E|E]; cbn [negb]; [by destruct d1|].
    unfold wrap_u. rewrite Z.mod_small by lia. by rewrite take_length_app.
Qed.

Lemma field_answer start sent (p : peer_data) ph off len total f l :
  phase_fits ph → serves ph (field_read DRIZZLE_RETURN_OK off len total f :: l) →
  mem_ok st (mem p) → holds start sent (mem p) (cursor_of ph) →
  ∃ rc p' ph', ngx_http_drizzle_output_field st off len total f p = Some (rc, p') ∧ failed rc = false
    ∧ wrote start sent p p' (cursor_of ph') ∧ phase_fits ph' ∧ serves ph' l ∧ in_row ph'.
Proof.
  intros Hfit Hs Hm Hh. inversion Hs as [? ? ? ? Hw| | | | | | | | | |fs rows ? Hs'|fs rows ? d Hs'|d fs rows ? d0 Hne Hs'
    |d1 d2 rest fs rows ? Hne Hmax Hs'|off' d1 d2 rest fs rows ? tot Ho Hne Hmax Hs']; subst; [done|..].
  - destruct Hfit as [Hfs Hr]. apply Forall_cons in Hfs as [_ Hfs].
    destruct (field_text_ok start sent p 0 0 0 None (put_le 4 NULL_LEN) _ (after_field fs rows) Hm Hh) as (p' & -> & W);
      [rewrite <- (app_nil_r (put_le 4 _)); by repeat constructor|unfold cap_max; simpl; lia|done|done|done|].
    by exists NGX_OK, p', (ph_fields fs rows).
  - destruct Hfit as [Hfs Hr]. apply Forall_cons in Hfs as [_ Hfs].
    destruct (field_text_ok start sent p 0 0 0 (Some d) (put_le 4 0) _ (after_field fs rows) Hm Hh) as (p' & -> & W);
      [apply (consume_field []); constructor|unfold cap_max; simpl; lia|done|done|done|].
    by exists NGX_OK, p', (ph_fields fs rows).
  - unfold ngx_http_drizzle_output_field. cbn [Z.eqb andb].
    rewrite (proj2 (Z.eqb_neq _ 0)) by (destruct d; [done|simpl; lia]). cbn [negb].
    exists NGX_DONE, p, (ph_fields (Some d :: fs) rows). split_and!; try done. by apply wrote_nothing.
  - destruct Hfit as [Hfs Hr]. apply Forall_cons in Hfs as [Hf Hfs]. cbn in Hf.
    destruct (first_piece start sent p d1 d2 rest fs rows) as (p' & -> & W); [done..|].
    pose proof Hf as Hf'. rewrite length_app, Nat2Z.inj_add in Hf'.
    destruct (piece_fits (Z.of_nat (length d1)) d2 fs rows) as [P1 P2]; [destruct d1; [done|simpl; lia]|lia|done..|].
    by eexists NGX_OK, p', _.
  - destruct Hfit as (_ & _ & Hf & Hfs & Hr).
    destruct (next_piece start sent p off total d1 d2 rest fs rows) as (p' & -> & W); [done..|].
    pose proof Hf as Hf'. rewrite length_app, Nat2Z.inj_add in Hf'.
    destruct (piece_fits (off + Z.of_nat (length d1)) d2 fs rows) as [P1 P2]; [lia|lia|done..|].
    by eexists NGX_OK, p', _.
Qed.

(** ** The processor *)

Context (e : env) (He : env_ok e).

(** A call that went on after an answer that was neither a wait nor one to a query. *)
Lemma progress_step start sent (a : answer) (l : list answer) (p p' : peer_data) (o : outcome) :
  is_wait a = false → (∀ b, asked st b (a :: l) = asked st b l) →
  pending st p' = pending st p → header_sent p' = header_sent p →
  progress st start sent l p' o → progress st start sent (a :: l) p o.
Proof.
  intros Ha Hq Hp Hh (rc & p1 & l1 & acts & E & Has & H). exists rc, p1, l1, acts.
  split; [done|]. rewrite Hq, <- Hp, <- Hh. split; [done|].
  assert (Hw : waits (a :: l) = waits l) by (unfold waits; by rewrite filter_cons_False by congruence).
  by rewrite Hw.
Qed.

(** A call that stops at a wait. *)
Lemma progress_wait start sent (a : answer) (l : list answer) (p p' : peer_data) (ph : phase) :
  is_wait a = true → asked st (pending st p') l = asked st (pending st p) (a :: l) →
  header_sent p' = header_sent p → phase_fits ph → serves ph l → ready st start sent ph p' →
  progress st start sent (a :: l) p (Some (NGX_AGAIN, p', l, [])).
Proof.
  intros Ha Hq Hh Hf Hs Hr. exists NGX_AGAIN, p', l, []. split; [done|]. split; [done|]. left.
  split_and!; try done; [unfold waits; by rewrite filter_cons_True|by exists ph].
Qed.

Definition row_state (ph : phase) (p : peer_data) : Prop :=
  match ph with
  | ph_rows _ => drizzle_row p = 0
  | ph_fields _ _ | ph_more _ _ _ _ => drizzle_row p ≠ 0
  | _ => False
  end.

Definition live start sent (ph : phase) (p : peer_data) : Prop :=
  mem_ok st (mem p) ∧ seen_stream_end (mem p) = false ∧ holds start sent (mem p) (cursor_of ph)
  ∧ pending st p = false.

Lemma live_wrote start sent (ph ph' : phase) (p p' : peer_data) :
  live start sent ph p → wrote start sent p p' (cursor_of ph') →
  live start sent ph' p' ∧ header_sent p' = header_sent p ∧ drizzle_row p' = drizzle_row p.
Proof.
  intros (L1 & L2 & L3 & L4) (m' & -> & W1 & W2 & W3). split; [|done]. split; [exact W1|].
  split; [cbn; by rewrite W3|]. by split.
Qed.

Lemma wait_rows start sent (ph : phase) (p : peer_data) :
  live start sent ph p → row_state ph p →
  ready st start sent ph (wait_in state_db_recv_rows (set_read_timer true)
    (match state p with state_db_recv_rows => true | _ => false end) p)
  ∧ header_sent (wait_in state_db_recv_rows (set_read_timer true)
      (match state p with state_db_recv_rows => true | _ => false end) p) = header_sent p
  ∧ pending st (wait_in state_db_recv_rows (set_read_timer true)
      (match state p with state_db_recv_rows => true | _ => false end) p) = false.
Proof.
  intros (L1 & L2 & L3 & L4) Hr. unfold wait_in.
  destruct (state p) eqn:Es; (split; [|done]); split_and!; try done; by destruct ph.
Qed.

(** The last row: the terminator is written and everything is passed on. *)
Lemma last_row start sent (p : peer_data) :
  live start sent (ph_rows []) p →
  ∃ p', ngx_http_drizzle_output_row st 0 p = Some (NGX_OK, p') ∧ drizzle_row p' = drizzle_row p
    ∧ header_sent p' = header_sent p ∧ has_set_names p' = has_set_names p
    ∧ mem_ok st (mem p') ∧ seen_stream_end (mem p') = true ∧ fresh (mem p') ∧ holds start sent (mem p') at_end.
Proof.
  intros (L1 & L2 & L3 & L4). unfold ngx_http_drizzle_output_row. cbn [Z.eqb]. cbv zeta.
  destruct (write_ok start sent (set_mem (set_seen_stream_end true (mem p)) p) [0] false (at_row []) at_end)
    as (m' & E & M1 & M2 & M3 & M4).
  { destruct L1. by split. } { exact L3. } { constructor. } { unfold cap_max. simpl. lia. }
  eexists. split; [exact E|]. split_and!; try done. by apply M4.
Qed.

Lemma serves_wait (ph : phase) (a : answer) (l : list answer) :
  serves ph (a :: l) → is_wait a = true → awaits ph a ∧ serves ph l.
Proof. intros H Hw. by inversion H; subst. Qed.

Lemma rows_wait start sent (a : answer) (l : list answer) ph p :
  phase_fits ph → serves ph (a :: l) → is_wait a = true → live start sent ph p → row_state ph p →
  progress st start sent (a :: l) p (ngx_http_upstream_drizzle_recv_rows st e (a :: l) p).
Proof.
  intros Hf Hs Hw Hl Hr. destruct (serves_wait ph a l Hs Hw) as [Ha Hs']. cbn [ngx_http_upstream_drizzle_recv_rows].
  pose proof Hl as (_ & _ & _ & Hp).
  destruct ph; try done; destruct a; try done; cbn [is_wait] in Hw; cbn [row_state] in Hr.
  - rewrite Hr, Hw. cbn [Z.eqb].
    set (p0 := set_drizzle_row 0 (set_drizzle_row row p)).
    assert (Hl0 : live start sent (ph_rows rows) p0) by done.
    destruct (wait_rows start sent _ p0 Hl0) as (R1 & R2 & R3); [done|].
    eapply progress_wait; [done| |done|exact Hf|exact Hs'|exact R1]. rewrite R3. by rewrite Hp.
  - rewrite (proj2 (Z.eqb_neq _ 0)) by done. rewrite Hw.
    destruct (wait_rows start sent _ p Hl) as (R1 & R2 & R3); [done|].
    eapply progress_wait; [done| |done|exact Hf|exact Hs'|exact R1]. rewrite R3. by rewrite Hp.
  - rewrite (proj2 (Z.eqb_neq _ 0)) by done. rewrite Hw.
    destruct (wait_rows start sent _ p Hl) as (R1 & R2 & R3); [done|].
    eapply progress_wait; [done| |done|exact Hf|exact Hs'|exact R1]. rewrite R3. by rewrite Hp.
Qed.

(** The end of a request with columns. *)
Lemma rows_end start sent (p : peer_data) :
  live start sent (ph_rows []) p → drizzle_row p = 0 →
  progress st start sent [row_read DRIZZLE_RETURN_OK 0] p
    (ngx_http_upstream_drizzle_recv_rows st e [row_read DRIZZLE_RETURN_OK 0] p).
Proof.
  intros Hl Hr. cbn [ngx_http_upstream_drizzle_recv_rows]. rewrite Hr. cbn [Z.eqb DRIZZLE_RETURN_OK DRIZZLE_RETURN_IO_WAIT negb].
  set (p0 := set_drizzle_row 0 p). assert (Hl0 : live start sent (ph_rows []) p0) by done.
  cbn [drizzle_row set_drizzle_row p0].
  destruct (last_row start sent p0 Hl0) as (p1 & -> & R1 & R2 & R3 & R4 & R5 & R6 & R7).
  change (failed NGX_OK) with false. cbv iota. rewrite R1. cbn [Z.eqb p0 drizzle_row set_drizzle_row].
  pose proof Hl as (_ & _ & _ & Hp). unfold pending in Hp.
  cbn [has_set_names set_read_timer]. rewrite R3. cbn [p0 has_set_names set_drizzle_row]. rewrite Hp.
  destruct (done_ok e start sent (set_read_timer false p1) He R4 R5 R6 R7) as (p2 & bufs & -> & B1 & B2 & B3 & B4).
  eexists _, _, _, _. split; [reflexivity|]. cbn [header_sent set_read_timer]. rewrite R2.
  assert (Hacts : queries ((if header_sent p0 then [] else [ct_header st]) ++ [output_filter bufs; finalize NGX_OK]) = []
    ∧ passed ((if header_sent p0 then [] else [ct_header st]) ++ [output_filter bufs; finalize NGX_OK])
      = (if header_sent p then [] else [ct_header st]) ++ [output_filter bufs; finalize NGX_OK])
    by (unfold p0; cbn [header_sent set_drizzle_row]; by destruct (header_sent p)).
  destruct Hacts as [-> Hpass]. split; [done|]. right. split_and!; try done. by exists bufs.
Qed.

Lemma in_row_answer (ph : phase) (a : answer) (l : list answer) :
  serves ph (a :: l) → is_wait a = false → in_row ph →
  (∃ off len total f, a = field_read DRIZZLE_RETURN_OK off len total f)
  ∨ ∃ rows off len total f, ph = ph_fields [] rows ∧ a = field_read DRIZZLE_RETURN_ROW_END off len total f
                            ∧ serves (ph_rows rows) l.
Proof.
  intros H Hw Hi. inversion H; subst; try done; try congruence; try (left; by eexists _, _, _, _).
  right. by eexists _, _, _, _, _.
Qed.

(** A step inside a row. *)
Lemma fields_step start sent (a : answer) (l : list answer) :
  (∀ ph p, phase_fits ph → serves ph l → live start sent ph p → row_state ph p →
     progress st start sent l p (ngx_http_upstream_drizzle_recv_rows st e l p)) →
  ∀ ph p, phase_fits ph → serves ph (a :: l) → is_wait a = false → in_row ph → live start sent ph p →
    drizzle_row p ≠ 0 →
    progress st start sent (a :: l) p (ngx_http_upstream_drizzle_recv_rows st e (a :: l) p).
Proof.
  intros IH ph p Hf Hs Hw Hi Hl Hr. pose proof Hl as (L1 & L2 & L3 & L4).
  cbn [ngx_http_upstream_drizzle_recv_rows]. rewrite (proj2 (Z.eqb_neq (drizzle_row p) 0)) by done.
  destruct (in_row_answer ph a l Hs Hw Hi) as [(off & len & total & f & ->)|(rows & off & len & total & f & -> & -> & Hs')].
  - cbn [Z.eqb DRIZZLE_RETURN_OK DRIZZLE_RETURN_IO_WAIT DRIZZLE_RETURN_ROW_END negb].
    destruct (field_answer start sent p ph off len total f l Hf Hs L1 L3) as (rc & p1 & ph1 & -> & -> & W & F1 & S1 & I1).
    destruct (live_wrote start sent ph ph1 p p1 Hl W) as (M1 & M2 & M3).
    eapply progress_step; [done|done| |exact M2|eapply (IH ph1); try done].
    + destruct M1 as (_ & _ & _ & ->). by rewrite L4.
    + rewrite <- M3 in Hr. by destruct ph1.
  - cbn [Z.eqb DRIZZLE_RETURN_IO_WAIT DRIZZLE_RETURN_ROW_END Pos.eqb].
    destruct Hf as [_ Hf].
    eapply progress_step; [done|done| | |eapply (IH (ph_rows rows)); try done]; done.
Qed.

Lemma rows_progress start sent (l : list answer) : ∀ ph p,
  phase_fits ph → serves ph l → live start sent ph p → row_state ph p →
  progress st start sent l p (ngx_http_upstream_drizzle_recv_rows st e l p).
Proof.
  induction l as [|a l IH]; intros ph p Hf Hs Hl Hr; [inversion Hs|].
  destruct (is_wait a) eqn:Hw; [by eapply rows_wait|].
  destruct ph as [| | | |rows|fs rows|off d fs rows]; try done.
  - inversion Hs as [? ? ? ? Hw'| | | | | | |row fs rows' ? Hne Hs'| | | | | | |]; subst; [congruence| |by apply rows_end].
    cbn [ngx_http_upstream_drizzle_recv_rows]. rewrite Hr. cbn [Z.eqb DRIZZLE_RETURN_OK DRIZZLE_RETURN_IO_WAIT negb].
    cbn [drizzle_row set_drizzle_row]. apply Forall_cons in Hf as [Hfs Hf].
    destruct (output_row_ok start sent row fs rows' (set_drizzle_row row p)) as (p1 & -> & W1); [done|apply Hl|apply Hl|].
    destruct (live_wrote start sent (ph_rows (fs :: rows')) (ph_fields fs rows') (set_drizzle_row row p) p1) as (L1 & L2 & L3);
      [done|done|].
    change (failed NGX_OK) with false. cbv iota. rewrite L3. cbn [drizzle_row set_drizzle_row].
    rewrite (proj2 (Z.eqb_neq row 0)) by done.
    eapply progress_step; [done|done| | |eapply (IH (ph_fields fs rows')); try done]; [by destruct L1 as (_ & _ & _ & ->); destruct Hl as (_ & _ & _ & ->)|done|].
    cbn. by rewrite L3.
  - by eapply fields_step.
  - by eapply fields_step.
Qed.

Lemma cols_progress start sent (l : list answer) : ∀ cs rows p,
  phase_fits (ph_cols cs rows) → serves (ph_cols cs rows) l → live start sent (ph_cols cs rows) p →
  drizzle_row p = 0 →
  progress st start sent l p (ngx_http_upstream_drizzle_recv_cols st e l p).
Proof.
  induction l as [|a l IH]; intros cs rows p Hf Hs Hl Hr; [inversion Hs|]. pose proof Hl as (L1 & L2 & L3 & L4).
  cbn [ngx_http_upstream_drizzle_recv_cols]. destruct (is_wait a) eqn:Hw.
  { destruct (serves_wait _ a l Hs Hw) as [Ha Hs']. destruct a; try done. cbn [is_wait] in Hw. rewrite Hw.
    unfold wait_in. eapply (progress_wait start sent _ l p _ (ph_cols cs rows)); try done;
      destruct (state p) eqn:Es; try done; cbn; by rewrite ?L4. }
  inversion Hs as [? ? ? ? Hw'| | | | |c cs' rows' ? Hs'|rows' ? Hs'| | | | | | | |]; subst; [congruence| |];
    cbn [Z.eqb DRIZZLE_RETURN_OK DRIZZLE_RETURN_IO_WAIT negb].
  - destruct Hf as [Hc Hf]. apply Forall_cons in Hc as [Hc Hcs].
    destruct (output_col_ok start sent c cs' rows p Hc L1 L3) as (p1 & -> & W1).
    destruct (live_wrote start sent _ (ph_cols cs' rows) p p1 Hl W1) as (M1 & M2 & M3).
    change (failed NGX_OK) with false. cbv iota.
    eapply progress_step; [done|done| |exact M2|eapply (IH cs' rows); try done]; [|by rewrite M3].
    destruct M1 as (_ & _ & _ & ->). by rewrite L4.
  - destruct Hf as [_ Hf].
    eapply progress_step; [done|done| | |eapply (rows_progress start sent l (ph_rows rows)); try done]; done.
Qed.

(** More queries before the rest of a call. *)
Lemma progress_asked start sent (q : bytes) (a : answer) (l : list answer) (p p' : peer_data) (o : outcome) :
  is_wait a = false → q :: asked st (pending st p') l = asked st (pending st p) (a :: l) →
  header_sent p' = header_sent p → progress st start sent l p' o →
  progress st start sent (a :: l) p (after [send_query_text q] o).
Proof.
  intros Ha Hq Hh (rc & p1 & l1 & acts & -> & Has & H). exists rc, p1, l1, (send_query_text q :: acts).
  split; [done|]. split; [by rewrite <- Hq, <- Has|].
  assert (Hw : waits (a :: l) = waits l) by (unfold waits; by rewrite filter_cons_False by congruence).
  rewrite Hw, <- Hh. exact H.
Qed.

Lemma query_wait start sent ph (ret code : Z) (res : drizzle_result_st) (l : list answer) (p : peer_data) :
  (match ph with ph_names _ _ _ => pending st p = true | ph_query _ _ _ => pending st p = false | _ => False end) →
  phase_fits ph → serves ph (query ret code res :: l) → is_wait (query ret code res) = true →
  mem_ok st (mem p) → seen_stream_end (mem p) = false → holds start sent (mem p) (cursor_of ph) → drizzle_row p = 0 →
  progress st start sent (query ret code res :: l) p
    (ngx_http_upstream_drizzle_send_query st e (query ret code res :: l) p).
Proof.
  intros Hp Hf Hs Hw M1 M2 M3 Hr. destruct (serves_wait _ _ l Hs Hw) as [Ha Hs'].
  cbn [ngx_http_upstream_drizzle_send_query]. cbn [is_wait] in Hw. rewrite Hw. unfold wait_in.
  set (q := if enable_charset st && negb (has_set_names p) then _ else _).
  set (p' := if match state p with state_db_send_query => true | _ => false end then p else _).
  assert (Hp' : state p' = state_db_send_query ∧ pending st p' = pending st p ∧ header_sent p' = header_sent p
    ∧ mem p' = mem p ∧ drizzle_row p' = drizzle_row p) by (unfold p'; by destruct (state p) eqn:Es).
  destruct Hp' as (P1 & P2 & P3 & P4 & P5).
  exists NGX_AGAIN, p', l, [send_query_text q]. split; [done|]. split.
  { cbn [asked queries map concat app]. rewrite Hw, andb_true_r, P2. done. }
  left. split_and!; try done; [unfold waits; by rewrite filter_cons_True|].
  exists ph. split_and!; try done. unfold ready. rewrite P4. split_and!; try done.
  destruct ph; try done; cbn [at_phase]; rewrite P1, P2, P5; by auto.
Qed.

Lemma output_header_ok start sent (res : drizzle_result_st) c cs rows (p : peer_data) :
  dresult_fits res (c :: cs) → live start sent (ph_query res (c :: cs) rows) p →
  ∃ p', ngx_http_drizzle_output_result_header st e res p = Some (NGX_OK, p', [])
        ∧ wrote start sent p p' (cursor_of (ph_cols (c :: cs) rows)).
Proof.
  intros [Hh Hc] (L1 & L2 & L3 & L4). unfold ngx_http_drizzle_output_result_header. unfold pending in L4. rewrite L4.
  rewrite (header_atom_length res _ Hh), Z.eqb_refl. cbv zeta.
  pose proof Hh as (_ & _ & _ & _ & _ & Hn & Hn2). cbn in Hn, Hn2.
  unfold wrap_u at 1. rewrite Z.mod_small by lia. rewrite Hn. cbn [Z.eqb andb].
  destruct (write_ok start sent p (header_atom res) true _ (cursor_of (ph_cols (c :: cs) rows)) L1 L3)
    as (m' & -> & M1 & M2 & M3 & _).
  { rewrite (header_atom_bytes res _ Hh), <- (app_nil_r (header_bytes _)). cbn [cursor_of map].
    apply consume_header. constructor. }
  { by apply (header_atom_bound res (map rds_col (c :: cs))). }
  eexists. split; [reflexivity|]. by exists m'.
Qed.

(** A result without columns: the header ends the stream. *)
Lemma output_header_end start sent (res : drizzle_result_st) rows (p : peer_data) :
  dresult_fits res [] → live start sent (ph_query res [] rows) p →
  ∃ p' bufs, ngx_http_drizzle_output_result_header st e res p
             = Some (NGX_DONE, p', (if header_sent p then [] else [ct_header st]) ++ [output_filter bufs; finalize NGX_OK])
    ∧ bufs ≠ [] ∧ Forall (sendable st) bufs ∧ consumes start (sent ++ map ddata bufs) at_end ∧ pending st p' = pending st p.
Proof.
  intros [Hh _] (L1 & L2 & L3 & L4). unfold ngx_http_drizzle_output_result_header. unfold pending in L4. rewrite L4.
  rewrite (header_atom_length res _ Hh), Z.eqb_refl. cbv zeta.
  pose proof Hh as (_ & _ & _ & _ & _ & Hn & Hn2). cbn in Hn, Hn2.
  unfold wrap_u at 1. rewrite Z.mod_small by lia. rewrite Hn. cbn [Z.eqb andb length Z.of_nat].
  destruct (write_ok start sent (set_mem (set_seen_stream_end true (mem p)) p) (header_atom res) true
    (at_header (rds_header res) [] rows) at_end) as (m' & -> & M1 & M2 & M3 & M4).
  { destruct L1. by split. } { exact L3. }
  { rewrite (header_atom_bytes res _ Hh), <- (app_nil_r (header_bytes _)). apply consume_header. constructor. }
  { by apply (header_atom_bound res []). }
  change (negb (NGX_OK =? NGX_OK)) with false. cbv iota.
  destruct (done_ok e start sent (set_mem m' (set_mem (set_seen_stream_end true (mem p)) p)) He M1 M3) as (p2 & bufs & -> & B).
  { apply M4. by rewrite (header_atom_bytes res _ Hh). } { exact M2. }
  eexists _, bufs. split; [reflexivity|]. exact B.
Qed.

Lemma query_progress start sent (l : list answer) : ∀ res cs rows p,
  phase_fits (ph_query res cs rows) → serves (ph_query res cs rows) l → live start sent (ph_query res cs rows) p →
  drizzle_row p = 0 →
  progress st start sent l p (ngx_http_upstream_drizzle_send_query st e l p).
Proof.
  intros res cs rows p Hf Hs Hl Hr. destruct l as [|a l]; [inversion Hs|]. pose proof Hl as (L1 & L2 & L3 & L4).
  destruct (is_wait a) eqn:Hw.
  { destruct (serves_wait _ a l Hs Hw) as [Ha Hs']. destruct a; try done. by apply (query_wait start sent (ph_query res cs rows)). }
  pose proof L4 as Hpend. unfold pending in Hpend. destruct Hf as [Hf Hrows].
  inversion Hs as [? ? ? ? Hw'| | |code ? ?|code ? c cs' ? ? Hs'| | | | | | | | | |]; subst; [congruence| |];
    cbn [ngx_http_upstream_drizzle_send_query]; rewrite Hpend;
    cbn [Z.eqb DRIZZLE_RETURN_OK DRIZZLE_RETURN_IO_WAIT negb].
  - assert (Hl' : live start sent (ph_query res [] rows) (set_write_timer false p)) by done.
    destruct (output_header_end start sent res rows _ Hf Hl') as (p' & bufs & -> & B1 & B2 & B3 & B4).
    change (failed NGX_DONE) with false. change (NGX_DONE =? NGX_DONE) with true. cbv iota.
    eexists _, _, _, _. split; [reflexivity|]. cbn [header_sent set_write_timer]. split.
    + cbn [asked]. rewrite L4. cbn [andb]. by destruct (header_sent p).
    + right. split_and!; try done. exists bufs. split_and!; try done. by destruct (header_sent p).
  - assert (Hl' : live start sent (ph_query res (c :: cs') rows) (set_write_timer false p)) by done.
    destruct (output_header_ok start sent res c cs' rows _ Hf Hl') as (p' & -> & W).
    destruct (live_wrote start sent _ (ph_cols (c :: cs') rows) _ p' Hl' W) as (M1 & M2 & M3).
    change (failed NGX_OK) with false. change (NGX_OK =? NGX_DONE) with false. cbv iota.
    assert (Ea : ∀ o, after [] o = o) by (by intros [[[[? ?] ?] ?]|]). rewrite Ea.
    eapply progress_asked; [done| |exact M2|eapply (cols_progress start sent l (c :: cs') rows); try done].
    + destruct M1 as (_ & _ & _ & ->). cbn [asked]. rewrite L4. done.
    + destruct Hf as [_ Hf]. done.
    + by rewrite M3.
Qed.

Lemma names_progress start sent (l : list answer) : ∀ res cs rows p,
  phase_fits (ph_names res cs rows) → serves (ph_names res cs rows) l →
  mem_ok st (mem p) → seen_stream_end (mem p) = false → holds start sent (mem p) (cursor_of (ph_names res cs rows)) →
  pending st p = true → drizzle_row p = 0 →
  progress st start sent l p (ngx_http_upstream_drizzle_send_query st e l p).
Proof.
  intros res cs rows p Hf Hs M1 M2 M3 Hp Hr. destruct l as [|a l]; [inversion Hs|].
  destruct (is_wait a) eqn:Hw.
  { destruct (serves_wait _ a l Hs Hw) as [Ha Hs']. destruct a; try done. by apply (query_wait start sent (ph_names res cs rows)). }
  inversion Hs as [? ? ? ? Hw'| |code ok ? ? ? ? Hok Hs'| | | | | | | | | | | |]; subst; [congruence|].
  pose proof Hp as Hp'. unfold pending in Hp'. cbn [ngx_http_upstream_drizzle_send_query]. rewrite Hp'.
  cbn [Z.eqb DRIZZLE_RETURN_OK DRIZZLE_RETURN_IO_WAIT negb].
  unfold ngx_http_drizzle_output_result_header. cbn [has_set_names set_write_timer]. rewrite Hp', Hok.
  change (negb (wrap_u 16 0 =? 0)) with false. cbv iota zeta.
  change (failed NGX_DONE) with false. change (NGX_DONE =? NGX_DONE) with true. cbv iota.
  assert (Ea : ∀ o, after [] o = o) by (by intros [[[[? ?] ?] ?]|]). rewrite Ea.
  set (p' := set_state state_db_idle _).
  assert (Hpend : pending st p' = false) by (unfold pending; cbn; by rewrite andb_false_r).
  eapply (progress_asked start sent _ _ l p p'); [done| |done|eapply (query_progress start sent l res cs rows p'); try done].
  rewrite Hpend. cbn [asked]. by rewrite Hp.
Qed.

Lemma call_progress start sent (l : list answer) (ph : phase) (p : peer_data) :
  phase_fits ph → serves ph l → ready st start sent ph p →
  progress st start sent l p
    (match state p with
     | state_db_connect => ngx_http_upstream_drizzle_connect st e l p
     | state_db_idle | state_db_send_query => ngx_http_upstream_drizzle_send_query st e l p
     | state_db_recv_cols => ngx_http_upstream_drizzle_recv_cols st e l p
     | state_db_recv_rows => ngx_http_upstream_drizzle_recv_rows st e l p
     end).
Proof.
  intros Hf Hs (M1 & M2 & M3 & Ha). destruct ph as [names res cs rows| | | | | |]; cbn [at_phase] in Ha.
  - destruct Ha as (Hst & Hp & Hr). rewrite Hst. destruct l as [|a l]; [inversion Hs|].
    unfold ngx_http_upstream_drizzle_connect. destruct (is_wait a) eqn:Hw.
    { destruct (serves_wait _ a l Hs Hw) as [Ha Hs']. destruct a; try done. cbn [is_wait] in Hw. rewrite Hw.
      by eapply (progress_wait start sent _ l p p (ph_connect names res cs rows)). }
    inversion Hs as [? ? ? ? Hw'|? ? ? ? ? Hs'| | | | | | | | | | | | |]; subst; [congruence|].
    cbn [Z.eqb DRIZZLE_RETURN_OK DRIZZLE_RETURN_IO_WAIT negb].
    eapply progress_step; [done|done| | |]; cycle 2.
    { unfold ph_start in Hs'. destruct (pending st p) eqn:Ep;
        [by eapply (names_progress start sent l res cs rows (set_write_timer false p))
        |by eapply (query_progress start sent l res cs rows (set_write_timer false p))]. }
    + done.
    + done.
  - destruct Ha as ([Hst|Hst] & Hp & Hr); rewrite Hst; by eapply names_progress.
  - destruct Ha as ([Hst|Hst] & Hp & Hr); rewrite Hst; by eapply query_progress.
  - destruct Ha as (Hst & Hp & Hr); rewrite Hst; by eapply cols_progress.
  - destruct Ha as (Hst & Hp & Hr); rewrite Hst; by eapply rows_progress.
  - destruct Ha as (Hst & Hp & Hr); rewrite Hst; by eapply rows_progress.
  - destruct Ha as (Hst & Hp & Hr); rewrite Hst; by eapply rows_progress.
Qed.

(** ** Events *)

Lemma passed_app (a b : list action) : passed (a ++ b) = passed a ++ passed b.
Proof. unfold passed. by rewrite filter_app. Qed.

Lemma queries_app (a b : list action) : queries (a ++ b) = queries a ++ queries b.
Proof. unfold queries. by rewrite map_app, concat_app. Qed.

(** What is passed on in the middle of a stream. *)
Definition chunk (sent_header : bool) (bufs : list dbuf) : list action :=
  match bufs with [] => [] | _ => (if sent_header then [] else [ct_header st]) ++ [output_filter bufs] end.

Lemma event_progress start sent (l : list answer) (ph : phase) (p : peer_data) :
  phase_fits ph → serves ph l → ready st start sent ph p →
  ∃ rc p' l' acts, ngx_http_drizzle_process_events st e l p = Some (rc, p', l', acts)
  ∧ queries acts ++ asked st (pending st p') l' = asked st (pending st p) l
  ∧ ((∃ bufs ph', rc = NGX_OK ∧ passed acts = chunk (header_sent p) bufs ∧ waits l = S (waits l')
        ∧ header_sent p' = (match bufs with [] => header_sent p | _ => true end)
        ∧ Forall (sendable st) bufs ∧ phase_fits ph' ∧ serves ph' l' ∧ ready st start (sent ++ map ddata bufs) ph' p')
     ∨ (∃ bufs, rc = NGX_DONE ∧ l' = [] ∧ waits l = 0%nat ∧ bufs ≠ []
        ∧ passed acts = chunk (header_sent p) bufs ++ [finalize NGX_OK]
        ∧ Forall (sendable st) bufs ∧ consumes start (sent ++ map ddata bufs) at_end)).
Proof.
  intros Hf Hs Hr. destruct (call_progress start sent l ph p Hf Hs Hr) as (rc & p1 & l1 & acts & E & Hq & H).
  unfold ngx_http_drizzle_process_events. rewrite E. destruct H as [(-> & Hp & Hw & Hh & ph1 & F1 & S1 & R1)|(-> & -> & Hw & bufs & Hp & B1 & B2 & B3)].
  - change (NGX_AGAIN =? NGX_ERROR) with false. change (NGX_AGAIN >=? NGX_HTTP_SPECIAL_RESPONSE) with false.
    change (NGX_AGAIN =? NGX_AGAIN) with true. cbv iota. destruct R1 as (M1 & M2 & M3 & M4).
    destruct (output_bufs_ok e start sent p1 _ He M1 M2 M3) as (p2 & bufs & acts2 & -> & -> & Hs2 & B2 & N1 & N2 & N3 & N4 & N5 & N6).
    change ((NGX_OK =? NGX_ERROR) || (NGX_OK >? NGX_OK)) with false. cbv iota.
    assert (Hpend : pending st p2 = pending st p1) by (unfold pending; by rewrite N5).
    eexists _, _, _, _. split; [reflexivity|]. rewrite queries_app, passed_app, Hp, Hpend.
    rewrite Hh in *. split; [rewrite <- Hq; destruct bufs, (header_sent p); by rewrite <- (assoc_L (++))|].
    left. exists bufs, ph1. split_and!; try done.
    + by destruct bufs, (header_sent p).
    + by destruct bufs.
    + split; [exact N1|]. split; [exact N2|]. split; [exact N3|].
      destruct ph1; cbn [at_phase] in *; by rewrite N4, N6, Hpend.
  - change (NGX_DONE =? NGX_ERROR) with false. change (NGX_DONE >=? NGX_HTTP_SPECIAL_RESPONSE) with false.
    change (NGX_DONE =? NGX_AGAIN) with false. cbv iota. eexists _, _, _, _. split; [reflexivity|].
    rewrite (app_nil_r acts). split; [done|]. right. exists bufs. split_and!; try done. rewrite Hp.
    destruct bufs; [done|]. by destruct (header_sent p).
Qed.

End Writing.

(** ** A whole request *)

Lemma all_progress (st : settings) start (es : list env) :
  0 < buf_size st → Forall env_ok es → ∀ l ph sent p,
  length es = S (waits l) → phase_fits ph → serves ph l → ready st start sent ph p →
  ∃ p' acts chs,
    process_all st es l p = Some (replicate (waits l) NGX_OK ++ [NGX_DONE], p', [], acts)
    ∧ queries acts = asked st (pending st p) l
    ∧ passed acts = (if header_sent p then [] else [ct_header st]) ++ map output_filter chs ++ [finalize NGX_OK]
    ∧ Forall (.≠ []) chs ∧ Forall (sendable st) (concat chs)
    ∧ consumes start (sent ++ map ddata (concat chs)) at_end.
Proof.
  intros Hb Hes. induction Hes as [|e es He Hes IH]; intros l ph sent p Hl Hf Hs Hr; [done|].
  destruct (event_progress st Hb e He start sent l ph p Hf Hs Hr) as (rc & p1 & l1 & a1 & E1 & Q1 & H).
  cbn [process_all]. rewrite E1. cbn [length] in Hl.
  destruct H as [(bufs & ph1 & -> & P1 & W1 & H1 & B1 & F1 & S1 & R1)|(bufs & -> & -> & W1 & Hne & P1 & B1 & C1)].
  - rewrite W1 in Hl |- *.
    destruct (IH l1 ph1 (sent ++ map ddata bufs) p1) as (p2 & a2 & chs & -> & Q2 & P2 & N2 & B2 & C2); [lia|done..|].
    eexists _, _, (match bufs with [] => chs | _ => bufs :: chs end). split; [reflexivity|].
    rewrite queries_app, passed_app, Q2, P1, P2, H1. split; [done|].
    destruct bufs as [|b bufs].
    + rewrite app_nil_r in C2. by destruct (header_sent p).
    + split; [by destruct (header_sent p)|]. split; [by constructor|]. cbn [concat].
      split; [by apply Forall_app_2|]. by rewrite map_app, (assoc_L (++)).
  - destruct es; [|rewrite W1 in Hl; done]. cbn [process_all]. rewrite W1.
    eexists _, _, [bufs]. split; [reflexivity|]. cbn [concat]. rewrite !app_nil_r in *.
    split_and!; try done; [|by repeat constructor]. rewrite P1. destruct bufs; [done|]. by destruct (header_sent p).
Qed.

(** A request of a new connection, or of one from the pool. *)
Definition new_mem : dmem := mk_dmem [] [] [] None [] None None 0 false.

Definition new_peer (from_pool names_set : bool) : peer_data :=
  mk_dp (if from_pool then state_db_idle else state_db_connect) names_set 0 false (negb from_pool) false new_mem.

Definition first_phase (st : settings) (from_pool names_set : bool) res cs rows : phase :=
  let names := enable_charset st && negb names_set in
  if from_pool then ph_start names res cs rows else ph_connect names res cs rows.

Lemma new_peer_ready (st : settings) (from_pool names_set : bool) res cs rows :
  ready st (at_header (rds_header res) (map rds_col cs) rows) [] (first_phase st from_pool names_set res cs rows)
    (new_peer from_pool names_set).
Proof.
  unfold first_phase, new_peer, ph_start.
  split; [by split|]. split; [done|]. split.
  - exists (at_header (rds_header res) (map rds_col cs) rows).
    destruct from_pool; [destruct (_ && _)|]; split; constructor.
  - destruct from_pool; cbn [at_phase]; [|done].
    destruct (enable_charset st && negb names_set) eqn:E; cbn [at_phase]; auto.
Qed.

(** C6. The drizzle module turns the answers of the data base into an RDS stream:
    for every result that the format can hold, however its answers arrive (any waits
    between them, fields in any pieces), and for every buffer size above 0, each
    event succeeds and the last one ends the request. The query that sets the
    character set is sent first when it is configured and not yet done; then one
    response header is sent, then buffers alone, never an empty list of them; the
    buffers hold the stream of the result, cut between its atoms or inside the data
    of a field; no buffer holds more than its memory. *)
Theorem drizzle_stream (st : settings) (from_pool names_set : bool) (res : drizzle_result_st)
    (cs : list drizzle_column_st) (rows : list (list field)) (l : list answer) (es : list env) :
  0 < buf_size st → dresult_fits res cs → Forall (Forall field_fits) rows →
  serves (first_phase st from_pool names_set res cs rows) l →
  Forall env_ok es → length es = S (waits l) →
  ∃ p acts chs,
    process_all st es l (new_peer from_pool names_set)
    = Some (replicate (waits l) NGX_OK ++ [NGX_DONE], p, [], acts)
    ∧ queries acts = asked st (enable_charset st && negb names_set) l
    ∧ passed acts = [ct_header st] ++ map output_filter chs ++ [finalize NGX_OK]
    ∧ Forall (.≠ []) chs ∧ Forall (sendable st) (concat chs)
    ∧ consumes (at_header (rds_header res) (map rds_col cs) rows) (map ddata (concat chs)) at_end.
Proof.
  intros Hb Hres Hrows Hs Hes Hl.
  destruct (all_progress st (at_header (rds_header res) (map rds_col cs) rows) es Hb Hes l
    (first_phase st from_pool names_set res cs rows) [] (new_peer from_pool names_set)) as (p & acts & chs & E & Q & P & H).
  - done.
  - unfold first_phase, ph_start. destruct from_pool; [destruct (_ && _)|]; done.
  - done.
  - apply new_peer_ready.
  - exists p, acts, chs. done.
Qed.

(** The answers to a query on a new connection that sets the character set first: a
    column, a row with a field in two pieces and NULL, waits in between. *)
Definition example_settings : settings := mk_settings 8 true (bs "select a, b from t") (bs "set names utf8") true.

Definition example_result : drizzle_result_st := mk_result 0 [] 0 0 2.

Definition example_columns : list drizzle_column_st :=
  [mk_dcol DRIZZLE_COLUMN_TYPE_LONG (bs "a"); mk_dcol DRIZZLE_COLUMN_TYPE_VAR_STRING (bs "b")].

Definition example_answers : list answer :=
  [con_connect 1; con_connect 0; query 0 0 (mk_result 0 [] 0 0 0); query 1 0 example_result; query 0 0 example_result;
   column_read 0 (Some (mk_dcol DRIZZLE_COLUMN_TYPE_LONG (bs "a"))); column_read 1 None;
   column_read 0 (Some (mk_dcol DRIZZLE_COLUMN_TYPE_VAR_STRING (bs "b"))); column_read 0 None;
   row_read 0 1; field_read 0 0 1 1 (Some (bs "7")); field_read 0 0 0 5 None;
   field_read 0 0 2 5 (Some (bs "he")); field_read 1 0 0 0 None; field_read 0 2 3 5 (Some (bs "llo"));
   field_read 19 0 0 0 None; row_read 1 0; row_read 0 2; field_read 0 0 0 0 None; field_read 0 0 0 0 (Some []);
   field_read 19 0 0 0 None; row_read 0 0].

Definition example_table : list (list field) := [[Some (bs "7"); Some (bs "hello")]; [None; Some []]].

Lemma example_served : serves (first_phase example_settings false false example_result example_columns example_table) example_answers.
Proof.
  apply sv_wait; [done|done|]. apply sv_connect, sv_names; [done|]. apply sv_wait; [done|done|].
  apply sv_query, sv_col. apply sv_wait; [done|done|]. apply sv_col, sv_cols_end, sv_row; [done|].
  apply (sv_first (bs "7") [] []); [done|done|]. apply (sv_announced (bs "hello")); [done|].
  apply (sv_first (bs "he") (bs "llo") []); [done|done|]. apply sv_wait; [done|done|].
  apply (sv_piece 2 (bs "llo") [] []); [done|done|done|]. apply sv_row_end. apply sv_wait; [done|done|].
  apply sv_row; [done|]. apply sv_null, sv_empty, sv_row_end, sv_end.
Qed.

Lemma drizzle_stream_witness :
  ∃ p acts chs,
    process_all example_settings (replicate 6 (mk_env 0 0 1)) example_answers (new_peer false false)
    = Some (replicate 5 NGX_OK ++ [NGX_DONE], p, [], acts)
    ∧ queries acts = [bs "set names utf8"; bs "select a, b from t"; bs "select a, b from t"]
    ∧ consumes (at_header (rds_header example_result) (map rds_col example_columns) example_table)
        (map ddata (concat chs)) at_end.
Proof.
  destruct (drizzle_stream example_settings false false example_result example_columns example_table example_answers
    (replicate 6 (mk_env 0 0 1))) as (p & acts & chs & E & Q & _ & _ & _ & C).
  - done.
  - split; [unfold header_fits; cbn; lia|]. repeat constructor; cbn; done || lia.
  - repeat constructor.
  - apply example_served.
  - repeat constructor.
  - done.
  - exists p, acts, chs. split; [exact E|]. split; [exact Q|exact C].
Defined.

(** ** Errors *)

(** What the client gets for an error of the data base. *)
Inductive db_error :=
  | connect_error (ret : Z)
  | query_error (ret code : Z) (res : drizzle_result_st)
  | column_error (ret : Z) (col : option drizzle_column_st)
  | row_error (ret row : Z)
  | field_error (ret offset len total : Z) (f : option bytes).

Definition error_answer (x : db_error) : answer :=
  match x with
  | connect_error ret => con_connect ret
  | query_error ret code res => query ret code res
  | column_error ret col => column_read ret col
  | row_error ret row => row_read ret row
  | field_error ret offset len total f => field_read ret offset len total f
  end.

(** The state in which an error can come; [row_error] and [field_error] differ in
    whether a row was begun, and when a query is answered nothing was put out. *)
Definition error_state (x : db_error) (p : peer_data) : Prop :=
  match x with
  | connect_error _ => state p = state_db_connect
  | query_error _ _ _ =>
      (state p = state_db_send_query ∨ state p = state_db_idle) ∧ out_bufs (mem p) = [] ∧ seen_stream_end (mem p) = false
  | column_error _ _ => state p = state_db_recv_cols
  | row_error _ _ => state p = state_db_recv_rows ∧ drizzle_row p = 0
  | field_error _ _ _ _ _ => state p = state_db_recv_rows ∧ drizzle_row p ≠ 0
  end.

Definition is_error (x : db_error) : Prop :=
  match x with
  | connect_error ret | query_error ret _ _ | column_error ret _ | row_error ret _ =>
      ret ≠ DRIZZLE_RETURN_OK ∧ ret ≠ DRIZZLE_RETURN_IO_WAIT
  | field_error ret _ _ _ _ =>
      ret ≠ DRIZZLE_RETURN_OK ∧ ret ≠ DRIZZLE_RETURN_IO_WAIT ∧ ret ≠ DRIZZLE_RETURN_ROW_END
  end.

(** The error that a table does not exist. *)
Definition no_such_table (x : db_error) : bool :=
  match x with query_error ret code _ => (ret =? DRIZZLE_RETURN_ERROR_CODE) && (code =? MYSQL_ER_NO_SUCH_TABLE) | _ => false end.

(** The code of the event and what was done: a query on a table that does not exist is
    answered with 410, other queries that fail with 500; after any other error the
    request is handed to [ngx_http_upstream_drizzle_next].  [names]: the query that failed
    is the one that sets the character set. *)
Definition error_outcome (st : settings) (names : bool) (x : db_error) : Z * list action :=
  match x with
  | query_error _ _ _ =>
      let sent := send_query_text (if names then set_names_query st else query_text st) in
      if no_such_table x then (NGX_DONE, [sent; finalize NGX_HTTP_GONE])
      else (NGX_ERROR, [sent; finalize NGX_HTTP_INTERNAL_SERVER_ERROR])
  | _ => (NGX_ERROR, [upstream_next])
  end.

Lemma neq_eqb (a b : Z) : a ≠ b → (a =? b) = false.
Proof. apply Z.eqb_neq. Qed.

Lemma query_error_ends (st : settings) (e : env) (x : db_error) (l : list answer) (p : peer_data) (ret code : Z) (res : drizzle_result_st) :
  x = query_error ret code res → is_error x → error_state x p → pending st p && no_such_table x = false →
  ∃ p', ngx_http_drizzle_process_events st e (error_answer x :: l) p
        = Some ((error_outcome st (pending st p) x).1, p', l, (error_outcome st (pending st p) x).2).
Proof.
  intros -> [H1 H2] (Hst & Ho & Hseen) Ht. cbn [no_such_table error_answer error_outcome] in *. set (gone := (ret =? DRIZZLE_RETURN_ERROR_CODE) && (code =? MYSQL_ER_NO_SUCH_TABLE)) in *.
  assert (Hq : ∃ p', ngx_http_upstream_drizzle_send_query st e (query ret code res :: l) p
    = Some (if gone then NGX_DONE else NGX_HTTP_INTERNAL_SERVER_ERROR,
        p', l, [send_query_text (if pending st p then set_names_query st else query_text st)] ++ (if gone then [finalize NGX_HTTP_GONE] else []))).
  { cbn [ngx_http_upstream_drizzle_send_query]. fold (pending st p) gone. rewrite !neq_eqb by done. cbn [negb].
    destruct gone; [|(eexists; reflexivity)]. rewrite andb_true_r in Ht. rewrite Ht.
    unfold ngx_http_upstream_drizzle_done, ngx_http_drizzle_output_bufs. cbn [mem set_write_timer].
    rewrite Hseen, Ho. cbn [length Nat.eqb negb]. rewrite andb_false_r. eexists. reflexivity. }
  destruct Hq as [p' Hq]. unfold ngx_http_drizzle_process_events. destruct Hst as [-> | ->]; rewrite Hq; destruct gone; eexists; reflexivity.
Qed.

(** C9. An error that comes as the next answer of the data base ends the request, in
    every state of the processor: no answer is asked for after it, nothing more of
    the stream is passed on, and the client gets what [error_outcome] says (a failed
    query is taken to be answered before anything was put out). The one exception is
    the error 1146 (no such table) for the query that sets the character set: it is
    skipped and the query of the request is sent. Once the response header was sent,
    any error ends the response as if it were complete. *)
Theorem drizzle_errors (st : settings) (e : env) (x : db_error) (l : list answer) (p : peer_data)
    (cached connection_error : bool) :
  is_error x → error_state x p →
  (if pending st p && no_such_table x
   then ngx_http_drizzle_process_events st e (error_answer x :: l) p
        = after [send_query_text (set_names_query st)]
            (ngx_http_drizzle_process_events st e l (set_has_set_names true (set_write_timer false p)))
   else ∃ p', ngx_http_drizzle_process_events st e (error_answer x :: l) p
              = Some ((error_outcome st (pending st p) x).1, p', l, (error_outcome st (pending st p) x).2))
  ∧ ngx_http_upstream_drizzle_finalize_request true (ngx_http_upstream_drizzle_next cached connection_error) = Some (inr tt)
  ∧ ngx_http_upstream_drizzle_finalize_request false (ngx_http_upstream_drizzle_next cached connection_error)
    = Some (inl (ngx_http_upstream_drizzle_next cached connection_error)).
Proof.
  intros Hx Hst. split; [|by destruct cached, connection_error].
  destruct (pending st p && no_such_table x) eqn:Et.
  - apply andb_true_iff in Et as [Hp Ht]. destruct x as [|ret code res| | |]; try done. destruct Hx as [H1 H2]. destruct Hst as (Hst & _).
    assert (Hq : ngx_http_upstream_drizzle_send_query st e (query ret code res :: l) p
      = after [send_query_text (set_names_query st)] (ngx_http_upstream_drizzle_send_query st e l (set_has_set_names true (set_write_timer false p)))).
    { cbn [ngx_http_upstream_drizzle_send_query]. fold (pending st p). cbn in Ht. rewrite Hp, Ht. by rewrite !neq_eqb by done. }
    unfold ngx_http_drizzle_process_events. cbn [state set_has_set_names set_write_timer error_answer].
    destruct Hst as [-> | ->]; rewrite Hq; destruct (ngx_http_upstream_drizzle_send_query st e l _) as [ [ [ [rc p'] l'] acts]|]; try done; cbn [after];
      repeat case_match; by simplify_eq/=.
  - destruct x as [ret|ret code res|ret col|ret row|ret offset len total f]; [|by eapply query_error_ends|..]; clear Et;
      unfold ngx_http_drizzle_process_events; cbn [is_error error_state error_answer] in *.
    + rewrite Hst. cbn [ngx_http_upstream_drizzle_connect]. destruct Hx as [H1 H2]. rewrite !neq_eqb by done. eexists. reflexivity.
    + rewrite Hst. cbn [ngx_http_upstream_drizzle_recv_cols]. destruct Hx as [H1 H2]. rewrite !neq_eqb by done. eexists. reflexivity.
    + destruct Hst as [-> Hr]. cbn [ngx_http_upstream_drizzle_recv_rows]. rewrite Hr. cbn [Z.eqb].
      destruct Hx as [H1 H2]. rewrite !neq_eqb by done. eexists. reflexivity.
    + destruct Hst as [-> Hr]. cbn [ngx_http_upstream_drizzle_recv_rows]. rewrite (neq_eqb _ 0) by done.
      destruct Hx as (H1 & H2 & H3). rewrite !neq_eqb by done. eexists. reflexivity.
Qed.

Lemma drizzle_errors_witness :
  ∃ p', ngx_http_drizzle_process_events example_settings (mk_env 0 0 0)
          [query DRIZZLE_RETURN_ERROR_CODE MYSQL_ER_NO_SUCH_TABLE example_result] (new_peer true true)
        = Some (NGX_DONE, p', [], [send_query_text (bs "select a, b from t"); finalize NGX_HTTP_GONE]).
Proof.
  apply (drizzle_errors example_settings (mk_env 0 0 0)
    (query_error DRIZZLE_RETURN_ERROR_CODE MYSQL_ER_NO_SUCH_TABLE example_result) [] (new_peer true true) false false);
    [done|split; [by right|done] ].
Defined.

End DrizzleProof.
