(* ===== verification/MySqlJson.v ===== *)
(** From the data base to the client: the drizzle module as the content handler and the
    rds-json filter on its way out, as in the locations of src/nginx_http_back_end/conf/nginx.conf with
    [drizzle_pass] and [rds_json on].  The header and the buffers that the drizzle module
    passes on are what the filter gets; the codes that the filter returns are what the
    drizzle module sees. *)

From S2P Require Import Prelude NgxNumber NgxEscape SetMisc Redis2 RdsStream RdsJsonOut Json RdsJsonFilter RdsJsonProof RdsJsonSafe RdsJsonTable RdsJsonConf RdsJsonReply Drizzle DrizzleProof.

Open Scope Z_scope.

Module MySqlJson.

Export RdsJsonReply.
Import Json.

(** * Specification *)

(** The filter postpones the header and takes every list of buffers: the drizzle module
    sees [NGX_OK] for both. *)
Definition taken (e : Drizzle.env) : Prop := Drizzle.e_header e = NGX_OK ∧ Drizzle.e_body e = NGX_OK.

(** The calls of the filter for the lists of buffers that the drizzle module passes on. *)
Definition filter_input (fs : list env) (chs : list (list Drizzle.dbuf)) : list (env * list bytes) :=
  zip fs (map (map Drizzle.ddata) chs).

(** ** The value of a result

    In terms of the types of MySQL alone, by their numbers in its protocol: integers are
    TINY, SHORT, LONG, LONGLONG, INT24 and YEAR, other numbers are DECIMAL, FLOAT, DOUBLE and
    NEWDECIMAL. *)

Definition mysql_int (t : Z) : bool := bool_decide (t ∈ [1; 2; 3; 8; 9; 13]).
Definition mysql_float (t : Z) : bool := bool_decide (t ∈ [0; 4; 5; 246]).

Definition mysql_value (c : Drizzle.drizzle_column_st) (f : field) : json :=
  match f with
  | None => JNull
  | Some [] => JStr []
  | Some d => if mysql_int (Drizzle.column_type c) || mysql_float (Drizzle.column_type c) then JNum d else JStr d
  end.

Definition mysql_rows (fmt : Z) (cs : list Drizzle.drizzle_column_st) (rows : list (list field)) : json :=
  let names := map Drizzle.column_name cs in
  if fmt =? json_format_normal then JArr (map (fun fs => JObj (zip names (zip_with mysql_value cs fs))) rows)
  else JArr (JArr (map JStr names) :: map (fun fs => JArr (zip_with mysql_value cs fs)) rows).

(** The rows, below the configured root and beside the configured properties. *)
Definition mysql_table (nm : conf_names) (fmt : Z) (cs : list Drizzle.drizzle_column_st) (rows : list (list field)) : json :=
  match root_name nm with
  | None => mysql_rows fmt cs rows
  | Some k => JObj (members nm ++ [(k, mysql_rows fmt cs rows)])
  end.

(** A field of a column: numbers are numbers of JSON, integers digits after an optional
    minus sign. *)
Definition mysql_field (c : Drizzle.drizzle_column_st) (f : field) : Prop :=
  match f with
  | None => True
  | Some d =>
      Forall is_byte d ∧ field_fits f
      ∧ (d ≠ [] → mysql_int (Drizzle.column_type c) || mysql_float (Drizzle.column_type c) = true → json_number d = true)
      ∧ (d ≠ [] → mysql_int (Drizzle.column_type c) = true → int_chars d = true)
  end.

Record mysql_result (cs : list Drizzle.drizzle_column_st) (rows : list (list field)) : Prop := {
  my_cols : cs ≠ [];
  my_names : Forall (fun c => Forall is_byte (Drizzle.column_name c)) cs;
  my_rows : Forall (Forall2 mysql_field cs) rows;
  my_count : Z.of_nat (length rows) < 2 ^ 64
}.

(** * Theorems *)

Lemma rough_mysql (c : Drizzle.drizzle_column_st) :
  rough_type (DrizzleProof.rds_col c)
  = if mysql_int (Drizzle.column_type c) then rds_rough_col_type_int
    else if mysql_float (Drizzle.column_type c) then rds_rough_col_type_float else rds_rough_col_type_str.
Proof.
  unfold rough_type, DrizzleProof.rds_col. cbn [std_type]. set (t := Drizzle.column_type c). clearbody t. destruct (decide (0 <= t < 256)) as [Ht|Ht].
  - by apply (range_check_prop 256 (fun t => Z.land (DrizzleProof.rds_type t) 0xc000 = if mysql_int t then rds_rough_col_type_int
      else if mysql_float t then rds_rough_col_type_float else rds_rough_col_type_str)).
  - rewrite DrizzleProof.rds_type_unknown by done. unfold mysql_int, mysql_float.
    rewrite !bool_decide_eq_false_2; [done|..]; rewrite !elem_of_cons, elem_of_nil; lia.
Qed.

(** The test for a number in the filter. *)
Lemma rough_number (c : Drizzle.drizzle_column_st) :
  (rough_type (DrizzleProof.rds_col c) =? rds_rough_col_type_int) || (rough_type (DrizzleProof.rds_col c) =? rds_rough_col_type_float)
  = mysql_int (Drizzle.column_type c) || mysql_float (Drizzle.column_type c).
Proof. rewrite rough_mysql. by destruct (mysql_int (Drizzle.column_type c)), (mysql_float (Drizzle.column_type c)). Qed.

Lemma rough_no_bool (c : Drizzle.drizzle_column_st) : (rough_type (DrizzleProof.rds_col c) =? rds_rough_col_type_bool) = false.
Proof. rewrite rough_mysql. by destruct (mysql_int (Drizzle.column_type c)), (mysql_float (Drizzle.column_type c)). Qed.

Lemma mysql_table_ast nm fmt cs rows : table_ast nm fmt (map DrizzleProof.rds_col cs) rows = mysql_table nm fmt cs rows.
Proof.
  assert (Hr : ∀ fs, row_values (map DrizzleProof.rds_col cs) fs = zip_with mysql_value cs fs).
  { intros fs. unfold row_values. revert fs. induction cs as [|c cs IH]; intros [|f fs]; try done. cbn. rewrite IH. f_equal.
    unfold value_ast, mysql_value. by rewrite rough_number, rough_no_bool. }
  assert (Hn : names (map DrizzleProof.rds_col cs) = map Drizzle.column_name cs) by (unfold names; by rewrite map_map).
  unfold table_ast, mysql_table, rows_ast, mysql_rows. rewrite Hn.
  assert (E1 : map (fun fs => JObj (zip (map Drizzle.column_name cs) (row_values (map DrizzleProof.rds_col cs) fs))) rows
    = map (fun fs => JObj (zip (map Drizzle.column_name cs) (zip_with mysql_value cs fs))) rows) by (apply map_ext; intros fs; by rewrite Hr).
  assert (E2 : map (fun fs => JArr (row_values (map DrizzleProof.rds_col cs) fs)) rows = map (fun fs => JArr (zip_with mysql_value cs fs)) rows)
    by (apply map_ext; intros fs; by rewrite Hr).
  by rewrite E1, E2.
Qed.

(** A field of MySQL is one that the filter accepts and that JSON can hold. *)
Lemma mysql_field_ok c f :
  mysql_field c f → (field_ok (DrizzleProof.rds_col c) f = true ∧ field_fits f) ∧ json_field (DrizzleProof.rds_col c) f.
Proof.
  destruct f as [d|]; [|done]. intros (Hb & Hf & Hn & Hi). split; [split; [|done]|split; [done|by rewrite rough_number] ].
  cbn [field_ok]. destruct d as [|x d]; [done|]. rewrite rough_no_bool, rough_mysql. destruct (mysql_int (Drizzle.column_type c)) eqn:Ei; [by apply Hi|by destruct (mysql_float (Drizzle.column_type c))].
Qed.

Lemma mysql_result_ok cs rows : Forall DrizzleProof.dcol_fits cs → mysql_result cs rows → result_ok (map DrizzleProof.rds_col cs) rows.
Proof.
  intros Hc [H1 H2 H3 H4]. assert (Hrows : Forall (fun fs => row_ok (map DrizzleProof.rds_col cs) fs ∧ Forall2 json_field (map DrizzleProof.rds_col cs) fs) rows).
  { eapply Forall_impl; [exact H3|]. intros fs Hf. unfold row_ok. rewrite !Forall2_fmap_l. split; (eapply Forall2_impl; [exact Hf|]); cbn; intros c f H; apply mysql_field_ok in H; tauto. }
  split.
  - by destruct cs.
  - apply Forall_map. eapply Forall_impl; [exact Hc|]. apply DrizzleProof.rds_col_fits.
  - apply Forall_map. exact H2.
  - split; [|lia]. eapply Forall_impl; [exact Hrows|]. by intros fs [? _].
  - eapply Forall_impl; [exact Hrows|]. by intros fs [_ ?].
Qed.

Lemma filter_input_chains (fs : list env) (chs : list (list Drizzle.dbuf)) :
  length fs = length chs → chains (filter_input fs chs) = map Drizzle.ddata (concat chs).
Proof.
  intros Hl. unfold chains, filter_input. rewrite snd_zip by (rewrite length_map; lia).
  by rewrite concat_map.
Qed.

Lemma filter_input_ok (st : Drizzle.settings) (fs : list env) (chs : list (list Drizzle.dbuf)) :
  Drizzle.buf_size st < 2 ^ 32 → Forall env_ok fs → Forall (.≠ []) chs →
  Forall (DrizzleProof.sendable st) (concat chs) → Forall call_ok (filter_input fs chs).
Proof.
  intros Hb Hfs. revert chs. unfold filter_input. induction Hfs as [|f fs Hf Hfs IH]; intros chs Hne Hs; [constructor|].
  destruct Hne as [|ch chs Hch Hne]; [constructor|]. cbn [concat] in Hs. apply Forall_app in Hs as [Hs1 Hs2].
  cbn [map zip_with]. constructor; [|by apply IH]. split_and!; [done|by destruct ch|].
  unfold small. cbn [snd]. apply Forall_map. eapply Forall_impl; [exact Hs1|].
  intros b [H1 [_ H2]]. unfold DrizzleProof.buf_ok, DrizzleProof.cap_max in *. lia.
Qed.

Lemma taken_ok (es : list Drizzle.env) : Forall taken es → Forall DrizzleProof.env_ok es.
Proof. intros H. eapply Forall_impl; [exact H|]. intros e [H1 H2]. unfold DrizzleProof.env_ok. by rewrite H1, H2. Qed.

Lemma drizzle_fields_fit C rows : result_ok C rows → Forall (Forall field_fits) rows.
Proof.
  intros [_ _ _ [Hr _] _]. eapply Forall_impl; [exact Hr|]. intros fs Hf.
  clear Hr. induction Hf as [|c f C' fs' [_ H] Hf IH]; [apply Forall_nil_2|by apply Forall_cons_2].
Qed.

Section Pipeline.
Context {V : Type} (evaluate : V → option bytes) (conf : ngx_http_rds_json_loc_conf_t (V := V)) (is_main : bool).
Context (vs : list (bytes * bytes * Z)) (nm : conf_names) (st : Drizzle.settings).
Context (Hconf : conf_ok evaluate conf vs) (Hnm : named conf nm (values_of vs)) (Hn : names_ok nm).
Context (Hsize : 0 < Drizzle.buf_size st < 2 ^ 32).

(** What the drizzle module passes on for a request, and what the filter makes of it. *)
Lemma pipeline_stream (from_pool names_set : bool) res cs rows l es :
  DrizzleProof.dresult_fits res cs → Forall (Forall field_fits) rows →
  DrizzleProof.serves (DrizzleProof.first_phase st from_pool names_set res cs rows) l →
  Forall taken es → length es = S (DrizzleProof.waits l) →
  ∃ p acts chs,
    DrizzleProof.process_all st es l (DrizzleProof.new_peer from_pool names_set)
    = Some (replicate (DrizzleProof.waits l) NGX_OK ++ [NGX_DONE], p, [], acts)
    ∧ DrizzleProof.passed acts
      = [DrizzleProof.ct_header st] ++ map Drizzle.output_filter chs ++ [Drizzle.finalize NGX_OK]
    ∧ consumes (at_header (DrizzleProof.rds_header res) (map DrizzleProof.rds_col cs) rows)
        (map Drizzle.ddata (concat chs)) at_end
    ∧ ∀ fs, length fs = length chs → Forall env_ok fs →
        Forall call_ok (filter_input fs chs)
        ∧ consumes (at_header (DrizzleProof.rds_header res) (map DrizzleProof.rds_col cs) rows)
            (chains (filter_input fs chs)) at_end.
Proof.
  intros Hres Hrows Hs Hes Hl.
  destruct (DrizzleProof.all_progress st (at_header (DrizzleProof.rds_header res) (map DrizzleProof.rds_col cs) rows) es
    (proj1 Hsize) (taken_ok es Hes) l (DrizzleProof.first_phase st from_pool names_set res cs rows) []
    (DrizzleProof.new_peer from_pool names_set)) as (p & acts & chs & E & _ & P & Hne & Hsend & C).
  - done.
  - unfold DrizzleProof.first_phase, DrizzleProof.ph_start. destruct from_pool; [destruct (_ && _)|]; done.
  - done.
  - apply DrizzleProof.new_peer_ready.
  - exists p, acts, chs. split; [exact E|]. split; [exact P|]. split; [exact C|]. intros fs Hf Hfs.
    split; [apply (filter_input_ok st); [lia|done..]|]. by rewrite filter_input_chains.
Qed.

End Pipeline.

(** The header of a drizzle response makes the filter take the response over. *)
Lemma header_taken {V : Type} (conf : ngx_http_rds_json_loc_conf_t (V := V)) (cl : option Z) (inmem : bool) ctx :
  enabled conf ≠ 0 →
  ngx_http_rds_json_header_filter conf (mk_response Drizzle.NGX_HTTP_OK rds_content_type cl inmem ctx)
  = (false, mk_response Drizzle.NGX_HTTP_OK (default [] (content_type conf)) None true (Some new_ctx)).
Proof.
  intros He. unfold ngx_http_rds_json_header_filter. cbn [status resp_content_type].
  change ((Drizzle.NGX_HTTP_OK <? NGX_HTTP_OK) || (Drizzle.NGX_HTTP_OK >=? NGX_HTTP_SPECIAL_RESPONSE)
     || (Drizzle.NGX_HTTP_OK =? NGX_HTTP_NO_CONTENT) || (Drizzle.NGX_HTTP_OK =? NGX_HTTP_RESET_CONTENT)) with false.
  cbv iota. by rewrite (proj2 (Z.eqb_neq _ 0)).
Qed.

(** C5. From MySQL to JSON. The result of the query fits the stream (fewer than 2^16
    columns, with names that are not empty and shorter than 2^16 bytes, fields below
    2^32 - 1 bytes) and has numbers in its numeric columns; both buffer sizes are
    above 0 (that of drizzle below 2^32), the filter is on, its user properties have
    values, and the next filters give no errors. Then, however the answers of the
    data base arrive, the drizzle module sends the header that makes the rds-json
    filter take the response over, passes on lists of buffers, and ends the request;
    the filter, called with these lists one after the other, returns [NGX_OK] for
    each (which is what the drizzle module was told), sends one response header and
    then text that is JSON and whose value is the table of the result
    ([mysql_table]): null, numbers for the numeric types of MySQL, strings for all
    others. *)
Theorem mysql_json {V : Type} (evaluate : V → option bytes) (conf : ngx_http_rds_json_loc_conf_t (V := V))
    (is_main : bool) (vs : list (bytes * bytes * Z)) (nm : conf_names) (st : Drizzle.settings)
    (from_pool names_set : bool) (res : Drizzle.drizzle_result_st) (cs : list Drizzle.drizzle_column_st)
    (rows : list (list field)) (l : list Drizzle.answer) (es : list Drizzle.env) :
  conf_ok evaluate conf vs → named conf nm (values_of vs) → names_ok nm → enabled conf ≠ 0 →
  0 < Drizzle.buf_size st < 2 ^ 32 → DrizzleProof.dresult_fits res cs →
  mysql_result cs rows →
  DrizzleProof.serves (DrizzleProof.first_phase st from_pool names_set res cs rows) l →
  Forall taken es → length es = S (DrizzleProof.waits l) →
  ∃ p acts chs,
    DrizzleProof.process_all st es l (DrizzleProof.new_peer from_pool names_set)
    = Some (replicate (DrizzleProof.waits l) NGX_OK ++ [NGX_DONE], p, [], acts)
    ∧ DrizzleProof.passed acts
      = [Drizzle.send_header NGX_HTTP_OK rds_content_type (Drizzle.enable_module_header st)]
        ++ map Drizzle.output_filter chs ++ [Drizzle.finalize NGX_OK]
    ∧ (∀ cl inmem ctx, ngx_http_rds_json_header_filter conf (mk_response NGX_HTTP_OK rds_content_type cl inmem ctx)
         = (false, mk_response NGX_HTTP_OK (default [] (content_type conf)) None true (Some new_ctx)))
    ∧ ∀ fs, length fs = length chs → Forall env_ok fs →
        ∃ s out init b,
          filter_calls evaluate conf is_main (map mem_call (filter_input fs chs)) (Some new_ctx)
          = Some (replicate (length chs) NGX_OK, Some s, next_header :: out)
          ∧ Forall (fun a => ∃ bufs, a = next_body bufs) out
          ∧ json_decode (sent out) = Some (mysql_table nm (format conf) cs rows)
          ∧ sent_bufs out = init ++ [b] ∧ Forall unmarked init ∧ (root conf = [] → last_buf b = is_main).
Proof.
  intros Hc Hnm Hn He Hb Hres Hr Hs Hes Hl. apply mysql_result_ok in Hr; [|apply Hres]. rewrite <- mysql_table_ast.
  destruct (pipeline_stream st Hb from_pool names_set res cs rows l es) as (p & acts & chs & E & P & _ & Hf);
    [done|by eapply drizzle_fields_fit|done..|].
  exists p, acts, chs. split; [exact E|]. split; [exact P|]. split; [intros; by apply header_taken|].
  intros fs Hlf Hfs. destruct (Hf fs Hlf Hfs) as [Hok Hcs]. destruct Hres as [Hh _].
  destruct (filter_decodes evaluate conf is_main vs nm (DrizzleProof.rds_header res) (map DrizzleProof.rds_col cs) rows
    (filter_input fs chs)) as (s & out & init & b & E2 & _ & Hbd & Hj & Hrest); [done..|].
  exists s, out, init, b. split; [|done]. rewrite E2. do 3 f_equal. unfold filter_input.
  rewrite length_zip_with, length_map. f_equal. f_equal. lia.
Qed.

(** The location of the example: [rds_json on] with buffers of 16 bytes. *)
Definition json_conf : ngx_http_rds_json_loc_conf_t (V := bytes) :=
  mk_conf 1 json_format_normal (Some (bs "application/json")) [] [] None (json_quote (bs "errcode"))
    (json_quote (bs "errstr")) 16 [] None.

Lemma json_conf_ok : conf_ok Some json_conf [] ∧ named json_conf (mk_names None None []) [] ∧ names_ok (mk_names None None []).
Proof. split; [|split]; [split; [done|by left|done]|by split|split_and!; constructor]. Qed.

Lemma example_table_ok : mysql_result DrizzleProof.example_columns DrizzleProof.example_table.
Proof.
  split; [done| | |cbn; lia].
  - repeat constructor; unfold is_byte; cbn; lia.
  - repeat constructor; try done; unfold is_byte; cbn; lia.
Qed.

Lemma mysql_json_witness :
  ∃ p acts chs,
    DrizzleProof.process_all DrizzleProof.example_settings (replicate 6 (Drizzle.mk_env 0 0 1))
      DrizzleProof.example_answers (DrizzleProof.new_peer false false)
    = Some (replicate 5 NGX_OK ++ [NGX_DONE], p, [], acts)
    ∧ ∀ fs, length fs = length chs → Forall env_ok fs →
        ∃ s out, filter_calls Some json_conf true (map mem_call (filter_input fs chs)) (Some new_ctx)
                 = Some (replicate (length chs) NGX_OK, Some s, next_header :: out)
          ∧ json_decode (sent out)
            = Some (JArr [JObj [(bs "a", JNum (bs "7")); (bs "b", JStr (bs "hello"))];
                          JObj [(bs "a", JNull); (bs "b", JStr [])]]).
Proof.
  destruct json_conf_ok as (C1 & C2 & C3).
  destruct (mysql_json Some json_conf true [] (mk_names None None []) DrizzleProof.example_settings false false
    DrizzleProof.example_result DrizzleProof.example_columns DrizzleProof.example_table DrizzleProof.example_answers
    (replicate 6 (Drizzle.mk_env 0 0 1))) as (p & acts & chs & E & _ & _ & H).
  - exact C1.
  - exact C2.
  - exact C3.
  - done.
  - done.
  - split; [unfold header_fits; cbn; lia|]. repeat constructor; cbn; done || lia.
  - apply example_table_ok.
  - apply DrizzleProof.example_served.
  - repeat constructor.
  - done.
  - exists p, acts, chs. split; [exact E|]. intros fs Hl Hf.
    destruct (H fs Hl Hf) as (s & out & _ & _ & E2 & _ & Hj & _). exists s, out. split; [exact E2|exact Hj].
Defined.

(** ** Results without columns *)

Lemma header_only h rows bufs :
  consumes (at_header h [] rows) bufs at_end → bufs = [header_bytes h].
Proof.
  intros H. inversion H as [|? b r1 bs r2 Hb Hc Hr]; subst. inversion Hc as [|? ? ? b' ? Hc'| | | | | | | |]; subst; [done|].
  cbn [after_header] in Hc'. inversion Hc'; subst. apply consumes_end in Hr as [-> _]. by rewrite app_nil_r.
Qed.

(** The same for a query whose result has no columns (an update, an insert):
    the drizzle module passes on one buffer, and the filter answers with one JSON
    object that holds the error code and, when they are not 0, the insert id and the
    affected rows that the data base reported. *)
Theorem mysql_json_update {V : Type} (evaluate : V → option bytes) (conf : ngx_http_rds_json_loc_conf_t (V := V))
    (is_main : bool) (vs : list (bytes * bytes * Z)) (nm : conf_names) (ek sk : bytes) (st : Drizzle.settings)
    (from_pool names_set : bool) (res : Drizzle.drizzle_result_st) (l : list Drizzle.answer)
    (es : list Drizzle.env) (f : env) :
  conf_ok evaluate conf vs → named conf nm (values_of vs) → names_ok nm →
  errcode_key conf = json_quote ek → errstr_key conf = json_quote sk →
  Forall is_byte (ek ++ sk ++ Drizzle.result_error res) →
  0 < Drizzle.buf_size st < 2 ^ 32 → DrizzleProof.dresult_fits res [] →
  DrizzleProof.serves (DrizzleProof.first_phase st from_pool names_set res [] []) l →
  Forall taken es → length es = S (DrizzleProof.waits l) → env_ok f →
  ∃ p acts buf s bufs,
    DrizzleProof.process_all st es l (DrizzleProof.new_peer from_pool names_set)
    = Some (replicate (DrizzleProof.waits l) NGX_OK ++ [NGX_DONE], p, [], acts)
    ∧ DrizzleProof.passed acts
      = [Drizzle.send_header NGX_HTTP_OK rds_content_type (Drizzle.enable_module_header st);
         Drizzle.output_filter [buf]; Drizzle.finalize NGX_OK]
    ∧ ngx_http_rds_json_body_filter evaluate conf is_main f false [mbuf (Drizzle.ddata buf)] (Some new_ctx)
      = Some (NGX_OK, Some s, [next_header; next_body bufs])
    ∧ json_decode (concat (map data bufs)) = Some (header_ast nm ek sk (DrizzleProof.rds_header res)).
Proof.
  intros Hc Hnm Hn Hek Hsk Hby Hb Hres Hs Hes Hl Hf.
  destruct (pipeline_stream st Hb from_pool names_set res [] [] l es) as (p & acts & chs & E & P & C & Hfi);
    [done|constructor|done..|].
  pose proof (header_only _ _ _ C) as Hbufs.
  assert (Hch : ∃ buf, chs = [[buf]] ∧ Drizzle.ddata buf = header_bytes (DrizzleProof.rds_header res)).
  { destruct (Hfi (replicate (length chs) (mk_env 0 0 0))) as [Hok _]; [by rewrite length_replicate|by apply Forall_replicate|].
    assert (Hne : Forall (.≠ []) chs).
    { clear -Hok. induction chs as [|ch chs IH]; [constructor|]. unfold filter_input in Hok. cbn in Hok.
      apply Forall_cons in Hok as [(_ & Hne & _) Hok]. constructor; [by destruct ch|by apply IH]. }
    destruct Hne as [|ch chs Hne1 Hne]; [done|]. destruct ch as [|b ch]; [done|]. cbn in Hbufs.
    injection Hbufs as Hb1 Hb2. destruct ch; [|done]. destruct Hne as [|ch2 chs2 H2 _]; [by exists b|]. by destruct ch2. }
  destruct Hch as (buf & -> & Hd).
  destruct (filter_header evaluate conf is_main vs (DrizzleProof.rds_header res) f Hc (proj1 Hres) Hf)
    as (s & bufs & _ & _ & E2 & _ & Ht & _).
  exists p, acts, buf, s, bufs. split; [exact E|]. split; [exact P|]. rewrite Hd. split; [exact E2|].
  apply Forall_app in Hby as [B1 [B2 B3]%Forall_app].
  rewrite Ht, (header_print evaluate conf nm vs ek sk Hnm (conf_props _ _ _ Hc) Hek Hsk _ []) by apply Hres.
  apply json_decode_print. eapply header_ast_ok; [done..|apply Hres].
Qed.

Lemma mysql_json_update_witness :
  ∃ p acts buf s bufs,
    DrizzleProof.process_all DrizzleProof.example_settings [Drizzle.mk_env 0 0 0; Drizzle.mk_env 0 0 0]
      [Drizzle.query 1 0 (Drizzle.mk_result 0 [] 2 7 0); Drizzle.query 0 0 (Drizzle.mk_result 0 [] 2 7 0)]
      (DrizzleProof.new_peer true true) = Some ([NGX_OK; NGX_DONE], p, [], acts)
    ∧ ngx_http_rds_json_body_filter Some json_conf true (mk_env 0 0 0) false [mbuf (Drizzle.ddata buf)] (Some new_ctx)
      = Some (NGX_OK, Some s, [next_header; next_body bufs])
    ∧ json_decode (concat (map data bufs))
      = Some (JObj [(bs "errcode", JNum (bs "0")); (bs "insert_id", JNum (bs "7")); (bs "affected_rows", JNum (bs "2"))]).
Proof.
  destruct json_conf_ok as (C1 & C2 & C3).
  destruct (mysql_json_update Some json_conf true [] (mk_names None None []) (bs "errcode") (bs "errstr")
    DrizzleProof.example_settings true true (Drizzle.mk_result 0 [] 2 7 0)
    [Drizzle.query 1 0 (Drizzle.mk_result 0 [] 2 7 0); Drizzle.query 0 0 (Drizzle.mk_result 0 [] 2 7 0)]
    [Drizzle.mk_env 0 0 0; Drizzle.mk_env 0 0 0] (mk_env 0 0 0)) as (p & acts & buf & s & bufs & E & _ & E2 & Hj).
  - exact C1.
  - exact C2.
  - exact C3.
  - done.
  - done.
  - repeat constructor; unfold is_byte; simpl; lia.
  - done.
  - split; [unfold header_fits; cbn; lia|]. constructor.
  - apply DrizzleProof.sv_wait; [done|done|]. apply DrizzleProof.sv_no_cols.
  - repeat constructor.
  - done.
  - done.
  - exists p, acts, buf, s, bufs. split; [exact E|]. split; [exact E2|exact Hj].
Defined.

(** ** A stream that is cut off *)

(** An error of the data base in the middle of a result leaves the client without an end
    of the response: the drizzle module, having sent the header, ends the response as
    if it were complete, with the special buffer that is marked as the last one; the
    filter, in whatever state it is, passes nothing on for this buffer. *)
Theorem mysql_json_cut_off {V : Type} (evaluate : V → option bytes) (conf : ngx_http_rds_json_loc_conf_t (V := V))
    (is_main cached connection_error : bool) (e : env) (s : ngx_http_rds_json_ctx_t) :
  out (mem s) = [] → seen_stream_end (mem s) = false →
  (state s = state_expect_more_field_data → header_sent s = true) →
  Drizzle.ngx_http_upstream_drizzle_finalize_request true
    (Drizzle.ngx_http_upstream_drizzle_next cached connection_error) = Some (inr tt)
  ∧ ∃ rc s', ngx_http_rds_json_body_filter evaluate conf is_main e false [mk_ibuf false true []] (Some s)
             = Some (rc, Some s', []).
Proof.
  intros Ho Hs Hm. split; [by destruct cached, connection_error|].
  unfold ngx_http_rds_json_body_filter. cbn [length Nat.eqb orb].
  destruct (state s) eqn:Est; try (eexists _, _; reflexivity); unfold filter_state; rewrite Est.
  5: { cbn. rewrite Hm by done. eexists _, _. reflexivity. }
  all: cbn -[ngx_http_rds_json_output_bufs]; unfold ngx_http_rds_json_output_bufs; rewrite Hs, Ho;
    eexists _, _; reflexivity.
Qed.

Lemma mysql_json_cut_off_witness :
  ∃ rc s', ngx_http_rds_json_body_filter Some root_conf true (mk_env 0 0 0) false [mk_ibuf false true []] (Some one_row_ctx)
           = Some (rc, Some s', []).
Proof. by apply (mysql_json_cut_off Some root_conf true false false (mk_env 0 0 0) one_row_ctx). Defined.

End MySqlJson.
