(* ===== verification/DrizzleUpstream.v ===== *)
(** The upstream blocks of the drizzle module: src/drizzle-nginx-module-master/src,
    [drizzle_server] and the initialisation of a block (ngx_http_drizzle_upstream.c) and
    [drizzle_keepalive] (ngx_http_drizzle_keepalive.c).

    [ngx_parse_url] and [ngx_sock_ntop] of core/ngx_inet.c are arguments; allocations
    succeed. *)

From S2P Require Import Prelude NgxNumber NgxParse NgxCompare Redis2 RdsJsonFilter RdsJsonConf HttpRequestLine Drizzle.

Open Scope Z_scope.

Module DrizzleUpstream.

Export RdsJsonConf.

(** * Definitions *)

Definition DRIZZLE_MAX_USER_SIZE : nat := 64.
Definition DRIZZLE_MAX_PASSWORD_SIZE : nat := 32.
Definition DRIZZLE_MAX_DB_SIZE : nat := 64.
Definition ngx_http_drizzle_default_port : Z := 3306.

Inductive ngx_http_drizzle_keepalive_overflow_t :=
  | drizzle_keepalive_overflow_ignore | drizzle_keepalive_overflow_reject.

Inductive ngx_http_upstream_drizzle_protocol_t := ngx_http_drizzle_protocol | ngx_http_mysql_protocol.

(** An address: its bytes, whose number is [socklen], and its name. *)
Record ngx_addr_t := mk_addr { addr_sockaddr : bytes; addr_name : bytes }.

Record ngx_http_upstream_drizzle_server_t := mk_server {
  addrs : list ngx_addr_t;
  port : Z;
  user : bytes;
  password : bytes;
  dbname : bytes;
  set_names_query : bytes;
  protocol : ngx_http_upstream_drizzle_protocol_t
}.

Record ngx_http_upstream_drizzle_peer_t := mk_peer {
  peer_sockaddr : bytes;
  peer_name : bytes;
  peer_port : Z;
  peer_user : bytes;
  peer_password : bytes;
  peer_dbname : bytes;
  peer_set_names_query : bytes;
  peer_host : bytes;
  peer_protocol : ngx_http_upstream_drizzle_protocol_t
}.

(** [ngx_http_upstream_drizzle_srv_conf_t], the part that the directives fill in. *)
Record srv_conf := mk_srv_conf {
  servers : list ngx_http_upstream_drizzle_server_t;
  single : bool;
  max_cached : Z;
  overflow : ngx_http_drizzle_keepalive_overflow_t
}.

Definition ngx_http_upstream_drizzle_create_srv_conf : srv_conf :=
  mk_srv_conf [] false 0 drizzle_keepalive_overflow_ignore.

Definition set_servers v (c : srv_conf) := mk_srv_conf v (single c) (max_cached c) (overflow c).
Definition set_single v (c : srv_conf) := mk_srv_conf (servers c) v (max_cached c) (overflow c).
Definition set_max_cached v (c : srv_conf) := mk_srv_conf (servers c) (single c) v (overflow c).
Definition set_overflow v (c : srv_conf) := mk_srv_conf (servers c) (single c) (max_cached c) v.

(** [ngx_strncmp(value, word, sizeof(word) - 1) == 0] for a value that ends in a NUL:
    what follows the word. *)
Fixpoint after_word (word value : bytes) : option bytes :=
  match word, value with
  | [], _ => Some value
  | x :: word, y :: value => if x =? y then after_word word value else None
  | _ :: _, [] => None
  end.

(** [ngx_http_drizzle_strcmp_const(data, word) == 0]. *)
Definition starts_with (word data : bytes) : bool :=
  match after_word word data with Some _ => true | None => false end.

(** ** drizzle_server *)

Section Server.

(** [ngx_parse_url] with the default port: the addresses and the port. *)
Variable parse_url : bytes → Z → option (list ngx_addr_t * Z).

(** One parameter.  [None]: the message about a value that is too long is formatted with
    [dscf->peers->name], and [dscf->peers] is NULL while the block is read. *)
Definition server_param (value : bytes) (ds : ngx_http_upstream_drizzle_server_t)
    : option (conf_error + ngx_http_upstream_drizzle_server_t) :=
  match after_word (bs "dbname=") value with
  | Some v =>
      if (DRIZZLE_MAX_DB_SIZE <=? length v)%nat then None
      else Some (inr (mk_server (addrs ds) (port ds) (user ds) (password ds) v (set_names_query ds) (protocol ds)))
  | None =>
  match after_word (bs "user=") value with
  | Some v =>
      if (DRIZZLE_MAX_USER_SIZE <=? length v)%nat then None
      else Some (inr (mk_server (addrs ds) (port ds) v (password ds) (dbname ds) (set_names_query ds) (protocol ds)))
  | None =>
  match after_word (bs "password=") value with
  | Some v =>
      if (DRIZZLE_MAX_PASSWORD_SIZE <=? length v)%nat then None
      else Some (inr (mk_server (addrs ds) (port ds) (user ds) v (dbname ds) (set_names_query ds) (protocol ds)))
  | None =>
  match after_word (bs "protocol=") value with
  | Some v =>
      if (length v =? 5)%nat then
        if starts_with (bs "mysql") v
        then Some (inr (mk_server (addrs ds) (port ds) (user ds) (password ds) (dbname ds) (set_names_query ds)
                          ngx_http_mysql_protocol))
        else Some (inr ds)
      else if (length v =? 7)%nat then Some (inr ds)
      else Some (inl conf_error_logged)
  | None =>
  match after_word (bs "charset=") value with
  | Some v =>
      if (length v =? 0)%nat then Some (inr ds)
      else if existsb (fun c => c =? "'"%ch) v then Some (inl conf_error_logged)
      else Some (inr (mk_server (addrs ds) (port ds) (user ds) (password ds) (dbname ds)
                        (bs "set names '" ++ v ++ ["'"%ch]) (protocol ds)))
  | None => Some (inl conf_error_logged)
  end end end end end.

Fixpoint server_params (values : list bytes) (ds : ngx_http_upstream_drizzle_server_t)
    : option (conf_error + ngx_http_upstream_drizzle_server_t) :=
  match values with
  | [] => Some (inr ds)
  | value :: values =>
      match server_param value ds with
      | Some (inr ds) => server_params values ds
      | r => r
      end
  end.

Definition ngx_http_upstream_drizzle_server (url : bytes) (values : list bytes) (dscf : srv_conf)
    : option (conf_error + srv_conf) :=
  match parse_url url ngx_http_drizzle_default_port with
  | None => Some (inl conf_error_logged)
  | Some (addrs, port) =>
      match server_params values (mk_server addrs port [] [] [] [] ngx_http_drizzle_protocol) with
      | None => None
      | Some (inl e) => Some (inl e)
      | Some (inr ds) => Some (inr (set_servers (servers dscf ++ [ds]) dscf))
      end
  end.

End Server.

(** ** drizzle_keepalive *)

Definition keepalive_param (value : bytes) (dscf : srv_conf) : conf_error + srv_conf :=
  match after_word (bs "max=") value with
  | Some v =>
      let n := ngx_atoi v in
      if (n =? NGX_ERROR) || (n <? 0) then inl conf_error_logged else inr (set_max_cached n dscf)
  | None =>
  match after_word (bs "mode=") value with
  | Some v =>
      if (length v =? 6)%nat then inr (if starts_with (bs "single") v then set_single true dscf else dscf)
      else if (length v =? 5)%nat then inr (if starts_with (bs "multi") v then set_single false dscf else dscf)
      else inl conf_error_logged
  | None =>
  match after_word (bs "overflow=") value with
  | Some v =>
      if (length v =? 6)%nat then
        inr (if starts_with (bs "reject") v then set_overflow drizzle_keepalive_overflow_reject dscf
             else if starts_with (bs "ignore") v then set_overflow drizzle_keepalive_overflow_ignore dscf
             else dscf)
      else inl conf_error_logged
  | None => inl conf_error_logged
  end end end.

Fixpoint keepalive_params (values : list bytes) (dscf : srv_conf) : conf_error + srv_conf :=
  match values with
  | [] => inr dscf
  | value :: values =>
      match keepalive_param value dscf with
      | inl e => inl e
      | inr dscf => keepalive_params values dscf
      end
  end.

Definition ngx_http_upstream_drizzle_keepalive (values : list bytes) (dscf : srv_conf) : conf_error + srv_conf :=
  if negb (max_cached dscf =? 0) then inl is_duplicate else keepalive_params values dscf.

(** ** ngx_http_upstream_drizzle_init *)

Section Init.
Variable ngx_sock_ntop : bytes → bytes.

Definition make_peer (s : ngx_http_upstream_drizzle_server_t) (a : ngx_addr_t) : ngx_http_upstream_drizzle_peer_t :=
  mk_peer (addr_sockaddr a) (addr_name a) (port s) (user s) (password s) (dbname s) (set_names_query s)
    (ngx_sock_ntop (addr_sockaddr a)) (protocol s).

(** [None] is [NGX_ERROR]: a block without servers. *)
Definition ngx_http_upstream_drizzle_init (dscf : srv_conf) : option (list ngx_http_upstream_drizzle_peer_t) :=
  match servers dscf with
  | [] => None
  | ss => Some (concat (map (fun s => map (make_peer s) (addrs s)) ss))
  end.

End Init.

(** The directives of an upstream block, one after the other. *)
Inductive block_command :=
  | drizzle_server (url : bytes) (values : list bytes)
  | drizzle_keepalive (values : list bytes).

Section Block.
Variable parse_url : bytes → Z → option (list ngx_addr_t * Z).

Definition run_block_command (cmd : block_command) (dscf : srv_conf) : option (conf_error + srv_conf) :=
  match cmd with
  | drizzle_server url values => ngx_http_upstream_drizzle_server parse_url url values dscf
  | drizzle_keepalive values => Some (ngx_http_upstream_drizzle_keepalive values dscf)
  end.

Fixpoint run_block (cmds : list block_command) (dscf : srv_conf) : option (conf_error + srv_conf) :=
  match cmds with
  | [] => Some (inr dscf)
  | cmd :: cmds =>
      match run_block_command cmd dscf with
      | Some (inr dscf) => run_block cmds dscf
      | r => r
      end
  end.

End Block.

End DrizzleUpstream.
