(* ===== verification/DrizzleLocation.v ===== *)
(** The locations of the drizzle module: src/drizzle-nginx-module-master/src, the
    directives with their merge (ngx_http_drizzle_module.c), what the handler decides
    before it creates a connection (ngx_http_drizzle_handler.c), and the choice of the data
    base and the query of a request (ngx_http_upstream_drizzle_init_peer).

    The compiler of complex values and the value of an expression for a request are
    arguments, as are [ngx_http_upstream_add] and the index of the variable
    [$drizzle_thread_id]; allocations succeed. *)

From S2P Require Import Prelude NgxNumber NgxParse NgxCompare HttpRequestLine SetMisc Redis2 RdsJsonOut RdsJsonFilter RdsJsonConf Drizzle DrizzleUpstream.

Open Scope Z_scope.

Module DrizzleLocation.

Import RdsJsonConf Redis2.
Import DrizzleUpstream.

(** * Definitions *)

Definition NGX_HTTP_NOT_ALLOWED : Z := 405.
Definition NGX_HTTP_INTERNAL_SERVER_ERROR : Z := 500.

Definition ngx_drizzle_http_methods : list (bytes * Z) :=
  [(bs "GET", NGX_HTTP_GET); (bs "HEAD", NGX_HTTP_HEAD); (bs "POST", NGX_HTTP_POST); (bs "PUT", NGX_HTTP_PUT);
   (bs "DELETE", NGX_HTTP_DELETE); (bs "MKCOL", NGX_HTTP_MKCOL); (bs "COPY", NGX_HTTP_COPY);
   (bs "MOVE", NGX_HTTP_MOVE); (bs "OPTIONS", NGX_HTTP_OPTIONS); (bs "PROPFIND", NGX_HTTP_PROPFIND);
   (bs "PROPPATCH", NGX_HTTP_PROPPATCH); (bs "LOCK", NGX_HTTP_LOCK); (bs "UNLOCK", NGX_HTTP_UNLOCK);
   (bs "PATCH", NGX_HTTP_PATCH)].

(** [clcf->handler]. *)
Inductive content_handler := drizzle_handler | drizzle_status_handler.

Section Location.
Context {V : Type}.

(** [ngx_drizzle_mixed_t]. *)
Record mixed := mk_mixed { key : Z; sv : bytes; cv : option V }.

(** [conf->complex_target]: [NGX_CONF_UNSET_PTR], NULL, or a value. *)
Inductive target := target_unset | target_null | target_value (t : V).

(** [ngx_http_drizzle_loc_conf_t], with the handler of the location. *)
Record loc_conf := mk_loc_conf {
  upstream : option nat;
  complex_target : target;
  db_name : option (complex_value (V := V));
  default_query : option mixed;
  methods_set : Z;
  queries : option (list mixed);
  connect_timeout : Z;
  send_timeout : Z;
  recv_cols_timeout : Z;
  recv_rows_timeout : Z;
  enable_module_header : Z;
  out_buf_size : Z;
  tid_var_index : Z;
  handled : option content_handler
}.

Definition set_upstream (v : option nat) (s : loc_conf) : loc_conf :=
  mk_loc_conf v (complex_target s) (db_name s) (default_query s) (methods_set s) (queries s)
    (connect_timeout s) (send_timeout s) (recv_cols_timeout s) (recv_rows_timeout s)
    (enable_module_header s) (out_buf_size s) (tid_var_index s) (handled s).
Definition set_complex_target (v : target) (s : loc_conf) : loc_conf :=
  mk_loc_conf (upstream s) v (db_name s) (default_query s) (methods_set s) (queries s)
    (connect_timeout s) (send_timeout s) (recv_cols_timeout s) (recv_rows_timeout s)
    (enable_module_header s) (out_buf_size s) (tid_var_index s) (handled s).
Definition set_db_name (v : option (complex_value (V := V))) (s : loc_conf) : loc_conf :=
  mk_loc_conf (upstream s) (complex_target s) v (default_query s) (methods_set s) (queries s)
    (connect_timeout s) (send_timeout s) (recv_cols_timeout s) (recv_rows_timeout s)
    (enable_module_header s) (out_buf_size s) (tid_var_index s) (handled s).
Definition set_default_query (v : option mixed) (s : loc_conf) : loc_conf :=
  mk_loc_conf (upstream s) (complex_target s) (db_name s) v (methods_set s) (queries s)
    (connect_timeout s) (send_timeout s) (recv_cols_timeout s) (recv_rows_timeout s)
    (enable_module_header s) (out_buf_size s) (tid_var_index s) (handled s).
Definition set_methods_set (v : Z) (s : loc_conf) : loc_conf :=
  mk_loc_conf (upstream s) (complex_target s) (db_name s) (default_query s) v (queries s)
    (connect_timeout s) (send_timeout s) (recv_cols_timeout s) (recv_rows_timeout s)
    (enable_module_header s) (out_buf_size s) (tid_var_index s) (handled s).
Definition set_queries (v : option (list mixed)) (s : loc_conf) : loc_conf :=
  mk_loc_conf (upstream s) (complex_target s) (db_name s) (default_query s) (methods_set s) v
    (connect_timeout s) (send_timeout s) (recv_cols_timeout s) (recv_rows_timeout s)
    (enable_module_header s) (out_buf_size s) (tid_var_index s) (handled s).
Definition set_connect_timeout (v : Z) (s : loc_conf) : loc_conf :=
  mk_loc_conf (upstream s) (complex_target s) (db_name s) (default_query s) (methods_set s)
    (queries s) v (send_timeout s) (recv_cols_timeout s) (recv_rows_timeout s)
    (enable_module_header s) (out_buf_size s) (tid_var_index s) (handled s).
Definition set_send_timeout (v : Z) (s : loc_conf) : loc_conf :=
  mk_loc_conf (upstream s) (complex_target s) (db_name s) (default_query s) (methods_set s)
    (queries s) (connect_timeout s) v (recv_cols_timeout s) (recv_rows_timeout s)
    (enable_module_header s) (out_buf_size s) (tid_var_index s) (handled s).
Definition set_recv_cols_timeout (v : Z) (s : loc_conf) : loc_conf :=
  mk_loc_conf (upstream s) (complex_target s) (db_name s) (default_query s) (methods_set s)
    (queries s) (connect_timeout s) (send_timeout s) v (recv_rows_timeout s)
    (enable_module_header s) (out_buf_size s) (tid_var_index s) (handled s).
Definition set_recv_rows_timeout (v : Z) (s : loc_conf) : loc_conf :=
  mk_loc_conf (upstream s) (complex_target s) (db_name s) (default_query s) (methods_set s)
    (queries s) (connect_timeout s) (send_timeout s) (recv_cols_timeout s) v
    (enable_module_header s) (out_buf_size s) (tid_var_index s) (handled s).
Definition set_enable_module_header (v : Z) (s : loc_conf) : loc_conf :=
  mk_loc_conf (upstream s) (complex_target s) (db_name s) (default_query s) (methods_set s)
    (queries s) (connect_timeout s) (send_timeout s) (recv_cols_timeout s) (recv_rows_timeout s) v
    (out_buf_size s) (tid_var_index s) (handled s).
Definition set_out_buf_size (v : Z) (s : loc_conf) : loc_conf :=
  mk_loc_conf (upstream s) (complex_target s) (db_name s) (default_query s) (methods_set s)
    (queries s) (connect_timeout s) (send_timeout s) (recv_cols_timeout s) (recv_rows_timeout s)
    (enable_module_header s) v (tid_var_index s) (handled s).
Definition set_tid_var_index (v : Z) (s : loc_conf) : loc_conf :=
  mk_loc_conf (upstream s) (complex_target s) (db_name s) (default_query s) (methods_set s)
    (queries s) (connect_timeout s) (send_timeout s) (recv_cols_timeout s) (recv_rows_timeout s)
    (enable_module_header s) (out_buf_size s) v (handled s).
Definition set_handled (v : option content_handler) (s : loc_conf) : loc_conf :=
  mk_loc_conf (upstream s) (complex_target s) (db_name s) (default_query s) (methods_set s)
    (queries s) (connect_timeout s) (send_timeout s) (recv_cols_timeout s) (recv_rows_timeout s)
    (enable_module_header s) (out_buf_size s) (tid_var_index s) v.

Variable compile : bytes → option V.

Definition ngx_http_drizzle_create_loc_conf : loc_conf :=
  mk_loc_conf None target_unset None None 0 None Redis2.NGX_CONF_UNSET_MSEC Redis2.NGX_CONF_UNSET_MSEC
    Redis2.NGX_CONF_UNSET_MSEC Redis2.NGX_CONF_UNSET_MSEC NGX_CONF_UNSET Redis2.NGX_CONF_UNSET_SIZE NGX_CONF_UNSET None.

Definition merge_value (conf prev dflt : Z) : Z :=
  if conf =? NGX_CONF_UNSET then (if prev =? NGX_CONF_UNSET then dflt else prev) else conf.

(** The upstream and the target are not merged; the handler belongs to the location. *)
Definition ngx_http_drizzle_merge_loc_conf (pagesize : Z) (prev conf : loc_conf) : loc_conf :=
  let inherit := match default_query conf, queries conf with None, None => true | _, _ => false end in
  mk_loc_conf (upstream conf) (complex_target conf)
    (match db_name conf with None => db_name prev | d => d end)
    (if inherit then default_query prev else default_query conf)
    (if inherit then methods_set prev else methods_set conf)
    (if inherit then queries prev else queries conf)
    (Redis2.ngx_conf_merge_msec_value (connect_timeout conf) (connect_timeout prev) 60000)
    (Redis2.ngx_conf_merge_msec_value (send_timeout conf) (send_timeout prev) 60000)
    (Redis2.ngx_conf_merge_msec_value (recv_cols_timeout conf) (recv_cols_timeout prev) 60000)
    (Redis2.ngx_conf_merge_msec_value (recv_rows_timeout conf) (recv_rows_timeout prev) 60000)
    (merge_value (enable_module_header conf) (enable_module_header prev) 1)
    (merge_uint Redis2.NGX_CONF_UNSET_SIZE (out_buf_size conf) (out_buf_size prev) pagesize)
    (if tid_var_index conf =? NGX_CONF_UNSET then tid_var_index prev else tid_var_index conf)
    (handled conf).

(** ** drizzle_query *)

(** The method with a name. *)
Definition find_method (word : bytes) : option Z :=
  snd <$> find (fun m => same_word word (fst m)) ngx_drizzle_http_methods.

(** The loop over the names before the query; [set] is [dlcf->methods_set]. *)
Fixpoint query_methods (set : Z) (words : list bytes) (methods : Z) : conf_error + Z :=
  match words with
  | [] => inr methods
  | word :: words =>
      match find_method word with
      | None => inl conf_error_logged
      | Some k =>
          if negb (Z.land set k =? 0) then inl conf_error_logged
          else query_methods set words (Z.lor methods k)
      end
  end.

(** A query with variables is compiled. *)
Definition make_query (methods : Z) (sql : bytes) : conf_error + mixed :=
  if negb (ngx_http_script_variables_count sql =? 0)%nat then
    match compile sql with
    | Some v => inr (mk_mixed methods [] (Some v))
    | None => inl conf_error_logged
    end
  else inr (mk_mixed methods sql None).

(** The words of the directive: methods, then the query. *)
Definition ngx_http_drizzle_query (words : list bytes) (sql : bytes) (dlcf : loc_conf) : conf_error + loc_conf :=
  if (length sql =? 0)%nat then inl conf_error_logged
  else
    match words with
    | [] =>
        match default_query dlcf with
        | Some _ => inl is_duplicate
        | None => put (fun q => set_default_query (Some q) dlcf) (make_query 0xFFFF sql)
        end
    | _ =>
        match query_methods (methods_set dlcf) words 0 with
        | inl e => inl e
        | inr methods =>
            put (fun q => set_queries (Some (default [] (queries dlcf) ++ [q]))
                            (set_methods_set (Z.lor (methods_set dlcf) methods) dlcf))
              (make_query methods sql)
        end
    end.

(** ** The other directives *)

Definition ngx_http_drizzle_set_complex_value_slot (value : bytes) (dlcf : loc_conf) : conf_error + loc_conf :=
  match db_name dlcf with
  | Some _ => inl is_duplicate
  | None =>
      if (length value =? 0)%nat then inr (set_db_name (Some cv_zero) dlcf)
      else match compile value with
           | Some v => inr (set_db_name (Some (cv_compiled v)) dlcf)
           | None => inl conf_error_logged
           end
  end.

Definition ngx_conf_set_msec_slot (msp : Z) (value : bytes) : conf_error + Z :=
  if negb (msp =? Redis2.NGX_CONF_UNSET_MSEC) then inl is_duplicate
  else match ParseTime.ngx_parse_time value false with
       | Some n => if wrap_u 64 n =? wrap_u 64 NGX_ERROR then inl invalid_value else inr (wrap_u 64 n)
       | None => inl invalid_value
       end.

(** [tid_index] is the index of [$drizzle_thread_id], [None] when it cannot be added. *)
Definition ngx_http_drizzle_pass (tid_index : option Z) (upstream_add : bytes → option nat) (value : bytes)
    (dlcf : loc_conf) : conf_error + loc_conf :=
  match upstream dlcf, tid_index with
  | Some _, _ => inl is_duplicate
  | None, None => inl conf_error_logged
  | None, Some n =>
      let dlcf := set_handled (Some drizzle_handler) (set_tid_var_index n dlcf) in
      if negb (ngx_http_script_variables_count value =? 0)%nat then
        match compile value with
        | Some t => inr (set_complex_target (target_value t) dlcf)
        | None => inl conf_error_logged
        end
      else
        match upstream_add value with
        | Some u => inr (set_upstream (Some u) (set_complex_target target_null dlcf))
        | None => inl conf_error_logged
        end
  end.

Definition ngx_http_drizzle_enable_status (dlcf : loc_conf) : loc_conf :=
  set_handled (Some drizzle_status_handler) dlcf.

(** ngx_http_drizzle_cmds, the part for locations. *)
Inductive drizzle_command :=
  | drizzle_query (words : list bytes) (sql : bytes)
  | drizzle_dbname (value : bytes)
  | drizzle_pass (value : bytes)
  | drizzle_connect_timeout (value : bytes)
  | drizzle_send_query_timeout (value : bytes)
  | drizzle_recv_cols_timeout (value : bytes)
  | drizzle_recv_rows_timeout (value : bytes)
  | drizzle_module_header (value : bytes)
  | drizzle_buffer_size (value : bytes)
  | drizzle_status.

Definition run_drizzle_command (tid_index : option Z) (upstream_add : bytes → option nat) (d : drizzle_command)
    (c : loc_conf) : conf_error + loc_conf :=
  match d with
  | drizzle_query words sql => ngx_http_drizzle_query words sql c
  | drizzle_dbname v => ngx_http_drizzle_set_complex_value_slot v c
  | drizzle_pass v => ngx_http_drizzle_pass tid_index upstream_add v c
  | drizzle_connect_timeout v => put (fun x => set_connect_timeout x c) (ngx_conf_set_msec_slot (connect_timeout c) v)
  | drizzle_send_query_timeout v => put (fun x => set_send_timeout x c) (ngx_conf_set_msec_slot (send_timeout c) v)
  | drizzle_recv_cols_timeout v => put (fun x => set_recv_cols_timeout x c) (ngx_conf_set_msec_slot (recv_cols_timeout c) v)
  | drizzle_recv_rows_timeout v => put (fun x => set_recv_rows_timeout x c) (ngx_conf_set_msec_slot (recv_rows_timeout c) v)
  | drizzle_module_header v => put (fun x => set_enable_module_header x c) (ngx_conf_set_flag_slot (enable_module_header c) v)
  | drizzle_buffer_size v => put (fun x => set_out_buf_size x c) (ngx_conf_set_size_slot (out_buf_size c) v)
  | drizzle_status => inr (ngx_http_drizzle_enable_status c)
  end.

Fixpoint run_drizzle_commands (tid_index : option Z) (upstream_add : bytes → option nat) (ds : list drizzle_command)
    (c : loc_conf) : conf_error + loc_conf :=
  match ds with
  | [] => inr c
  | d :: ds =>
      match run_drizzle_command tid_index upstream_add d c with
      | inl e => inl e
      | inr c => run_drizzle_commands tid_index upstream_add ds c
      end
  end.

(** ** A request *)

(** What [ngx_http_complex_value] gives for the request. *)
Variable evaluate : V → option bytes.

(** [ngx_http_upstream_drizzle_add]: the group with the name of the target; [groups] are
    the names and ports of the upstream blocks. *)
Fixpoint ngx_http_upstream_drizzle_add (groups : list (bytes * Z)) (host : bytes) (port : Z) : option nat :=
  match groups with
  | [] => None
  | (h, p) :: groups =>
      if (length h =? length host)%nat
         && match ngx_strncasecmp h host (length host) with Some r => r =? 0 | None => false end
         && (p =? port)
      then Some 0%nat else S <$> ngx_http_upstream_drizzle_add groups host port
  end.

(** [ngx_http_drizzle_handler] up to [ngx_http_upstream_dbd_init]: a status that ends the
    request, or the group it goes to ([None] inside: a NULL pointer that is followed by
    [ngx_http_upstream_dbd_init_request]).  [None]: the target [NGX_CONF_UNSET_PTR] is
    followed. *)
Definition ngx_http_drizzle_handler (groups : list (bytes * Z)) (in_memory : bool) (method : Z) (dlcf : loc_conf)
    : option (Z + option nat) :=
  if in_memory then Some (inl NGX_HTTP_INTERNAL_SERVER_ERROR)
  else if match default_query dlcf with None => Z.land (methods_set dlcf) method =? 0 | Some _ => false end
  then Some (inl (if negb (methods_set dlcf =? 0) then NGX_HTTP_NOT_ALLOWED else NGX_HTTP_INTERNAL_SERVER_ERROR))
  else
    match complex_target dlcf with
    | target_unset => None
    | target_value t =>
        match evaluate t with
        | None => Some (inl NGX_ERROR)
        | Some host =>
            if (length host =? 0)%nat then Some (inl NGX_HTTP_INTERNAL_SERVER_ERROR)
            else
              match ngx_http_upstream_drizzle_add groups host 0 with
              | None => Some (inl NGX_HTTP_INTERNAL_SERVER_ERROR)
              | Some u => Some (inr (Some u))
              end
        end
    | target_null => Some (inr (upstream dlcf))
    end.

(** The query of a request; [None] is the label [failed].  The handler has made sure that
    there is a default query when it is looked at. *)
Definition select_query (method : Z) (dlcf : loc_conf) : option mixed :=
  if negb (Z.land (methods_set dlcf) method =? 0)
  then find (fun q => negb (Z.land (key q) method =? 0)) (default [] (queries dlcf))
  else default_query dlcf.

Definition query_value (q : mixed) : option bytes :=
  match cv q with
  | Some v => sql ← evaluate v; if (length sql =? 0)%nat then None else Some sql
  | None => Some (sv q)
  end.

(** [ngx_http_upstream_drizzle_init_peer]: the data base and the query, or [None]. *)
Definition ngx_http_upstream_drizzle_init_peer (method : Z) (dlcf : loc_conf) : option (bytes * bytes) :=
  db ← (match db_name dlcf with
        | Some d =>
            db ← Redis2.ngx_http_complex_value evaluate d;
            if (DRIZZLE_MAX_DB_SIZE <=? length db)%nat then None else Some db
        | None => Some []
        end);
  q ← select_query method dlcf;
  sql ← query_value q;
  Some (db, sql).

End Location.

(** * Specification *)

(** The query directives among the directives of a block: methods and query. *)
Definition query_directives (ds : list drizzle_command) : list (list bytes * bytes) :=
  omap (fun d => match d with drizzle_query words sql => Some (words, sql) | _ => None end) ds.

(** The directive is for the method [k]. *)
Definition names_method (k : Z) (d : list bytes * bytes) : bool :=
  existsb (fun word => bool_decide (find_method word = Some k)) d.1.

Definition is_default (d : list bytes * bytes) : bool := match d.1 with [] => true | _ => false end.

(** The query for a method: the one whose directive names it, else the default one. *)
Definition query_for (k : Z) (qs : list (list bytes * bytes)) : option bytes :=
  match find (names_method k) qs with
  | Some d => Some d.2
  | None => snd <$> find is_default qs
  end.

(** * Theorems *)

(** ** Methods as bits *)

Lemma land_bit (a i : Z) : 0 <= i → negb (Z.land a (2 ^ i) =? 0) = Z.testbit a i.
Proof.
  intros Hi. destruct (Z.testbit a i) eqn:E.
  - apply negb_true_iff, Z.eqb_neq. intros H. assert (B : Z.testbit (Z.land a (2 ^ i)) i = false) by (rewrite H; apply Z.bits_0).
    rewrite Z.land_spec, E, Z.pow2_bits_true in B by done. done.
  - apply negb_false_iff, Z.eqb_eq, Z.bits_inj_0. intros j. rewrite Z.land_spec.
    destruct (decide (i = j)) as [<-|Hne]; [by rewrite E|]. rewrite Z.pow2_bits_false by done. by rewrite andb_false_r.
Qed.

Lemma find_method_bit (word : bytes) (k : Z) : find_method word = Some k → ∃ j, 0 <= j < 16 ∧ k = 2 ^ j.
Proof.
  unfold find_method. intros ([name k'] & H & ->)%fmap_Some. cbn [snd]. apply find_some in H as [H _].
  unfold ngx_drizzle_http_methods in H. cbn [In] in H.
  repeat (destruct H as [H|H]; [injection H as _ <-; first [by exists 1|by exists 2|by exists 3|by exists 4|by exists 5
    |by exists 6|by exists 7|by exists 8|by exists 9|by exists 10|by exists 11|by exists 12|by exists 13|by exists 14]|]).
  done.
Qed.

Lemma query_methods_ok (set methods r : Z) (words : list bytes) :
  query_methods set words methods = inr r →
  (∀ i, 0 <= i → Z.testbit r i = Z.testbit methods i || names_method (2 ^ i) (words, []))
  ∧ (∀ i, 0 <= i → names_method (2 ^ i) (words, []) = true → Z.testbit set i = false).
Proof.
  revert methods. induction words as [|word words IH]; intros methods; cbn [query_methods].
  - intros [= <-]. split; [intros; by rewrite orb_false_r|done].
  - destruct (find_method word) as [k|] eqn:Ek; [|done]. destruct (negb (Z.land set k =? 0)) eqn:El; [done|].
    intros H. destruct (IH _ H) as [IH1 IH2]. destruct (find_method_bit _ _ Ek) as (j & Hj & ->).
    rewrite land_bit in El by lia. split.
    + intros i Hi. rewrite IH1 by done. rewrite Z.lor_spec. unfold names_method. cbn [fst existsb]. rewrite Ek.
      destruct (decide (j = i)) as [->|Hne].
      * rewrite Z.pow2_bits_true, bool_decide_true by done. by rewrite !orb_true_r.
      * rewrite Z.pow2_bits_false by done. rewrite bool_decide_false, orb_false_r; [done|].
        intros [= E]. apply Hne. apply (Z.pow_inj_r 2); [lia..|exact E].
    + intros i Hi. unfold names_method. cbn [fst existsb]. rewrite Ek, orb_true_iff, bool_decide_eq_true.
      intros [[= E]|E]; [|by apply IH2]. assert (j = i) as <- by (apply (Z.pow_inj_r 2); [lia..|exact E]). done.
Qed.

(** ** What the directives leave in the configuration *)

Section Conf.
Context {V : Type} (compile : bytes → option V) (tid_index : option Z) (upstream_add : bytes → option nat).

Definition stored (d : list bytes * bytes) (q : mixed (V := V)) : Prop :=
  make_query compile (key q) d.2 = inr q ∧ ∀ i, 0 <= i → Z.testbit (key q) i = names_method (2 ^ i) d.

(** The configuration [c] after the query directives [qs]. *)
Record queries_ok (qs : list (list bytes * bytes)) (c : loc_conf (V := V)) : Prop := {
  qo_default : match find is_default qs with
               | Some d => ∃ m, make_query compile 0xFFFF d.2 = inr m ∧ default_query c = Some m
               | None => default_query c = None
               end;
  qo_queries : Forall2 stored (filter (fun d => is_default d = false) qs) (default [] (queries c));
  qo_none : queries c = None ↔ filter (fun d => is_default d = false) qs = [];
  qo_set : ∀ i, 0 <= i → Z.testbit (methods_set c) i = existsb (names_method (2 ^ i)) qs;
  qo_once : ∀ i d, 0 <= i → d ∈ qs → names_method (2 ^ i) d = true → find (names_method (2 ^ i)) qs = Some d;
  qo_named : ∀ d, d ∈ qs → is_default d = false → ∃ i, 0 <= i ∧ names_method (2 ^ i) d = true
}.

Lemma queries_ok_same qs c c' :
  queries_ok qs c → default_query c' = default_query c → queries c' = queries c → methods_set c' = methods_set c →
  queries_ok qs c'.
Proof. intros [H1 H2 H3 H4 H5 H6] E1 E2 E3. split; rewrite ?E1, ?E2, ?E3; done. Qed.

Lemma queries_ok_new : queries_ok [] ngx_http_drizzle_create_loc_conf.
Proof. split; try done; [intros i _; change (Z.testbit 0 i = false); apply Z.bits_0|by intros ? ? ? ?%not_elem_of_nil|by intros ? ?%not_elem_of_nil]. Qed.

Lemma find_snoc {A : Type} (f : A → bool) (l : list A) (x : A) :
  find f (l ++ [x]) = match find f l with Some y => Some y | None => if f x then Some x else None end.
Proof. induction l as [|y l IH]; cbn; [done|]. by destruct (f y). Qed.

Lemma find_existsb {A : Type} (f : A → bool) (l : list A) : existsb f l = match find f l with Some _ => true | None => false end.
Proof. induction l as [|y l IH]; cbn; [done|]. by destruct (f y). Qed.

Lemma make_query_key methods sql q : make_query compile methods sql = inr q → key q = methods.
Proof. unfold make_query. repeat case_match; intros [= <-]; done. Qed.

Lemma default_query_ok qs c sql q :
  queries_ok qs c → default_query c = None → make_query compile 0xFFFF sql = inr q →
  queries_ok (qs ++ [([], sql)]) (set_default_query (Some q) c).
Proof.
  intros [H1 H2 H3 H4 H5 H6] Hd Hq. split; cbn [default_query queries methods_set set_default_query].
  - rewrite find_snoc. destruct (find is_default qs); [destruct H1 as (m & _ & E); congruence|]. cbn. by exists q.
  - rewrite filter_app, filter_cons_False, filter_nil, app_nil_r by done. exact H2.
  - rewrite filter_app, filter_cons_False, filter_nil, app_nil_r by done. exact H3.
  - intros i Hi. rewrite existsb_app, H4 by done. cbn. by rewrite orb_false_r.
  - intros i d Hi [Hd'|Hd'%list_elem_of_singleton]%elem_of_app Hn; [|by subst d]. rewrite find_snoc. by rewrite (H5 i d).
  - intros d [Hd'|Hd'%list_elem_of_singleton]%elem_of_app Hn; [by apply H6|by subst d].
Qed.

Lemma method_query_ok qs c word words sql methods q :
  queries_ok qs c → query_methods (methods_set c) (word :: words) 0 = inr methods →
  make_query compile methods sql = inr q →
  queries_ok (qs ++ [(word :: words, sql)])
    (set_queries (Some (default [] (queries c) ++ [q])) (set_methods_set (Z.lor (methods_set c) methods) c)).
Proof.
  intros [H1 H2 H3 H4 H5 H6] Hm Hq. set (d := (word :: words, sql)).
  destruct (query_methods_ok _ _ _ _ Hm) as [M1 M2]. change (names_method ?k (word :: words, [])) with (names_method k d) in *.
  assert (M1' : ∀ i, 0 <= i → Z.testbit methods i = names_method (2 ^ i) d) by (intros i Hi; by rewrite M1, Z.bits_0).
  assert (Hn : ∀ i, 0 <= i → names_method (2 ^ i) d = true → find (names_method (2 ^ i)) qs = None).
  { intros i Hi Hd. pose proof (M2 i Hi Hd) as E. rewrite H4, find_existsb in E by done. by case_match. }
  split; cbn [default_query queries methods_set set_queries set_methods_set default from_option id].
  - rewrite find_snoc. by destruct (find is_default qs).
  - rewrite filter_app, filter_cons_True, filter_nil by done. apply Forall2_app; [exact H2|].
    constructor; [|constructor]. split; [by rewrite (make_query_key _ _ _ Hq)|]. intros i Hi.
    rewrite (make_query_key _ _ _ Hq). by apply M1'.
  - split; [done|]. rewrite filter_app, filter_cons_True by done. intros E. by destruct (filter _ qs).
  - intros i Hi. rewrite Z.lor_spec, H4, M1', existsb_app by done. cbn [existsb]. by rewrite orb_false_r.
  - intros i d' Hi [Hd'|Hd'%list_elem_of_singleton]%elem_of_app Hd; rewrite find_snoc; [by rewrite (H5 i d')|].
    subst d'. by rewrite Hn, Hd.
  - intros d' [Hd'|Hd'%list_elem_of_singleton]%elem_of_app Hd; [by apply H6|]. subst d'.
    cbn [query_methods] in Hm. destruct (find_method word) as [k|] eqn:Ek; [|done].
    destruct (find_method_bit _ _ Ek) as (j & Hj & ->). exists j. split; [lia|].
    unfold names_method, d. cbn [fst existsb]. by rewrite Ek, bool_decide_true.
Qed.

Lemma run_command_ok qs c c' d :
  queries_ok qs c → run_drizzle_command compile tid_index upstream_add d c = inr c' →
  queries_ok (qs ++ query_directives [d]) c'.
Proof.
  intros Hq. destruct d as [words sql|v|v|v|v|v|v|v|v|]; cbn [run_drizzle_command query_directives omap list_omap];
    rewrite ?app_nil_r.
  - unfold ngx_http_drizzle_query. destruct (length sql =? 0)%nat; [done|]. destruct words as [|word words].
    + destruct (default_query c) eqn:Ed; [done|]. destruct (make_query compile 0xFFFF sql) as [|q] eqn:Eq; [done|].
      intros [= <-]. by apply default_query_ok.
    + destruct (query_methods _ _ _) as [|methods] eqn:Em; [done|]. destruct (make_query compile methods sql) as [|q] eqn:Eq; [done|].
      intros [= <-]. by eapply method_query_ok.
  - unfold ngx_http_drizzle_set_complex_value_slot. repeat case_match; intros [= <-]; by eapply queries_ok_same.
  - unfold ngx_http_drizzle_pass. repeat case_match; intros [= <-]; by eapply queries_ok_same.
  - unfold put. case_match; intros [= <-]; by eapply queries_ok_same.
  - unfold put. case_match; intros [= <-]; by eapply queries_ok_same.
  - unfold put. case_match; intros [= <-]; by eapply queries_ok_same.
  - unfold put. case_match; intros [= <-]; by eapply queries_ok_same.
  - unfold put. case_match; intros [= <-]; by eapply queries_ok_same.
  - unfold put. case_match; intros [= <-]; by eapply queries_ok_same.
  - intros [= <-]. by eapply queries_ok_same.
Qed.

Lemma run_commands_ok ds qs c c' :
  queries_ok qs c → run_drizzle_commands compile tid_index upstream_add ds c = inr c' →
  queries_ok (qs ++ query_directives ds) c'.
Proof.
  revert qs c. induction ds as [|d ds IH]; intros qs c Hq; cbn [run_drizzle_commands].
  - intros [= <-]. by rewrite app_nil_r.
  - destruct (run_drizzle_command _ _ _ d c) as [|c1] eqn:E; [done|]. intros H.
    pose proof (IH _ _ (run_command_ok _ _ _ _ Hq E) H) as H'. rewrite <- app_assoc in H'.
    unfold query_directives in *. by rewrite <- omap_app in H'.
Qed.

(** A block without query directives takes those of the block around it. *)
Lemma merge_ok pagesize qs0 qs prev c :
  queries_ok qs0 prev → queries_ok qs c →
  queries_ok (if decide (qs = []) then qs0 else qs) (ngx_http_drizzle_merge_loc_conf pagesize prev c).
Proof.
  intros H0 H. destruct (decide (qs = [])) as [->|Hne].
  - eapply queries_ok_same; [exact H0|..]; cbn; destruct H as [E1 _ E2 _ _ _]; cbn in E1;
      rewrite E1, (proj2 E2 eq_refl); done.
  - eapply queries_ok_same; [exact H|..]; cbn; destruct H as [E1 _ E2 _ _ _].
    all: destruct (default_query c) eqn:Ed; [done|]; destruct (queries c) eqn:Eq; [done|]; exfalso.
    all: destruct (find is_default qs) eqn:Ef; [by destruct E1 as (m & _ & ?)|].
    all: apply Hne; destruct qs as [|d qs]; [done|]; pose proof (proj1 E2 eq_refl) as E; cbn in Ef.
    all: destruct (is_default d) eqn:Edf; [done|]; rewrite filter_cons_True in E by done; done.
Qed.

(** What a directive's query gives for a request. *)
Definition directive_value (evaluate : V → option bytes) (sql : bytes) : option bytes :=
  if (ngx_http_script_variables_count sql =? 0)%nat then Some sql
  else v ← compile sql; text ← evaluate v; if (length text =? 0)%nat then None else Some text.

Lemma make_query_value evaluate methods sql q :
  make_query compile methods sql = inr q → query_value evaluate q = directive_value evaluate sql.
Proof.
  unfold make_query, directive_value. destruct (_ =? 0)%nat; cbn [negb]; [by intros [= <-]|].
  destruct (compile sql); [|done]. by intros [= <-].
Qed.

Lemma Forall2_find {A B : Type} (R : A → B → Prop) (f : A → bool) (h : B → bool) (l : list A) (k : list B) :
  Forall2 R l k → (∀ x y, R x y → f x = h y) →
  match find f l with Some x => ∃ y, find h k = Some y ∧ R x y | None => find h k = None end.
Proof.
  intros H Hf. induction H as [|x y l k Hxy _ IH]; cbn; [done|]. rewrite <- (Hf _ _ Hxy). destruct (f x); [by exists y|done].
Qed.

Lemma find_specific (i : Z) (qs : list (list bytes * bytes)) :
  find (names_method (2 ^ i)) (filter (fun d => is_default d = false) qs) = find (names_method (2 ^ i)) qs.
Proof.
  induction qs as [|d qs IH]; [done|]. destruct (is_default d) eqn:E.
  - rewrite filter_cons_False by (by rewrite E). rewrite IH. cbn. destruct d as [[|w ws] sql]; [done|done].
  - rewrite filter_cons_True by done. cbn. by rewrite IH.
Qed.

(** The query that is selected. *)
Lemma select_ok evaluate qs c i :
  queries_ok qs c → 0 <= i →
  match query_for (2 ^ i) qs with
  | Some sql => ∃ q, select_query (2 ^ i) c = Some q ∧ query_value evaluate q = directive_value evaluate sql
  | None => find is_default qs = None ∧ existsb (names_method (2 ^ i)) qs = false
  end.
Proof.
  intros [H1 H2 H3 H4 H5 H6] Hi. unfold query_for, select_query. rewrite land_bit, H4, find_existsb by done.
  pose proof (Forall2_find stored (names_method (2 ^ i)) (fun q => negb (Z.land (key q) (2 ^ i) =? 0)) _ _ H2) as F.
  rewrite find_specific in F. destruct (find (names_method (2 ^ i)) qs) as [d|] eqn:E.
  - destruct F as (q & E' & S & _); [intros x y [_ Hxy]; by rewrite land_bit, Hxy|]. exists q. split; [exact E'|]. by eapply make_query_value.
  - destruct (find is_default qs) as [d|]; cbn; [|done]. destruct H1 as (m & Hm & ->). exists m. split; [done|]. by eapply make_query_value.
Qed.

End Conf.

(** C13. The query of a request: whatever directives a location and the block around
    it hold, a request with the method of the bit [i] runs the query of the
    directive that names its method, or else the one for all methods, of the
    location or, when it has none at all, of the block around it; no other directive
    of the block names the method. When there is no query for the method the request
    is refused: with 405 when other methods have one, with 500 when there is none at
    all. *)
Theorem drizzle_query_chosen {V : Type} (compile : bytes → option V) (evaluate : V → option bytes)
    (tid_index : option Z) (upstream_add : bytes → option nat) (pagesize : Z) (outer inner : list drizzle_command)
    (prev c : loc_conf (V := V)) (groups : list (bytes * Z)) (i : Z) :
  run_drizzle_commands compile tid_index upstream_add outer ngx_http_drizzle_create_loc_conf = inr prev →
  run_drizzle_commands compile tid_index upstream_add inner ngx_http_drizzle_create_loc_conf = inr c →
  0 <= i < 16 →
  let qs := if decide (query_directives inner = []) then query_directives outer else query_directives inner in
  let conf := ngx_http_drizzle_merge_loc_conf pagesize prev c in
  (∀ d, d ∈ qs → names_method (2 ^ i) d = true → query_for (2 ^ i) qs = Some d.2)
  ∧ match query_for (2 ^ i) qs with
    | Some sql =>
        (∃ q, select_query (2 ^ i) conf = Some q ∧ query_value evaluate q = directive_value compile evaluate sql)
        ∧ (complex_target conf = target_null →
           ngx_http_drizzle_handler evaluate groups false (2 ^ i) conf = Some (inr (upstream conf)))
    | None =>
        ngx_http_drizzle_handler evaluate groups false (2 ^ i) conf
        = Some (inl (if decide (qs = []) then NGX_HTTP_INTERNAL_SERVER_ERROR else NGX_HTTP_NOT_ALLOWED))
    end.
Proof.
  intros E1 E2 Hi qs conf.
  pose proof (run_commands_ok compile tid_index upstream_add _ _ _ _ (queries_ok_new compile) E1) as Q1.
  pose proof (run_commands_ok compile tid_index upstream_add _ _ _ _ (queries_ok_new compile) E2) as Q2.
  pose proof (merge_ok compile pagesize _ _ _ _ Q1 Q2) as Q. cbn [app] in Q. fold qs in Q. fold conf in Q.
  clearbody qs conf. clear - Q Hi. split.
  { intros d Hd Hn. unfold query_for. by rewrite (qo_once _ _ _ Q i d) by (done || lia). }
  pose proof (select_ok compile evaluate qs conf i Q) as S. specialize (S ltac:(lia)).
  unfold ngx_http_drizzle_handler. pose proof (qo_set _ _ _ Q i ltac:(lia)) as Eset. pose proof (land_bit (methods_set conf) i ltac:(lia)) as El.
  rewrite Eset in El. pose proof (qo_default _ _ _ Q) as Ed.
  destruct (query_for (2 ^ i) qs) as [sql|] eqn:Eq.
  - split; [exact S|]. intros ->. unfold query_for in Eq. destruct (find is_default qs) as [d|].
    + destruct Ed as (m & _ & ->). done.
    + rewrite Ed. destruct (find (names_method (2 ^ i)) qs) eqn:Ef; [|done]. rewrite find_existsb, Ef in El.
      by destruct (Z.land (methods_set conf) (2 ^ i) =? 0).
  - destruct S as [S1 S2]. rewrite S1 in Ed. rewrite Ed. rewrite S2 in El. apply negb_false_iff in El. rewrite El. do 2 f_equal.
    destruct (decide (qs = [])) as [->|Hne].
    + assert (methods_set conf = 0) as ->; [|done]. apply Z.bits_inj_0. intros n. destruct (Z.ltb_spec n 0); [by apply Z.testbit_neg_r|].
      by rewrite (qo_set _ _ _ Q).
    + destruct qs as [|d qs]; [done|]. destruct (is_default d) eqn:Edf; [cbn in S1; by rewrite Edf in S1|].
      destruct (qo_named _ _ _ Q d) as (j & Hj & Hn); [by left|done|].
      pose proof (qo_set _ _ _ Q j Hj) as B. cbn in B. rewrite Hn in B. cbn in B.
      destruct (Z.eqb_spec (methods_set conf) 0) as [E|]; [|done]. rewrite E, Z.bits_0 in B. done.
Qed.

Definition example_outer : list drizzle_command := [drizzle_query [] (bs "select 1")].

Definition example_inner : list drizzle_command :=
  [drizzle_query [bs "get"; bs "HEAD"] (bs "select * from cats"); drizzle_query [bs "POST"] (bs "insert $name");
   drizzle_pass (bs "mysql_server")].

Definition example_loc (ds : list drizzle_command) : loc_conf (V := bytes) :=
  match run_drizzle_commands Some (Some 3) (fun _ => Some 0%nat) ds ngx_http_drizzle_create_loc_conf with
  | inr c => c
  | inl _ => ngx_http_drizzle_create_loc_conf
  end.

Lemma drizzle_query_chosen_witness :
  let conf := ngx_http_drizzle_merge_loc_conf 4096 (example_loc example_outer) (example_loc example_inner) in
  (∃ q, select_query (2 ^ 1) conf = Some q ∧ query_value Some q = Some (bs "select * from cats"))
  ∧ ngx_http_drizzle_handler Some [] false (2 ^ 5) conf = Some (inl NGX_HTTP_NOT_ALLOWED).
Proof.
  cbv zeta. split.
  - destruct (drizzle_query_chosen Some Some (Some 3) (fun _ => Some 0%nat) 4096 example_outer example_inner
      (example_loc example_outer) (example_loc example_inner) [] 1 ltac:(vm_compute; reflexivity) ltac:(vm_compute; reflexivity)
      ltac:(lia)) as [_ H].
    replace (query_for _ _) with (Some (bs "select * from cats")) in H by (vm_compute; reflexivity). exact (proj1 H).
  - destruct (drizzle_query_chosen Some Some (Some 3) (fun _ => Some 0%nat) 4096 example_outer example_inner
      (example_loc example_outer) (example_loc example_inner) [] 5 ltac:(vm_compute; reflexivity) ltac:(vm_compute; reflexivity)
      ltac:(lia)) as [_ H].
    replace (query_for _ _) with (@None bytes) in H by (vm_compute; reflexivity). exact H.
Defined.

(** The target of [drizzle_pass] is set to [NGX_CONF_UNSET_PTR] and not merged: in a block
    inside of a location (an [if]) that has no [drizzle_pass] of its own, the handler
    follows this pointer. *)
Theorem drizzle_target_not_merged {V : Type} (compile : bytes → option V) (evaluate : V → option bytes) (pagesize : Z)
    (prev : loc_conf (V := V)) (groups : list (bytes * Z)) (method : Z) :
  default_query prev ≠ None →
  ngx_http_drizzle_handler evaluate groups false method
    (ngx_http_drizzle_merge_loc_conf pagesize prev ngx_http_drizzle_create_loc_conf) = None.
Proof. intros H. unfold ngx_http_drizzle_handler. cbn. by destruct (default_query prev). Qed.

End DrizzleLocation.
