(* ===== verification/DrizzlePool.v ===== *)
(** The connections of the drizzle module: src/drizzle-nginx-module-master/src,
    the pool (ngx_http_drizzle_keepalive.c), how a request gets a connection and gives it
    back (ngx_http_drizzle_upstream.c), and the life of a request around the processor
    (ngx_http_drizzle_util.c, ngx_http_drizzle_handler.c).

    The connections of nginx and of libdrizzle live in two tables; a use of one that is
    not there, a NULL that is followed, or a read or write behind a [struct sockaddr] is
    [None].  The world is one upstream block; the system (results of calls, events,
    descriptors) is an argument. *)

From S2P Require Import Prelude NgxCompare Drizzle DrizzleUpstream.
From stdpp Require Import gmap.

Open Scope Z_scope.

Module DrizzlePool.

Import DrizzleUpstream.

(** * Definitions *)

Definition NGX_PEER_NEXT : Z := 2.
Definition NGX_PEER_FAILED : Z := 4.
Definition NGX_HTTP_UPSTREAM_FT_ERROR : Z := 0x00000002.
Definition NGX_HTTP_UPSTREAM_FT_TIMEOUT : Z := 0x00000004.
Definition NGX_HTTP_UPSTREAM_FT_HTTP_500 : Z := 0x00000010.
Definition NGX_HTTP_UPSTREAM_FT_HTTP_404 : Z := 0x00000200.
Definition NGX_HTTP_UPSTREAM_FT_NOLIVE : Z := 0x40000000.
Definition NGX_HTTP_OK : Z := 200.
Definition NGX_HTTP_NOT_FOUND : Z := 404.
Definition NGX_HTTP_GONE : Z := 410.
Definition NGX_HTTP_CLIENT_CLOSED_REQUEST : Z := 499.
Definition NGX_HTTP_INTERNAL_SERVER_ERROR : Z := 500.
Definition NGX_HTTP_BAD_GATEWAY : Z := 502.
Definition NGX_HTTP_SERVICE_UNAVAILABLE : Z := 503.
Definition NGX_HTTP_GATEWAY_TIME_OUT : Z := 504.

(** [sizeof(struct sockaddr)]. *)
Definition sizeof_sockaddr : nat := 16.

(** ** Data *)

(** An entry of the pool.  [item_id] is its place in the array of entries, which stands
    for its address. *)
Record item := mk_item {
  item_id : nat;
  item_connection : option nat;
  item_socklen : nat;
  item_sockaddr : bytes;
  item_drizzle_con : option nat;
  item_name : bytes;
  item_used : Z;
  item_has_set_names : bool
}.

(** [c->data] with the handlers of [c]: who gets its events. *)
Inductive owner := nobody | in_request (r : nat) | in_pool (i : nat).

Record conn := mk_conn { conn_fd : Z; conn_owner : owner; conn_idle : bool }.

(** [drizzle_con_st]: its descriptor and what it was connected with. *)
Record dcon := mk_dcon {
  dcon_fd : Z;
  dcon_mysql : bool;
  dcon_db : bytes;
  dcon_user : bytes;
  dcon_password : bytes;
  dcon_host : bytes;
  dcon_port : Z
}.

(** The upstream block after its initialisation. *)
Record group := mk_group {
  peers : list ngx_http_upstream_drizzle_peer_t;
  pool_single : bool;
  pool_max : nat;
  pool_overflow : ngx_http_drizzle_keepalive_overflow_t
}.

Definition group_of (dscf : srv_conf) (ps : list ngx_http_upstream_drizzle_peer_t) : group :=
  mk_group ps (single dscf) (Z.to_nat (max_cached dscf)) (overflow dscf).

(** A request: the connection of [u->peer] ([pc->name] and [pc->sockaddr] point into the
    peer data), [ngx_http_upstream_drizzle_peer_data_t], what the pool looks at in the
    upstream ([content_left] is [u->length]), and whether [u->cleanup] is armed. *)
Record request := mk_request {
  connection : option nat;
  pc_cached : bool;
  socklen : nat;
  name : bytes;
  sockaddr : bytes;
  failed : bool;
  drizzle_con : option nat;
  res_con : bool;
  has_set_names : bool;
  enable_charset : bool;
  set_names_query : bytes;
  used : Z;
  state : Drizzle.ngx_http_drizzle_state_t;
  dbname : bytes;
  query : bytes;
  status_n : Z;
  header_sent : bool;
  content_left : Z;
  cleanup : bool
}.

Definition set_connection (v : option nat) (s : request) : request :=
  mk_request v (pc_cached s) (socklen s) (name s) (sockaddr s) (failed s) (drizzle_con s)
    (res_con s) (has_set_names s) (enable_charset s) (set_names_query s) (used s) (state s)
    (dbname s) (query s) (status_n s) (header_sent s) (content_left s) (cleanup s).
Definition set_pc_cached (v : bool) (s : request) : request :=
  mk_request (connection s) v (socklen s) (name s) (sockaddr s) (failed s) (drizzle_con s)
    (res_con s) (has_set_names s) (enable_charset s) (set_names_query s) (used s) (state s)
    (dbname s) (query s) (status_n s) (header_sent s) (content_left s) (cleanup s).
Definition set_socklen (v : nat) (s : request) : request :=
  mk_request (connection s) (pc_cached s) v (name s) (sockaddr s) (failed s) (drizzle_con s)
    (res_con s) (has_set_names s) (enable_charset s) (set_names_query s) (used s) (state s)
    (dbname s) (query s) (status_n s) (header_sent s) (content_left s) (cleanup s).
Definition set_name (v : bytes) (s : request) : request :=
  mk_request (connection s) (pc_cached s) (socklen s) v (sockaddr s) (failed s) (drizzle_con s)
    (res_con s) (has_set_names s) (enable_charset s) (set_names_query s) (used s) (state s)
    (dbname s) (query s) (status_n s) (header_sent s) (content_left s) (cleanup s).
Definition set_sockaddr (v : bytes) (s : request) : request :=
  mk_request (connection s) (pc_cached s) (socklen s) (name s) v (failed s) (drizzle_con s)
    (res_con s) (has_set_names s) (enable_charset s) (set_names_query s) (used s) (state s)
    (dbname s) (query s) (status_n s) (header_sent s) (content_left s) (cleanup s).
Definition set_failed (v : bool) (s : request) : request :=
  mk_request (connection s) (pc_cached s) (socklen s) (name s) (sockaddr s) v (drizzle_con s)
    (res_con s) (has_set_names s) (enable_charset s) (set_names_query s) (used s) (state s)
    (dbname s) (query s) (status_n s) (header_sent s) (content_left s) (cleanup s).
Definition set_drizzle_con (v : option nat) (s : request) : request :=
  mk_request (connection s) (pc_cached s) (socklen s) (name s) (sockaddr s) (failed s) v (res_con s)
    (has_set_names s) (enable_charset s) (set_names_query s) (used s) (state s) (dbname s) (query s)
    (status_n s) (header_sent s) (content_left s) (cleanup s).
Definition set_res_con (v : bool) (s : request) : request :=
  mk_request (connection s) (pc_cached s) (socklen s) (name s) (sockaddr s) (failed s)
    (drizzle_con s) v (has_set_names s) (enable_charset s) (set_names_query s) (used s) (state s)
    (dbname s) (query s) (status_n s) (header_sent s) (content_left s) (cleanup s).
Definition set_has_set_names (v : bool) (s : request) : request :=
  mk_request (connection s) (pc_cached s) (socklen s) (name s) (sockaddr s) (failed s)
    (drizzle_con s) (res_con s) v (enable_charset s) (set_names_query s) (used s) (state s)
    (dbname s) (query s) (status_n s) (header_sent s) (content_left s) (cleanup s).
Definition set_enable_charset (v : bool) (s : request) : request :=
  mk_request (connection s) (pc_cached s) (socklen s) (name s) (sockaddr s) (failed s)
    (drizzle_con s) (res_con s) (has_set_names s) v (set_names_query s) (used s) (state s)
    (dbname s) (query s) (status_n s) (header_sent s) (content_left s) (cleanup s).
Definition set_set_names_query (v : bytes) (s : request) : request :=
  mk_request (connection s) (pc_cached s) (socklen s) (name s) (sockaddr s) (failed s)
    (drizzle_con s) (res_con s) (has_set_names s) (enable_charset s) v (used s) (state s) (dbname s)
    (query s) (status_n s) (header_sent s) (content_left s) (cleanup s).
Definition set_used (v : Z) (s : request) : request :=
  mk_request (connection s) (pc_cached s) (socklen s) (name s) (sockaddr s) (failed s)
    (drizzle_con s) (res_con s) (has_set_names s) (enable_charset s) (set_names_query s) v (state s)
    (dbname s) (query s) (status_n s) (header_sent s) (content_left s) (cleanup s).
Definition set_state (v : Drizzle.ngx_http_drizzle_state_t) (s : request) : request :=
  mk_request (connection s) (pc_cached s) (socklen s) (name s) (sockaddr s) (failed s)
    (drizzle_con s) (res_con s) (has_set_names s) (enable_charset s) (set_names_query s) (used s) v
    (dbname s) (query s) (status_n s) (header_sent s) (content_left s) (cleanup s).
Definition set_dbname (v : bytes) (s : request) : request :=
  mk_request (connection s) (pc_cached s) (socklen s) (name s) (sockaddr s) (failed s)
    (drizzle_con s) (res_con s) (has_set_names s) (enable_charset s) (set_names_query s) (used s)
    (state s) v (query s) (status_n s) (header_sent s) (content_left s) (cleanup s).
Definition set_query (v : bytes) (s : request) : request :=
  mk_request (connection s) (pc_cached s) (socklen s) (name s) (sockaddr s) (failed s)
    (drizzle_con s) (res_con s) (has_set_names s) (enable_charset s) (set_names_query s) (used s)
    (state s) (dbname s) v (status_n s) (header_sent s) (content_left s) (cleanup s).
Definition set_status_n (v : Z) (s : request) : request :=
  mk_request (connection s) (pc_cached s) (socklen s) (name s) (sockaddr s) (failed s)
    (drizzle_con s) (res_con s) (has_set_names s) (enable_charset s) (set_names_query s) (used s)
    (state s) (dbname s) (query s) v (header_sent s) (content_left s) (cleanup s).
Definition set_header_sent (v : bool) (s : request) : request :=
  mk_request (connection s) (pc_cached s) (socklen s) (name s) (sockaddr s) (failed s)
    (drizzle_con s) (res_con s) (has_set_names s) (enable_charset s) (set_names_query s) (used s)
    (state s) (dbname s) (query s) (status_n s) v (content_left s) (cleanup s).
Definition set_content_left (v : Z) (s : request) : request :=
  mk_request (connection s) (pc_cached s) (socklen s) (name s) (sockaddr s) (failed s)
    (drizzle_con s) (res_con s) (has_set_names s) (enable_charset s) (set_names_query s) (used s)
    (state s) (dbname s) (query s) (status_n s) (header_sent s) v (cleanup s).
Definition set_cleanup (v : bool) (s : request) : request :=
  mk_request (connection s) (pc_cached s) (socklen s) (name s) (sockaddr s) (failed s)
    (drizzle_con s) (res_con s) (has_set_names s) (enable_charset s) (set_names_query s) (used s)
    (state s) (dbname s) (query s) (status_n s) (header_sent s) (content_left s) v.

(** What the requests of a block share: the counters and queues of
    [ngx_http_upstream_drizzle_srv_conf_t] and the tables of connections. *)
Record world := mk_world {
  current : Z;
  free : list item;
  cache : list item;
  active_conns : Z;
  conns : gmap nat conn;
  dcons : gmap nat dcon;
  next_id : nat
}.

Definition set_current (v : Z) (s : world) : world :=
  mk_world v (free s) (cache s) (active_conns s) (conns s) (dcons s) (next_id s).
Definition set_free (v : list item) (s : world) : world :=
  mk_world (current s) v (cache s) (active_conns s) (conns s) (dcons s) (next_id s).
Definition set_cache (v : list item) (s : world) : world :=
  mk_world (current s) (free s) v (active_conns s) (conns s) (dcons s) (next_id s).
Definition set_active_conns (v : Z) (s : world) : world :=
  mk_world (current s) (free s) (cache s) v (conns s) (dcons s) (next_id s).
Definition set_conns (v : gmap nat conn) (s : world) : world :=
  mk_world (current s) (free s) (cache s) (active_conns s) v (dcons s) (next_id s).
Definition set_dcons (v : gmap nat dcon) (s : world) : world :=
  mk_world (current s) (free s) (cache s) (active_conns s) (conns s) v (next_id s).
Definition set_next_id (v : nat) (s : world) : world :=
  mk_world (current s) (free s) (cache s) (active_conns s) (conns s) (dcons s) v.

Definition set_owner (o : owner) (c : conn) : conn := mk_conn (conn_fd c) o (conn_idle c).
Definition set_idle (v : bool) (c : conn) : conn := mk_conn (conn_fd c) (conn_owner c) v.

(** Access to a connection through a pointer that may be NULL or dangling. *)
Definition conn_at (c : option nat) (w : world) : option (nat * conn) :=
  c ← c; d ← conns w !! c; Some (c, d).

Definition put_conn (c : nat) (d : conn) (w : world) : world := set_conns (<[c := d]> (conns w)) w.

Definition dcon_live (d : option nat) (w : world) : option dcon := d ← d; dcons w !! d.

(** ** ngx_http_drizzle_keepalive_init *)

Definition empty_item (i : nat) : item := mk_item i None 0 [] None [] 0 false.

Definition ngx_http_drizzle_keepalive_init (g : group) : list item :=
  reverse (map empty_item (seq 0 (pool_max g))).

Definition new_world (g : group) : world :=
  mk_world 0 (ngx_http_drizzle_keepalive_init g) [] 0 ∅ ∅ 0.

(** A request after [ngx_http_upstream_create] and [ngx_http_upstream_drizzle_init_peer],
    with the name of the data base and the query that were chosen for it. *)
Definition new_request (db sql : bytes) : request :=
  mk_request None false 0 [] [] false None false false false [] 0 Drizzle.state_db_connect db sql 0 false 0 true.

(** ** ngx_http_upstream_drizzle_free_connection *)

Definition ngx_http_upstream_drizzle_free_connection (c dc : option nat) (w : world) : option world :=
  let w := set_active_conns (wrap_u 64 (active_conns w - 1)) w in
  w ← match dc with
      | None => Some w
      | Some d => _ ← dcons w !! d; Some (set_dcons (delete d (dcons w)) w)
      end;
  match c with
  | None => Some w
  | Some c => _ ← conns w !! c; Some (set_conns (delete c (conns w)) w)
  end.

(** ** ngx_http_drizzle_keepalive.c *)

(** What both ways to take an entry do: it goes to the free queue, its connection to the
    request. *)
Definition take_item (i : item) (q : request) (w : world) : option (request * world) :=
  '(c, d) ← conn_at (item_connection i) w;
  let w := put_conn c (set_idle false d) w in
  let w := set_free (i :: free w) w in
  let q := set_connection (Some c) (set_pc_cached true q) in
  let q := set_drizzle_con (item_drizzle_con i) (set_has_set_names (item_has_set_names i) q) in
  Some (set_used (item_used i) q, w).

Definition ngx_http_drizzle_keepalive_get_peer_single (q : request) (w : world)
    : option (Z * request * world) :=
  match cache w with
  | i :: rest =>
      '(q, w) ← take_item i q (set_cache rest w);
      let q := set_name (item_name i) (set_sockaddr (item_sockaddr i) (set_socklen (item_socklen i) q)) in
      Some (NGX_DONE, q, w)
  | [] => Some (NGX_DECLINED, q, w)
  end.

(** The search of the queue: the entries before the match, the match and the ones after
    it. *)
Fixpoint find_item (sa : bytes) (n : nat) (items : list item) : option (option (list item * item * list item)) :=
  match items with
  | [] => Some None
  | i :: items =>
      r ← ngx_memn2cmp (item_sockaddr i) sa (item_socklen i) n;
      if r =? 0 then Some (Some ([], i, items))
      else
        f ← find_item sa n items;
        Some (match f with Some (pre, x, post) => Some (i :: pre, x, post) | None => None end)
  end.

Definition ngx_http_drizzle_keepalive_get_peer_multi (q : request) (w : world)
    : option (Z * request * world) :=
  f ← find_item (sockaddr q) (socklen q) (cache w);
  match f with
  | Some (pre, i, post) =>
      '(q, w) ← take_item i q (set_cache (pre ++ post) w);
      Some (NGX_DONE, q, w)
  | None => Some (NGX_DECLINED, q, w)
  end.

(** The entry for a connection that is given back: a free one, or the last one of the
    cache, whose connection is closed. *)
Definition vacant_item (w : world) : option (item * world) :=
  match free w with
  | i :: rest => Some (i, set_free rest w)
  | [] =>
      i ← last (cache w);
      let w := set_cache (removelast (cache w)) w in
      w ← ngx_http_upstream_drizzle_free_connection (item_connection i) (item_drizzle_con i) w;
      Some (i, w)
  end.

(** The answer of the data base was read completely. *)
Definition keeps (q : request) : bool :=
  negb (failed q)
  && ((status_n q =? NGX_HTTP_NOT_FOUND) || (status_n q =? NGX_HTTP_GONE)
      || ((status_n q =? NGX_HTTP_OK) && header_sent q && (content_left q =? 0))).

Definition ngx_http_drizzle_keepalive_free_peer (st : Z) (q : request) (w : world) : option (request * world) :=
  let q := if negb (Z.land st NGX_PEER_FAILED =? 0) then set_failed true q else q in
  match connection q with
  | Some c =>
      if keeps q then
        '(i, w) ← vacant_item w;
        d ← conns w !! c;
        if (sizeof_sockaddr <? socklen q)%nat then None
        else
          let w := put_conn c (set_idle true (set_owner (in_pool (item_id i)) d)) w in
          let q := set_connection None (set_used (wrap_u 64 (used q + 1)) q) in
          let i := mk_item (item_id i) (Some c) (socklen q) (take (socklen q) (sockaddr q)) (drizzle_con q) (name q)
                     (used q) (has_set_names q) in
          Some (q, set_cache (i :: cache w) w)
      else Some (q, w)
  | None => Some (q, w)
  end.

(** The read handler of a connection in the pool: [stale] is [recv] with [EAGAIN],
    [closing] is [c->close]. *)
Definition ngx_http_drizzle_keepalive_close_handler (c i : nat) (closing stale : bool) (w : world) : option world :=
  if negb closing && stale then Some w
  else
    x ← list_find (fun x => item_id x = i) (cache w);
    w ← ngx_http_upstream_drizzle_free_connection (Some c) (item_drizzle_con (snd x)) w;
    Some (set_free (snd x :: free w) (set_cache (delete (fst x) (cache w)) w)).

(** ** ngx_http_upstream_drizzle_get_peer *)

(** What the system answers when a connection is made: [drizzle_con_connect], the
    descriptor ([-1]: none), whether [ngx_get_connection] finds a free connection, and
    whether the connection is registered with the event model. *)
Record connect_env := mk_connect_env {
  ce_connect : Z;
  ce_fd : Z;
  ce_get_connection : bool;
  ce_add_conn : bool
}.

(** A new entry of a table at a new address. *)
Definition new_conn (fd : Z) (w : world) : nat * world :=
  (next_id w, set_next_id (S (next_id w)) (put_conn (next_id w) (mk_conn fd nobody false) w)).

Definition new_dcon (d : dcon) (w : world) : nat * world :=
  (next_id w, set_next_id (S (next_id w)) (set_dcons (<[next_id w := d]> (dcons w)) w)).

(** The connection to the server: [ngx_memcpy(dc->db, ...)] and its companions store the
    name and a NUL in arrays of [DRIZZLE_MAX_DB_SIZE] bytes and so on. *)
Definition make_dcon (p : ngx_http_upstream_drizzle_peer_t) (fd : Z) (q : request) : option dcon :=
  let db := if negb (length (dbname q) =? 0)%nat then dbname q else peer_dbname p in
  if (DRIZZLE_MAX_DB_SIZE <=? length db)%nat || (DRIZZLE_MAX_USER_SIZE <=? length (peer_user p))%nat
     || (DRIZZLE_MAX_PASSWORD_SIZE <=? length (peer_password p))%nat
  then None
  else Some (mk_dcon fd (match peer_protocol p with ngx_http_mysql_protocol => true | _ => false end)
               db (peer_user p) (peer_password p) (peer_host p) (peer_port p)).

(** From [drizzle_con_connect] on. *)
Definition open_connection (e : connect_env) (p : ngx_http_upstream_drizzle_peer_t) (q : request) (w : world)
    : option (Z * request * world) :=
  d ← make_dcon p (ce_fd e) q;
  let '(dc, w1) := new_dcon d w in
  let q := set_drizzle_con (Some dc) q in
  if negb (ce_connect e =? Drizzle.DRIZZLE_RETURN_OK) && negb (ce_connect e =? Drizzle.DRIZZLE_RETURN_IO_WAIT)
  then Some (NGX_DECLINED, q, set_dcons (delete dc (dcons w1)) w1)
  else
    let w := set_active_conns (wrap_u 64 (active_conns w1 + 1)) w1 in
    let invalid (q : request) (w : world) :=
      w ← ngx_http_upstream_drizzle_free_connection (connection q) (Some dc) w;
      Some (NGX_ERROR, q, w) in
    if (ce_fd e =? -1) || negb (ce_get_connection e) then invalid q w
    else
      let '(c, w) := new_conn (ce_fd e) w in
      let q := set_connection (Some c) q in
      let waiting := ce_connect e =? Drizzle.DRIZZLE_RETURN_IO_WAIT in
      let q := set_state (if waiting then Drizzle.state_db_connect else Drizzle.state_db_idle) q in
      if negb (ce_add_conn e) then invalid q w
      else Some (if waiting then NGX_AGAIN else NGX_DONE, q, w).

Definition ngx_http_upstream_drizzle_get_peer (g : group) (e : connect_env) (q : request) (w : world)
    : option (Z * request * world) :=
  let q := set_failed false q in
  let keepalive := negb (pool_max g =? 0)%nat in
  '(rc, q, w) ← (if keepalive && pool_single g then ngx_http_drizzle_keepalive_get_peer_single q w
                 else Some (NGX_DECLINED, q, w));
  if negb (rc =? NGX_DECLINED) then Some (rc, q, w)
  else
    let w := if current w >? Z.of_nat (length (peers g)) - 1 then set_current 0 w else w in
    p ← peers g !! Z.to_nat (current w);
    let w := set_current (current w + 1) w in
    let q := set_name (peer_name p) (set_sockaddr (take sizeof_sockaddr (peer_sockaddr p)) q) in
    let q := set_enable_charset (negb (length (peer_set_names_query p) =? 0)%nat) q in
    let q := set_set_names_query (peer_set_names_query p) q in
    let q := set_socklen (length (peer_sockaddr p)) (set_pc_cached false q) in
    '(rc, q, w) ← (if keepalive && negb (pool_single g) then ngx_http_drizzle_keepalive_get_peer_multi q w
                   else Some (NGX_DECLINED, q, w));
    if negb (rc =? NGX_DECLINED) then Some (rc, q, w)
    else
      match pool_overflow g with
      | drizzle_keepalive_overflow_reject =>
          if active_conns w >=? Z.of_nat (pool_max g) then
            if ce_get_connection e then
              let '(c, w) := new_conn 0 w in
              Some (NGX_AGAIN, set_connection (Some c) q, w)
            else Some (NGX_AGAIN, set_connection None q, w)
          else open_connection e p q w
      | drizzle_keepalive_overflow_ignore => open_connection e p q w
      end.

(** ** ngx_http_upstream_drizzle_free_peer *)

Definition ngx_http_upstream_drizzle_free_peer (g : group) (st : Z) (q : request) (w : world)
    : option (request * world) :=
  _ ← (match drizzle_con q with
       | Some _ => if res_con q then dcon_live (drizzle_con q) w ≫= (fun _ => Some tt) else Some tt
       | None => Some tt
       end);
  '(q, w) ← (if negb (pool_max g =? 0)%nat then ngx_http_drizzle_keepalive_free_peer st q w else Some (q, w));
  match connection q with
  | Some c =>
      w ← ngx_http_upstream_drizzle_free_connection (Some c) (drizzle_con q) w;
      Some (set_drizzle_con None (set_connection None q), w)
  | None => Some (q, w)
  end.

(** ** The end of a request *)

(** The answer to the client: [inl rc] for [ngx_http_finalize_request(r, rc)], [inr tt]
    after [ngx_http_send_special(r, NGX_HTTP_LAST)]. *)
Definition ngx_http_upstream_drizzle_finalize_request (g : group) (rc : Z) (q : request) (w : world)
    : option (request * world * option (Z + unit)) :=
  let q := set_cleanup false q in
  '(q, w) ← ngx_http_upstream_drizzle_free_peer g 0 q w;
  w ← (match connection q with
       | Some c => _ ← conns w !! c; Some (set_conns (delete c (conns w)) w)
       | None => Some w
       end);
  Some (set_connection None q, w, Drizzle.ngx_http_upstream_drizzle_finalize_request (header_sent q) rc).

(** The status for a failure. *)
Definition next_status (ft : Z) (cached : bool) : Z :=
  if cached && (ft =? NGX_HTTP_UPSTREAM_FT_ERROR) then 0
  else if ft =? NGX_HTTP_UPSTREAM_FT_TIMEOUT then NGX_HTTP_GATEWAY_TIME_OUT
  else if ft =? NGX_HTTP_UPSTREAM_FT_HTTP_500 then NGX_HTTP_INTERNAL_SERVER_ERROR
  else if ft =? NGX_HTTP_UPSTREAM_FT_HTTP_404 then NGX_HTTP_NOT_FOUND
  else NGX_HTTP_BAD_GATEWAY.

(** [client_error] is [r->connection->error].  [u->peer.tries] is never set and stays 0,
    so that a status ends the request at once. *)
Definition ngx_http_upstream_drizzle_next (g : group) (ft : Z) (client_error : bool) (q : request) (w : world)
    : option (request * world * option (Z + unit)) :=
  let st := if ft =? NGX_HTTP_UPSTREAM_FT_HTTP_404 then NGX_PEER_NEXT else NGX_PEER_FAILED in
  '(q, w) ← (if negb (ft =? NGX_HTTP_UPSTREAM_FT_NOLIVE) then ngx_http_upstream_drizzle_free_peer g st q w
             else Some (q, w));
  let status := next_status ft (pc_cached q) in
  if client_error then ngx_http_upstream_drizzle_finalize_request g NGX_HTTP_CLIENT_CLOSED_REQUEST q w
  else if negb (status =? 0) then ngx_http_upstream_drizzle_finalize_request g status q w
  else
    w ← (match connection q with
         | Some c => _ ← conns w !! c; Some (set_conns (delete c (conns w)) w)
         | None => Some w
         end);
    ngx_http_upstream_drizzle_finalize_request g NGX_HTTP_INTERNAL_SERVER_ERROR q w.

(** ** The processor, seen from outside *)

(** How a call of [ngx_http_drizzle_process_events] ends: it waits for the data base,
    the result was read to its end or the table does not exist
    ([ngx_http_upstream_drizzle_done] with [NGX_DONE] or 410), an error ends the request,
    or the connection failed. *)
Inductive processed := p_waits | p_done (rc : Z) | p_finalized (rc : Z) | p_failed.

(** [names]: the character set was set on the way; [queried]: a result was opened. *)
Record progress := mk_progress { pr_names : bool; pr_queried : bool; pr_header : bool; pr_end : processed }.

Definition process_events (g : group) (o : progress) (client_error : bool) (q : request) (w : world)
    : option (request * world * option (Z + unit)) :=
  _ ← dcon_live (drizzle_con q) w;
  _ ← conn_at (connection q) w;
  let q := set_has_set_names (has_set_names q || pr_names o) (set_res_con (res_con q || pr_queried o) q) in
  let q := set_header_sent (header_sent q || pr_header o) q in
  match pr_end o with
  | p_waits => Some (q, w, None)
  | p_done rc =>
      let q := set_state Drizzle.state_db_idle (set_content_left 0 q) in
      if rc =? NGX_DONE
      then ngx_http_upstream_drizzle_finalize_request g NGX_OK
             (set_header_sent true (set_status_n NGX_HTTP_OK q)) w
      else ngx_http_upstream_drizzle_finalize_request g rc (set_status_n rc q) w
  | p_finalized rc => ngx_http_upstream_drizzle_finalize_request g rc q w
  | p_failed => ngx_http_upstream_drizzle_next g NGX_HTTP_UPSTREAM_FT_ERROR client_error q w
  end.

(** ** ngx_http_upstream_dbd_connect *)

Definition ngx_http_upstream_dbd_connect (g : group) (r : nat) (e : connect_env) (o : progress) (client_error : bool)
    (q : request) (w : world) : option (request * world * option (Z + unit)) :=
  '(rc, q, w) ← ngx_http_upstream_drizzle_get_peer g e q w;
  if rc =? NGX_ERROR then ngx_http_upstream_drizzle_finalize_request g NGX_HTTP_INTERNAL_SERVER_ERROR q w
  else if rc =? NGX_DECLINED
  then ngx_http_upstream_drizzle_next g NGX_HTTP_UPSTREAM_FT_ERROR client_error q w
  else
    '(c, d) ← conn_at (connection q) w;
    let w := put_conn c (set_owner (in_request r) d) w in
    if rc =? NGX_AGAIN then Some (q, w, None) else process_events g o client_error q w.

(** ** ngx_http_drizzle_handler, from [ngx_http_upstream_dbd_init] on *)

(** The request [r] with its data base and query, or [None] when
    [ngx_http_upstream_drizzle_init_peer] fails.  A connection with the descriptor 0 is
    the mark of a request that the pool rejected. *)
Definition start_request (g : group) (r : nat) (init : option (bytes * bytes)) (e : connect_env) (o : progress)
    (client_error : bool) (w : world) : option (request * world * option (Z + unit)) :=
  '(q, w, out) ← (match init with
                  | Some (db, sql) => ngx_http_upstream_dbd_connect g r e o client_error (new_request db sql) w
                  | None => ngx_http_upstream_drizzle_finalize_request g NGX_HTTP_INTERNAL_SERVER_ERROR
                              (new_request [] []) w
                  end);
  match connection q with
  | None => Some (q, w, out)
  | Some c =>
      d ← conns w !! c;
      if conn_fd d =? 0 then
        '(q, w, out') ← ngx_http_upstream_drizzle_finalize_request g NGX_HTTP_SERVICE_UNAVAILABLE
                          (set_connection None q) (set_conns (delete c (conns w)) w);
        Some (q, w, match out with None => out' | _ => out end)
      else Some (q, w, out)
  end.

(** [ngx_http_drizzle_wev_handler] and [ngx_http_drizzle_rev_handler]: [timedout] of the
    event, and the result of [ngx_http_upstream_drizzle_test_connect].  After a time-out the
    number of the thread is read from the connection, when there is one
    ([ngx_http_drizzle_set_thread_id_variable]). *)
Definition request_event (g : group) (timedout broken : bool) (o : progress) (client_error : bool) (q : request)
    (w : world) : option (request * world * option (Z + unit)) :=
  _ ← conn_at (connection q) w;
  if timedout then
    _ ← (match drizzle_con q with
         | Some _ => dcon_live (drizzle_con q) w ≫= (fun _ => Some tt)
         | None => Some tt
         end);
    ngx_http_upstream_drizzle_next g NGX_HTTP_UPSTREAM_FT_TIMEOUT client_error q w
  else if broken then ngx_http_upstream_drizzle_next g NGX_HTTP_UPSTREAM_FT_ERROR client_error q w
  else process_events g o client_error q w.

(** ** Events *)

Inductive event :=
  | ev_request (init : option (bytes * bytes)) (e : connect_env) (o : progress) (client_error : bool)
  | ev_read (c : nat) (timedout broken : bool) (o : progress) (client_error closing stale : bool)
  | ev_write (c : nat) (timedout broken : bool) (o : progress) (client_error : bool)
  | ev_client (r : nat) (rc : Z).   (* the client closed the connection, or the request is destroyed *)

(** The whole state: the world, the requests by number, and the answers that were given. *)
Record system := mk_system { world_of : world; requests : gmap nat request; next_request : nat;
                             answers : list (nat * (Z + unit)) }.

Definition new_system (g : group) : system := mk_system (new_world g) ∅ 0 [].

(** After a step of the request [r]. *)
Definition record_step (r : nat) (s : system) (x : request * world * option (Z + unit)) : system :=
  let '(q, w, out) := x in
  mk_system w (<[r := q]> (requests s)) (next_request s)
    (answers s ++ match out with Some a => [(r, a)] | None => [] end).

Definition on_request (r : nat) (s : system) (f : request → world → option (request * world * option (Z + unit)))
    : option system :=
  q ← requests s !! r; x ← f q (world_of s); Some (record_step r s x).

(** An event of a connection goes to its owner; an event for a connection that is not in
    the table, or a message of a client for a request that has ended, does not occur: the
    code has no test for the latter, [ngx_http_finalize_request] has put other handlers in the
    place of the one that is modelled here. *)
Definition step (g : group) (ev : event) (s : system) : option system :=
  let w := world_of s in
  match ev with
  | ev_request init e o client_error =>
      let r := next_request s in
      x ← start_request g r init e o client_error w;
      Some (record_step r (mk_system w (requests s) (S r) (answers s)) x)
  | ev_read c timedout broken o client_error closing stale =>
      match conns w !! c with
      | None => Some s
      | Some d =>
          match conn_owner d with
          | in_request r => on_request r s (request_event g timedout broken o client_error)
          | in_pool i =>
              w ← ngx_http_drizzle_keepalive_close_handler c i closing stale w;
              Some (mk_system w (requests s) (next_request s) (answers s))
          | nobody => None
          end
      end
  | ev_write c timedout broken o client_error =>
      match conns w !! c with
      | None => Some s
      | Some d =>
          match conn_owner d with
          | in_request r => on_request r s (request_event g timedout broken o client_error)
          | in_pool _ => Some s
          | nobody => None
          end
      end
  | ev_client r rc =>
      match requests s !! r with
      | None => Some s
      | Some q =>
          if cleanup q then on_request r s (ngx_http_upstream_drizzle_finalize_request g rc) else Some s
      end
  end.

Fixpoint run (g : group) (evs : list event) (s : system) : option system :=
  match evs with
  | [] => Some s
  | ev :: evs => s ← step g ev s; run g evs s
  end.

End DrizzlePool.
