(* ===== verification/DrizzlePoolProof.v ===== *)
(** The connections of the drizzle module are kept safely: the invariant of the tables,
    the pool and the requests, and what follows from it for every sequence of events. *)

From S2P Require Import Prelude NgxCompare Drizzle DrizzleUpstream DrizzlePool.
From stdpp Require Import gmap.

Open Scope Z_scope.

Module DrizzlePoolProof.

Import DrizzleUpstream.
Export DrizzlePool.

(** * Specification *)

(** Who uses which connection: the owner, the connection of nginx, the connection of
    libdrizzle. *)
Definition holding : Type := owner * nat * nat.

Definition h_conn (h : holding) : nat := h.1.2.
Definition h_dcon (h : holding) : nat := h.2.

Definition item_holding (x : item) : holding :=
  (in_pool (item_id x), default 0%nat (item_connection x), default 0%nat (item_drizzle_con x)).

Definition item_ok (x : item) : Prop :=
  is_Some (item_connection x) ∧ is_Some (item_drizzle_con x)
  ∧ length (item_sockaddr x) = item_socklen x ∧ (item_socklen x <= sizeof_sockaddr)%nat.

(** All connections that are held when the requests hold [hs]. *)
Definition all_held (hs : list holding) (w : world) : list holding := hs ++ map item_holding (cache w).

Definition live (w : world) (h : holding) : Prop :=
  (∃ d, conns w !! h_conn h = Some d ∧ conn_owner d = h.1.1 ∧ conn_fd d ≠ 0) ∧ (h_conn h < next_id w)%nat ∧ (h_dcon h < next_id w)%nat.

(** The invariant of a world.  [spare] are the entries of the array that are in neither
    queue while they are being moved. *)
Record winv (g : group) (spare : list nat) (hs : list holding) (w : world) : Prop := {
  wi_conns : NoDup (map h_conn (all_held hs w));
  wi_dcons : NoDup (map h_dcon (all_held hs w));
  wi_live : Forall (live w) (all_held hs w);
  wi_dom : dom (conns w) = list_to_set (C := gset nat) (map h_conn (all_held hs w));
  wi_ddom : dom (dcons w) = list_to_set (C := gset nat) (map h_dcon (all_held hs w));
  wi_active : active_conns w = Z.of_nat (length (all_held hs w));
  wi_items : Forall item_ok (cache w);
  wi_queue : map item_id (cache w ++ free w) ++ spare ≡ₚ seq 0 (pool_max g);
  wi_reject : pool_overflow g = drizzle_keepalive_overflow_reject →
              (length (all_held hs w) <= pool_max g)%nat;
  wi_width : Z.of_nat (length (all_held hs w)) < 2 ^ 64;
  wi_current : 0 <= current w
}.

(** * Worlds *)

Lemma Forall_with {A : Type} (P Q : A → Prop) (l : list A) :
  Forall P l → (∀ x, x ∈ l → P x → Q x) → Forall Q l.
Proof. rewrite !Forall_forall. eauto. Qed.

Lemma memcmp_ok (s1 s2 : bytes) (n : nat) :
  (n <= length s1)%nat → (n <= length s2)%nat →
  ∃ m, memcmp s1 s2 n = Some m ∧ (m = 0 ↔ take n s1 = take n s2).
Proof.
  revert s1 s2. induction n as [|n IH]; intros s1 s2 H1 H2; [by exists 0|].
  destruct s1 as [|x s1], s2 as [|y s2]; cbn in H1, H2; try lia. cbn [memcmp take].
  destruct (Z.eqb_spec x y) as [->|Hne].
  - destruct (IH s1 s2) as (m & -> & Hm); [lia..|]. exists m. split; [done|]. rewrite Hm. split; congruence.
  - exists (x - y). split; [done|]. split; [lia|]. intros [= ? ?]. lia.
Qed.

Lemma memn2cmp_ok (s1 s2 : bytes) :
  ∃ r, ngx_memn2cmp s1 s2 (length s1) (length s2) = Some r ∧ (r = 0 ↔ s1 = s2).
Proof.
  unfold ngx_memn2cmp. destruct (Nat.leb_spec (length s1) (length s2)) as [H|H].
  - destruct (memcmp_ok s1 s2 (length s1)) as (m & -> & Hm); [lia..|]. rewrite take_ge in Hm by lia.
    destruct (Z.eqb_spec m 0) as [->|Hne]; cbn [negb orb].
    + destruct (Nat.eqb_spec (length s1) (length s2)) as [E|E].
      * exists 0. split; [done|]. rewrite Hm. by rewrite E, take_ge by lia.
      * exists (-1). split; [done|]. split; [lia|]. by intros ->.
    + exists m. split; [done|]. split; [done|]. intros ->. exfalso. apply Hne, Hm. by rewrite take_ge.
  - destruct (memcmp_ok s1 s2 (length s2)) as (m & -> & Hm); [lia..|].
    rewrite (proj2 (Nat.eqb_neq _ _)) by lia. destruct (Z.eqb_spec m 0) as [->|Hne]; cbn [negb orb].
    + exists 1. split; [done|]. split; [lia|]. intros ->. lia.
    + exists m. split; [done|]. split; [done|]. intros ->. lia.
Qed.

Lemma set_remove (c : nat) (l : list nat) :
  c ∉ l → list_to_set (C := gset nat) (c :: l) ∖ {[c]} = list_to_set l.
Proof. intros H. apply set_eq. intros x. cbn. rewrite elem_of_difference, elem_of_union, elem_of_singleton, !elem_of_list_to_set.
  split; [tauto|]. intros Hx. split; [tauto|]. by intros ->.
Qed.

Section World.
Context (g : group).

Lemma held_count spare hs w : winv g spare hs w → size (conns w) = length (all_held hs w) ∧ size (dcons w) = length (all_held hs w).
Proof.
  intros [W1 W2 _ D1 D2 _ _ _ _ _]. rewrite <- !size_dom. rewrite D1, D2, !size_list_to_set by done.
  by rewrite !length_map.
Qed.

Lemma winv_perm spare hs hs' w : hs ≡ₚ hs' → winv g spare hs w → winv g spare hs' w.
Proof.
  intros P [W1 W2 W3 W4 W5 W6 W7 W8 W9 W10 W11].
  assert (P' : all_held hs w ≡ₚ all_held hs' w) by by apply Permutation_app_tail.
  split; try done; by rewrite <- P'.
Qed.

(** The next address is free. *)
Lemma winv_fresh spare hs w : winv g spare hs w → conns w !! next_id w = None ∧ dcons w !! next_id w = None.
Proof.
  intros W. split; apply not_elem_of_dom; rewrite ?(wi_dom _ _ _ _ W), ?(wi_ddom _ _ _ _ W);
    intros (h & Eh & Hh)%elem_of_list_to_set%list_elem_of_fmap;
    pose proof (proj1 (Forall_forall _ _) (wi_live _ _ _ _ W) h Hh) as (_ & L1 & L2); lia.
Qed.

(** A connection that is in use leaves both tables. *)
Lemma winv_drop spare o c dc hs w :
  winv g spare ((o, c, dc) :: hs) w →
  ∃ w', ngx_http_upstream_drizzle_free_connection (Some c) (Some dc) w = Some w' ∧ winv g spare hs w'
        ∧ cache w' = cache w ∧ free w' = free w ∧ current w' = current w.
Proof.
  intros [W1 W2 W3 W4 W5 W6 W7 W8 W9 W10 W11]. unfold all_held in *. cbn [app map] in *. unfold h_conn at 1 in W1. unfold h_dcon at 1 in W2. cbn [fst snd] in *.
  apply NoDup_cons in W1 as [N1 W1]. apply NoDup_cons in W2 as [N2 W2].
  apply Forall_cons in W3 as [((d & Ed & _) & _) W3]. unfold h_conn in Ed; cbn [fst snd] in Ed.
  assert (Hdd : is_Some (dcons w !! dc)) by (apply elem_of_dom; rewrite W5; by apply elem_of_union_l, elem_of_singleton).
  destruct Hdd as [dd Edd].
  unfold ngx_http_upstream_drizzle_free_connection. cbn [dcons set_active_conns]. rewrite Edd. cbn. rewrite Ed. cbn.
  eexists. split; [reflexivity|]. split; [|done]. cbn [length] in *.
  split; unfold all_held; cbn [cache conns dcons active_conns free current set_conns set_dcons set_active_conns next_id]; try done.
  - eapply Forall_with; [exact W3|]. intros h Hh ((d' & E' & O') & L). split; [|done]. exists d'. split; [|done]. rewrite <- E'. apply lookup_delete_ne.
    intros Hc. apply N1. rewrite Hc. by apply list_elem_of_fmap_2.
  - rewrite dom_delete_L, W4. by apply set_remove.
  - rewrite dom_delete_L, W5. by apply set_remove.
  - rewrite W6. unfold wrap_u. rewrite Z.mod_small; lia.
  - intros Hr. specialize (W9 Hr). lia.
  - lia.
Qed.

(** A connection gets another owner. *)
Lemma winv_owner spare o o' c dc hs w d v :
  winv g spare ((o, c, dc) :: hs) w → conns w !! c = Some d →
  winv g spare ((o', c, dc) :: hs) (put_conn c (mk_conn (conn_fd d) o' v) w).
Proof.
  intros [W1 W2 W3 W4 W5 W6 W7 W8 W9 W10 W11] Ed. unfold all_held in *. cbn [app map] in *.
  pose proof (proj1 (proj1 (NoDup_cons _ _) W1)) as N1.
  change (c ∉ map h_conn (hs ++ map item_holding (cache w))) in N1. apply Forall_cons in W3 as [((d0 & E0 & _ & F0) & L1 & L2) W3].
  change (conns w !! c = Some d0) in E0. rewrite Ed in E0. injection E0 as <-.
  split; try done; unfold all_held; cbn [app].
  - apply Forall_cons. split.
    + split; [|done]. eexists. split; [apply lookup_insert_eq|done].
    + eapply Forall_with; [exact W3|]. intros h Hh ((d' & E' & O') & L). split; [|done]. exists d'. split; [|done].
      rewrite <- E'. apply lookup_insert_ne. intros Hc. apply N1. rewrite Hc. by apply list_elem_of_fmap_2.
  - cbn [conns put_conn set_conns]. rewrite dom_insert_lookup_L by done. exact W4.
Qed.

(** A new pair of connections. *)
Lemma winv_open spare hs w d dd :
  winv g spare hs w → Z.of_nat (length (all_held hs w)) + 1 < 2 ^ 64 →
  (pool_overflow g = drizzle_keepalive_overflow_reject → (length (all_held hs w) < pool_max g)%nat) → conn_fd d ≠ 0 →
  winv g spare ((conn_owner d, S (next_id w), next_id w) :: hs)
    (mk_world (current w) (free w) (cache w) (wrap_u 64 (active_conns w + 1))
       (<[S (next_id w) := d]> (conns w)) (<[next_id w := dd]> (dcons w)) (S (S (next_id w)))).
Proof.
  intros [W1 W2 W3 W4 W5 W6 W7 W8 W9 W10 W11] Hl Hr Hfd. unfold all_held in *.
  assert (F : ∀ h, h ∈ hs ++ map item_holding (cache w) → (h_conn h < next_id w)%nat ∧ (h_dcon h < next_id w)%nat).
  { rewrite Forall_forall in W3. intros h Hh. by destruct (W3 h Hh). }
  assert (N1 : S (next_id w) ∉ map h_conn (hs ++ map item_holding (cache w))).
  { intros (h & Eh & Hh)%list_elem_of_fmap. apply F in Hh. lia. }
  assert (N2 : next_id w ∉ map h_dcon (hs ++ map item_holding (cache w))).
  { intros (h & Eh & Hh)%list_elem_of_fmap. apply F in Hh. lia. }
  split; unfold all_held; cbn [app map cache conns dcons active_conns free current next_id length]; try done.
  - by apply NoDup_cons.
  - by apply NoDup_cons.
  - apply Forall_cons. split.
    + split; [|cbn; lia]. eexists. split; [apply lookup_insert_eq|done].
    + eapply Forall_with; [exact W3|]. intros h Hh ((d' & E' & O') & L). destruct (F h Hh).
      split; [|cbn; lia]. exists d'. split; [|done]. rewrite <- E'. apply lookup_insert_ne. lia.
  - rewrite dom_insert_L, W4. reflexivity.
  - rewrite dom_insert_L, W5. reflexivity.
  - rewrite W6. unfold wrap_u. rewrite Z.mod_small; lia.
  - lia.
Qed.

(** An entry leaves the cache with its connection in use, or goes there. *)
Lemma winv_uncache spare hs w pre x post :
  cache w = pre ++ x :: post →
  winv g spare hs w ↔ (item_ok x ∧ winv g (item_id x :: spare) (item_holding x :: hs) (set_cache (pre ++ post) w)).
Proof.
  intros Ec.
  assert (P : all_held hs w ≡ₚ all_held (item_holding x :: hs) (set_cache (pre ++ post) w)).
  { unfold all_held. rewrite Ec. cbn [cache set_cache]. rewrite !map_app. cbn [map app].
    rewrite <- Permutation_middle. rewrite (Permutation_app_comm hs). solve_Permutation. }
  assert (Q : map item_id (cache w ++ free w) ++ spare
              ≡ₚ map item_id ((pre ++ post) ++ free w) ++ item_id x :: spare).
  { rewrite Ec. rewrite !map_app. cbn [map app]. solve_Permutation. }
  split.
  - intros [W1 W2 W3 W4 W5 W6 W7 W8 W9 W10 W11]. rewrite Ec in W7.
    apply Forall_app in W7 as [A1 [A2 A3]%Forall_cons]. split; [done|].
    split; cbn [conns dcons active_conns free current next_id set_cache]; try done; try (by rewrite <- P).
    + cbn [cache set_cache]. by apply Forall_app.
    + cbn [cache set_cache]. by rewrite <- Q.
  - intros [Hx [W1 W2 W3 W4 W5 W6 W7 W8 W9 W10 W11]].
    split; try done; try (by rewrite P).
    + rewrite Ec. apply Forall_app in W7 as [A1 A2]. by apply Forall_app; split; [|apply Forall_cons].
    + by rewrite Q.
Qed.

(** The free queue. *)
Lemma winv_free spare hs w x rest :
  winv g spare hs (set_free (x :: rest) w) ↔ winv g (item_id x :: spare) hs (set_free rest w).
Proof.
  assert (Q : map item_id (cache w ++ x :: rest) ++ spare ≡ₚ map item_id (cache w ++ rest) ++ item_id x :: spare).
  { rewrite !map_app. cbn [map app]. solve_Permutation. }
  split; intros [W1 W2 W3 W4 W5 W6 W7 W8 W9 W10 W11]; split; try done; cbn [cache free set_free] in *.
  - by rewrite <- Q.
  - by rewrite Q.
Qed.

(** ** Operations on the pool *)

Lemma take_item_ok hs w q pre x post :
  winv g [] hs w → cache w = pre ++ x :: post →
  ∃ c dc w', take_item x q (set_cache (pre ++ post) w)
    = Some (set_used (item_used x) (set_drizzle_con (Some dc) (set_has_set_names (item_has_set_names x)
              (set_connection (Some c) (set_pc_cached true q)))), w')
    ∧ winv g [] ((in_pool (item_id x), c, dc) :: hs) w' ∧ item_connection x = Some c ∧ item_drizzle_con x = Some dc.
Proof.
  intros W Ec. apply (winv_uncache _ _ _ _ _ _ Ec) in W as [Hx W].
  destruct Hx as ([c E1] & [dc E2] & _). assert (Eh : item_holding x = (in_pool (item_id x), c, dc)).
  { unfold item_holding. by rewrite E1, E2. }
  rewrite Eh in W. destruct (proj1 (Forall_cons _ _ _) (wi_live _ _ _ _ W)) as [((d & Ed & Eo & _) & _) _].
  change (conns w !! c = Some d) in Ed. change (conn_owner d = in_pool (item_id x)) in Eo.
  pose proof (winv_owner _ _ (in_pool (item_id x)) _ _ _ _ d false W Ed) as W'.
  unfold take_item, conn_at. cbn [conns set_cache]. rewrite E1. cbn. rewrite Ed. cbn. rewrite E2.
  eexists c, dc, _. split; [reflexivity|]. split; [|done]. apply winv_free.
  unfold set_idle. rewrite Eo. exact W'.
Qed.

Lemma find_item_ok (sa : bytes) (items : list item) :
  Forall item_ok items →
  ∃ f, find_item sa (length sa) items = Some f
    ∧ match f with Some (pre, x, post) => items = pre ++ x :: post ∧ item_sockaddr x = sa | None => True end.
Proof.
  induction 1 as [|x items (_ & _ & Hx & _) _ (f & IH & Hf)]; [by eexists|].
  cbn [find_item]. rewrite <- Hx. destruct (memn2cmp_ok (item_sockaddr x) sa) as (r & -> & Hr). cbn.
  destruct (Z.eqb_spec r 0) as [->|_]; [eexists; split; [reflexivity|]; split; [done|by apply Hr]|].
  rewrite IH. cbn. eexists. split; [reflexivity|]. destruct f as [[[pre y] post]|]; [|done]. by destruct Hf as [-> ?].
Qed.

Lemma vacant_item_ok hs w :
  winv g [] hs w → pool_max g ≠ 0%nat → ∃ x w', vacant_item w = Some (x, w') ∧ winv g [item_id x] hs w'.
Proof.
  intros W Hm. unfold vacant_item. destruct (free w) as [|x rest] eqn:Ef.
  - pose proof (Permutation_length (wi_queue _ _ _ _ W)) as L. rewrite Ef, !app_nil_r, length_map, length_seq in L.
    destruct (exists_last (l := cache w)) as (l & x & Ec); [by intros E; rewrite E in L|].
    rewrite Ec, last_snoc, removelast_last. cbn.
    destruct (proj1 (winv_uncache _ _ _ _ _ _ Ec) W) as [Hx W1]. rewrite app_nil_r in W1.
    destruct Hx as ([c E1] & [dc E2] & _). unfold item_holding in W1. rewrite E1, E2 in *. cbn in W1.
    destruct (winv_drop _ _ _ _ _ _ W1) as (w' & E & W2 & _). rewrite E. cbn. by exists x, w'.
  - exists x, (set_free rest w). split; [done|]. apply winv_free. by destruct w; cbn in Ef; subst.
Qed.

(** The request holds the connections [c] and [dc] and nobody else does. *)
Record held (o : owner) (c dc : nat) (hs : list holding) (q : request) (w : world) : Prop := {
  hd_conn : connection q = Some c;
  hd_dcon : drizzle_con q = Some dc;
  hd_addr : length (sockaddr q) = socklen q;
  hd_socklen : (socklen q <= sizeof_sockaddr)%nat;
  hd_failed : failed q = false;
  hd_inv : winv g [] ((o, c, dc) :: hs) w
}.

(** A request that holds a connection, or one that cannot touch any. *)
Definition good (o : owner) (hs : list holding) (q : request) (w : world) : Prop :=
  match connection q with
  | Some c => ∃ dc, held o c dc hs q w
  | None => (drizzle_con q = None ∨ res_con q = false) ∧ winv g [] hs w
  end.

Lemma held_good o c dc hs q w : held o c dc hs q w → good o hs q w.
Proof. intros H. unfold good. rewrite (hd_conn _ _ _ _ _ _ H). by exists dc. Qed.

Definition mark (st : Z) (q : request) : request :=
  if negb (Z.land st NGX_PEER_FAILED =? 0) then set_failed true q else q.

Lemma mark_same st q :
  connection (mark st q) = connection q ∧ drizzle_con (mark st q) = drizzle_con q
  ∧ sockaddr (mark st q) = sockaddr q ∧ socklen (mark st q) = socklen q ∧ used (mark st q) = used q
  ∧ cleanup (mark st q) = cleanup q ∧ res_con (mark st q) = res_con q ∧ header_sent (mark st q) = header_sent q.
Proof. unfold mark. by case_match. Qed.

(** A connection goes to an entry that is in neither queue. *)
Lemma winv_recache c dc hs w x :
  winv g [item_id x] ((in_pool (item_id x), c, dc) :: hs) w →
  item_connection x = Some c → item_drizzle_con x = Some dc → length (item_sockaddr x) = item_socklen x →
  (item_socklen x <= sizeof_sockaddr)%nat → winv g [] hs (set_cache (x :: cache w) w).
Proof.
  intros W E1 E2 E3 E4. apply (winv_uncache [] hs (set_cache (x :: cache w) w) [] x (cache w)); [done|].
  split; [by repeat split|]. unfold item_holding. rewrite E1, E2. by destruct w.
Qed.

Lemma keepalive_free_peer_ok o c dc hs st q w :
  held o c dc hs q w → pool_max g ≠ 0%nat →
  if keeps (mark st q)
  then ∃ w', ngx_http_drizzle_keepalive_free_peer st q w
             = Some (set_connection None (set_used (wrap_u 64 (used q + 1)) (mark st q)), w') ∧ winv g [] hs w'
             ∧ ∃ x rest, cache w' = x :: rest ∧ item_connection x = Some c ∧ item_drizzle_con x = Some dc
                         ∧ item_has_set_names x = has_set_names q
  else ngx_http_drizzle_keepalive_free_peer st q w = Some (mark st q, w).
Proof.
  intros [H1 H2 H3 H4 H0 W] Hm. unfold ngx_http_drizzle_keepalive_free_peer. fold (mark st q).
  destruct (mark_same st q) as (M1 & M2 & M3 & M4 & M5 & _). rewrite M1, H1.
  destruct (keeps (mark st q)); [|done].
  destruct (vacant_item_ok _ _ W Hm) as (x & w1 & -> & W1). cbn [mbind option_bind].
  destruct (proj1 (Forall_cons _ _ _) (wi_live _ _ _ _ W1)) as [((d & Ed & _) & _) _].
  change (conns w1 !! c = Some d) in Ed. rewrite Ed. cbn [mbind option_bind].
  rewrite M4, (proj2 (Nat.ltb_ge _ _)) by done.
  cbn [drizzle_con sockaddr used name has_set_names socklen set_connection set_used]. rewrite M2, M3, M4, M5, H2.
  eexists. split; [reflexivity|].
  pose proof (winv_owner _ _ (in_pool (item_id x)) _ _ _ _ d true W1 Ed) as W2.
  split.
  - eapply winv_recache; cbn [item_id item_connection item_drizzle_con item_sockaddr item_socklen]; [exact W2|done|done| |done].
    rewrite length_take. lia.
  - eexists _, _. split; [reflexivity|]. split_and!; try done. cbn. unfold mark. by case_match.
Qed.

Lemma free_peer_held o c dc hs st q w :
  held o c dc hs q w →
  ∃ q' w', ngx_http_upstream_drizzle_free_peer g st q w = Some (q', w') ∧ connection q' = None ∧ winv g [] hs w'
    ∧ cleanup q' = cleanup q ∧ header_sent q' = header_sent q
    ∧ (Z.land st NGX_PEER_FAILED ≠ 0 → drizzle_con q' = None).
Proof.
  intros H. pose proof H as [H1 H2 H3 H4 H0 W]. unfold ngx_http_upstream_drizzle_free_peer. rewrite H2.
  assert (Hd : is_Some (dcons w !! dc)).
  { apply elem_of_dom. rewrite (wi_ddom _ _ _ _ W). by apply elem_of_union_l, elem_of_singleton. }
  destruct Hd as [dd Ed]. cbn. rewrite Ed.
  replace (if res_con q then Some dd ≫= (λ _ : dcon, Some tt) else Some tt) with (Some tt) by by destruct (res_con q).
  cbn -[ngx_http_drizzle_keepalive_free_peer ngx_http_upstream_drizzle_free_connection].
  destruct (winv_drop _ _ _ _ _ _ W) as (w2 & E2 & W2 & _).
  destruct (mark_same st q) as (M1 & M2 & M3 & M4 & M5 & M6 & M7 & M8).
  destruct (Nat.eqb_spec (pool_max g) 0) as [Hm|Hm]; cbn [negb].
  - cbn. rewrite H1. rewrite H2, E2. cbn. by eexists _, _.
  - pose proof (keepalive_free_peer_ok _ _ _ _ st _ _ H Hm) as K. destruct (keeps (mark st q)) eqn:Ek.
    + destruct K as (w' & -> & W' & _). cbn. eexists _, _. split; [reflexivity|]. split_and!; try done.
      intros Hst. unfold keeps, mark in Ek. rewrite (proj2 (Z.eqb_neq _ 0)) in Ek by done. done.
    + rewrite K. cbn. rewrite M1, H1, M2, H2, E2. cbn. by eexists _, _.
Qed.

Lemma free_peer_none st q w :
  connection q = None → drizzle_con q = None ∨ res_con q = false →
  ngx_http_upstream_drizzle_free_peer g st q w
  = Some (if negb (pool_max g =? 0)%nat then mark st q else q, w).
Proof.
  intros H1 H2. unfold ngx_http_upstream_drizzle_free_peer, ngx_http_drizzle_keepalive_free_peer.
  replace (match drizzle_con q with Some _ => _ | None => _ end) with (Some tt) by (destruct H2 as [->| ->]; [done|by destruct (drizzle_con q)]).
  cbn. fold (mark st q). destruct (mark_same st q) as (M1 & _). rewrite M1, H1.
  destruct (negb _); cbn; by rewrite ?M1, H1.
Qed.

Lemma free_peer_ok o hs st q w :
  good o hs q w →
  ∃ q' w', ngx_http_upstream_drizzle_free_peer g st q w = Some (q', w') ∧ connection q' = None ∧ winv g [] hs w'
    ∧ cleanup q' = cleanup q ∧ header_sent q' = header_sent q
    ∧ (Z.land st NGX_PEER_FAILED ≠ 0 → drizzle_con q' = None ∨ res_con q' = false).
Proof.
  unfold good. destruct (connection q) as [c|] eqn:Ec.
  - intros [dc H]. destruct (free_peer_held _ _ _ _ st _ _ H) as (q' & w' & E & ? & ? & ? & ? & Hd).
    exists q', w'. split_and!; try done. intros Hst. left. by apply Hd.
  - intros [H W]. rewrite (free_peer_none _ _ _ Ec H). destruct (mark_same st q) as (M1 & M2 & _ & _ & _ & M6 & M7 & M8).
    eexists _, _. split; [reflexivity|]. split_and!; try done; destruct (negb _); rewrite ?M1, ?M2, ?M6, ?M7, ?M8; done.
Qed.

(** ** The end of a request *)

Definition ended (hs : list holding) (q : request) (w : world) : Prop :=
  connection q = None ∧ cleanup q = false ∧ winv g [] hs w.

Lemma good_same o hs q q' w :
  good o hs q w → connection q' = connection q → drizzle_con q' = drizzle_con q → res_con q' = res_con q →
  sockaddr q' = sockaddr q → socklen q' = socklen q → failed q' = failed q → good o hs q' w.
Proof.
  unfold good. intros H E1 E2 E3 E4 E5 E6. rewrite E1. destruct (connection q) eqn:E; [|by rewrite E2, E3].
  destruct H as [dc [H1 H2 H3 H4 H5 H6]]. exists dc. split; congruence.
Qed.

Lemma finalize_ok o hs rc q w :
  good o hs q w → rc ≠ NGX_DECLINED →
  ∃ q' w' a, ngx_http_upstream_drizzle_finalize_request g rc q w = Some (q', w', Some a) ∧ ended hs q' w'.
Proof.
  intros H Hrc. unfold ngx_http_upstream_drizzle_finalize_request.
  destruct (free_peer_ok o hs 0 (set_cleanup false q) w) as (q' & w' & -> & C & W & Hc & _); [by eapply good_same|].
  cbn [mbind option_bind]. rewrite C. cbn [mbind option_bind].
  assert (∃ a, Drizzle.ngx_http_upstream_drizzle_finalize_request (header_sent q') rc = Some a) as [a ->].
  { unfold Drizzle.ngx_http_upstream_drizzle_finalize_request.
    destruct (header_sent q' && Drizzle.failed rc); [by eexists|].
    rewrite (proj2 (Z.eqb_neq _ _)) by done. by case_match; eexists. }
  by exists (set_connection None q'), w', a.
Qed.

Lemma next_ok o hs ft client_error q w :
  good o hs q w → ft ≠ NGX_HTTP_UPSTREAM_FT_HTTP_404 → ft ≠ NGX_HTTP_UPSTREAM_FT_NOLIVE →
  ∃ q' w' a, ngx_http_upstream_drizzle_next g ft client_error q w = Some (q', w', Some a) ∧ ended hs q' w'.
Proof.
  intros H H1 H2. unfold ngx_http_upstream_drizzle_next. rewrite !(proj2 (Z.eqb_neq _ _)) by done. cbn [negb].
  destruct (free_peer_ok o hs NGX_PEER_FAILED q w H) as (q1 & w1 & -> & C & W & _ & _ & D). cbn [mbind option_bind].
  assert (G : good o hs q1 w1) by (unfold good; rewrite C; split; [by apply D|done]).
  assert (S : ∀ c, next_status ft c ≠ NGX_DECLINED) by (intros []; unfold next_status; by repeat case_match).
  destruct client_error; [by apply (finalize_ok o)|].
  case_match; [by apply (finalize_ok o)|]. rewrite C. by apply (finalize_ok o).
Qed.

(** ** The processor *)

Definition progress_ok (o : progress) : Prop :=
  match pr_end o with p_done rc | p_finalized rc => rc ≠ NGX_DECLINED | _ => True end.

(** The request goes on with its connection, or it has ended with an answer. *)
Definition goes_on (o : owner) (c dc : nat) (hs : list holding) (q : request) (x : request * world * option (Z + unit)) : Prop :=
  match x with
  | (q', w', None) => held o c dc hs q' w' ∧ cleanup q' = cleanup q
  | (q', w', Some _) => ended hs q' w'
  end.

Lemma held_same o c dc hs q q' w :
  held o c dc hs q w → connection q' = connection q → drizzle_con q' = drizzle_con q →
  sockaddr q' = sockaddr q → socklen q' = socklen q → failed q' = failed q → held o c dc hs q' w.
Proof. intros [H1 H2 H3 H4 H5 H6] E1 E2 E3 E4 E5. split; congruence. Qed.

Lemma held_live o c dc hs q w :
  held o c dc hs q w →
  (∃ dd, dcon_live (drizzle_con q) w = Some dd)
  ∧ ∃ d, conn_at (connection q) w = Some (c, d) ∧ conns w !! c = Some d ∧ conn_owner d = o ∧ conn_fd d ≠ 0.
Proof.
  intros [-> -> _ _ _ W]. split.
  - cbn. apply elem_of_dom. rewrite (wi_ddom _ _ _ _ W). by apply elem_of_union_l, elem_of_singleton.
  - destruct (proj1 (Forall_cons _ _ _) (wi_live _ _ _ _ W)) as [((d & Ed & Eo & Ef) & _) _].
    change (conns w !! c = Some d) in Ed. unfold conn_at. cbn. rewrite Ed. by exists d.
Qed.

Lemma process_ok o c dc hs p client_error q w :
  held o c dc hs q w → progress_ok p →
  ∃ x, process_events g p client_error q w = Some x ∧ goes_on o c dc hs q x.
Proof.
  intros H Hp. destruct (held_live _ _ _ _ _ _ H) as ((dd & E1) & d & E2 & _).
  unfold process_events. rewrite E1, E2. cbn [mbind option_bind]. unfold progress_ok in Hp.
  set (q1 := set_header_sent _ _). assert (H1 : held o c dc hs q1 w) by by eapply held_same.
  assert (E : ∀ rc q2, held o c dc hs q2 w → rc ≠ NGX_DECLINED →
    ∃ x, ngx_http_upstream_drizzle_finalize_request g rc q2 w = Some x ∧ goes_on o c dc hs q x).
  { intros rc q2 H2 Hrc. destruct (finalize_ok o hs rc q2 w) as (q' & w' & a & -> & He); [by eapply held_good|done|].
    eexists. split; [reflexivity|exact He]. }
  destruct (pr_end p) as [|rc|rc|].
  - eexists. by split.
  - case_match; apply E; try done; eapply held_same; done.
  - by apply E.
  - destruct (next_ok o hs NGX_HTTP_UPSTREAM_FT_ERROR client_error q1 w) as (q' & w' & a & -> & He); try done;
      [by eapply held_good|]. eexists. split; [reflexivity|exact He].
Qed.

(** ** A connection for a request *)

Definition peer_ok (p : ngx_http_upstream_drizzle_peer_t) : Prop :=
  length (peer_sockaddr p) = sizeof_sockaddr ∧ (length (peer_dbname p) < DRIZZLE_MAX_DB_SIZE)%nat
  ∧ (length (peer_user p) < DRIZZLE_MAX_USER_SIZE)%nat ∧ (length (peer_password p) < DRIZZLE_MAX_PASSWORD_SIZE)%nat.

(** A block with servers, all of them with IPv4 addresses. *)
Definition group_ok : Prop := peers g ≠ [] ∧ Forall peer_ok (peers g).

(** A connection can be registered with the event model, a descriptor is not 0, a block
    that rejects finds a connection for its mark, and the count does not overflow. *)
Definition env_ok (e : connect_env) (w : world) : Prop :=
  ce_add_conn e = true ∧ ce_fd e ≠ 0
  ∧ (pool_overflow g = drizzle_keepalive_overflow_reject → ce_get_connection e = true)
  ∧ Z.of_nat (size (conns w)) + 1 < 2 ^ 64.

(** What a request may have after [ngx_http_upstream_drizzle_get_peer]: nothing, a
    connection, or the mark of a rejected request. *)
Inductive got (hs : list holding) : Z → request → world → Prop :=
  | got_nothing rc q w :
      rc = NGX_ERROR ∨ rc = NGX_DECLINED → connection q = None → res_con q = false → winv g [] hs w → got hs rc q w
  | got_connection rc o c dc q w :
      rc = NGX_AGAIN ∨ rc = NGX_DONE → held o c dc hs q w → got hs rc q w
  | got_mark q w :
      connection q = Some (next_id w) → res_con q = false → winv g [] hs w → got hs NGX_AGAIN q (snd (new_conn 0 w)).

Lemma winv_bump spare hs w n : winv g spare hs w → (next_id w <= n)%nat → winv g spare hs (set_next_id n w).
Proof.
  intros [W1 W2 W3 W4 W5 W6 W7 W8 W9 W10 W11] Hn. split; try done.
  eapply Forall_impl; [exact W3|]. intros h (Hd & L1 & L2). split; [exact Hd|]. cbn. lia.
Qed.

Lemma winv_current spare hs w n : winv g spare hs w → 0 <= n → winv g spare hs (set_current n w).
Proof. by intros [] Hn; split. Qed.

Lemma make_dcon_ok p fd q :
  peer_ok p → (length (dbname q) < DRIZZLE_MAX_DB_SIZE)%nat → ∃ d, make_dcon p fd q = Some d.
Proof.
  intros (_ & P1 & P2 & P3) Hdb. unfold make_dcon. rewrite !(proj2 (Nat.leb_gt _ _)); try done; [by eexists|]. by case_match.
Qed.

(** The turn of the servers. *)
Lemma next_peer_ok spare hs w :
  group_ok → winv g spare hs w →
  let w' := if current w >? Z.of_nat (length (peers g)) - 1 then set_current 0 w else w in
  winv g spare hs w' ∧ ∃ p, peers g !! Z.to_nat (current w') = Some p ∧ peer_ok p.
Proof.
  intros [G1 G2] W w'. split; [unfold w'; case_match; [by apply winv_current|done]|].
  assert (Hp : is_Some (peers g !! Z.to_nat (current w'))).
  { apply lookup_lt_is_Some. pose proof (wi_current _ _ _ _ W). unfold w'.
    destruct (Z.gtb_spec (current w) (Z.of_nat (length (peers g)) - 1)); [|lia].
    cbn. destruct (peers g); [done|cbn; lia]. }
  destruct Hp as [p Ep]. exists p. split; [done|]. eapply Forall_lookup_1; eassumption.
Qed.

Lemma open_connection_ok hs e p q w :
  winv g [] hs w → env_ok e w → peer_ok p → (length (dbname q) < DRIZZLE_MAX_DB_SIZE)%nat →
  connection q = None → res_con q = false → failed q = false →
  length (sockaddr q) = socklen q → (socklen q <= sizeof_sockaddr)%nat →
  (pool_overflow g = drizzle_keepalive_overflow_reject → active_conns w < Z.of_nat (pool_max g)) →
  ∃ rc q' w', open_connection e p q w = Some (rc, q', w') ∧ got hs rc q' w' ∧ cleanup q' = cleanup q.
Proof.
  intros W (Ha & Hfd & _ & Hn) Hp Hdb Hc Hres Hfail Hs1 Hs2 Hr.
  destruct (held_count _ _ _ W) as [C1 _]. pose proof (wi_active _ _ _ _ W) as Act.
  unfold open_connection. destruct (make_dcon_ok p (ce_fd e) q Hp Hdb) as [dd ->].
  cbn [mbind option_bind new_dcon]. set (w1 := set_next_id _ _).
  destruct (winv_fresh _ _ _ W) as [_ Hfresh].
  assert (Hback : set_dcons (delete (next_id w) (dcons w1)) w1 = set_next_id (S (next_id w)) w).
  { unfold w1. destruct w. cbn in *. by rewrite delete_insert_id. }
  destruct (negb _ && negb _) eqn:Eret; cbv zeta.
  { eexists _, _, _. split; [reflexivity|]. split; [|done]. rewrite Hback. constructor; [by right|done..|]. apply winv_bump; [done|lia]. }
  destruct ((ce_fd e =? -1) || negb (ce_get_connection e)) eqn:Efd.
  { cbn [connection set_drizzle_con]. rewrite Hc. unfold ngx_http_upstream_drizzle_free_connection.
    cbn [dcons set_active_conns w1 set_next_id set_dcons]. rewrite lookup_insert_eq. cbn [mbind option_bind].
    eexists _, _, _. split; [reflexivity|]. split; [|done]. constructor; [by left|done..|].
    match goal with |- winv _ _ _ ?w' => replace w' with (set_next_id (S (next_id w)) w) end; [apply winv_bump; [done|lia]|].
    assert (Ew : wrap_u 64 (wrap_u 64 (active_conns w + 1) - 1) = active_conns w).
    { rewrite Act. unfold wrap_u. rewrite (Z.mod_small (Z.of_nat _ + 1)) by lia. rewrite Z.mod_small; lia. }
    unfold w1. destruct w. cbn -[wrap_u] in *. by rewrite delete_insert_id, Ew. }
  cbn [new_conn]. rewrite Ha. cbn [negb].
  eexists _, _, _. split; [reflexivity|]. split; [|done].
  eapply (got_connection _ _ nobody (S (next_id w)) (next_id w)); [destruct (ce_connect e =? Drizzle.DRIZZLE_RETURN_IO_WAIT); [by left|by right]|].
  split; try done. cbn [connection drizzle_con set_state set_connection set_drizzle_con].
  apply (winv_open [] hs w (mk_conn (ce_fd e) nobody false) dd W); [lia| |done]. intros Hrej. specialize (Hr Hrej). lia.
Qed.

Lemma get_single_ok hs q w :
  winv g [] hs w → connection q = None → res_con q = false → failed q = false →
  ∃ rc q' w', ngx_http_drizzle_keepalive_get_peer_single q w = Some (rc, q', w') ∧ cleanup q' = cleanup q
    ∧ ((rc = NGX_DONE ∧ got hs rc q' w') ∨ (rc = NGX_DECLINED ∧ q' = q ∧ w' = w)).
Proof.
  intros W Hc Hres Hfail. unfold ngx_http_drizzle_keepalive_get_peer_single. destruct (cache w) as [|x rest] eqn:Ec.
  { eexists _, _, _. split; [reflexivity|]. split; [done|by right]. }
  destruct (take_item_ok hs w q [] x rest W Ec) as (c & dc & w' & E & W' & _). cbn [app] in E. rewrite E.
  pose proof (proj1 (Forall_cons _ _ _) (eq_ind _ (Forall item_ok) (wi_items _ _ _ _ W) _ Ec)) as [(_ & _ & A1 & A2) _].
  cbn [mbind option_bind]. eexists _, _, _. split; [reflexivity|]. split; [done|]. left. split; [done|].
  eapply got_connection; [by right|]. by split.
Qed.

Lemma get_multi_ok hs q w :
  winv g [] hs w → connection q = None → failed q = false →
  length (sockaddr q) = socklen q → (socklen q <= sizeof_sockaddr)%nat →
  ∃ rc q' w', ngx_http_drizzle_keepalive_get_peer_multi q w = Some (rc, q', w') ∧ cleanup q' = cleanup q
    ∧ ((rc = NGX_DONE ∧ got hs rc q' w') ∨ (rc = NGX_DECLINED ∧ q' = q ∧ w' = w)).
Proof.
  intros W Hc Hfail H1 H2. unfold ngx_http_drizzle_keepalive_get_peer_multi. rewrite <- H1.
  destruct (find_item_ok (sockaddr q) (cache w) (wi_items _ _ _ _ W)) as (f & -> & Hf). cbn [mbind option_bind].
  destruct f as [[[pre x] post]|]; [|eexists _, _, _; split; [reflexivity|]; split; [done|by right]].
  destruct Hf as [Ec _]. destruct (take_item_ok hs w q pre x post W Ec) as (c & dc & w' & -> & W' & _).
  cbn [mbind option_bind]. eexists _, _, _. split; [reflexivity|]. split; [done|]. left. split; [done|].
  eapply got_connection; [by right|]. by split.
Qed.

Lemma pool_get_peer_ok hs e q w :
  group_ok → winv g [] hs w → env_ok e w → connection q = None → res_con q = false →
  (length (dbname q) < DRIZZLE_MAX_DB_SIZE)%nat →
  ∃ rc q' w', ngx_http_upstream_drizzle_get_peer g e q w = Some (rc, q', w') ∧ got hs rc q' w' ∧ cleanup q' = cleanup q.
Proof.
  intros G W He Hc Hres Hdb. unfold ngx_http_upstream_drizzle_get_peer. cbv zeta.
  assert (∃ rc q1 w1, (if negb (pool_max g =? 0)%nat && pool_single g
      then ngx_http_drizzle_keepalive_get_peer_single (set_failed false q) w
      else Some (NGX_DECLINED, set_failed false q, w)) = Some (rc, q1, w1) ∧ cleanup q1 = cleanup q
    ∧ ((rc = NGX_DONE ∧ got hs rc q1 w1) ∨ (rc = NGX_DECLINED ∧ q1 = set_failed false q ∧ w1 = w)))
    as (rc & q1 & w1 & -> & Hcl & [[-> Hg]|(-> & -> & ->)]).
  { case_match; [exact (get_single_ok hs (set_failed false q) w W Hc Hres eq_refl)|]. eexists _, _, _. split; [reflexivity|]. split; [done|by right]. }
  { cbn [mbind option_bind]. eexists _, _, _. split; [reflexivity|]. by split. }
  cbn [mbind option_bind]. change (negb (NGX_DECLINED =? NGX_DECLINED)) with false. cbv iota.
  destruct (next_peer_ok _ _ _ G W) as (W2 & p & Ep & Pok). cbv zeta in W2, Ep.
  set (w2 := if current w >? _ then _ else w) in *. rewrite Ep. cbn [mbind option_bind].
  assert (W3 : winv g [] hs (set_current (current w2 + 1) w2)).
  { apply winv_current; [done|]. pose proof (wi_current _ _ _ _ W2). lia. }
  assert (He3 : env_ok e (set_current (current w2 + 1) w2)) by (destruct He as (? & ? & ? & ?); unfold w2; by case_match).
  revert W3 He3. generalize (set_current (current w2 + 1) w2) as w3. intros w3 W3 He3.
  set (q3 := set_socklen _ _).
  assert (S3 : length (sockaddr q3) = socklen q3 ∧ (socklen q3 <= sizeof_sockaddr)%nat).
  { destruct Pok as [P _]. unfold q3. cbn [sockaddr socklen set_socklen set_pc_cached set_set_names_query set_enable_charset set_name set_sockaddr].
    rewrite P, length_take, P. split; unfold sizeof_sockaddr; lia. }
  destruct S3 as [S3 S4].
  assert (∃ rc q4 w4, (if negb (pool_max g =? 0)%nat && negb (pool_single g)
      then ngx_http_drizzle_keepalive_get_peer_multi q3 w3 else Some (NGX_DECLINED, q3, w3)) = Some (rc, q4, w4)
    ∧ cleanup q4 = cleanup q ∧ ((rc = NGX_DONE ∧ got hs rc q4 w4) ∨ (rc = NGX_DECLINED ∧ q4 = q3 ∧ w4 = w3)))
    as (rc & q4 & w4 & -> & Hcl4 & [[-> Hg]|(-> & -> & ->)]).
  { case_match; [exact (get_multi_ok hs q3 w3 W3 Hc eq_refl S3 S4)|]. eexists _, _, _. split; [reflexivity|]. split; [done|by right]. }
  { cbn [mbind option_bind]. eexists _, _, _. split; [reflexivity|]. by split. }
  cbn [mbind option_bind]. change (negb (NGX_DECLINED =? NGX_DECLINED)) with false. cbv iota.
  pose proof (open_connection_ok hs e p q3 w3 W3 He3 Pok Hdb Hc Hres eq_refl S3 S4) as O. change (cleanup q3) with (cleanup q) in O.
  destruct (pool_overflow g) eqn:Eov.
  - by apply O.
  - destruct (Z.geb_spec (active_conns w3) (Z.of_nat (pool_max g))) as [Hge|Hlt].
    + destruct He3 as (_ & _ & Hg & _). rewrite (Hg Eov). cbn [new_conn].
      eexists _, _, _. split; [reflexivity|]. split; [|done]. by apply (got_mark hs _ w3).
    + by apply O.
Qed.

(** ** The life of a request *)

(** After an event of the request [r]: it has ended with an answer, or waits with a
    connection of its own. *)
Definition settled (r : nat) (hs : list holding) (x : request * world * option (Z + unit)) : Prop :=
  match x with
  | (q, w, None) => cleanup q = true ∧ ∃ c dc, held (in_request r) c dc hs q w
  | (q, w, Some _) => ended hs q w
  end.

(** The mark of a rejected request, which the handler removes. *)
Definition marked (r : nat) (hs : list holding) (x : request * world * option (Z + unit)) : Prop :=
  ∃ q w, x = (q, put_conn (next_id w) (mk_conn 0 (in_request r) false) (snd (new_conn 0 w)), None)
    ∧ connection q = Some (next_id w) ∧ res_con q = false ∧ winv g [] hs w.

Lemma held_owner o c dc hs q w d r :
  held o c dc hs q w → conns w !! c = Some d →
  held (in_request r) c dc hs q (put_conn c (set_owner (in_request r) d) w).
Proof. intros [H1 H2 H3 H4 H0 W] Ed. split; try done. unfold set_owner. by eapply winv_owner. Qed.

Lemma connect_ok r hs e p client_error q w :
  group_ok → winv g [] hs w → env_ok e w → progress_ok p → connection q = None → res_con q = false →
  cleanup q = true → (length (dbname q) < DRIZZLE_MAX_DB_SIZE)%nat →
  ∃ x, ngx_http_upstream_dbd_connect g r e p client_error q w = Some x ∧ (settled r hs x ∨ marked r hs x).
Proof.
  intros G W He Hp Hc Hres Hcl Hdb. unfold ngx_http_upstream_dbd_connect.
  destruct (pool_get_peer_ok hs e q w G W He Hc Hres Hdb) as (rc & q1 & w1 & -> & Hg & Hcl1). cbn [mbind option_bind].
  destruct Hg as [rc q1 w1 Hrc C1 R1 W1|rc o c dc q1 w1 Hrc H1|q1 w1 C1 R1 W1].
  - assert (Go : good nobody hs q1 w1) by (unfold good; rewrite C1; by split; [right|]).
    destruct Hrc as [-> | ->]; cbn [Z.eqb].
    + destruct (finalize_ok nobody hs NGX_HTTP_INTERNAL_SERVER_ERROR q1 w1 Go) as (q' & w' & a & -> & E); [done|].
      eexists. split; [reflexivity|]. by left.
    + destruct (next_ok nobody hs NGX_HTTP_UPSTREAM_FT_ERROR client_error q1 w1 Go) as (q' & w' & a & E1 & E); [done..|].
      change (NGX_DECLINED =? NGX_ERROR) with false. change (NGX_DECLINED =? NGX_DECLINED) with true. cbv iota. rewrite E1.
      eexists. split; [reflexivity|]. by left.
  - destruct (held_live _ _ _ _ _ _ H1) as (_ & d & E1 & E2 & _).
    rewrite (proj2 (Z.eqb_neq rc NGX_ERROR)) by (destruct Hrc as [-> | ->]; done).
    rewrite (proj2 (Z.eqb_neq rc NGX_DECLINED)) by (destruct Hrc as [-> | ->]; done).
    rewrite E1. cbn [mbind option_bind]. pose proof (held_owner _ _ _ _ _ _ _ r H1 E2) as H2.
    destruct (rc =? NGX_AGAIN).
    + eexists. split; [reflexivity|]. left. split; [congruence|eauto].
    + destruct (process_ok _ _ _ _ p client_error _ _ H2 Hp) as (x & -> & Hx). exists x. split; [done|]. left.
      destruct x as [[q' w'] [a|]]; [done|]. destruct Hx as [H3 Hcl3]. split; [congruence|eauto].
  - change (NGX_AGAIN =? NGX_ERROR) with false. change (NGX_AGAIN =? NGX_DECLINED) with false.
    change (NGX_AGAIN =? NGX_AGAIN) with true. cbv iota. unfold conn_at. rewrite C1.
    cbn [mbind option_bind new_conn snd conns set_next_id put_conn set_conns]. rewrite lookup_insert_eq. cbn [mbind option_bind].
    eexists. split; [reflexivity|]. right. by exists q1, w1.
Qed.

Lemma start_ok r hs init e p client_error w :
  group_ok → winv g [] hs w → env_ok e w → progress_ok p →
  (∀ db sql, init = Some (db, sql) → (length db < DRIZZLE_MAX_DB_SIZE)%nat) →
  ∃ x, start_request g r init e p client_error w = Some x ∧ settled r hs x.
Proof.
  intros G W He Hp Hi. unfold start_request.
  assert (∃ x, match init with
               | Some (db, sql) => ngx_http_upstream_dbd_connect g r e p client_error (new_request db sql) w
               | None => ngx_http_upstream_drizzle_finalize_request g NGX_HTTP_INTERNAL_SERVER_ERROR (new_request [] []) w
               end = Some x ∧ (settled r hs x ∨ marked r hs x)) as (x & -> & Hx).
  { destruct init as [[db sql]|]; [apply connect_ok; try done; cbn; by eapply Hi|].
    destruct (finalize_ok nobody hs NGX_HTTP_INTERNAL_SERVER_ERROR (new_request [] []) w) as (q' & w' & a & -> & E);
      [by split; [left|]|done|]. eexists. split; [reflexivity|]. by left. }
  cbn [mbind option_bind]. destruct Hx as [Hx|(q & w1 & -> & C1 & R1 & W1)].
  - destruct x as [[q' w'] out]. destruct out as [a|].
    + pose proof Hx as (C & _). rewrite C. by eexists.
    + destruct Hx as [Hcl (c & dc & H)]. destruct (held_live _ _ _ _ _ _ H) as (_ & d & _ & Ed & _ & Ef).
      rewrite (hd_conn _ _ _ _ _ _ H), Ed. cbn [mbind option_bind]. rewrite (proj2 (Z.eqb_neq _ 0)) by done.
      eexists. split; [reflexivity|]. split; [done|eauto].
  - rewrite C1. cbn [conns put_conn set_conns new_conn snd set_next_id]. rewrite lookup_insert_eq. cbn [mbind option_bind conn_fd Z.eqb].
    set (w2 := set_conns _ _).
    assert (E2 : w2 = set_next_id (S (next_id w1)) w1).
    { unfold w2. destruct w1. cbn. rewrite insert_insert_eq, delete_insert_id; [done|].
      by destruct (winv_fresh _ _ _ W1). }
    destruct (finalize_ok nobody hs NGX_HTTP_SERVICE_UNAVAILABLE (set_connection None q) w2) as (q' & w' & a & -> & E);
      [split; [by right|rewrite E2; apply winv_bump; [done|lia]]|done|].
    cbn [mbind option_bind]. eexists. split; [reflexivity|exact E].
Qed.

Lemma request_event_ok r c dc hs timedout broken p client_error q w :
  held (in_request r) c dc hs q w → cleanup q = true → progress_ok p →
  ∃ x, request_event g timedout broken p client_error q w = Some x ∧ settled r hs x.
Proof.
  intros H Hcl Hp. destruct (held_live _ _ _ _ _ _ H) as ((dd & E1) & d & E2 & _).
  unfold request_event. rewrite (hd_dcon _ _ _ _ _ _ H) in *. rewrite E1, E2. cbn [mbind option_bind].
  assert (N : ∀ ft, ft ≠ NGX_HTTP_UPSTREAM_FT_HTTP_404 → ft ≠ NGX_HTTP_UPSTREAM_FT_NOLIVE →
    ∃ x, ngx_http_upstream_drizzle_next g ft client_error q w = Some x ∧ settled r hs x).
  { intros ft F1 F2. destruct (next_ok (in_request r) hs ft client_error q w) as (q' & w' & a & -> & He); try done;
      [by eapply held_good|]. eexists. split; [reflexivity|exact He]. }
  destruct timedout; [by apply N|]. destruct broken; [by apply N|].
  destruct (process_ok _ _ _ _ p client_error _ _ H Hp) as (x & -> & Hx). exists x. split; [done|].
  destruct x as [[q' w'] [a|]]; [done|]. destruct Hx as [H3 Hcl3]. split; [congruence|eauto].
Qed.

Lemma client_ok r c dc hs rc q w :
  held (in_request r) c dc hs q w → rc ≠ NGX_DECLINED →
  ∃ x, ngx_http_upstream_drizzle_finalize_request g rc q w = Some x ∧ settled r hs x.
Proof.
  intros H Hrc. destruct (finalize_ok (in_request r) hs rc q w) as (q' & w' & a & -> & He); [by eapply held_good|done|].
  eexists. split; [reflexivity|exact He].
Qed.

(** ** The pool closes a connection *)

Lemma free_connection_cache c dc l w :
  ngx_http_upstream_drizzle_free_connection c dc (set_cache l w)
  = set_cache l <$> ngx_http_upstream_drizzle_free_connection c dc w.
Proof.
  unfold ngx_http_upstream_drizzle_free_connection. destruct w as [cu fr ca ac cs ds n], dc as [d|]; cbn.
  - destruct (ds !! d); cbn; [|done]. destruct c as [c|]; cbn; [by destruct (cs !! c)|done].
  - destruct c as [c|]; cbn; [by destruct (cs !! c)|done].
Qed.

(** The entries of the cache are told apart by their numbers. *)
Lemma cache_find spare hs w x :
  winv g spare hs w → x ∈ cache w →
  ∃ pre post, list_find (fun y => item_id y = item_id x) (cache w) = Some (length pre, x) ∧ cache w = pre ++ x :: post.
Proof.
  intros W Hx. assert (Hn : NoDup (map item_id (cache w))).
  { assert (N : NoDup (map item_id (cache w ++ free w) ++ spare)) by (rewrite (wi_queue _ _ _ _ W); apply NoDup_seq).
    apply NoDup_app in N as [N _]. rewrite map_app in N. by apply NoDup_app in N as [N _]. }
  apply list_elem_of_split in Hx as (pre & post & E). exists pre, post. split; [|done].
  rewrite E in *. rewrite map_app in Hn. apply NoDup_app in Hn as (_ & Hn & _).
  rewrite list_find_app_r.
  - cbn. rewrite decide_True by done. cbn. by do 2 f_equal.
  - apply list_find_None, Forall_forall. intros y Hy Ey. apply (Hn (item_id y)); [by apply list_elem_of_fmap_2|].
    rewrite Ey. by left.
Qed.

Lemma pool_owner hs c i d w :
  winv g [] hs w → conns w !! c = Some d → conn_owner d = in_pool i → Forall (fun h => h.1.1 ≠ in_pool i) hs →
  ∃ x, x ∈ cache w ∧ item_id x = i ∧ item_connection x = Some c.
Proof.
  intros W Ed Eo Hhs. assert (Hc : c ∈ dom (conns w)) by (apply elem_of_dom; by eexists).
  rewrite (wi_dom _ _ _ _ W) in Hc. apply elem_of_list_to_set, list_elem_of_fmap in Hc as (h & -> & Hh).
  destruct (proj1 (Forall_forall _ _) (wi_live _ _ _ _ W) h Hh) as ((d' & E' & O' & _) & _).
  rewrite Ed in E'. injection E' as <-. unfold all_held in Hh. apply elem_of_app in Hh as [Hh|Hh].
  - exfalso. apply (proj1 (Forall_forall _ _) Hhs h Hh). congruence.
  - apply list_elem_of_fmap in Hh as (x & -> & Hx). exists x. split; [done|]. cbn in O'. split; [congruence|].
    destruct (proj1 (Forall_forall _ _) (wi_items _ _ _ _ W) x Hx) as ([c Ec] & _). unfold h_conn, item_holding. by rewrite Ec.
Qed.

Lemma close_handler_ok hs c i closing stale d w :
  winv g [] hs w → conns w !! c = Some d → conn_owner d = in_pool i → Forall (fun h => h.1.1 ≠ in_pool i) hs →
  ∃ w', ngx_http_drizzle_keepalive_close_handler c i closing stale w = Some w' ∧ winv g [] hs w'.
Proof.
  intros W Ed Eo Hhs. unfold ngx_http_drizzle_keepalive_close_handler. destruct (negb closing && stale); [by exists w|].
  destruct (pool_owner hs c i d w W Ed Eo Hhs) as (x & Hx & <- & Ec).
  destruct (cache_find _ _ _ _ W Hx) as (pre & post & -> & E). cbn [mbind option_bind fst snd].
  destruct (proj1 (winv_uncache _ _ _ _ _ _ E) W) as [(_ & [dc Edc] & _) W1].
  unfold item_holding in W1. rewrite Ec, Edc in W1. cbn [default from_option id] in W1.
  destruct (winv_drop _ _ _ _ _ _ W1) as (w' & E' & W2 & C' & F' & _). rewrite free_connection_cache in E'. rewrite Edc.
  destruct (ngx_http_upstream_drizzle_free_connection (Some c) (Some dc) w) as [w2|] eqn:E2; [|done].
  cbn in E'. injection E' as <-. cbn [mbind option_bind]. eexists. split; [reflexivity|].
  assert (Ecache : cache w2 = cache w).
  { pose proof (free_connection_cache (Some c) (Some dc) (cache w) w) as K.
    replace (set_cache (cache w) w) with w in K by by destruct w. rewrite E2 in K. cbn in K. injection K as K. by rewrite K. }
  rewrite Ecache, E, delete_middle.
  assert (Es : set_cache (pre ++ post) w2 = set_free (free w2) (set_cache (pre ++ post) w2)) by by destruct w2.
  rewrite Es in W2. by apply winv_free in W2.
Qed.

(** * Systems *)

Definition req_holding (p : nat * request) : option holding :=
  match connection p.2 with
  | Some c => Some (in_request p.1, c, default 0%nat (drizzle_con p.2))
  | None => None
  end.

Definition holdings (m : gmap nat request) : list holding := omap req_holding (map_to_list m).

(** A request that has not ended holds a connection. *)
Definition request_ok (q : request) : Prop :=
  if cleanup q
  then ∃ c dc, connection q = Some c ∧ drizzle_con q = Some dc ∧ length (sockaddr q) = socklen q
               ∧ (socklen q <= sizeof_sockaddr)%nat ∧ failed q = false
  else connection q = None.

(** The answers that a request got. *)
Definition answered (r : nat) (s : system) : nat := length (filter (fun a => a.1 = r) (answers s)).

Record sinv (s : system) : Prop := {
  si_world : winv g [] (holdings (requests s)) (world_of s);
  si_requests : map_Forall (fun r q => (r < next_request s)%nat ∧ request_ok q) (requests s);
  si_answers : ∀ r, answered r s = match requests s !! r with
                                   | Some q => if cleanup q then 0%nat else 1%nat
                                   | None => 0%nat
                                   end
}.

Lemma holdings_insert (m : gmap nat request) r q :
  holdings (<[r := q]> m) ≡ₚ match req_holding (r, q) with Some h => [h] | None => [] end ++ holdings (delete r m).
Proof.
  unfold holdings. rewrite <- insert_delete_eq, map_to_list_insert by apply lookup_delete_eq.
  cbn [omap list_omap]. by case_match.
Qed.

Lemma holdings_owner (m : gmap nat request) : Forall (fun h => ∃ r, h.1.1 = in_request r) (holdings m).
Proof.
  apply Forall_forall. intros h ([r q] & _ & E)%list_elem_of_omap. unfold req_holding in E. case_match; [|done].
  injection E as <-. by exists r.
Qed.

(** The part of a request in the system. *)
Lemma focus s r q :
  sinv s → requests s !! r = Some q → cleanup q = true →
  ∃ c dc, held (in_request r) c dc (holdings (delete r (requests s))) q (world_of s).
Proof.
  intros [W R _] E Hcl. destruct (R r q E) as [_ H]. unfold request_ok in H. rewrite Hcl in H.
  destruct H as (c & dc & H1 & H2 & H3 & H4 & H0). exists c, dc. split; try done.
  eapply winv_perm; [|exact W]. rewrite <- (fin_maps.insert_id (requests s) r q E) at 1. rewrite holdings_insert.
  unfold req_holding. cbn. by rewrite H1, H2.
Qed.

Lemma unfocus (m : gmap nat request) r q w out :
  settled r (holdings (delete r m)) (q, w, out) →
  winv g [] (holdings (<[r := q]> m)) w ∧ request_ok q ∧ cleanup q = match out with None => true | Some _ => false end.
Proof.
  intros H. unfold request_ok. destruct out as [a|]; cbn [settled] in H.
  - destruct H as (C & Hcl & W). rewrite Hcl. split; [|done].
    eapply winv_perm; [|exact W]. rewrite holdings_insert. unfold req_holding. cbn. by rewrite C.
  - destruct H as (Hcl & c & dc & [H1 H2 H3 H4 H0 W]). rewrite Hcl. split; [|by eauto 10].
    eapply winv_perm; [|exact W]. rewrite holdings_insert. unfold req_holding. cbn. by rewrite H1, H2.
Qed.

Lemma record_ok r s x :
  map_Forall (fun r q => (r < next_request s)%nat ∧ request_ok q) (requests s) →
  (∀ r', r' ≠ r → answered r' s = match requests s !! r' with
                                  | Some q => if cleanup q then 0%nat else 1%nat | None => 0%nat end) →
  (r < next_request s)%nat → answered r s = 0%nat → settled r (holdings (delete r (requests s))) x →
  sinv (record_step r s x).
Proof.
  intros R A Hr Hn Hx. destruct x as [[q w] out]. destruct (unfocus _ _ _ _ _ Hx) as (W & Hq & Hcl). split.
  - exact W.
  - cbn [requests next_request record_step]. by apply map_Forall_insert_2.
  - intros r'. unfold answered in *. cbn [requests answers record_step]. rewrite filter_app, length_app.
    destruct (decide (r' = r)) as [->|Hne].
    + rewrite lookup_insert_eq, Hn, Hcl. destruct out; [by rewrite filter_cons_True|done].
    + rewrite lookup_insert_ne by done. rewrite A by done. destruct out; [rewrite filter_cons_False by (cbn; congruence)|]; cbn; lia.
Qed.

(** The events that can occur. *)
Definition ev_ok (s : system) (ev : event) : Prop :=
  match ev with
  | ev_request init e o _ =>
      env_ok e (world_of s) ∧ progress_ok o
      ∧ ∀ db sql, init = Some (db, sql) → (length db < DRIZZLE_MAX_DB_SIZE)%nat
  | ev_read _ _ _ o _ _ _ | ev_write _ _ _ o _ => progress_ok o
  | ev_client _ rc => rc ≠ NGX_DECLINED
  end.

Lemma on_request_ok s r q (f : request → world → option (request * world * option (Z + unit))) :
  sinv s → requests s !! r = Some q → cleanup q = true →
  (∀ c dc hs, held (in_request r) c dc hs q (world_of s) → ∃ x, f q (world_of s) = Some x ∧ settled r hs x) →
  ∃ s', on_request r s f = Some s' ∧ sinv s'.
Proof.
  intros I E Hcl Hf. destruct (focus _ _ _ I E Hcl) as (c & dc & H). destruct (Hf _ _ _ H) as (x & Ex & Hx).
  unfold on_request. rewrite E. cbn. rewrite Ex. cbn. eexists. split; [reflexivity|].
  destruct I as [W R A]. apply record_ok; try done.
  - by destruct (R r q E).
  - by rewrite A, E, Hcl.
Qed.

(** The owner of a connection in a table. *)
Lemma conn_owner_ok s c d :
  sinv s → conns (world_of s) !! c = Some d →
  match conn_owner d with
  | in_request r => ∃ q, requests s !! r = Some q ∧ cleanup q = true ∧ connection q = Some c
  | in_pool i => ∃ x, x ∈ cache (world_of s) ∧ item_id x = i ∧ item_connection x = Some c
  | nobody => False
  end.
Proof.
  intros [W R _] Ed. assert (Hc : c ∈ dom (conns (world_of s))) by (apply elem_of_dom; by eexists).
  rewrite (wi_dom _ _ _ _ W) in Hc. apply elem_of_list_to_set, list_elem_of_fmap in Hc as (h & -> & Hh).
  destruct (proj1 (Forall_forall _ _) (wi_live _ _ _ _ W) h Hh) as ((d' & E' & O' & _) & _).
  rewrite Ed in E'. injection E' as <-. rewrite O'. unfold all_held in Hh. apply elem_of_app in Hh as [Hh|Hh].
  - apply list_elem_of_omap in Hh as ([r q] & Hr%elem_of_map_to_list & E). unfold req_holding in E. cbn in E.
    destruct (connection q) as [c|] eqn:Ec; [|done]. injection E as <-. cbn. exists q. split; [done|]. split; [|done].
    destruct (R r q Hr) as [_ Hq]. unfold request_ok in Hq. destruct (cleanup q); [done|congruence].
  - apply list_elem_of_fmap in Hh as (x & -> & Hx). cbn. exists x. split; [done|]. split; [done|].
    destruct (proj1 (Forall_forall _ _) (wi_items _ _ _ _ W) x Hx) as ([c Ec] & _). unfold h_conn. cbn. by rewrite Ec.
Qed.

Lemma pool_step_ok s ev : group_ok → sinv s → ev_ok s ev → ∃ s', step g ev s = Some s' ∧ sinv s'.
Proof.
  intros G I He. pose proof I as [W R A]. destruct ev as [init e o ce|c t b o ce cl st|c t b o ce|r rc]; cbn [step ev_ok] in *.
  - destruct He as (He & Ho & Hi). set (r := next_request s).
    assert (Hn : requests s !! r = None).
    { destruct (requests s !! r) as [q|] eqn:E; [|done]. destruct (R r q E) as [L _]. unfold r in L. lia. }
    destruct (start_ok r (holdings (requests s)) init e o ce (world_of s) G W He Ho Hi) as (x & -> & Hx).
    cbn [mbind option_bind]. eexists. split; [reflexivity|]. apply record_ok; cbn [requests next_request].
    + intros r' q E. destruct (R r' q E). split; [lia|done].
    + intros r' _. apply A.
    + lia.
    + pose proof (A r) as Ar. by rewrite Hn in Ar.
    + by rewrite delete_id.
  - destruct (conns (world_of s) !! c) as [d|] eqn:Ed; [|by exists s].
    pose proof (conn_owner_ok s c d I Ed) as Ho. destruct (conn_owner d) as [|r|i] eqn:Eo; [done| |].
    + destruct Ho as (q & E & Hcl & _). eapply on_request_ok; try done. intros c' dc hs H. by eapply request_event_ok.
    + destruct (close_handler_ok (holdings (requests s)) c i cl st d (world_of s) W Ed Eo) as (w' & -> & W').
      { eapply Forall_impl; [apply holdings_owner|]. intros h [r ->]. done. }
      cbn [mbind option_bind]. eexists. split; [reflexivity|]. by split.
  - destruct (conns (world_of s) !! c) as [d|] eqn:Ed; [|by exists s].
    pose proof (conn_owner_ok s c d I Ed) as Ho. destruct (conn_owner d) as [|r|i]; [done| |by exists s].
    destruct Ho as (q & E & Hcl & _). eapply on_request_ok; try done. intros c' dc hs H. by eapply request_event_ok.
  - destruct (requests s !! r) as [q|] eqn:E; [|by exists s]. destruct (cleanup q) eqn:Hcl; [|by exists s].
    eapply on_request_ok; try done. intros c dc hs H. by eapply client_ok.
Qed.

Lemma new_system_ok : sinv (new_system g).
Proof.
  split; [|by intros ? ?|done].
  unfold holdings. cbn [requests new_system world_of]. rewrite map_to_list_empty. cbn [omap list_omap].
  split; cbn; try done; try apply NoDup_nil_2; try lia; try (by apply Forall_nil_2).
  rewrite app_nil_r. unfold ngx_http_drizzle_keepalive_init. rewrite reverse_Permutation, map_map. cbn. by rewrite map_id.
Qed.

(** The states that the events lead to. *)
Inductive reached : system → Prop :=
  | reached_new : reached (new_system g)
  | reached_step s ev s' : reached s → ev_ok s ev → step g ev s = Some s' → reached s'.

Lemma reached_ok s : group_ok → reached s → sinv s.
Proof.
  intros G. induction 1 as [|s ev s' _ IH He E]; [apply new_system_ok|].
  destruct (pool_step_ok s ev G IH He) as (s'' & E' & I'). congruence.
Qed.

(** A connection of libdrizzle is used once. *)
Lemma dcon_once s : sinv s → NoDup (map h_dcon (all_held (holdings (requests s)) (world_of s))).
Proof. intros [W _ _]. exact (wi_dcons _ _ _ _ W). Qed.

Lemma holding_in s r q dc :
  requests s !! r = Some q → is_Some (connection q) → drizzle_con q = Some dc →
  ∃ h, h ∈ holdings (requests s) ∧ h.1.1 = in_request r ∧ h_dcon h = dc.
Proof.
  intros E [c Ec] Ed. exists (in_request r, c, dc). split; [|done]. apply list_elem_of_omap.
  exists (r, q). split; [by apply elem_of_map_to_list|]. unfold req_holding. cbn. by rewrite Ec, Ed.
Qed.

Lemma NoDup_map_inj {A B : Type} (f : A → B) (l : list A) x y :
  NoDup (map f l) → x ∈ l → y ∈ l → f x = f y → x = y.
Proof.
  induction l as [|z l IH]; [by intros _ ?%not_elem_of_nil|].
  cbn. intros [N1 N2]%NoDup_cons [->|Hx]%elem_of_cons [->|Hy]%elem_of_cons E; try done; [| |by apply IH].
  - exfalso. apply N1. rewrite E. by apply list_elem_of_fmap_2.
  - exfalso. apply N1. rewrite <- E. by apply list_elem_of_fmap_2.
Qed.

Lemma dcon_exclusive s r q dc :
  sinv s → requests s !! r = Some q → cleanup q = true → drizzle_con q = Some dc →
  (∀ r' q', requests s !! r' = Some q' → cleanup q' = true → drizzle_con q' = Some dc → r' = r)
  ∧ ∀ x, x ∈ cache (world_of s) → item_drizzle_con x ≠ Some dc.
Proof.
  intros I E Hcl Hd. pose proof (dcon_once s I) as N. destruct I as [W R _].
  assert (F : ∀ r q, requests s !! r = Some q → cleanup q = true → is_Some (connection q)).
  { intros r0 q0 E0 H0. destruct (R r0 q0 E0) as [_ Hq]. unfold request_ok in Hq. rewrite H0 in Hq.
    destruct Hq as (c & _ & -> & _). by eexists. }
  destruct (holding_in s r q dc E (F _ _ E Hcl) Hd) as (h & Hh & O & D). split.
  - intros r' q' E' Hcl' Hd'. destruct (holding_in s r' q' dc E' (F _ _ E' Hcl') Hd') as (h' & Hh' & O' & D').
    assert (h = h') as <-; [|congruence]. eapply (NoDup_map_inj h_dcon); [exact N|by apply elem_of_app; left..|congruence].
  - intros x Hx Ex. assert (h = item_holding x) as Eh; [|by rewrite Eh in O].
    eapply (NoDup_map_inj h_dcon); [exact N|by apply elem_of_app; left|apply elem_of_app; right; by apply list_elem_of_fmap_2|].
    unfold h_dcon at 2, item_holding. cbn. by rewrite Ex.
Qed.

End World.

(** * Theorems *)

(** C11. The connections to the data base are used safely: after any sequence of
    events (requests, progress, errors and time-outs of the data base, clients that
    go away, servers that close idle connections) that meets the conditions below,
    every further event is handled without a use of a connection that was freed and
    without freeing one twice; the counter of active connections is the number of
    connections that exist; every connection belongs to one request that has not
    ended, or to the pool, and to nobody else; the pool has all of its entries; and
    a block that rejects has no more connections than the pool has entries. The
    conditions: IPv4 servers with names that fit the buffers of libdrizzle
    (drizzle_block_ok), descriptors other than 0, no request ends with
    [NGX_DECLINED], new connections can be registered with the event model and, in a
    block that rejects, [ngx_get_connection] has one for the mark (when these two
    fail the code frees twice or follows NULL: register_failure_frees_twice). *)
Theorem pool_safe (g : group) (s : system) :
  group_ok g → reached g s →
  let w := world_of s in
  (∀ ev, ev_ok g s ev → ∃ s', step g ev s = Some s')
  ∧ active_conns w = Z.of_nat (size (conns w)) ∧ size (dcons w) = size (conns w)
  ∧ (∀ c d, conns w !! c = Some d →
       match conn_owner d with
       | in_request r => ∃ q, requests s !! r = Some q ∧ cleanup q = true ∧ connection q = Some c
       | in_pool i => ∃ x, x ∈ cache w ∧ item_id x = i ∧ item_connection x = Some c
       | nobody => False
       end)
  ∧ (∀ r q, requests s !! r = Some q → cleanup q = true →
       ∃ c dc d, connection q = Some c ∧ conns w !! c = Some d ∧ conn_owner d = in_request r
         ∧ drizzle_con q = Some dc ∧ is_Some (dcons w !! dc)
         ∧ (∀ r' q', requests s !! r' = Some q' → cleanup q' = true → drizzle_con q' = Some dc → r' = r)
         ∧ ∀ x, x ∈ cache w → item_drizzle_con x ≠ Some dc)
  ∧ (length (cache w) + length (free w) = pool_max g)%nat
  ∧ (pool_overflow g = drizzle_keepalive_overflow_reject → active_conns w <= Z.of_nat (pool_max g)).
Proof.
  intros G Hr w. pose proof (reached_ok g s G Hr) as I. pose proof I as [W _ _].
  destruct (held_count _ _ _ _ W) as [C1 C2]. pose proof (wi_active _ _ _ _ W) as Act.
  split; [intros ev He; destruct (pool_step_ok g s ev G I He) as (s' & ? & _); by exists s'|].
  split; [unfold w; by rewrite Act, C1|]. split; [unfold w; by rewrite C1, C2|].
  split; [intros c d Ed; by apply (conn_owner_ok g s c d I)|].
  split; [|split].
  - intros r q E Hcl. destruct (focus g s r q I E Hcl) as (c & dc & H).
    destruct (held_live _ _ _ _ _ _ _ H) as ((dd & E1) & d & _ & Ed & Eo & _).
    pose proof (hd_dcon _ _ _ _ _ _ _ H) as Hd. destruct (dcon_exclusive g s r q dc I E Hcl Hd) as [X1 X2].
    exists c, dc, d. split_and!; try done; [by apply (hd_conn _ _ _ _ _ _ _ H)|]. rewrite Hd in E1. cbn in E1. by eexists.
  - pose proof (Permutation_length (wi_queue _ _ _ _ W)) as L. rewrite app_nil_r, length_map, length_app, length_seq in L. exact L.
  - intros Hrej. pose proof (wi_reject _ _ _ _ W Hrej). unfold w. rewrite Act. lia.
Qed.

(** C12. Every request is answered exactly once, after any sequence of events that
    meets the conditions below: while a request waits it has no answer and holds a
    connection, so that events of this connection reach it; when it has ended it has
    one answer and holds nothing. The conditions: IPv4 servers with names that fit
    the buffers of libdrizzle (drizzle_block_ok), descriptors other than 0, no
    request ends with [NGX_DECLINED], new connections can be registered with the
    event model and, in a block that rejects, [ngx_get_connection] has one for the
    mark (when these two fail the worker may crash without an answer). *)
Theorem pool_answers (g : group) (s : system) (r : nat) (q : request) :
  group_ok g → reached g s → requests s !! r = Some q →
  if cleanup q
  then answered r s = 0%nat ∧ ∃ c d, connection q = Some c ∧ conns (world_of s) !! c = Some d ∧ conn_owner d = in_request r
  else answered r s = 1%nat ∧ connection q = None ∧ ∀ c d, conns (world_of s) !! c = Some d → conn_owner d ≠ in_request r.
Proof.
  intros G Hr E. pose proof (reached_ok g s G Hr) as I. pose proof I as [W R A].
  pose proof (A r) as Ar. rewrite E in Ar. destruct (cleanup q) eqn:Hcl.
  - split; [done|]. destruct (focus g s r q I E Hcl) as (c & dc & H).
    destruct (held_live _ _ _ _ _ _ _ H) as (_ & d & _ & Ed & Eo & _). exists c, d. split; [by apply (hd_conn _ _ _ _ _ _ _ H)|done].
  - split; [done|]. destruct (R r q E) as [_ Hq]. unfold request_ok in Hq. rewrite Hcl in Hq. split; [done|].
    intros c d Ed Eo. pose proof (conn_owner_ok g s c d I Ed) as Ho. rewrite Eo in Ho. destruct Ho as (q' & E' & Hcl' & _). congruence.
Qed.

(** ** An example *)

(** One server at 127.0.0.1:3306, a pool of two connections. *)
Definition example_peer : ngx_http_upstream_drizzle_peer_t :=
  mk_peer [2; 0; 12; 234; 127; 0; 0; 1; 0; 0; 0; 0; 0; 0; 0; 0] (bs "127.0.0.1:3306") 3306 (bs "root") (bs "123456")
    (bs "customer") [] (bs "127.0.0.1") ngx_http_mysql_protocol.

Definition example_group : group := mk_group [example_peer] true 2 drizzle_keepalive_overflow_reject.

Definition connects : connect_env := mk_connect_env Drizzle.DRIZZLE_RETURN_IO_WAIT 7 true true.

(** A request waits for its connection; the query is answered; a second request takes the
    connection from the pool. *)
Definition example_events : list event :=
  [ev_request (Some ([], bs "select 1")) connects (mk_progress false false false p_waits) false;
   ev_read 1 false false (mk_progress false true true (p_done NGX_DONE)) false false false;
   ev_request (Some ([], bs "select 2")) connects (mk_progress false true false p_waits) false].

Definition example_state (n : nat) : system :=
  default (new_system example_group) (run example_group (take n example_events) (new_system example_group)).

Example example_pool :
  map item_connection (cache (world_of (example_state 2))) = [Some 1%nat]
  ∧ connection <$> requests (example_state 3) !! 1%nat = Some (Some 1%nat)
  ∧ answers (example_state 3) = [(0%nat, inr tt)]
  ∧ active_conns (world_of (example_state 3)) = 1.
Proof. vm_compute. done. Qed.

Lemma example_group_ok : group_ok example_group.
Proof. split; [done|]. apply Forall_singleton. by repeat split; vm_compute; lia. Qed.

Definition example_event (n : nat) : event := default (ev_client 0 0) (example_events !! n).

Lemma example_step (n : nat) :
  (n < 3)%nat → step example_group (example_event n) (example_state n) = Some (example_state (S n)).
Proof. intros H. destruct n as [|[|[|n]]]; [vm_compute; reflexivity..|lia]. Qed.

Lemma connects_ok (w : world) : Z.of_nat (size (conns w)) + 1 < 2 ^ 64 → env_ok example_group connects w.
Proof. by repeat split. Qed.

Lemma example_reached_1 : reached example_group (example_state 1).
Proof.
  assert (R0 : reached example_group (example_state 0)) by apply reached_new.
  refine (reached_step _ _ (example_event 0) _ R0 _ (example_step 0 _)); [|lia].
  split; [by apply connects_ok|]. split; [done|]. intros db sql [= <- _]. unfold DRIZZLE_MAX_DB_SIZE. cbn. lia.
Qed.

Lemma example_reached : reached example_group (example_state 3).
Proof.
  assert (R2 : reached example_group (example_state 2)).
  { refine (reached_step _ _ (example_event 1) _ example_reached_1 _ (example_step 1 _)); [done|lia]. }
  refine (reached_step _ _ (example_event 2) _ R2 _ (example_step 2 _)); [|lia].
  split; [apply connects_ok; vm_compute; reflexivity|]. split; [done|].
  intros db sql [= <- _]. unfold DRIZZLE_MAX_DB_SIZE. cbn. lia.
Qed.

Lemma pool_safe_witness :
  active_conns (world_of (example_state 3)) = Z.of_nat (size (conns (world_of (example_state 3))))
  ∧ (length (cache (world_of (example_state 3))) + length (free (world_of (example_state 3))) = 2)%nat.
Proof.
  destruct (pool_safe example_group (example_state 3) example_group_ok example_reached) as (_ & H1 & _ & _ & _ & H2 & _).
  by split.
Defined.

Lemma pool_answers_witness :
  ∃ q, requests (example_state 3) !! 0%nat = Some q ∧ answered 0 (example_state 3) = 1%nat.
Proof.
  destruct (requests (example_state 3) !! 0%nat) as [q|] eqn:E; [|by vm_compute in E].
  exists q. split; [done|]. pose proof (pool_answers example_group (example_state 3) 0 q example_group_ok example_reached E) as H.
  assert (Hc : cleanup q = false) by (vm_compute in E; by injection E as <-). rewrite Hc in H. apply H.
Defined.

(** ** Connections are used again *)

(** A complete answer leaves the connection at the head of the cache. *)
Lemma free_peer_keeps g o c dc hs q w :
  held g o c dc hs q w → pool_max g ≠ 0%nat → keeps q = true →
  ∃ q' w', ngx_http_upstream_drizzle_free_peer g 0 q w = Some (q', w') ∧ connection q' = None ∧ winv g [] hs w'
    ∧ ∃ x rest, cache w' = x :: rest ∧ item_connection x = Some c ∧ item_drizzle_con x = Some dc
                ∧ item_has_set_names x = has_set_names q.
Proof.
  intros H Hm Hk. destruct (held_live _ _ _ _ _ _ _ H) as ((dd & E1) & _).
  unfold ngx_http_upstream_drizzle_free_peer. rewrite E1, (proj2 (Nat.eqb_neq _ _)) by done. cbn [negb].
  replace (match drizzle_con q with Some _ => _ | None => _ end) with (Some tt) by by destruct (drizzle_con q), (res_con q).
  pose proof (keepalive_free_peer_ok g _ _ _ _ 0 _ _ H Hm) as K. change (mark 0 q) with q in K. rewrite Hk in K.
  destruct K as (w' & -> & W' & Hx). cbn [mbind option_bind connection set_connection].
  eexists _, w'. split; [reflexivity|]. by split.
Qed.

Lemma finalize_keeps g o c dc hs q w :
  held g o c dc hs q w → pool_max g ≠ 0%nat → status_n q = NGX_HTTP_OK → header_sent q = true → content_left q = 0 →
  ∃ q' w', ngx_http_upstream_drizzle_finalize_request g NGX_OK q w = Some (q', w', Some (inr tt)) ∧ winv g [] hs w'
    ∧ ∃ x rest, cache w' = x :: rest ∧ item_connection x = Some c ∧ item_drizzle_con x = Some dc
                ∧ item_has_set_names x = has_set_names q.
Proof.
  intros H Hm K1 K2 K3. unfold ngx_http_upstream_drizzle_finalize_request.
  destruct (free_peer_keeps g o c dc hs (set_cleanup false q) w) as (q' & w' & -> & C & W & Hx); try done.
  - by eapply held_same.
  - unfold keeps. change (negb (failed q) && ((status_n q =? NGX_HTTP_NOT_FOUND) || (status_n q =? NGX_HTTP_GONE)
      || ((status_n q =? NGX_HTTP_OK) && header_sent q && (content_left q =? 0))) = true).
    by rewrite K1, K2, K3, (hd_failed _ _ _ _ _ _ _ H).
  - cbn [mbind option_bind]. rewrite C. cbn [mbind option_bind].
    assert (Fa : ∀ b, Drizzle.ngx_http_upstream_drizzle_finalize_request b NGX_OK = Some (inr tt)) by by intros [].
    rewrite Fa. by eexists _, w'.
Qed.

Lemma done_keeps g o c dc hs names queried header client_error q w :
  held g o c dc hs q w → pool_max g ≠ 0%nat →
  ∃ q' w', process_events g (mk_progress names queried header (p_done NGX_DONE)) client_error q w
           = Some (q', w', Some (inr tt))
    ∧ winv g [] hs w' ∧ ∃ x rest, cache w' = x :: rest ∧ item_connection x = Some c ∧ item_drizzle_con x = Some dc
                                  ∧ item_has_set_names x = has_set_names q || names.
Proof.
  intros H Hm. destruct (held_live _ _ _ _ _ _ _ H) as ((dd & E1) & d & E2 & _).
  unfold process_events. rewrite E1, E2. cbn [mbind option_bind pr_end]. change (NGX_DONE =? NGX_DONE) with true. cbv iota.
  match goal with |- context [ngx_http_upstream_drizzle_finalize_request g NGX_OK ?q1 w] =>
    destruct (finalize_keeps g o c dc hs q1 w) as (q' & w' & E & W & Hx) end; try done.
  - by eapply held_same.
  - rewrite E. by exists q', w'.
Qed.

Lemma take_item_active x q w q' w' : take_item x q w = Some (q', w') → active_conns w' = active_conns w.
Proof.
  unfold take_item. destruct (conn_at (item_connection x) w) as [[c d]|]; [|done]. cbn [mbind option_bind]. by intros [= _ <-].
Qed.

Lemma get_peer_head g e q w hs x rest c dc :
  winv g [] hs w → pool_max g ≠ 0%nat → pool_single g = true → cache w = x :: rest →
  item_connection x = Some c → item_drizzle_con x = Some dc →
  ∃ q' w', ngx_http_upstream_drizzle_get_peer g e q w = Some (NGX_DONE, q', w')
    ∧ held g (in_pool (item_id x)) c dc hs q' w' ∧ has_set_names q' = item_has_set_names x ∧ cleanup q' = cleanup q
    ∧ active_conns w' = active_conns w.
Proof.
  intros W Hm Hs Ec E1 E2. unfold ngx_http_upstream_drizzle_get_peer, ngx_http_drizzle_keepalive_get_peer_single.
  rewrite Hs, (proj2 (Nat.eqb_neq _ _)), Ec by done. cbn [negb andb].
  destruct (take_item_ok g hs w (set_failed false q) [] x rest W Ec) as (c' & dc' & w' & E & W' & Ec' & Ed').
  rewrite E1 in Ec'. rewrite E2 in Ed'. injection Ec' as <-. injection Ed' as <-. cbn [app] in E.
  pose proof (take_item_active _ _ _ _ _ E) as Act. rewrite E. cbn [mbind option_bind].
  pose proof (proj1 (Forall_cons _ _ _) (eq_ind _ (Forall item_ok) (wi_items _ _ _ _ W) _ Ec)) as [(_ & _ & A1 & A2) _].
  change (negb (NGX_DONE =? NGX_DECLINED)) with true. cbv iota. eexists _, w'. split; [reflexivity|]. split; [|done]. by split.
Qed.

Lemma start_head g r e db sql names queried header client_error w hs x rest c dc :
  winv g [] hs w → pool_max g ≠ 0%nat → pool_single g = true → cache w = x :: rest →
  item_connection x = Some c → item_drizzle_con x = Some dc →
  ∃ q' w', start_request g r (Some (db, sql)) e (mk_progress names queried header p_waits) client_error w = Some (q', w', None)
    ∧ connection q' = Some c ∧ drizzle_con q' = Some dc ∧ has_set_names q' = item_has_set_names x || names ∧ cleanup q' = true
    ∧ active_conns w' = active_conns w.
Proof.
  intros W Hm Hs Ec E1 E2. unfold start_request, ngx_http_upstream_dbd_connect.
  destruct (get_peer_head g e (new_request db sql) w hs x rest c dc W Hm Hs Ec E1 E2) as (q1 & w1 & -> & H & Hn & Hcl & Act).
  cbn [mbind option_bind]. destruct (held_live _ _ _ _ _ _ _ H) as (_ & d & E3 & E4 & _). rewrite E3. cbn [mbind option_bind].
  pose proof (held_owner _ _ _ _ _ _ _ _ r H E4) as H1. destruct (held_live _ _ _ _ _ _ _ H1) as ((dd & E5) & d1 & E6 & E7 & _ & Ef).
  change (NGX_DONE =? NGX_ERROR) with false. change (NGX_DONE =? NGX_DECLINED) with false. change (NGX_DONE =? NGX_AGAIN) with false.
  cbv iota. unfold process_events. rewrite E5, E6. cbn [mbind option_bind pr_end].
  cbn [connection set_header_sent set_has_set_names set_res_con]. rewrite (hd_conn _ _ _ _ _ _ _ H1), E7. cbn [mbind option_bind].
  rewrite (proj2 (Z.eqb_neq _ 0)) by done. eexists _, _. split; [reflexivity|].
  cbn [connection drizzle_con has_set_names cleanup set_header_sent set_has_set_names set_res_con].
  rewrite (hd_conn _ _ _ _ _ _ _ H1), (hd_dcon _ _ _ _ _ _ _ H1), Hn. by split_and!.
Qed.

(** The pool does what it is for: when the answer to a query was read to its
    end, the next request of the block (with a pool that does not tell servers
    apart) gets the same connection at once, whatever the system would answer to an
    attempt to connect; no connection is opened for it, and a character set that was
    set stays set. *)
Theorem pool_reuse (g : group) (s : system) (r c : nat) (q : request) (names queried header : bool)
    (closing stale ce1 ce2 : bool) (db sql : bytes) (e : connect_env) (names2 queried2 header2 : bool) :
  group_ok g → reached g s → pool_max g ≠ 0%nat → pool_single g = true →
  requests s !! r = Some q → cleanup q = true → connection q = Some c →
  ∃ s1 s2 q2,
    step g (ev_read c false false (mk_progress names queried header (p_done NGX_DONE)) ce1 closing stale) s = Some s1
    ∧ answers s1 = answers s ++ [(r, inr tt)]
    ∧ step g (ev_request (Some (db, sql)) e (mk_progress names2 queried2 header2 p_waits) ce2) s1 = Some s2
    ∧ requests s2 !! next_request s = Some q2 ∧ cleanup q2 = true
    ∧ connection q2 = Some c ∧ drizzle_con q2 = drizzle_con q
    ∧ has_set_names q2 = has_set_names q || names || names2
    ∧ active_conns (world_of s2) = active_conns (world_of s1).
Proof.
  intros G Hr Hm Hsi E Hcl Hc. pose proof (reached_ok g s G Hr) as I.
  destruct (focus g s r q I E Hcl) as (c' & dc & H). pose proof (hd_conn _ _ _ _ _ _ _ H) as Ec. rewrite Hc in Ec. injection Ec as <-.
  destruct (held_live _ _ _ _ _ _ _ H) as (_ & d & Ec & Ed & Eo & _).
  destruct (done_keeps g _ _ _ _ names queried header ce1 _ _ H Hm) as (q1 & w1 & E1 & W1 & x & rest & C1 & C2 & C3 & C4).
  destruct (start_head g (next_request s) e db sql names2 queried2 header2 ce2 w1 _ x rest c dc W1 Hm Hsi C1 C2 C3)
    as (q2 & w2 & E2 & D1 & D2 & D3 & D4 & D5).
  eexists (record_step r s (q1, w1, Some (inr tt))), _, q2. split; [|split; [reflexivity|split]].
  - cbn [step]. rewrite Ed, Eo. unfold on_request, request_event. rewrite E. cbn [mbind option_bind].
    rewrite Ec. cbn [mbind option_bind]. by rewrite E1.
  - cbn [step record_step world_of requests answers next_request]. rewrite E2. reflexivity.
  - cbn [record_step requests world_of]. rewrite lookup_insert_eq, (hd_dcon _ _ _ _ _ _ _ H), <- C4. by split_and!.
Qed.

Lemma pool_reuse_witness :
  ∃ q s2 q2, requests (example_state 1) !! 0%nat = Some q ∧ requests s2 !! 1%nat = Some q2 ∧ connection q2 = connection q.
Proof.
  destruct (requests (example_state 1) !! 0%nat) as [q|] eqn:E; [|by vm_compute in E].
  assert (Hq : cleanup q = true ∧ connection q = Some 1%nat) by (vm_compute in E; by injection E as <-).
  destruct Hq as [Hq1 Hq2].
  destruct (pool_reuse example_group (example_state 1) 0 1 q false true true false false false false [] (bs "select 2")
              connects false true false example_group_ok example_reached_1 ltac:(done) ltac:(done) E Hq1 Hq2)
    as (s1 & s2 & q2 & _ & _ & _ & E2 & _ & C & _).
  exists q, s2, q2. split; [done|]. split; [exact E2|congruence].
Defined.

(** ** Blocks that were configured *)

(** What [drizzle_server] guarantees of a server: the values fit into the buffers of
    libdrizzle, and the query for the character set has one literal. *)
Definition charset_query (sql : bytes) : Prop :=
  sql = [] ∨ ∃ name, name ≠ [] ∧ ("'"%ch ∉ name) ∧ sql = bs "set names '" ++ name ++ ["'"%ch].

Definition server_ok (s : ngx_http_upstream_drizzle_server_t) : Prop :=
  (length (DrizzleUpstream.dbname s) < DRIZZLE_MAX_DB_SIZE)%nat ∧ (length (user s) < DRIZZLE_MAX_USER_SIZE)%nat
  ∧ (length (password s) < DRIZZLE_MAX_PASSWORD_SIZE)%nat ∧ charset_query (DrizzleUpstream.set_names_query s).

Lemma server_param_ok value s s' :
  server_ok s → server_param value s = Some (inr s') → server_ok s' ∧ addrs s' = addrs s.
Proof.
  intros (H1 & H2 & H3 & H4). unfold server_param. destruct (after_word _ value).
  { case_match eqn:E; [done|]. apply Nat.leb_gt in E. intros [= <-]. by split. }
  destruct (after_word _ value); [case_match eqn:E; [done|]; apply Nat.leb_gt in E; intros [= <-]; by split|].
  destruct (after_word _ value); [case_match eqn:E; [done|]; apply Nat.leb_gt in E; intros [= <-]; by split|].
  destruct (after_word _ value); [repeat case_match; intros [= <-]; by split|].
  destruct (after_word _ value) as [v|]; [|done]. destruct v as [|x v]; [intros [= <-]; by split|]. cbn [length Nat.eqb].
  destruct (existsb _ (x :: v)) eqn:E; [done|]. intros [= <-]. split; [|done]. split_and!; try done. right.
  exists (x :: v). split; [done|]. split; [|done]. intros Hx. apply Bool.not_true_iff_false in E. apply E. apply existsb_exists.
  exists "'"%ch. split; [by apply list_elem_of_In|]. by rewrite Z.eqb_refl.
Qed.

Lemma server_params_ok values s s' :
  server_ok s → server_params values s = Some (inr s') → server_ok s' ∧ addrs s' = addrs s.
Proof.
  revert s. induction values as [|v values IH]; cbn; intros s Hs; [by intros [= <-]|].
  destruct (server_param v s) as [[|s1]|] eqn:E; [done| |done]. intros H.
  destruct (server_param_ok _ _ _ Hs E) as [H1 E1]. destruct (IH _ H1 H) as [H2 E2]. split; [done|congruence].
Qed.

Lemma keepalive_params_servers values c c' : keepalive_params values c = inr c' → servers c' = servers c.
Proof.
  revert c. induction values as [|v values IH]; cbn; intros c; [by intros [= <-]|].
  destruct (keepalive_param v c) as [|c1] eqn:E; [done|]. intros H. rewrite (IH _ H). revert E. unfold keepalive_param.
  repeat case_match; intros [= <-]; done.
Qed.

(** What the code relies on: [ngx_parse_url] gives at least one address, and the
    addresses are those of IPv4. *)
Definition ipv4_addresses (parse_url : bytes → Z → option (list ngx_addr_t * Z)) : Prop :=
  ∀ url p as_ port, parse_url url p = Some (as_, port) →
    as_ ≠ [] ∧ Forall (fun a => length (addr_sockaddr a) = sizeof_sockaddr) as_.

Definition server_addrs_ok (s : ngx_http_upstream_drizzle_server_t) : Prop :=
  server_ok s ∧ addrs s ≠ [] ∧ Forall (fun a => length (addr_sockaddr a) = sizeof_sockaddr) (addrs s).

Lemma run_block_ok parse_url cmds c c' :
  ipv4_addresses parse_url → Forall server_addrs_ok (servers c) →
  run_block parse_url cmds c = Some (inr c') → Forall server_addrs_ok (servers c').
Proof.
  intros Hp. revert c. induction cmds as [|cmd cmds IH]; cbn; intros c Hc; [by intros [= <-]|].
  destruct (run_block_command parse_url cmd c) as [[|c1]|] eqn:E; [done| |done]. apply IH.
  destruct cmd as [url values|values]; cbn in E.
  - unfold ngx_http_upstream_drizzle_server in E. destruct (parse_url _ _) as [[as_ port]|] eqn:Eu; [|done].
    destruct (server_params _ _) as [[|s]|] eqn:Es; [done| |done]. injection E as <-.
    apply Forall_app. split; [exact Hc|]. apply Forall_singleton.
    apply server_params_ok in Es as [H Ea]; [|by repeat split; vm_compute; try lia; left].
    split; [exact H|]. rewrite Ea. exact (Hp _ _ _ _ Eu).
  - unfold ngx_http_upstream_drizzle_keepalive in E. case_match; [done|]. injection E as E.
    by rewrite (keepalive_params_servers _ _ _ E).
Qed.

(** A block that was read is one that the pool works for: whatever directives
    it has, when the configuration is accepted and its servers have IPv4 addresses,
    there is a peer, the name of the data base, the user and the password of every
    peer fit into the buffers of libdrizzle, the address fits into a [struct
    sockaddr], and the query that sets the character set is one literal that nothing
    of the name ends early. *)
Theorem drizzle_block_ok (parse_url : bytes → Z → option (list ngx_addr_t * Z)) (ntop : bytes → bytes)
    (cmds : list block_command) (dscf : srv_conf) (ps : list ngx_http_upstream_drizzle_peer_t) :
  ipv4_addresses parse_url →
  run_block parse_url cmds ngx_http_upstream_drizzle_create_srv_conf = Some (inr dscf) →
  ngx_http_upstream_drizzle_init ntop dscf = Some ps →
  group_ok (group_of dscf ps) ∧ Forall (fun p => charset_query (peer_set_names_query p)) ps.
Proof.
  intros Hp Hr Hi. pose proof (run_block_ok _ _ ngx_http_upstream_drizzle_create_srv_conf _ Hp (Forall_nil_2 _) Hr) as Hs.
  unfold ngx_http_upstream_drizzle_init in Hi. destruct (servers dscf) as [|s ss]; [done|]. injection Hi as Hi.
  change (concat (map (fun s => map (make_peer ntop s) (addrs s)) (s :: ss)) = ps) in Hi.
  assert (A : ∀ p, p ∈ ps → peer_ok p ∧ charset_query (peer_set_names_query p)).
  { intros p Hin. rewrite <- Hi in Hin. apply list_elem_of_In, in_concat in Hin as (l & Hl & Hin).
    apply in_map_iff in Hl as (s' & <- & Hs'). apply in_map_iff in Hin as (a & <- & Ha).
    rewrite Forall_forall in Hs. destruct (Hs s') as ((B1 & B2 & B3 & B4) & _ & B5); [by apply list_elem_of_In|].
    rewrite Forall_forall in B5. split; [|done]. by split; [apply B5, list_elem_of_In|]. }
  split; [split|].
  - cbn [peers group_of]. rewrite <- Hi. apply Forall_cons in Hs as [(_ & Hne & _) _]. cbn. by destruct (addrs s).
  - apply Forall_forall. intros p Hin. by apply A.
  - apply Forall_forall. intros p Hin. by apply A.
Qed.

Definition example_parse_url (url : bytes) (p : Z) : option (list ngx_addr_t * Z) :=
  if decide (url = bs "127.0.0.1")
  then Some ([mk_addr [2; 0; 12; 234; 127; 0; 0; 1; 0; 0; 0; 0; 0; 0; 0; 0] (bs "127.0.0.1:3306")], p) else None.

Definition example_block : list block_command :=
  [drizzle_server (bs "127.0.0.1") [bs "dbname=customer"; bs "password=123456"; bs "user=root"; bs "protocol=mysql"; bs "charset=utf8"];
   drizzle_keepalive [bs "max=2"; bs "mode=single"; bs "overflow=reject"]].

Definition example_srv_conf : srv_conf :=
  match run_block example_parse_url example_block ngx_http_upstream_drizzle_create_srv_conf with
  | Some (inr c) => c
  | _ => ngx_http_upstream_drizzle_create_srv_conf
  end.

Definition example_peers : list ngx_http_upstream_drizzle_peer_t :=
  default [] (ngx_http_upstream_drizzle_init (fun _ => bs "127.0.0.1") example_srv_conf).

Lemma drizzle_block_ok_witness :
  group_ok (group_of example_srv_conf example_peers) ∧ pool_max (group_of example_srv_conf example_peers) = 2%nat
  ∧ map peer_set_names_query example_peers = [bs "set names 'utf8'"].
Proof.
  split; [|split; vm_compute; reflexivity].
  refine (proj1 (drizzle_block_ok example_parse_url (fun _ => bs "127.0.0.1") example_block _ _ _ _ _)).
  - intros url p as_ port. unfold example_parse_url. destruct (decide _); [|discriminate].
    intros [= <- _]. split; [discriminate|]. apply Forall_singleton. reflexivity.
  - vm_compute. reflexivity.
  - vm_compute. reflexivity.
Defined.

(** ** What the pool does wrong *)

Lemma open_unregistered e p q w :
  peer_ok p → (length (dbname q) < DRIZZLE_MAX_DB_SIZE)%nat →
  ce_connect e = Drizzle.DRIZZLE_RETURN_OK → ce_fd e ≠ -1 → ce_get_connection e = true → ce_add_conn e = false →
  ∃ q' w' c dc, open_connection e p q w = Some (NGX_ERROR, q', w')
    ∧ connection q' = Some c ∧ drizzle_con q' = Some dc ∧ res_con q' = res_con q ∧ dcons w' !! dc = None.
Proof.
  intros Hp Hdb E1 E2 E3 E4. unfold open_connection. destruct (make_dcon_ok p (ce_fd e) q Hp Hdb) as [d ->].
  rewrite E1, E3, E4, (proj2 (Z.eqb_neq (ce_fd e) (-1))) by done.
  cbn [mbind option_bind new_dcon new_conn negb orb andb Z.eqb]. unfold ngx_http_upstream_drizzle_free_connection.
  cbn [connection drizzle_con set_connection set_state dcons conns set_active_conns set_next_id set_dcons put_conn set_conns next_id].
  change (Drizzle.DRIZZLE_RETURN_OK =? Drizzle.DRIZZLE_RETURN_OK) with true. cbn [negb andb].
  rewrite lookup_insert_eq. cbn [mbind option_bind].
  cbn [connection drizzle_con set_connection set_state dcons conns set_active_conns set_next_id set_dcons put_conn set_conns next_id].
  rewrite lookup_insert_eq. cbn [mbind option_bind].
  eexists _, _, _, _. split; [reflexivity|]. split_and!; try reflexivity.
  cbn. apply lookup_delete_eq.
Qed.

(** When a connection was made and cannot be registered with the event model, the
    connection is freed by [ngx_http_upstream_drizzle_get_peer], and a second time when
    the request is ended because of the error. *)
Theorem register_failure_frees_twice (g : group) (s : system) (db sql : bytes) (e : connect_env) (o : progress)
    (client_error : bool) :
  group_ok g → reached g s → pool_max g = 0%nat → pool_overflow g = drizzle_keepalive_overflow_ignore →
  (length db < DRIZZLE_MAX_DB_SIZE)%nat →
  ce_connect e = Drizzle.DRIZZLE_RETURN_OK → ce_fd e ≠ -1 → ce_get_connection e = true → ce_add_conn e = false →
  step g (ev_request (Some (db, sql)) e o client_error) s = None.
Proof.
  intros [G1 G2] Hr Hm Hov Hdb E1 E2 E3 E4. pose proof (reached_ok g s (conj G1 G2) Hr) as [W _ _].
  cbn [step]. unfold start_request, ngx_http_upstream_dbd_connect, ngx_http_upstream_drizzle_get_peer.
  rewrite Hm, Hov. cbn [Nat.eqb negb andb mbind option_bind].
  change (negb (NGX_DECLINED =? NGX_DECLINED)) with false. cbv iota.
  destruct (next_peer_ok g _ _ _ (conj G1 G2) W) as (_ & p & Ep & Pok). cbv zeta in Ep.
  rewrite Ep. cbn [mbind option_bind]. change (negb (NGX_DECLINED =? NGX_DECLINED)) with false. cbv iota.
  match goal with |- context [open_connection e p ?q ?w] =>
    destruct (open_unregistered e p q w) as (q' & w' & c & dc & -> & C1 & C2 & C3 & C4) end; try done.
  cbn [mbind option_bind Z.eqb]. change (NGX_ERROR =? NGX_ERROR) with true. cbv iota.
  unfold ngx_http_upstream_drizzle_finalize_request, ngx_http_upstream_drizzle_free_peer.
  cbn [connection drizzle_con res_con set_cleanup]. rewrite C2, C3, Hm. cbn. rewrite C1. cbn. by rewrite C2, C4.
Qed.

(** A connection in the pool is found without regard to the data base: a request for the
    data base b runs on a connection to a. *)
Example pool_ignores_database :
  let evs := [ev_request (Some (bs "a", bs "select 1")) connects (mk_progress false false false p_waits) false;
              ev_read 1 false false (mk_progress false true true (p_done NGX_DONE)) false false false;
              ev_request (Some (bs "b", bs "select 2")) connects (mk_progress false true false p_waits) false] in
  ∃ s q dc d, run example_group evs (new_system example_group) = Some s ∧ requests s !! 1%nat = Some q
    ∧ dbname q = bs "b" ∧ drizzle_con q = Some dc ∧ dcons (world_of s) !! dc = Some d ∧ dcon_db d = bs "a".
Proof.
  cbv zeta. destruct (run example_group _ _) as [s|] eqn:E; [|by vm_compute in E]. vm_compute in E. injection E as <-.
  eexists _, _, _, _. split; [reflexivity|]. split; [vm_compute; reflexivity|]. split; [vm_compute; reflexivity|].
  split; [vm_compute; reflexivity|]. split; [vm_compute; reflexivity|]. vm_compute. reflexivity.
Qed.

End DrizzlePoolProof.
