(* ===== verification/DrizzleStatus.v ===== *)
(** The status page of the drizzle module and its variable: drizzle-nginx-module-master/src,
    [ngx_http_drizzle_status_handler] (ngx_http_drizzle_handler.c), which computes the
    length of the page in a first pass over the upstream blocks and prints it without
    bounds in a second, and [ngx_http_drizzle_set_thread_id_variable]
    (ngx_http_drizzle_util.c).

    The counters are of 64 bits, the format [%uD] prints 32 of them.  The length of the page
    is computed without wrap around, since it is bounded by the memory that the blocks
    take. *)

From S2P Require Import Prelude NgxNumber Redis2 DrizzleUpstream DrizzlePool DrizzlePoolProof.
From stdpp Require Import gmap.

Open Scope Z_scope.

Module DrizzleStatus.

Import DrizzleUpstream.

(** * Definitions *)

Definition NGX_HTTP_INTERNAL_SERVER_ERROR : Z := 500.
Definition NGX_HTTP_SPECIAL_RESPONSE : Z := 300.

(** ** ngx_http_drizzle_get_num_size *)

Fixpoint drizzle_num_size (fuel : nat) (i n : Z) : Z :=
  match fuel with
  | O => n
  | S fuel => let i := i / 10 in let n := n + 1 in if i >? 0 then drizzle_num_size fuel i n else n
  end.

Definition ngx_http_drizzle_get_num_size (i : Z) : Z := drizzle_num_size NGX_INT64_LEN i 0.

(** [ngx_sprintf(p, "%uD", n)]; [%P] of a process identifier. *)
Definition sprintf_uD (n : Z) : bytes := ngx_sprintf_num NGX_MAX_INT_T_VALUE (wrap_u 32 n) " "%ch 0 0.
Definition sprintf_P (n : Z) : bytes := ngx_sprintf_num NGX_MAX_INT_T_VALUE n " "%ch 0 0.

(** ** The blocks *)

(** [ngx_http_upstream_drizzle_srv_conf_t]: the two queues are given by the use counts of
    their entries; [st_servers] and [st_peers] are NULL when there are none. *)
Record status := mk_status {
  st_servers : option nat;
  st_peers : option Z;
  st_active_conns : Z;
  st_max_cached : Z;
  st_overflow : ngx_http_drizzle_keepalive_overflow_t;
  st_cache : list Z;
  st_free : list Z
}.

(** An upstream block: [srv_conf] is NULL for one that a directive made implicitly, and
    the entry of the module may be NULL. *)
Record upstream_block := mk_block { block_host : bytes; block_srv_conf : option (option status) }.

(** The blocks that are shown. *)
Definition shown (b : upstream_block) : option status :=
  match block_srv_conf b with
  | Some (Some dscf) => match st_servers dscf with Some _ => Some dscf | None => None end
  | _ => None
  end.

(** [sizeof(word) - 1]. *)
Definition size_of (word : bytes) : Z := Z.of_nat (length word).

Definition newline : bytes := [10].

(** ** First pass *)

Definition uses_len (items : list Z) : Z :=
  foldl (fun len used => len + (1 + ngx_http_drizzle_get_num_size used)) 0 items.

Definition pool_len (dscf : status) : Z :=
  (match st_overflow dscf with
   | drizzle_keepalive_overflow_ignore => size_of (bs "  overflow: ignore" ++ newline)
   | drizzle_keepalive_overflow_reject => size_of (bs "  overflow: reject" ++ newline)
   end)
  + (size_of (bs "  cached connection queue: " ++ newline)
     + ngx_http_drizzle_get_num_size (Z.of_nat (length (st_cache dscf)))
     + size_of (bs "  free'd connection queue: " ++ newline)
     + ngx_http_drizzle_get_num_size (Z.of_nat (length (st_free dscf)))
     + size_of (bs "  cached connection successfully used count:" ++ newline))
  + uses_len (st_cache dscf)
  + size_of (bs "  free'd connection successfully used count:" ++ newline)
  + uses_len (st_free dscf).

(** [None]: [dscf->peers] is NULL and followed. *)
Definition block_len (n : nat) (host : bytes) (dscf : status) : option Z :=
  servers ← st_servers dscf;
  number ← st_peers dscf;
  Some ((if (n =? 0)%nat then 0 else size_of newline)
        + (size_of (bs "upstream " ++ newline) + Z.of_nat (length host)
           + size_of (bs "  active connections: " ++ newline) + ngx_http_drizzle_get_num_size (st_active_conns dscf)
           + size_of (bs "  connection pool capacity: " ++ newline) + ngx_http_drizzle_get_num_size (st_max_cached dscf))
        + (if st_max_cached dscf =? 0 then 0 else pool_len dscf)
        + (size_of (bs "  servers: " ++ newline) + ngx_http_drizzle_get_num_size (Z.of_nat servers)
           + size_of (bs "  peers: " ++ newline) + ngx_http_drizzle_get_num_size number)).

Fixpoint blocks_len (n : nat) (bl : list upstream_block) : option Z :=
  match bl with
  | [] => Some 0
  | b :: bl =>
      match shown b with
      | None => blocks_len n bl
      | Some dscf => l ← block_len n (block_host b) dscf; rest ← blocks_len (S n) bl; Some (l + rest)
      end
  end.

Definition status_len (worker : option Z) (bl : list upstream_block) : option Z :=
  l ← blocks_len 0 bl;
  Some (match worker with
        | Some pid => size_of (bs "worker process: " ++ newline ++ newline) + ngx_http_drizzle_get_num_size pid
        | None => 0
        end + l).

(** ** Second pass *)

Definition print_uses (items : list Z) : bytes :=
  foldl (fun out used => out ++ (" "%ch :: sprintf_uD used)) [] items.

Definition print_pool (dscf : status) : bytes :=
  (match st_overflow dscf with
   | drizzle_keepalive_overflow_ignore => bs "  overflow: ignore" ++ newline
   | drizzle_keepalive_overflow_reject => bs "  overflow: reject" ++ newline
   end)
  ++ (bs "  cached connection queue: " ++ sprintf_uD (Z.of_nat (length (st_cache dscf))) ++ newline)
  ++ (bs "  free'd connection queue: " ++ sprintf_uD (Z.of_nat (length (st_free dscf))) ++ newline)
  ++ bs "  cached connection successfully used count:" ++ print_uses (st_cache dscf) ++ newline
  ++ bs "  free'd connection successfully used count:" ++ print_uses (st_free dscf) ++ newline.

Definition print_block (n : nat) (host : bytes) (dscf : status) : option bytes :=
  servers ← st_servers dscf;
  number ← st_peers dscf;
  Some ((if (n =? 0)%nat then [] else newline)
        ++ bs "upstream " ++ host ++ newline
        ++ (bs "  active connections: " ++ sprintf_uD (st_active_conns dscf) ++ newline)
        ++ (bs "  connection pool capacity: " ++ sprintf_uD (st_max_cached dscf) ++ newline)
        ++ (if st_max_cached dscf =? 0 then [] else print_pool dscf)
        ++ (bs "  servers: " ++ sprintf_uD (Z.of_nat servers) ++ newline)
        ++ (bs "  peers: " ++ sprintf_uD number ++ newline)).

Fixpoint print_blocks (n : nat) (bl : list upstream_block) : option bytes :=
  match bl with
  | [] => Some []
  | b :: bl =>
      match shown b with
      | None => print_blocks n bl
      | Some dscf => t ← print_block n (block_host b) dscf; rest ← print_blocks (S n) bl; Some (t ++ rest)
      end
  end.

Definition print_status (worker : option Z) (bl : list upstream_block) : option bytes :=
  t ← print_blocks 0 bl;
  Some (match worker with Some pid => bs "worker process: " ++ sprintf_P pid ++ newline ++ newline | None => [] end ++ t).

(** ** ngx_http_drizzle_status_handler *)

(** [worker]: the identifier of the process when it is a worker; [send_header]: what
    [ngx_http_send_header] returns.  [None] is a NULL that is followed or a byte behind the
    buffer that is written; the answer is a status, or the text given to the filters. *)
Definition ngx_http_drizzle_status_handler (worker : option Z) (send_header : Z) (bl : list upstream_block)
    : option (Z + bytes) :=
  len ← status_len worker bl;
  text ← print_status worker bl;
  if Z.of_nat (length text) >? len then None
  else if negb (Z.of_nat (length text) =? len) then Some (inl NGX_HTTP_INTERNAL_SERVER_ERROR)
  else if (send_header =? NGX_ERROR) || (NGX_HTTP_SPECIAL_RESPONSE <=? send_header) then Some (inl send_header)
  else Some (inr text).

(** The block of a group and the world of its requests. *)
Definition block_of (host : bytes) (dscf : srv_conf) (ps : list ngx_http_upstream_drizzle_peer_t)
    (w : DrizzlePool.world) : upstream_block :=
  mk_block host (Some (Some (mk_status
    (match servers dscf with [] => None | ss => Some (length ss) end) (Some (Z.of_nat (length ps)))
    (DrizzlePool.active_conns w) (max_cached dscf) (overflow dscf)
    (map DrizzlePool.item_used (DrizzlePool.cache w)) (map DrizzlePool.item_used (DrizzlePool.free w))))).

(** ** ngx_http_drizzle_set_thread_id_variable *)

Record ngx_http_variable_value_t := mk_value { v_data : bytes; v_valid : bool; v_no_cacheable : bool; v_not_found : bool }.

(** The handler of the variable [$drizzle_thread_id] before a connection is made. *)
Definition ngx_http_drizzle_tid_variable (v : ngx_http_variable_value_t) : ngx_http_variable_value_t :=
  mk_value [] true false false.

(** [tid]: the thread of the connection, when there is one; [vv]: the variable, when it is
    there.  The text is written into a buffer of [size] bytes without a bound, and [size]
    becomes the length of the value: [None] when the text does not have this length. *)
Definition ngx_http_drizzle_set_thread_id_variable (tid : option Z) (vv : option ngx_http_variable_value_t)
    : option (Z * option ngx_http_variable_value_t) :=
  match tid with
  | None => Some (NGX_ERROR, vv)
  | Some tid =>
      if tid =? 0 then Some (NGX_OK, vv)
      else
        let size := ngx_http_drizzle_get_num_size tid in
        match vv with
        | None => Some (NGX_ERROR, None)
        | Some _ =>
            let text := sprintf_uD tid in
            if Z.of_nat (length text) =? size then Some (NGX_OK, Some (mk_value text true false false)) else None
        end
  end.

(** * Specification *)

Definition numeral (n : Z) : bytes := sprintf_num_digits 0 n.

(** The lines about one block. *)
Definition pool_lines (dscf : status) : list bytes :=
  [match st_overflow dscf with
   | drizzle_keepalive_overflow_ignore => bs "  overflow: ignore"
   | drizzle_keepalive_overflow_reject => bs "  overflow: reject"
   end;
   bs "  cached connection queue: " ++ numeral (Z.of_nat (length (st_cache dscf)));
   bs "  free'd connection queue: " ++ numeral (Z.of_nat (length (st_free dscf)));
   bs "  cached connection successfully used count:" ++ concat (map (fun n => " "%ch :: numeral n) (st_cache dscf));
   bs "  free'd connection successfully used count:" ++ concat (map (fun n => " "%ch :: numeral n) (st_free dscf))].

Definition block_lines (host : bytes) (dscf : status) : list bytes :=
  [bs "upstream " ++ host;
   bs "  active connections: " ++ numeral (st_active_conns dscf);
   bs "  connection pool capacity: " ++ numeral (st_max_cached dscf)]
  ++ (if st_max_cached dscf =? 0 then [] else pool_lines dscf)
  ++ [bs "  servers: " ++ numeral (Z.of_nat (default 0%nat (st_servers dscf)));
      bs "  peers: " ++ numeral (default 0 (st_peers dscf))].

Definition unlines (ls : list bytes) : bytes := concat (map (fun l => l ++ newline) ls).

(** The blocks that are shown, with an empty line between two of them. *)
Fixpoint separated (ls : list bytes) : bytes :=
  match ls with
  | [] => []
  | [l] => l
  | l :: ls => l ++ newline ++ separated ls
  end.

Definition reports (bl : list upstream_block) : list bytes :=
  omap (fun b => dscf ← shown b; Some (unlines (block_lines (block_host b) dscf))) bl.

Definition status_page (worker : option Z) (bl : list upstream_block) : bytes :=
  match worker with Some pid => unlines [bs "worker process: " ++ numeral pid; []] | None => [] end
  ++ separated (reports bl).

(** The numbers of a block are below [m]. *)
Definition numbers (dscf : status) : list Z :=
  [st_active_conns dscf; st_max_cached dscf; Z.of_nat (length (st_cache dscf)); Z.of_nat (length (st_free dscf));
   Z.of_nat (default 0%nat (st_servers dscf)); default 0 (st_peers dscf)] ++ st_cache dscf ++ st_free dscf.

Definition fits (m : Z) (b : upstream_block) : Prop :=
  ∀ dscf, shown b = Some dscf → is_Some (st_peers dscf) ∧ Forall (fun n => 0 <= n < m) (numbers dscf).

(** * Theorems *)

(** ** Numbers *)

Lemma drizzle_num_size_numeral (n : Z) :
  0 <= n < 2 ^ 64 → ngx_http_drizzle_get_num_size n = Z.of_nat (length (numeral n)).
Proof. intros Hn. apply (Redis2.num_size_digits NGX_INT64_LEN (fun d => d + "0"%ch) n 0 []). lia. Qed.

Lemma num_size_mono fuel m n k : 0 <= m <= n → drizzle_num_size fuel m k <= drizzle_num_size fuel n k.
Proof.
  revert m n k. induction fuel as [|fuel IH]; intros m n k H; cbn; [lia|].
  pose proof (Z.div_le_mono m n 10 ltac:(lia) ltac:(lia)). pose proof (Z.div_pos m 10 ltac:(lia) ltac:(lia)).
  assert (G : ∀ f i k, k <= drizzle_num_size f i k).
  { intros f. induction f as [|f IHf]; intros i j; cbn; [lia|]. destruct (i / 10 >? 0); [|lia]. specialize (IHf (i / 10) (j + 1)). lia. }
  destruct (Z.gtb_spec (m / 10) 0), (Z.gtb_spec (n / 10) 0); try lia; [by apply IH|]. pose proof (G fuel (n / 10) (k + 1)). lia.
Qed.

Lemma numeral_printed (n : Z) : 0 <= n < 2 ^ 64 → ngx_sprintf_num NGX_MAX_INT_T_VALUE n " "%ch 0 0 = numeral n.
Proof. intros Hn. by destruct (Redis2.sprintf_uz_digits n Hn) as (H & _). Qed.

(** A number takes at most the space that was counted, and exactly this when it has 32 bits. *)
Lemma sprintf_uD_size (n : Z) :
  0 <= n < 2 ^ 64 → Z.of_nat (length (sprintf_uD n)) <= ngx_http_drizzle_get_num_size n.
Proof.
  intros Hn. unfold sprintf_uD, wrap_u. pose proof (Z.mod_pos_bound n (2 ^ 32) ltac:(lia)).
  rewrite numeral_printed, <- drizzle_num_size_numeral by lia. apply num_size_mono.
  pose proof (Z.mod_le n (2 ^ 32) ltac:(lia) ltac:(lia)). lia.
Qed.

Lemma sprintf_uD_numeral (n : Z) : 0 <= n < 2 ^ 32 → sprintf_uD n = numeral n.
Proof. intros Hn. unfold sprintf_uD, wrap_u. rewrite Z.mod_small by lia. apply numeral_printed. lia. Qed.

(** ** The page fits into its buffer *)

Lemma uses_fold (l : list Z) :
  uses_len l = foldr (fun used len => 1 + ngx_http_drizzle_get_num_size used + len) 0 l
  ∧ print_uses l = concat (map (fun n => " "%ch :: sprintf_uD n) l).
Proof.
  unfold uses_len, print_uses. split.
  - change (foldr _ 0 l) with (0 + foldr (fun used len => 1 + ngx_http_drizzle_get_num_size used + len) 0 l).
    generalize 0 at 1 2. induction l as [|x l IH]; intros k; cbn [foldl foldr]; [lia|]. rewrite IH. lia.
  - change (concat _) with ([] ++ concat (map (fun n => " "%ch :: sprintf_uD n) l)).
    generalize (@nil Z) at 1 2. induction l as [|x l IH]; intros k; cbn [foldl map concat]; [by rewrite app_nil_r|].
    by rewrite IH, <- app_assoc.
Qed.

Lemma uses_fit (l : list Z) : Forall (fun n => 0 <= n < 2 ^ 64) l → Z.of_nat (length (print_uses l)) <= uses_len l.
Proof.
  destruct (uses_fold l) as [-> ->]. induction 1 as [|n l Hn _ IH]; cbn [map concat foldr length]; [done|].
  cbn [app length]. rewrite length_app. pose proof (sprintf_uD_size n Hn). lia.
Qed.

Lemma block_fits n host dscf :
  is_Some (st_servers dscf) → is_Some (st_peers dscf) → Forall (fun n => 0 <= n < 2 ^ 64) (numbers dscf) →
  ∃ l t, block_len n host dscf = Some l ∧ print_block n host dscf = Some t ∧ Z.of_nat (length t) <= l.
Proof.
  intros [s Es] [p Ep]. unfold numbers, block_len, print_block. rewrite Es, Ep. cbn [default from_option id mbind option_bind app].
  rewrite !Forall_cons. intros (H1 & H2 & H3 & H4 & H5 & H6 & [H7 H8]%Forall_app).
  eexists _, _. split; [reflexivity|]. split; [reflexivity|].
  pose proof (uses_fit _ H7). pose proof (uses_fit _ H8).
  pose proof (sprintf_uD_size _ H1). pose proof (sprintf_uD_size _ H2). pose proof (sprintf_uD_size _ H3).
  pose proof (sprintf_uD_size _ H4). pose proof (sprintf_uD_size _ H5). pose proof (sprintf_uD_size _ H6).
  unfold pool_len, print_pool, size_of. destruct (n =? 0)%nat, (st_max_cached dscf =? 0), (st_overflow dscf);
    repeat (rewrite length_app; cbn [length]); cbn -[Z.add sprintf_uD ngx_http_drizzle_get_num_size Z.of_nat]; lia.
Qed.

Lemma blocks_fit n bl :
  Forall (fits (2 ^ 64)) bl →
  ∃ l t, blocks_len n bl = Some l ∧ print_blocks n bl = Some t ∧ Z.of_nat (length t) <= l.
Proof.
  intros H. revert n. induction H as [|b bl Hb _ IH]; intros n; cbn [blocks_len print_blocks]; [by exists 0, []|].
  destruct (shown b) as [dscf|] eqn:E; [|apply IH]. destruct (Hb dscf E) as [Hp Hn].
  destruct (block_fits n (block_host b) dscf) as (l & t & -> & -> & L); [|done..|].
  { unfold shown in E. repeat case_match; try done. injection E as <-. by eexists. }
  destruct (IH (S n)) as (l' & t' & -> & -> & L'). cbn [mbind option_bind].
  eexists _, _. split; [reflexivity|]. split; [reflexivity|]. rewrite length_app. lia.
Qed.

(** ** The page is exact *)

Lemma uses_exact (l : list Z) :
  Forall (fun n => 0 <= n < 2 ^ 32) l →
  print_uses l = concat (map (fun n => " "%ch :: numeral n) l) ∧ Z.of_nat (length (print_uses l)) = uses_len l.
Proof.
  destruct (uses_fold l) as [-> ->]. induction 1 as [|n l Hn _ [IH1 IH2]]; cbn [map concat foldr length]; [done|].
  rewrite sprintf_uD_numeral, IH1 by done. split; [done|]. cbn [app length]. rewrite length_app, <- IH1, drizzle_num_size_numeral by lia. lia.
Qed.

Lemma block_exact n host dscf :
  is_Some (st_servers dscf) → is_Some (st_peers dscf) → Forall (fun n => 0 <= n < 2 ^ 32) (numbers dscf) →
  let t := (if (n =? 0)%nat then [] else newline) ++ unlines (block_lines host dscf) in
  block_len n host dscf = Some (Z.of_nat (length t)) ∧ print_block n host dscf = Some t.
Proof.
  intros [s Es] [p Ep]. unfold numbers, block_len, print_block, block_lines. rewrite Es, Ep. cbn [default from_option id mbind option_bind app].
  rewrite !Forall_cons. intros (H1 & H2 & H3 & H4 & H5 & H6 & [H7 H8]%Forall_app).
  destruct (uses_exact _ H7) as [U1 U2], (uses_exact _ H8) as [U3 U4]. cbv zeta.
  unfold pool_len, print_pool, pool_lines. rewrite <- U2, <- U4, U1, U3, !sprintf_uD_numeral, !drizzle_num_size_numeral by lia.
  split; f_equal; [unfold size_of|]; destruct (n =? 0)%nat, (st_max_cached dscf =? 0), (st_overflow dscf); cbn [app];
    unfold unlines; cbn [map concat app]; rewrite <- ?app_assoc; try reflexivity;
    repeat (rewrite length_app; cbn [length]); cbn -[Z.add numeral Z.of_nat]; lia.
Qed.

Lemma separated_cons l ls : separated (l :: ls) = l ++ concat (map (app newline) ls).
Proof.
  revert l. induction ls as [|x ls IH]; intros l; [cbn; by rewrite app_nil_r|].
  change (separated (l :: x :: ls)) with (l ++ newline ++ separated (x :: ls)). rewrite IH. cbn [map concat].
  by rewrite <- !app_assoc.
Qed.

Lemma blocks_exact n bl :
  Forall (fits (2 ^ 32)) bl →
  let t := if (n =? 0)%nat then separated (reports bl) else concat (map (app newline) (reports bl)) in
  blocks_len n bl = Some (Z.of_nat (length t)) ∧ print_blocks n bl = Some t.
Proof.
  intros H. revert n. induction H as [|b bl Hb _ IH]; intros n; cbv zeta; [by destruct (n =? 0)%nat|].
  cbn [blocks_len print_blocks]. unfold reports in *. cbn [omap list_omap].
  destruct (shown b) as [dscf|] eqn:E; [|apply IH]. destruct (Hb dscf E) as [Hp Hn]. cbn [mbind option_bind].
  destruct (block_exact n (block_host b) dscf) as [-> ->]; [|done..|].
  { unfold shown in E. repeat case_match; try done. injection E as <-. by eexists. }
  destruct (IH (S n)) as [-> ->]. cbn [mbind option_bind Nat.eqb]. destruct (n =? 0)%nat.
  - rewrite separated_cons. split; [f_equal; rewrite !length_app; cbn [length]; lia|done].
  - cbn [map concat]. split; [f_equal; rewrite !length_app; lia|done].
Qed.

Lemma worker_exact pid :
  0 <= pid < 2 ^ 31 →
  bs "worker process: " ++ sprintf_P pid ++ newline ++ newline = unlines [bs "worker process: " ++ numeral pid; []]
  ∧ size_of (bs "worker process: " ++ newline ++ newline) + ngx_http_drizzle_get_num_size pid
    = Z.of_nat (length (unlines [bs "worker process: " ++ numeral pid; []])).
Proof.
  intros H. unfold sprintf_P. rewrite numeral_printed, drizzle_num_size_numeral by lia. unfold unlines. cbn [map concat].
  split; [by rewrite <- !app_assoc|]. unfold size_of.
  repeat (rewrite length_app; cbn [length]); cbn -[Z.add numeral Z.of_nat]; lia.
Qed.

(** The status page is printed without bounds into a buffer whose length was
    computed before: whatever blocks there are and whatever their 64-bit counters
    hold, no byte is written behind the buffer; and when the counters have 32 bits
    the page is exactly as long as was computed, so that it is sent, and its text is
    the lines about every block that has drizzle servers, with an empty line between
    two blocks. *)
Theorem drizzle_status_fits (worker : option Z) (send_header : Z) (bl : list upstream_block) :
  (∀ pid, worker = Some pid → 0 <= pid < 2 ^ 31) → Forall (fits (2 ^ 64)) bl →
  (∃ a, ngx_http_drizzle_status_handler worker send_header bl = Some a)
  ∧ (Forall (fits (2 ^ 32)) bl → send_header ≠ NGX_ERROR → send_header < NGX_HTTP_SPECIAL_RESPONSE →
     ngx_http_drizzle_status_handler worker send_header bl = Some (inr (status_page worker bl))).
Proof.
  intros Hw Hb. unfold ngx_http_drizzle_status_handler, status_len, print_status, status_page. split.
  - destruct (blocks_fit 0 bl Hb) as (l & t & -> & -> & L). cbn [mbind option_bind].
    destruct worker as [pid|]; [destruct (worker_exact pid (Hw pid eq_refl)) as [-> ->]|]; rewrite length_app;
      (case_match eqn:E; [apply Z.gtb_lt in E; cbn [length] in E; lia|repeat case_match; by eexists]).
  - intros Hs H1 H2. destruct (blocks_exact 0 bl Hs) as [-> ->]. cbn [mbind option_bind Nat.eqb].
    assert (E : (send_header =? NGX_ERROR) || (NGX_HTTP_SPECIAL_RESPONSE <=? send_header) = false) by lia. rewrite E.
    destruct worker as [pid|]; [destruct (worker_exact pid (Hw pid eq_refl)) as [-> ->]|]; rewrite length_app;
      (case_match eqn:E1; [apply Z.gtb_lt in E1; cbn [length] in E1; lia|case_match eqn:E2; [apply negb_true_iff, Z.eqb_neq in E2; cbn [length] in E2; lia|done]]).
Qed.

Definition example_blocks : list upstream_block :=
  [mk_block (bs "db") (Some (Some (mk_status (Some 1%nat) (Some 1) 2 2 drizzle_keepalive_overflow_reject [5] [0])));
   mk_block (bs "proxy") None;
   mk_block (bs "log") (Some (Some (mk_status (Some 2%nat) (Some 3) 0 0 drizzle_keepalive_overflow_ignore [] [])))].

Lemma example_blocks_fit m : 5 < m → Forall (fits m) example_blocks.
Proof.
  intros Hm. repeat apply Forall_cons_2; [..|by apply Forall_nil_2];
    intros dscf E; cbn in E; try discriminate E; injection E as <-; split; [by eexists|..|by eexists|];
    repeat apply Forall_cons_2; try apply Forall_nil_2; cbn; lia.
Qed.

Lemma drizzle_status_fits_witness :
  ngx_http_drizzle_status_handler (Some 4242) NGX_OK example_blocks = Some (inr (status_page (Some 4242) example_blocks)).
Proof.
  refine (proj2 (drizzle_status_fits (Some 4242) NGX_OK example_blocks _ _) _ _ _).
  - intros pid [= <-]. lia.
  - by apply example_blocks_fit.
  - by apply example_blocks_fit.
  - discriminate.
  - reflexivity.
Defined.

(** The thread of a connection, a number of 32 bits, is the value of the variable. *)
Theorem drizzle_thread_id (tid : Z) (vv : ngx_http_variable_value_t) :
  0 < tid < 2 ^ 32 →
  ngx_http_drizzle_set_thread_id_variable (Some tid) (Some vv) = Some (NGX_OK, Some (mk_value (numeral tid) true false false))
  ∧ dec_value 0 (numeral tid) = tid.
Proof.
  intros H. unfold ngx_http_drizzle_set_thread_id_variable. rewrite (proj2 (Z.eqb_neq tid 0)) by lia.
  rewrite sprintf_uD_numeral, drizzle_num_size_numeral, Z.eqb_refl by lia. split; [done|].
  by destruct (sprintf_num_digits_dec tid) as (_ & _ & Hv & _); [lia|].
Qed.

(** The numbers of a block's page are those of its pool: after any events, the counts of
    the two queues make up the capacity, and the active connections are the ones that
    exist. *)
Theorem drizzle_status_of_pool (host : bytes) (dscf : srv_conf) (ps : list ngx_http_upstream_drizzle_peer_t)
    (s : DrizzlePool.system) (st : status) :
  DrizzlePoolProof.group_ok (DrizzlePool.group_of dscf ps) → 0 <= max_cached dscf →
  DrizzlePoolProof.reached (DrizzlePool.group_of dscf ps) s →
  shown (block_of host dscf ps (DrizzlePool.world_of s)) = Some st →
  Z.of_nat (length (st_cache st)) + Z.of_nat (length (st_free st)) = st_max_cached st
  ∧ st_active_conns st = Z.of_nat (size (DrizzlePool.conns (DrizzlePool.world_of s))).
Proof.
  intros G Hm Hr E. destruct (DrizzlePoolProof.reached_ok _ _ G Hr) as [W _ _].
  pose proof (Permutation_length (DrizzlePoolProof.wi_queue _ _ _ _ W)) as L. rewrite app_nil_r, length_map, length_app, length_seq in L.
  pose proof (DrizzlePoolProof.wi_active _ _ _ _ W) as Act. destruct (DrizzlePoolProof.held_count _ _ _ _ W) as [C _].
  unfold shown in E. cbn in E, L. destruct (servers dscf); [discriminate E|]. injection E as <-. cbn.
  rewrite !length_map. split; [lia|]. by rewrite Act, C.
Qed.

End DrizzleStatus.
